(* ===== verification/_CoqProject ===== *)
-Q . S2P
Prelude.v
Sql.v
GoStr.v
GoFloat.v
GoRound.v
GoTime.v
Model.v
Base64.v
Tasks.v
TaskQueue.v
TaskLease.v
Worker.v
TaskExamples.v
Tokens.v
Users.v
Jobs.v
Alerts.v
Auth.v
Ratelimit.v
NetAddr.v
Config.v
ConfigCheck.v
ConfigValid.v
AccountExamples.v
Cleaner.v
Filter.v
Scoring.v
NodeStore.v
Pools.v
Purity.v
NodesDB.v
NodeExamples.v
NetUrl.v
Links.v
Clash.v
Exporter.v
ExportProofs.v
LinkProofs.v
Content.v
ClashProofs.v
Publish.v
HotCache.v
LinkExamples.v
Outbound.v
Dial.v
DialJob.v
DialProofs.v
DialVerdict.v
Fetch.v
Sources.v
Select.v
Runtime.v
ServiceExamples.v
Runner.v
RunnerProofs.v
Harvest.v
QualityJob.v
DialStage.v
Geo.v
AIAccess.v
Enrich.v
Program.v
JobExamples.v
Web.v
Serve.v
Admin.v
Views.v
Status.v
Scheduler.v
Routes.v
AccessProofs.v
RouteProofs.v
TenantProofs.v
SubProofs.v
SecretProofs.v
ApiExamples.v
Schema.v
Metrics.v
Pipeline.v
WebRoot.v
