(* ===== verification/Prelude.v ===== *)
(** * NodeHarvest: a verification library

    NodeHarvest collects proxy nodes from subscriptions, cleans and scores
    them, keeps them in a store and a database, and publishes the best as
    subscriptions of its own.  This library models the program in the
    order of that pipeline and proves what makes each part correct.  The Go
    names are kept; paths are relative to [src/internal/].

    ** Parts and files

    The language and its standard library.  [GoStr.v] (byte strings, [strings],
    [strconv], [unicode], UTF-8), [GoFloat.v] and [GoRound.v] (binary64 and its
    rounding), [GoTime.v] ([time.Time] as nanoseconds since
    year 1, the two text formats of [timex] and [db.fmtTime]), [Base64.v]
    ([encoding/base64]), [NetAddr.v] ([net/netip]), [NetUrl.v]
    ([net/url]), [Sql.v] (tables as finite maps, the statements the program
    runs on them, and cursors).  All of them are executable; what depends on
    tables outside the sources (Unicode case, digests, the time zone) is a type
    class: [Unicode], [Crypto], [TzData].

    The data model.  [Model.v]: [model/node.go]; one module per struct, named
    as the struct, with its fields.

    The durable queue.  [Tasks.v] has the operations of [db/tasks.go], one
    definition per function and per SQL statement; [TaskQueue.v] makes them a
    step relation ([step], [exec]) with the invariant of all reachable
    tables; [TaskLease.v] is about instants (leases, back-off, pages).
    [Worker.v] has the goroutines of [queue/queue.go] as a step relation over
    that table, and shows that they refine the queue and that no task is run
    twice at a time.

    The other tables of [db/].  [Tokens.v], [Users.v], [Jobs.v] (jobs, events,
    audit, retention), [Alerts.v] (alerts, configuration versions, source
    states), [NodesDB.v] (nodes and metrics).  [Schema.v] has the options of
    the connection, the placeholders of the two dialects and the migration.

    Access.  [Auth.v]: [auth/session.go], [auth/tokens.go];
    [Ratelimit.v]: [middleware/ratelimit.go].

    Configuration.  [Config.v] (structs, defaults), [ConfigCheck.v]
    (normalisation), [ConfigValid.v] (validation, runtime patches):
    [config/config.go], [enterprise.go], [runtime.go].

    The pipeline.  [Links.v] ([parser/protocols.go]), [Clash.v]
    ([parser/clash.go]), [Content.v] ([parser/parser.go]), [Cleaner.v],
    [Filter.v], [Scoring.v] ([quality/]), [Purity.v], [NodeStore.v]
    ([store/store.go]), [Pools.v], [Exporter.v] ([exporter/exporter.go]),
    [Publish.v] ([publish/cache.go]).  [ExportProofs.v], [LinkProofs.v],
    [ClashProofs.v], [Content.v] and [Publish.v] relate them.

    Dialling.  [Outbound.v] ([dialer/outbound.go], [xray.go]: the
    configuration of each engine), [Dial.v] ([dialer/dialer.go]: programs,
    ports, a probe), [DialJob.v] (the candidates, the plan and one round of
    [doDial] in [service/service.go]); [DialProofs.v] and [DialVerdict.v] are
    about them.

    The service, [service/service.go] and [fetcher/fetcher.go].  [Fetch.v] (a
    source is fetched, with its retries), [Sources.v] (the states of the sources
    and their circuit breaker), [Select.v] (what is published), [Runtime.v]
    (updates of the configuration and the start), [Runner.v] (a job from its
    submission to what the queue is told), and the stages of a job: [Harvest.v]
    ([doFetch]), [QualityJob.v] ([doQuality]), [DialStage.v] ([doDial]).  A job
    is a pair of its record and the state of the service, a stage a function on
    such pairs that ends done, with an error or with a panic; [Stages.t] is the
    record of the stages and [stages_ok] what the jobs need of them, which each
    stage proves.  [Enrich.v] has the other stages ([doGeo], [doAI], [doPurity],
    [doExport] and [Export] of [exporter/]), on [AIAccess.v] ([aiaccess/]) and
    [Geo.v].  Each file ends with what its part promises; [RunnerProofs.v] is
    about the jobs over any stages that keep the interface, and [Program.v]
    puts the program's own stages together and shows that they keep it.

    The server, [api/server.go].  [Web.v] (requests, replies, the state of the
    server, handlers as computations that may end early, the roles, the
    boundary of the management, the origins), [Serve.v] (the subscriptions and
    the checks of Sub-Store), [Admin.v] (accounts, tokens, users, tasks,
    alerts, sources, the configuration, jobs), [Views.v] (nodes, statistics,
    the dashboard, exports), [Status.v] (health, sources, settings, event
    streams) and [Routes.v] (the table of the routes, the router and the whole
    of [serve]).  [AccessProofs.v] has a logic of postconditions ([wp])
    for handlers; it, [RouteProofs.v], [TenantProofs.v],
    [SubProofs.v] and [SecretProofs.v] use it for every endpoint at once.

    Beside it.  [Geo.v] ([geo/geo.go], [geo/annotate.go]: the country of a
    node, and the databases it is read from), [Scheduler.v]
    ([scheduler/scheduler.go]), [Metrics.v] ([metrics/metrics.go]: the counters
    and their page), [HotCache.v] ([hotcache/redis.go], [objectstore/s3.go]:
    what the workers of several hosts share), [WebRoot.v] (the files of the
    frontend, [cmd/server/main.go]) and [Pipeline.v] ([tester/tester.go],
    [pipeline/pipeline.go], [cmd/nodeharvest/main.go]: the way through the
    program without a service).

    The files called [*Examples.v] run the model on concrete inputs.

    ** How state and effects are modelled

    A mutex-protected structure is a record, and an operation a function from
    the record to the record; goroutines over shared state are step relations
    ([TaskQueue.step], [Worker.qstep]).  A table is a [gmap] from its primary
    key to its rows.  An error is a value of [result] ([Ok], [Err]); a run-time
    panic is the error [ErrPanic].  Clock readings, random bytes and the
    answers of the network and of the file system are arguments, one per
    reading.  A Go [int] is a [Z], wrapped where the code can overflow
    ([wrap64]); a [float64] is [float64], bit for bit.  Where the code ranges
    over a map, the order is an arbitrary permutation (the classes [MapRange]
    and [CountRange], or a relation).

    ** What is shown

    - Queue: well-formedness under any interleaving; a lease takes the best
      due task and excludes other workers; stale workers are rejected;
      capacity, attempts and back-off are exact; lost tasks are recovered; the
      pages enumerate the table; workers refine the queue.
    - Accounts: a session is accepted exactly when it was signed; issued
      sessions and created tokens grant what they were made for; quotas, bursts
      and forwarded addresses.
    - Configuration: what a validated configuration guarantees, and patches.
    - Nodes: exact deduplication, histories, listings that do not depend on map
      order, pruning, bounds of the score, durable round trips.
    - Dialling: the engines get configurations that address the node; the
      verdict of a round is that of the authoritative engine and the one that
      publication reads; a dial job settles its rounds one by one.
    - The service: what a fetch, a harvest, a quality run and a dial job leave
      in the store, also when they are broken off; the circuit breaker and
      restarts; what is published; updates of the configuration; every job of
      the program ends, whatever its seven stages meet, the queue is told how,
      and the store stays well formed.
    - The server: without a session nothing changes but bookkeeping; the
      boundary of the management has no gaps; the tenants are isolated; a token
      is served only what it may see; credentials stay hidden below the role of
      an administrator.
    - The schema: a database of any earlier version is upgraded without loss,
      and a second migration changes nothing.
    - Several hosts: the lock of the publication excludes, and a dead host
      frees it.
    - The frontend serves only files of its directory; a run of the command
      line exports only what it tested.
    - Links and exports: an exported subscription reads back to every node
      exported; a Clash proxy reads back; names are unique; the published cache
      is exact and survives a crash.

    ** Fuel

    Recursion that is not structural runs on fuel that is computed from the
    input: [claim_loop] has one step more than there are names in use,
    [exchange_sort] the length of its list, [find_uris] and [take_uri] the
    length of the text, [alloc_loop] the 200 rounds of the code.  The theorems
    are about the functions with that fuel, so enough fuel is part of what is
    proved.

    ** Not modelled

    Of [api/server.go] the profiler, which is only guarded, and what is
    [net/http]'s: the parsing of a request, the writing of a reply.  What a
    probe reports of its progress on the way, the logs, tracing
    ([observability/]), the constraints and the types of the columns, the wiring of the parts in the commands and
    their signals.  The network clients of [fetcher/], [dialer/], [quality/],
    [purity/], [tester/], [aiaccess/], [hotcache/] and [objectstore/] are their
    answers; an error of the database driver, as opposed to one of an
    operation, is not modelled.  Of the modelled packages, the parts that only
    open files, connections or processes.  Third-party code and code under the
    language's runtime that is not translated is a parameter with named laws:
    [encoding/json] and YAML ([OptionsCodec], [NodeCodec], [LinkJson],
    [ClashCodec], ...), bcrypt ([Bcrypt]), Redis ([RedisLaws]), the public
    suffix list.  Every theorem of the properties with such a hypothesis is run
    on concrete parameters in an examples file. *)
From Stdlib Require Export ZArith Lia Ascii String.
From stdpp Require Export base list gmap strings sorting.

#[export] Set Warnings "-clear-no-such-hyp".

(** stdpp keeps [nat_scope] first; the Go code computes on machine integers,
    which are [Z] throughout this library. *)
#[global] Open Scope string_scope.
#[global] Open Scope bool_scope.
#[global] Open Scope list_scope.
#[global] Open Scope Z_scope.

(** ** Functional record update

    [r <| f := v |>] is [r] with the field [f] replaced by [v]: what a Go
    assignment [r.f = v] does to the struct.  [Eta R] holds the expansion of
    a record into its fields; [Updatable] is solved by abstracting the
    projection out of that expansion. *)
Class Eta (R : Type) := eta_expand : R → R.

Class Updatable {R F : Type} (f : R → F) := upd : (F → F) → R → R.

Ltac solve_updatable :=
  match goal with
  | |- @Updatable ?R ?F ?f =>
      let g := fresh "g" in
      let r := fresh "r" in
      unfold Updatable; intros g r;
      let b := eval hnf in (eta_expand r) in
      let p := eval pattern (f r) in b in
      match p with
      | ?h _ => let res := eval cbv beta in (h (g (f r))) in exact res
      end
  end.

#[export] Hint Extern 0 (Updatable _) => solve_updatable : typeclass_instances.

Declare Scope go_scope.
Delimit Scope go_scope with go.
#[global] Open Scope go_scope.

Notation "r <| f := v |>" := (upd (f := f) (fun _ => v) r)
  (at level 1, f constr at level 10, v constr at level 200, left associativity) : go_scope.

(** ** Errors

    The Go functions return [(value, error)].  The sentinel errors the code
    tests with [errors.Is] are constructors; every other error is its
    message; a run-time panic is an error of its own. *)
Inductive error :=
  | ErrNoRows
  | ErrQueueFull
  | ErrCanceled
  | ErrMsg (msg : string)
  | ErrPanic (what : string).

#[export] Instance error_eq_dec : EqDecision error.
Proof. solve_decision. Defined.

Inductive result (A : Type) :=
  | Ok (a : A)
  | Err (e : error).
Arguments Ok {A} a.
Arguments Err {A} e.

Definition is_ok {A} (r : result A) : bool :=
  match r with Ok _ => true | Err _ => false end.

Definition rbind {A B} (r : result A) (f : A → result B) : result B :=
  match r with Ok a => f a | Err e => Err e end.

Notation "'let!' x := r 'in' k" := (rbind r (fun x => k))
  (at level 10, x pattern, r at level 100, k at level 200) : go_scope.

(** ** Machine integers

    [int], [int64] and [time.Duration] are 64-bit two's complement. *)
Definition wrap64 (z : Z) : Z := (z + 2 ^ 63) mod 2 ^ 64 - 2 ^ 63.

Definition int64_range (z : Z) : Prop := - 2 ^ 63 ≤ z < 2 ^ 63.

Lemma wrap64_id z : int64_range z → wrap64 z = z.
Proof. unfold int64_range, wrap64. intros. rewrite Z.mod_small; lia. Qed.

Lemma wrap64_range z : int64_range (wrap64 z).
Proof.
  unfold int64_range, wrap64.
  pose proof (Z.mod_pos_bound (z + 2 ^ 63) (2 ^ 64)). lia.
Qed.

(** ** Boolean reflection *)

Create HintDb go discriminated.

(** [bsplit] turns boolean conjunctions, disjunctions and tests into their
    propositions, everywhere. *)
Ltac bsplit :=
  repeat match goal with
  | H : (_ && _) = true |- _ => apply andb_prop in H; destruct H
  | H : (_ || _) = false |- _ => apply orb_false_elim in H; destruct H
  | H : negb _ = true |- _ => apply negb_true_iff in H
  | H : negb _ = false |- _ => apply negb_false_iff in H
  | H : (_ =? _)%string = true |- _ => apply String.eqb_eq in H
  | H : (_ =? _)%string = false |- _ => apply String.eqb_neq in H
  | H : (_ =? _)%Z = true |- _ => apply Z.eqb_eq in H
  | H : (_ =? _)%Z = false |- _ => apply Z.eqb_neq in H
  | H : (_ <? _)%Z = true |- _ => apply Z.ltb_lt in H
  | H : (_ <? _)%Z = false |- _ => apply Z.ltb_ge in H
  | H : (_ <=? _)%Z = true |- _ => apply Z.leb_le in H
  | H : (_ <=? _)%Z = false |- _ => apply Z.leb_gt in H
  | H : bool_decide _ = true |- _ => apply bool_decide_eq_true in H
  | H : bool_decide _ = false |- _ => apply bool_decide_eq_false in H
  end.

(** [case_if] splits on the test of the outermost visible [if]. *)
Ltac case_if_in H :=
  match type of H with
  | context [if ?b then _ else _] => let E := fresh "E" in destruct b eqn:E
  end.
Ltac case_if :=
  match goal with
  | |- context [if ?b then _ else _] => let E := fresh "E" in destruct b eqn:E
  end.

(** ** Order-preserving deduplication

    The loop [for _, x := range l { if !seen[x] { seen[x] = true;
    out = append(out, x) } }], which several packages repeat. *)
Section dedup.
Context {A : Type} `{Countable A}.

Fixpoint dedup_seen (seen : gset A) (l : list A) : list A :=
  match l with
  | [] => []
  | x :: l =>
      if decide (x ∈ seen) then dedup_seen seen l
      else x :: dedup_seen ({[x]} ∪ seen) l
  end.

Definition dedup (l : list A) : list A := dedup_seen ∅ l.

Lemma elem_of_dedup_seen seen l x :
  x ∈ dedup_seen seen l ↔ x ∈ l ∧ x ∉ seen.
Proof.
  revert seen; induction l as [|y l IH]; intros seen; simpl.
  - set_solver.
  - case_decide.
    + rewrite IH. set_solver.
    + rewrite elem_of_cons, IH. destruct (decide (x = y)) as [->|]; set_solver.
Qed.

Lemma elem_of_dedup l x : x ∈ dedup l ↔ x ∈ l.
Proof. unfold dedup. rewrite elem_of_dedup_seen. set_solver. Qed.

Lemma NoDup_dedup_seen seen l : NoDup (dedup_seen seen l).
Proof.
  revert seen; induction l as [|y l IH]; intros seen; simpl; [constructor|].
  case_decide; [apply IH|]. constructor; [|apply IH].
  rewrite elem_of_dedup_seen. set_solver.
Qed.

Lemma NoDup_dedup l : NoDup (dedup l).
Proof. apply NoDup_dedup_seen. Qed.

Lemma dedup_seen_id seen l :
  NoDup l → (∀ x, x ∈ l → x ∉ seen) → dedup_seen seen l = l.
Proof.
  intros Hnd; revert seen; induction Hnd as [|y l Hy Hnd IH]; intros seen Hs;
    simpl; [done|].
  rewrite decide_False by set_solver. f_equal. apply IH.
  intros x Hx. rewrite elem_of_union, elem_of_singleton.
  intros [->|]; [done|]. eapply Hs; [|done]. by right.
Qed.

(** Deduplication is idempotent: it fixes duplicate-free lists. *)
Lemma dedup_NoDup l : NoDup l → dedup l = l.
Proof. intros. apply dedup_seen_id; set_solver. Qed.

Lemma dedup_seen_sublist seen l : sublist (dedup_seen seen l) l.
Proof.
  revert seen; induction l as [|y l IH]; intros seen; simpl; [constructor|].
  case_decide; constructor; apply IH.
Qed.

(** The kept occurrences are in the order of the input. *)
Lemma dedup_sublist l : sublist (dedup l) l.
Proof. apply dedup_seen_sublist. Qed.
End dedup.

(** ** Stable sorting

    [sort.SliceStable(l, less)].  On a strict weak order the stable sort of a
    list is unique, so an insertion sort computes what Go's block-insertion
    and symmetric-merge algorithm computes. *)
Section stable_sort.
Context {A : Type}.
Implicit Types less : A → A → bool.

Fixpoint sinsert less (x : A) (l : list A) : list A :=
  match l with
  | [] => [x]
  | y :: l => if less y x then y :: sinsert less x l else x :: y :: l
  end.

Definition stable_sort less (l : list A) : list A := foldr (sinsert less) [] l.

(** [less] is a strict weak order on the elements satisfying [P]. *)
Class StrictWeak (P : A → Prop) less := {
  sw_irrefl x : P x → less x x = false;
  sw_negtrans x y z : P x → P y → P z →
    less x y = false → less y z = false → less x z = false;
  sw_asym x y : P x → P y → less x y = true → less y x = false;
}.

Definition sorted_by less : list A → Prop :=
  StronglySorted (λ a b, less b a = false).

Lemma sinsert_perm less x l : sinsert less x l ≡ₚ x :: l.
Proof.
  induction l as [|y l IH]; simpl; [done|].
  case_if; [|done]. rewrite IH. apply Permutation_swap.
Qed.

Lemma stable_sort_perm less l : stable_sort less l ≡ₚ l.
Proof.
  induction l as [|x l IH]; simpl; [done|]. by rewrite sinsert_perm, IH.
Qed.

Lemma length_stable_sort less l : length (stable_sort less l) = length l.
Proof. by rewrite stable_sort_perm. Qed.

Lemma elem_of_stable_sort less l x : x ∈ stable_sort less l ↔ x ∈ l.
Proof. by rewrite stable_sort_perm. Qed.

Context (P : A → Prop) less `{!StrictWeak P less}.

Lemma sinsert_sorted x l :
  P x → Forall P l → sorted_by less l → sorted_by less (sinsert less x l).
Proof.
  intros Hx HP Hs; induction Hs as [|y l Hs IH Hall]; simpl.
  { repeat constructor. }
  apply Forall_cons_1 in HP as [Hy HP]. case_if.
  - constructor; [by apply IH|]. rewrite sinsert_perm. constructor.
    + by apply sw_asym.
    + done.
  - constructor; [by constructor|]. constructor; [done|].
    rewrite !Forall_forall in *. intros z Hz.
    apply (sw_negtrans z y x); auto.
Qed.

Lemma stable_sort_sorted l : Forall P l → sorted_by less (stable_sort less l).
Proof.
  induction 1 as [|x l Hx HP IH]; simpl; [constructor|].
  apply sinsert_sorted; [done| |done]. by rewrite stable_sort_perm.
Qed.

(** Elements equivalent to [k] keep their order. *)
Definition sequiv (k x : A) : bool := negb (less k x) && negb (less x k).

Lemma sinsert_filter k x l :
  P k → P x → Forall P l →
  List.filter (sequiv k) (sinsert less x l) = List.filter (sequiv k) (x :: l).
Proof.
  intros Hk Hx HP; induction HP as [|y l Hy HP IH]; simpl; [done|].
  destruct (less y x) eqn:E; simpl; [|done].
  rewrite IH; simpl.
  destruct (sequiv k y) eqn:Ey, (sequiv k x) eqn:Ex; try done.
  unfold sequiv in Ey, Ex. bsplit.
  assert (less y x = false); [|congruence].
  by apply (sw_negtrans y k x).
Qed.

Lemma stable_sort_stable k l :
  P k → Forall P l →
  List.filter (sequiv k) (stable_sort less l) = List.filter (sequiv k) l.
Proof.
  intros Hk; induction 1 as [|x l Hx HP IH]; simpl; [done|].
  rewrite sinsert_filter by (done || by rewrite stable_sort_perm).
  simpl. by rewrite IH.
Qed.

(** With an order that separates distinct elements, sorting forgets the
    order of the input: the result of ranging over a Go map and sorting is
    deterministic. *)
Lemma sorted_by_unique l1 l2 :
  (∀ x y, x ∈ l1 → y ∈ l1 → less x y = false → less y x = false → x = y) →
  l1 ≡ₚ l2 → sorted_by less l1 → sorted_by less l2 → l1 = l2.
Proof.
  intros Htot Hp Hs1; revert l2 Hp; induction Hs1 as [|x l1 Hs1 IH Hall];
    intros l2 Hp Hs2.
  { by apply Permutation_nil_l in Hp. }
  destruct Hs2 as [|y l2 Hs2 Hall2]; [by apply Permutation_nil_r in Hp|].
  assert (x = y) as ->.
  { assert (y ∈ x :: l1) as Hy by (rewrite Hp; left).
    assert (x ∈ y :: l2) as Hx by (rewrite <-Hp; left).
    apply elem_of_cons in Hy as [->|Hy]; [done|].
    apply elem_of_cons in Hx as [->|Hx]; [done|].
    rewrite Forall_forall in Hall, Hall2.
    apply Htot; [by left|by right|by apply Hall2|by apply Hall]. }
  f_equal. apply IH.
  - intros; apply Htot; try (by right); done.
  - by apply (inj (y ::.)) in Hp.
  - done.
Qed.

Lemma stable_sort_unique l1 l2 :
  Forall P l1 →
  (∀ x y, x ∈ l1 → y ∈ l1 → less x y = false → less y x = false → x = y) →
  l1 ≡ₚ l2 → stable_sort less l1 = stable_sort less l2.
Proof.
  intros HP Htot Hp. apply sorted_by_unique.
  - intros x y. rewrite !elem_of_stable_sort. by apply Htot.
  - by rewrite !stable_sort_perm.
  - by apply stable_sort_sorted.
  - apply stable_sort_sorted. by rewrite <-Hp.
Qed.

(** Selecting commutes with sorting by such an order. *)
Lemma sorted_by_filter (q : A → bool) l : sorted_by less l → sorted_by less (List.filter q l).
Proof.
  induction 1 as [|x l Hs IH Hall]; simpl; [constructor|]. case_if; [|done].
  constructor; [done|]. rewrite Forall_forall in *. intros y Hy. apply Hall.
  rewrite list_elem_of_In, List.filter_In, <-list_elem_of_In in Hy. tauto.
Qed.

Lemma filter_perm (q : A → bool) l1 l2 : l1 ≡ₚ l2 → List.filter q l1 ≡ₚ List.filter q l2.
Proof.
  induction 1 as [|x l1 l2 Hp IH|x y l|l1 l2 l3 H1 IH1 H2 IH2]; simpl; [done| | |].
  - case_if; [by apply Permutation_skip|done].
  - repeat case_if; [apply Permutation_swap|done..].
  - by etrans.
Qed.

Lemma stable_sort_filter (q : A → bool) l :
  Forall P l →
  (∀ x y, x ∈ l → y ∈ l → less x y = false → less y x = false → x = y) →
  stable_sort less (List.filter q l) = List.filter q (stable_sort less l).
Proof.
  intros HP Htot.
  assert (Hin : ∀ x, x ∈ stable_sort less (List.filter q l) → x ∈ l).
  { intros x. rewrite elem_of_stable_sort, list_elem_of_In, List.filter_In, <-list_elem_of_In. tauto. }
  apply sorted_by_unique.
  - intros x y Hx Hy. apply Htot; auto.
  - rewrite stable_sort_perm. apply filter_perm. by rewrite stable_sort_perm.
  - apply stable_sort_sorted. rewrite Forall_forall in *. intros x Hx. apply HP.
    rewrite list_elem_of_In, List.filter_In, <-list_elem_of_In in Hx. tauto.
  - by apply sorted_by_filter, stable_sort_sorted.
Qed.

(** A keyset cursor: what the order puts after [x] is the rest of the list. *)
Lemma filter_after pre x post :
  NoDup (pre ++ x :: post) → P x → sorted_by less (pre ++ x :: post) →
  (∀ y, y ∈ post → less x y = false → less y x = false → x = y) →
  List.filter (less x) (pre ++ x :: post) = post.
Proof.
  intros Hnd Hx Hs Htot. rewrite List.filter_app. simpl.
  rewrite (sw_irrefl x Hx).
  assert (List.filter (less x) pre = []) as ->.
  { clear Hnd Htot. induction pre as [|y pre IH]; simpl; [done|].
    apply StronglySorted_inv in Hs as [Hs Hall]. rewrite Forall_forall in Hall.
    rewrite (Hall x) by (apply elem_of_app; right; left). by apply IH. }
  simpl. apply NoDup_app in Hnd as (_ & _ & Hnd). apply NoDup_cons in Hnd as [Hni _].
  assert (Hall : Forall (λ b, less b x = false) post).
  { clear Hni Htot. induction pre as [|y pre IH]; simpl in Hs;
      apply StronglySorted_inv in Hs as [Hs Hall]; [done|by apply IH]. }
  clear Hs. induction post as [|y post IH]; simpl; [done|].
  apply Forall_cons in Hall as [Hy Hall]. apply not_elem_of_cons in Hni as [Hne Hni].
  destruct (less x y) eqn:E.
  - f_equal. apply IH; try done. intros z Hz. apply Htot. by right.
  - exfalso. apply Hne. apply Htot; [by left|done|done].
Qed.
End stable_sort.

(** ** Comparators

    The [less] functions of the program compare a sequence of keys in turn.  A
    comparator is a three-way comparison by such a key; comparators compose
    lexicographically, and each one gives a strict weak order. *)
Definition lexc (c1 c2 : comparison) : comparison :=
  match c1 with Eq => c2 | _ => c1 end.

Lemma lexc_assoc a b c : lexc (lexc a b) c = lexc a (lexc b c).
Proof. by destruct a. Qed.

Definition lt_of (c : comparison) : bool := match c with Lt => true | _ => false end.

Section comparators.
Context {A : Type}.
Implicit Types (P : A → Prop) (cmp : A → A → comparison).

Class Comparator P cmp := {
  cmp_opp x y : P x → P y → cmp y x = CompOpp (cmp x y);
  cmp_trans x y z : P x → P y → P z → cmp x y ≠ Gt → cmp y z ≠ Gt → cmp x z ≠ Gt;
}.

#[export] Instance comparator_weak P cmp `{!Comparator P cmp} :
  StrictWeak P (λ x y, lt_of (cmp x y)).
Proof.
  split.
  - intros x Hx. pose proof (cmp_opp x x Hx Hx). by destruct (cmp x x).
  - intros x y z Hx Hy Hz H1 H2.
    pose proof (cmp_opp x y Hx Hy). pose proof (cmp_opp y z Hy Hz).
    pose proof (cmp_opp x z Hx Hz). pose proof (cmp_trans z y x Hz Hy Hx).
    destruct (cmp x y), (cmp y z), (cmp x z); simpl in *; try done; simplify_eq;
      repeat match goal with H : cmp _ _ = _ |- _ => rewrite H in * end; by naive_solver.
  - intros x y Hx Hy. rewrite (cmp_opp x y) by done. by destruct (cmp x y).
Qed.

#[export] Instance lex_comparator P c1 c2 `{!Comparator P c1, !Comparator P c2} :
  Comparator P (λ x y, lexc (c1 x y) (c2 x y)).
Proof.
  split.
  - intros x y Hx Hy. rewrite (cmp_opp (cmp := c1) x y), (cmp_opp (cmp := c2) x y) by done.
    by destruct (c1 x y).
  - intros x y z Hx Hy Hz.
    pose proof (cmp_trans (cmp := c1) x y z Hx Hy Hz).
    pose proof (cmp_trans (cmp := c1) z x y Hz Hx Hy).
    pose proof (cmp_trans (cmp := c1) y z x Hy Hz Hx).
    pose proof (cmp_trans (cmp := c2) x y z Hx Hy Hz).
    rewrite (cmp_opp (cmp := c1) x z), (cmp_opp (cmp := c1) y z),
      (cmp_opp (cmp := c1) x y) in * by done.
    destruct (c1 x y), (c1 y z), (c1 x z); simpl in *; naive_solver.
Qed.

Lemma flip_comparator P cmp `{!Comparator P cmp} :
  Comparator P (λ x y, cmp y x).
Proof.
  split.
  - intros x y Hx Hy. by apply cmp_opp.
  - intros x y z Hx Hy Hz H1 H2. by apply (cmp_trans z y x).
Qed.

#[export] Instance Z_comparator P (f : A → Z) : Comparator P (λ x y, Z.compare (f x) (f y)).
Proof.
  split.
  - intros x y _ _. apply Z.compare_antisym.
  - intros x y z _ _ _. rewrite !Z.compare_le_iff. lia.
Qed.

Lemma string_leb_compare s t : String.leb s t = true ↔ String.compare s t ≠ Gt.
Proof. unfold String.leb. by destruct (String.compare s t). Qed.

#[export] Instance string_comparator P (f : A → string) :
  Comparator P (λ x y, String.compare (f x) (f y)).
Proof.
  split.
  - intros x y _ _. apply String.compare_antisym.
  - intros x y z _ _ _. rewrite <-!string_leb_compare. intros H1 H2.
    apply Is_true_true. etrans; apply Is_true_true; [exact H1|exact H2].
Qed.

(** The same keys in descending order. *)
#[export] Instance Z_comparator_desc P (f : A → Z) : Comparator P (λ x y, Z.compare (f y) (f x)).
Proof. apply (flip_comparator P (λ x y, Z.compare (f x) (f y))). Qed.

#[export] Instance string_comparator_desc P (f : A → string) :
  Comparator P (λ x y, String.compare (f y) (f x)).
Proof. apply (flip_comparator P (λ x y, String.compare (f x) (f y))). Qed.
End comparators.

(** Truncating a sorted list keeps a best prefix: nothing dropped precedes
    anything kept. *)
Lemma sorted_by_take_drop {A} (less : A → A → bool) l n x y :
  sorted_by less l → x ∈ take n l → y ∈ drop n l → less y x = false.
Proof.
  intros Hs; revert n; induction Hs as [|a l Hs IH Hall]; intros n Hx Hy.
  { rewrite take_nil in Hx. set_solver. }
  destruct n as [|n]; simpl in *; [set_solver|].
  apply elem_of_cons in Hx as [->|Hx]; [|by eapply IH].
  rewrite Forall_forall in Hall. apply Hall.
  rewrite <-(take_drop n l). set_solver.
Qed.

Lemma sorted_by_take {A} (less : A → A → bool) l n :
  sorted_by less l → sorted_by less (take n l).
Proof.
  intros Hs; revert n; induction Hs as [|a l Hs IH Hall]; intros [|n]; simpl;
    try constructor; [apply IH|].
  rewrite Forall_forall in *. intros x Hx. apply Hall.
  rewrite <-(take_drop n l). set_solver.
Qed.

(** [out = out[:n]] when [n > 0 && len(out) > n]. *)
Definition truncate {A} (n : Z) (l : list A) : list A :=
  if (0 <? n) && (n <? Z.of_nat (length l)) then take (Z.to_nat n) l else l.

Lemma length_truncate {A} n (l : list A) :
  0 < n → Z.of_nat (length (truncate n l)) ≤ n.
Proof.
  intros. unfold truncate. case_if; [rewrite length_take; lia|].
  apply andb_false_iff in E as [E|E]; bsplit; lia.
Qed.

Lemma truncate_prefix {A} n (l : list A) : ∃ k, truncate n l = take k l.
Proof.
  unfold truncate. case_if; [eauto|]. exists (length l). by rewrite firstn_all.
Qed.

Lemma truncate_sublist {A} n (l : list A) x : x ∈ truncate n l → x ∈ l.
Proof.
  destruct (truncate_prefix n l) as [k ->]. intros.
  rewrite <-(take_drop k l). set_solver.
Qed.

Lemma elem_of_list_filter_bool {A} (f : A → bool) l x :
  x ∈ List.filter f l ↔ x ∈ l ∧ f x = true.
Proof. by rewrite !list_elem_of_In, List.filter_In. Qed.

(** [out] is the front of the stable sort of [l]: nothing left out precedes
    anything kept, and equivalent elements keep their order. *)
Definition best_first {A} (P : A → Prop) (less : A → A → bool) (l out : list A) : Prop :=
  ∃ rest, out ++ rest ≡ₚ l ∧ sorted_by less out ∧
    (∀ x y, x ∈ out → y ∈ rest → less y x = false) ∧
    (∀ k, P k → List.filter (sequiv less k) (out ++ rest) = List.filter (sequiv less k) l).

Lemma truncate_best_first {A} (P : A → Prop) less `{!StrictWeak P less} n l :
  Forall P l → best_first P less l (truncate n (stable_sort less l)).
Proof.
  intros HP. destruct (truncate_prefix n (stable_sort less l)) as [k ->].
  pose proof (stable_sort_sorted P less l HP) as Hs.
  exists (drop k (stable_sort less l)). rewrite take_drop. split_and!.
  - apply stable_sort_perm.
  - by apply sorted_by_take.
  - intros x y. by apply sorted_by_take_drop.
  - intros x Hx. by apply (stable_sort_stable P).
Qed.

Lemma strict_weak_ext {A} (P : A → Prop) (less less' : A → A → bool) :
  StrictWeak P less → (∀ x y, P x → P y → less' x y = less x y) → StrictWeak P less'.
Proof.
  intros [H1 H2 H3] Heq. split.
  - intros x Hx. rewrite Heq by done. auto.
  - intros x y z Hx Hy Hz. rewrite !Heq by done. eauto.
  - intros x y Hx Hy. rewrite !Heq by done. eauto.
Qed.

#[export] Hint Rewrite @elem_of_stable_sort @elem_of_list_filter_bool
  @elem_of_dedup : go.
