(* ===== verification/Sql.v ===== *)
(** * Tables and statements

    A table of [internal/db] is a finite map from its primary key to its rows.
    The statements the program runs on a table are definitions on that map:
    [UPDATE ... WHERE], [DELETE ... WHERE], [SELECT COUNT( * )] and the listing
    [SELECT ... WHERE ... ORDER BY ... LIMIT], with the laws of its cursor. *)
From S2P Require Import Prelude.

Section statements.
Context {A : Type}.
Implicit Types (t : gmap string A) (p : A → bool).

Definition rows t : list A := (map_to_list t).*2.

(** [UPDATE t SET ... WHERE p] and its number of affected rows *)
Definition update_where p (f : A → A) t : gmap string A := (λ r, if p r then f r else r) <$> t.
Definition count_where p t : Z := Z.of_nat (length (List.filter p (rows t))).

(** [DELETE FROM t WHERE p] *)
Definition delete_where p t : gmap string A := filter (λ kr, p kr.2 = false) t.

(** [SELECT ... WHERE p ORDER BY less LIMIT limit] *)
Definition select_page p (less : A → A → bool) (limit : Z) t : list A :=
  take (Z.to_nat limit) (stable_sort less (List.filter p (rows t))).

Lemma lookup_update_where p f t k :
  update_where p f t !! k = (λ r, if p r then f r else r) <$> t !! k.
Proof. unfold update_where. apply lookup_fmap. Qed.

Lemma update_where_none p f t :
  (∀ k r, t !! k = Some r → p r = false) → update_where p f t = t.
Proof.
  intros Hp. apply map_eq. intros k. rewrite lookup_update_where.
  destruct (t !! k) eqn:E; [|done]. simpl. by rewrite (Hp _ _ E).
Qed.

Lemma elem_of_rows t r : r ∈ rows t ↔ ∃ k, t !! k = Some r.
Proof.
  unfold rows. rewrite list_elem_of_fmap. split.
  - intros ([k r'] & -> & Hin). exists k. by apply elem_of_map_to_list in Hin.
  - intros [k Hk]. exists (k, r). split; [done|]. by apply elem_of_map_to_list.
Qed.

Lemma rows_insert t k r : t !! k = None → rows (<[k:=r]> t) ≡ₚ r :: rows t.
Proof. intros Hk. unfold rows. by rewrite map_to_list_insert. Qed.

Lemma length_filter_perm p l1 l2 :
  l1 ≡ₚ l2 → length (List.filter p l1) = length (List.filter p l2).
Proof. intros Hp. by rewrite (filter_perm p l1 l2 Hp). Qed.

Lemma count_where_insert p t k r :
  t !! k = None →
  count_where p (<[k:=r]> t) = (if p r then 1 else 0) + count_where p t.
Proof.
  intros Hk. unfold count_where.
  rewrite (length_filter_perm _ _ _ (rows_insert t k r Hk)). simpl.
  destruct (p r); simpl; lia.
Qed.

Lemma count_where_nonneg p t : 0 ≤ count_where p t.
Proof. unfold count_where. lia. Qed.

Lemma count_where_empty p : count_where p ∅ = 0.
Proof. reflexivity. Qed.

Lemma count_where_ext p q t : (∀ r, p r = q r) → count_where p t = count_where q t.
Proof. intros Hp. unfold count_where. by rewrite (List.filter_ext p q). Qed.

Lemma count_where_zero p t : count_where p t = 0 ↔ ∀ k r, t !! k = Some r → p r = false.
Proof.
  unfold count_where. split.
  - intros Hz k r Hk. destruct (p r) eqn:E; [|done].
    assert (r ∈ List.filter p (rows t)) as Hin.
    { apply elem_of_list_filter_bool. split; [|done]. apply elem_of_rows. eauto. }
    destruct (List.filter p (rows t)); [set_solver|simpl in Hz; lia].
  - intros Hf. destruct (List.filter p (rows t)) as [|r l] eqn:E; [done|].
    assert (r ∈ List.filter p (rows t)) as Hin by (rewrite E; left).
    apply elem_of_list_filter_bool in Hin as [[k Hk]%elem_of_rows Hp].
    rewrite (Hf _ _ Hk) in Hp. done.
Qed.

Lemma lookup_delete_where p t k r :
  delete_where p t !! k = Some r ↔ t !! k = Some r ∧ p r = false.
Proof. unfold delete_where. by rewrite map_lookup_filter_Some. Qed.
End statements.

(** Rows that carry their primary key. *)
Section keyed.
Context {A : Type} {key : A → string}.
Implicit Types (t : gmap string A).

Definition keyed t : Prop := ∀ k r, t !! k = Some r → key r = k.

Lemma update_where_keyed p f t : (∀ r, key (f r) = key r) → keyed t → keyed (update_where p f t).
Proof.
  intros Hf Hk k r. rewrite lookup_update_where, fmap_Some.
  intros (r' & Hr' & ->). case_if; rewrite ?Hf; by apply Hk.
Qed.

Lemma delete_where_keyed p t : keyed t → keyed (delete_where p t).
Proof. intros Hk k r [? _]%lookup_delete_where. by apply Hk. Qed.

Lemma insert_keyed t r : keyed t → keyed (<[key r := r]> t).
Proof.
  intros Hk k r' Hr'. destruct (decide (key r = k)) as [<-|]; simplify_map_eq; auto.
Qed.

(** A condition on the primary key selects at most the row stored there. *)
Lemma count_where_id t id q :
  keyed t →
  count_where (λ r, (key r =? id)%string && q r) t =
  match t !! id with Some r => if q r then 1 else 0 | None => 0 end.
Proof.
  induction t as [|k r t Hk IH] using map_ind; intros Hkeyed.
  { by rewrite lookup_empty. }
  assert (key r = k) as Hid by (apply Hkeyed; by simplify_map_eq).
  assert (keyed t) as Ht.
  { intros k' r' Hk'. apply Hkeyed. rewrite lookup_insert_ne by congruence. done. }
  rewrite count_where_insert, IH by done. rewrite Hid.
  destruct (String.eqb_spec k id) as [->|Hne]; simpl.
  - rewrite Hk. simplify_map_eq. by destruct (q r).
  - by simplify_map_eq.
Qed.

Lemma update_where_id id q f t r :
  keyed t → t !! id = Some r → q r = true →
  update_where (λ r, (key r =? id)%string && q r) f t = <[id := f r]> t.
Proof.
  intros Hk Hr Hq. apply map_eq. intros k. rewrite lookup_update_where.
  destruct (decide (id = k)) as [->|Hne].
  - rewrite lookup_insert_eq, Hr. simpl. by rewrite (Hk _ _ Hr), String.eqb_refl, Hq.
  - rewrite lookup_insert_ne by done. destruct (t !! k) as [r'|] eqn:E; [|done]. simpl.
    rewrite (Hk _ _ E). by rewrite (proj2 (String.eqb_neq _ _)) by done.
Qed.

Lemma rows_NoDup_id t x y : keyed t → x ∈ rows t → y ∈ rows t → key x = key y → x = y.
Proof.
  intros Hk [kx Hx]%elem_of_rows [ky Hy]%elem_of_rows Heq.
  rewrite (Hk _ _ Hx), (Hk _ _ Hy) in Heq. congruence.
Qed.

Lemma rows_NoDup t : keyed t → NoDup (rows t).
Proof.
  intros Hk. unfold rows. apply (NoDup_fmap_1 key).
  assert (key <$> (map_to_list t).*2 = (map_to_list t).*1) as ->.
  { rewrite <-list_fmap_compose. apply list_fmap_ext. intros i [k r] Hi.
    apply Hk. apply elem_of_map_to_list. by eapply list_elem_of_lookup_2. }
  apply NoDup_fst_map_to_list.
Qed.

(** ** Listings

    [cmp] is the order of the listing, which ends with a key that identifies
    the row. *)
Context (cmp : A → A → comparison) `{!Comparator (λ _, True) cmp}.
Context (cmp_key : ∀ x y, cmp x y = Eq → key x = key y).

Definition less (x y : A) : bool := lt_of (cmp x y).

Lemma Forall_True (l : list A) : Forall (λ _, True) l.
Proof. by apply Forall_forall. Qed.

Lemma less_total t x y :
  keyed t → x ∈ rows t → y ∈ rows t → less x y = false → less y x = false → x = y.
Proof using Type*.
  intros Hk Hx Hy H1 H2. apply (rows_NoDup_id t); [done..|]. apply cmp_key.
  unfold less in *. rewrite (cmp_opp (P := λ _, True) (cmp := cmp) x y) in H2 by done.
  by destruct (cmp x y).
Qed.

Definition listing p t : list A := stable_sort less (List.filter p (rows t)).

Lemma listing_sorted p t : sorted_by less (listing p t).
Proof using Type*. apply (stable_sort_sorted (λ _, True) less), Forall_True. Qed.

Lemma elem_of_listing p t x : x ∈ listing p t ↔ x ∈ rows t ∧ p x = true.
Proof. unfold listing. by rewrite elem_of_stable_sort, elem_of_list_filter_bool. Qed.

Lemma listing_NoDup p t : keyed t → NoDup (listing p t).
Proof.
  intros Hk. unfold listing. rewrite stable_sort_perm.
  rewrite NoDup_ListNoDup. apply List.NoDup_filter. rewrite <-NoDup_ListNoDup.
  by apply rows_NoDup.
Qed.

(** The rows of the page after the cursor [x] are those that follow [x] in
    the listing. *)
Lemma page_after p t pre x post :
  keyed t → listing p t = pre ++ x :: post →
  stable_sort less (List.filter (λ r, p r && less x r) (rows t)) = post.
Proof using Type*.
  intros Hk Heq.
  assert (List.filter (λ r, p r && less x r) (rows t)
    = List.filter (less x) (List.filter p (rows t))) as ->.
  { induction (rows t) as [|r l IH]; simpl; [done|].
    destruct (p r); simpl; [|done]. by case_if; rewrite IH. }
  assert (Hin : ∀ y, y ∈ pre ++ x :: post → y ∈ rows t).
  { intros y. rewrite <-Heq, elem_of_listing. tauto. }
  rewrite (stable_sort_filter (λ _, True) less); [|apply Forall_True|].
  2: { intros a b. rewrite !elem_of_list_filter_bool. intros [? _] [? _].
       by apply (less_total t). }
  change (List.filter (less x) (listing p t) = post). rewrite Heq.
  apply (filter_after (λ _, True) less); [|done| |].
  - rewrite <-Heq. by apply listing_NoDup.
  - rewrite <-Heq. apply listing_sorted.
  - intros y Hy. apply (less_total t); [done| |]; apply Hin; set_solver.
Qed.
End keyed.

Arguments keyed {A} key t.
Arguments less {A} cmp x y /.
Arguments listing {A} cmp p t.
Arguments page_after {A key} cmp {_} cmp_key p t pre x post.
Arguments less_total {A key} cmp {_} cmp_key t x y.
