(* ===== verification/GoStr.v ===== *)
(** * Go strings

    A Go string is a byte string: [String.string], one [ascii] per byte.  This
    file holds the functions of [strings], [strconv] and [unicode] that the
    program calls, with the laws the components use.  White space is exact
    (the encodings of every rune of [unicode.IsSpace] are listed); the case
    mappings are exact on ASCII strings, and on other strings they are the
    Unicode tables, a parameter ([Unicode]). *)
From Stdlib Require Import DecimalString DecimalZ DecimalPos.
From S2P Require Import Prelude.

Abbreviation bytes := (list ascii).

Definition explode (s : string) : bytes := list_ascii_of_string s.
Definition implode (l : bytes) : string := string_of_list_ascii l.

Lemma implode_explode s : implode (explode s) = s.
Proof. apply string_of_list_ascii_of_string. Qed.
Lemma explode_implode l : explode (implode l) = l.
Proof. apply list_ascii_of_string_of_list_ascii. Qed.
Lemma explode_inj s1 s2 : explode s1 = explode s2 → s1 = s2.
Proof. intros H. by rewrite <-(implode_explode s1), H, implode_explode. Qed.
Lemma explode_app s1 s2 : explode (s1 +:+ s2) = explode s1 ++ explode s2.
Proof. induction s1 as [|c s1 IH]; [done|]. unfold explode in *. simpl. by rewrite IH. Qed.
Lemma length_explode s : length (explode s) = String.length s.
Proof. induction s as [|c s IH]; [done|]. unfold explode in *. simpl. by rewrite IH. Qed.

(** [len(s)] *)
Definition slen (s : string) : Z := Z.of_nat (String.length s).

Definition byte_val (c : ascii) : Z := Z.of_N (N_of_ascii c).
Definition byte_of (z : Z) : ascii := ascii_of_N (Z.to_N z).

(** ** White space *)

(** The UTF-8 encodings of the runes of [unicode.IsSpace]: the ASCII ones,
    U+0085, U+00A0, U+1680, U+2000..U+200A, U+2028, U+2029, U+202F, U+205F
    and U+3000. *)
Definition space_codes : list (list Z) :=
  [[9]; [10]; [11]; [12]; [13]; [32];
   [0xC2; 0x85]; [0xC2; 0xA0]; [0xE1; 0x9A; 0x80];
   [0xE2; 0x80; 0x80]; [0xE2; 0x80; 0x81]; [0xE2; 0x80; 0x82];
   [0xE2; 0x80; 0x83]; [0xE2; 0x80; 0x84]; [0xE2; 0x80; 0x85];
   [0xE2; 0x80; 0x86]; [0xE2; 0x80; 0x87]; [0xE2; 0x80; 0x88];
   [0xE2; 0x80; 0x89]; [0xE2; 0x80; 0x8A]; [0xE2; 0x80; 0xA8];
   [0xE2; 0x80; 0xA9]; [0xE2; 0x80; 0xAF]; [0xE2; 0x81; 0x9F];
   [0xE3; 0x80; 0x80]].

Definition space_runes : list bytes :=
  Eval vm_compute in map (map byte_of) space_codes.

Fixpoint strip_prefix (p l : bytes) : option bytes :=
  match p, l with
  | [], _ => Some l
  | c :: p, d :: l => if Ascii.eqb c d then strip_prefix p l else None
  | _ :: _, [] => None
  end.

Fixpoint strip_any (ps : list bytes) (l : bytes) : option bytes :=
  match ps with
  | [] => None
  | p :: ps =>
      match strip_prefix p l with Some l' => Some l' | None => strip_any ps l end
  end.

(** Removes encodings of [ps] from the front until none is left; every round
    removes at least a byte, so the length of the string is enough fuel. *)
Fixpoint trim_front (fuel : nat) (ps : list bytes) (l : bytes) : bytes :=
  match fuel with
  | O => l
  | S fuel =>
      match strip_any ps l with Some l' => trim_front fuel ps l' | None => l end
  end.

Definition trim_left_bytes (l : bytes) : bytes :=
  trim_front (length l) space_runes l.
Definition trim_right_bytes (l : bytes) : bytes :=
  rev (trim_front (length l) (map (@rev ascii) space_runes) (rev l)).

(** [strings.TrimSpace] *)
Definition TrimSpace (s : string) : string :=
  implode (trim_right_bytes (trim_left_bytes (explode s))).

Lemma strip_prefix_app p l l' : strip_prefix p l = Some l' ↔ l = p ++ l'.
Proof.
  revert l; induction p as [|c p IH]; intros l; simpl.
  { split; congruence. }
  destruct l as [|d l]; [done|].
  destruct (Ascii.eqb_spec c d) as [->|Hne].
  - rewrite IH. split; [by intros ->|by intros [= ->]].
  - split; congruence.
Qed.

Lemma strip_any_Some ps l l' :
  strip_any ps l = Some l' → ∃ p, p ∈ ps ∧ l = p ++ l'.
Proof.
  induction ps as [|p ps IH]; simpl; [done|].
  destruct (strip_prefix p l) eqn:E.
  - intros [= ->]. exists p. split; [by left|]. by apply strip_prefix_app.
  - intros (q & ? & ?)%IH. exists q. split; [by right|done].
Qed.

Lemma strip_any_None ps l :
  strip_any ps l = None ↔ ∀ p l', p ∈ ps → l ≠ p ++ l'.
Proof.
  induction ps as [|p ps IH]; simpl; [split; [set_solver|done]|].
  destruct (strip_prefix p l) eqn:E.
  - apply strip_prefix_app in E. split; [done|]. intros H.
    exfalso. eapply H; [by left|done].
  - rewrite IH. split; intros H q l' Hq.
    + apply elem_of_cons in Hq as [->|Hq]; [|by apply H].
      intros Hl%strip_prefix_app. congruence.
    + apply H. by right.
Qed.

Lemma trim_front_done fuel ps l :
  (length l ≤ fuel)%nat → [] ∉ ps → strip_any ps (trim_front fuel ps l) = None.
Proof.
  intros Hf Hps; revert l Hf; induction fuel as [|fuel IH]; intros l Hf; simpl.
  { destruct l; [|simpl in Hf; lia]. apply strip_any_None.
    intros p l' Hp Heq. symmetry in Heq. apply app_nil in Heq as [-> _]. done. }
  destruct (strip_any ps l) eqn:E; [|done].
  apply IH. apply strip_any_Some in E as (p & Hp & ->).
  rewrite length_app in Hf. destruct p; [done|]. simpl in Hf. lia.
Qed.

Lemma trim_front_suffix fuel ps l : ∃ k, l = k ++ trim_front fuel ps l.
Proof.
  revert l; induction fuel as [|fuel IH]; intros l; simpl; [by exists []|].
  destruct (strip_any ps l) eqn:E; [|by exists []].
  apply strip_any_Some in E as (p & _ & ->).
  destruct (IH l0) as [k Hk]. exists (p ++ k).
  rewrite <-app_assoc. congruence.
Qed.

Lemma trim_front_fixed fuel ps l : strip_any ps l = None → trim_front fuel ps l = l.
Proof. destruct fuel; simpl; [done|]. by intros ->. Qed.

Lemma trim_left_no_space l : strip_any space_runes (trim_left_bytes l) = None.
Proof. apply trim_front_done; [done|]. by apply (bool_decide_unpack _). Qed.

Lemma trim_right_prefix l : ∃ k, l = trim_right_bytes l ++ k.
Proof.
  unfold trim_right_bytes.
  destruct (trim_front_suffix (length l) (map (@rev ascii) space_runes) (rev l)) as [k Hk].
  exists (rev k). rewrite <-rev_app_distr, <-Hk. by rewrite rev_involutive.
Qed.

(** Trimming is idempotent: the normalisers of the program apply it more
    than once. *)
Lemma TrimSpace_idemp s : TrimSpace (TrimSpace s) = TrimSpace s.
Proof.
  unfold TrimSpace. rewrite explode_implode. f_equal.
  set (l := trim_left_bytes (explode s)).
  assert (trim_left_bytes (trim_right_bytes l) = trim_right_bytes l) as ->.
  { apply trim_front_fixed. apply strip_any_None. intros p l' Hp Heq.
    destruct (trim_right_prefix l) as [k Hk].
    eapply (proj1 (strip_any_None space_runes l)).
    - apply trim_left_no_space.
    - exact Hp.
    - rewrite Hk, Heq, <-app_assoc. done. }
  unfold trim_right_bytes at 1. rewrite trim_front_fixed; [by rewrite rev_involutive|].
  unfold trim_right_bytes. rewrite rev_involutive.
  apply trim_front_done; [by rewrite length_rev|].
  by apply (bool_decide_unpack _).
Qed.

(** Trimming keeps the bytes that no space has. *)
Lemma elem_of_reverse_rev {A} (x : A) l : x ∈ rev l ↔ x ∈ l.
Proof. by rewrite !list_elem_of_In, <-in_rev. Qed.
Lemma trim_front_keeps c fuel ps l :
  Forall (λ p, c ∉ p) ps → c ∈ l → c ∈ trim_front fuel ps l.
Proof.
  intros Hps. revert l; induction fuel as [|fuel IH]; intros l Hc; simpl; [done|].
  destruct (strip_any ps l) as [l'|] eqn:E; [|done]. apply IH.
  apply strip_any_Some in E as (p & Hp & ->). rewrite Forall_forall in Hps.
  apply elem_of_app in Hc as [Hc|Hc]; [|done]. by destruct (Hps p).
Qed.
Lemma TrimSpace_keeps c s :
  Forall (λ p, c ∉ p) space_runes → c ∈ explode s → TrimSpace s ≠ "".
Proof.
  intros Hps Hc E. apply (f_equal explode) in E. unfold TrimSpace in E. rewrite explode_implode in E.
  assert (Hin : c ∈ trim_right_bytes (trim_left_bytes (explode s))).
  { unfold trim_right_bytes. rewrite elem_of_reverse_rev. apply trim_front_keeps.
    - apply Forall_map. eapply Forall_impl; [done|]. intros p Hp. simpl. by rewrite elem_of_reverse_rev.
    - rewrite elem_of_reverse_rev. by apply trim_front_keeps. }
  rewrite E in Hin. by apply not_elem_of_nil in Hin.
Qed.

Lemma TrimSpace_empty : TrimSpace "" = "".
Proof. reflexivity. Qed.

(** ** Case mapping *)

(** The Unicode case tables, applied to strings with a non-ASCII byte. *)
Class Unicode := {
  unicode_lower : string → string;
  unicode_upper : string → string;
  unicode_equal_fold : string → string → bool;
}.

Definition lower_byte (c : ascii) : ascii :=
  if (65 <=? byte_val c) && (byte_val c <=? 90) then byte_of (byte_val c + 32) else c.
Definition upper_byte (c : ascii) : ascii :=
  if (97 <=? byte_val c) && (byte_val c <=? 122) then byte_of (byte_val c - 32) else c.

Fixpoint string_map (f : ascii → ascii) (s : string) : string :=
  match s with EmptyString => EmptyString | String c s => String (f c) (string_map f s) end.

Fixpoint is_ascii (s : string) : bool :=
  match s with EmptyString => true | String c s => (byte_val c <? 128) && is_ascii s end.

Section case_mapping.
Context `{Unicode}.

(** [strings.ToLower], [strings.ToUpper], [strings.EqualFold] *)
Definition ToLower (s : string) : string :=
  if is_ascii s then string_map lower_byte s else unicode_lower s.
Definition ToUpper (s : string) : string :=
  if is_ascii s then string_map upper_byte s else unicode_upper s.
Definition EqualFold (s t : string) : bool :=
  if is_ascii s && is_ascii t then (ToLower s =? ToLower t)%string
  else unicode_equal_fold s t.
End case_mapping.

Lemma ascii_forall (P : ascii → bool) :
  forallb (λ n, P (ascii_of_nat n)) (seq 0 256) = true → ∀ c, P c = true.
Proof.
  intros HP c. rewrite forallb_forall in HP.
  rewrite <-(ascii_nat_embedding c). apply HP, in_seq.
  pose proof (nat_ascii_bounded c). lia.
Qed.

Lemma lower_byte_idemp c : lower_byte (lower_byte c) = lower_byte c.
Proof.
  apply Ascii.eqb_eq. revert c.
  apply (ascii_forall (λ c, Ascii.eqb (lower_byte (lower_byte c)) (lower_byte c))).
  vm_compute. reflexivity.
Qed.

Lemma upper_byte_idemp c : upper_byte (upper_byte c) = upper_byte c.
Proof.
  apply Ascii.eqb_eq. revert c.
  apply (ascii_forall (λ c, Ascii.eqb (upper_byte (upper_byte c)) (upper_byte c))).
  vm_compute. reflexivity.
Qed.

Lemma lower_byte_ascii c : (byte_val (lower_byte c) <? 128) = (byte_val c <? 128).
Proof.
  apply eqb_prop. revert c.
  apply (ascii_forall (λ c, Bool.eqb (byte_val (lower_byte c) <? 128) (byte_val c <? 128))).
  vm_compute. reflexivity.
Qed.

Lemma upper_byte_ascii c : (byte_val (upper_byte c) <? 128) = (byte_val c <? 128).
Proof.
  apply eqb_prop. revert c.
  apply (ascii_forall (λ c, Bool.eqb (byte_val (upper_byte c) <? 128) (byte_val c <? 128))).
  vm_compute. reflexivity.
Qed.

Lemma string_map_idemp f s : (∀ c, f (f c) = f c) →
  string_map f (string_map f s) = string_map f s.
Proof. intros Hf; induction s as [|c s IH]; simpl; [done|]. by rewrite Hf, IH. Qed.

Lemma is_ascii_string_map f s :
  (∀ c, (byte_val (f c) <? 128) = (byte_val c <? 128)) →
  is_ascii (string_map f s) = is_ascii s.
Proof. intros Hf; induction s as [|c s IH]; simpl; [done|]. by rewrite Hf, IH. Qed.

Lemma ToLower_idemp_ascii `{Unicode} s : is_ascii s = true → ToLower (ToLower s) = ToLower s.
Proof.
  intros Hs. unfold ToLower at 2 3. rewrite Hs. unfold ToLower.
  rewrite is_ascii_string_map by apply lower_byte_ascii. rewrite Hs.
  apply string_map_idemp, lower_byte_idemp.
Qed.

Lemma ToUpper_idemp_ascii `{Unicode} s : is_ascii s = true → ToUpper (ToUpper s) = ToUpper s.
Proof.
  intros Hs. unfold ToUpper at 2 3. rewrite Hs. unfold ToUpper.
  rewrite is_ascii_string_map by apply upper_byte_ascii. rewrite Hs.
  apply string_map_idemp, upper_byte_idemp.
Qed.

(** ** Searching and cutting *)

Definition HasPrefix (s p : string) : bool := String.prefix p s.
Definition TrimPrefix (s p : string) : string :=
  match strip_prefix (explode p) (explode s) with Some l => implode l | None => s end.
Definition HasSuffix (s p : string) : bool :=
  match strip_prefix (rev (explode p)) (rev (explode s)) with Some _ => true | None => false end.
Definition TrimSuffix (s p : string) : string :=
  match strip_prefix (rev (explode p)) (rev (explode s)) with
  | Some l => implode (rev l) | None => s end.
Definition Contains (s sub : string) : bool :=
  match String.index 0 sub s with Some _ => true | None => false end.

(** [strings.Index(s, sub)], -1 when absent *)
Definition Index (s sub : string) : Z :=
  match String.index 0 sub s with Some i => Z.of_nat i | None => -1 end.

(** [s[:n]] and [s[n:]] for [0 <= n <= len(s)] *)
Definition slice_to (s : string) (n : Z) : string := String.substring 0 (Z.to_nat n) s.
Definition slice_from (s : string) (n : Z) : string :=
  String.substring (Z.to_nat n) (String.length s) s.

(** [strings.Split(s, c)] for a one-byte separator: never empty. *)
Fixpoint split_on (c : ascii) (l : bytes) : list bytes :=
  match l with
  | [] => [[]]
  | d :: l =>
      if Ascii.eqb c d then [] :: split_on c l
      else match split_on c l with
           | [] => [[d]]
           | w :: ws => (d :: w) :: ws
           end
  end.
Definition Split (s : string) (c : ascii) : list string :=
  map implode (split_on c (explode s)).

(** [strings.Cut(s, c)] for a one-byte separator *)
Fixpoint cut_on (c : ascii) (l : bytes) : option (bytes * bytes) :=
  match l with
  | [] => None
  | d :: l =>
      if Ascii.eqb c d then Some ([], l)
      else match cut_on c l with
           | Some (a, b) => Some (d :: a, b)
           | None => None
           end
  end.
Definition Cut (s : string) (c : ascii) : option (string * string) :=
  match cut_on c (explode s) with
  | Some (a, b) => Some (implode a, implode b)
  | None => None
  end.

(** The same at the last occurrence ([strings.LastIndex]). *)
Definition CutLast (s : string) (c : ascii) : option (string * string) :=
  match cut_on c (rev (explode s)) with
  | Some (b, a) => Some (implode (rev a), implode (rev b))
  | None => None
  end.

(** [strings.Join] *)
Definition Join (l : list string) (sep : string) : string := String.concat sep l.

(** [strings.Trim(s, cutset)] and its one-sided forms, for ASCII cutsets *)
Definition in_cutset (cut : string) (c : ascii) : bool :=
  existsb (Ascii.eqb c) (explode cut).
Fixpoint drop_bytes (p : ascii → bool) (l : bytes) : bytes :=
  match l with
  | [] => []
  | c :: r => if p c then drop_bytes p r else l
  end.
Definition TrimLeft (s cut : string) : string :=
  implode (drop_bytes (in_cutset cut) (explode s)).
Definition TrimRight (s cut : string) : string :=
  implode (rev (drop_bytes (in_cutset cut) (rev (explode s)))).
Definition Trim (s cut : string) : string := TrimRight (TrimLeft s cut) cut.
Definition ContainsAny (s chars : string) : bool :=
  existsb (in_cutset chars) (explode s).

(** ** Numbers *)

(** [fmt.Sprintf("%d", n)] and [strconv.Itoa] *)
Definition Itoa (n : Z) : string := NilZero.string_of_int (Z.to_int n).

(** [strconv.Atoi]: the value and whether the error is nil.  A syntax error
    gives 0, a range error the nearest [int]. *)
Definition atoi_digits (s : string) : option Z :=
  match NilZero.uint_of_string s with
  | Some u => Some (Z.of_uint u)
  | None => None
  end.
Definition Atoi (s : string) : Z * bool :=
  let parsed :=
    match s with
    | String "-" r => match atoi_digits r with Some n => Some (- n) | None => None end
    | String "+" r => atoi_digits r
    | _ => atoi_digits s
    end in
  match parsed with
  | None => (0, false)
  | Some n =>
      if n <? - 2 ^ 63 then (- 2 ^ 63, false)
      else if 2 ^ 63 <=? n then (2 ^ 63 - 1, false)
      else (n, true)
  end.

(** [fmt.Sprintf("%t", b)] *)
Definition fmt_bool (b : bool) : string := if b then "true" else "false".

Lemma Itoa_inj m n : Itoa m = Itoa n → m = n.
Proof.
  intros Heq%(f_equal NilZero.int_of_string). unfold Itoa in Heq.
  rewrite !NilZero.isi in Heq.
  - injection Heq as Heq. apply (f_equal Z.of_int) in Heq.
    by rewrite !DecimalZ.of_to in Heq.
  - destruct n; unfold Z.to_int; try done; intros [=Hp];
      by apply (DecimalPos.Unsigned.to_uint_nonnil p).
  - destruct n; unfold Z.to_int; try done; intros [=Hp];
      by apply (DecimalPos.Unsigned.to_uint_nonnil p).
  - destruct m; unfold Z.to_int; try done; intros [=Hp];
      by apply (DecimalPos.Unsigned.to_uint_nonnil p).
  - destruct m; unfold Z.to_int; try done; intros [=Hp];
      by apply (DecimalPos.Unsigned.to_uint_nonnil p).
Qed.

(** ** Runes: decoding UTF-8

    [range] over a string, [strings.Map], conversion to and from [[]rune]:
    the byte sequences of the runes of a string, an invalid byte being a rune
    of its own that is written back as U+FFFD. *)

Definition in_range (lo hi : Z) (c : ascii) : bool := (lo <=? byte_val c) && (byte_val c <=? hi).
Definition tail_byte : ascii → bool := in_range 128 191.

(** The length of the valid encoding at the front of [c :: l] *)
Definition rune_len (c : ascii) (l : bytes) : option nat :=
  if in_range 0 127 c then Some 1%nat
  else if in_range 194 223 c then
    match l with b :: _ => if tail_byte b then Some 2%nat else None | _ => None end
  else if in_range 224 239 c then
    match l with
    | b :: d :: _ =>
        let lo := if byte_val c =? 224 then 160 else 128 in
        let hi := if byte_val c =? 237 then 159 else 191 in
        if in_range lo hi b && tail_byte d then Some 3%nat else None
    | _ => None
    end
  else if in_range 240 244 c then
    match l with
    | b :: d :: e :: _ =>
        let lo := if byte_val c =? 240 then 144 else 128 in
        let hi := if byte_val c =? 244 then 143 else 191 in
        if in_range lo hi b && tail_byte d && tail_byte e then Some 4%nat else None
    | _ => None
    end
  else None.

(** The runes of a string, each as its bytes ([None] for an invalid byte) *)
Fixpoint runes_aux (skip : nat) (l : bytes) : list (option bytes) :=
  match l with
  | [] => []
  | c :: l =>
      match skip with
      | S skip => runes_aux skip l
      | O => match rune_len c l with
             | Some n => Some (take n (c :: l)) :: runes_aux (n - 1) l
             | None => None :: runes_aux 0 l
             end
      end
  end.
Definition runes (s : string) : list (option bytes) := runes_aux 0 (explode s).

(** The encoding of U+FFFD *)
Definition rune_error : bytes := map byte_of [239; 191; 189].
Definition rune_bytes (r : option bytes) : bytes := default rune_error r.
Definition of_runes (rs : list (option bytes)) : string := implode (mjoin (rune_bytes <$> rs)).

Definition RuneCount (s : string) : Z := Z.of_nat (length (runes s)).

(** [strings.Map] with a function that drops runes and keeps the others *)
Definition map_drop (drop : option bytes → bool) (s : string) : string :=
  of_runes (List.filter (λ r, negb (drop r)) (runes s)).

(** A control character: a rune below 32 *)
Definition is_control (r : option bytes) : bool :=
  match r with Some [c] => byte_val c <? 32 | _ => false end.

Lemma runes_ascii s : is_ascii s = true → runes s = (λ c, Some [c]) <$> explode s.
Proof.
  unfold runes. induction s as [|c s IH]; simpl; [done|]. intros Ha. bsplit.
  assert (rune_len c (explode s) = Some 1%nat) as E.
  { unfold rune_len, in_range. pose proof (N2Z.is_nonneg (N_of_ascii c)).
    unfold byte_val in *. by rewrite (proj2 (Z.leb_le _ _)), (proj2 (Z.leb_le _ _)) by lia. }
  fold (explode s). rewrite E. simpl. f_equal. by apply IH.
Qed.
