(* ===== verification/GoFloat.v ===== *)
(** * IEEE 754 binary64

    Go's [float64] is the Standard Library's executable model of binary64
    ([SpecFloat] at precision 53 and maximal exponent 1024), with
    round-to-nearest-even.  No real number and no axiom is involved: the
    scores of the program compute by [vm_compute] to the bits the Go program
    computes on an architecture without fused multiply-add. *)
From Stdlib Require Import SpecFloat.
From S2P Require Import Prelude.

Abbreviation float64 := spec_float.

#[export] Instance float_eq_dec : EqDecision float64.
Proof. solve_decision. Defined.

Definition f_add : float64 → float64 → float64 := SFadd 53 1024.
Definition f_sub : float64 → float64 → float64 := SFsub 53 1024.
Definition f_mul : float64 → float64 → float64 := SFmul 53 1024.
Definition f_div : float64 → float64 → float64 := SFdiv 53 1024.
Definition f_sqrt : float64 → float64 := SFsqrt 53 1024.
Definition f_lt : float64 → float64 → bool := SFltb.
Definition f_le : float64 → float64 → bool := SFleb.
Definition f_eq : float64 → float64 → bool := SFeqb.

(** [float64(z)] *)
Definition f_of_Z (z : Z) : float64 := binary_normalize 53 1024 z 0 false.
(** The constant [num/den], correctly rounded. *)
Definition f_lit (num den : Z) : float64 := f_div (f_of_Z num) (f_of_Z den).

Definition f_zero : float64 := S754_zero false.
Definition is_nan (x : float64) : bool :=
  match x with S754_nan => true | _ => false end.

(** [int64(x)]: truncation towards zero; out of range and NaN give the
    integer indefinite value of amd64. *)
Definition f_trunc (x : float64) : option Z :=
  match x with
  | S754_zero _ => Some 0
  | S754_finite s m e =>
      let a := if 0 <=? e then Z.pos m * 2 ^ e else Z.pos m / 2 ^ (- e) in
      Some (if s then - a else a)
  | _ => None
  end.
Definition f_to_int64 (x : float64) : Z :=
  match f_trunc x with
  | Some z => if (- 2 ^ 63 <=? z) && (z <? 2 ^ 63) then z else - 2 ^ 63
  | None => - 2 ^ 63
  end.

(** [math.Round]: to the nearest integer, halves away from zero *)
Definition f_round (x : float64) : float64 :=
  match x with
  | S754_finite s m e =>
      if 0 <=? e then x
      else
        let d := 2 ^ (- e) in
        let q := (2 * Z.pos m + d) / (2 * d) in
        if q =? 0 then S754_zero s
        else binary_normalize 53 1024 (if s then - q else q) 0 s
  | _ => x
  end.

(** [math.Ceil] *)
Definition f_ceil (x : float64) : float64 :=
  match x with
  | S754_finite s m e =>
      if 0 <=? e then x
      else
        let d := 2 ^ (- e) in
        let q := if s then - (Z.pos m / d) else (Z.pos m + d - 1) / d in
        if q =? 0 then S754_zero s else binary_normalize 53 1024 q 0 s
  | _ => x
  end.

(** [math.Max] and [math.Min] *)
Definition signbit (x : float64) : bool :=
  match x with
  | S754_zero s | S754_infinity s | S754_finite s _ _ => s
  | S754_nan => false
  end.
Definition f_max (x y : float64) : float64 :=
  match x, y with
  | S754_infinity false, _ | _, S754_infinity false => S754_infinity false
  | S754_nan, _ | _, S754_nan => S754_nan
  | S754_zero s, S754_zero _ => if s then y else x
  | _, _ => if f_lt y x then x else y
  end.
Definition f_min (x y : float64) : float64 :=
  match x, y with
  | S754_infinity true, _ | _, S754_infinity true => S754_infinity true
  | S754_nan, _ | _, S754_nan => S754_nan
  | S754_zero s, S754_zero _ => if s then x else y
  | _, _ => if f_lt x y then x else y
  end.

(** ** The order of binary64

    Numbers that are not NaN are ordered by the key (class, exponent,
    mantissa), signs folded in: comparison is lexicographic. *)
Definition f_key (x : float64) : Z * Z * Z :=
  match x with
  | S754_infinity true => (-2, 0, 0)
  | S754_finite true m e => (-1, - e, - Z.pos m)
  | S754_zero _ => (0, 0, 0)
  | S754_finite false m e => (1, e, Z.pos m)
  | S754_infinity false => (2, 0, 0)
  | S754_nan => (0, 0, 0)
  end.

Definition klt (a b : Z * Z * Z) : Prop :=
  let '(a1, a2, a3) := a in
  let '(b1, b2, b3) := b in
  a1 < b1 ∨ (a1 = b1 ∧ (a2 < b2 ∨ (a2 = b2 ∧ a3 < b3))).

Lemma pos_compare_Z m n : Pos.compare_cont Eq m n = (Z.pos m ?= Z.pos n).
Proof. reflexivity. Qed.

Ltac f_cases :=
  unfold f_key, klt in *; simpl in *;
  repeat match goal with
  | |- context [Z.compare ?a ?b] => destruct (Z.compare_spec a b); subst
  | H : context [Z.compare ?a ?b] |- _ => destruct (Z.compare_spec a b); subst
  | |- context [Pos.compare_cont Eq ?a ?b] => rewrite (pos_compare_Z a b)
  | H : context [Pos.compare_cont Eq ?a ?b] |- _ => rewrite (pos_compare_Z a b) in H
  end; simpl in *.

Lemma f_lt_key x y :
  is_nan x = false → is_nan y = false →
  f_lt x y = true ↔ klt (f_key x) (f_key y).
Proof.
  intros Hx Hy. unfold f_lt, SFltb, SFcompare.
  destruct x as [[]|[]| |[] m e], y as [[]|[]| |[] m' e']; try done; f_cases;
    (split; intros; try done; lia).
Qed.

Lemma f_eq_key x y :
  is_nan x = false → is_nan y = false →
  f_eq x y = true ↔ f_key x = f_key y.
Proof.
  intros Hx Hy. unfold f_eq, SFeqb, SFcompare.
  destruct x as [[]|[]| |[] m e], y as [[]|[]| |[] m' e']; try done; f_cases;
    (split; intros Hk; try done; try (inversion Hk; lia); try (repeat f_equal; lia)).
Qed.

Lemma f_le_lt x y :
  is_nan x = false → is_nan y = false → f_le x y = negb (f_lt y x).
Proof.
  intros Hx Hy. unfold f_le, f_lt, SFleb, SFltb, SFcompare.
  destruct x as [[]|[]| |[] m e], y as [[]|[]| |[] m' e']; try done; f_cases;
    try done; lia.
Qed.

Lemma f_lt_nan_l x y : is_nan x = true → f_lt x y = false.
Proof. by destruct x. Qed.
Lemma f_lt_nan_r x y : is_nan y = true → f_lt x y = false.
Proof. by destruct y, x. Qed.
Lemma f_le_nan_l x y : is_nan x = true → f_le x y = false.
Proof. by destruct x. Qed.
Lemma f_eq_not_nan_l x y : f_eq x y = true → is_nan x = false.
Proof. by destruct x. Qed.
Lemma f_le_not_nan x y : f_le x y = true → is_nan x = false ∧ is_nan y = false.
Proof. by destruct x as [[]|[]| |[] ? ?], y as [[]|[]| |[] ? ?]. Qed.
Lemma f_lt_not_nan x y : f_lt x y = true → is_nan x = false ∧ is_nan y = false.
Proof. by destruct x as [[]|[]| |[] ? ?], y as [[]|[]| |[] ? ?]. Qed.

(** [f_order] decides goals about [f_lt], [f_le], [f_eq] on numbers known not
    to be NaN. *)
Lemma f_lt_false_key x y :
  is_nan x = false → is_nan y = false →
  f_lt x y = false ↔ ¬ klt (f_key x) (f_key y).
Proof. intros. rewrite <-not_true_iff_false, f_lt_key; done. Qed.
Lemma f_eq_false_key x y :
  is_nan x = false → is_nan y = false →
  f_eq x y = false ↔ f_key x ≠ f_key y.
Proof. intros. rewrite <-not_true_iff_false, f_eq_key; done. Qed.

Ltac f_order :=
  repeat match goal with
  | H : f_le ?x ?y = _ |- _ => rewrite (f_le_lt x y) in H by done
  | |- context [f_le ?x ?y] => rewrite (f_le_lt x y) by done
  end;
  bsplit;
  rewrite ?negb_true_iff, ?negb_false_iff;
  repeat match goal with
  | H : f_lt _ _ = true |- _ => apply f_lt_key in H; [|done|done]
  | H : f_lt _ _ = false |- _ => apply f_lt_false_key in H; [|done|done]
  | H : f_eq _ _ = true |- _ => apply f_eq_key in H; [|done|done]
  | H : f_eq _ _ = false |- _ => apply f_eq_false_key in H; [|done|done]
  | |- f_lt _ _ = true => apply f_lt_key; [done|done|]
  | |- f_lt _ _ = false => apply f_lt_false_key; [done|done|]
  | |- f_eq _ _ = true => apply f_eq_key; [done|done|]
  | |- f_eq _ _ = false => apply f_eq_false_key; [done|done|]
  end;
  repeat match goal with
  | |- context [f_key ?x] => let k := fresh "k" in
      set (k := f_key x) in *; clearbody k; destruct k as [[? ?] ?]
  | H : context [f_key ?x] |- _ => let k := fresh "k" in
      set (k := f_key x) in *; clearbody k; destruct k as [[? ?] ?]
  end;
  unfold klt in *; simplify_eq; try congruence; try lia;
  try match goal with H : (_, _, _) ≠ (_, _, _) |- False => apply H; repeat f_equal; lia end.

Lemma f_lt_irrefl x : f_lt x x = false.
Proof. destruct (is_nan x) eqn:E; [by apply f_lt_nan_l|]. f_order. Qed.

Lemma f_lt_asym x y : f_lt x y = true → f_lt y x = false.
Proof. intros Hl. destruct (f_lt_not_nan _ _ Hl). f_order. Qed.

Lemma f_lt_negtrans x y z :
  is_nan x = false → is_nan y = false → is_nan z = false →
  f_lt x y = false → f_lt y z = false → f_lt x z = false.
Proof. intros. f_order. Qed.

Lemma f_lt_trans x y z : f_lt x y = true → f_lt y z = true → f_lt x z = true.
Proof.
  intros H1 H2. destruct (f_lt_not_nan _ _ H1), (f_lt_not_nan _ _ H2). f_order.
Qed.

Lemma f_le_trans x y z : f_le x y = true → f_le y z = true → f_le x z = true.
Proof.
  intros H1 H2. destruct (f_le_not_nan _ _ H1), (f_le_not_nan _ _ H2). f_order.
Qed.

Lemma f_le_refl x : is_nan x = false → f_le x x = true.
Proof. intros. f_order. Qed.

(** The three-way comparison, and the comparators by a key that is a number *)
Definition f_compare (x y : float64) : comparison :=
  if f_lt x y then Lt else if f_eq x y then Eq else Gt.

Lemma f_comparator {A} (P : A → Prop) (f : A → float64) :
  (∀ x, P x → is_nan (f x) = false) → Comparator P (λ x y, f_compare (f x) (f y)).
Proof.
  intros HP. split.
  - intros x y Hx%HP Hy%HP. unfold f_compare.
    destruct (f_lt (f x) (f y)) eqn:E1, (f_lt (f y) (f x)) eqn:E2,
      (f_eq (f x) (f y)) eqn:E3, (f_eq (f y) (f x)) eqn:E4; try done; exfalso; f_order.
  - intros x y z Hx%HP Hy%HP Hz%HP. unfold f_compare.
    destruct (f_lt (f x) (f y)) eqn:E1, (f_eq (f x) (f y)) eqn:E2,
      (f_lt (f y) (f z)) eqn:E3, (f_eq (f y) (f z)) eqn:E4,
      (f_lt (f x) (f z)) eqn:E5, (f_eq (f x) (f z)) eqn:E6; try done; exfalso; f_order.
Qed.
Lemma f_comparator_desc {A} (P : A → Prop) (f : A → float64) :
  (∀ x, P x → is_nan (f x) = false) → Comparator P (λ x y, f_compare (f y) (f x)).
Proof. intros HP. by apply (@flip_comparator _ P _ (f_comparator P f HP)). Qed.

(** [clamp] of the packages [quality] and [aiaccess] *)
Definition clamp (v lo hi : float64) : float64 :=
  if f_lt v lo then lo else if f_lt hi v then hi else v.

Definition f_between (lo hi x : float64) : Prop := f_le lo x = true ∧ f_le x hi = true.

Lemma clamp_between v lo hi :
  is_nan v = false → f_le lo hi = true → f_between lo hi (clamp v lo hi).
Proof.
  intros Hv Hle. destruct (f_le_not_nan _ _ Hle) as [Hlo Hhi].
  unfold f_between, clamp. repeat case_if; split; auto using f_le_refl; f_order.
Qed.

(** On NaN the two guards are false: NaN passes through. *)
Lemma clamp_nan v lo hi : is_nan v = true → clamp v lo hi = v.
Proof.
  intros Hv. unfold clamp. by rewrite (f_lt_nan_l v lo Hv), (f_lt_nan_r hi v Hv).
Qed.

Lemma clamp_id v lo hi : f_between lo hi v → clamp v lo hi = v.
Proof.
  intros [H1 H2]. destruct (f_le_not_nan _ _ H1), (f_le_not_nan _ _ H2).
  unfold clamp. rewrite f_le_lt in H1, H2 by done. bsplit. by rewrite H1, H2.
Qed.

Lemma f_between_not_nan lo hi x : f_between lo hi x → is_nan x = false.
Proof. intros [H1 _]. by destruct (f_le_not_nan _ _ H1). Qed.

Lemma f_max_between lo hi x y :
  f_between lo hi x → f_between lo hi y → f_between lo hi (f_max x y).
Proof.
  unfold f_max. intros Hx Hy.
  destruct x as [[]|[]| |[] ? ?], y as [[]|[]| |[] ? ?]; try done; repeat case_if; done.
Qed.

Lemma f_min_between lo hi x y :
  f_between lo hi x → f_between lo hi y → f_between lo hi (f_min x y).
Proof.
  unfold f_min. intros Hx Hy.
  destruct x as [[]|[]| |[] ? ?], y as [[]|[]| |[] ? ?]; try done; repeat case_if; done.
Qed.

#[export] Hint Resolve f_lt_irrefl f_le_refl f_between_not_nan f_max_between
  f_min_between : go.

(** ** Arithmetic on numbers that are not negative

    Sums, products and quotients of such numbers are such numbers, where the
    operands rule the indeterminate forms out. *)
Definition f_nonneg (x : float64) : bool :=
  match x with
  | S754_zero _ | S754_infinity false | S754_finite false _ _ => true
  | _ => false
  end.
(** Finite and positive *)
Definition f_posfin (x : float64) : bool :=
  match x with S754_finite false _ _ => true | _ => false end.

Lemma shr_1_nonneg r : 0 ≤ shr_m r → 0 ≤ shr_m (shr_1 r).
Proof. destruct r as [[|[]|] ? ?]; simpl; lia. Qed.
Lemma shr_nonneg r e n : 0 ≤ shr_m r → 0 ≤ shr_m (shr r e n).1.
Proof.
  unfold shr. intros Hr. destruct n as [|p|p]; simpl; [done| |done].
  revert r Hr; induction p as [p IH|p IH|]; intros r Hr; simpl; auto using shr_1_nonneg.
Qed.
Lemma round_nonneg mx ex lx : 0 ≤ mx → f_nonneg (binary_round_aux 53 1024 false mx ex lx) = true.
Proof.
  intros Hm. unfold binary_round_aux, shr_fexp.
  match goal with |- context [shr ?r ?e ?n] =>
    pose proof (shr_nonneg r e n) as H1; destruct (shr r e n) as [mrs' e'] end.
  assert (0 ≤ shr_m mrs') as H1' by (apply H1; by destruct lx as [|[]]).
  set (m2 := round_nearest_even _ _).
  assert (0 ≤ m2) as Hm2.
  { unfold m2, round_nearest_even. destruct (loc_of_shr_record mrs') as [|[]]; try case_match; lia. }
  match goal with |- context [shr ?r ?e ?n] =>
    pose proof (shr_nonneg r e n) as H2; destruct (shr r e n) as [mrs2 e2] end.
  specialize (H2 Hm2). simpl in H2. destruct (shr_m mrs2); simpl; [done| |lia]. by case_if.
Qed.
Lemma normalize_nonneg m e : 0 ≤ m → f_nonneg (binary_normalize 53 1024 m e false) = true.
Proof.
  intros Hm. destruct m as [|p|p]; simpl; [done| |lia].
  unfold binary_round. destruct (shl_align _ _ _). by apply round_nonneg.
Qed.

Lemma f_of_Z_nonneg z : 0 ≤ z → f_nonneg (f_of_Z z) = true.
Proof. apply normalize_nonneg. Qed.

Lemma f_add_nonneg x y : f_nonneg x = true → f_nonneg y = true → f_nonneg (f_add x y) = true.
Proof.
  destruct x as [[]|[]| |[] m e], y as [[]|[]| |[] m' e']; try done. intros _ _.
  unfold f_add, SFadd. apply normalize_nonneg. simpl. lia.
Qed.
Lemma f_mul_nonneg x y : f_posfin x = true → f_nonneg y = true → f_nonneg (f_mul x y) = true.
Proof.
  destruct x as [[]|[]| |[] m e], y as [[]|[]| |[] m' e']; try done. intros _ _.
  by apply round_nonneg.
Qed.
(** A finite factor and a factor that is not infinite *)
Definition f_finite (x : float64) : bool :=
  match x with S754_zero _ | S754_finite _ _ _ => true | _ => false end.
Lemma f_mul_fin_nonneg x y :
  f_nonneg x = true → f_nonneg y = true → f_finite x = true → f_finite y = true →
  f_nonneg (f_mul x y) = true.
Proof.
  destruct x as [[]|[]| |[] m e], y as [[]|[]| |[] m' e']; try done; intros _ _ _ _;
    by apply round_nonneg.
Qed.
Lemma div_nonneg m e m' e' :
  f_nonneg (SFdiv 53 1024 (S754_finite false m e) (S754_finite false m' e')) = true.
Proof.
  unfold SFdiv, SFdiv_core_binary.
  set (d := Z.min _ _). set (n := match _ - _ - d with 0 => _ | _ => _ end).
  assert (0 ≤ n) as Hn.
  { unfold n. destruct (e - e' - d); try lia. by apply Z.shiftl_nonneg. }
  pose proof (Z_div_mod n (Z.pos m') ltac:(lia)) as Hd.
  destruct (Z.div_eucl n (Z.pos m')) as [q r]. destruct Hd as [Hq Hr].
  apply round_nonneg. nia.
Qed.
Lemma f_div_nonneg x y : f_nonneg x = true → f_posfin y = true → f_nonneg (f_div x y) = true.
Proof.
  destruct x as [[]|[]| |[] m e], y as [[]|[]| |[] m' e']; try done. intros _ _. apply div_nonneg.
Qed.
Lemma signbit_round mx ex lx : signbit (binary_round_aux 53 1024 false mx ex lx) = false.
Proof.
  unfold binary_round_aux. destruct (shr_fexp _ _ _ _ _) as [r e], (shr_fexp _ _ _ _ _) as [r' e'].
  destruct (shr_m r'); simpl; [done| |done]. by case_if.
Qed.
Lemma signbit_add x y : f_posfin x = true → f_nonneg y = true → signbit (f_add x y) = false.
Proof.
  destruct x as [[]|[]| |[] m e], y as [[]|[]| |[] m' e']; try done. intros _ _.
  unfold f_add, SFadd, binary_normalize. simpl.
  unfold binary_round. destruct (shl_align _ _ (fexp _ _ _)). apply signbit_round.
Qed.
(** The shape [c / (1 + x)] of the program's decay curves *)
Lemma f_div_nonneg_l x y : f_posfin x = true → f_nonneg y = true → signbit y = false →
  f_nonneg (f_div x y) = true.
Proof.
  destruct x as [[]|[]| |[] m e], y as [[]|[]| |[] m' e']; try done; intros _ _ _; apply div_nonneg.
Qed.
Lemma f_decay_nonneg c one x :
  f_posfin c = true → f_posfin one = true → f_nonneg x = true →
  f_nonneg (f_div c (f_add one x)) = true.
Proof.
  intros Hc H1 Hx. apply f_div_nonneg_l; [done| |by apply signbit_add].
  apply f_add_nonneg; [by destruct one as [| | |[]]|done].
Qed.

Lemma f_nonneg_not_nan x : f_nonneg x = true → is_nan x = false.
Proof. by destruct x. Qed.
Lemma f_nonneg_le x : f_nonneg x = true ↔ f_le f_zero x = true.
Proof. by destruct x as [[]|[]| |[] m e]. Qed.
Lemma f_between_nonneg lo hi x : f_nonneg lo = true → f_between lo hi x → f_nonneg x = true.
Proof. rewrite !f_nonneg_le. intros Hlo [H1 _]. by eapply f_le_trans. Qed.
Lemma f_between_finite hi x : f_finite hi = true → f_between f_zero hi x → f_finite x = true.
Proof. by destruct x as [[]|[]| |[] m e], hi as [[]|[]| |[] m' e']; intros ? [? ?]. Qed.

(** A product with a finite factor that is not zero is a number. *)
Lemma f_nonneg_not_nan_round s mx ex lx : 0 ≤ mx → is_nan (binary_round_aux 53 1024 s mx ex lx) = false.
Proof.
  intros Hm. pose proof (round_nonneg mx ex lx Hm) as Hr. revert Hr. unfold binary_round_aux.
  destruct (shr_fexp _ _ _ _ _) as [r e], (shr_fexp _ _ _ _ _) as [r' e'].
  destruct (shr_m r'); simpl; [done| |done]. by case_if.
Qed.
Lemma f_mul_not_nan x y : is_nan x = false → f_posfin y = true → is_nan (f_mul x y) = false.
Proof.
  destruct x as [s|s| |s m e], y as [[]|[]| |[] m' e']; try done. intros _ _.
  by apply f_nonneg_not_nan_round.
Qed.
Lemma f_mul_nonneg_r x y : f_nonneg x = true → f_posfin y = true → f_nonneg (f_mul x y) = true.
Proof.
  destruct x as [[]|[]| |[] m e], y as [[]|[]| |[] m' e']; try done. intros _ _.
  by apply round_nonneg.
Qed.
Lemma normalize_not_nan m e s : is_nan (binary_normalize 53 1024 m e s) = false.
Proof.
  destruct m as [|p|p]; simpl; [done|..]; unfold binary_round;
    destruct (shl_align _ _ _); by apply f_nonneg_not_nan_round.
Qed.
Lemma f_add_not_nan x y : is_nan x = false → f_posfin y = true → is_nan (f_add y x) = false.
Proof.
  destruct x as [[]|[]| |[] m e], y as [[]|[]| |[] m' e']; try done; intros _ _;
    apply normalize_not_nan.
Qed.
Lemma f_lt_zero_posfin x : f_lt f_zero x = true → f_finite x = true → f_posfin x = true.
Proof. by destruct x as [[]|[]| |[] m e]. Qed.
Lemma f_mul_number_l x y : is_nan y = false → f_posfin x = true → is_nan (f_mul x y) = false.
Proof.
  destruct x as [[]|[]| |[] m e], y as [[]|[]| |[] m' e']; try done; intros _ _;
    by apply f_nonneg_not_nan_round.
Qed.
