(* ===== verification/GoRound.v ===== *)
(** * Rounding to binary64

    The model of binary64 computes each operation exactly and rounds.  This
    file proves the two facts about rounding that the bounds on the scores
    need: the result of rounding is a canonical number, and rounding is
    monotone against a canonical number (a value below it is not rounded above
    it, and conversely). *)
From Stdlib Require Import SpecFloat.
From S2P Require Import Prelude GoFloat.

Definition f_valid (x : float64) : bool := valid_binary 53 1024 x.

(** ** Digits *)

Definition digits (m : Z) : Z := Zdigits2 m.
Definition expo (e : Z) : Z := fexp 53 1024 e.

Lemma expo_max e : expo e = Z.max (e - 53) (-1074).
Proof. reflexivity. Qed.

Lemma digits_pos p : 2 ^ (digits (Z.pos p) - 1) ≤ Z.pos p < 2 ^ digits (Z.pos p).
Proof.
  unfold digits. induction p as [p IH|p IH|]; [..|done];
    cbn [Zdigits2 digits2_pos] in *; rewrite Pos2Z.inj_succ;
    replace (Z.succ (Z.pos (digits2_pos p)) - 1) with (Z.succ (Z.pos (digits2_pos p) - 1)) by lia;
    rewrite !Z.pow_succ_r by lia; lia.
Qed.
Lemma digits_bounds m : 0 < m → 2 ^ (digits m - 1) ≤ m < 2 ^ digits m.
Proof. destruct m; try lia. intros _. apply digits_pos. Qed.
Lemma digits_ge1 m : 0 < m → 1 ≤ digits m.
Proof. destruct m; try lia. unfold digits. simpl. lia. Qed.

(** The digits of a value: [2 ^ a <= m < 2 ^ b] *)
Lemma digits_le m k : 0 < m → m < 2 ^ k → digits m ≤ k.
Proof.
  intros Hm Hk. destruct (digits_bounds m Hm) as [H1 _].
  destruct (Z.le_gt_cases (digits m) k) as [|Hgt]; [done|].
  destruct (Z.le_gt_cases 0 k).
  - assert (2 ^ k ≤ 2 ^ (digits m - 1)) by (apply Z.pow_le_mono_r; lia). lia.
  - rewrite (Z.pow_neg_r 2 k) in Hk by lia. lia.
Qed.
Lemma digits_ge m k : 2 ^ k ≤ m → 0 ≤ k → k + 1 ≤ digits m.
Proof.
  intros Hk Hk0. assert (0 < 2 ^ k) by (apply Z.pow_pos_nonneg; lia).
  destruct (digits_bounds m ltac:(lia)) as [_ H2].
  destruct (Z.le_gt_cases (k + 1) (digits m)) as [|Hgt]; [done|].
  assert (2 ^ digits m ≤ 2 ^ k) by (apply Z.pow_le_mono_r; lia). lia.
Qed.

(** Digits of a quotient by a power of two *)
Lemma digits_shift m n : 0 ≤ n → n < digits m → 0 < m → digits (m / 2 ^ n) = digits m - n.
Proof.
  intros Hn Hd Hm. destruct (digits_bounds m Hm) as [H1 H2].
  assert (0 < 2 ^ n) by (apply Z.pow_pos_nonneg; lia).
  assert (E1 : 2 ^ (digits m - 1) = 2 ^ (digits m - 1 - n) * 2 ^ n)
    by (rewrite <-Z.pow_add_r by lia; f_equal; lia).
  assert (E2 : 2 ^ digits m = 2 ^ (digits m - n) * 2 ^ n)
    by (rewrite <-Z.pow_add_r by lia; f_equal; lia).
  assert (2 ^ (digits m - 1 - n) ≤ m / 2 ^ n) by (apply Z.div_le_lower_bound; lia).
  assert (m / 2 ^ n < 2 ^ (digits m - n)) by (apply Z.div_lt_upper_bound; lia).
  assert (0 < 2 ^ (digits m - 1 - n)) by (apply Z.pow_pos_nonneg; lia).
  apply Z.le_antisymm.
  - apply digits_le; lia.
  - pose proof (digits_ge (m / 2 ^ n) (digits m - 1 - n)). lia.
Qed.

(** ** Shifting *)

(** [r] is [m] shifted by [n]: the quotient, and no lost bit when nothing was
    lost. *)
Definition shifted (m : Z) (exact : bool) (n : Z) (r : shr_record) : Prop :=
  shr_m r = m / 2 ^ n ∧
  (exact = true → m mod 2 ^ n = 0 → shr_r r = false ∧ shr_s r = false).

Lemma shifted_step m exact n r :
  0 ≤ m → 0 ≤ n → shifted m exact n r → shifted m exact (n + 1) (shr_1 r).
Proof.
  intros Hm Hn [Hq Hx]. assert (0 < 2 ^ n) by (apply Z.pow_pos_nonneg; lia).
  assert (0 ≤ m / 2 ^ n) by (apply Z.div_pos; lia).
  assert (E : 2 ^ (n + 1) = 2 ^ n * 2) by (rewrite Z.pow_add_r; lia).
  assert (Hd : m / 2 ^ (n + 1) = m / 2 ^ n / 2) by (rewrite E, Z.div_div; lia).
  assert (Hmod : m mod 2 ^ (n + 1) = 0 → m mod 2 ^ n = 0 ∧ (m / 2 ^ n) mod 2 = 0).
  { rewrite E, Z.rem_mul_r by lia. intros Heq.
    pose proof (Z.mod_pos_bound m (2 ^ n)). pose proof (Z.mod_pos_bound (m / 2 ^ n) 2). nia. }
  rewrite <-Hq in *. clear Hq E. unfold shifted. rewrite Hd. clear Hd.
  destruct r as [q r s]; simpl in *. split.
  - destruct q as [|[p|p|]|]; simpl; try lia; try done.
    + rewrite Pos2Z.inj_xI. apply (Z.div_unique _ 2 _ 1); lia.
    + rewrite Pos2Z.inj_xO. apply (Z.div_unique _ 2 _ 0); lia.
  - intros He Hmod'. apply Hmod in Hmod' as [H1 H2]. destruct (Hx He H1) as [-> ->].
    destruct q as [|[p|p|]|]; simpl; try done.
    rewrite Pos2Z.inj_xI in H2. rewrite Z.add_comm, Z.mul_comm, Z.mod_add in H2 by lia. done.
Qed.

Lemma shifted_iter m exact p n r :
  0 ≤ m → 0 ≤ n → shifted m exact n r → shifted m exact (n + Z.pos p) (@SpecFloat.iter_pos shr_record shr_1 p r).
Proof.
  intros Hm. revert n r; induction p as [p IH|p IH|]; intros n r Hn Hr; simpl.
  - replace (n + Z.pos p~1) with (n + 1 + Z.pos p + Z.pos p) by lia.
    apply IH; [lia|]. apply IH; [lia|]. by apply shifted_step.
  - replace (n + Z.pos p~0) with (n + Z.pos p + Z.pos p) by lia.
    apply IH; [lia|]. by apply IH.
  - by apply shifted_step.
Qed.

Definition is_exact (l : location) : bool := match l with loc_Exact => true | _ => false end.

Lemma shr_fexp_spec m e l :
  0 ≤ m →
  let e' := Z.max e (expo (digits m + e)) in
  (shr_fexp 53 1024 m e l).2 = e' ∧
  shifted m (is_exact l) (e' - e) (shr_fexp 53 1024 m e l).1.
Proof.
  intros Hm e'. unfold shr_fexp. fold (digits m). fold (expo (digits m + e)).
  assert (shifted m (is_exact l) 0 (shr_record_of_loc m l)) as H0.
  { split; [|by destruct l as [|[]]]. rewrite Z.div_1_r. by destruct l as [|[]]. }
  unfold shr. destruct (expo (digits m + e) - e) as [|p|p] eqn:E; simpl.
  - replace e' with e by lia. by rewrite Z.sub_diag.
  - split; [lia|]. replace (e' - e) with (0 + Z.pos p) by lia. by apply shifted_iter.
  - replace e' with e by lia. by rewrite Z.sub_diag.
Qed.

(** ** The result of rounding *)

Lemma nearest_even_range q l :
  q ≤ round_nearest_even q l ≤ q + 1 ∧ (l = loc_Exact → round_nearest_even q l = q).
Proof. destruct l as [|[]]; simpl; try case_if; split; (done || lia). Qed.

(** [m1, e1] after the first shift, [m2, e2] after the second *)
Record rounded (m e : Z) (exact : bool) (m1 e1 m2 e2 : Z) : Prop := {
  rd_e1 : e1 = Z.max e (expo (digits m + e));
  rd_m1 : m / 2 ^ (e1 - e) ≤ m1 ≤ m / 2 ^ (e1 - e) + 1;
  rd_exact : exact = true → m mod 2 ^ (e1 - e) = 0 → m1 = m / 2 ^ (e1 - e);
  rd_e2 : e2 = Z.max e1 (expo (digits m1 + e1));
  rd_m2 : m2 = m1 / 2 ^ (e2 - e1);
}.

Lemma round_aux_spec s m e l :
  0 ≤ m → ∃ m1 e1 m2 e2, rounded m e (is_exact l) m1 e1 m2 e2 ∧
  binary_round_aux 53 1024 s m e l =
    match m2 with
    | Z0 => S754_zero s
    | Z.pos p => if e2 <=? 971 then S754_finite s p e2 else S754_infinity s
    | Z.neg _ => S754_nan
    end.
Proof.
  intros Hm. unfold binary_round_aux. pose proof (shr_fexp_spec m e l Hm) as [He1 [Hq1 Hx1]].
  destruct (shr_fexp 53 1024 m e l) as [r1 e1]. simpl in *.
  set (m1 := round_nearest_even (shr_m r1) (loc_of_shr_record r1)).
  destruct (nearest_even_range (shr_m r1) (loc_of_shr_record r1)) as [Hr Hrx]. fold m1 in Hr, Hrx.
  assert (0 ≤ m / 2 ^ (e1 - e)) as Hq0.
  { apply Z.div_pos; [done|]. apply Z.pow_pos_nonneg; lia. }
  pose proof (shr_fexp_spec m1 e1 loc_Exact ltac:(rewrite <-He1 in Hq1; lia)) as [He2 [Hq2 Hx2]].
  destruct (shr_fexp 53 1024 m1 e1 loc_Exact) as [r2 e2]. simpl in *. rewrite <-He1 in Hq1, Hx1.
  exists m1, e1, (m1 / 2 ^ (e2 - e1)), e2. rewrite <-He2 in Hq2. split; [|by rewrite <-Hq2].
  split; try done.
  - by rewrite <-Hq1.
  - intros He Hmod. rewrite <-Hq1. apply Hrx. destruct (Hx1 He Hmod) as [H1 H2].
    destruct r1; simpl in *. by subst.
Qed.

Lemma div_scale m n K : 0 ≤ n → m ≤ K * 2 ^ n → m / 2 ^ n ≤ K.
Proof. intros Hn Hm. apply Z.div_le_upper_bound; [apply Z.pow_pos_nonneg|]; lia. Qed.

(** The first rounding does not pass an integer of its grid that covers the
    exact value ([m], or more than [m] when the location is inexact). *)
Lemma rounded_cover m e exact m1 e1 m2 e2 K :
  0 ≤ m → rounded m e exact m1 e1 m2 e2 → e ≤ e1 →
  (if exact then m else m + 1) ≤ K * 2 ^ (e1 - e) → m1 ≤ K.
Proof.
  intros Hm [H1 H2 H3 _ _] Hle HK. set (n := e1 - e) in *.
  assert (0 < 2 ^ n) by (apply Z.pow_pos_nonneg; lia).
  destruct exact.
  - destruct (Z.eq_dec (m mod 2 ^ n) 0) as [Hmod|Hmod].
    + rewrite (H3 eq_refl Hmod). apply div_scale; lia.
    + assert (m / 2 ^ n < K); [|lia]. apply Z.div_lt_upper_bound; [done|].
      destruct (Z.eq_dec m (K * 2 ^ n)) as [->|]; [|lia].
      by rewrite Z.mod_mul in Hmod by lia.
  - assert (m / 2 ^ n < K); [|lia]. apply Z.div_lt_upper_bound; lia.
Qed.

(** A canonical positive number *)
Definition canonical_num (m e : Z) : Prop := 0 < m ∧ expo (digits m + e) = e ∧ e ≤ 971.

Lemma f_valid_canonical s p e : f_valid (S754_finite s p e) = true ↔ canonical_num (Z.pos p) e.
Proof.
  unfold f_valid, valid_binary, bounded, canonical_mantissa, canonical_num.
  change (fexp 53 1024 (Z.pos (digits2_pos p) + e)) with (expo (digits (Z.pos p) + e)).
  rewrite andb_true_iff, Z.eqb_eq, Z.leb_le. split; [intros [? ?]|intros (? & ? & ?)]; split_and!; (done || lia).
Qed.

Lemma pow_split a b : 0 ≤ a → a ≤ b → 2 ^ b = 2 ^ (b - a) * 2 ^ a.
Proof. intros. rewrite <-Z.pow_add_r by lia. f_equal. lia. Qed.

(** The digits of comparable values *)
Lemma digits_value_le m e M E :
  0 < m → e ≤ E → m ≤ M * 2 ^ (E - e) → digits m + e ≤ digits M + E.
Proof.
  intros Hm He Hle. assert (0 < 2 ^ (E - e)) by (apply Z.pow_pos_nonneg; lia).
  assert (0 < M) as HM by nia. destruct (digits_bounds M HM) as [_ H2].
  pose proof (digits_ge1 M HM). assert (m < 2 ^ (digits M + (E - e))).
  { rewrite Z.pow_add_r by lia. nia. }
  pose proof (digits_le m (digits M + (E - e))). lia.
Qed.
Lemma digits_value_ge m e M E :
  0 < M → e ≤ E → M * 2 ^ (E - e) ≤ m → digits M + E ≤ digits m + e.
Proof.
  intros HM He Hle. assert (0 < 2 ^ (E - e)) by (apply Z.pow_pos_nonneg; lia).
  destruct (digits_bounds M HM) as [H1 _]. pose proof (digits_ge1 M HM).
  assert (2 ^ (digits M - 1 + (E - e)) ≤ m).
  { rewrite Z.pow_add_r by lia. nia. }
  pose proof (digits_ge m (digits M - 1 + (E - e))). lia.
Qed.

Lemma expo_mono a b : a ≤ b → expo a ≤ expo b.
Proof. rewrite !expo_max. lia. Qed.

Lemma f_le_finite p e q f :
  e ≤ f → (e = f → Z.pos p ≤ Z.pos q) →
  f_le (S754_finite false p e) (S754_finite false q f) = true.
Proof.
  intros He Hm. unfold f_le, SFleb, SFcompare. destruct (Z.compare_spec e f) as [->|Hl|Hl]; [|done|lia].
  rewrite pos_compare_Z. destruct (Z.compare_spec (Z.pos p) (Z.pos q)); try done. lia.
Qed.

(** Rounding is monotone from above: [value <= X] gives [round value <= X]. *)
Lemma round_upper m e l p E :
  0 ≤ m → canonical_num (Z.pos p) E → e ≤ E →
  (if is_exact l then m else m + 1) ≤ Z.pos p * 2 ^ (E - e) →
  f_le (binary_round_aux 53 1024 false m e l) (S754_finite false p E) = true.
Proof.
  intros Hm (HM & HE & HEmax) He Hv.
  destruct (round_aux_spec false m e l Hm) as (m1 & e1 & m2 & e2 & Hr & ->).
  pose proof Hr as [H1 H2 _ H3 H4].
  assert (Hexp : -1074 ≤ E) by (rewrite <-HE, expo_max; lia).
  assert (e1 ≤ E) as Hle1.
  { destruct (Z.eq_dec m 0) as [->|]; [rewrite H1, expo_max; change (digits 0) with 0; lia|].
    assert (digits m + e ≤ digits (Z.pos p) + E) as Hd%expo_mono; [|lia].
    apply digits_value_le; [lia|lia|]. destruct (is_exact l); lia. }
  assert (m1 ≤ Z.pos p * 2 ^ (E - e1)) as Hm1.
  { eapply rounded_cover; [done|exact Hr|lia|]. rewrite <-Z.mul_assoc, <-Z.pow_add_r by lia.
    by replace (E - e1 + (e1 - e)) with (E - e) by lia. }
  assert (0 ≤ m1) by (assert (0 ≤ m / 2 ^ (e1 - e)) by (apply Z.div_pos; [done|apply Z.pow_pos_nonneg; lia]); lia).
  assert (e2 ≤ E) as Hle2.
  { destruct (Z.eq_dec m1 0) as [->|]; [rewrite H3, expo_max; change (digits 0) with 0; lia|].
    assert (digits m1 + e1 ≤ digits (Z.pos p) + E) as Hd%expo_mono; [|lia].
    by apply digits_value_le; [lia| |]. }
  assert (m2 ≤ Z.pos p * 2 ^ (E - e2)) as Hm2.
  { rewrite H4. apply div_scale; [lia|]. rewrite <-Z.mul_assoc, <-Z.pow_add_r by lia.
    by replace (E - e2 + (e2 - e1)) with (E - e1) by lia. }
  assert (0 ≤ m2) by (rewrite H4; apply Z.div_pos; [done|apply Z.pow_pos_nonneg; lia]).
  destruct m2 as [|q|]; [done| |lia]. rewrite (proj2 (Z.leb_le e2 971)) by lia.
  apply f_le_finite; [done|]. intros ->. rewrite Z.sub_diag in Hm2. lia.
Qed.

(** The result is canonical, when the exponent given is fine enough. *)
Lemma second_shift m1 e1 :
  0 < m1 → -1074 ≤ e1 → 0 < m1 / 2 ^ (Z.max e1 (expo (digits m1 + e1)) - e1).
Proof.
  intros Hm He. destruct (digits_bounds m1 Hm) as [Hd _]. pose proof (digits_ge1 m1 Hm).
  rewrite expo_max. set (n := Z.max e1 _ - e1).
  assert (n ≤ digits m1 - 1 ∧ 0 ≤ n) as [Hn Hn0] by (unfold n; lia).
  assert (2 ^ n ≤ 2 ^ (digits m1 - 1)) by (apply Z.pow_le_mono_r; lia).
  apply Z.div_str_pos. split; [apply Z.pow_pos_nonneg|]; lia.
Qed.

Lemma digits_mono a b : 0 < a → a ≤ b → digits a ≤ digits b.
Proof. intros Ha Hb. destruct (digits_bounds b ltac:(lia)) as [_ H2]. apply digits_le; lia. Qed.

Lemma round_valid s m e l :
  0 ≤ m → (0 < m → e ≤ expo (digits m + e)) → e ≤ -1074 ∨ 0 < m →
  f_valid (binary_round_aux 53 1024 s m e l) = true.
Proof.
  intros Hm He He0.
  destruct (round_aux_spec s m e l Hm) as (m1 & e1 & m2 & e2 & Hr & ->).
  pose proof Hr as [H1 H2 _ H3 H4].
  assert (Hn : 0 < 2 ^ (e1 - e)) by (apply Z.pow_pos_nonneg; lia).
  assert (Hq : 0 ≤ m / 2 ^ (e1 - e)) by (apply Z.div_pos; lia).
  destruct m2 as [|p|p]; [done| |done].
  destruct (e2 <=? 971) eqn:E2; [|done]. apply f_valid_canonical. bsplit.
  split_and!; [lia| |done].
  assert (0 < m1) as Hm1.
  { destruct (Z.eq_dec m1 0) as [->|]; [|lia]. by rewrite Z.div_0_l in H4 by (apply Z.pow_nonzero; lia). }
  assert (-1074 ≤ e1) by (rewrite H1, expo_max; lia).
  assert (e1 ≤ expo (digits m1 + e1) ∨ e1 = -1074) as Hc.
  { destruct (Z.eq_dec m 0) as [->|Hne].
    { right. rewrite H1, expo_max. change (digits 0) with 0. lia. }
    rewrite H1 at 1. rewrite Z.max_r by (apply He; lia).
    destruct (Z.eq_dec (m / 2 ^ (e1 - e)) 0) as [Hz|Hz].
    { right. rewrite H1, Z.max_r, expo_max by (apply He; lia).
      destruct (Z.le_gt_cases (digits m + e - 53) (-1074)); [lia|].
      exfalso. assert (e1 - e < digits m); [rewrite H1, Z.max_r, expo_max by (apply He; lia); lia|].
      destruct (digits_bounds m ltac:(lia)) as [Hd _].
      assert (2 ^ (e1 - e) ≤ 2 ^ (digits m - 1)) by (apply Z.pow_le_mono_r; lia).
      assert (0 < m / 2 ^ (e1 - e)); [|lia]. apply Z.div_str_pos. lia. }
    left. apply expo_mono.
    assert (e1 - e < digits m) as Hlt.
    { destruct (Z.lt_ge_cases (e1 - e) (digits m)) as [|Hge]; [done|].
      destruct (digits_bounds m ltac:(lia)) as [_ Hd].
      assert (2 ^ digits m ≤ 2 ^ (e1 - e)) by (apply Z.pow_le_mono_r; [lia|done]).
      rewrite Z.div_small in Hz by lia. done. }
    assert (digits (m / 2 ^ (e1 - e)) ≤ digits m1) by (apply digits_mono; lia).
    rewrite digits_shift in * by lia. lia. }
  set (n2 := e2 - e1) in *. assert (0 ≤ n2) by (unfold n2; lia).
  rewrite H4. destruct (Z.eq_dec n2 0) as [Hz|Hz].
  - rewrite Hz, Z.div_1_r. assert (e2 = e1) by (unfold n2 in *; lia).
    rewrite H5 in *. rewrite expo_max in *. lia.
  - assert (e2 = expo (digits m1 + e1)) as He2 by (unfold n2 in *; lia).
    assert (n2 < digits m1) as Hlt.
    { unfold n2. rewrite He2, expo_max. pose proof (digits_ge1 m1 Hm1). lia. }
    rewrite digits_shift by lia. rewrite He2 at 2. f_equal. unfold n2. lia.
Qed.

(** Rounding is monotone from below. *)
Lemma round_lower m e l p E :
  canonical_num (Z.pos p) E → e ≤ E → Z.pos p * 2 ^ (E - e) ≤ m →
  f_le (S754_finite false p E) (binary_round_aux 53 1024 false m e l) = true.
Proof.
  intros (HM & HE & HEmax) He Hv.
  assert (0 < 2 ^ (E - e)) by (apply Z.pow_pos_nonneg; lia).
  assert (0 < m) as Hm by nia.
  destruct (round_aux_spec false m e l ltac:(lia)) as (m1 & e1 & m2 & e2 & Hr & ->).
  pose proof Hr as [H1 H2 _ H3 H4].
  assert (digits (Z.pos p) + E ≤ digits m + e) as Hd%expo_mono by by apply digits_value_ge.
  assert (Hmin : -1074 ≤ E) by (rewrite <-HE, expo_max; lia).
  assert (E ≤ e1) as Hle1 by (rewrite H1; lia).
  assert (0 < m / 2 ^ (e1 - e)) as Hq.
  { destruct (digits_bounds m Hm) as [Hdm _]. pose proof (digits_ge1 m Hm).
    assert (e1 - e ≤ digits m - 1).
    { pose proof (digits_ge1 (Z.pos p) HM) as Hp. rewrite H1.
      pose proof (digits_value_ge m e (Z.pos p) E HM He Hv). rewrite expo_max. lia. }
    assert (2 ^ (e1 - e) ≤ 2 ^ (digits m - 1)) by (apply Z.pow_le_mono_r; lia).
    apply Z.div_str_pos. split; [apply Z.pow_pos_nonneg|]; lia. }
  pose proof (second_shift m1 e1 ltac:(lia) ltac:(lia)) as Hm2. rewrite <-H3, <-H4 in Hm2.
  destruct m2 as [|q|]; [lia| |lia]. destruct (e2 <=? 971) eqn:E2; [|done].
  apply f_le_finite; [lia|]. intros Heq. assert (e1 = E) as -> by lia.
  rewrite H4, <-Heq, Z.sub_diag, Z.div_1_r.
  assert (Z.pos p ≤ m / 2 ^ (E - e)); [|lia]. apply Z.div_le_lower_bound; lia.
Qed.

(** ** Operations on canonical numbers *)

Lemma digits_mul a b : 0 < a → 0 < b → digits a + digits b - 1 ≤ digits (a * b).
Proof.
  intros Ha Hb. destruct (digits_bounds a Ha) as [Ha1 _], (digits_bounds b Hb) as [Hb1 _].
  pose proof (digits_ge1 a Ha). pose proof (digits_ge1 b Hb).
  pose proof (digits_ge (a * b) (digits a - 1 + (digits b - 1))) as Hd.
  rewrite Z.pow_add_r in Hd by lia.
  assert (0 < 2 ^ (digits a - 1)) by (apply Z.pow_pos_nonneg; lia).
  assert (0 < 2 ^ (digits b - 1)) by (apply Z.pow_pos_nonneg; lia). nia.
Qed.

Lemma canonical_num_range m e : canonical_num m e → -1074 ≤ e ∧ (digits m = 53 ∨ e = -1074) ∧ digits m ≤ 53.
Proof. intros (Hm & He & _). rewrite expo_max in He. pose proof (digits_ge1 m Hm). lia. Qed.

Lemma f_valid_round_mul s m e m' e' :
  canonical_num (Z.pos m) e → canonical_num (Z.pos m') e' →
  f_valid (binary_round_aux 53 1024 s (Z.pos (m * m')) (e + e') loc_Exact) = true.
Proof.
  intros Hx Hy. apply round_valid; [done| |by right]. intros _.
  pose proof (canonical_num_range _ _ Hx). pose proof (canonical_num_range _ _ Hy).
  pose proof (digits_mul (Z.pos m) (Z.pos m')). pose proof (digits_ge1 (Z.pos m)).
  pose proof (digits_ge1 (Z.pos m')). rewrite expo_max. change (Z.pos (m * m')) with (Z.pos m * Z.pos m').
  lia.
Qed.

Lemma f_mul_valid x y : f_valid x = true → f_valid y = true → f_valid (f_mul x y) = true.
Proof.
  destruct x as [sx|sx| |sx m e], y as [sy|sy| |sy m' e']; try done.
  rewrite !f_valid_canonical. apply f_valid_round_mul.
Qed.

Lemma shl_align_spec m e e' :
  let '(mz, ez) := shl_align m e e' in
  ez = Z.min e e' ∧ Z.pos mz = Z.pos m * 2 ^ (e - ez).
Proof.
  unfold shl_align. destruct (e' - e) as [|d|d] eqn:E.
  - split; [lia|]. by rewrite Z.sub_diag, Z.mul_1_r.
  - split; [lia|]. by rewrite Z.sub_diag, Z.mul_1_r.
  - split; [lia|]. replace (e - e') with (Z.pos d) by lia. clear.
    induction d as [|d IH] using Pos.peano_ind.
    + simpl. lia.
    + rewrite Pos.iter_succ, Pos2Z.inj_xO, IH, Pos2Z.inj_succ, Z.pow_succ_r by lia. lia.
Qed.

Lemma digits_pow m n : 0 < m → 0 ≤ n → digits (m * 2 ^ n) = digits m + n.
Proof.
  intros Hm Hn. destruct (digits_bounds m Hm) as [H1 H2]. pose proof (digits_ge1 m Hm).
  assert (0 < 2 ^ n) by (apply Z.pow_pos_nonneg; lia). apply Z.le_antisymm.
  - apply digits_le; [nia|]. rewrite Z.pow_add_r by lia. nia.
  - pose proof (digits_ge (m * 2 ^ n) (digits m - 1 + n)) as Hd. rewrite Z.pow_add_r in Hd by lia. nia.
Qed.

Lemma normalize_valid m e s : f_valid (binary_normalize 53 1024 m e s) = true.
Proof.
  assert (∀ s p, f_valid (binary_round 53 1024 s p e) = true) as Hgen.
  { intros s' p. unfold binary_round.
    change (fexp 53 1024 (Z.pos (digits2_pos p) + e)) with (expo (digits (Z.pos p) + e)).
    pose proof (shl_align_spec p e (expo (digits (Z.pos p) + e))) as Hs.
    destruct (shl_align _ _ _) as [mz ez]. destruct Hs as [H1 H2].
    apply round_valid; [done| |by right]. intros _.
    rewrite H2, digits_pow by lia. replace (digits (Z.pos p) + (e - ez) + ez) with (digits (Z.pos p) + e) by lia.
    lia. }
  destruct m; simpl; [done|apply Hgen..].
Qed.

Lemma f_add_valid x y : f_valid x = true → f_valid y = true → f_valid (f_add x y) = true.
Proof.
  destruct x as [[]|[]| |sx m e], y as [[]|[]| |sy m' e']; try done; intros _ _; apply normalize_valid.
Qed.

Lemma f_of_Z_valid z : f_valid (f_of_Z z) = true.
Proof. apply normalize_valid. Qed.

Lemma f_div_valid x y : f_valid x = true → f_valid y = true → f_valid (f_div x y) = true.
Proof.
  destruct x as [sx|sx| |sx m e], y as [sy|sy| |sy m' e']; try done.
  intros _ _. unfold f_div, SFdiv, SFdiv_core_binary.
  change (Zdigits2 (Z.pos m)) with (digits (Z.pos m)).
  change (Zdigits2 (Z.pos m')) with (digits (Z.pos m')).
  change (fexp 53 1024) with expo.
  set (D := digits (Z.pos m) + e - (digits (Z.pos m') + e')).
  set (e1 := Z.min (expo D) (e - e')). set (s := e - e' - e1).
  assert (0 ≤ s) by (unfold s, e1; lia).
  assert ((match s with 0 => Z.pos m | Z.pos _ => Z.shiftl (Z.pos m) s | Z.neg _ => 0 end)
    = Z.pos m * 2 ^ s) as ->.
  { destruct s as [|q|q] eqn:Es; [by rewrite Z.mul_1_r| |lia]. by rewrite Z.shiftl_mul_pow2. }
  pose proof (Z_div_mod (Z.pos m * 2 ^ s) (Z.pos m') ltac:(lia)) as Hd.
  destruct (Z.div_eucl _ _) as [q r]. destruct Hd as [Hq Hr].
  assert (Hs : 0 < 2 ^ s) by (apply Z.pow_pos_nonneg; lia).
  assert (0 ≤ q) as Hq0 by nia.
  pose proof (digits_bounds (Z.pos m) ltac:(lia)) as [Hm1 _].
  pose proof (digits_bounds (Z.pos m') ltac:(lia)) as [_ Hm2].
  pose proof (digits_ge1 (Z.pos m) ltac:(lia)). pose proof (digits_ge1 (Z.pos m') ltac:(lia)).
  (* enough digits in the quotient *)
  assert (∀ k, 0 ≤ k → k + digits (Z.pos m') ≤ digits (Z.pos m) - 1 + s → 2 ^ k ≤ q) as Hk.
  { intros k Hk0 Hle.
    assert (2 ^ k * 2 ^ digits (Z.pos m') ≤ 2 ^ (digits (Z.pos m) - 1) * 2 ^ s) as Hp.
    { rewrite <-!Z.pow_add_r by lia. apply Z.pow_le_mono_r; lia. }
    assert (0 < 2 ^ k) by (apply Z.pow_pos_nonneg; lia). nia. }
  assert (Hsd : digits (Z.pos m) - 1 + s = D - 1 - e1 + digits (Z.pos m')) by (unfold D, s; lia).
  apply round_valid; [done| |].
  - intros Hpos. destruct (Z.le_gt_cases (D - 1 - e1) 0) as [Hle|Hgt].
    + transitivity (expo D); [unfold e1; lia|]. apply expo_mono.
      pose proof (digits_ge1 q Hpos). lia.
    + transitivity (expo D); [unfold e1; lia|]. apply expo_mono.
      pose proof (digits_ge q (D - 1 - e1) ltac:(apply Hk; lia)). lia.
  - destruct (Z.le_gt_cases 0 (D - 1 - e1)) as [Hle|Hgt].
    + right. specialize (Hk 0). lia.
    + left. unfold e1 in *. rewrite expo_max in *. lia.
Qed.

(** The value behind the comparison of canonical numbers *)
Lemma f_le_value p e q f :
  canonical_num (Z.pos p) e → canonical_num (Z.pos q) f →
  f_le (S754_finite false p e) (S754_finite false q f) = true →
  e ≤ f ∧ Z.pos p ≤ Z.pos q * 2 ^ (f - e).
Proof.
  intros Hp Hq. unfold f_le, SFleb, SFcompare.
  destruct (Z.compare_spec e f) as [->|Hl|Hl]; [| |done].
  - rewrite pos_compare_Z, Z.sub_diag, Z.mul_1_r.
    destruct (Z.compare_spec (Z.pos p) (Z.pos q)); intros ?; try done; lia.
  - intros _. split; [lia|].
    destruct (canonical_num_range _ _ Hp) as (? & _ & Hdp), (canonical_num_range _ _ Hq) as (? & [Hdq|?] & _); [|lia].
    destruct (digits_bounds (Z.pos p) ltac:(lia)) as [_ H1], (digits_bounds (Z.pos q) ltac:(lia)) as [H2 _].
    rewrite Hdq in H2. assert (2 ^ digits (Z.pos p) ≤ 2 ^ 53) by (apply Z.pow_le_mono_r; lia).
    assert (2 ^ 1 ≤ 2 ^ (f - e)) by (apply Z.pow_le_mono_r; lia).
    change (2 ^ 53) with (2 ^ (53 - 1) * 2) in *. nia.
Qed.

(** A product is below a canonical bound of the exact product. *)
Lemma f_mul_upper p e q f b g :
  canonical_num (Z.pos b) g → e + f ≤ g → Z.pos p * Z.pos q ≤ Z.pos b * 2 ^ (g - (e + f)) →
  f_le (f_mul (S754_finite false p e) (S754_finite false q f)) (S754_finite false b g) = true.
Proof. intros Hb He Hv. by apply round_upper. Qed.

(** A factor of at most one does not increase. *)
Lemma f_mul_le_one x c :
  f_valid x = true → f_nonneg x = true → f_finite x = true → f_valid c = true →
  f_between f_zero (f_of_Z 1) c → f_le (f_mul x c) x = true.
Proof.
  destruct x as [sx|sx| |[] m e]; try done.
  { intros _ _ _ _ Hc. pose proof (f_between_finite (f_of_Z 1) c eq_refl Hc) as Hf.
    by destruct c as [| | |]. }
  rewrite f_valid_canonical. intros Hx _ _ Hc [Hc0 Hc1].
  destruct c as [sc|[]| |[] m' e']; try done.
  apply f_valid_canonical in Hc. apply (f_le_value m' e' (2 ^ 52)%positive (-52)) in Hc1 as [He Hm];
    [|done|done].
  apply f_mul_upper; [done|lia|].
  replace (e - (e + e')) with (- e') by lia.
  change (Z.pos (2 ^ 52)) with (2 ^ 52) in Hm. rewrite <-Z.pow_add_r in Hm by lia.
  replace (52 + (-52 - e')) with (- e') in Hm by lia. nia.
Qed.

(** ** One decimal: [math.Round(x*10) / 10] *)
Definition tenths (x : float64) : float64 := f_div (f_round (f_mul x (f_of_Z 10))) (f_of_Z 10).

Lemma tenths_table :
  forallb (λ q, f_le f_zero (f_div (f_of_Z q) (f_of_Z 10))
                && f_le (f_div (f_of_Z q) (f_of_Z 10)) (f_of_Z 100)) (seqZ 0 1001) = true.
Proof. by vm_compute. Qed.

Lemma tenths_bounds x :
  f_valid x = true → f_between f_zero (f_of_Z 100) x → f_between f_zero (f_of_Z 100) (tenths x).
Proof.
  intros Hv [H0 H1]. unfold tenths.
  destruct x as [sx|[]| |[] m e]; try done; try by destruct sx.
  apply f_valid_canonical in Hv.
  apply (f_le_value m e 7036874417766400 (-46)) in H1 as [He Hm]; [|done|done].
  assert (Hup : f_le (f_mul (S754_finite false m e) (f_of_Z 10)) (f_of_Z 1000) = true).
  { change (f_of_Z 10) with (S754_finite false 5629499534213120 (-49)).
    change (f_of_Z 1000) with (S754_finite false 8796093022208000 (-43)).
    apply f_mul_upper; [done|lia|].
    replace (-43 - (e + -49)) with (52 + (-46 - e)) by lia. rewrite Z.pow_add_r by lia. lia. }
  assert (Hpos : f_nonneg (f_mul (S754_finite false m e) (f_of_Z 10)) = true) by by apply f_mul_nonneg.
  assert (Hval : f_valid (f_mul (S754_finite false m e) (f_of_Z 10)) = true).
  { apply f_mul_valid; [by apply f_valid_canonical|apply f_of_Z_valid]. }
  destruct (f_mul _ _) as [sy|[]| |[] p f]; try done; try by destruct sy.
  apply f_valid_canonical in Hval.
  apply (f_le_value p f 8796093022208000 (-43)) in Hup as [Hf Hp]; [|done|done].
  unfold f_round. rewrite (proj2 (Z.leb_gt 0 f)) by lia.
  set (d := 2 ^ (- f)). set (q := (2 * Z.pos p + d) / (2 * d)).
  assert (0 < d) by (apply Z.pow_pos_nonneg; lia).
  assert (Z.pos p ≤ 1000 * d) as Hp1000.
  { unfold d. replace (- f) with (43 + (-43 - f)) by lia. rewrite Z.pow_add_r by lia. lia. }
  assert (0 ≤ q ≤ 1000) as Hq.
  { unfold q. split; [apply Z.div_pos; lia|]. assert ((2 * Z.pos p + d) / (2 * d) < 1001); [|lia].
    apply Z.div_lt_upper_bound; lia. }
  pose proof (proj1 (forallb_forall _ _) tenths_table q) as Ht.
  assert (List.In q (seqZ 0 1001)) as Hin%Ht by (apply list_elem_of_In, elem_of_seqZ; lia).
  apply andb_prop in Hin as [Ht1 Ht2].
  destruct (Z.eqb_spec q 0) as [Hz|_]; [by split|]. split; [exact Ht1|exact Ht2].
Qed.

(** [f_valid] of an expression *)
Lemma f_lit_valid a b : f_valid (f_lit a b) = true.
Proof. apply f_div_valid; apply f_of_Z_valid. Qed.
Lemma f_min_valid x y : f_valid x = true → f_valid y = true → f_valid (f_min x y) = true.
Proof.
  intros Hx Hy. unfold f_min. destruct x as [[]|[]| |[] ? ?], y as [[]|[]| |[] ? ?]; try done; by case_if.
Qed.
Lemma f_max_valid x y : f_valid x = true → f_valid y = true → f_valid (f_max x y) = true.
Proof.
  intros Hx Hy. unfold f_max. destruct x as [[]|[]| |[] ? ?], y as [[]|[]| |[] ? ?]; try done; by case_if.
Qed.
Lemma clamp_valid v lo hi :
  f_valid v = true → f_valid lo = true → f_valid hi = true → f_valid (clamp v lo hi) = true.
Proof. intros. unfold clamp. by repeat case_if. Qed.
#[export] Hint Resolve f_add_valid f_mul_valid f_div_valid f_of_Z_valid f_lit_valid f_min_valid
  f_max_valid clamp_valid : floats.

(** A decay factor is at most one: [1 / (1 + x)]. *)
Lemma f_clamp_one c lo : f_valid c = true → f_valid lo = true → is_nan c = false →
  f_nonneg lo = true → f_le lo (f_of_Z 1) = true →
  f_valid (clamp c lo (f_of_Z 1)) = true ∧ f_between f_zero (f_of_Z 1) (clamp c lo (f_of_Z 1)).
Proof.
  intros Hc Hlo Hn Hp Hle. split; [by auto with floats|].
  destruct (clamp_between c lo (f_of_Z 1) Hn Hle) as [H1 H2]. split; [|done].
  eapply f_le_trans; [by apply f_nonneg_le|done].
Qed.

(** ** Counts and rates *)

(** An integer below 2^53 is exact. *)
Lemma f_of_Z_exact n :
  0 < n < 2 ^ 53 → ∃ p e, f_of_Z n = S754_finite false p e ∧ canonical_num (Z.pos p) e ∧
    -52 ≤ e ≤ 0 ∧ Z.pos p = n * 2 ^ (- e).
Proof.
  intros Hn. destruct n as [|n|n]; try lia. unfold f_of_Z, binary_normalize, binary_round.
  change (fexp 53 1024 (Z.pos (digits2_pos n) + 0)) with (expo (digits (Z.pos n) + 0)).
  pose proof (shl_align_spec n 0 (expo (digits (Z.pos n) + 0))) as Hs.
  destruct (shl_align _ _ _) as [mz ez]. destruct Hs as [He Hm].
  pose proof (digits_ge1 (Z.pos n) ltac:(lia)). pose proof (digits_le (Z.pos n) 53 ltac:(lia) ltac:(lia)).
  assert (ez = digits (Z.pos n) - 53) as Hez by (rewrite He, expo_max; lia).
  replace (0 - ez) with (- ez) in Hm by lia.
  assert (digits (Z.pos mz) = 53) as Hd by (rewrite Hm, digits_pow; lia).
  destruct (round_aux_spec false (Z.pos mz) ez loc_Exact ltac:(lia)) as (m1 & e1 & m2 & e2 & [H1 _ H3 H4 H5] & ->).
  rewrite Hd, expo_max in H1. assert (e1 = ez) as -> by lia.
  rewrite Z.sub_diag, Z.div_1_r, Z.mod_1_r in H3. rewrite (H3 eq_refl eq_refl) in *.
  rewrite Hd, expo_max in H4. assert (e2 = ez) as -> by lia.
  rewrite Z.sub_diag, Z.div_1_r in H5. subst m2. rewrite (proj2 (Z.leb_le ez 971)) by lia.
  exists mz, ez. split_and!; try done; try lia. split_and!; [lia| |lia].
  rewrite Hd, expo_max. lia.
Qed.

Lemma f_of_Z_posfin n : 0 < n < 2 ^ 53 → f_posfin (f_of_Z n) = true.
Proof. intros Hn. by destruct (f_of_Z_exact n Hn) as (p & e & -> & _). Qed.

Lemma f_of_Z_le a b : 0 ≤ a ≤ b → b < 2 ^ 53 → f_le (f_of_Z a) (f_of_Z b) = true.
Proof.
  intros Hab Hb. destruct (Z.eq_dec a 0) as [->|Ha].
  { apply f_nonneg_le, f_of_Z_nonneg. lia. }
  destruct (f_of_Z_exact a) as (p & e & -> & Hp & He & Hpv); [lia|].
  destruct (f_of_Z_exact b) as (q & f & -> & Hq & Hf & Hqv); [lia|].
  pose proof (digits_value_le a 0 b 0 ltac:(lia) ltac:(lia) ltac:(lia)) as Hd.
  assert (∀ c e (p : positive), 0 < c → Z.pos p = c * 2 ^ (- e) → e ≤ 0 → digits (Z.pos p) = digits c - e) as Hdig.
  { intros c e' p' Hc -> He'. rewrite digits_pow; lia. }
  pose proof (Hdig a e p ltac:(lia) Hpv ltac:(lia)). pose proof (Hdig b f q ltac:(lia) Hqv ltac:(lia)).
  destruct Hp as (_ & Hpe & _), Hq as (_ & Hqe & _). rewrite expo_max in Hpe, Hqe.
  apply f_le_finite; [lia|]. intros ->. rewrite Hpv, Hqv. apply Z.mul_le_mono_nonneg_r; lia.
Qed.

(** A quotient of ordered positive numbers is at most one. *)
Lemma f_div_le_one x y :
  f_valid x = true → f_valid y = true → f_nonneg x = true → f_posfin y = true → f_le x y = true →
  f_le (f_div x y) (f_of_Z 1) = true.
Proof.
  destruct y as [sy|sy| |[] m' e']; try done. destruct x as [sx|[]| |[] m e]; try done.
  rewrite !f_valid_canonical. intros Hx Hy _ _ Hle.
  apply f_le_value in Hle as [He Hm]; [|done|done].
  pose proof (digits_value_le (Z.pos m) e (Z.pos m') e' ltac:(lia) He Hm) as Hd.
  unfold f_div, SFdiv, SFdiv_core_binary.
  change (Zdigits2 (Z.pos m)) with (digits (Z.pos m)). change (Zdigits2 (Z.pos m')) with (digits (Z.pos m')).
  change (fexp 53 1024) with expo.
  set (D := digits (Z.pos m) + e - (digits (Z.pos m') + e')).
  set (e1 := Z.min (expo D) (e - e')). set (s := e - e' - e1).
  assert (e1 ≤ -52) by (unfold e1, D; rewrite expo_max; lia).
  assert (0 ≤ s) by (unfold s, e1; lia).
  assert ((match s with 0 => Z.pos m | Z.pos _ => Z.shiftl (Z.pos m) s | Z.neg _ => 0 end)
    = Z.pos m * 2 ^ s) as ->.
  { destruct s as [|q|q] eqn:Es; [by rewrite Z.mul_1_r| |lia]. by rewrite Z.shiftl_mul_pow2. }
  pose proof (Z_div_mod (Z.pos m * 2 ^ s) (Z.pos m') ltac:(lia)) as Hq.
  destruct (Z.div_eucl _ _) as [q r]. destruct Hq as [Hq Hr].
  assert (0 < 2 ^ s) by (apply Z.pow_pos_nonneg; lia).
  assert (Z.pos m * 2 ^ s ≤ Z.pos m' * 2 ^ (- e1)) as Hb.
  { replace (- e1) with ((e' - e) + s) by (unfold s; lia). rewrite Z.pow_add_r by lia. nia. }
  change (f_of_Z 1) with (S754_finite false (2 ^ 52) (-52)). apply round_upper; [nia|done|lia|].
  assert (Z.pos (2 ^ 52) * 2 ^ (-52 - e1) = 2 ^ (- e1)) as ->.
  { change (Z.pos (2 ^ 52)) with (2 ^ 52). rewrite <-Z.pow_add_r by lia. f_equal. lia. }
  unfold new_location, new_location_even, new_location_odd.
  assert (q ≤ 2 ^ (- e1)) by (apply (Z.mul_le_mono_pos_l _ _ (Z.pos m')); lia).
  assert (r ≠ 0 → q + 1 ≤ 2 ^ (- e1)) by (intros; nia).
  destruct (Z.even _); cbv beta; destruct (Z.eqb_spec r 0) as [->|Hne]; cbn [is_exact Z.eqb]; auto.
Qed.

(** The rate of [k] successes out of [n] *)
Lemma rate_bounds k n : 0 ≤ k ≤ n → 0 < n < 2 ^ 53 →
  f_between f_zero (f_of_Z 1) (f_div (f_of_Z k) (f_of_Z n)).
Proof.
  intros Hk Hn. split.
  - apply f_nonneg_le, f_div_nonneg; [apply f_of_Z_nonneg; lia|by apply f_of_Z_posfin].
  - apply f_div_le_one; auto using f_of_Z_valid, f_of_Z_posfin.
    + apply f_of_Z_nonneg. lia.
    + apply f_of_Z_le; lia.
Qed.
