(* ===== verification/GoTime.v ===== *)
(** * Instants, the civil calendar and the two time formats

    [time.Time] is an instant, in nanoseconds since 0001-01-01T00:00:00Z, so
    the zero [Time] is 0.  [internal/timex] renders instants in Asia/Shanghai
    with second precision (RFC 3339); [internal/db] stores them in text
    columns with nanosecond precision and lets SQL compare the text.  The
    theorems of this file are what that design needs: on the instants the
    program handles the text order is the time order, and reading a stored
    time gives it back. *)
From S2P Require Import Prelude GoStr.

Abbreviation Time := Z.
Abbreviation Duration := Z.

Definition Nanosecond : Duration := 1.
Definition Millisecond : Duration := 1000000.
Definition Second : Duration := 1000000000.
Definition Minute : Duration := 60 * Second.
Definition Hour : Duration := 60 * Minute.

Definition zero_time : Time := 0.
Definition IsZero (t : Time) : bool := t =? 0.
Definition Before (t u : Time) : bool := t <? u.
Definition After (t u : Time) : bool := u <? t.
Definition Milliseconds (d : Duration) : Z := Z.quot d Millisecond.

(** Seconds from 0001-01-01 to 1970-01-01. *)
Definition unix_epoch : Z := 62135596800.
(** [t.Unix()] *)
Definition Unix (t : Time) : Z := t / Second - unix_epoch.

(** ** The proleptic Gregorian calendar *)

Record civil := Civil { c_year : Z; c_month : Z; c_day : Z }.

Definition year_of_era (doe : Z) : Z :=
  (doe - doe / 1460 + doe / 36524 - doe / 146096) / 365.
Definition day_of_year (doe : Z) : Z :=
  doe - (365 * year_of_era doe + year_of_era doe / 4 - year_of_era doe / 100).

(** The date of a day number; day 0 is 0001-01-01.  Years start in March
    inside a 400-year era, so that the leap day is the last of its year. *)
Definition civil_of_days (days : Z) : civil :=
  let z := days + 306 in
  let era := z / 146097 in
  let doe := z mod 146097 in
  let yoe := year_of_era doe in
  let doy := day_of_year doe in
  let mp := (5 * doy + 2) / 153 in
  let d := doy - (153 * mp + 2) / 5 + 1 in
  let m := if mp <? 10 then mp + 3 else mp - 9 in
  Civil (yoe + era * 400 + (if m <=? 2 then 1 else 0)) m d.

Definition days_of_civil (c : civil) : Z :=
  let y := c_year c - (if c_month c <=? 2 then 1 else 0) in
  let era := y / 400 in
  let yoe := y mod 400 in
  let mp := (c_month c + 9) mod 12 in
  let doy := (153 * mp + 2) / 5 + c_day c - 1 in
  era * 146097 + (yoe * 365 + yoe / 4 - yoe / 100 + doy) - 306.

Definition is_leap (y : Z) : bool :=
  (y mod 4 =? 0) && (negb (y mod 100 =? 0) || (y mod 400 =? 0)).
Definition days_in (m y : Z) : Z :=
  if m =? 2 then (if is_leap y then 29 else 28)
  else if (m =? 4) || (m =? 6) || (m =? 9) || (m =? 11) then 30 else 31.

Ltac euclid := Z.to_euclidean_division_equations; lia.

Lemma year_of_era_mono a b :
  0 ≤ a → a ≤ b → b < 146097 → year_of_era a ≤ year_of_era b.
Proof.
  unfold year_of_era. intros. apply Z.div_le_mono; [lia|].
  assert (a / 1460 ≤ b / 1460) by (apply Z.div_le_mono; lia).
  assert (a / 36524 ≤ b / 36524) by (apply Z.div_le_mono; lia).
  assert (b / 1460 - a / 1460 ≤ b - a) by euclid.
  destruct (Z.eq_dec b 146096) as [->|]; [euclid|].
  rewrite (Z.div_small b 146096), (Z.div_small a 146096) by lia. lia.
Qed.

Lemma day_of_year_range doe :
  0 ≤ doe < 146097 →
  0 ≤ year_of_era doe ≤ 399 ∧ 0 ≤ day_of_year doe ≤ 365.
Proof. unfold day_of_year, year_of_era. intros. euclid. Qed.

(** The position of a date in a calendar of twelve months of 31 days. *)
Definition civil_key (c : civil) : Z :=
  c_year c * 372 + (c_month c - 1) * 31 + (c_day c - 1).

Lemma civil_of_days_range days :
  let c := civil_of_days days in 1 ≤ c_month c ≤ 12 ∧ 1 ≤ c_day c ≤ 31.
Proof.
  cbn zeta. unfold civil_of_days; cbn [c_month c_day].
  pose proof (Z.mod_pos_bound (days + 306) 146097 ltac:(lia)) as Hd.
  destruct (day_of_year_range _ Hd) as [_ Hr].
  set (doy := day_of_year _) in *. clearbody doy.
  destruct (Z.ltb_spec ((5 * doy + 2) / 153) 10); euclid.
Qed.

(** In March-based coordinates the key is affine in the era and increasing in
    the day of the year. *)
Lemma civil_key_days days :
  let doe := (days + 306) mod 146097 in
  let doy := day_of_year doe in
  civil_key (civil_of_days days) =
    (year_of_era doe + (days + 306) / 146097 * 400) * 372
    + ((5 * doy + 2) / 153 * 31 + (doy - (153 * ((5 * doy + 2) / 153) + 2) / 5)) + 62.
Proof.
  cbn zeta. unfold civil_key, civil_of_days; cbn [c_year c_month c_day].
  pose proof (Z.mod_pos_bound (days + 306) 146097 ltac:(lia)) as Hd.
  destruct (day_of_year_range _ Hd) as [_ Hr].
  set (doy := day_of_year _) in *. clearbody doy.
  assert (0 ≤ (5 * doy + 2) / 153 ≤ 11) by euclid.
  set (mp := (5 * doy + 2) / 153) in *. clearbody mp.
  destruct (Z.ltb_spec mp 10).
  - destruct (Z.leb_spec (mp + 3) 2); lia.
  - destruct (Z.leb_spec (mp - 9) 2); lia.
Qed.

Lemma civil_key_mono d1 d2 :
  d1 < d2 → civil_key (civil_of_days d1) < civil_key (civil_of_days d2).
Proof.
  intros Hlt. rewrite !civil_key_days; cbn zeta.
  pose proof (Z.mod_pos_bound (d1 + 306) 146097 ltac:(lia)) as H1.
  pose proof (Z.mod_pos_bound (d2 + 306) 146097 ltac:(lia)) as H2.
  pose proof (Z.div_mod (d1 + 306) 146097 ltac:(lia)) as E1.
  pose proof (Z.div_mod (d2 + 306) 146097 ltac:(lia)) as E2.
  destruct (day_of_year_range _ H1) as [Hy1 Hr1], (day_of_year_range _ H2) as [Hy2 Hr2].
  set (e1 := (d1 + 306) / 146097) in *. set (e2 := (d2 + 306) / 146097) in *.
  set (doe1 := (d1 + 306) mod 146097) in *. set (doe2 := (d2 + 306) mod 146097) in *.
  clearbody e1 e2 doe1 doe2.
  assert (Hb : ∀ x, 0 ≤ x ≤ 365 →
    0 ≤ (5 * x + 2) / 153 * 31 + (x - (153 * ((5 * x + 2) / 153) + 2) / 5) ≤ 371)
    by (intros; euclid).
  assert (Hm : ∀ x y, 0 ≤ x < y → y ≤ 365 →
    (5 * x + 2) / 153 * 31 + (x - (153 * ((5 * x + 2) / 153) + 2) / 5) <
    (5 * y + 2) / 153 * 31 + (y - (153 * ((5 * y + 2) / 153) + 2) / 5))
    by (intros; euclid).
  pose proof (Hb _ Hr1). pose proof (Hb _ Hr2).
  destruct (Z.lt_ge_cases e1 e2) as [|He]; [nia|].
  assert (e1 = e2) as -> by lia.
  assert (doe1 < doe2) as Hdoe by lia.
  pose proof (year_of_era_mono doe1 doe2 ltac:(lia) ltac:(lia) ltac:(lia)) as Hym.
  destruct (Z.lt_ge_cases (year_of_era doe1) (year_of_era doe2)); [nia|].
  assert (Heq : year_of_era doe1 = year_of_era doe2) by lia.
  assert (day_of_year doe1 < day_of_year doe2) by (unfold day_of_year; rewrite Heq; lia).
  pose proof (Hm (day_of_year doe1) (day_of_year doe2) ltac:(lia) ltac:(lia)). lia.
Qed.

Lemma days_of_civil_of_days days : days_of_civil (civil_of_days days) = days.
Proof.
  unfold days_of_civil, civil_of_days; cbn [c_year c_month c_day].
  pose proof (Z.mod_pos_bound (days + 306) 146097 ltac:(lia)) as Hd.
  pose proof (Z.div_mod (days + 306) 146097 ltac:(lia)) as E.
  destruct (day_of_year_range _ Hd) as [Hy Hr].
  set (doe := (days + 306) mod 146097) in *. set (era := (days + 306) / 146097) in *.
  assert (Hdoe : doe = 365 * year_of_era doe + year_of_era doe / 4
    - year_of_era doe / 100 + day_of_year doe) by (unfold day_of_year; lia).
  set (doy := day_of_year doe) in *. set (yoe := year_of_era doe) in *.
  clearbody doe era doy yoe.
  assert (0 ≤ (5 * doy + 2) / 153 ≤ 11) by euclid.
  set (mp := (5 * doy + 2) / 153) in *. clearbody mp.
  assert (Hera : ∀ k, k = yoe + era * 400 → k / 400 = era ∧ k mod 400 = yoe)
    by (intros k ->; euclid).
  assert (Hyk : ∀ m, (m = mp + 3 ∧ mp < 10) ∨ (m = mp - 9 ∧ 10 ≤ mp) →
    (m + 9) mod 12 = mp) by (intros m [[-> ?]|[-> ?]]; euclid).
  destruct (Z.ltb_spec mp 10).
  - rewrite (Hyk (mp + 3)) by lia. destruct (Z.leb_spec (mp + 3) 2); [lia|].
    destruct (Hera (yoe + era * 400 + 0 - 0) ltac:(lia)) as [-> ->]. lia.
  - rewrite (Hyk (mp - 9)) by lia. destruct (Z.leb_spec (mp - 9) 2); [|lia].
    destruct (Hera (yoe + era * 400 + 1 - 1) ltac:(lia)) as [-> ->]. lia.
Qed.

Lemma civil_of_days_valid days :
  let c := civil_of_days days in c_day c ≤ days_in (c_month c) (c_year c).
Proof.
  cbn zeta. unfold civil_of_days; cbn [c_year c_month c_day].
  pose proof (Z.mod_pos_bound (days + 306) 146097 ltac:(lia)) as Hd.
  destruct (day_of_year_range _ Hd) as [Hy Hr].
  set (doe := (days + 306) mod 146097) in *. set (era := (days + 306) / 146097) in *.
  assert (Hleap : day_of_year doe = 365 →
    (year_of_era doe + 1) mod 4 = 0 ∧
    ((year_of_era doe + 1) mod 100 ≠ 0 ∨ (year_of_era doe + 1) mod 400 = 0)).
  { unfold day_of_year, year_of_era. clearbody doe era. clear Hy Hr. euclid. }
  set (doy := day_of_year doe) in *. set (yoe := year_of_era doe) in *.
  clearbody doe era doy yoe.
  assert (Hmod : ∀ k, (400 mod k = 0 ∧ 0 < k) → (yoe + era * 400 + 1) mod k = (yoe + 1) mod k).
  { intros k [Hk ?]. apply Z.mod_divide in Hk as [c Hc]; [|lia].
    rewrite Hc. replace (yoe + era * (c * k) + 1) with (yoe + 1 + (era * c) * k) by ring.
    apply Z_mod_plus_full. }
  assert (0 ≤ (5 * doy + 2) / 153 ≤ 11) by euclid.
  unfold days_in, is_leap.
  destruct (Z.ltb_spec ((5 * doy + 2) / 153) 10).
  - repeat match goal with |- context [Z.eqb (_ + 3) ?b] =>
      destruct (Z.eqb_spec ((5 * doy + 2) / 153 + 3) b) end; simpl; euclid.
  - destruct (Z.leb_spec ((5 * doy + 2) / 153 - 9) 2); [|lia].
    rewrite !Hmod by (split; [reflexivity|lia]).
    repeat match goal with |- context [Z.eqb (_ - 9) ?b] =>
      destruct (Z.eqb_spec ((5 * doy + 2) / 153 - 9) b) end; simpl; try euclid.
    destruct (Z.eq_dec doy 365) as [Hdoy|].
    + destruct (Hleap Hdoy) as [-> [Hn|Hn]].
      * rewrite (proj2 (Z.eqb_neq _ _) Hn). simpl. euclid.
      * rewrite Hn, orb_true_r. simpl. euclid.
    + case_if; euclid.
Qed.

(** ** Formatting *)

Definition digit (n : Z) : ascii := byte_of (48 + n).

(** [n] in decimal, zero-padded to [w] digits, for [0 <= n < 10^w]. *)
Fixpoint pad (w : nat) (n : Z) : bytes :=
  match w with
  | O => []
  | S w => pad w (n / 10) ++ [digit (n mod 10)]
  end.

Definition fmt_year (y : Z) : bytes :=
  if (0 <=? y) && (y <? 10000) then pad 4 y
  else if 10000 <=? y then explode (Itoa y)
  else explode "-" ++ (if - y <? 10000 then pad 4 (- y) else explode (Itoa (- y))).

(** The zone [Z07:00] of an offset in seconds east of UTC. *)
Definition fmt_zone (off : Z) : bytes :=
  if off =? 0 then explode "Z"
  else
    let m := Z.quot (Z.abs off) 60 in
    explode (if off <? 0 then "-" else "+") ++ pad 2 (m / 60) ++ explode ":" ++ pad 2 (m mod 60).

Definition day_ns : Z := 86400 * Second.

(** The wall clock of a local instant: day number, hour, minute, second and
    nanosecond. *)
Definition local_days (l : Z) : Z := l / day_ns.
Definition local_hour (l : Z) : Z := l mod day_ns / Hour.
Definition local_min (l : Z) : Z := l mod Hour / Minute.
Definition local_sec (l : Z) : Z := l mod Minute / Second.
Definition local_nsec (l : Z) : Z := l mod Second.

Definition fmt_date (l : Z) : bytes :=
  let c := civil_of_days (local_days l) in
  fmt_year (c_year c) ++ explode "-" ++ pad 2 (c_month c) ++ explode "-" ++ pad 2 (c_day c).
Definition fmt_clock (l : Z) : bytes :=
  pad 2 (local_hour l) ++ explode ":" ++ pad 2 (local_min l) ++ explode ":" ++ pad 2 (local_sec l).

(** ** Asia/Shanghai *)

(** The IANA database entry that [time.LoadLocation("Asia/Shanghai")] reads:
    the offset east of UTC, in seconds, at an instant; [None] when loading
    fails. *)
Class TzData := tz_shanghai : option (Time → Z).

(** 1991-09-14T17:00:00Z, the end of the last daylight saving time. *)
Definition cst_since : Time := 62820464400 * Second.

(** The entry has a constant offset of eight hours from then on. *)
Class TzShanghai `{TzData} := tz_cst :
  ∀ f, tz_shanghai = Some f → ∀ t, cst_since ≤ t → f t = 28800.

Section timex.
Context `{TzData}.

(** [timex.Location], with the fallback [time.FixedZone("CST", 8*3600)] *)
Definition Location (t : Time) : Z :=
  match tz_shanghai with Some f => f t | None => 8 * 3600 end.

(** [t.In(timex.Location())] as a local instant *)
Definition In_ (t : Time) : Z := t + Location t * Second.

(** [timex.FormatRFC3339] *)
Definition FormatRFC3339 (t : Time) : string :=
  if IsZero t then ""
  else implode (fmt_date (In_ t) ++ explode "T" ++ fmt_clock (In_ t) ++ fmt_zone (Location t)).

(** [timex.FormatFileTS]: [20060102-150405] *)
Definition FormatFileTS (t : Time) : string :=
  let l := In_ t in
  let c := civil_of_days (local_days l) in
  implode (fmt_year (c_year c) ++ pad 2 (c_month c) ++ pad 2 (c_day c) ++ explode "-"
    ++ pad 2 (local_hour l) ++ pad 2 (local_min l) ++ pad 2 (local_sec l)).

(** [timex.Now().Format("2006-01-02")] *)
Definition FormatDay (t : Time) : string := implode (fmt_date (In_ t)).

(** [fmtTime] of [internal/db]: [2006-01-02T15:04:05.000000000Z07:00] *)
Definition fmtTime (t : Time) : string :=
  if IsZero t then ""
  else implode (fmt_date (In_ t) ++ explode "T" ++ fmt_clock (In_ t)
    ++ explode "." ++ pad 9 (local_nsec (In_ t)) ++ fmt_zone (Location t)).
End timex.

(** ** Text order is time order *)

Fixpoint bcompare (a b : bytes) : comparison :=
  match a, b with
  | [], [] => Eq
  | [], _ :: _ => Lt
  | _ :: _, [] => Gt
  | c :: a, d :: b =>
      match Ascii.compare c d with Eq => bcompare a b | r => r end
  end.

Lemma compare_implode a b : String.compare (implode a) (implode b) = bcompare a b.
Proof.
  revert b; induction a as [|c a IH]; intros [|d b]; try done.
  unfold implode in *; simpl. by rewrite IH.
Qed.

Lemma ascii_compare_refl c : Ascii.compare c c = Eq.
Proof. apply N.compare_refl. Qed.

Lemma string_compare_refl s : String.compare s s = Eq.
Proof. induction s as [|c s IH]; simpl; [done|]. by rewrite ascii_compare_refl. Qed.

Lemma bcompare_app a1 a2 b1 b2 :
  length a1 = length a2 →
  bcompare (a1 ++ b1) (a2 ++ b2) = lexc (bcompare a1 a2) (bcompare b1 b2).
Proof.
  revert a2; induction a1 as [|c a1 IH]; intros [|d a2] Hl; try done.
  simpl in *. rewrite IH by lia. by destruct (Ascii.compare c d).
Qed.

Lemma bcompare_refl a : bcompare a a = Eq.
Proof. induction a as [|c a IH]; simpl; [done|]. by rewrite ascii_compare_refl. Qed.

Lemma digit_compare m n :
  0 ≤ m < 10 → 0 ≤ n < 10 → bcompare [digit m] [digit n] = (m ?= n).
Proof.
  intros Hm Hn. simpl. unfold Ascii.compare, digit, byte_of.
  rewrite !N_ascii_embedding by lia. rewrite Z2N.inj_compare by lia.
  destruct (Z.compare_spec (48 + m) (48 + n)), (Z.compare_spec m n);
    done || (exfalso; lia).
Qed.

Lemma length_pad w n : length (pad w n) = w.
Proof. revert n; induction w as [|w IH]; intros n; simpl; [done|]. rewrite length_app, IH. simpl. lia. Qed.

Lemma radix_compare b q r q' r' :
  0 ≤ r < b → 0 ≤ r' < b →
  (q * b + r ?= q' * b + r') = lexc (q ?= q') (r ?= r').
Proof.
  intros Hr Hr'. destruct (Z.compare_spec q q') as [->|Hq|Hq]; simpl.
  - destruct (Z.compare_spec r r'), (Z.compare_spec (q' * b + r) (q' * b + r')); done || (exfalso; lia).
  - apply Z.compare_lt_iff. nia.
  - apply Z.compare_gt_iff. nia.
Qed.

Lemma pad_compare w m n :
  0 ≤ m < 10 ^ Z.of_nat w → 0 ≤ n < 10 ^ Z.of_nat w →
  bcompare (pad w m) (pad w n) = (m ?= n).
Proof.
  revert m n; induction w as [|w IH]; intros m n Hm Hn.
  { simpl in *. replace m with n by lia. by rewrite Z.compare_refl. }
  rewrite Nat2Z.inj_succ, Z.pow_succ_r in Hm, Hn by lia.
  simpl pad. rewrite bcompare_app by (by rewrite !length_pad).
  rewrite IH, digit_compare by (split; [euclid|euclid]).
  rewrite (Z.div_mod m 10), (Z.div_mod n 10) at 3 by lia.
  rewrite <-(radix_compare 10) by euclid. f_equal; lia.
Qed.

Lemma civil_compare d1 d2 :
  lexc (c_year (civil_of_days d1) ?= c_year (civil_of_days d2))
    (lexc (c_month (civil_of_days d1) ?= c_month (civil_of_days d2))
      (c_day (civil_of_days d1) ?= c_day (civil_of_days d2)))
  = (d1 ?= d2).
Proof.
  destruct (civil_of_days_range d1) as [Hm1 Hd1], (civil_of_days_range d2) as [Hm2 Hd2].
  assert (Hk : (civil_key (civil_of_days d1) ?= civil_key (civil_of_days d2)) = (d1 ?= d2)).
  { destruct (Z.compare_spec d1 d2) as [->|Hlt|Hlt].
    - apply Z.compare_refl.
    - apply Z.compare_lt_iff. by apply civil_key_mono.
    - apply Z.compare_gt_iff. by apply civil_key_mono. }
  rewrite <-Hk. unfold civil_key.
  destruct (civil_of_days d1) as [y1 m1 e1], (civil_of_days d2) as [y2 m2 e2]; simpl in *.
  rewrite <-!Z.add_assoc, (radix_compare 372) by lia.
  rewrite (radix_compare 31) by lia. f_equal. f_equal.
  - destruct (Z.compare_spec m1 m2), (Z.compare_spec (m1 - 1) (m2 - 1)); done || (exfalso; lia).
  - destruct (Z.compare_spec e1 e2), (Z.compare_spec (e1 - 1) (e2 - 1)); done || (exfalso; lia).
Qed.

(** Instants from the last change of the Shanghai offset to the end of the
    year 9999, Shanghai time. *)
Definition storable (t : Time) : Prop :=
  cst_since ≤ t < 3652059 * day_ns - 28800 * Second.

#[export] Instance storable_dec t : Decision (storable t).
Proof. unfold storable. apply _. Defined.

Lemma civil_year_range days :
  0 ≤ days < 3652059 → 0 ≤ c_year (civil_of_days days) < 10000.
Proof.
  intros [H0 H1].
  assert (civil_key (civil_of_days 0) ≤ civil_key (civil_of_days days)).
  { destruct (Z.eq_dec 0 days) as [<-|]; [lia|].
    pose proof (civil_key_mono 0 days ltac:(lia)). lia. }
  pose proof (civil_key_mono days 3652059 H1) as H2.
  assert (civil_key (civil_of_days 0) = 372) as E0 by reflexivity.
  assert (civil_key (civil_of_days 3652059) = 3720000) as E1 by reflexivity.
  destruct (civil_of_days_range days) as [Hm Hd]. unfold civil_key in *. lia.
Qed.

Lemma local_split l :
  l = local_days l * day_ns + (local_hour l * Hour + (local_min l * Minute
    + (local_sec l * Second + local_nsec l))).
Proof.
  unfold local_days, local_hour, local_min, local_sec, local_nsec, day_ns, Hour, Minute, Second.
  euclid.
Qed.

Lemma local_ranges l :
  0 ≤ local_hour l < 24 ∧ 0 ≤ local_min l < 60 ∧ 0 ≤ local_sec l < 60 ∧
  0 ≤ local_nsec l < Second.
Proof.
  unfold local_hour, local_min, local_sec, local_nsec, day_ns, Hour, Minute, Second. euclid.
Qed.

Lemma local_compare l1 l2 :
  lexc (local_days l1 ?= local_days l2)
    (lexc (local_hour l1 ?= local_hour l2)
      (lexc (local_min l1 ?= local_min l2)
        (lexc (local_sec l1 ?= local_sec l2) (local_nsec l1 ?= local_nsec l2))))
  = (l1 ?= l2).
Proof.
  pose proof (local_split l1) as E1. pose proof (local_split l2) as E2.
  destruct (local_ranges l1) as (? & ? & ? & ?), (local_ranges l2) as (? & ? & ? & ?).
  generalize dependent (local_days l1). generalize dependent (local_days l2).
  generalize dependent (local_hour l1). generalize dependent (local_hour l2).
  generalize dependent (local_min l1). generalize dependent (local_min l2).
  generalize dependent (local_sec l1). generalize dependent (local_sec l2).
  generalize dependent (local_nsec l1). generalize dependent (local_nsec l2).
  intros. subst l1 l2. unfold day_ns, Hour, Minute, Second in *.
  rewrite radix_compare by lia. rewrite radix_compare by lia.
  rewrite radix_compare by lia. rewrite radix_compare by lia. done.
Qed.

Section order.
Context `{TzShanghai}.

Lemma Location_cst t : cst_since ≤ t → Location t = 28800.
Proof.
  intros. unfold Location. destruct tz_shanghai eqn:E; [|done].
  by apply (tz_cst z E).
Qed.

Lemma storable_days t : storable t → 0 ≤ local_days (In_ t) < 3652059.
Proof.
  intros [Hlo Hhi]. unfold In_. rewrite Location_cst by done.
  unfold local_days, cst_since, day_ns, Second in *. euclid.
Qed.

Lemma storable_not_zero t : storable t → IsZero t = false.
Proof.
  intros [Hlo _]. unfold IsZero, cst_since, Second in *. apply Z.eqb_neq. lia.
Qed.

Lemma fmt_date_year t : storable t →
  fmt_year (c_year (civil_of_days (local_days (In_ t)))) =
  pad 4 (c_year (civil_of_days (local_days (In_ t)))).
Proof.
  intros Hs. unfold fmt_year.
  pose proof (civil_year_range _ (storable_days t Hs)) as [Hy1 Hy2].
  apply Z.leb_le in Hy1. apply Z.ltb_lt in Hy2. by rewrite Hy1, Hy2.
Qed.

Lemma length_fmt_date t : storable t → length (fmt_date (In_ t)) = 10%nat.
Proof.
  intros Hs. unfold fmt_date. rewrite fmt_date_year by done.
  by rewrite !length_app, !length_pad.
Qed.

Lemma length_fmt_clock l : length (fmt_clock l) = 8%nat.
Proof. unfold fmt_clock. by rewrite !length_app, !length_pad. Qed.

Lemma fmt_date_compare t u : storable t → storable u →
  bcompare (fmt_date (In_ t)) (fmt_date (In_ u)) =
  (local_days (In_ t) ?= local_days (In_ u)).
Proof.
  intros Ht Hu. rewrite <-civil_compare. unfold fmt_date.
  rewrite !fmt_date_year by done.
  pose proof (civil_year_range _ (storable_days t Ht)).
  pose proof (civil_year_range _ (storable_days u Hu)).
  destruct (civil_of_days_range (local_days (In_ t))) as [? ?].
  destruct (civil_of_days_range (local_days (In_ u))) as [? ?].
  repeat (rewrite bcompare_app by (by rewrite ?length_pad)).
  by rewrite !pad_compare, !bcompare_refl by lia.
Qed.

Lemma fmt_clock_compare l m :
  bcompare (fmt_clock l) (fmt_clock m) =
  lexc (local_hour l ?= local_hour m)
    (lexc (local_min l ?= local_min m) (local_sec l ?= local_sec m)).
Proof.
  destruct (local_ranges l) as (? & ? & ? & ?), (local_ranges m) as (? & ? & ? & ?).
  unfold fmt_clock.
  repeat (rewrite bcompare_app by (by rewrite ?length_pad)).
  by rewrite !pad_compare, !bcompare_refl by lia.
Qed.

(** The text comparison that SQL does on two stored times is the comparison
    of the instants. *)
Lemma fmtTime_compare t u :
  storable t → storable u → String.compare (fmtTime t) (fmtTime u) = (t ?= u).
Proof.
  intros Ht Hu. unfold fmtTime. rewrite !storable_not_zero by done.
  rewrite compare_implode.
  rewrite bcompare_app by (by rewrite !length_fmt_date).
  rewrite bcompare_app by done.
  rewrite bcompare_app by (by rewrite !length_fmt_clock).
  rewrite bcompare_app by done. rewrite bcompare_app by (by rewrite !length_pad).
  rewrite !bcompare_refl, fmt_date_compare, fmt_clock_compare by done.
  rewrite !Location_cst by (apply Ht || apply Hu). rewrite bcompare_refl.
  rewrite pad_compare by
    (pose proof (local_ranges (In_ t)); pose proof (local_ranges (In_ u));
     unfold Second in *; lia).
  simpl lexc at 2. rewrite !lexc_assoc. simpl.
  assert (∀ c, lexc c Eq = c) as Hc by (by intros []). rewrite Hc.
  rewrite local_compare. unfold In_. rewrite !Location_cst by (apply Ht || apply Hu).
  destruct (Z.compare_spec t u),
    (Z.compare_spec (t + 28800 * Second) (u + 28800 * Second)); done || (exfalso; lia).
Qed.

Lemma fmtTime_ltb t u : storable t → storable u → String.ltb (fmtTime t) (fmtTime u) = (t <? u).
Proof. intros. unfold String.ltb, Z.ltb. by rewrite fmtTime_compare. Qed.

Lemma fmtTime_leb t u : storable t → storable u → String.leb (fmtTime t) (fmtTime u) = (t <=? u).
Proof. intros. unfold String.leb, Z.leb. by rewrite fmtTime_compare. Qed.

Lemma fmtTime_inj t u : storable t → storable u → fmtTime t = fmtTime u → t = u.
Proof.
  intros Ht Hu Heq. apply Z.compare_eq. rewrite <-fmtTime_compare by done.
  rewrite Heq. apply string_compare_refl.
Qed.
End order.

(** ** Parsing RFC 3339 *)

Definition digit_val (c : ascii) : option Z :=
  let v := byte_val c in
  if (48 <=? v) && (v <=? 57) then Some (v - 48) else None.

Fixpoint parse_uint (acc : Z) (l : bytes) : option Z :=
  match l with
  | [] => Some acc
  | c :: l =>
      match digit_val c with Some d => parse_uint (acc * 10 + d) l | None => None end
  end.

Definition parse_range (l : bytes) (lo hi : Z) : option Z :=
  match parse_uint 0 l with
  | Some n => if (lo <=? n) && (n <=? hi) then Some n else None
  | None => None
  end.

Fixpoint span_digits (l : bytes) : bytes * bytes :=
  match l with
  | [] => ([], [])
  | c :: r =>
      match digit_val c with
      | Some _ => let '(a, b) := span_digits r in (c :: a, b)
      | None => ([], l)
      end
  end.

(** A fraction of at most nine digits, in nanoseconds. *)
Definition parse_nsec (ds : bytes) : option Z :=
  let ds := take 9 ds in
  match parse_uint 0 ds with
  | Some n => Some (n * 10 ^ (9 - Z.of_nat (length ds)))
  | None => None
  end.

Definition parse_frac (l : bytes) : option (Z * bytes) :=
  match l with
  | c :: r =>
      if Ascii.eqb c "." then
        match span_digits r with
        | ([], _) => Some (0, l)
        | (ds, rest) =>
            match parse_nsec ds with Some n => Some (n, rest) | None => None end
        end
      else Some (0, l)
  | [] => Some (0, l)
  end.

Definition parse_zone (l : bytes) : option Z :=
  match l with
  | [z] => if Ascii.eqb z "Z" then Some 0 else None
  | [sg; h1; h2; c; m1; m2] =>
      match parse_range [h1; h2] 0 23, parse_range [m1; m2] 0 59 with
      | Some h, Some m =>
          if Ascii.eqb c ":" then
            if Ascii.eqb sg "+" then Some ((h * 60 + m) * 60)
            else if Ascii.eqb sg "-" then Some (- ((h * 60 + m) * 60))
            else None
          else None
      | _, _ => None
      end
  | _ => None
  end.

(** The strict RFC 3339 reader [parseRFC3339] of the package [time]. *)
Definition parse_strict (l : bytes) : option Time :=
  match l with
  | y1 :: y2 :: y3 :: y4 :: s1 :: m1 :: m2 :: s2 :: d1 :: d2 :: s3
      :: h1 :: h2 :: s4 :: n1 :: n2 :: s5 :: e1 :: e2 :: rest =>
      match parse_range [y1; y2; y3; y4] 0 9999, parse_range [m1; m2] 1 12 with
      | Some y, Some m =>
          match parse_range [d1; d2] 1 (days_in m y), parse_range [h1; h2] 0 23,
                parse_range [n1; n2] 0 59, parse_range [e1; e2] 0 59, parse_frac rest with
          | Some d, Some h, Some mi, Some s, Some (ns, zone) =>
              if Ascii.eqb s1 "-" && Ascii.eqb s2 "-" && Ascii.eqb s3 "T"
                 && Ascii.eqb s4 ":" && Ascii.eqb s5 ":" then
                match parse_zone zone with
                | Some off =>
                    Some (days_of_civil (Civil y m d) * day_ns
                          + (h * Hour + (mi * Minute + (s * Second + ns))) - off * Second)
                | None => None
                end
              else None
          | _, _, _, _, _ => None
          end
      | _, _ => None
      end
  | _ => None
  end.

(** The layout-driven reader that [time.Parse] falls back to on text the
    strict reader refuses (one-digit hours, a comma before the fraction). *)
Class LenientParse := parse_lenient : string → option Time.

(** [time.Parse(time.RFC3339, s)] *)
Definition ParseRFC3339 `{LenientParse} (s : string) : option Time :=
  match parse_strict (explode s) with
  | Some t => Some t
  | None => parse_lenient s
  end.

(** [parseTime] of [internal/db] *)
Definition parseTime `{LenientParse} (s : string) : Time :=
  if (s =? "")%string then zero_time
  else match ParseRFC3339 s with Some t => t | None => zero_time end.

Lemma digit_val_digit n : 0 ≤ n < 10 → digit_val (digit n) = Some n.
Proof.
  intros Hn. unfold digit_val, digit, byte_val, byte_of.
  rewrite N_ascii_embedding by lia. rewrite Z2N.id by lia.
  rewrite !(proj2 (Z.leb_le _ _)) by lia. simpl. f_equal. lia.
Qed.

Lemma parse_uint_app acc a b :
  parse_uint acc (a ++ b) =
  match parse_uint acc a with Some n => parse_uint n b | None => None end.
Proof.
  revert acc; induction a as [|c a IH]; intros acc; simpl; [done|].
  by destruct (digit_val c).
Qed.

Lemma parse_uint_pad w n :
  0 ≤ n < 10 ^ Z.of_nat w → parse_uint 0 (pad w n) = Some n.
Proof.
  revert n; induction w as [|w IH]; intros n Hn.
  { simpl in *. f_equal. lia. }
  rewrite Nat2Z.inj_succ, Z.pow_succ_r in Hn by lia.
  simpl pad. rewrite parse_uint_app, IH by euclid. simpl.
  rewrite digit_val_digit by euclid. f_equal. euclid.
Qed.

Lemma parse_range_pad w n lo hi :
  0 ≤ n < 10 ^ Z.of_nat w → lo ≤ n ≤ hi → parse_range (pad w n) lo hi = Some n.
Proof.
  intros Hn Hr. unfold parse_range. rewrite parse_uint_pad by done.
  by rewrite !(proj2 (Z.leb_le _ _)) by lia.
Qed.

Lemma span_digits_pad w n c l :
  0 ≤ n < 10 ^ Z.of_nat w → digit_val c = None →
  span_digits (pad w n ++ c :: l) = (pad w n, c :: l).
Proof.
  intros Hn Hc.
  assert (Hall : Forall (λ d, is_Some (digit_val d)) (pad w n)).
  { revert n Hn; induction w as [|w IH]; intros n Hn; simpl; [constructor|].
    rewrite Nat2Z.inj_succ, Z.pow_succ_r in Hn by lia.
    apply Forall_app; split; [apply IH; euclid|].
    repeat constructor. rewrite digit_val_digit by euclid. eauto. }
  induction Hall as [|d ds [v Hd] Hall IH]; simpl; [by rewrite Hc|].
  by rewrite Hd, IH.
Qed.

Lemma parse_frac_pad n c l :
  0 ≤ n < Second → digit_val c = None →
  parse_frac (explode "." ++ pad 9 n ++ c :: l) = Some (n, c :: l).
Proof.
  intros Hn Hc.
  change (match span_digits (pad 9 n ++ c :: l) with
    | ([], _) => Some (0, explode "." ++ pad 9 n ++ c :: l)
    | (ds, rest) => match parse_nsec ds with Some k => Some (k, rest) | None => None end
    end = Some (n, c :: l)).
  rewrite span_digits_pad by (done || (unfold Second in Hn; lia)).
  assert (Hne : pad 9 n ≠ []).
  { intros Hp. by apply (f_equal length) in Hp; rewrite length_pad in Hp. }
  unfold parse_nsec. rewrite take_ge by (by rewrite length_pad).
  rewrite parse_uint_pad by (unfold Second in Hn; lia). rewrite length_pad.
  destruct (pad 9 n); [done|]. do 2 f_equal. lia.
Qed.

Section roundtrip.
Context `{TzShanghai} `{LenientParse}.

Lemma parse_strict_fmt t ns frac :
  storable t →
  parse_frac (frac ++ fmt_zone (Location t)) = Some (ns, fmt_zone (Location t)) →
  parse_strict (fmt_date (In_ t) ++ explode "T" ++ fmt_clock (In_ t) ++ frac
    ++ fmt_zone (Location t)) = Some (t - local_nsec (In_ t) + ns).
Proof.
  intros Hs Hfrac.
  pose proof (civil_year_range _ (storable_days t Hs)) as Hy.
  destruct (civil_of_days_range (local_days (In_ t))) as [Hm Hd].
  pose proof (civil_of_days_valid (local_days (In_ t))) as Hv. cbn zeta in Hv.
  pose proof (days_of_civil_of_days (local_days (In_ t))) as Hdays.
  destruct (local_ranges (In_ t)) as (Hh & Hmi & Hse & Hns).
  pose proof (local_split (In_ t)) as Hsplit.
  unfold fmt_date, fmt_clock. rewrite fmt_date_year by done.
  destruct (civil_of_days _) as [y m d]; simpl in Hy, Hm, Hd, Hv, Hdays |- *.
  unfold parse_strict.
  repeat match goal with |- context [parse_range (?a :: ?l) ?lo ?hi] =>
    first [ change (a :: l) with (pad 4 y) | change (a :: l) with (pad 2 m)
          | change (a :: l) with (pad 2 d) | change (a :: l) with (pad 2 (local_hour (In_ t)))
          | change (a :: l) with (pad 2 (local_min (In_ t)))
          | change (a :: l) with (pad 2 (local_sec (In_ t))) ];
    rewrite parse_range_pad by lia
  end.
  rewrite Hfrac. simpl andb. cbn iota.
  assert (parse_zone (fmt_zone (Location t)) = Some 28800) as ->.
  { rewrite Location_cst by apply Hs. reflexivity. }
  f_equal. rewrite Hdays. unfold In_ in Hsplit at 1.
  rewrite Location_cst in Hsplit by apply Hs. lia.
Qed.

(** Reading back a stored time gives the instant, to the nanosecond. *)
Lemma parseTime_fmtTime t : storable t → parseTime (fmtTime t) = t.
Proof.
  intros Hs. unfold parseTime, fmtTime. rewrite storable_not_zero by done.
  destruct (implode _ =? "")%string eqn:E.
  { apply String.eqb_eq in E. apply (f_equal (length ∘ explode)) in E. simpl in E.
    rewrite explode_implode, length_app, length_fmt_date in E by done. simpl in E. lia. }
  unfold ParseRFC3339. rewrite explode_implode.
  pose proof (local_ranges (In_ t)) as (_ & _ & _ & Hns).
  rewrite (app_assoc (explode ".")).
  rewrite (parse_strict_fmt t (local_nsec (In_ t))); [lia|done|].
  rewrite <-app_assoc. rewrite Location_cst by apply Hs.
  by apply (parse_frac_pad (local_nsec (In_ t)) "+").
Qed.

(** The API format keeps the second. *)
Lemma ParseRFC3339_Format t :
  storable t → ParseRFC3339 (FormatRFC3339 t) = Some (t - local_nsec (In_ t)).
Proof.
  intros Hs. unfold ParseRFC3339, FormatRFC3339. rewrite storable_not_zero by done.
  rewrite explode_implode.
  rewrite <-(app_nil_l (fmt_zone _)).
  rewrite (parse_strict_fmt t 0 []); [f_equal; lia|done|].
  rewrite Location_cst by apply Hs. reflexivity.
Qed.
End roundtrip.

(** The zone database is absent: [timex.Location] falls back to CST+8. *)
Definition no_tzdata : TzData := None.
Lemma no_tzdata_cst : @TzShanghai no_tzdata.
Proof. by intros f Hf. Qed.
Definition strict_only : LenientParse := λ _, None.
