(* ===== verification/Model.v ===== *)
(** * The data model: [internal/model/node.go]

    The structs of the program as records, one module per struct so that the
    fields keep their Go names, and the methods of [Node] and [DialResult].
    A pointer to a struct is an [option]; a nil map is the empty map except
    where the code tests it ([AIAccess]).  The digests of [crypto] are the
    parameter [Crypto]. *)
From S2P Require Import Prelude GoStr GoFloat GoTime.

(** Protocol names *)
Abbreviation Protocol := string.
Definition ProtoVMess : Protocol := "vmess".
Definition ProtoVLESS : Protocol := "vless".
Definition ProtoTrojan : Protocol := "trojan".
Definition ProtoSS : Protocol := "ss".
Definition ProtoSSR : Protocol := "ssr".
Definition ProtoHysteria2 : Protocol := "hysteria2".
Definition ProtoTUIC : Protocol := "tuic".
Definition ProtoUnknown : Protocol := "unknown".

(** Values of [map[string]any], as [encoding/json] reads them. *)
Inductive json :=
  | JNull
  | JBool (b : bool)
  | JNum (x : float64)
  | JStr (s : string)
  | JArr (l : list json)
  | JObj (m : list (string * json)).

(** [fmt.Sprint] of a value of a JSON object, nil included *)
Class FmtAny := fmt_any : option json → string.

Module Quality.
Record t := mk {
  ScoreVersion : string;
  Rounds : Z;
  SuccessRate : float64;
  AvgLatencyMS : Z;
  MinLatencyMS : Z;
  MaxLatencyMS : Z;
  JitterMS : Z;
  TLSOK : bool;
  TLSMS : Z;
  EdgeScore : float64;
  HTTPMS : Z;
  ThroughputBPS : Z;
  Stability7D : float64;
  Breakdown : gmap string float64;
  Score : float64;
  Notes : list string;
}.
#[export] Instance eta : Eta t := λ q, mk (ScoreVersion q) (Rounds q) (SuccessRate q)
  (AvgLatencyMS q) (MinLatencyMS q) (MaxLatencyMS q) (JitterMS q) (TLSOK q) (TLSMS q)
  (EdgeScore q) (HTTPMS q) (ThroughputBPS q) (Stability7D q) (Breakdown q) (Score q) (Notes q).
(** The zero value. *)
Definition zero : t :=
  mk "" 0 f_zero 0 0 0 0 false 0 f_zero 0 0 f_zero ∅ f_zero [].
End Quality.
Export (hints) Quality.

Module AIProbeResult.
Record t := mk {
  Target : string;
  URL : string;
  OK : bool;
  StatusCode : Z;
  LatencyMS : Z;
  Error : string;
  Mode : string;
}.
#[export] Instance eta : Eta t := λ r, mk (Target r) (URL r) (OK r) (StatusCode r)
  (LatencyMS r) (Error r) (Mode r).
End AIProbeResult.
Export (hints) AIProbeResult.

Module DialResult.
Inductive t := mk {
  OK : bool;
  LatencyMS : Z;
  StatusCode : Z;
  Target : string;
  Engine : string;
  HTTPMS : Z;
  DownloadBytes : Z;
  ThroughputBPS : Z;
  Error : string;
  TestedAt : Time;
  Checks : list (option t);
}.
#[export] Instance eta : Eta t := λ r, mk (OK r) (LatencyMS r) (StatusCode r) (Target r)
  (Engine r) (HTTPMS r) (DownloadBytes r) (ThroughputBPS r) (Error r) (TestedAt r) (Checks r).
Definition zero : t := mk false 0 0 "" "" 0 0 0 "" zero_time [].
End DialResult.
Export (hints) DialResult.

Module PurityResult.
Record t := mk {
  OK : bool;
  ExitIP : string;
  Country : string;
  ISP : string;
  AS : string;
  IsProxy : bool;
  IsHosting : bool;
  IsMobile : bool;
  RiskScore : Z;
  CleanScore : Z;
  Grade : string;
  CFTraceOK : bool;
  CFChallenge : string;
  CFHumanLikely : bool;
  Notes : list string;
  Error : string;
  LatencyMS : Z;
  TestedAt : Time;
}.
#[export] Instance eta : Eta t := λ r, mk (OK r) (ExitIP r) (Country r) (ISP r) (AS r)
  (IsProxy r) (IsHosting r) (IsMobile r) (RiskScore r) (CleanScore r) (Grade r) (CFTraceOK r)
  (CFChallenge r) (CFHumanLikely r) (Notes r) (Error r) (LatencyMS r) (TestedAt r).
Definition zero : t :=
  mk false "" "" "" "" false false false 0 0 "" false "" false [] "" 0 zero_time.
End PurityResult.
Export (hints) PurityResult.

Module Node.
Record t := mk {
  ID : string;
  Protocol : string;
  Name : string;
  Server : string;
  Port : Z;
  UUID : string;
  Password : string;
  Method : string;
  Network : string;
  TLS : bool;
  SNI : string;
  Path : string;
  Host : string;
  Flow : string;
  Security : string;
  ALPN : string;
  Extra : gmap string string;
  RawURI : string;
  Source : string;
  Sources : list string;
  Alive : bool;
  Latency : Duration;
  Error : string;
  TestedAt : Time;
  FirstSeenAt : Time;
  LastSeenAt : Time;
  QualityFailures : Z;
  SuccessStreak : Z;
  NextTestAt : Time;
  Quality : option Quality.t;
  AIAccess : option (gmap string (option AIProbeResult.t));
  Dial : option DialResult.t;
  Verified : bool;
  Purity : option PurityResult.t;
  Score : float64;
  Grade : string;
  Fingerprint : string;
  Country : string;
  City : string;
  ISP : string;
  ASN : string;
  EntryType : string;
  Tags : list string;
}.
#[export] Instance eta : Eta t := λ n, mk (ID n) (Protocol n) (Name n) (Server n) (Port n)
  (UUID n) (Password n) (Method n) (Network n) (TLS n) (SNI n) (Path n) (Host n) (Flow n)
  (Security n) (ALPN n) (Extra n) (RawURI n) (Source n) (Sources n) (Alive n) (Latency n)
  (Error n) (TestedAt n) (FirstSeenAt n) (LastSeenAt n) (QualityFailures n) (SuccessStreak n)
  (NextTestAt n) (Quality n) (AIAccess n) (Dial n) (Verified n) (Purity n) (Score n) (Grade n)
  (Fingerprint n) (Country n) (City n) (ISP n) (ASN n) (EntryType n) (Tags n).
Definition zero : t :=
  mk "" "" "" "" 0 "" "" "" "" false "" "" "" "" "" "" ∅ "" "" [] false 0 ""
     zero_time zero_time zero_time 0 0 zero_time None None None false None
     f_zero "" "" "" "" "" "" "" [].
End Node.
Export (hints) Node.

Abbreviation node := Node.t.

Module Job.
Record t := mk {
  ID : string;
  Type_ : string;
  Status : string;
  Progress : float64;
  Message : string;
  Error : string;
  Stats : option (gmap string json);
  CreatedAt : Time;
  UpdatedAt : Time;
  StartedAt : option Time;
  EndedAt : option Time;
  Options : option (gmap string json);
  Actor : string;
  TenantID : string;
}.
#[export] Instance eta : Eta t := λ j, mk (ID j) (Type_ j) (Status j) (Progress j) (Message j)
  (Error j) (Stats j) (CreatedAt j) (UpdatedAt j) (StartedAt j) (EndedAt j) (Options j)
  (Actor j) (TenantID j).
End Job.
Export (hints) Job.

Definition JobPending : string := "pending".
Definition JobRunning : string := "running".
Definition JobCompleted : string := "completed".
Definition JobFailed : string := "failed".
Definition JobCanceled : string := "canceled".

(** ** Digests *)

(** The digest functions of the Go library, from bytes to bytes. *)
Class Crypto := {
  sha256_sum : string → string;
  sha1_sum : string → string;
  hmac_sha256 : string → string → string;   (* key, message *)
}.

Definition hex_digit (n : Z) : ascii := byte_of (if n <? 10 then 48 + n else 87 + n).

(** [hex.EncodeToString] and the verb [%x] *)
Fixpoint hex_bytes (l : bytes) : bytes :=
  match l with
  | [] => []
  | c :: l => hex_digit (byte_val c / 16) :: hex_digit (byte_val c mod 16) :: hex_bytes l
  end.
Definition hex_encode (s : string) : string := implode (hex_bytes (explode s)).

Lemma byte_val_range c : 0 ≤ byte_val c < 256.
Proof. unfold byte_val. pose proof (N_ascii_bounded c). lia. Qed.

Lemma byte_val_inj c d : byte_val c = byte_val d → c = d.
Proof.
  unfold byte_val. intros Heq%N2Z.inj.
  by rewrite <-(ascii_N_embedding c), Heq, ascii_N_embedding.
Qed.

Lemma hex_digit_inj m n : 0 ≤ m < 16 → 0 ≤ n < 16 → hex_digit m = hex_digit n → m = n.
Proof.
  intros Hm Hn Heq%(f_equal byte_val). unfold hex_digit, byte_of, byte_val in Heq.
  rewrite !N_ascii_embedding in Heq by (repeat case_if; lia).
  repeat case_if_in Heq; bsplit; lia.
Qed.

Lemma hex_bytes_inj a b : hex_bytes a = hex_bytes b → a = b.
Proof.
  revert b; induction a as [|c a IH]; intros [|d b]; simpl; try done.
  intros Heq. injection Heq as H1 H2 H3.
  pose proof (byte_val_range c). pose proof (byte_val_range d).
  apply hex_digit_inj in H1; [|euclid|euclid]. apply hex_digit_inj in H2; [|euclid|euclid].
  f_equal; [|by apply IH]. apply byte_val_inj.
  rewrite (Z.div_mod (byte_val c) 16), (Z.div_mod (byte_val d) 16) by lia. congruence.
Qed.

Lemma hex_encode_inj s t : hex_encode s = hex_encode t → s = t.
Proof.
  unfold hex_encode. intros Heq%(f_equal explode). rewrite !explode_implode in Heq.
  by apply explode_inj, hex_bytes_inj.
Qed.

(** ** Grades *)

(** [AssignGrade] *)
Definition AssignGrade (score : float64) : string :=
  if f_le (f_of_Z 90) score then "S"
  else if f_le (f_of_Z 80) score then "A"
  else if f_le (f_of_Z 65) score then "B"
  else if f_le (f_of_Z 50) score then "C"
  else if f_le (f_of_Z 35) score then "D"
  else "F".

(** The grades from worst to best. *)
Definition grade_rank (g : string) : Z :=
  if (g =? "S")%string then 5 else if (g =? "A")%string then 4
  else if (g =? "B")%string then 3 else if (g =? "C")%string then 2
  else if (g =? "D")%string then 1 else 0.

(** ** Methods *)

Section methods.
Context `{Unicode}.

(** [DialResult.HasEngine] *)
Definition found_engines (checks : list (option DialResult.t)) : gset string :=
  list_to_set (omap (λ c, match c with
    | Some check => Some (ToLower (DialResult.Engine check))
    | None => None end) checks).

Definition HasEngine (r : option DialResult.t) (engine : string) : bool :=
  match r with
  | None => false
  | Some r =>
      let engine := ToLower (TrimSpace engine) in
      if (engine =? "")%string || (engine =? "auto")%string then true
      else if negb (engine =? "both")%string && EqualFold (DialResult.Engine r) engine then true
      else
        let found := found_engines (DialResult.Checks r) in
        if (engine =? "both")%string
        then bool_decide ("sing-box" ∈ found) && bool_decide ("mihomo" ∈ found)
        else bool_decide (engine ∈ found)
  end.

Fixpoint first_check (engine : string) (checks : list (option DialResult.t)) : bool :=
  match checks with
  | [] => false
  | Some check :: checks =>
      if EqualFold (DialResult.Engine check) engine then DialResult.OK check
      else first_check engine checks
  | None :: checks => first_check engine checks
  end.

(** [DialResult.PassedEngine] *)
Definition PassedEngine (r : option DialResult.t) (engine : string) : bool :=
  match r with
  | None => false
  | Some d =>
      let engine := ToLower (TrimSpace engine) in
      if (engine =? "")%string || (engine =? "auto")%string then DialResult.OK d
      else if (engine =? "both")%string then DialResult.OK d && HasEngine r "both"
      else if EqualFold (DialResult.Engine d) engine then DialResult.OK d
      else first_check engine (DialResult.Checks d)
  end.

(** [Node.Address] *)
Definition Address (n : node) : string := Node.Server n +:+ ":" +:+ Itoa (Node.Port n).

(** [Node.IsValid] *)
Definition IsValid (n : node) : bool :=
  if (Node.Protocol n =? "")%string || (Node.Protocol n =? ProtoUnknown)%string then false
  else if (TrimSpace (Node.Server n) =? "")%string || (Node.Port n <=? 0)
          || (65535 <? Node.Port n) then false
  else true.

(** [Node.SkipTLSVerify] *)
Definition extra_get (n : node) (k : string) : string := default "" (Node.Extra n !! k).
Definition tls_off (v : string) : bool :=
  let v := ToLower (TrimSpace v) in
  (v =? "1")%string || (v =? "true")%string || (v =? "yes")%string || (v =? "on")%string.
Definition SkipTLSVerify (n : node) : bool :=
  existsb (λ key, tls_off (extra_get n key)) ["insecure"; "allowInsecure"; "skip-cert-verify"].

(** [canonicalExtra]: the entries with a value, in the order of their keys *)
Definition live_extra (extra : gmap string string) : list (string * string) :=
  stable_sort (λ a b, String.ltb a.1 b.1)
    (List.filter (λ kv, negb (kv.2 =? "")%string) (map_to_list extra)).
Definition NUL : ascii := byte_of 0.
Fixpoint render_extra (l : list (string * string)) : string :=
  match l with
  | [] => ""
  | (k, v) :: l => k +:+ String NUL (v +:+ String NUL (render_extra l))
  end.
Definition canonicalExtra (extra : gmap string string) : string := render_extra (live_extra extra).

(** [Node.Key]: the digest of the identity of a node *)
Definition key_parts (n : node) : list string :=
  [ToLower (Node.Protocol n); ToLower (Node.Server n); Itoa (Node.Port n);
   ToLower (Node.UUID n); Node.Password n; ToLower (Node.Method n);
   ToLower (Node.Network n); fmt_bool (Node.TLS n); ToLower (Node.SNI n);
   Node.Path n; ToLower (Node.Host n); ToLower (Node.Flow n);
   ToLower (Node.Security n); Node.ALPN n].
Definition canonical (n : node) : string :=
  Join (key_parts n ++ [canonicalExtra (Node.Extra n)]) (String NUL "").
Definition Key `{Crypto} (n : node) : string := hex_encode (sha256_sum (canonical n)).
End methods.

(** [Node.LatencyMS] *)
Definition LatencyMS (n : node) : Z :=
  if Node.Latency n <=? 0 then 0 else Milliseconds (Node.Latency n).

(** The latency field of [MarshalJSON] and [UnmarshalJSON]: milliseconds, with
    the reader's guess that a value of 1000 s or more is an old snapshot in
    nanoseconds. *)
Definition marshal_latency (n : node) : Z := LatencyMS n.
Definition unmarshal_latency (latency : Duration) (ms : option Z) : Duration :=
  match ms with
  | Some v =>
      if latency =? 0 then
        if Milliseconds (1000 * Second) <=? v then v else wrap64 (v * Millisecond)
      else latency
  | None => latency
  end.

(** [DefaultAITargets] *)
Module AITarget.
Record t := mk { Key : string; Name : string; URL : string; Host : string }.
End AITarget.
Definition DefaultAITargets : list AITarget.t :=
  [AITarget.mk "chatgpt" "ChatGPT" "https://chatgpt.com" "chatgpt.com";
   AITarget.mk "openai" "OpenAI API" "https://api.openai.com/v1/models" "api.openai.com";
   AITarget.mk "gemini" "Gemini" "https://gemini.google.com" "gemini.google.com";
   AITarget.mk "claude" "Claude" "https://claude.ai" "claude.ai";
   AITarget.mk "grok" "Grok" "https://grok.x.ai" "grok.x.ai";
   AITarget.mk "xai" "xAI" "https://x.ai" "x.ai";
   AITarget.mk "copilot" "Copilot" "https://copilot.microsoft.com" "copilot.microsoft.com";
   AITarget.mk "perplexity" "Perplexity" "https://www.perplexity.ai" "www.perplexity.ai"].

(** ** Laws *)

Lemma grade_F s : f_le (f_of_Z 35) s = false → AssignGrade s = "F".
Proof.
  intros H35. unfold AssignGrade.
  destruct (is_nan s) eqn:En.
  { by destruct s. }
  assert (Hm : ∀ k, f_lt (f_of_Z 35) (f_of_Z k) = true → is_nan (f_of_Z k) = false →
    f_le (f_of_Z k) s = false).
  { intros k Hk Hnk. destruct (f_le (f_of_Z k) s) eqn:E; [|done].
    assert (f_le (f_of_Z 35) s = true); [|congruence].
    eapply f_le_trans; [|exact E]. destruct (f_lt_not_nan _ _ Hk). f_order. }
  by rewrite !Hm, H35 by reflexivity.
Qed.

(** A better score never has a worse grade. *)
Lemma AssignGrade_mono s t :
  f_le s t = true → grade_rank (AssignGrade s) ≤ grade_rank (AssignGrade t).
Proof.
  intros Hle.
  assert (Hk : ∀ k, f_le (f_of_Z k) s = true → f_le (f_of_Z k) t = true).
  { intros k Hk. by eapply f_le_trans. }
  unfold AssignGrade.
  repeat match goal with
  | |- context [f_le (f_of_Z ?k) s] =>
      let E := fresh in destruct (f_le (f_of_Z k) s) eqn:E; [apply Hk in E; rewrite ?E|]
  end; repeat case_if; vm_compute; done.
Qed.

Lemma wrap64_ms v : 0 ≤ v < 1000000 → wrap64 (v * Millisecond) = v * Millisecond.
Proof. intros. apply wrap64_id. unfold int64_range, Millisecond. lia. Qed.

(** A latency below 1000 s survives a snapshot to the millisecond. *)
Lemma latency_roundtrip n :
  0 ≤ Node.Latency n < 1000 * Second →
  unmarshal_latency 0 (Some (marshal_latency n)) =
    Node.Latency n - Z.rem (Node.Latency n) Millisecond.
Proof.
  intros Hl. unfold unmarshal_latency, marshal_latency, LatencyMS. rewrite Z.eqb_refl.
  destruct (Z.leb_spec (Node.Latency n) 0) as [Hz|Hpos].
  { replace (Node.Latency n) with 0 by lia. reflexivity. }
  change (Milliseconds (1000 * Second)) with 1000000.
  assert (0 ≤ Milliseconds (Node.Latency n) < 1000000).
  { unfold Milliseconds, Second, Millisecond in *. euclid. }
  rewrite (proj2 (Z.leb_gt _ _)), wrap64_ms by lia.
  unfold Milliseconds, Millisecond. euclid.
Qed.

(** The identity that [Key] digests. *)
Definition identity `{Unicode} (n : node) : list string * list (string * string) :=
  (key_parts n, live_extra (Node.Extra n)).

Definition nul_free (s : string) : Prop := NUL ∉ explode s.

#[export] Instance nul_free_dec s : Decision (nul_free s).
Proof. unfold nul_free. apply _. Defined.

Definition text_node `{Unicode} (n : node) : Prop :=
  Forall nul_free (key_parts n) ∧
  Forall (λ kv, nul_free kv.1 ∧ nul_free kv.2) (live_extra (Node.Extra n)).

Lemma cut_unique (c : ascii) a b a' b' :
  c ∉ a → c ∉ a' → a ++ c :: b = a' ++ c :: b' → a = a' ∧ b = b'.
Proof.
  revert a'; induction a as [|x a IH]; intros [|x' a'] Ha Ha' Heq; simplify_eq/=; try set_solver.
  destruct (IH a') as [-> ->]; set_solver.
Qed.

Lemma nul_cut s t s' t' :
  nul_free s → nul_free s' → s +:+ String NUL t = s' +:+ String NUL t' → s = s' ∧ t = t'.
Proof.
  intros Hs Hs' Heq%(f_equal explode). rewrite !explode_app in Heq.
  apply cut_unique in Heq as [H1 H2]; [|done|done].
  split; by apply explode_inj.
Qed.

Lemma render_extra_inj l l' :
  Forall (λ kv, nul_free kv.1 ∧ nul_free kv.2) l →
  Forall (λ kv, nul_free kv.1 ∧ nul_free kv.2) l' →
  render_extra l = render_extra l' → l = l'.
Proof.
  intros Hl; revert l'; induction Hl as [|[k v] l [Hk Hv] Hl IH]; intros l' Hl' Heq.
  - destruct Hl' as [|[k' v'] l' _ _]; [done|]. simpl in Heq. by destruct k'.
  - destruct Hl' as [|[k' v'] l' [Hk' Hv'] Hl']; simpl in *; [by destruct k|].
    apply nul_cut in Heq as [-> Heq]; [|done|done].
    apply nul_cut in Heq as [-> Heq]; [|done|done]. f_equal. by apply IH.
Qed.

Lemma join_nul_inj ps e ps' e' :
  length ps = length ps' → Forall nul_free ps → Forall nul_free ps' →
  Join (ps ++ [e]) (String NUL "") = Join (ps' ++ [e']) (String NUL "") → ps = ps' ∧ e = e'.
Proof.
  intros Hlen Hps; revert ps' Hlen; induction Hps as [|p ps Hp Hps IH];
    intros [|p' ps'] Hlen Hps' Heq; try done.
  apply Forall_cons in Hps' as [Hp' Hps'].
  assert (∀ q qs f, Join ((q :: qs) ++ [f]) (String NUL "") =
    q +:+ String NUL (Join (qs ++ [f]) (String NUL ""))) as Hj.
  { intros q qs f. by destruct qs. }
  rewrite !Hj in Heq. apply nul_cut in Heq as [-> Heq]; [|done|done].
  destruct (IH ps') as [-> ->]; auto.
Qed.

(** The separators make the digested text faithful: two nodes digest the same
    text exactly when they have the same identity. *)
Lemma canonical_inj `{Unicode} n1 n2 :
  text_node n1 → text_node n2 → canonical n1 = canonical n2 ↔ identity n1 = identity n2.
Proof.
  intros [Hp1 He1] [Hp2 He2]. unfold identity, canonical. split.
  - intros Heq. apply join_nul_inj in Heq as [Hps Heq]; [|done|done|done].
    f_equal; [exact Hps|]. by apply render_extra_inj.
  - intros Heq. pose proof (f_equal fst Heq) as H1. pose proof (f_equal snd Heq) as H2.
    cbn [fst snd] in H1, H2. unfold canonicalExtra. by rewrite H1, H2.
Qed.
