(* ===== verification/Base64.v ===== *)
(** * base64url without padding

    [base64.RawURLEncoding] of the Go library on byte strings, with its round
    trip, and the facts on [strings.Split] and [strings.TrimSpace] that the
    session and token formats rest on.

    ** base64: [encoding/base64]

    The four encodings (either alphabet, with padding or without) as executable
    functions, with the round trip on which the link formats rest. *)
From S2P Require Import Prelude GoStr GoTime Model.

Definition b64_char (n : Z) : ascii :=
  byte_of (if n <? 26 then 65 + n else if n <? 52 then 71 + n else if n <? 62 then n - 4
           else if n =? 62 then 45 else 95).

Definition b64_val (c : ascii) : option Z :=
  let v := byte_val c in
  if (65 <=? v) && (v <=? 90) then Some (v - 65)
  else if (97 <=? v) && (v <=? 122) then Some (v - 71)
  else if (48 <=? v) && (v <=? 57) then Some (v + 4)
  else if v =? 45 then Some 62
  else if v =? 95 then Some 63
  else None.

(** [EncodeToString]: three bytes to four characters *)
Fixpoint b64_encode (l : bytes) : bytes :=
  match l with
  | a :: b :: c :: l =>
      let '(a, b, c) := (byte_val a, byte_val b, byte_val c) in
      b64_char (a / 4) :: b64_char (a mod 4 * 16 + b / 16) :: b64_char (b mod 16 * 4 + c / 64)
        :: b64_char (c mod 64) :: b64_encode l
  | [a; b] =>
      let '(a, b) := (byte_val a, byte_val b) in
      [b64_char (a / 4); b64_char (a mod 4 * 16 + b / 16); b64_char (b mod 16 * 4)]
  | [a] => let a := byte_val a in [b64_char (a / 4); b64_char (a mod 4 * 16)]
  | [] => []
  end.

(** [DecodeString]: line breaks are skipped, and the unused bits of the last
    character are not looked at. *)
Fixpoint b64_groups (l : bytes) : option bytes :=
  match l with
  | [] => Some []
  | [_] => None
  | [a; b] =>
      a ← b64_val a; b ← b64_val b; Some [byte_of (a * 4 + b / 16)]
  | [a; b; c] =>
      a ← b64_val a; b ← b64_val b; c ← b64_val c;
      Some [byte_of (a * 4 + b / 16); byte_of (b mod 16 * 16 + c / 4)]
  | a :: b :: c :: d :: l =>
      a ← b64_val a; b ← b64_val b; c ← b64_val c; d ← b64_val d; r ← b64_groups l;
      Some (byte_of (a * 4 + b / 16) :: byte_of (b mod 16 * 16 + c / 4)
              :: byte_of (c mod 4 * 64 + d) :: r)
  end.
Definition line_break (c : ascii) : bool := (byte_val c =? 10) || (byte_val c =? 13).
Definition b64_decode (l : bytes) : option bytes :=
  b64_groups (List.filter (λ c, negb (line_break c)) l).

(** [rawBase64] and [decodeRawBase64] of [internal/auth/session.go]: a value is
    accepted only in the form that encoding its bytes gives. *)
Definition rawBase64 (data : string) : string := implode (b64_encode (explode data)).
Definition decodeRawBase64 (value : string) : option string :=
  match b64_decode (explode value) with
  | Some d => if (rawBase64 (implode d) =? value)%string then Some (implode d) else None
  | None => None
  end.

Lemma byte_of_val c : byte_of (byte_val c) = c.
Proof. unfold byte_of, byte_val. by rewrite N2Z.id, ascii_N_embedding. Qed.

Lemma b64_val_char n : 0 ≤ n < 64 → b64_val (b64_char n) = Some n.
Proof.
  intros Hn.
  assert (Hall : forallb (λ k, bool_decide (b64_val (b64_char (Z.of_nat k)) = Some (Z.of_nat k)))
    (seq 0 64) = true) by (by vm_compute).
  rewrite forallb_forall in Hall. specialize (Hall (Z.to_nat n)).
  rewrite Z2Nat.id in Hall by lia. eapply bool_decide_eq_true, Hall, in_seq. lia.
Qed.

Lemma b64_char_plain n : 0 ≤ n < 64 →
  line_break (b64_char n) = false ∧ b64_char n ≠ "."%char ∧ 33 ≤ byte_val (b64_char n) < 127.
Proof.
  intros Hn.
  assert (Hall : forallb (λ k, let c := b64_char (Z.of_nat k) in
    negb (line_break c) && negb (Ascii.eqb c ".") && (33 <=? byte_val c) && (byte_val c <? 127))
    (seq 0 64) = true) by (by vm_compute).
  rewrite forallb_forall in Hall. specialize (Hall (Z.to_nat n)).
  rewrite Z2Nat.id in Hall by lia.
  assert (Hin : In (Z.to_nat n) (seq 0 64)) by (apply in_seq; lia).
  specialize (Hall Hin). cbv zeta in Hall. bsplit.
  split; [done|]. split; [by apply Ascii.eqb_neq|]. lia.
Qed.

(** Induction by groups of three bytes. *)
Lemma bytes_ind3 (P : bytes → Prop) :
  P [] → (∀ a, P [a]) → (∀ a b, P [a; b]) → (∀ a b c l, P l → P (a :: b :: c :: l)) → ∀ l, P l.
Proof.
  intros H0 H1 H2 H3. fix IH 1. intros [|a [|b [|c l]]]; [done|done|done|]. apply H3, IH.
Qed.

Lemma b64_encode_plain l :
  Forall (λ c, line_break c = false ∧ c ≠ "."%char ∧ 33 ≤ byte_val c < 127) (b64_encode l).
Proof.
  induction l as [|a|a b|a b c l IH] using bytes_ind3; simpl; repeat apply Forall_cons_2;
    try constructor; try (apply b64_char_plain);
    try (pose proof (byte_val_range a)); try (pose proof (byte_val_range b));
    try (pose proof (byte_val_range c)); try euclid; done.
Qed.

Lemma byte_of_eq x c : x = byte_val c → byte_of x = c.
Proof. intros ->. apply byte_of_val. Qed.

Lemma b64_groups_encode l : b64_groups (b64_encode l) = Some l.
Proof.
  induction l as [|a|a b|a b c l IH] using bytes_ind3; simpl; [done| | |];
    pose proof (byte_val_range a); try (pose proof (byte_val_range b));
    try (pose proof (byte_val_range c));
    rewrite !b64_val_char by euclid; simpl; try rewrite IH; simpl;
    rewrite (byte_of_eq _ a) by euclid; try rewrite (byte_of_eq _ b) by euclid;
    try rewrite (byte_of_eq _ c) by euclid; done.
Qed.

Lemma filter_all {A} (p : A → bool) l : Forall (λ x, p x = true) l → List.filter p l = l.
Proof. induction 1 as [|x l Hx Hl IH]; simpl; [done|]. by rewrite Hx, IH. Qed.

(** What the session code encodes it decodes. *)
Lemma decodeRawBase64_raw s : decodeRawBase64 (rawBase64 s) = Some s.
Proof.
  unfold decodeRawBase64, b64_decode. unfold rawBase64 at 1. rewrite explode_implode.
  rewrite filter_all, b64_groups_encode.
  - by rewrite implode_explode, String.eqb_refl.
  - eapply Forall_impl; [apply b64_encode_plain|]. intros c (-> & _). done.
Qed.

(** A decoded value is the encoding of its bytes: no two texts decode to the
    same bytes. *)
Lemma decodeRawBase64_inv v s : decodeRawBase64 v = Some s → v = rawBase64 s.
Proof.
  unfold decodeRawBase64. destruct (b64_decode _) as [d|]; [|done].
  case_if; [|done]. bsplit. intros [= <-]. done.
Qed.

(** ** Splitting *)

Lemma split_on_plain c a : c ∉ a → split_on c a = [a].
Proof.
  induction a as [|d a IH]; intros Hc; simpl; [done|]. apply not_elem_of_cons in Hc as [Hne Hc].
  rewrite (proj2 (Ascii.eqb_neq c d)) by done. by rewrite IH.
Qed.

Lemma split_on_app c a b : c ∉ a → split_on c (a ++ c :: b) = a :: split_on c b.
Proof.
  induction a as [|d a IH]; intros Hc; simpl; [by rewrite Ascii.eqb_refl|].
  apply not_elem_of_cons in Hc as [Hne Hc].
  rewrite (proj2 (Ascii.eqb_neq c d)) by done. by rewrite IH.
Qed.

Fixpoint join_on (c : ascii) (l : list bytes) : bytes :=
  match l with
  | [] => []
  | [a] => a
  | a :: l => a ++ c :: join_on c l
  end.

Lemma join_split_on c l : join_on c (split_on c l) = l.
Proof.
  assert (Hne : ∀ l, split_on c l ≠ []).
  { intros l'. destruct l' as [|d l']; simpl; [done|]. case_if; [done|]. by destruct (split_on c l'). }
  induction l as [|d l IH]; simpl; [done|].
  destruct (Ascii.eqb_spec c d) as [->|_].
  - specialize (Hne l). destruct (split_on d l) eqn:E; [done|]. by rewrite <-IH.
  - specialize (Hne l). destruct (split_on c l) as [|w ws]; [done|]. rewrite <-IH.
    by destruct ws.
Qed.

Lemma Split_three s c a b d : Split s c = [a; b; d] → s = a +:+ String c (b +:+ String c d).
Proof.
  unfold Split. intros Hs. pose proof (join_split_on c (explode s)) as Hj.
  destruct (split_on c (explode s)) as [|x [|y [|z [|? ?]]]]; try done. injection Hs as <- <- <-.
  simpl in Hj. apply explode_inj. rewrite <-Hj, explode_app, explode_implode.
  unfold explode at 1; simpl. fold (explode (implode y +:+ String c (implode z))).
  rewrite explode_app, explode_implode. unfold explode; simpl.
  fold (explode (implode z)). by rewrite explode_implode.
Qed.

(** ** Trimming text without white space *)

Definition graphic (c : ascii) : Prop := 33 ≤ byte_val c < 127.

Lemma space_rune_ends : Forall (λ p, match p with
    | [] => False
    | c :: _ => ¬ graphic c ∧ match last p with Some d => ¬ graphic d | None => False end
    end) space_runes.
Proof. unfold graphic. repeat (constructor; [by vm_compute; split; intros [H1 H2]; (apply H1 || apply H2)|]). constructor. Qed.

Lemma TrimSpace_graphic s : Forall graphic (explode s) → TrimSpace s = s.
Proof.
  intros Hg. unfold TrimSpace, trim_left_bytes.
  pose proof space_rune_ends as He. rewrite Forall_forall in He.
  rewrite trim_front_fixed.
  2: { apply strip_any_None. intros p l' Hp Heq. specialize (He _ Hp).
       destruct p as [|c p]; [done|]. destruct He as [Hc _]. rewrite Heq in Hg.
       by apply Forall_inv in Hg. }
  unfold trim_right_bytes. rewrite trim_front_fixed; [by rewrite rev_involutive, implode_explode|].
  apply strip_any_None. intros q l' Hq Heq.
  apply list_elem_of_fmap in Hq as (p & -> & Hp). specialize (He _ Hp).
  destruct p as [|c p]; [done|]. destruct He as [_ He].
  destruct (last (c :: p)) as [d|] eqn:El; [|done].
  apply last_Some in El as [l'' El]. rewrite El, rev_app_distr in Heq. simpl in Heq.
  apply (f_equal (@rev ascii)) in Heq. rewrite rev_involutive in Heq. simpl in Heq. rewrite Heq in Hg.
  apply Forall_app in Hg as [_ Hg]. by apply Forall_inv in Hg.
Qed.

Lemma hex_graphic s : Forall graphic (explode (hex_encode s)).
Proof.
  unfold hex_encode. rewrite explode_implode.
  assert (Hd : ∀ n, 0 ≤ n < 16 → graphic (hex_digit n)).
  { intros n Hn. unfold graphic, hex_digit, byte_of, byte_val.
    rewrite N_ascii_embedding by (case_if; lia). case_if; bsplit; lia. }
  induction (explode s) as [|c l IH]; simpl; [constructor|].
  pose proof (byte_val_range c). repeat apply Forall_cons_2; [apply Hd; euclid..|done].
Qed.

(** ** base64 *)

Record encoding := Encoding { url_alphabet : bool; padded : bool }.
Definition StdEncoding := Encoding false true.
Definition URLEncoding := Encoding true true.
Definition RawStdEncoding := Encoding false false.
Definition RawURLEncoding := Encoding true false.

(** The two alphabets differ in their last two characters. *)
Definition enc_char (e : encoding) (n : Z) : ascii :=
  if url_alphabet e then b64_char n
  else if n =? 62 then "+"%char else if n =? 63 then "/"%char else b64_char n.
Definition enc_val (e : encoding) (c : ascii) : option Z :=
  if url_alphabet e then b64_val c
  else if Ascii.eqb c "+" then Some 62 else if Ascii.eqb c "/" then Some 63
  else if Ascii.eqb c "-" || Ascii.eqb c "_" then None else b64_val c.

Definition pad_char : ascii := "="%char.
Definition pad_of (e : encoding) (n : nat) : bytes := if padded e then replicate n pad_char else [].

(** The three values of the characters of a group *)
Definition group1 (a : Z) : list Z := [a / 4; a mod 4 * 16].
Definition group2 (a b : Z) : list Z := [a / 4; a mod 4 * 16 + b / 16; b mod 16 * 4].
Definition group3 (a b c : Z) : list Z := [a / 4; a mod 4 * 16 + b / 16; b mod 16 * 4 + c / 64; c mod 64].

Fixpoint encode_bytes (e : encoding) (l : bytes) : bytes :=
  match l with
  | a :: b :: c :: l =>
      (enc_char e <$> group3 (byte_val a) (byte_val b) (byte_val c)) ++ encode_bytes e l
  | [a; b] => (enc_char e <$> group2 (byte_val a) (byte_val b)) ++ pad_of e 1
  | [a] => (enc_char e <$> group1 (byte_val a)) ++ pad_of e 2
  | [] => []
  end.

(** The end of the text: two or three characters before the padding *)
Definition last2 (e : encoding) (a b : ascii) : option bytes :=
  a ← enc_val e a; b ← enc_val e b; Some [byte_of (a * 4 + b / 16)].
Definition last3 (e : encoding) (a b c : ascii) : option bytes :=
  a ← enc_val e a; b ← enc_val e b; c ← enc_val e c;
  Some [byte_of (a * 4 + b / 16); byte_of (b mod 16 * 16 + c / 4)].

Fixpoint decode_groups (e : encoding) (l : bytes) : option bytes :=
  match l with
  | [] => Some []
  | [_] => None
  | [a; b] => if padded e then None else last2 e a b
  | [a; b; c] => if padded e then None else last3 e a b c
  | a :: b :: c :: d :: l =>
      if padded e && Ascii.eqb c pad_char then
        if Ascii.eqb d pad_char && bool_decide (l = []) then last2 e a b else None
      else if padded e && Ascii.eqb d pad_char then
        if bool_decide (l = []) then last3 e a b c else None
      else
        a ← enc_val e a; b ← enc_val e b; c ← enc_val e c; d ← enc_val e d;
        r ← decode_groups e l;
        Some (byte_of (a * 4 + b / 16) :: byte_of (b mod 16 * 16 + c / 4)
                :: byte_of (c mod 4 * 64 + d) :: r)
  end.

(** [EncodeToString] and [DecodeString]; line breaks are skipped. *)
Definition EncodeToString (e : encoding) (s : string) : string := implode (encode_bytes e (explode s)).
Definition DecodeString (e : encoding) (s : string) : option string :=
  implode <$> decode_groups e (List.filter (λ c, negb (line_break c)) (explode s)).

Lemma enc_table (P : encoding → Z → bool) :
  forallb (λ u, forallb (λ p, forallb (λ k, P (Encoding u p) (Z.of_nat k)) (seq 0 64)) [true; false])
    [true; false] = true →
  ∀ e n, 0 ≤ n < 64 → P e n = true.
Proof.
  intros Hall [u p] n Hn. rewrite forallb_forall in Hall. specialize (Hall u).
  rewrite forallb_forall in Hall.
  assert (Hu : In u [true; false]) by (destruct u; simpl; auto).
  assert (Hp : In p [true; false]) by (destruct p; simpl; auto).
  specialize (Hall Hu p Hp). rewrite forallb_forall in Hall.
  rewrite <-(Z2Nat.id n) by lia. apply Hall, in_seq. lia.
Qed.

Lemma enc_val_char e n : 0 ≤ n < 64 → enc_val e (enc_char e n) = Some n.
Proof.
  intros Hn. pose proof (enc_table (λ e n, bool_decide (enc_val e (enc_char e n) = Some n))
    ltac:(by vm_compute) e n Hn) as H. by apply bool_decide_eq_true in H.
Qed.

Lemma enc_char_plain e n : 0 ≤ n < 64 →
  line_break (enc_char e n) = false ∧ Ascii.eqb (enc_char e n) pad_char = false ∧
  33 ≤ byte_val (enc_char e n) < 127.
Proof.
  intros Hn. pose proof (enc_table (λ e n, let c := enc_char e n in
    negb (line_break c) && negb (Ascii.eqb c pad_char) && (33 <=? byte_val c) && (byte_val c <? 127))
    ltac:(by vm_compute) e n Hn) as H. cbv beta zeta in H. bsplit. split_and!; try done; lia.
Qed.

Definition encoded_char (e : encoding) (c : ascii) : Prop :=
  line_break c = false ∧ 33 ≤ byte_val c < 127.

Lemma enc_chars_plain e l : Forall (λ n, 0 ≤ n < 64) l → Forall (encoded_char e) (enc_char e <$> l).
Proof.
  induction 1 as [|n l Hn Hl IH]; constructor; [|done].
  by destruct (enc_char_plain e n Hn) as (? & _ & ?).
Qed.
Lemma pad_plain e n : Forall (encoded_char e) (pad_of e n).
Proof. unfold pad_of. destruct (padded e); [|constructor]. apply Forall_replicate. by vm_compute. Qed.

Ltac byte_ranges := repeat match goal with
  | a : ascii |- _ => lazymatch goal with
      | _ : 0 ≤ byte_val a < 256 |- _ => fail
      | _ => pose proof (byte_val_range a)
      end
  end.

Lemma encode_plain e l : Forall (encoded_char e) (encode_bytes e l).
Proof.
  induction l as [|a|a b|a b c l IH] using bytes_ind3; [constructor| | |]; cbn [encode_bytes];
    apply Forall_app; (split; [apply enc_chars_plain|try apply pad_plain; try apply IH]);
    byte_ranges; unfold group1, group2, group3; repeat constructor; euclid.
Qed.

Lemma eqb_enc_char e n : 0 ≤ n < 64 → Ascii.eqb (enc_char e n) pad_char = false.
Proof. intros Hn. by destruct (enc_char_plain e n Hn) as (_ & ? & _). Qed.

(** Every encoding decodes what it encodes. *)
Lemma decode_encode_groups e l : decode_groups e (encode_bytes e l) = Some l.
Proof.
  induction l as [|a|a b|a b c l IH] using bytes_ind3; [done| | |]; byte_ranges;
    unfold encode_bytes; fold encode_bytes; unfold group1, group2, group3, pad_of;
    destruct (padded e) eqn:Ep; cbn [fmap list_fmap app replicate decode_groups]; rewrite ?Ep;
    rewrite ?Ascii.eqb_refl, ?eqb_enc_char by euclid;
    cbn [andb]; unfold last2, last3; rewrite ?enc_val_char by euclid;
    cbn [mbind option_bind]; try rewrite IH; cbn [mbind option_bind];
    rewrite (byte_of_eq _ a) by euclid; try rewrite (byte_of_eq _ b) by euclid;
    try rewrite (byte_of_eq _ c) by euclid; done.
Qed.

Lemma DecodeString_EncodeToString e s : DecodeString e (EncodeToString e s) = Some s.
Proof.
  unfold DecodeString, EncodeToString. rewrite explode_implode, filter_all.
  - rewrite decode_encode_groups. simpl. by rewrite implode_explode.
  - eapply Forall_impl; [apply (encode_plain e)|]. by intros c (-> & _).
Qed.
