(* ===== verification/Tasks.v ===== *)
(** * The durable task queue: [internal/db/tasks.go]

    The table [task_queue] is a finite map from the primary key to a row whose
    nullable columns are options and whose times are the text that [fmtTime]
    writes.  Every SQL statement is a definition on that table; a function that
    runs statements in a transaction returns the table it commits, or the error
    with which it rolls back.  The clock is an argument, read as often as the
    Go function reads it.  Driver failures and nil receivers are not modelled. *)
From S2P Require Import Prelude Sql GoStr GoFloat GoTime Model.

Definition TaskQueued : string := "queued".
Definition TaskRunning : string := "running".
Definition TaskCompleted : string := "completed".
Definition TaskFailed : string := "failed".
Definition TaskDead : string := "dead".
Definition TaskCanceled : string := "canceled".

(** A row of [task_queue]. *)
Module TaskRow.
Record t := mk {
  id : string;
  type_ : string;
  options_json : string;
  priority : Z;
  status : string;
  attempts : Z;
  max_attempts : Z;
  available_at : string;
  lease_until : option string;
  worker_id : option string;
  last_error : option string;
  created_at : string;
  updated_at : string;
  started_at : option string;
  ended_at : option string;
}.
#[export] Instance eta : Eta t := λ r, mk (id r) (type_ r) (options_json r) (priority r)
  (status r) (attempts r) (max_attempts r) (available_at r) (lease_until r) (worker_id r)
  (last_error r) (created_at r) (updated_at r) (started_at r) (ended_at r).
End TaskRow.
Export (hints) TaskRow.
Abbreviation row := TaskRow.t.
Abbreviation table := (gmap string row).

(** The options of a task, with the [encoding/json] codec of their type. *)
Class OptionsCodec := {
  options : Type;
  options_marshal : options → option string;
  options_unmarshal : string → option options;
}.

(** [QueuedTask] *)
Module QueuedTask.
Record t `{OptionsCodec} := mk {
  ID : string;
  Type_ : string;
  Options : options;
  Priority : Z;
  Status : string;
  Attempts : Z;
  MaxAttempts : Z;
  AvailableAt : string;
  LeaseUntil : string;
  WorkerID : string;
  LastError : string;
  CreatedAt : string;
  UpdatedAt : string;
  StartedAt : string;
  EndedAt : string;
}.
Arguments t {_}.
Arguments mk {_}.
End QueuedTask.

(** ** SQL statements *)

(** [status IN ('queued','running')] *)
Definition pending (r : row) : bool :=
  (TaskRow.status r =? TaskQueued)%string || (TaskRow.status r =? TaskRunning)%string.

(** [SELECT COUNT( * ) FROM task_queue WHERE status IN ('queued','running')] *)
Definition pending_count (t : table) : Z := count_where pending t.

Definition null_lt (v : option string) (s : string) : bool :=
  match v with Some x => String.ltb x s | None => false end.

(** [ORDER BY priority DESC,created_at,id] *)
Definition claim_less (a b : row) : bool :=
  if TaskRow.priority a =? TaskRow.priority b then
    match String.compare (TaskRow.created_at a) (TaskRow.created_at b) with
    | Lt => true
    | Gt => false
    | Eq => String.ltb (TaskRow.id a) (TaskRow.id b)
    end
  else TaskRow.priority b <? TaskRow.priority a.

(** [WHERE status='queued' AND available_at<=?] *)
Definition claimable (now : string) (r : row) : bool :=
  (TaskRow.status r =? TaskQueued)%string && String.leb (TaskRow.available_at r) now.

Definition select_claim (t : table) (now : string) : option row :=
  head (stable_sort claim_less (List.filter (claimable now) (rows t))).

(** [requeueExpiredTx] *)
Definition expired (now : string) (r : row) : bool :=
  (TaskRow.status r =? TaskRunning)%string && null_lt (TaskRow.lease_until r) now.
Definition expire_row (now : string) (r : row) : row :=
  let out := TaskRow.max_attempts r <=? TaskRow.attempts r in
  r <| TaskRow.status := if out then TaskDead else TaskQueued |>
    <| TaskRow.available_at := now |>
    <| TaskRow.lease_until := None |>
    <| TaskRow.worker_id := None |>
    <| TaskRow.last_error :=
         if decide (TaskRow.last_error r = Some "") then Some "worker lease expired"
         else TaskRow.last_error r |>
    <| TaskRow.ended_at := if out then Some now else TaskRow.ended_at r |>
    <| TaskRow.updated_at := now |>.
Definition requeueExpiredTx (t : table) (now : string) : table :=
  update_where (expired now) (expire_row now) t.

(** The claiming UPDATE of [LeaseTask] *)
Definition lease_row (leaseUntil workerID now : string) (r : row) : row :=
  r <| TaskRow.status := TaskRunning |>
    <| TaskRow.attempts := TaskRow.attempts r + 1 |>
    <| TaskRow.lease_until := Some leaseUntil |>
    <| TaskRow.worker_id := Some workerID |>
    <| TaskRow.last_error := Some "" |>
    <| TaskRow.started_at :=
         match TaskRow.started_at r with Some s => Some s | None => Some now end |>
    <| TaskRow.updated_at := now |>.

Definition leased_by (id workerID : string) (r : row) : bool :=
  (TaskRow.id r =? id)%string && (TaskRow.status r =? TaskRunning)%string
  && bool_decide (TaskRow.worker_id r = Some workerID).

Definition not_leased (id : string) : error :=
  ErrMsg ("task " +:+ id +:+ " is not leased by worker").

(** [time.Duration(math.Pow(2, float64(k)))] *)
Definition pow2_duration (k : Z) : Duration :=
  if k <? 0 then 0 else if k <? 63 then 2 ^ k else - 2 ^ 63.

(** [ORDER BY created_at DESC,id DESC], which is also the condition
    [(created_at<? OR (created_at=? AND id<?))] of a page after [a] *)
Definition page_cmp (a b : row) : comparison :=
  lexc (String.compare (TaskRow.created_at b) (TaskRow.created_at a))
    (String.compare (TaskRow.id b) (TaskRow.id a)).

(** [tenantOrDefault] *)
Definition tenantOrDefault (tenant : string) : string :=
  if (tenant =? "")%string then "default" else tenant.

Section tasks.
Context `{TzData} `{OptionsCodec}.

(** [EnqueueTask]; [newid] is what [taskID] draws. *)
Definition EnqueueTask (t : table) (task : QueuedTask.t) (maxPending : Z)
    (newid : string) (clock : Time) : result table :=
  let id := if (QueuedTask.ID task =? "")%string then newid else QueuedTask.ID task in
  if (QueuedTask.Type_ task =? "")%string then Err (ErrMsg "task type is required")
  else
    let max_attempts :=
      if QueuedTask.MaxAttempts task <=? 0 then 3 else QueuedTask.MaxAttempts task in
    let status :=
      if (QueuedTask.Status task =? "")%string then TaskQueued else QueuedTask.Status task in
    let now := fmtTime clock in
    let available_at :=
      if (QueuedTask.AvailableAt task =? "")%string then now else QueuedTask.AvailableAt task in
    match options_marshal (QueuedTask.Options task) with
    | None => Err (ErrMsg "json: unsupported value")
    | Some opts =>
        if (0 <? maxPending) && (maxPending <=? pending_count t) then Err ErrQueueFull
        else
          match t !! id with
          | Some _ => Err (ErrMsg "UNIQUE constraint failed: task_queue.id")
          | None =>
              Ok (<[id := TaskRow.mk id (QueuedTask.Type_ task) opts (QueuedTask.Priority task)
                    status 0 max_attempts available_at None None None now now None None]> t)
          end
    end.

(** [scanTask]: NULL columns read as the empty string *)
Definition scanTask (r : row) : result QueuedTask.t :=
  match options_unmarshal (TaskRow.options_json r) with
  | None => Err (ErrMsg "invalid character in options")
  | Some opts =>
      Ok (QueuedTask.mk (TaskRow.id r) (TaskRow.type_ r) opts (TaskRow.priority r)
            (TaskRow.status r) (TaskRow.attempts r) (TaskRow.max_attempts r)
            (TaskRow.available_at r) (default "" (TaskRow.lease_until r))
            (default "" (TaskRow.worker_id r)) (default "" (TaskRow.last_error r))
            (TaskRow.created_at r) (TaskRow.updated_at r)
            (default "" (TaskRow.started_at r)) (default "" (TaskRow.ended_at r)))
  end.

(** [GetTask] and [getTaskTx] *)
Definition GetTask (t : table) (id : string) : result QueuedTask.t :=
  match t !! id with Some r => scanTask r | None => Err ErrNoRows end.

(** The loop over the rows of a listing *)
Fixpoint scan_all (l : list row) : result (list QueuedTask.t) :=
  match l with
  | [] => Ok []
  | r :: l =>
      let! task := scanTask r in
      let! out := scan_all l in
      Ok (task :: out)
  end.

Definition lease_default (lease : Duration) : Duration :=
  if lease <=? 0 then 2 * Minute else lease.

(** [LeaseTask].  The clock is read twice: for [now] and for the end of the
    lease.  When nothing is claimable the transaction is rolled back, and
    with it the requeueing of the expired tasks. *)
Definition LeaseTask (t : table) (workerID : string) (lease : Duration)
    (clock1 clock2 : Time) : result (QueuedTask.t * table) :=
  if (workerID =? "")%string then Err (ErrMsg "worker id is required")
  else
    let now := fmtTime clock1 in
    let leaseUntil := fmtTime (clock2 + lease_default lease) in
    let t1 := requeueExpiredTx t now in
    match select_claim t1 now with
    | None => Err ErrNoRows
    | Some r =>
        let id := TaskRow.id r in
        let guard r := (TaskRow.id r =? id)%string && (TaskRow.status r =? TaskQueued)%string in
        let t2 := update_where guard (lease_row leaseUntil workerID now) t1 in
        if negb (count_where guard t1 =? 1) then Err ErrNoRows
        else
          let! task := GetTask t2 id in
          Ok (task, t2)
    end.

(** [finishTask] *)
Definition finish_row (status message now : string) (r : row) : row :=
  r <| TaskRow.status := status |>
    <| TaskRow.lease_until := None |>
    <| TaskRow.worker_id := None |>
    <| TaskRow.last_error := Some message |>
    <| TaskRow.updated_at := now |>
    <| TaskRow.ended_at := Some now |>.
Definition finishTask (t : table) (id workerID status message : string) (clock : Time)
    : result table :=
  let now := fmtTime clock in
  if negb (count_where (leased_by id workerID) t =? 1) then Err (not_leased id)
  else Ok (update_where (leased_by id workerID) (finish_row status message now) t).

(** [CompleteTask] *)
Definition CompleteTask (t : table) (id workerID : string) (clock : Time) : result table :=
  finishTask t id workerID TaskCompleted "" clock.

(** [RenewTaskLease] *)
Definition renew_row (leaseUntil now : string) (r : row) : row :=
  r <| TaskRow.lease_until := Some leaseUntil |> <| TaskRow.updated_at := now |>.
Definition RenewTaskLease (t : table) (id workerID : string) (lease : Duration) (clock : Time)
    : bool * table :=
  let leaseUntil := fmtTime (clock + lease_default lease) in
  (count_where (leased_by id workerID) t =? 1,
   update_where (leased_by id workerID) (renew_row leaseUntil (fmtTime clock)) t).

(** [FailTask]: what it reads, then the statement it runs on the table it
    finds at that time, which other workers may have changed meanwhile. *)
Definition retry_delay (attempts : Z) (retryBase : Duration) : Duration :=
  let base := if retryBase <=? 0 then 5 * Second else retryBase in
  wrap64 (pow2_duration (attempts - 1) * base).
Definition retry_row (availableAt message now : string) (r : row) : row :=
  r <| TaskRow.status := TaskQueued |>
    <| TaskRow.available_at := availableAt |>
    <| TaskRow.lease_until := None |>
    <| TaskRow.worker_id := None |>
    <| TaskRow.last_error := Some message |>
    <| TaskRow.updated_at := now |>.
Definition FailTask_read (t : table) (id workerID : string) : result QueuedTask.t :=
  let! task := GetTask t id in
  if negb (QueuedTask.Status task =? TaskRunning)%string
     || negb (QueuedTask.WorkerID task =? workerID)%string
  then Err (not_leased id) else Ok task.
Definition FailTask_write (t : table) (task : QueuedTask.t) (id workerID message : string)
    (retryBase : Duration) (clock : Time) : result table :=
  if QueuedTask.MaxAttempts task <=? QueuedTask.Attempts task
  then finishTask t id workerID TaskDead message clock
  else
    let delay := retry_delay (QueuedTask.Attempts task) retryBase in
    Ok (update_where (leased_by id workerID)
          (retry_row (fmtTime (clock + delay)) message (fmtTime clock)) t).
Definition FailTask (t : table) (id workerID message : string) (retryBase : Duration)
    (clock : Time) : result table :=
  let! task := FailTask_read t id workerID in
  FailTask_write t task id workerID message retryBase clock.

(** [CancelTask] *)
Definition cancel_row (now : string) (r : row) : row :=
  r <| TaskRow.status := TaskCanceled |>
    <| TaskRow.lease_until := None |>
    <| TaskRow.worker_id := None |>
    <| TaskRow.updated_at := now |>
    <| TaskRow.ended_at := Some now |>.
Definition CancelTask (t : table) (id : string) (clock : Time) : result table :=
  let p r := (TaskRow.id r =? id)%string && pending r in
  if count_where p t =? 0 then Err ErrNoRows
  else Ok (update_where p (cancel_row (fmtTime clock)) t).

(** The retention statement of [PruneHistory] on this table *)
Definition finished (r : row) : bool :=
  (TaskRow.status r =? TaskCompleted)%string || (TaskRow.status r =? TaskDead)%string
  || (TaskRow.status r =? TaskCanceled)%string.
Definition prune_tasks (t : table) (cutoff : Time) : table :=
  delete_where (λ r, finished r && String.ltb (TaskRow.updated_at r) (fmtTime cutoff)) t.

(** [taskFilters]: the conditions of a listing.  [jobs] is the column
    [tenant_id] of the table [jobs]. *)
Definition taskFilters (jobs : gmap string string) (status tenant : string) (r : row) : bool :=
  ((status =? "")%string || (TaskRow.status r =? status)%string)
  && ((tenant =? "")%string
      || bool_decide (jobs !! TaskRow.id r = Some (tenantOrDefault tenant))).

(** [ListTasksTenant] and [ListTasks] *)
Definition ListTasksTenant (t : table) (jobs : gmap string string) (limit : Z)
    (status tenant : string) : result (list QueuedTask.t) :=
  let limit := if (limit <=? 0) || (500 <? limit) then 100 else limit in
  scan_all (select_page (taskFilters jobs status tenant) (less page_cmp) limit t).
Definition ListTasks (t : table) (limit : Z) (status : string) : result (list QueuedTask.t) :=
  ListTasksTenant t ∅ limit status "".

(** [ListTasksPageTenant]: a page after the task [cursor] *)
Definition ListTasksPageTenant (t : table) (jobs : gmap string string) (limit : Z)
    (status cursor tenant : string) : result (list QueuedTask.t) :=
  let limit := if (limit <=? 0) || (101 <? limit) then 31 else limit in
  let! after :=
    if (cursor =? "")%string then Ok (λ _, true)
    else
      match t !! cursor with
      | Some x => if taskFilters jobs "" tenant x then Ok (less page_cmp x) else Err ErrNoRows
      | None => Err ErrNoRows
      end in
  scan_all (select_page (λ r, taskFilters jobs status tenant r && after r) (less page_cmp) limit t).

(** [CountTasksTenant] *)
Definition CountTasksTenant (t : table) (jobs : gmap string string) (status tenant : string) : Z :=
  count_where (taskFilters jobs status tenant) t.

(** [QueueStats] *)
Definition QueueStats (t : table) : gmap string Z :=
  foldl (λ m r, <[TaskRow.status r := default 0 (m !! TaskRow.status r) + 1]> m)
    (list_to_map ((λ s, (s, 0)) <$>
      [TaskQueued; TaskRunning; TaskCompleted; TaskDead; TaskCanceled]))
    (rows t).
End tasks.

(** ** Statements on the table *)

(** Rows are stored under their primary key. *)
Abbreviation keyed := (Sql.keyed TaskRow.id).

Lemma count_leased t id w :
  keyed t →
  count_where (leased_by id w) t =
  match t !! id with Some r => if leased_by id w r then 1 else 0 | None => 0 end.
Proof.
  intros Hk.
  rewrite (count_where_ext _ (λ r, (TaskRow.id r =? id)%string && ((TaskRow.status r =? TaskRunning)%string
    && bool_decide (TaskRow.worker_id r = Some w)))).
  2: { intros r. unfold leased_by. by rewrite andb_assoc. }
  rewrite count_where_id by done. destruct (t !! id) as [r|] eqn:E; [|done].
  unfold leased_by. rewrite (Hk _ _ E), String.eqb_refl. done.
Qed.

Lemma leased_by_spec id w r :
  leased_by id w r = true ↔
  TaskRow.id r = id ∧ TaskRow.status r = TaskRunning ∧ TaskRow.worker_id r = Some w.
Proof.
  unfold leased_by. rewrite !andb_true_iff, !String.eqb_eq, bool_decide_eq_true. tauto.
Qed.

(** ** The invariant of the queue *)

Definition statuses : list string :=
  [TaskQueued; TaskRunning; TaskCompleted; TaskDead; TaskCanceled].

Record wf_row (r : row) : Prop := {
  wf_status : TaskRow.status r ∈ statuses;
  wf_attempts : 0 ≤ TaskRow.attempts r ≤ TaskRow.max_attempts r;
  wf_queued : TaskRow.status r = TaskQueued → TaskRow.attempts r < TaskRow.max_attempts r;
  wf_running : TaskRow.status r = TaskRunning →
    1 ≤ TaskRow.attempts r ∧ is_Some (TaskRow.worker_id r) ∧ is_Some (TaskRow.lease_until r)
    ∧ is_Some (TaskRow.started_at r) ∧ TaskRow.last_error r = Some "";
  wf_idle : TaskRow.status r ≠ TaskRunning →
    TaskRow.worker_id r = None ∧ TaskRow.lease_until r = None;
  wf_ended : finished r = true ↔ is_Some (TaskRow.ended_at r);
}.

Definition wf_table (t : table) : Prop :=
  keyed t ∧ ∀ k r, t !! k = Some r → wf_row r.

Lemma update_where_wf p f t :
  (∀ r, TaskRow.id (f r) = TaskRow.id r) →
  (∀ k r, t !! k = Some r → wf_row r → p r = true → wf_row (f r)) →
  wf_table t → wf_table (update_where p f t).
Proof.
  intros Hid Hf [Hk Hw]. split; [by apply update_where_keyed|].
  intros k r. rewrite lookup_update_where, fmap_Some. intros (r' & Hr' & ->).
  case_if; eauto.
Qed.

(** Case analysis on a row of known status. *)
Ltac row_cases :=
  repeat match goal with
  | H : wf_row _ |- _ => destruct H
  | H : _ ∧ _ |- _ => destruct H
  end;
  unfold finished, pending, statuses, TaskQueued, TaskRunning, TaskCompleted, TaskDead,
    TaskCanceled in *; simpl in *.

Lemma running_not_finished r : TaskRow.status r = TaskRunning → finished r = false.
Proof. intros E. unfold finished. by rewrite E. Qed.
Lemma queued_not_finished r : TaskRow.status r = TaskQueued → finished r = false.
Proof. intros E. unfold finished. by rewrite E. Qed.

Lemma not_finished_ended r : wf_row r → finished r = false → TaskRow.ended_at r = None.
Proof.
  intros Hw Hf. destruct (TaskRow.ended_at r) eqn:E; [|done].
  assert (finished r = true); [|congruence]. apply (wf_ended r Hw). rewrite E. eauto.
Qed.

(** Closes the membership of a literal status in a literal list. *)
Ltac status_in := by apply (bool_decide_unpack _).

Lemma expire_row_wf now r : wf_row r → expired now r = true → wf_row (expire_row now r).
Proof.
  intros Hw He. unfold expired in He. bsplit.
  pose proof (not_finished_ended r Hw (running_not_finished r H)) as Hend.
  destruct Hw. unfold expire_row. rewrite Hend. split; simpl; try done.
  - case_if; status_in.
  - case_if; [done|]. bsplit. intros _. lia.
  - by case_if.
  - unfold finished; simpl. case_if; simpl; split; intros Hs; try done; eauto.
Qed.

Lemma lease_row_wf until w now r :
  wf_row r → TaskRow.status r = TaskQueued → wf_row (lease_row until w now r).
Proof.
  intros Hw Hq. pose proof (not_finished_ended r Hw (queued_not_finished r Hq)) as Hend.
  destruct Hw. specialize (wf_queued0 Hq). unfold lease_row. split; simpl; try done.
  - status_in.
  - lia.
  - intros _. repeat split; try lia; eauto. destruct (TaskRow.started_at r); eauto.
  - unfold finished; simpl. rewrite Hend. split; [done|by intros []].
Qed.

Lemma finish_row_wf status msg now r :
  wf_row r → status ∈ [TaskCompleted; TaskDead] → wf_row (finish_row status msg now r).
Proof.
  intros Hw Hs.
  assert (status = TaskCompleted ∨ status = TaskDead) as Hs'.
  { apply elem_of_cons in Hs as [->|Hs]; [by left|]. right. by apply list_elem_of_singleton. }
  destruct Hw. unfold finish_row. split; simpl; try done.
  - destruct Hs' as [->| ->]; status_in.
  - by destruct Hs' as [->| ->].
  - by destruct Hs' as [->| ->].
  - unfold finished; simpl. split; [eauto|]. intros _. by destruct Hs' as [->| ->].
Qed.

Lemma retry_row_wf at_ msg now r :
  wf_row r → TaskRow.status r = TaskRunning → TaskRow.attempts r < TaskRow.max_attempts r →
  wf_row (retry_row at_ msg now r).
Proof.
  intros Hw Hr Hlt. pose proof (not_finished_ended r Hw (running_not_finished r Hr)) as Hend.
  destruct Hw. unfold retry_row. split; simpl; try done.
  - status_in.
  - unfold finished; simpl. rewrite Hend. split; [done|by intros []].
Qed.

Lemma renew_row_wf until now r :
  wf_row r → TaskRow.status r = TaskRunning → wf_row (renew_row until now r).
Proof.
  intros Hw Hr. destruct Hw. unfold renew_row. split; simpl; try done.
  intros _. specialize (wf_running0 Hr). intuition eauto.
Qed.

Lemma cancel_row_wf now r : wf_row r → wf_row (cancel_row now r).
Proof.
  intros Hw. destruct Hw. unfold cancel_row. split; simpl; try done. status_in.
Qed.

#[export] Hint Resolve expire_row_wf lease_row_wf finish_row_wf retry_row_wf renew_row_wf
  cancel_row_wf : go.
