(* ===== verification/TaskQueue.v ===== *)
(** * The task queue as a state machine

    What the operations of [Tasks.v] do to the table, as a step relation over
    arbitrary interleavings of enqueuers, workers, cancellations and the
    retention job, with the invariants of every reachable table: attempts are
    bounded, terminal tasks stay terminal, a task is leased by one worker at a
    time, the queue respects its capacity. *)
From S2P Require Import Prelude Sql GoStr GoFloat GoTime Model Tasks.

(** ** The claiming order *)

Definition claim_cmp (a b : row) : comparison :=
  lexc (TaskRow.priority b ?= TaskRow.priority a)
    (lexc (String.compare (TaskRow.created_at a) (TaskRow.created_at b))
      (String.compare (TaskRow.id a) (TaskRow.id b))).

Lemma claim_less_cmp a b : claim_less a b = lt_of (claim_cmp a b).
Proof.
  unfold claim_less, claim_cmp.
  destruct (Z.compare_spec (TaskRow.priority b) (TaskRow.priority a)) as [->|Hl|Hl].
  - rewrite Z.eqb_refl. simpl. unfold String.ltb.
    destruct (String.compare (TaskRow.created_at a) _); done.
  - rewrite (proj2 (Z.eqb_neq _ _)), (proj2 (Z.ltb_lt _ _)) by lia. done.
  - rewrite (proj2 (Z.eqb_neq _ _)), (proj2 (Z.ltb_ge _ _)) by lia. done.
Qed.

#[export] Instance claim_cmp_comparator : Comparator (λ _ : row, True) claim_cmp.
Proof. unfold claim_cmp. apply _. Qed.

#[export] Instance claim_less_weak : StrictWeak (λ _ : row, True) claim_less.
Proof.
  pose proof (comparator_weak (λ _ : row, True) claim_cmp) as [H1 H2 H3].
  split; intros *; rewrite ?claim_less_cmp; eauto.
Qed.

Lemma select_claim_Some t now r :
  select_claim t now = Some r →
  r ∈ rows t ∧ claimable now r = true ∧
  ∀ r', r' ∈ rows t → claimable now r' = true → claim_less r' r = false.
Proof.
  unfold select_claim. intros Hh.
  pose proof (stable_sort_sorted (λ _ : row, True) claim_less
    (List.filter (claimable now) (rows t)) (Forall_True _)) as Hs.
  pose proof (λ x, elem_of_stable_sort claim_less (List.filter (claimable now) (rows t)) x) as He.
  destruct (stable_sort _ _) as [|x l]; simplify_eq/=.
  assert (r ∈ List.filter (claimable now) (rows t)) as Hin by (apply He; left).
  apply elem_of_list_filter_bool in Hin as [Hin Hc]. split; [done|]. split; [done|].
  intros r' Hr' Hc'.
  assert (r' ∈ r :: l) as Hin' by (apply He, elem_of_list_filter_bool; done).
  apply StronglySorted_inv in Hs as [_ Hall]. rewrite Forall_forall in Hall.
  apply elem_of_cons in Hin' as [->|Hin']; [by apply (sw_irrefl (P := λ _, True))|by apply Hall].
Qed.

Lemma select_claim_None t now :
  select_claim t now = None ↔ ∀ k r, t !! k = Some r → claimable now r = false.
Proof.
  unfold select_claim. split.
  - intros Hh k r Hk. destruct (claimable now r) eqn:E; [|done].
    assert (r ∈ stable_sort claim_less (List.filter (claimable now) (rows t))) as Hin.
    { apply elem_of_stable_sort, elem_of_list_filter_bool. split; [|done].
      apply elem_of_rows. eauto. }
    destruct (stable_sort _ _); [set_solver|done].
  - intros Hf. destruct (stable_sort _ _) as [|r l] eqn:E; [done|].
    assert (r ∈ stable_sort claim_less (List.filter (claimable now) (rows t))) as Hin
      by (rewrite E; left).
    apply elem_of_stable_sort, elem_of_list_filter_bool in Hin as [[k Hk]%elem_of_rows Hc].
    rewrite (Hf _ _ Hk) in Hc. done.
Qed.

Lemma update_where_leased id w f t r :
  keyed t → t !! id = Some r → leased_by id w r = true →
  update_where (leased_by id w) f t = <[id := f r]> t.
Proof.
  intros Hk Hr Hl. apply map_eq. intros k. rewrite lookup_update_where.
  destruct (decide (id = k)) as [->|Hne].
  - by rewrite lookup_insert_eq, Hr; simpl; rewrite Hl.
  - rewrite lookup_insert_ne by done. destruct (t !! k) as [r'|] eqn:E; [|done]. simpl.
    unfold leased_by. rewrite (Hk _ _ E). by rewrite (proj2 (String.eqb_neq _ _)) by done.
Qed.

Lemma update_where_unleased id w f t :
  keyed t → (∀ r, t !! id = Some r → leased_by id w r = false) →
  update_where (leased_by id w) f t = t.
Proof.
  intros Hk Hn. apply update_where_none. intros k r Hr.
  destruct (leased_by id w r) eqn:El; [|done].
  pose proof (proj1 (leased_by_spec _ _ _) El) as (Hid & _).
  rewrite (Hk _ _ Hr) in Hid. subst k. rewrite (Hn _ Hr) in El. done.
Qed.

Lemma requeue_keyed t now : keyed t → keyed (requeueExpiredTx t now).
Proof. by apply update_where_keyed. Qed.

Lemma requeue_wf t now : wf_table t → wf_table (requeueExpiredTx t now).
Proof. intros. apply update_where_wf; [done| |done]. eauto with go. Qed.

Lemma insert_wf t k r :
  TaskRow.id r = k → wf_row r → wf_table t → wf_table (<[k := r]> t).
Proof.
  intros Hid Hr [Hk Hw]. split; intros k' r' Hk';
    destruct (decide (k = k')) as [->|]; simplify_map_eq; eauto.
Qed.

Section ops.
Context `{TzData} `{OptionsCodec}.

(** ** What each operation does *)

Lemma EnqueueTask_inv t task m newid c t' :
  EnqueueTask t task m newid c = Ok t' →
  ∃ k r, t !! k = None ∧ t' = <[k := r]> t ∧ TaskRow.id r = k
    ∧ TaskRow.status r = (if (QueuedTask.Status task =? "")%string then TaskQueued
                          else QueuedTask.Status task)
    ∧ TaskRow.attempts r = 0
    ∧ TaskRow.max_attempts r = (if QueuedTask.MaxAttempts task <=? 0 then 3
                                else QueuedTask.MaxAttempts task)
    ∧ TaskRow.worker_id r = None ∧ TaskRow.lease_until r = None ∧ TaskRow.ended_at r = None
    ∧ (0 < m → pending_count t < m).
Proof.
  unfold EnqueueTask. intros Hr.
  destruct (QueuedTask.Type_ task =? "")%string; [done|].
  destruct (options_marshal _) as [opts|]; [|done].
  destruct ((0 <? m) && _) eqn:Hfull; [done|].
  set (k := if (QueuedTask.ID task =? "")%string then newid else QueuedTask.ID task) in *.
  destruct (t !! k) eqn:Hk; [done|]. injection Hr as <-.
  eexists k, _. do 9 (split; [done|]). intros Hm.
  apply andb_false_iff in Hfull as [Hf|Hf]; bsplit; lia.
Qed.

Lemma LeaseTask_inv t w lease c1 c2 task t2 :
  keyed t → LeaseTask t w lease c1 c2 = Ok (task, t2) →
  let now := fmtTime c1 in
  let t1 := requeueExpiredTx t now in
  let until := fmtTime (c2 + lease_default lease) in
  ∃ r, w ≠ "" ∧ select_claim t1 now = Some r ∧ t1 !! TaskRow.id r = Some r
    ∧ TaskRow.status r = TaskQueued
    ∧ t2 = <[TaskRow.id r := lease_row until w now r]> t1
    ∧ scanTask (lease_row until w now r) = Ok task.
Proof.
  intros Hkeyed Hl. cbn zeta. unfold LeaseTask in Hl.
  destruct (w =? "")%string eqn:Hw; [done|].
  set (now := fmtTime c1) in *. set (t1 := requeueExpiredTx t now) in *.
  assert (keyed t1) as Hk1 by by apply requeue_keyed.
  destruct (select_claim t1 now) as [r|] eqn:Hs; [|done].
  destruct (select_claim_Some _ _ _ Hs) as (Hin & Hc & _).
  apply elem_of_rows in Hin as [k Hk]. pose proof (Hk1 _ _ Hk) as Hid. subst k.
  unfold claimable in Hc. bsplit.
  set (q := λ r : row, (TaskRow.status r =? TaskQueued)%string) in *.
  assert (Hq : q r = true) by (unfold q; by apply String.eqb_eq).
  change (λ r0 : row, (TaskRow.id r0 =? TaskRow.id r)%string && (TaskRow.status r0 =? TaskQueued)%string)
    with (λ r0 : row, (TaskRow.id r0 =? TaskRow.id r)%string && q r0) in Hl.
  rewrite count_where_id, Hk, Hq in Hl by done. simpl negb in Hl. cbn iota in Hl.
  rewrite (update_where_id _ _ _ _ r) in Hl by done.
  unfold GetTask in Hl. rewrite lookup_insert_eq in Hl.
  destruct (scanTask _) as [task'|] eqn:Hsc; [|done]. simpl in Hl. injection Hl as <- <-.
  by exists r.
Qed.

Lemma finishTask_inv t id w status msg c t' :
  keyed t → finishTask t id w status msg c = Ok t' →
  ∃ r, t !! id = Some r ∧ leased_by id w r = true ∧
    t' = <[id := finish_row status msg (fmtTime c) r]> t.
Proof.
  intros Hk. unfold finishTask. rewrite count_leased by done.
  destruct (t !! id) as [r|] eqn:E; [|done].
  destruct (leased_by id w r) eqn:El; [|done]. simpl. intros [= <-].
  exists r. split; [done|]. split; [done|]. by apply update_where_leased.
Qed.

Lemma scanTask_inv r task :
  scanTask r = Ok task →
  QueuedTask.ID task = TaskRow.id r ∧ QueuedTask.Status task = TaskRow.status r
  ∧ QueuedTask.Attempts task = TaskRow.attempts r
  ∧ QueuedTask.MaxAttempts task = TaskRow.max_attempts r
  ∧ QueuedTask.WorkerID task = default "" (TaskRow.worker_id r).
Proof. unfold scanTask. destruct (options_unmarshal _); [|done]. by intros [= <-]. Qed.

Lemma FailTask_read_inv t id w task :
  FailTask_read t id w = Ok task →
  ∃ r, t !! id = Some r ∧ scanTask r = Ok task ∧ TaskRow.status r = TaskRunning
    ∧ default "" (TaskRow.worker_id r) = w.
Proof.
  unfold FailTask_read, GetTask. destruct (t !! id) as [r|]; [|done].
  destruct (scanTask r) as [task'|] eqn:E; [|done]. simpl.
  destruct (scanTask_inv _ _ E) as (_ & Hs & _ & _ & Hwk).
  destruct (negb _ || negb _) eqn:Eg; [done|]. bsplit. intros [= <-].
  exists r. rewrite <-Hs, <-Hwk. done.
Qed.

Lemma CancelTask_inv t id c t' :
  keyed t → CancelTask t id c = Ok t' →
  ∃ r, t !! id = Some r ∧ pending r = true ∧ t' = <[id := cancel_row (fmtTime c) r]> t.
Proof.
  intros Hk. unfold CancelTask. rewrite count_where_id by done.
  destruct (t !! id) as [r|] eqn:E; [|done].
  destruct (pending r) eqn:Ep; [|done]. simpl. intros [= <-].
  exists r. split; [done|]. split; [done|]. by apply update_where_id.
Qed.

Lemma RenewTaskLease_inv t id w lease c :
  keyed t →
  (RenewTaskLease t id w lease c = (false, t) ∧
     ∀ r, t !! id = Some r → leased_by id w r = false) ∨
  ∃ r, t !! id = Some r ∧ leased_by id w r = true ∧
    RenewTaskLease t id w lease c =
      (true, <[id := renew_row (fmtTime (c + lease_default lease)) (fmtTime c) r]> t).
Proof.
  intros Hk. unfold RenewTaskLease. rewrite count_leased by done.
  destruct (t !! id) as [r|] eqn:E; [destruct (leased_by id w r) eqn:El|].
  - right. exists r. split; [done|]. split; [done|]. f_equal. by apply update_where_leased.
  - left. split; [|by intros ? [= <-]]. f_equal. apply update_where_unleased; [done|].
    rewrite E. by intros ? [= <-].
  - left. split; [|done]. f_equal. apply update_where_unleased; [done|]. by rewrite E.
Qed.
End ops.

(** ** Executions *)

Inductive event `{OptionsCodec} :=
  | EvEnqueue (task : QueuedTask.t) (maxPending : Z) (newid : string) (clock : Time)
  | EvLease (worker : string) (lease : Duration) (clock1 clock2 : Time)
  | EvComplete (id worker : string) (clock : Time)
  | EvFail (id worker message : string) (retryBase : Duration) (clock : Time)
  | EvRenew (id worker : string) (lease : Duration) (clock : Time)
  | EvCancel (id : string) (clock : Time)
  | EvPrune (cutoff : Time).

Section machine.
Context `{TzData} `{OptionsCodec}.

(** One atomic operation of some process.  The service enqueues tasks with an
    empty status ([Service.Submit]); an operation that returns an error has
    rolled back. *)
Inductive step : event → table → table → Prop :=
  | step_enqueue t task m newid c t' :
      QueuedTask.Status task = "" → EnqueueTask t task m newid c = Ok t' →
      step (EvEnqueue task m newid c) t t'
  | step_lease t w lease c1 c2 task t' :
      LeaseTask t w lease c1 c2 = Ok (task, t') → step (EvLease w lease c1 c2) t t'
  | step_complete t id w c t' :
      CompleteTask t id w c = Ok t' → step (EvComplete id w c) t t'
  | step_fail t id w msg base c t' :
      FailTask t id w msg base c = Ok t' → step (EvFail id w msg base c) t t'
  | step_renew t id w lease c b t' :
      RenewTaskLease t id w lease c = (b, t') → step (EvRenew id w lease c) t t'
  | step_cancel t id c t' :
      CancelTask t id c = Ok t' → step (EvCancel id c) t t'
  | step_prune t cutoff : step (EvPrune cutoff) t (prune_tasks t cutoff).

Inductive exec : list event → table → table → Prop :=
  | exec_nil t : exec [] t t
  | exec_cons e es t1 t2 t3 : step e t1 t2 → exec es t2 t3 → exec (e :: es) t1 t3.

Definition reachable (t : table) : Prop := ∃ es, exec es ∅ t.

(** Every step is an insertion of one row or a filtering of the table, after
    possibly requeueing the expired rows. *)
Lemma FailTask_inv t id w msg base c t' :
  wf_table t → FailTask t id w msg base c = Ok t' →
  ∃ r, t !! id = Some r ∧ leased_by id w r = true ∧
    ((TaskRow.max_attempts r ≤ TaskRow.attempts r ∧
      t' = <[id := finish_row TaskDead msg (fmtTime c) r]> t)
     ∨ (TaskRow.attempts r < TaskRow.max_attempts r ∧
        t' = <[id := retry_row (fmtTime (c + retry_delay (TaskRow.attempts r) base))
                       msg (fmtTime c) r]> t)).
Proof.
  intros [Hk Hw] Hf. unfold FailTask in Hf.
  destruct (FailTask_read t id w) as [task|] eqn:Er; [|done]. simpl in Hf.
  apply FailTask_read_inv in Er as (r & Hr & Hsc & Hst & Hwk).
  destruct (scanTask_inv _ _ Hsc) as (_ & _ & Ha & Hm & _).
  assert (Hl : leased_by id w r = true).
  { apply leased_by_spec. split; [by apply Hk|]. split; [done|].
    destruct (wf_running r (Hw _ _ Hr) Hst) as (_ & [w' Hw'] & _). rewrite Hw' in *. by subst. }
  exists r. split; [done|]. split; [done|].
  unfold FailTask_write in Hf. rewrite Ha, Hm in Hf. case_if_in Hf; bsplit.
  - apply finishTask_inv in Hf as (r' & ? & _ & ->); [|done]. simplify_eq. by left.
  - injection Hf as <-. right. split; [done|]. by apply update_where_leased.
Qed.
End machine.

(** ** Sums over the table *)

Definition total (g : row → Z) (t : table) : Z := foldr (λ r acc, g r + acc) 0 (rows t).

Lemma total_perm g l1 l2 :
  l1 ≡ₚ l2 → foldr (λ r acc, g r + acc) 0 l1 = foldr (λ (r : row) acc, g r + acc) 0 l2.
Proof. induction 1; simpl; lia. Qed.

Lemma total_empty g : total g ∅ = 0.
Proof. reflexivity. Qed.

Lemma total_insert g t k r : t !! k = None → total g (<[k:=r]> t) = g r + total g t.
Proof. intros Hk. unfold total. by rewrite (total_perm _ _ _ (rows_insert t k r Hk)). Qed.

Lemma total_delete g t k r : t !! k = Some r → total g t = g r + total g (delete k t).
Proof.
  intros Hk. rewrite <-(insert_id t k r) at 1 by done.
  rewrite <-insert_delete_eq. apply total_insert. apply lookup_delete_eq.
Qed.

Lemma total_replace g t k r r' :
  t !! k = Some r → total g (<[k:=r']> t) = total g t - g r + g r'.
Proof.
  intros Hk. rewrite (total_delete g t k r) by done.
  rewrite <-insert_delete_eq, total_insert by apply lookup_delete_eq. lia.
Qed.

Lemma total_update_le g p f t :
  (∀ k r, t !! k = Some r → p r = true → g (f r) ≤ g r) → total g (update_where p f t) ≤ total g t.
Proof.
  unfold total, rows, update_where. rewrite map_to_list_fmap, <-list_fmap_compose.
  intros Hle.
  assert (Hl : ∀ r, r ∈ (map_to_list t).*2 → p r = true → g (f r) ≤ g r).
  { intros r ([k r'] & -> & Hin)%list_elem_of_fmap. apply elem_of_map_to_list in Hin.
    by eapply Hle. }
  clear Hle. change (((λ r, if p r then f r else r) ∘ snd) <$> map_to_list t)
    with ((λ kr : string * row, if p kr.2 then f kr.2 else kr.2) <$> map_to_list t).
  induction (map_to_list t) as [|[k r] l IH]; [done|].
  assert (IH' := IH ltac:(intros r' ? ?; apply Hl; [by right|done])).
  rewrite !fmap_cons. simpl. specialize (Hl r ltac:(left)).
  destruct (p r); [specialize (Hl eq_refl)|]; lia.
Qed.

Lemma total_filter_le (P : string * row → Prop) `{!∀ x, Decision (P x)} g t :
  (∀ r, 0 ≤ g r) → total g (filter P t) ≤ total g t.
Proof.
  intros Hg. induction t as [|k r t Hk IH] using map_ind.
  { by rewrite map_filter_empty. }
  rewrite total_insert by done. destruct (decide (P (k, r))).
  - rewrite map_filter_insert_True by done.
    rewrite total_insert; [lia|]. by apply map_lookup_filter_None_2; left.
  - rewrite map_filter_insert_not' by (done || congruence). pose proof (Hg r). lia.
Qed.

Lemma count_where_total p t : count_where p t = total (λ r, if p r then 1 else 0) t.
Proof.
  unfold count_where, total. induction (rows t) as [|r l IH]; simpl; [done|].
  destruct (p r); simpl; lia.
Qed.

Lemma total_nonneg g t : (∀ r, 0 ≤ g r) → 0 ≤ total g t.
Proof. intros Hg. unfold total. induction (rows t) as [|r l IH]; simpl; [lia|]. pose proof (Hg r). lia. Qed.

(** The attempts a task may still start. *)
Definition remaining (r : row) : Z :=
  if finished r then 0 else Z.max 0 (TaskRow.max_attempts r - TaskRow.attempts r).
Definition budget (t : table) : Z := total remaining t.

Lemma remaining_nonneg r : 0 ≤ remaining r.
Proof. unfold remaining. case_if; lia. Qed.

Definition pend (r : row) : Z := if pending r then 1 else 0.

Lemma pending_count_total t : pending_count t = total pend t.
Proof. apply count_where_total. Qed.

Definition is_lease `{OptionsCodec} (e : event) : Z :=
  match e with EvLease _ _ _ _ => 1 | _ => 0 end.
(** The attempts an enqueued task is allowed. *)
Definition allowance `{OptionsCodec} (e : event) : Z :=
  match e with
  | EvEnqueue task _ _ _ =>
      if QueuedTask.MaxAttempts task <=? 0 then 3 else QueuedTask.MaxAttempts task
  | _ => 0
  end.
Definition zsum {A} (g : A → Z) (l : list A) : Z := foldr (λ x acc, g x + acc) 0 l.

Section invariants.
Context `{TzData} `{OptionsCodec}.

Lemma step_wf e t t' : wf_table t → step e t t' → wf_table t'.
Proof.
  intros Hwf Hst. pose proof Hwf as [Hk Hw]. destruct Hst as
    [t task m newid c t' Hs He|t w lease c1 c2 task t' Hl|t id w c t' Hc|
     t id w msg base c t' Hf|t id w lease c b t' Hr|t id c t' Hc|t cutoff].
  - apply EnqueueTask_inv in He as (k & r & Hnone & -> & Hid & Hst & Ha & Hm & Hwk & Hlu & Hen & _).
    apply insert_wf; [done| |done]. rewrite Hs in Hst. simpl in Hst.
    split; rewrite ?Hst, ?Ha, ?Hm, ?Hwk, ?Hlu, ?Hen; try done.
    + status_in.
    + case_if; bsplit; lia.
    + intros _. case_if; bsplit; lia.
    + unfold finished. rewrite Hst. split; [done|by intros []].
  - apply LeaseTask_inv in Hl as (r & _ & _ & Hr & Hq & -> & _); [|done].
    destruct (requeue_wf t (fmtTime c1) Hwf) as [Hk1 Hw1].
    apply insert_wf; [done| |done]. apply lease_row_wf; [by eapply Hw1|done].
  - apply finishTask_inv in Hc as (r & Hr & Hl & ->); [|done].
    apply insert_wf; [exact (Hk _ _ Hr)| |done]. apply finish_row_wf; [by eapply Hw|status_in].
  - apply FailTask_inv in Hf as (r & Hr & Hl & [[_ ->]|[Hlt ->]]); [| |done];
      apply leased_by_spec in Hl as (Hid & Hrun & _).
    + apply insert_wf; [exact (Hk _ _ Hr)| |done]. apply finish_row_wf; [by eapply Hw|status_in].
    + apply insert_wf; [exact (Hk _ _ Hr)| |done]. apply retry_row_wf; [by eapply Hw|done|done].
  - destruct (RenewTaskLease_inv t id w lease c Hk) as [[Heq _]|(r & Hr0 & Hl & Heq)];
      rewrite Heq in Hr; simplify_eq; [done|].
    apply leased_by_spec in Hl as (Hid & Hrun & _).
    apply insert_wf; [exact (Hk _ _ Hr0)| |done]. apply renew_row_wf; [by eapply Hw|done].
  - apply CancelTask_inv in Hc as (r & Hr & _ & ->); [|done].
    apply insert_wf; [exact (Hk _ _ Hr)| |done]. apply cancel_row_wf. by eapply Hw.
  - split; intros k r [Hr _]%map_lookup_filter_Some; eauto.
Qed.

Lemma exec_wf es t t' : wf_table t → exec es t t' → wf_table t'.
Proof. intros Hwf. induction 1; eauto using step_wf. Qed.

Lemma wf_empty : wf_table ∅.
Proof. split; intros k r; by rewrite lookup_empty. Qed.

Lemma reachable_wf_table t : reachable t → wf_table t.
Proof. intros [es Hes]. eapply exec_wf; [apply wf_empty|done]. Qed.

(** A finished row is left alone by everything but the retention job. *)
Lemma step_finished e t t' k r :
  wf_table t → step e t t' → t !! k = Some r → finished r = true →
  t' !! k = Some r ∨ (∃ cutoff, e = EvPrune cutoff ∧ t' !! k = None).
Proof.
  intros Hwf Hst Hkr Hfin. pose proof Hwf as [Hk Hw].
  assert (Hother : ∀ id r0, t !! id = Some r0 → finished r0 = false → ∀ r', <[id:=r']> t !! k = Some r).
  { intros id r0 Hr0 Hf0 r'. rewrite lookup_insert_ne; [done|]. intros ->. congruence. }
  assert (Hrun : ∀ id w r0, leased_by id w r0 = true → finished r0 = false).
  { intros id w r0 (_ & Hs & _)%leased_by_spec. by apply running_not_finished. }
  destruct Hst as
    [t task m newid c t' Hs He|t w lease c1 c2 task t' Hl|t id w c t' Hc|
     t id w msg base c t' Hf|t id w lease c b t' Hr|t id c t' Hc|t cutoff].
  - left. apply EnqueueTask_inv in He as (k' & r' & Hnone & -> & _).
    rewrite lookup_insert_ne by congruence. done.
  - left. apply LeaseTask_inv in Hl as (r0 & _ & _ & Hr0 & Hq & -> & _); [|done].
    assert (Hreq : requeueExpiredTx t (fmtTime c1) !! k = Some r).
    { unfold requeueExpiredTx. rewrite lookup_update_where, Hkr. simpl.
      unfold expired. case_if; [|done]. bsplit. rewrite running_not_finished in Hfin; done. }
    rewrite lookup_insert_ne; [done|]. intros <-. rewrite Hreq in Hr0. simplify_eq.
    rewrite queued_not_finished in Hfin; done.
  - left. apply finishTask_inv in Hc as (r0 & Hr0 & Hl & ->); [|done]. eauto.
  - left. apply FailTask_inv in Hf as (r0 & Hr0 & Hl & [[_ ->]|[_ ->]]); eauto.
  - left. destruct (RenewTaskLease_inv t id w lease c Hk) as [[Heq _]|(r0 & Hr0 & Hl & Heq)];
      rewrite Heq in Hr; simplify_eq; eauto.
  - left. apply CancelTask_inv in Hc as (r0 & Hr0 & Hp & ->); [|done].
    eapply Hother; [done|]. unfold pending in Hp. apply orb_true_iff in Hp as [Hp|Hp]; bsplit;
      auto using queued_not_finished, running_not_finished.
  - destruct (prune_tasks t cutoff !! k) eqn:E; [left|right; eauto].
    apply map_lookup_filter_Some in E as [E _]. congruence.
Qed.

(** Requeueing, and every later change of a row, never raises its remaining
    attempts; leasing spends one. *)
Lemma requeue_budget t now : wf_table t → budget (requeueExpiredTx t now) ≤ budget t.
Proof.
  intros [_ Hw]. apply total_update_le. intros k r Hr He. unfold expired in He. bsplit.
  unfold remaining at 2. rewrite running_not_finished by done.
  unfold remaining, finished, expire_row; simpl. case_if; [lia|]. lia.
Qed.

Lemma step_budget e t t' :
  wf_table t → step e t t' → budget t' + is_lease e ≤ budget t + allowance e.
Proof.
  intros Hwf Hst. pose proof Hwf as [Hk Hw]. unfold budget.
  assert (Hrep : ∀ id r r', t !! id = Some r → remaining r' ≤ remaining r →
    total remaining (<[id:=r']> t) + 0 ≤ total remaining t + 0).
  { intros id r r' Hr Hle. rewrite (total_replace _ _ _ r) by done. lia. }
  assert (Hlb : ∀ id w r, leased_by id w r = true → finished r = false).
  { intros id w r (_ & Hs & _)%leased_by_spec. by apply running_not_finished. }
  destruct Hst as
    [t task m newid c t' Hs He|t w lease c1 c2 task t' Hl|t id w c t' Hc|
     t id w msg base c t' Hf|t id w lease c b t' Hr|t id c t' Hc|t cutoff]; simpl is_lease; simpl allowance.
  - apply EnqueueTask_inv in He as (k & r & Hn & -> & _ & Hst & Ha & Hm & _).
    rewrite total_insert by done. unfold remaining at 1. rewrite Ha, Hm.
    destruct (finished r); case_if; bsplit; lia.
  - apply LeaseTask_inv in Hl as (r & _ & _ & Hr & Hq & -> & _); [|done].
    rewrite (total_replace _ _ _ r) by done.
    pose proof (requeue_budget t (fmtTime c1) Hwf) as Hb. unfold budget in Hb.
    destruct (requeue_wf t (fmtTime c1) Hwf) as [_ Hw1].
    pose proof (wf_queued r (Hw1 _ _ Hr) Hq).
    assert (remaining r = TaskRow.max_attempts r - TaskRow.attempts r) as ->.
    { unfold remaining. rewrite queued_not_finished by done. lia. }
    assert (remaining (lease_row (fmtTime (c2 + lease_default lease)) w (fmtTime c1) r)
      = TaskRow.max_attempts r - TaskRow.attempts r - 1) as ->.
    { unfold remaining, finished, lease_row; simpl. lia. }
    lia.
  - apply finishTask_inv in Hc as (r & Hr & Hl & ->); [|done]. eapply Hrep; [done|].
    unfold remaining at 1. simpl. apply remaining_nonneg.
  - apply FailTask_inv in Hf as (r & Hr & Hl & [[_ ->]|[_ ->]]); [| |done]; (eapply Hrep; [done|]).
    + unfold remaining at 1. simpl. apply remaining_nonneg.
    + unfold remaining. rewrite (Hlb _ _ _ Hl). unfold finished, retry_row; simpl. lia.
  - destruct (RenewTaskLease_inv t id w lease c Hk) as [[Heq _]|(r & Hr0 & Hl & Heq)];
      rewrite Heq in Hr; simplify_eq; [lia|]. eapply Hrep; [done|].
    unfold remaining, finished, renew_row; simpl. lia.
  - apply CancelTask_inv in Hc as (r & Hr & _ & ->); [|done]. eapply Hrep; [done|].
    unfold remaining at 1. simpl. apply remaining_nonneg.
  - pose proof (total_filter_le (λ kr, _ kr.2 = false) remaining t remaining_nonneg
      : total remaining (prune_tasks t cutoff) ≤ _). lia.
Qed.

(** Only [EnqueueTask] adds a pending task, and it checks the capacity. *)
Lemma step_pending e t t' :
  wf_table t → step e t t' →
  pending_count t' ≤ pending_count t ∨
  ∃ task m newid c, e = EvEnqueue task m newid c ∧ (0 < m → pending_count t' ≤ m).
Proof.
  intros Hwf Hst. pose proof Hwf as [Hk Hw]. rewrite !pending_count_total.
  assert (Hp01 : ∀ r, 0 ≤ pend r ≤ 1) by (intros r; unfold pend; case_if; lia).
  assert (Hrep : ∀ id r r', t !! id = Some r → pending r = true →
    total pend (<[id:=r']> t) ≤ total pend t).
  { intros id r r' Hr Hp. rewrite (total_replace _ _ _ r) by done.
    pose proof (Hp01 r'). unfold pend at 2. rewrite Hp. lia. }
  assert (Hlb : ∀ id w r, leased_by id w r = true → pending r = true).
  { intros id w r (_ & Hs & _)%leased_by_spec. unfold pending. by rewrite Hs. }
  destruct Hst as
    [t task m newid c t' Hs He|t w lease c1 c2 task t' Hl|t id w c t' Hc|
     t id w msg base c t' Hf|t id w lease c b t' Hr|t id c t' Hc|t cutoff].
  - right. exists task, m, newid, c. split; [done|]. intros Hm.
    apply EnqueueTask_inv in He as (k & r & Hn & -> & _ & _ & _ & _ & _ & _ & _ & Hcap).
    rewrite total_insert by done. rewrite pending_count_total in Hcap.
    specialize (Hcap Hm). pose proof (Hp01 r). lia.
  - left. apply LeaseTask_inv in Hl as (r & _ & _ & Hr & Hq & -> & _); [|done].
    rewrite (total_replace _ _ _ r) by done.
    assert (total pend (requeueExpiredTx t (fmtTime c1)) ≤ total pend t).
    { apply total_update_le. intros k r0 _ He. pose proof (Hp01 (expire_row (fmtTime c1) r0)).
      unfold expired in He. bsplit. unfold pend at 2, pending. rewrite H2. simpl. lia. }
    pose proof (Hp01 (lease_row (fmtTime (c2 + lease_default lease)) w (fmtTime c1) r)).
    unfold pend at 2, pending. rewrite Hq. simpl. lia.
  - left. apply finishTask_inv in Hc as (r & Hr & Hl & ->); [|done]. eauto.
  - left. apply FailTask_inv in Hf as (r & Hr & Hl & [[_ ->]|[_ ->]]); eauto.
  - left. destruct (RenewTaskLease_inv t id w lease c Hk) as [[Heq _]|(r & Hr0 & Hl & Heq)];
      rewrite Heq in Hr; simplify_eq; [lia|]. eauto.
  - left. apply CancelTask_inv in Hc as (r & Hr & Hp & ->); [|done]. eauto.
  - left. apply total_filter_le. intros r. apply Hp01.
Qed.
End invariants.

(** ** Properties *)

Section properties.
Context `{TzData} `{OptionsCodec}.

Lemma lease_succeeds t w lease c1 c2 k r :
  reachable t → w ≠ "" →
  (∀ k r, t !! k = Some r → is_Some (options_unmarshal (TaskRow.options_json r))) →
  requeueExpiredTx t (fmtTime c1) !! k = Some r → claimable (fmtTime c1) r = true →
  is_ok (LeaseTask t w lease c1 c2) = true.
Proof.
  intros [Hk _]%reachable_wf_table Hw Hopts Hr Hc. unfold LeaseTask.
  rewrite (proj2 (String.eqb_neq _ _)) by done.
  set (now := fmtTime c1) in *. set (t1 := requeueExpiredTx t now) in *.
  assert (Hk1 : keyed t1) by by apply requeue_keyed.
  destruct (select_claim t1 now) as [b|] eqn:Hs.
  2: { rewrite select_claim_None in Hs. rewrite (Hs _ _ Hr) in Hc. done. }
  destruct (select_claim_Some _ _ _ Hs) as (Hin & Hcb & _).
  apply elem_of_rows in Hin as [kb Hkb]. pose proof (Hk1 _ _ Hkb) as Hid. subst kb.
  unfold claimable in Hcb. bsplit.
  rewrite (count_where_id t1 (TaskRow.id b) (λ r, (TaskRow.status r =? TaskQueued)%string)), Hkb,
    (proj2 (String.eqb_eq _ _)) by done. simpl negb. cbn iota.
  rewrite (update_where_id (TaskRow.id b) (λ r, (TaskRow.status r =? TaskQueued)%string) _ t1 b)
    by (done || by apply String.eqb_eq).
  unfold GetTask. rewrite lookup_insert_eq. unfold scanTask. simpl.
  assert (is_Some (options_unmarshal (TaskRow.options_json b))) as [o ->]; [|done].
  unfold t1, requeueExpiredTx in Hkb. rewrite lookup_update_where, fmap_Some in Hkb.
  destruct Hkb as (r0 & Hr0 & ->). case_if; simpl; by eapply Hopts.
Qed.

(** C1: in every table reachable by any interleaving of enqueues, leases,
    completions, failures, renewals, cancellations and retention runs, each
    row is stored under its id, has been attempted at most [max_attempts]
    times (strictly fewer while it is queued), is leased by a worker exactly
    while it runs, and has an end time exactly when it is completed, dead or
    canceled. *)
Theorem queue_invariant t k r :
  reachable t → t !! k = Some r →
  TaskRow.id r = k
  ∧ 0 ≤ TaskRow.attempts r ≤ TaskRow.max_attempts r
  ∧ (TaskRow.status r = TaskQueued → TaskRow.attempts r < TaskRow.max_attempts r)
  ∧ (TaskRow.status r = TaskRunning ↔ is_Some (TaskRow.worker_id r))
  ∧ (is_Some (TaskRow.worker_id r) ↔ is_Some (TaskRow.lease_until r))
  ∧ (finished r = true ↔ is_Some (TaskRow.ended_at r)).
Proof.
  intros Hr Hk. destruct (reachable_wf_table t Hr) as [Hkeyed Hw].
  specialize (Hkeyed _ _ Hk). destruct (Hw _ _ Hk) as [_ Ha Hq Hrun Hidle Hend].
  do 3 (split; [done|]).
  destruct (decide (TaskRow.status r = TaskRunning)) as [E|E].
  - destruct (Hrun E) as (_ & ? & ? & _). tauto.
  - destruct (Hidle E) as [-> ->].
    assert (¬ is_Some (@None string)) by apply is_Some_None. tauto.
Qed.

(** A completed, dead or canceled task is never changed again by any
    sequence of operations, short of the retention job deleting it. *)
Theorem finished_is_final es t t' k r :
  reachable t → exec es t t' → (∀ cutoff, EvPrune cutoff ∉ es) →
  t !! k = Some r → finished r = true → t' !! k = Some r.
Proof.
  intros Hr%reachable_wf_table Hex. revert Hr.
  induction Hex as [|e es t1 t2 t3 Hst Hex IH]; intros Hwf Hnp Hk Hfin; [done|].
  apply IH; [by eapply step_wf|set_solver| |done].
  destruct (step_finished _ _ _ _ _ Hwf Hst Hk Hfin) as [?|(c & -> & _)]; [done|].
  exfalso. eapply Hnp. left.
Qed.

(** C4: the number of leases ever granted is at most the number of attempts
    the enqueued tasks allow, however workers crash, time out, fail or
    retry: the queue cannot run a task forever. *)
Theorem leases_bounded es t :
  exec es ∅ t → zsum is_lease es ≤ zsum allowance es.
Proof.
  intros Hex.
  assert (Hg : ∀ t0, wf_table t0 → exec es t0 t →
    budget t + zsum is_lease es ≤ budget t0 + zsum allowance es).
  { clear Hex. intros t0 Hwf Hex. induction Hex as [|e es t1 t2 t3 Hst Hex IH]; simpl; [lia|].
    specialize (IH (step_wf _ _ _ Hwf Hst)). pose proof (step_budget _ _ _ Hwf Hst).
    unfold zsum in *. simpl. lia. }
  pose proof (Hg ∅ wf_empty Hex) as Hb.
  pose proof (total_nonneg remaining t remaining_nonneg).
  unfold budget in Hb. rewrite (total_empty remaining) in Hb. lia.
Qed.


(** a successful lease takes a task that is queued and due once the
    expired leases are requeued, and none that is due precedes it in the
    order (higher priority, then earlier creation, then smaller id); the task
    now runs for this worker with one more attempt, and every other row is
    as the requeueing left it. *)
Theorem LeaseTask_claims_best t w lease c1 c2 task t' :
  reachable t → LeaseTask t w lease c1 c2 = Ok (task, t') →
  let now := fmtTime c1 in
  let t1 := requeueExpiredTx t now in
  ∃ r, t1 !! QueuedTask.ID task = Some r
    ∧ claimable now r = true
    ∧ (∀ k r', t1 !! k = Some r' → claimable now r' = true → claim_less r' r = false)
    ∧ QueuedTask.Status task = TaskRunning
    ∧ QueuedTask.WorkerID task = w
    ∧ QueuedTask.Attempts task = TaskRow.attempts r + 1
    ∧ t' !! QueuedTask.ID task = Some (lease_row (fmtTime (c2 + lease_default lease)) w now r)
    ∧ (∀ k, k ≠ QueuedTask.ID task → t' !! k = t1 !! k).
Proof.
  intros [Hk _]%reachable_wf_table Hl. cbn zeta.
  apply LeaseTask_inv in Hl as (r & _ & Hsel & Hr & Hq & -> & Hsc); [|done].
  destruct (select_claim_Some _ _ _ Hsel) as (_ & Hc & Hbest).
  apply scanTask_inv in Hsc as (-> & -> & -> & _ & ->). exists r. simpl.
  split; [done|]. split; [done|]. split.
  { intros k r' Hr' Hc'. apply Hbest; [|done]. apply elem_of_rows. eauto. }
  do 3 (split; [done|]). split; [by rewrite lookup_insert_eq|].
  intros k Hne. by rewrite lookup_insert_ne.
Qed.

(** a due task is always served: when some task is queued and due (after
    the expired leases are requeued) and the stored options decode, a lease
    by a named worker succeeds. *)
Theorem LeaseTask_progress t w lease c1 c2 k r :
  reachable t → w ≠ "" →
  (∀ k r, t !! k = Some r → is_Some (options_unmarshal (TaskRow.options_json r))) →
  requeueExpiredTx t (fmtTime c1) !! k = Some r → claimable (fmtTime c1) r = true →
  is_ok (LeaseTask t w lease c1 c2) = true.
Proof. apply lease_succeeds. Qed.

(** C3: a worker that does not hold the lease of a task (it expired and was
    requeued, another worker leased it, or it was canceled) cannot complete,
    fail or extend it: the calls report it and change nothing. *)
Theorem stale_worker_rejected t id w msg base lease c :
  reachable t → (∀ r, t !! id = Some r → leased_by id w r = false) →
  is_ok (CompleteTask t id w c) = false
  ∧ is_ok (FailTask t id w msg base c) = false
  ∧ RenewTaskLease t id w lease c = (false, t).
Proof.
  intros Hwf%reachable_wf_table Hn. pose proof Hwf as [Hk _]. repeat split.
  - unfold CompleteTask. destruct (finishTask _ _ _ _ _ _) eqn:E; [|done].
    apply finishTask_inv in E as (r & Hr & Hl & _); [|done]. rewrite Hn in Hl; done.
  - destruct (FailTask _ _ _ _ _ _) eqn:E; [|done].
    apply FailTask_inv in E as (r & Hr & Hl & _); [|done]. rewrite Hn in Hl; done.
  - destruct (RenewTaskLease_inv t id w lease c Hk) as [[? _]|(r & Hr & Hl & _)]; [done|].
    rewrite Hn in Hl; done.
Qed.
End properties.
