(* ===== verification/TaskLease.v ===== *)
(** * Leases, retries and pages over time

    What the queue guarantees about instants: a lease that has not ended
    excludes every other worker, a failed task becomes due again exactly after
    its back-off, the listing pages enumerate the table.  The statements are
    about [storable] instants, those whose text sorts as the instant does. *)
From S2P Require Import Prelude Sql GoStr GoFloat GoTime Model Tasks TaskQueue.

(** ** Pages *)

#[export] Instance page_cmp_comparator : Comparator (λ _ : row, True) page_cmp.
Proof. unfold page_cmp. apply _. Qed.

Lemma page_cmp_key x y : page_cmp x y = Eq → TaskRow.id x = TaskRow.id y.
Proof.
  unfold page_cmp. destruct (String.compare (TaskRow.created_at y) _); try done.
  simpl. intros Hc. symmetry. by apply String.compare_eq_iff.
Qed.

Section pages.
Context `{TzData} `{OptionsCodec}.

(** A client that follows the cursor: it asks for pages until one is empty,
    each after the last task of the page before. *)
Fixpoint follow (fuel : nat) (t : table) (jobs : gmap string string) (limit : Z)
    (status cursor tenant : string) : result (list QueuedTask.t) :=
  match fuel with
  | O => Ok []
  | S fuel =>
      let! page := ListTasksPageTenant t jobs limit status cursor tenant in
      match last page with
      | None => Ok []
      | Some task =>
          let! more := follow fuel t jobs limit status (QueuedTask.ID task) tenant in
          Ok (page ++ more)
      end
  end.

Definition decodable (t : table) : Prop :=
  ∀ k r, t !! k = Some r → is_Some (options_unmarshal (TaskRow.options_json r)).

Lemma scan_all_app l1 l2 :
  scan_all (l1 ++ l2) =
  (let! a := scan_all l1 in let! b := scan_all l2 in Ok (a ++ b)).
Proof.
  induction l1 as [|r l1 IH]; simpl; [by destruct (scan_all l2)|].
  destruct (scanTask r); simpl; [|done]. rewrite IH.
  destruct (scan_all l1); simpl; [|done]. by destruct (scan_all l2).
Qed.

Lemma scan_all_ok t l :
  decodable t → (∀ r, r ∈ l → r ∈ rows t) →
  ∃ out, scan_all l = Ok out ∧ QueuedTask.ID <$> out = TaskRow.id <$> l.
Proof.
  intros Hd Hl. induction l as [|r l IH]; simpl; [by exists []|].
  destruct IH as (out & -> & Hout); [intros; apply Hl; by right|].
  destruct (scanTask r) as [task|] eqn:E; simpl.
  - exists (task :: out). split; [done|]. destruct (scanTask_inv _ _ E) as [Hid _].
    rewrite !fmap_cons. by rewrite Hid, Hout.
  - exfalso. destruct (proj1 (elem_of_rows t r) (Hl r ltac:(left))) as [k Hk].
    destruct (Hd _ _ Hk) as [o Ho]. unfold scanTask in E. by rewrite Ho in E.
Qed.

Definition page_size (limit : Z) : nat :=
  Z.to_nat (if (limit <=? 0) || (101 <? limit) then 31 else limit).

Lemma page_size_pos limit : (0 < page_size limit)%nat.
Proof. unfold page_size. case_if; [lia|]. bsplit. lia. Qed.

Lemma follow_rest t jobs limit status tenant cursor pre post fuel :
  keyed t → decodable t → t !! "" = None →
  listing page_cmp (taskFilters jobs status tenant) t = pre ++ post →
  (cursor = "" ∧ pre = [] ∨
   ∃ pre' x, pre = pre' ++ [x] ∧ cursor = TaskRow.id x) →
  (length post < fuel)%nat →
  follow fuel t jobs limit status cursor tenant = scan_all post.
Proof.
  intros Hk Hd Hne Hl Hc Hf.
  revert cursor pre post Hl Hc Hf; induction fuel as [|fuel IH]; intros cursor pre post Hl Hc Hf;
    [lia|].
  assert (Hin : ∀ r, r ∈ pre ++ post → r ∈ rows t).
  { intros r. rewrite <-Hl, elem_of_listing. tauto. }
  assert (Hpage : ListTasksPageTenant t jobs limit status cursor tenant =
    scan_all (take (page_size limit) post)).
  { unfold ListTasksPageTenant. destruct Hc as [[-> ->]|(pre' & x & -> & ->)].
    - simpl rbind. f_equal. unfold select_page. f_equal. simpl in Hl. rewrite <-Hl. unfold listing. f_equal.
      apply List.filter_ext. intros r. by rewrite andb_true_r.
    - assert (Hx : x ∈ listing page_cmp (taskFilters jobs status tenant) t) by (rewrite Hl; set_solver).
      apply elem_of_listing in Hx as [[k Hk']%elem_of_rows Hfx].
      pose proof (Hk _ _ Hk') as Hid. subst k.
      destruct (String.eqb_spec (TaskRow.id x) "") as [E|_]; [rewrite E in Hk'; congruence|].
      rewrite Hk'. apply andb_prop in Hfx as [_ Hfx]. unfold taskFilters at 1. rewrite Hfx.
      simpl rbind. f_equal. unfold select_page. f_equal.
      eapply (page_after page_cmp page_cmp_key); [done|]. rewrite Hl. by rewrite <-app_assoc. }
  simpl. rewrite Hpage.
  destruct (scan_all_ok t (take (page_size limit) post)) as (page & Hs & Hids); [done| |].
  { intros r Hr. apply Hin. rewrite <-(take_drop (page_size limit) post). set_solver. }
  rewrite Hs. simpl. pose proof (page_size_pos limit) as Hpos.
  assert (Hlast : QueuedTask.ID <$> last page = TaskRow.id <$> last (take (page_size limit) post)).
  { by rewrite <-!fmap_last, Hids. }
  destruct (last page) as [task|] eqn:Elast.
  - destruct (last (take _ post)) as [x|] eqn:Ex; [|done]. injection Hlast as Hid.
    apply last_Some in Ex as [l' Hl'].
    assert (Hlen : (0 < length post)%nat).
    { destruct post; simpl; [by rewrite take_nil in Hl'; destruct l'|lia]. }
    rewrite (IH _ (pre ++ take (page_size limit) post) (drop (page_size limit) post)).
    + rewrite <-(take_drop (page_size limit) post) at 2. rewrite scan_all_app, Hs. done.
    + by rewrite <-app_assoc, take_drop.
    + right. exists (pre ++ l'), x. by rewrite Hl', app_assoc.
    + rewrite length_drop. lia.
  - destruct (last (take _ post)) as [x|] eqn:Ex; [done|].
    apply last_None in Ex. destruct post; [done|]. destruct (page_size limit); [lia|done].
Qed.
End pages.

Section properties.
Context `{TzShanghai} `{OptionsCodec}.

(** C7: following the cursor from the start, at any page size, returns every
    task that passes the filters exactly once, newest first, and as many as
    [CountTasksTenant] counts. *)
Theorem pages_enumerate t jobs limit status tenant fuel :
  reachable t → decodable t → t !! "" = None →
  (length (listing page_cmp (taskFilters jobs status tenant) t) < fuel)%nat →
  ∃ out, follow fuel t jobs limit status "" tenant = Ok out
    ∧ QueuedTask.ID <$> out = TaskRow.id <$> listing page_cmp (taskFilters jobs status tenant) t
    ∧ NoDup (QueuedTask.ID <$> out)
    ∧ (∀ k, k ∈ QueuedTask.ID <$> out ↔
         ∃ r, t !! k = Some r ∧ taskFilters jobs status tenant r = true)
    ∧ Z.of_nat (length out) = CountTasksTenant t jobs status tenant.
Proof.
  intros [Hk _]%reachable_wf_table Hd Hne Hf.
  destruct (scan_all_ok t (listing page_cmp (taskFilters jobs status tenant) t) Hd) as (out & Hs & Hids).
  { intros r. rewrite elem_of_listing. tauto. }
  exists out. rewrite (follow_rest _ _ _ _ _ _ [] (listing page_cmp (taskFilters jobs status tenant) t)); auto.
  split; [done|]. split; [done|]. rewrite Hids. split; [|split].
  - apply NoDup_fmap_2_strong; [|by apply (listing_NoDup (key := TaskRow.id) page_cmp)].
    intros x y. rewrite !elem_of_listing. intros [? _] [? _]. by apply (rows_NoDup_id t).
  - intros k. rewrite list_elem_of_fmap. split.
    + intros (r & -> & [[k' Hr]%elem_of_rows Hp]%elem_of_listing).
      exists r. by rewrite (Hk _ _ Hr).
    + intros (r & Hr & Hp). exists r. rewrite (Hk _ _ Hr). split; [done|].
      apply elem_of_listing. split; [|done]. apply elem_of_rows. eauto.
  - apply (f_equal length) in Hids. rewrite !length_fmap in Hids.
    unfold CountTasksTenant, count_where. rewrite Hids. unfold listing.
    by rewrite length_stable_sort.
Qed.

Lemma running_expired now r u :
  TaskRow.status r = TaskRunning → TaskRow.lease_until r = Some u →
  expired now r = String.ltb u now.
Proof. intros Hs Hu. unfold expired. by rewrite Hs, Hu. Qed.

(** C2: while the lease of a running task has not ended, no worker is granted
    that task: whatever a lease call returns, it is another task, and the row
    of the leased one is unchanged. *)
Theorem lease_exclusive t k r u w lease c1 c2 task t' :
  reachable t → t !! k = Some r →
  TaskRow.status r = TaskRunning → TaskRow.lease_until r = Some (fmtTime u) →
  storable u → storable c1 → c1 ≤ u →
  LeaseTask t w lease c1 c2 = Ok (task, t') →
  QueuedTask.ID task ≠ k ∧ t' !! k = Some r.
Proof.
  intros Hwf%reachable_wf_table Hr Hrun Hu Hsu Hsc Hle Hl. pose proof Hwf as [Hk _].
  apply LeaseTask_inv in Hl as (b & _ & _ & Hb & Hq & -> & Hsc'); [|done].
  destruct (scanTask_inv _ _ Hsc') as [-> _].
  assert (Hreq : requeueExpiredTx t (fmtTime c1) !! k = Some r).
  { unfold requeueExpiredTx. rewrite lookup_update_where, Hr. simpl.
    rewrite (running_expired _ _ _ Hrun Hu), fmtTime_ltb by done.
    by rewrite (proj2 (Z.ltb_ge _ _)). }
  simpl. assert (TaskRow.id b ≠ k) as Hne.
  { intros <-. rewrite Hreq in Hb. injection Hb as <-. rewrite Hrun in Hq. done. }
  split; [done|]. by rewrite lookup_insert_ne.
Qed.

(** C5: a task whose worker died is recovered: once its lease has ended and
    attempts remain, the next lease call succeeds and the task is either
    leased again, for the caller, or back in the queue without a worker. *)
Theorem expired_lease_recovered t k r u w lease c1 c2 :
  reachable t → decodable t → w ≠ "" → t !! k = Some r →
  TaskRow.status r = TaskRunning → TaskRow.lease_until r = Some (fmtTime u) →
  storable u → storable c1 → u < c1 → TaskRow.attempts r < TaskRow.max_attempts r →
  ∃ task t' r', LeaseTask t w lease c1 c2 = Ok (task, t') ∧ t' !! k = Some r'
    ∧ (QueuedTask.ID task = k ∧ TaskRow.status r' = TaskRunning
         ∧ TaskRow.worker_id r' = Some w ∧ TaskRow.attempts r' = TaskRow.attempts r + 1
       ∨ QueuedTask.ID task ≠ k ∧ TaskRow.status r' = TaskQueued
         ∧ TaskRow.worker_id r' = None ∧ TaskRow.attempts r' = TaskRow.attempts r).
Proof.
  intros Hreach Hd Hw Hr Hrun Hu Hsu Hsc Hlt Ha.
  pose proof (reachable_wf_table _ Hreach) as Hwf. pose proof Hwf as [Hk _].
  assert (Hreq : requeueExpiredTx t (fmtTime c1) !! k = Some (expire_row (fmtTime c1) r)).
  { unfold requeueExpiredTx. rewrite lookup_update_where, Hr. simpl.
    rewrite (running_expired _ _ _ Hrun Hu), fmtTime_ltb by done.
    by rewrite (proj2 (Z.ltb_lt _ _)). }
  assert (Hq : TaskRow.status (expire_row (fmtTime c1) r) = TaskQueued).
  { unfold expire_row. rewrite (proj2 (Z.leb_gt _ _)) by done. done. }
  assert (Hc : claimable (fmtTime c1) (expire_row (fmtTime c1) r) = true).
  { unfold claimable. rewrite Hq. simpl. rewrite fmtTime_leb by done. apply Z.leb_refl. }
  pose proof (lease_succeeds t w lease c1 c2 k _ Hreach Hw Hd Hreq Hc) as Hok.
  destruct (LeaseTask t w lease c1 c2) as [[task t']|] eqn:El; [|done].
  apply LeaseTask_inv in El as (b & _ & _ & Hb & Hqb & -> & Hsc'); [|done].
  destruct (scanTask_inv _ _ Hsc') as [Hid _]. simpl in Hid.
  destruct (decide (TaskRow.id b = k)) as [<-|Hne].
  - rewrite Hreq in Hb. injection Hb as <-.
    eexists _, _, _. split; [done|]. rewrite lookup_insert_eq. split; [done|]. left.
    by rewrite Hid.
  - eexists _, _, _. split; [done|]. rewrite lookup_insert_ne by done. split; [done|]. right.
    by rewrite Hid, Hq.
Qed.

(** a queue whose pending tasks have all used their attempts is stuck:
    no lease call, at any time, succeeds or retires them (the statement that
    would is rolled back with the empty selection), and at capacity no task
    can be enqueued. *)
Theorem exhausted_tasks_block t m :
  reachable t →
  (∀ k r, t !! k = Some r → pending r = true →
    TaskRow.status r = TaskRunning ∧ TaskRow.attempts r = TaskRow.max_attempts r) →
  0 < m ≤ pending_count t →
  (∀ w lease c1 c2, is_ok (LeaseTask t w lease c1 c2) = false)
  ∧ (∀ task newid c, is_ok (EnqueueTask t task m newid c) = false).
Proof.
  intros [Hk _]%reachable_wf_table Hex Hm. split.
  - intros w lease c1 c2. destruct (LeaseTask _ _ _ _ _) as [[task t']|] eqn:El; [|done].
    apply LeaseTask_inv in El as (b & _ & _ & Hb & Hq & _); [|done]. exfalso.
    unfold requeueExpiredTx in Hb. rewrite lookup_update_where, fmap_Some in Hb.
    destruct Hb as (r & Hr & Heq). destruct (expired (fmtTime c1) r) eqn:Ee; subst b.
    + destruct (Hex _ _ Hr) as [_ Ha].
      { unfold expired in Ee. bsplit. unfold pending. by rewrite H2. }
      unfold expire_row in Hq. rewrite Ha, Z.leb_refl in Hq. done.
    + destruct (Hex _ _ Hr) as [Hrun _]; [by unfold pending; rewrite Hq|].
      rewrite Hrun in Hq. done.
  - intros task newid c. unfold EnqueueTask.
    rewrite (proj2 (Z.ltb_lt 0 m)), (proj2 (Z.leb_le m (pending_count t))) by lia.
    destruct (_ =? "")%string; [done|]. by destruct (options_marshal _).
Qed.

(** A failed task with attempts left is retried with exponential
    back-off: it is queued again without a worker, and at an instant [c'] it
    is due exactly when [2^(attempts-1)] times the base (5 s by default) has
    passed since the failure. *)
Theorem retry_backoff t id w msg base c t' r c' :
  reachable t → t !! id = Some r → TaskRow.attempts r < TaskRow.max_attempts r →
  let base' := if base <=? 0 then 5 * Second else base in
  let delay := 2 ^ (TaskRow.attempts r - 1) * base' in
  TaskRow.attempts r ≤ 63 → delay < 2 ^ 63 →
  storable (c + delay) → storable c' →
  FailTask t id w msg base c = Ok t' →
  ∃ r', t' !! id = Some r' ∧ TaskRow.status r' = TaskQueued
    ∧ TaskRow.worker_id r' = None ∧ TaskRow.last_error r' = Some msg
    ∧ TaskRow.attempts r' = TaskRow.attempts r
    ∧ claimable (fmtTime c') r' = (c + delay <=? c').
Proof.
  intros Hreach Hr Ha base' delay Hcap Hd Hs1 Hs2 Hf.
  pose proof (reachable_wf_table _ Hreach) as Hwf. pose proof Hwf as [_ Hw].
  apply FailTask_inv in Hf as (r0 & Hr0 & Hl & [[Hge _]|[_ ->]]); [| |done]; simplify_eq; [lia|].
  apply leased_by_spec in Hl as (_ & Hrun & _).
  destruct (wf_running r (Hw _ _ Hr) Hrun) as [Hpos _].
  assert (Hdelay : retry_delay (TaskRow.attempts r) base = delay).
  { unfold retry_delay, pow2_duration. fold base'.
    rewrite (proj2 (Z.ltb_ge _ _)), (proj2 (Z.ltb_lt _ _)) by lia.
    apply wrap64_id. unfold int64_range. fold delay. split; [|done].
    assert (0 < 2 ^ (TaskRow.attempts r - 1)) by (apply Z.pow_pos_nonneg; lia).
    assert (0 < base') by (unfold base', Second; case_if; bsplit; lia).
    unfold delay. nia. }
  rewrite Hdelay, lookup_insert_eq. eexists. split; [done|]. do 4 (split; [done|]).
  unfold claimable; simpl. by apply fmtTime_leb.
Qed.
End properties.
