(* ===== verification/Worker.v ===== *)
(** * The workers of the queue: [internal/queue/queue.go]

    The goroutines of a [Queue] over the durable table of [Tasks.v], as a state
    machine: a worker waits, leases a task, runs it while its heartbeat renews
    the lease, and records the result.  Each call on the database is one step
    and takes no time; the runner is a parameter, which may return at any
    time with any result.  Errors of the database driver, the log and the
    status page are not modelled.

    ** One worker per task

    While the heartbeats keep up, the workers of a queue never run one task
    twice at a time, and a result is recorded unless the task was canceled.
    Whatever they do is a sequence of operations of the durable queue. *)
From S2P Require Import Prelude Sql GoStr GoFloat GoTime Model Tasks TaskQueue TaskLease.

(** [Options] *)
Module Options.
Record t := mk {
  Workers : Z;
  Lease : Duration;
  Poll : Duration;
  RetryBase : Duration;
  WorkerID : string;
}.
End Options.

(** [New], on the store and the runner it needs; [default_id] is what
    [defaultWorkerID] makes of the clock. *)
Definition default_id (nanos : Z) : string := "worker-" +:+ Itoa nanos.
Definition pos_or (d n : Z) : Z := if n <=? 0 then d else n.
Definition New (o : Options.t) (nanos : Z) : result Options.t :=
  let workers := pos_or 1 (Options.Workers o) in
  if 64 <? workers then Err (ErrMsg "workers must not exceed 64")
  else
    Ok (Options.mk workers (pos_or (2 * Minute) (Options.Lease o))
          (pos_or (500 * Millisecond) (Options.Poll o)) (pos_or (5 * Second) (Options.RetryBase o))
          (if (Options.WorkerID o =? "")%string then default_id nanos else Options.WorkerID o)).

(** The names of the goroutines that [Start] starts *)
Definition worker_name (o : Options.t) (i : Z) : string :=
  Options.WorkerID o +:+ "-" +:+ Itoa (i + 1).
Definition worker_names (o : Options.t) : list string :=
  worker_name o <$> seqZ 0 (Options.Workers o).

(** The interval of the heartbeat *)
Definition interval (o : Options.t) : Duration := Z.max (Options.Lease o ÷ 3) Second.

(** A goroutine of [loop]: waiting for its timer; in [run], with the next tick
    of the heartbeat ([None] once the heartbeat has ended); or gone. *)
Inductive worker `{OptionsCodec} :=
  | Waiting (wake : Time)
  | Running (task : QueuedTask.t) (beat : option Time)
  | Exited.

Module Queue.
Record t `{OptionsCodec} := mk {
  tasks : table;
  now : Time;
  workers : gmap string worker;
  active : Z;
  stopped : bool;
}.
Arguments t {_}.
Arguments mk {_}.
#[export] Instance eta `{OptionsCodec} : Eta t :=
  λ q, mk (tasks q) (now q) (workers q) (active q) (stopped q).
End Queue.
Export (hints) Queue.

(** Who runs an operation of the table, if a worker *)
Definition actor `{OptionsCodec} (e : event) : option string :=
  match e with
  | EvLease w _ _ _ | EvComplete _ w _ | EvFail _ w _ _ _ | EvRenew _ w _ _ => Some w
  | _ => None
  end.

Section workers.
Context `{TzData} `{OptionsCodec} (o : Options.t).

Definition set_worker (w : string) (s : worker) (q : Queue.t) : Queue.t :=
  q <| Queue.workers := <[w := s]> (Queue.workers q) |>.

(** [Start] *)
Definition Start (t : table) (now : Time) : Queue.t :=
  Queue.mk t now (list_to_map ((λ w, (w, Waiting now)) <$> worker_names o)) 0 false.

(** The end of [run]: what the runner returned is recorded, or the error of
    recording it is logged. *)
Definition record_result (t : table) (task : QueuedTask.t) (w : string) (err : option string)
    (now : Time) : table :=
  let res := match err with
             | None => CompleteTask t (QueuedTask.ID task) w now
             | Some message => FailTask t (QueuedTask.ID task) w message (Options.RetryBase o) now
             end in
  match res with Ok t' => t' | Err _ => t end.

(** An operation of another process on the same table, at the same clock; the
    retention job, which runs at a distance of days, is left out. *)
Definition foreign (q : Queue.t) (e : event) : Prop :=
  (∀ w, actor e = Some w → w ∉ dom (Queue.workers q)) ∧
  match e with
  | EvPrune _ => False
  | EvLease _ _ c1 _ => c1 = Queue.now q
  | _ => True
  end.

Inductive qstep : Queue.t → Queue.t → Prop :=
  (** [loop]: the timer fires *)
  | q_poll q w wake e :
      Queue.workers q !! w = Some (Waiting wake) → wake ≤ Queue.now q → Queue.stopped q = false →
      LeaseTask (Queue.tasks q) w (Options.Lease o) (Queue.now q) (Queue.now q) = Err e →
      qstep q (set_worker w (Waiting (Queue.now q + Options.Poll o)) q)
  | q_lease q w wake task t' :
      Queue.workers q !! w = Some (Waiting wake) → wake ≤ Queue.now q → Queue.stopped q = false →
      LeaseTask (Queue.tasks q) w (Options.Lease o) (Queue.now q) (Queue.now q) = Ok (task, t') →
      qstep q (set_worker w (Running task (Some (Queue.now q + interval o))) q
        <| Queue.tasks := t' |> <| Queue.active := Queue.active q + 1 |>)
  (** [heartbeat]: the ticker fires, or the run is cancelled *)
  | q_renew q w task beat t' :
      Queue.workers q !! w = Some (Running task (Some beat)) → beat ≤ Queue.now q →
      RenewTaskLease (Queue.tasks q) (QueuedTask.ID task) w (Options.Lease o) (Queue.now q) = (true, t') →
      qstep q (set_worker w (Running task (Some (beat + interval o))) q <| Queue.tasks := t' |>)
  | q_lost q w task beat t' :
      Queue.workers q !! w = Some (Running task (Some beat)) → beat ≤ Queue.now q →
      RenewTaskLease (Queue.tasks q) (QueuedTask.ID task) w (Options.Lease o) (Queue.now q) = (false, t') →
      qstep q (set_worker w (Running task None) q <| Queue.tasks := t' |>)
  | q_quiet q w task beat :
      Queue.workers q !! w = Some (Running task beat) → Queue.stopped q = true →
      qstep q (set_worker w (Running task None) q)
  (** [run]: the runner returns *)
  | q_done q w task beat err :
      Queue.workers q !! w = Some (Running task beat) →
      qstep q (set_worker w (Waiting (Queue.now q)) q
        <| Queue.tasks := record_result (Queue.tasks q) task w err (Queue.now q) |>
        <| Queue.active := Queue.active q - 1 |>)
  (** [Stop] *)
  | q_stop q : qstep q (q <| Queue.stopped := true |>)
  | q_exit q w wake :
      Queue.workers q !! w = Some (Waiting wake) → Queue.stopped q = true →
      qstep q (set_worker w Exited q)
  (** time, and other processes *)
  | q_tick q c : Queue.now q ≤ c → qstep q (q <| Queue.now := c |>)
  | q_other q e t' :
      foreign q e → step e (Queue.tasks q) t' → qstep q (q <| Queue.tasks := t' |>).
End workers.

Section rows.
Context `{TzData} `{OptionsCodec}.

(** The row of a leased task survives what everyone else does, short of the
    retention job: it stays as it is, or it is canceled. *)
Lemma leased_row_kept e t t' id w r :
  wf_table t → step e t t' → (∀ c, e ≠ EvPrune c) → actor e ≠ Some w →
  t !! id = Some r → leased_by id w r = true →
  (∀ w' lease c1 c2, e = EvLease w' lease c1 c2 → expired (fmtTime c1) r = false) →
  ∃ r', t' !! id = Some r' ∧ (r' = r ∨ finished r' = true).
Proof.
  intros Hwf Hst Hnp Ha Hr Hl He. pose proof Hwf as [Hk Hw].
  pose proof (proj1 (leased_by_spec _ _ _) Hl) as (Hid & Hrun & Hwk).
  assert (Hother : ∀ id' w' r0 r', t !! id' = Some r0 → leased_by id' w' r0 = true → w' ≠ w →
    ∃ r'', <[id' := r']> t !! id = Some r'' ∧ (r'' = r ∨ finished r'' = true)).
  { intros id' w' r0 r' Hr0 Hl0 Hne. exists r. split; [|by left].
    rewrite lookup_insert_ne; [done|]. intros ->. rewrite Hr in Hr0. injection Hr0 as <-.
    apply leased_by_spec in Hl0 as (_ & _ & Hwk'). congruence. }
  destruct Hst as
    [t task m newid c t' Hs Hq|t w' lease c1 c2 task t' Hq|t id' w' c t' Hq|
     t id' w' msg base c t' Hq|t id' w' lease c b t' Hq|t id' c t' Hq|t cutoff]; simpl in Ha.
  - apply EnqueueTask_inv in Hq as (k' & r' & Hnone & -> & _). exists r. split; [|by left].
    rewrite lookup_insert_ne by congruence. done.
  - apply LeaseTask_inv in Hq as (r0 & _ & _ & Hr0 & Hst & -> & _); [|done].
    assert (Hreq : requeueExpiredTx t (fmtTime c1) !! id = Some r).
    { unfold requeueExpiredTx. rewrite lookup_update_where, Hr. simpl. by rewrite (He _ _ _ _ eq_refl). }
    exists r. split; [|by left]. rewrite lookup_insert_ne; [done|]. intros <-.
    rewrite Hreq in Hr0. injection Hr0 as <-. rewrite Hrun in Hst. done.
  - apply finishTask_inv in Hq as (r0 & Hr0 & Hl0 & ->); [|done]. eapply Hother; eauto. congruence.
  - apply FailTask_inv in Hq as (r0 & Hr0 & Hl0 & [[_ ->]|[_ ->]]); [| |done];
      (eapply Hother; eauto; congruence).
  - destruct (RenewTaskLease_inv t id' w' lease c Hk) as [[Heq _]|(r0 & Hr0 & Hl0 & Heq)];
      rewrite Heq in Hq; injection Hq as <- <-; [by eauto|]. eapply Hother; eauto. congruence.
  - apply CancelTask_inv in Hq as (r0 & Hr0 & _ & ->); [|done].
    destruct (decide (id' = id)) as [->|Hne].
    + rewrite lookup_insert_eq. eexists. split; [done|]. by right.
    + exists r. split; [|by left]. by rewrite lookup_insert_ne.
  - by destruct (Hnp cutoff).
Qed.
End rows.

(** ** Counting the active workers *)

Definition is_running `{OptionsCodec} (s : worker) : bool :=
  match s with Running _ _ => true | _ => false end.
Definition one (b : bool) : Z := if b then 1 else 0.

Lemma count_where_replace {A} (p : A → bool) (m : gmap string A) k x y :
  m !! k = Some x → count_where p (<[k := y]> m) = count_where p m - one (p x) + one (p y).
Proof.
  intros Hk. rewrite <-(insert_delete_id m k x) at 2 by done. rewrite <-insert_delete_eq.
  rewrite !count_where_insert by apply lookup_delete_eq. unfold one. lia.
Qed.

Section fleet.
Context `{TzShanghai} `{OptionsCodec} (o : Options.t).

(** What a worker does is an operation of the durable queue. *)
Lemma record_result_step t task w err now :
  record_result o t task w err now = t ∨
  ∃ e, actor e = Some w ∧ (∀ c, e ≠ EvPrune c) ∧ (∀ w' l c1 c2, e ≠ EvLease w' l c1 c2) ∧
    step e t (record_result o t task w err now).
Proof.
  unfold record_result. destruct err as [msg|]; cbv zeta.
  - destruct (FailTask _ _ _ _ _ _) as [t'|] eqn:E; [right|by left].
    eexists (EvFail _ _ _ _ _). split; [done|]. split; [done|]. split; [done|]. by constructor.
  - destruct (CompleteTask _ _ _ _) as [t'|] eqn:E; [right|by left].
    eexists (EvComplete _ _ _). split; [done|]. split; [done|]. split; [done|]. by constructor.
Qed.

Lemma qstep_table q q' :
  qstep o q q' →
  Queue.tasks q' = Queue.tasks q ∨
  ∃ e, (∀ c, e ≠ EvPrune c) ∧ step e (Queue.tasks q) (Queue.tasks q').
Proof.
  destruct 1 as [|q w wake task t' _ _ _ Hl|q w task beat t' _ _ Hr|q w task beat t' _ _ Hr| |
    q w task beat err _| | | |q e t' Hf Hs]; try by left.
  - right. eexists. split; [|by econstructor]. done.
  - right. eexists. split; [|by econstructor]. done.
  - right. eexists. split; [|by econstructor]. done.
  - destruct (record_result_step (Queue.tasks q) task w err (Queue.now q)) as [->|(e & _ & ? & _ & ?)]; [by left|].
    right. by exists e.
  - right. exists e. split; [|done]. intros c ->. by destruct Hf.
Qed.

(** ** The invariant *)

(** The lease lasts as long as the next heartbeat may be late. *)
Definition slack : Duration := Options.Lease o - interval o.
Definition lease_holds (beat : option Time) (r : row) : Prop :=
  match beat with
  | Some beat => ∃ u, TaskRow.lease_until r = Some (fmtTime u) ∧ storable u ∧ beat + slack ≤ u
  | None => True
  end.
(** A task that a worker runs is leased by it, or canceled. *)
Definition held (t : table) (w : string) (task : QueuedTask.t) (beat : option Time) : Prop :=
  ∃ r, t !! QueuedTask.ID task = Some r ∧
    (finished r = true ∨ leased_by (QueuedTask.ID task) w r = true ∧ lease_holds beat r).

Record fleet_ok (q : Queue.t) : Prop := {
  ok_table : wf_table (Queue.tasks q);
  ok_active : Queue.active q = count_where is_running (Queue.workers q);
  ok_held : ∀ w task beat,
    Queue.workers q !! w = Some (Running task beat) → held (Queue.tasks q) w task beat;
  ok_apart : ∀ w1 w2 task1 task2 b1 b2, w1 ≠ w2 →
    Queue.workers q !! w1 = Some (Running task1 b1) → Queue.workers q !! w2 = Some (Running task2 b2) →
    QueuedTask.ID task1 ≠ QueuedTask.ID task2;
}.

(** No heartbeat is later than the slack, and a run whose heartbeat has ended
    ends before its lease does. *)
Definition punctual (q : Queue.t) : Prop :=
  storable (Queue.now q) ∧ storable (Queue.now q + Options.Lease o) ∧
  ∀ w task beat, Queue.workers q !! w = Some (Running task beat) →
    match beat with
    | Some beat => Queue.now q ≤ beat + slack
    | None => ∀ r, Queue.tasks q !! QueuedTask.ID task = Some r →
                leased_by (QueuedTask.ID task) w r = true → expired (fmtTime (Queue.now q)) r = false
    end.

Lemma held_not_expired q w task beat r :
  fleet_ok q → punctual q → Queue.workers q !! w = Some (Running task beat) →
  Queue.tasks q !! QueuedTask.ID task = Some r → leased_by (QueuedTask.ID task) w r = true →
  expired (fmtTime (Queue.now q)) r = false.
Proof.
  intros Hok (Hnow & _ & Hp) Hw Hr Hl. specialize (Hp _ _ _ Hw).
  destruct beat as [beat|]; [|by apply Hp].
  destruct (ok_held _ Hok _ _ _ Hw) as (r' & Hr' & Hheld). rewrite Hr in Hr'. injection Hr' as <-.
  apply leased_by_spec in Hl as (_ & Hrun & _).
  destruct Hheld as [Hf|(_ & u & Hu & Hsu & Hle)]; [rewrite running_not_finished in Hf; done|].
  rewrite (running_expired _ _ _ Hrun Hu), fmtTime_ltb by done. apply Z.ltb_ge. lia.
Qed.

Lemma held_weaken t w task beat : held t w task beat → held t w task None.
Proof. intros (r & Hr & [Hf|[Hl _]]); exists r; auto. by split; [|right]. Qed.

(** The operations of others leave a run its task. *)
Lemma held_other q e t' w task beat :
  fleet_ok q → punctual q → step e (Queue.tasks q) t' → (∀ c, e ≠ EvPrune c) → actor e ≠ Some w →
  (∀ w' l c1 c2, e = EvLease w' l c1 c2 → c1 = Queue.now q) →
  Queue.workers q !! w = Some (Running task beat) → held t' w task beat.
Proof.
  intros Hok Hp Hst Hnp Ha Hc Hw.
  destruct (ok_held _ Hok _ _ _ Hw) as (r & Hr & Hheld). pose proof (ok_table _ Hok) as Hwf.
  destruct (finished r) eqn:Hf.
  { exists r. destruct (step_finished _ _ _ _ _ Hwf Hst Hr Hf) as [?|(c & -> & _)]; [by auto|].
    by destruct (Hnp c). }
  destruct Hheld as [?|[Hl Hb]]; [done|].
  destruct (leased_row_kept e _ _ _ _ _ Hwf Hst Hnp Ha Hr Hl) as (r' & Hr' & [->|Hf']).
  - intros w' l c1 c2 He. rewrite (Hc _ _ _ _ He). by eapply held_not_expired.
  - exists r. auto.
  - exists r'. auto.
Qed.

(** A lease goes to a task that nobody runs. *)
Lemma leased_apart q w task t' w2 task2 b2 c2 :
  fleet_ok q → punctual q → Queue.workers q !! w2 = Some (Running task2 b2) →
  LeaseTask (Queue.tasks q) w (Options.Lease o) (Queue.now q) c2 = Ok (task, t') →
  QueuedTask.ID task ≠ QueuedTask.ID task2.
Proof.
  intros Hok Hp Hw2 Hl. pose proof (ok_table _ Hok) as [Hk _].
  apply LeaseTask_inv in Hl as (r & _ & _ & Hr & Hq & _ & Hsc); [|done].
  apply scanTask_inv in Hsc as (Hid & _). simpl in Hid. intros Heq.
  destruct (ok_held _ Hok _ _ _ Hw2) as (r2 & Hr2 & Hheld).
  assert (Hne : expired (fmtTime (Queue.now q)) r2 = false).
  { destruct Hheld as [Hf|[Hl _]]; [|by eapply held_not_expired].
    unfold expired. destruct (String.eqb_spec (TaskRow.status r2) TaskRunning) as [E|_]; [|done].
    by rewrite running_not_finished in Hf. }
  assert (Hreq : requeueExpiredTx (Queue.tasks q) (fmtTime (Queue.now q)) !! TaskRow.id r = Some r2).
  { unfold requeueExpiredTx. rewrite lookup_update_where, <-Hid, Heq, Hr2. simpl. by rewrite Hne. }
  rewrite Hreq in Hr. injection Hr as ->.
  destruct Hheld as [Hf|[(_ & Hrun & _)%leased_by_spec _]]; [|by rewrite Hrun in Hq].
  rewrite queued_not_finished in Hf; done.
Qed.

(** ** Every step keeps it *)

Hypothesis Hlease : 0 < Options.Lease o.

Lemma lease_is : lease_default (Options.Lease o) = Options.Lease o.
Proof. unfold lease_default. by rewrite (proj2 (Z.leb_gt _ _)). Qed.

Lemma fleet_ok_eq q q' :
  fleet_ok q → Queue.tasks q' = Queue.tasks q → Queue.workers q' = Queue.workers q →
  Queue.active q' = Queue.active q → fleet_ok q'.
Proof. intros [? ? ? ?] Ht Hw Ha. split; rewrite ?Ht, ?Hw, ?Ha; auto. Qed.

(** A worker changes to a state that is not running. *)
Lemma ok_idle q w s x t' :
  fleet_ok q → Queue.workers q !! w = Some x → is_running s = false →
  wf_table t' → (∀ w2 task b, w2 ≠ w → Queue.workers q !! w2 = Some (Running task b) → held t' w2 task b) →
  fleet_ok (set_worker w s q <| Queue.tasks := t' |> <| Queue.active := Queue.active q - one (is_running x) |>).
Proof.
  intros Hok Hw Hs Hwf Hheld. split; simpl; [done| | |].
  - rewrite (count_where_replace _ _ _ x), Hs, (ok_active _ Hok) by done. simpl. lia.
  - intros w2 task b. rewrite lookup_insert_Some. intros [[_ ->]|[Hne Hw2]]; [done|]. by apply Hheld.
  - intros w1 w2 task1 task2 b1 b2 Hne. rewrite !lookup_insert_Some.
    intros [[_ ->]|[_ Hr1]]; [done|]. intros [[_ ->]|[_ Hr2]]; [done|]. by apply (ok_apart _ Hok w1 w2 _ _ b1 b2).
Qed.

(** A worker runs on, or begins to run, a task that nobody else runs. *)
Lemma ok_runs q w x task b t' :
  fleet_ok q → Queue.workers q !! w = Some x → wf_table t' → held t' w task b →
  (∀ w2 task2 b2, w2 ≠ w → Queue.workers q !! w2 = Some (Running task2 b2) →
     held t' w2 task2 b2 ∧ QueuedTask.ID task ≠ QueuedTask.ID task2) →
  fleet_ok (set_worker w (Running task b) q <| Queue.tasks := t' |>
    <| Queue.active := Queue.active q - one (is_running x) + 1 |>).
Proof.
  intros Hok Hw Hwf Hh Hothers. split; simpl; [done| | |].
  - rewrite (count_where_replace _ _ _ x), (ok_active _ Hok) by done. simpl. lia.
  - intros w2 task2 b2. rewrite lookup_insert_Some. intros [[<- [= <- <-]]|[Hne Hw2]]; [done|].
    by apply Hothers.
  - intros w1 w2 task1 task2 b1 b2 Hne. rewrite !lookup_insert_Some.
    intros [[<- [= <- <-]]|[Hn1 Hr1]] [[<- [= <- <-]]|[Hn2 Hr2]]; [done| | |by apply (ok_apart _ Hok w1 w2 _ _ b1 b2)].
    + by eapply Hothers.
    + apply not_eq_sym. by eapply Hothers.
Qed.

Lemma held_leased t w task t' now c2 :
  wf_table t → storable (c2 + Options.Lease o) → now ≤ c2 →
  LeaseTask t w (Options.Lease o) now c2 = Ok (task, t') →
  held t' w task (Some (now + interval o)).
Proof.
  intros [Hk _] Hsto Hle Hl. apply LeaseTask_inv in Hl as (r & _ & _ & _ & _ & -> & Hsc); [|done].
  apply scanTask_inv in Hsc as (Hid & _). unfold held. rewrite Hid.
  eexists. split; [by apply lookup_insert_eq|].
  right. split; [apply leased_by_spec; done|]. simpl. rewrite lease_is.
  exists (c2 + Options.Lease o). split; [done|]. split; [done|]. unfold slack. lia.
Qed.

(** A renewal extends the lease of the run, or finds it canceled. *)
Lemma held_renewed q w task beat b t' :
  fleet_ok q → punctual q → Queue.workers q !! w = Some (Running task (Some beat)) →
  beat ≤ Queue.now q →
  RenewTaskLease (Queue.tasks q) (QueuedTask.ID task) w (Options.Lease o) (Queue.now q) = (b, t') →
  held t' w task (if b then Some (beat + interval o) else None).
Proof.
  intros Hok (_ & Hsto & _) Hw Hle Hr. pose proof (ok_table _ Hok) as [Hk _].
  destruct (ok_held _ Hok _ _ _ Hw) as (r & Hrow & Hheld).
  destruct (RenewTaskLease_inv (Queue.tasks q) (QueuedTask.ID task) w (Options.Lease o) (Queue.now q) Hk)
    as [[Heq Hnone]|(r' & Hr' & Hl & Heq)]; rewrite Heq in Hr; injection Hr as <- <-.
  - exists r. split; [done|]. left. destruct Hheld as [?|[Hl _]]; [done|].
    by rewrite (Hnone _ Hrow) in Hl.
  - eexists. split; [by apply lookup_insert_eq|]. right.
    pose proof (proj1 (leased_by_spec _ _ _) Hl) as (? & ? & ?).
    split; [by apply leased_by_spec|]. simpl. rewrite lease_is.
    eexists. split; [done|]. split; [done|]. unfold slack. lia.
Qed.

Lemma fleet_step_ok q q' : fleet_ok q → punctual q → qstep o q q' → fleet_ok q'.
Proof.
  intros Hok Hp Hst. pose proof (ok_table _ Hok) as Hwf.
  assert (Hquiet : ∀ t', Queue.tasks q = t' → ∀ w w2 task b, w2 ≠ w →
    Queue.workers q !! w2 = Some (Running task b) → held t' w2 task b).
  { intros t' <- w w2 task b _ Hw2. by apply (ok_held _ Hok). }
  assert (Hother : ∀ e t' w, step e (Queue.tasks q) t' → (∀ c, e ≠ EvPrune c) → actor e = Some w →
    (∀ w' l c1 c2, e = EvLease w' l c1 c2 → c1 = Queue.now q) →
    wf_table t' ∧ ∀ w2 task b, w2 ≠ w → Queue.workers q !! w2 = Some (Running task b) → held t' w2 task b).
  { intros e t' w He Hnp Ha Hc. split; [by eapply step_wf|]. intros w2 task b Hne Hw2.
    eapply held_other; eauto. rewrite Ha. by intros [= ->]. }
  destruct Hst as [q w wake e Hw _ _ _|q w wake task t' Hw _ _ Hl|q w task beat t' Hw Hb Hr|
    q w task beat t' Hw Hb Hr|q w task beat Hw _|q w task beat err Hw|q|q w wake Hw _|q c Hc|q e t' Hf He].
  - eapply fleet_ok_eq; [eapply (ok_idle q w (Waiting (Queue.now q + Options.Poll o)))|..]; eauto. simpl. lia.
  - destruct (Hother (EvLease w (Options.Lease o) (Queue.now q) (Queue.now q)) t' w) as [Hwf' Hh];
      [by econstructor|done|done|by intros ? ? ? ? [=]|].
    eapply fleet_ok_eq; [eapply (ok_runs q w _ task (Some (Queue.now q + interval o)) t')|..]; eauto; [| |simpl; lia].
    + destruct Hp as (_ & Hsto & _). by apply (held_leased (Queue.tasks q) _ _ _ (Queue.now q) (Queue.now q)); [| |apply Z.le_refl|].
    + intros w2 task2 b2 Hne Hw2. split; [by eapply Hh|]. by eapply leased_apart.
  - destruct (Hother (EvRenew (QueuedTask.ID task) w (Options.Lease o) (Queue.now q)) t' w) as [Hwf' Hh];
      [by econstructor|done|done|done|].
    eapply fleet_ok_eq; [eapply (ok_runs q w _ task (Some (beat + interval o)) t')|..]; eauto; [| |simpl; lia].
    + by apply (held_renewed q w task beat true).
    + intros w2 task2 b2 Hne Hw2. split; [by eapply Hh|].
      eapply (ok_apart _ Hok w w2); [by apply not_eq_sym|done..].
  - destruct (Hother (EvRenew (QueuedTask.ID task) w (Options.Lease o) (Queue.now q)) t' w) as [Hwf' Hh];
      [by econstructor|done|done|done|].
    eapply fleet_ok_eq; [eapply (ok_runs q w _ task None t')|..]; eauto; [| |simpl; lia].
    + by apply (held_renewed q w task beat false).
    + intros w2 task2 b2 Hne Hw2. split; [by eapply Hh|].
      eapply (ok_apart _ Hok w w2); [by apply not_eq_sym|done..].
  - eapply fleet_ok_eq; [eapply (ok_runs q w _ task None (Queue.tasks q))|..]; eauto; [| |simpl; lia].
    + eapply held_weaken, (ok_held _ Hok); eauto.
    + intros w2 task2 b2 Hne Hw2. split; [by eapply Hquiet|].
      eapply (ok_apart _ Hok w w2); [by apply not_eq_sym|done..].
  - eapply fleet_ok_eq; [eapply (ok_idle q w (Waiting (Queue.now q)) _ (record_result o (Queue.tasks q) task w err (Queue.now q)))|..]; eauto.
    + destruct (record_result_step (Queue.tasks q) task w err (Queue.now q)) as [->|(e & He & Hnp & Hnl & Hst)]; [done|].
      by eapply step_wf.
    + destruct (record_result_step (Queue.tasks q) task w err (Queue.now q)) as [->|(e & He & Hnp & Hnl & Hst)].
      * by eapply Hquiet.
      * eapply (Hother e); eauto. intros w' l c1 c2 ->. by destruct (Hnl w' l c1 c2).
  - eapply fleet_ok_eq; [exact Hok|done..].
  - eapply fleet_ok_eq; [eapply (ok_idle q w Exited)|..]; eauto. simpl. lia.
  - eapply fleet_ok_eq; [exact Hok|done..].
  - destruct Hf as [Hdom Hf]. assert (Hnp : ∀ c, e ≠ EvPrune c) by (by intros c ->).
    split; simpl; [by eapply step_wf|by apply (ok_active _ Hok)| |by apply (ok_apart _ Hok)].
    intros w task b Hw. eapply (held_other q e); eauto.
    + intros Ha. apply (Hdom w Ha). by eapply elem_of_dom_2.
    + intros w' l c1 c2 ->. by apply Hf.
Qed.
End fleet.

(** ** From the start *)

Lemma New_options o nanos o' : New o nanos = Ok o' →
  1 ≤ Options.Workers o' ≤ 64 ∧ 0 < Options.Lease o' ∧ 0 < Options.Poll o' ∧ 0 < Options.RetryBase o'
  ∧ Options.WorkerID o' ≠ "".
Proof.
  unfold New, pos_or. cbv zeta. intros Hn. case_if_in Hn; [done|]. injection Hn as <-. simpl.
  split_and!; repeat case_if; bsplit; unfold Minute, Second, Millisecond in *; try lia; done.
Qed.

(** The goroutines have names of their own. *)
Lemma worker_names_distinct o : NoDup (worker_names o).
Proof.
  unfold worker_names. apply NoDup_fmap_2; [|apply NoDup_seqZ].
  intros i j Heq. unfold worker_name in Heq.
  apply (f_equal explode) in Heq. rewrite !explode_app in Heq. apply app_inv_head, app_inv_head in Heq.
  apply explode_inj, Itoa_inj in Heq. lia.
Qed.

(** With leases of three seconds or more, two heartbeats in a row may be
    missed; with less than a second every heartbeat comes too late. *)
Lemma slack_of_lease o :
  (3 * Second ≤ Options.Lease o → 2 * interval o ≤ slack o) ∧
  (0 < Options.Lease o < Second → slack o < 0).
Proof.
  unfold slack, interval, Second. pose proof (Z.quot_rem' (Options.Lease o) 3).
  split; intros Hl; pose proof (Z.rem_bound_pos (Options.Lease o) 3 ltac:(lia) ltac:(lia)); lia.
Qed.

Section from_start.
Context `{TzShanghai} `{OptionsCodec}.

Lemma Start_waiting o t now w s : Queue.workers (Start o t now) !! w = Some s → s = Waiting now.
Proof.
  unfold Start. simpl. intros Hs%elem_of_list_to_map_2.
  by apply list_elem_of_fmap in Hs as (? & [= _ ->] & _).
Qed.

Lemma Start_ok o t now : wf_table t → fleet_ok o (Start o t now).
Proof.
  intros Hwf. split; [done| | |].
  - symmetry. apply count_where_zero. intros k s Hs. by rewrite (Start_waiting _ _ _ _ _ Hs).
  - intros w task beat Hw. by apply Start_waiting in Hw.
  - intros w1 w2 task1 task2 b1 b2 _ Hw. by apply Start_waiting in Hw.
Qed.

Lemma run_ok o q q' : 0 < Options.Lease o → fleet_ok o q →
  rtc (λ q q', punctual o q ∧ qstep o q q') q q' → fleet_ok o q'.
Proof.
  intros Hl Hok Hrun. induction Hrun as [|q1 q2 q3 [Hp Hst] _ IH]; [done|].
  apply IH. by eapply fleet_step_ok.
Qed.


(** C8: No task is run by two workers of a queue at a time.  As long as no
    heartbeat is later than the rest of the lease it renews, and a cancelled
    run returns before its lease ends, the tasks being run are pairwise
    distinct; each of them is leased by the worker that runs it, with a lease
    that has not ended and a result that will be recorded, unless the task was
    canceled meanwhile; and the count of active workers is exact. *)
Theorem exclusive_run o0 nanos o t now q :
  New o0 nanos = Ok o → reachable t →
  rtc (λ q q', punctual o q ∧ qstep o q q') (Start o t now) q → punctual o q →
  (∀ w1 w2 task1 task2 b1 b2, w1 ≠ w2 →
     Queue.workers q !! w1 = Some (Running task1 b1) →
     Queue.workers q !! w2 = Some (Running task2 b2) →
     QueuedTask.ID task1 ≠ QueuedTask.ID task2) ∧
  (∀ w task b, Queue.workers q !! w = Some (Running task b) →
     ∃ r, Queue.tasks q !! QueuedTask.ID task = Some r ∧
       (finished r = true ∨
        leased_by (QueuedTask.ID task) w r = true ∧ expired (fmtTime (Queue.now q)) r = false ∧
        is_ok (CompleteTask (Queue.tasks q) (QueuedTask.ID task) w (Queue.now q)) = true)) ∧
  Queue.active q = count_where is_running (Queue.workers q).
Proof.
  intros (_ & Hl & _)%New_options Ht%reachable_wf_table Hrun Hp.
  assert (Hok : fleet_ok o q) by (by eapply run_ok; [|apply Start_ok|]).
  split; [by apply (ok_apart _ _ Hok)|]. split; [|by apply (ok_active _ _ Hok)].
  intros w task b Hw. destruct (ok_held _ _ Hok _ _ _ Hw) as (r & Hr & Hheld).
  exists r. split; [done|]. destruct Hheld as [?|[Hlb _]]; [by left|right].
  split; [done|]. split; [by eapply held_not_expired|].
  unfold CompleteTask, finishTask. destruct (ok_table _ _ Hok) as [Hk _].
  by rewrite count_leased, Hr, Hlb.
Qed.
End from_start.
