(* ===== verification/TaskExamples.v ===== *)
(** * The queue and its workers at work

    A concrete run of the queue: two enqueues, a lease, a failure, an expiry
    and a last attempt; and a queue with two goroutines.  It instantiates the
    theorems of [TaskQueue.v], [TaskLease.v] and [Worker.v]. *)
From S2P Require Import Prelude Sql GoStr GoFloat GoTime Model Tasks TaskQueue TaskLease Worker.

#[local] Existing Instances no_tzdata no_tzdata_cst.

(** Options stored as their own text. *)
#[local] Instance text_codec : OptionsCodec :=
  {| options := string; options_marshal := Some; options_unmarshal := Some |}.

Definition get {A} (d : A) (r : result A) : A := match r with Ok a => a | Err _ => d end.

Lemma get_ok {A} (d : A) r : is_ok r = true → r = Ok (get d r).
Proof. by destruct r. Qed.

(** 2025-12-13 in Shanghai *)
Definition t0 : Time := 63901000000 * Second.

Definition sample (attempts : Z) : QueuedTask.t :=
  QueuedTask.mk "" "pipeline" "{}" 0 "" 0 attempts "" "" "" "" "" "" "" "".
Definition no_task : QueuedTask.t := sample 0.

Definition q1 : table := get ∅ (EnqueueTask ∅ (sample 2) 2 "a" t0).
Definition q2 : table := get ∅ (EnqueueTask q1 (sample 1) 2 "b" (t0 + Second)).
Definition l3 := get (no_task, ∅) (LeaseTask q2 "w1" Minute (t0 + Minute) (t0 + Minute)).
Definition q3 : table := l3.2.
Definition q4 : table := get ∅ (FailTask q3 "a" "w1" "boom" (5 * Second) (t0 + 2 * Minute)).
Definition q5 : table := get ∅ (CompleteTask q3 "a" "w1" (t0 + 2 * Minute)).

Definition q6 : table := get ∅ (CancelTask q5 "b" t0).
Definition l7 := get (no_task, ∅) (LeaseTask q3 "w2" Minute (t0 + 90 * Second) (t0 + 90 * Second)).

Definition ev1 := EvEnqueue (sample 2) 2 "a" t0.
Definition ev2 := EvEnqueue (sample 1) 2 "b" (t0 + Second).
Definition ev3 := EvLease "w1" Minute (t0 + Minute) (t0 + Minute).
Definition ev4 := EvFail "a" "w1" "boom" (5 * Second) (t0 + 2 * Minute).
Definition ev5 := EvComplete "a" "w1" (t0 + 2 * Minute).

(** A run with one task, which crashes on its only attempt. *)
Definition p1 : table := get ∅ (EnqueueTask ∅ (sample 1) 1 "a" t0).
Definition p2 : table := (get (no_task, ∅) (LeaseTask p1 "w1" Minute (t0 + Minute) (t0 + Minute))).2.

Lemma step1 : step ev1 ∅ q1.
Proof. apply step_enqueue; [done|]. apply get_ok. by vm_compute. Qed.
Lemma step2 : step ev2 q1 q2.
Proof. apply step_enqueue; [done|]. apply get_ok. by vm_compute. Qed.
Lemma lease3 : LeaseTask q2 "w1" Minute (t0 + Minute) (t0 + Minute) = Ok (l3.1, q3).
Proof. unfold q3. rewrite <-surjective_pairing. apply get_ok. by vm_compute. Qed.
Lemma fail4 : FailTask q3 "a" "w1" "boom" (5 * Second) (t0 + 2 * Minute) = Ok q4.
Proof. apply get_ok. by vm_compute. Qed.
Lemma step5 : step ev5 q3 q5.
Proof. apply step_complete. apply get_ok. by vm_compute. Qed.

Lemma exec2 : exec [ev1; ev2] ∅ q2.
Proof. econstructor; [apply step1|]. econstructor; [apply step2|]. constructor. Qed.
Lemma exec3 : exec [ev1; ev2; ev3] ∅ q3.
Proof.
  econstructor; [apply step1|]. econstructor; [apply step2|]. econstructor; [|constructor].
  eapply step_lease, lease3.
Qed.
Lemma exec5 : exec [ev1; ev2; ev3; ev5] ∅ q5.
Proof.
  econstructor; [apply step1|]. econstructor; [apply step2|].
  econstructor; [eapply step_lease, lease3|]. econstructor; [apply step5|constructor].
Qed.
Lemma exec_p2 : exec [EvEnqueue (sample 1) 1 "a" t0; ev3] ∅ p2.
Proof.
  econstructor; [apply step_enqueue; [done|]; apply (get_ok ∅); by vm_compute|].
  econstructor; [|constructor]. eapply step_lease with (task := _).
  unfold p2. erewrite <-surjective_pairing. apply get_ok. by vm_compute.
Qed.

Lemma reach2 : reachable q2. Proof. eexists; apply exec2. Qed.
Lemma reach3 : reachable q3. Proof. eexists; apply exec3. Qed.
Lemma reach5 : reachable q5. Proof. eexists; apply exec5. Qed.
Lemma reach_p2 : reachable p2. Proof. eexists; apply exec_p2. Qed.

Lemma text_decodable t : decodable t.
Proof. intros k r _. simpl. eauto. Qed.

(** The row of a concrete table. *)
Definition row_of (t : table) (k : string) : row :=
  default (TaskRow.mk "" "" "" 0 "" 0 0 "" None None None "" "" None None) (t !! k).

Lemma row_of_ok t k : bool_decide (is_Some (t !! k)) = true → t !! k = Some (row_of t k).
Proof. intros [r Hr]%bool_decide_eq_true. unfold row_of. by rewrite Hr. Qed.

Lemma row_of_eq t k r : t !! k = Some r → r = row_of t k.
Proof. intros Hr. unfold row_of. by rewrite Hr. Qed.

Lemma queue_invariant_witness : TaskRow.attempts (row_of q3 "a") ≤ 2.
Proof.
  pose proof (queue_invariant q3 "a" (row_of q3 "a") reach3 ltac:(apply row_of_ok; by vm_compute)) as H.
  destruct H as (_ & [_ H] & _).
  replace 2 with (TaskRow.max_attempts (row_of q3 "a")) by (by vm_compute). exact H.
Defined.

Lemma finished_is_final_witness : q6 !! "a" = Some (row_of q5 "a").
Proof.
  refine (finished_is_final [EvCancel "b" t0] q5 q6 "a" (row_of q5 "a") reach5 _ _ _ _).
  - econstructor; [apply step_cancel|constructor]. apply get_ok. by vm_compute.
  - intros cutoff Hin. apply list_elem_of_singleton in Hin. discriminate Hin.
  - apply row_of_ok. by vm_compute.
  - by vm_compute.
Defined.

Lemma leases_bounded_witness : zsum is_lease [ev1; ev2; ev3] ≤ 3.
Proof. apply (leases_bounded [ev1; ev2; ev3] q3 exec3). Defined.


Lemma LeaseTask_claims_best_witness :
  claimable (fmtTime (t0 + Minute)) (row_of q2 "a") = true ∧ QueuedTask.ID l3.1 = "a".
Proof.
  destruct (LeaseTask_claims_best q2 "w1" Minute (t0 + Minute) (t0 + Minute) l3.1 q3
    reach2 lease3) as (r & Hr & Hc & _).
  replace (QueuedTask.ID l3.1) with "a" in * by (by vm_compute).
  rewrite (row_of_eq _ _ _ Hr) in Hc.
  replace (row_of (requeueExpiredTx q2 (fmtTime (t0 + Minute))) "a") with (row_of q2 "a") in Hc
    by (by vm_compute).
  exact (conj Hc eq_refl).
Defined.

Lemma LeaseTask_progress_witness :
  is_ok (LeaseTask q2 "w2" 0 (t0 + Minute) (t0 + Minute)) = true.
Proof.
  apply (LeaseTask_progress q2 "w2" 0 (t0 + Minute) (t0 + Minute) "b" (row_of q2 "b")).
  - apply reach2.
  - done.
  - apply text_decodable.
  - by vm_compute.
  - by vm_compute.
Defined.

Lemma stale_worker_rejected_witness : is_ok (CompleteTask q3 "a" "w2" t0) = false.
Proof.
  refine (proj1 (stale_worker_rejected q3 "a" "w2" "" 0 0 t0 reach3 _)).
  intros r ->%row_of_eq. by vm_compute.
Defined.

Lemma pages_enumerate_witness :
  ∃ out, follow 3 q3 ∅ 1 "" "" "" = Ok out ∧ QueuedTask.ID <$> out = ["b"; "a"].
Proof.
  destruct (pages_enumerate q3 ∅ 1 "" "" 3) as (out & Hf & Hids & _).
  - apply reach3.
  - apply text_decodable.
  - by vm_compute.
  - apply (bool_decide_unpack _). by vm_compute.
  - exists out. split; [exact Hf|]. rewrite Hids. by vm_compute.
Defined.

Lemma lease_exclusive_witness :
  QueuedTask.ID l7.1 ≠ "a" ∧ l7.2 !! "a" = Some (row_of q3 "a").
Proof.
  refine (lease_exclusive q3 "a" (row_of q3 "a") (t0 + 2 * Minute) "w2" Minute
    (t0 + 90 * Second) (t0 + 90 * Second) l7.1 l7.2 reach3 _ _ _ _ _ _ _).
  - apply row_of_ok. by vm_compute.
  - by vm_compute.
  - by vm_compute.
  - apply (bool_decide_unpack _). by vm_compute.
  - apply (bool_decide_unpack _). by vm_compute.
  - unfold Minute, Second. lia.
  - rewrite <-surjective_pairing. apply get_ok. by vm_compute.
Defined.

Lemma expired_lease_recovered_witness :
  is_ok (LeaseTask q3 "w2" Minute (t0 + Hour) (t0 + Hour)) = true.
Proof.
  destruct (expired_lease_recovered q3 "a" (row_of q3 "a") (t0 + 2 * Minute) "w2" Minute
    (t0 + Hour) (t0 + Hour) reach3 (text_decodable q3)) as (task & t' & r' & Heq & _).
  - discriminate.
  - apply row_of_ok. by vm_compute.
  - by vm_compute.
  - by vm_compute.
  - apply (bool_decide_unpack _). by vm_compute.
  - apply (bool_decide_unpack _). by vm_compute.
  - unfold Hour, Minute, Second. lia.
  - by vm_compute.
  - by rewrite Heq.
Defined.

Lemma exhausted_tasks_block_witness :
  is_ok (LeaseTask p2 "w2" Minute (t0 + 1000 * Hour) (t0 + 1000 * Hour)) = false.
Proof.
  refine (proj1 (exhausted_tasks_block p2 1 reach_p2 _ _) "w2" Minute _ _).
  - intros k r Hr _.
    assert (Hall : Forall (λ r, TaskRow.status r = TaskRunning
      ∧ TaskRow.attempts r = TaskRow.max_attempts r) (rows p2)).
    { apply (bool_decide_unpack _). by vm_compute. }
    rewrite Forall_forall in Hall. apply Hall, elem_of_rows. by exists k.
  - split; [lia|]. apply Z.leb_le. by vm_compute.
Defined.

Lemma retry_backoff_witness :
  ∃ r', q4 !! "a" = Some r' ∧ TaskRow.status r' = TaskQueued
    ∧ claimable (fmtTime (t0 + 3 * Minute)) r' = true.
Proof.
  destruct (retry_backoff q3 "a" "w1" "boom" (5 * Second) (t0 + 2 * Minute) q4 (row_of q3 "a")
    (t0 + 3 * Minute) reach3) as (r' & Hr' & Hs & _ & _ & _ & Hc).
  - apply row_of_ok. by vm_compute.
  - by vm_compute.
  - by vm_compute.
  - by vm_compute.
  - apply (bool_decide_unpack _). by vm_compute.
  - apply (bool_decide_unpack _). by vm_compute.
  - exact fail4.
  - exists r'. split; [exact Hr'|]. split; [exact Hs|]. refine (eq_trans Hc _). by vm_compute.
Defined.

(** ** Two workers: one leases the only task *)

#[local] Existing Instances no_tzdata no_tzdata_cst text_codec.

Definition two_workers : Options.t := Options.mk 2 Minute Second (5 * Second) "w".
Lemma two_workers_ok : New two_workers 0 = Ok two_workers.
Proof. by vm_compute. Qed.

Definition before_lease : Queue.t := Start two_workers q1 (t0 + Minute).
Definition first_lease := get (no_task, ∅) (LeaseTask q1 "w-1" Minute (t0 + Minute) (t0 + Minute)).
Definition after_lease : Queue.t :=
  set_worker "w-1" (Running first_lease.1 (Some (t0 + Minute + interval two_workers))) before_lease
    <| Queue.tasks := first_lease.2 |> <| Queue.active := 0 + 1 |>.

Lemma reach1 : reachable q1.
Proof. exists [ev1]. econstructor; [apply step1|constructor]. Qed.

Lemma start_running : qstep two_workers before_lease after_lease.
Proof.
  eapply (q_lease two_workers before_lease "w-1" (t0 + Minute) first_lease.1 first_lease.2).
  - by vm_compute.
  - by apply Z.leb_le; vm_compute.
  - done.
  - change (LeaseTask q1 "w-1" Minute (t0 + Minute) (t0 + Minute) = Ok (first_lease.1, first_lease.2)).
    rewrite <-surjective_pairing. apply get_ok. by vm_compute.
Qed.

Lemma clock_fine : storable (t0 + Minute) ∧ storable (t0 + Minute + Minute).
Proof. split; apply (bool_decide_unpack _); by vm_compute. Qed.
Lemma start_punctual : punctual two_workers before_lease.
Proof.
  destruct clock_fine as [H1 H2]. split; [exact H1|]. split; [exact H2|].
  intros w task beat Hw. by apply Start_waiting in Hw.
Qed.
Lemma running_beat task1 task2 b1 b2 : Running task1 b1 = Running task2 b2 → b1 = b2.
Proof. by intros [= _ ->]. Qed.
#[local] Opaque first_lease.
Lemma running_punctual : punctual two_workers after_lease.
Proof.
  destruct clock_fine as [H1 H2]. split; [exact H1|]. split; [exact H2|].
  intros w task beat. change (Queue.workers after_lease) with
    (<["w-1" := Running first_lease.1 (Some (t0 + Minute + interval two_workers))]> (Queue.workers before_lease)).
  intros Hw. apply lookup_insert_Some in Hw as [[_ Heq]|[_ Hw]]; [|by apply Start_waiting in Hw].
  rewrite <-(running_beat _ _ _ _ Heq). apply Z.leb_le. by vm_compute.
Qed.


Lemma exclusive_run_witness : Queue.active after_lease = 1 ∧
  ∃ r, first_lease.2 !! "a" = Some r ∧ leased_by "a" "w-1" r = true.
Proof.
  destruct (exclusive_run two_workers 0 two_workers q1 (t0 + Minute) after_lease) as (_ & Hheld & _).
  - apply two_workers_ok.
  - apply reach1.
  - eapply rtc_l; [split; [apply start_punctual|apply start_running]|apply rtc_refl].
  - apply running_punctual.
  - split; [done|]. destruct (Hheld "w-1" first_lease.1 (Some (t0 + Minute + interval two_workers))) as (r & Hr & Hl).
    + by vm_compute.
    + exists r. assert (QueuedTask.ID first_lease.1 = "a") as Hid by (by vm_compute).
      rewrite Hid in Hr, Hl. split; [exact Hr|].
      destruct Hl as [Hf|[Hl _]]; [|exact Hl].
      exfalso. vm_compute in Hr. injection Hr as <-. vm_compute in Hf. discriminate Hf.
Defined.
