(* ===== verification/Tokens.v ===== *)
(** * Subscription tokens and their quotas: [internal/db/sqlite.go]

    The tables [tokens] and [token_usage].  A JSON column is represented by the
    value it encodes, an [enabled] column by its boolean.  The clock is an
    argument. *)
From S2P Require Import Prelude Sql GoStr GoFloat GoTime Model Tasks.

(** A row of [tokens]. *)
Module TokenRow.
Record t := mk {
  id : string;
  name : string;
  token_hash : string;
  token_prefix : string;
  enabled : bool;
  max_rps : float64;
  allow_countries : list string;
  expires_at : string;
  created_at : string;
  last_used_at : option string;
  note : string;
  tenant_id : string;
  allow_protocols : list string;
  daily_quota : Z;
}.
#[export] Instance eta : Eta t := λ r, mk (id r) (name r) (token_hash r) (token_prefix r)
  (enabled r) (max_rps r) (allow_countries r) (expires_at r) (created_at r) (last_used_at r)
  (note r) (tenant_id r) (allow_protocols r) (daily_quota r).
End TokenRow.
Export (hints) TokenRow.

(** [Token]; [PlainToken] is set only on the value [CreateToken] returns. *)
Module Token.
Record t := mk {
  ID : string;
  Name : string;
  TokenHash : string;
  TokenPrefix : string;
  Enabled : bool;
  MaxRPS : float64;
  AllowCountries : list string;
  AllowProtocols : list string;
  TenantID : string;
  DailyQuota : Z;
  ExpiresAt : string;
  CreatedAt : string;
  LastUsedAt : string;
  Note : string;
  RequestsToday : Z;
  BytesToday : Z;
  PlainToken : string;
}.
End Token.

(** A row of [token_usage], by token and day. *)
Module Usage.
Record t := mk { requests : Z; bytes : Z }.
#[export] Instance eta : Eta t := λ u, mk (requests u) (bytes u).
End Usage.
Export (hints) Usage.

Abbreviation token_table := (gmap string TokenRow.t).
Abbreviation usage_table := (gmap (string * string) Usage.t).

(** [InsertToken]: [id] is the primary key and [token_hash] is unique. *)
Definition InsertToken (db : token_table) (t : Token.t) : result token_table :=
  let r := TokenRow.mk (Token.ID t) (Token.Name t) (Token.TokenHash t) (Token.TokenPrefix t)
    (Token.Enabled t) (Token.MaxRPS t) (Token.AllowCountries t) (Token.ExpiresAt t)
    (Token.CreatedAt t) None (Token.Note t) (tenantOrDefault (Token.TenantID t))
    (Token.AllowProtocols t) (Token.DailyQuota t) in
  if bool_decide (is_Some (db !! Token.ID t)) then
    Err (ErrMsg "UNIQUE constraint failed: tokens.id")
  else if negb (count_where (λ r, (TokenRow.token_hash r =? Token.TokenHash t)%string) db =? 0) then
    Err (ErrMsg "UNIQUE constraint failed: tokens.token_hash")
  else Ok (<[Token.ID t := r]> db).

(** [scanTokenFields], with the usage columns of the join or without *)
Definition scanTokenFields (r : TokenRow.t) (usage : option Usage.t) : Token.t :=
  Token.mk (TokenRow.id r) (TokenRow.name r) (TokenRow.token_hash r) (TokenRow.token_prefix r)
    (TokenRow.enabled r) (TokenRow.max_rps r) (TokenRow.allow_countries r)
    (TokenRow.allow_protocols r) (TokenRow.tenant_id r) (TokenRow.daily_quota r)
    (TokenRow.expires_at r) (TokenRow.created_at r) (default "" (TokenRow.last_used_at r))
    (TokenRow.note r) (from_option Usage.requests 0 usage) (from_option Usage.bytes 0 usage) "".
Definition scanToken (r : TokenRow.t) : Token.t := scanTokenFields r None.

(** [COALESCE(u.requests,0),COALESCE(u.bytes,0)] of the left join with the
    usage of the day *)
Definition scanTokenUsage (usage : usage_table) (day : string) (r : TokenRow.t) : Token.t :=
  scanTokenFields r (usage !! (TokenRow.id r, day)).

Section tokens.
Context `{TzData}.

(** [ListTokensTenant]; SQL leaves the order of tokens created at the same
    instant open, here it is that of the scan. *)
Definition ListTokensTenant (db : token_table) (usage : usage_table) (tenant : string)
    (clock : Time) : list Token.t :=
  scanTokenUsage usage (FormatDay clock) <$>
    stable_sort (λ a b, String.ltb (TokenRow.created_at b) (TokenRow.created_at a))
      (List.filter (λ r, (tenant =? "")%string || (TokenRow.tenant_id r =? tenant)%string) (rows db)).
Definition ListTokens (db : token_table) (usage : usage_table) (clock : Time) : list Token.t :=
  ListTokensTenant db usage "" clock.

(** [ORDER BY t.created_at DESC,t.id DESC] *)
Definition token_cmp (a b : TokenRow.t) : comparison :=
  lexc (String.compare (TokenRow.created_at b) (TokenRow.created_at a))
    (String.compare (TokenRow.id b) (TokenRow.id a)).

Definition in_tenant (tenant : string) (r : TokenRow.t) : bool :=
  (tenant =? "")%string || (TokenRow.tenant_id r =? tenantOrDefault tenant)%string.

(** [ListTokensPageTenant] *)
Definition ListTokensPageTenant (db : token_table) (usage : usage_table) (limit : Z)
    (cursor tenant : string) (clock : Time) : result (list Token.t) :=
  let limit := if (limit <=? 0) || (101 <? limit) then 26 else limit in
  let! after :=
    if (cursor =? "")%string then Ok (λ _, true)
    else
      match db !! cursor with
      | Some x => if in_tenant tenant x then Ok (less token_cmp x) else Err ErrNoRows
      | None => Err ErrNoRows
      end in
  Ok (scanTokenUsage usage (FormatDay clock) <$>
    select_page (λ r, in_tenant tenant r && after r) (less token_cmp) limit db).

(** [CountTokensTenant] *)
Definition CountTokensTenant (db : token_table) (tenant : string) : Z :=
  count_where (in_tenant tenant) db.

(** [FindTokenByHash] *)
Definition FindTokenByHash (db : token_table) (hash : string) : result Token.t :=
  match List.filter (λ r, (TokenRow.token_hash r =? hash)%string) (rows db) with
  | r :: _ => Ok (scanToken r)
  | [] => Err ErrNoRows
  end.

(** [FindTokensByPrefix] *)
Definition FindTokensByPrefix (db : token_table) (prefix : string) : list Token.t :=
  scanToken <$> List.filter (λ r, (TokenRow.token_prefix r =? prefix)%string) (rows db).

(** [DeleteToken] and [DeleteTokenTenant] *)
Definition DeleteToken (db : token_table) (id : string) : token_table :=
  delete_where (λ r, (TokenRow.id r =? id)%string) db.
Definition owned (id tenant : string) (r : TokenRow.t) : bool :=
  (TokenRow.id r =? id)%string && (TokenRow.tenant_id r =? tenantOrDefault tenant)%string.
Definition DeleteTokenTenant (db : token_table) (id tenant : string) : result token_table :=
  if count_where (owned id tenant) db =? 0 then Err ErrNoRows
  else Ok (delete_where (owned id tenant) db).

(** [SetTokenEnabled] and [SetTokenEnabledTenant] *)
Definition SetTokenEnabled (db : token_table) (id : string) (enabled : bool) : token_table :=
  update_where (λ r, (TokenRow.id r =? id)%string) (λ r, r <| TokenRow.enabled := enabled |>) db.
Definition SetTokenEnabledTenant (db : token_table) (id tenant : string) (enabled : bool)
    : result token_table :=
  if count_where (owned id tenant) db =? 0 then Err ErrNoRows
  else Ok (update_where (owned id tenant) (λ r, r <| TokenRow.enabled := enabled |>) db).

(** [TouchToken] *)
Definition TouchToken (db : token_table) (id : string) (clock : Time) : token_table :=
  update_where (λ r, (TokenRow.id r =? id)%string)
    (λ r, r <| TokenRow.last_used_at := Some (FormatRFC3339 clock) |>) db.

(** [ConsumeTokenQuota]: the upsert [INSERT ... ON CONFLICT DO UPDATE ... WHERE
    requests<quota RETURNING requests] either returns the new count or, when
    its [WHERE] rejects the row, no row.  Returns (remaining, granted). *)
Definition ConsumeTokenQuota (usage : usage_table) (id : string) (dailyQuota : Z) (clock : Time)
    : Z * bool * usage_table :=
  if (id =? "")%string then (0, true, usage)
  else
    let key := (id, FormatDay clock) in
    let row :=
      match usage !! key with
      | None => Some (Usage.mk 1 0)
      | Some u =>
          if (0 <? dailyQuota) && negb (Usage.requests u <? dailyQuota) then None
          else Some (u <| Usage.requests := Usage.requests u + 1 |>)
      end in
    match row with
    | None => (0, false, usage)
    | Some u =>
        (if 0 <? dailyQuota then dailyQuota - Usage.requests u else -1, true, <[key := u]> usage)
    end.

(** [AddTokenBytes] *)
Definition AddTokenBytes (usage : usage_table) (id : string) (bytes : Z) (clock : Time)
    : usage_table :=
  if (id =? "")%string || (bytes <=? 0) then usage
  else alter (λ u, u <| Usage.bytes := Usage.bytes u + bytes |>) (id, FormatDay clock) usage.

(** ** Quotas *)

(** A sequence of quota calls and of byte accounting; the grants of each. *)
Inductive usage_op :=
  | OpConsume (id : string) (quota : Z) (clock : Time)
  | OpBytes (id : string) (bytes : Z) (clock : Time).

Definition usage_step (usage : usage_table) (op : usage_op) : usage_table :=
  match op with
  | OpConsume id quota clock => (ConsumeTokenQuota usage id quota clock).2
  | OpBytes id bytes clock => AddTokenBytes usage id bytes clock
  end.

(** The grants that [id] obtains on [day]. *)
Definition grants_op (usage : usage_table) (id day : string) (op : usage_op) : Z :=
  match op with
  | OpConsume id' quota clock =>
      if (id' =? id)%string && (FormatDay clock =? day)%string
         && (ConsumeTokenQuota usage id' quota clock).1.2 then 1 else 0
  | OpBytes _ _ _ => 0
  end.

Fixpoint grants (usage : usage_table) (id day : string) (ops : list usage_op) : Z :=
  match ops with
  | [] => 0
  | op :: ops => grants_op usage id day op + grants (usage_step usage op) id day ops
  end.

Definition used (usage : usage_table) (id day : string) : Z :=
  from_option Usage.requests 0 (usage !! (id, day)).

Lemma used_insert usage k u id day :
  used (<[k := u]> usage) id day = if decide (k = (id, day)) then Usage.requests u else used usage id day.
Proof.
  unfold used. case_decide as E; [subst; by rewrite lookup_insert_eq|by rewrite lookup_insert_ne].
Qed.

(** Every grant is recorded, and nothing else counts as a request. *)
Lemma used_step usage op id day :
  id ≠ "" → used (usage_step usage op) id day = used usage id day + grants_op usage id day op.
Proof.
  intros Hid. destruct op as [id' q c|id' b c]; simpl.
  - unfold ConsumeTokenQuota. destruct (String.eqb_spec id' "") as [->|Hne].
    { rewrite (proj2 (String.eqb_neq "" id)) by congruence. simpl. lia. }
    assert (Hk : bool_decide ((id', FormatDay c) = (id, day)) =
      (id' =? id)%string && (FormatDay c =? day)%string).
    { destruct (String.eqb_spec id' id), (String.eqb_spec (FormatDay c) day); simpl;
        case_bool_decide; congruence. }
    destruct (usage !! (id', FormatDay c)) as [u|] eqn:E.
    + destruct ((0 <? q) && negb (Usage.requests u <? q)); simpl.
      { rewrite andb_false_r. lia. }
      rewrite used_insert. rewrite andb_true_r, <-Hk. unfold bool_decide.
      case_decide as Hc; simpl; [|lia]. injection Hc as <- <-. unfold used. rewrite E. simpl. lia.
    + simpl. rewrite used_insert, andb_true_r, <-Hk. unfold bool_decide.
      case_decide as Hc; simpl; [|lia]. injection Hc as <- <-. unfold used. rewrite E. simpl. lia.
  - unfold AddTokenBytes. case_if; [lia|]. unfold used.
    destruct (decide ((id', FormatDay c) = (id, day))) as [<-|Hne].
    + rewrite lookup_alter_eq. by destruct (usage !! _); simpl; lia.
    + rewrite lookup_alter_ne by done. lia.
Qed.

Lemma used_grants usage ops id day :
  id ≠ "" →
  used (foldl usage_step usage ops) id day = used usage id day + grants usage id day ops.
Proof.
  intros Hid. revert usage; induction ops as [|op ops IH]; intros usage; simpl; [lia|].
  rewrite IH, used_step by done. lia.
Qed.

(** Below its quota a token is always granted. *)
Lemma consume_granted usage id q c :
  id ≠ "" → 0 < q →
  (ConsumeTokenQuota usage id q c).1.2 =
    bool_decide (usage !! (id, FormatDay c) = None) || (used usage id (FormatDay c) <? q).
Proof.
  intros Hid Hq. unfold ConsumeTokenQuota, used.
  destruct (String.eqb_spec id "") as [|_]; [done|].
  destruct (usage !! (id, FormatDay c)) as [u|]; simpl; [|done].
  rewrite (proj2 (Z.ltb_lt 0 q)) by done. simpl. by destruct (Usage.requests u <? q).
Qed.

(** When every call for a token uses the same positive daily quota, the
    calls granted to it on one day, in any interleaving with other tokens, are
    exactly the first [quota] ones: each call is granted precisely when fewer
    than [quota] were granted before it. *)
Theorem quota_exact ops id q c :
  id ≠ "" → 0 < q →
  (∀ q' c', OpConsume id q' c' ∈ ops → q' = q) →
  let usage := foldl usage_step ∅ ops in
  let granted := grants ∅ id (FormatDay c) ops in
  granted ≤ q
  ∧ ConsumeTokenQuota usage id q c =
      (if granted <? q
       then (q - (granted + 1), true, (ConsumeTokenQuota usage id q c).2)
       else (0, false, usage)).
Proof.
  intros Hid Hq Hall usage granted.
  assert (Hu : used usage id (FormatDay c) = granted).
  { unfold usage. rewrite used_grants by done. unfold used at 1. rewrite lookup_empty. simpl. lia. }
  split.
  - assert (Hg : ∀ u, used u id (FormatDay c) ≤ q →
      used u id (FormatDay c) + grants u id (FormatDay c) ops ≤ q).
    { clear usage granted Hu. induction ops as [|op ops IH]; intros u Hle; simpl; [lia|].
      assert (used (usage_step u op) id (FormatDay c) ≤ q).
      { rewrite used_step by done. destruct op as [id' q' c'|id' b c']; simpl; [|lia].
        destruct (String.eqb_spec id' id) as [->|]; simpl; [|lia].
        destruct (String.eqb_spec (FormatDay c') (FormatDay c)) as [Hd|]; simpl; [|lia].
        assert (q' = q) as -> by (eapply Hall; left).
        rewrite consume_granted by done. rewrite Hd.
        destruct (decide (u !! (id, FormatDay c) = None)) as [E|E].
        - rewrite bool_decide_eq_true_2 by done. unfold used. rewrite E. simpl. lia.
        - rewrite bool_decide_eq_false_2 by done. simpl.
          destruct (Z.ltb_spec (used u id (FormatDay c)) q); lia. }
      specialize (IH ltac:(intros q' c' Hin; eapply Hall; by right) (usage_step u op) H0).
      rewrite used_step in IH by done. lia. }
    specialize (Hg ∅). unfold used at 1 in Hg. rewrite lookup_empty in Hg. simpl in Hg.
    unfold granted. pose proof (Hg ltac:(lia)) as Hg'. unfold used in Hg'.
    rewrite lookup_empty in Hg'. simpl in Hg'. lia.
  - rewrite <-Hu. unfold ConsumeTokenQuota, used. destruct (String.eqb_spec id "") as [|_]; [done|].
    rewrite (proj2 (Z.ltb_lt 0 q)) by done.
    destruct (usage !! (id, FormatDay c)) as [u|]; simpl.
    + destruct (Usage.requests u <? q); simpl; done.
    + by rewrite (proj2 (Z.ltb_lt 0 q)).
Qed.
End tokens.
