(* ===== verification/Users.v ===== *)
(** * Users: [internal/db/users.go]

    The table [users], with its primary key and its unique pair of tenant and
    name. *)
From S2P Require Import Prelude Sql GoStr GoFloat GoTime Model Tasks.

(** A row of [users]. *)
Module UserRow.
Record t := mk {
  id : string;
  tenant_id : string;
  username : string;
  email : option string;
  password_hash : option string;
  role : string;
  enabled : bool;
  created_at : string;
  last_login_at : option string;
}.
#[export] Instance eta : Eta t := λ r, mk (id r) (tenant_id r) (username r) (email r)
  (password_hash r) (role r) (enabled r) (created_at r) (last_login_at r).
End UserRow.
Export (hints) UserRow.

Module User.
Record t := mk {
  ID : string;
  TenantID : string;
  Username : string;
  Email : string;
  PasswordHash : string;
  Role : string;
  Enabled : bool;
  CreatedAt : string;
  LastLoginAt : string;
}.
End User.

Abbreviation user_table := (gmap string UserRow.t).

(** [nullIfEmpty] *)
Definition nullIfEmpty (value : string) : option string :=
  if (value =? "")%string then None else Some value.

Definition named (tenant username : string) (r : UserRow.t) : bool :=
  (UserRow.tenant_id r =? tenant)%string && (UserRow.username r =? username)%string.

(** [scanUser] *)
Definition scanUser (r : UserRow.t) : User.t :=
  User.mk (UserRow.id r) (UserRow.tenant_id r) (UserRow.username r) (default "" (UserRow.email r))
    (default "" (UserRow.password_hash r)) (UserRow.role r) (UserRow.enabled r)
    (UserRow.created_at r) (default "" (UserRow.last_login_at r)).

(** [ORDER BY tenant_id,username] *)
Definition user_cmp (a b : UserRow.t) : comparison :=
  lexc (String.compare (UserRow.tenant_id a) (UserRow.tenant_id b))
    (String.compare (UserRow.username a) (UserRow.username b)).

Definition user_in (tenant : string) (r : UserRow.t) : bool :=
  (tenant =? "")%string || (UserRow.tenant_id r =? tenantOrDefault tenant)%string.

(** [ListUsers] *)
Definition ListUsers (t : user_table) (tenant : string) : list User.t :=
  scanUser <$> stable_sort (less user_cmp) (List.filter (user_in tenant) (rows t)).

(** [ListUsersPage]; with a tenant the cursor condition is on the name alone *)
Definition ListUsersPage (t : user_table) (tenant : string) (limit : Z) (cursor : string)
    : result (list User.t) :=
  let limit := if (limit <=? 0) || (101 <? limit) then 26 else limit in
  let! after :=
    if (cursor =? "")%string then Ok (λ _, true)
    else
      match t !! cursor with
      | Some x =>
          if user_in tenant x then
            if negb (tenant =? "")%string
            then Ok (λ r, String.ltb (UserRow.username x) (UserRow.username r))
            else Ok (less user_cmp x)
          else Err ErrNoRows
      | None => Err ErrNoRows
      end in
  Ok (scanUser <$> select_page (λ r, user_in tenant r && after r) (less user_cmp) limit t).

(** [CountUsers] *)
Definition CountUsers (t : user_table) (tenant : string) : Z := count_where (user_in tenant) t.

(** [FindUser] *)
Definition FindUser (t : user_table) (tenant username : string) : result User.t :=
  match List.filter (named (tenantOrDefault tenant) username) (rows t) with
  | r :: _ => Ok (scanUser r)
  | [] => Err ErrNoRows
  end.

(** [SetUserEnabled] *)
Definition user_owned (id tenant : string) (r : UserRow.t) : bool :=
  (UserRow.id r =? id)%string && (UserRow.tenant_id r =? tenantOrDefault tenant)%string.
Definition SetUserEnabled (t : user_table) (id tenant : string) (enabled : bool)
    : result user_table :=
  if count_where (user_owned id tenant) t =? 0 then Err ErrNoRows
  else Ok (update_where (user_owned id tenant) (λ r, r <| UserRow.enabled := enabled |>) t).

Section users.
Context `{TzData} `{Crypto}.

(** [hashID]: the first 12 bytes of the digest *)
Definition hashID (value : string) : string := hex_encode (slice_to (sha256_sum value) 12).

(** [InsertUser] *)
Definition InsertUser (t : user_table) (user : User.t) (clock : Time) : result user_table :=
  if (User.ID user =? "")%string || (User.Username user =? "")%string then
    Err (ErrMsg "user id and username are required")
  else
    let created := if (User.CreatedAt user =? "")%string then FormatRFC3339 clock
                   else User.CreatedAt user in
    let tenant := tenantOrDefault (User.TenantID user) in
    if bool_decide (is_Some (t !! User.ID user)) then
      Err (ErrMsg "UNIQUE constraint failed: users.id")
    else if negb (count_where (named tenant (User.Username user)) t =? 0) then
      Err (ErrMsg "UNIQUE constraint failed: users.tenant_id, users.username")
    else
      Ok (<[User.ID user := UserRow.mk (User.ID user) tenant (User.Username user)
            (Some (User.Email user)) (Some (User.PasswordHash user)) (User.Role user)
            (User.Enabled user) created (nullIfEmpty (User.LastLoginAt user))]> t).

(** [EnsureBootstrapUser]: the conflict clause covers the pair of tenant and
    name; a conflict on the id alone is an error. *)
Definition bootstrap_id (tenant username : string) : string :=
  "bootstrap-" +:+ hashID (tenant +:+ String NUL username).
Definition rearm (passwordHash : string) (r : UserRow.t) : UserRow.t :=
  r <| UserRow.password_hash :=
         if bool_decide (UserRow.password_hash r = Some "") then Some passwordHash
         else UserRow.password_hash r |>
    <| UserRow.enabled := true |>.
Definition EnsureBootstrapUser (t : user_table) (username passwordHash role tenant : string)
    (clock : Time) : result user_table :=
  if (username =? "")%string || (passwordHash =? "")%string then Ok t
  else
    let tenant := tenantOrDefault tenant in
    let id := bootstrap_id tenant username in
    if negb (count_where (named tenant username) t =? 0) then
      Ok (update_where (named tenant username) (rearm passwordHash) t)
    else if bool_decide (is_Some (t !! id)) then
      Err (ErrMsg "UNIQUE constraint failed: users.id")
    else
      Ok (<[id := UserRow.mk id tenant username None (Some passwordHash) role true
            (FormatRFC3339 clock) None]> t).

(** [TouchUserLogin] *)
Definition TouchUserLogin (t : user_table) (id : string) (clock : Time) : user_table :=
  update_where (λ r, (UserRow.id r =? id)%string)
    (λ r, r <| UserRow.last_login_at := Some (FormatRFC3339 clock) |>) t.

(** ** The invariant of the table *)

Definition wf_users (t : user_table) : Prop :=
  Sql.keyed UserRow.id t
  ∧ (∀ k r, t !! k = Some r → UserRow.tenant_id r ≠ "")
  ∧ ∀ k1 k2 r1 r2, t !! k1 = Some r1 → t !! k2 = Some r2 →
      UserRow.tenant_id r1 = UserRow.tenant_id r2 → UserRow.username r1 = UserRow.username r2 →
      k1 = k2.

Lemma tenantOrDefault_nonempty s : tenantOrDefault s ≠ "".
Proof. unfold tenantOrDefault. case_if; bsplit; done. Qed.

Lemma named_spec tenant username r :
  named tenant username r = true ↔ UserRow.tenant_id r = tenant ∧ UserRow.username r = username.
Proof. unfold named. by rewrite andb_true_iff, !String.eqb_eq. Qed.

Lemma wf_users_insert t r :
  wf_users t → UserRow.tenant_id r ≠ "" → t !! UserRow.id r = None →
  count_where (named (UserRow.tenant_id r) (UserRow.username r)) t = 0 →
  wf_users (<[UserRow.id r := r]> t).
Proof.
  intros (Hk & Ht & Hu) Hne Hnone Hz. rewrite count_where_zero in Hz.
  assert (Hfresh : ∀ k r', t !! k = Some r' → UserRow.tenant_id r' = UserRow.tenant_id r →
    UserRow.username r' = UserRow.username r → False).
  { intros k r' Hr' H1 H2. specialize (Hz _ _ Hr').
    rewrite (proj2 (named_spec _ _ _)) in Hz by done. done. }
  split; [by apply insert_keyed|]. split.
  - intros k r'. destruct (decide (UserRow.id r = k)) as [<-|]; simplify_map_eq; [|eauto].
    by intros [= <-].
  - intros k1 k2 r1 r2 H1 H2 E1 E2.
    destruct (decide (UserRow.id r = k1)) as [<-|], (decide (UserRow.id r = k2)) as [<-|];
      simplify_map_eq; try done; try (exfalso; by eauto). by eapply Hu.
Qed.

Lemma wf_users_update p f t :
  (∀ r, UserRow.id (f r) = UserRow.id r ∧ UserRow.tenant_id (f r) = UserRow.tenant_id r
    ∧ UserRow.username (f r) = UserRow.username r) →
  wf_users t → wf_users (update_where p f t).
Proof.
  intros Hf (Hk & Ht & Hu).
  assert (Hl : ∀ k r, update_where p f t !! k = Some r → ∃ r', t !! k = Some r'
    ∧ UserRow.tenant_id r = UserRow.tenant_id r' ∧ UserRow.username r = UserRow.username r').
  { intros k r. rewrite lookup_update_where, fmap_Some. intros (r' & Hr' & ->).
    exists r'. split; [done|]. case_if; [apply Hf|done]. }
  split; [|split].
  - apply update_where_keyed; [apply Hf|done].
  - intros k r (r' & Hr' & -> & _)%Hl. eauto.
  - intros k1 k2 r1 r2 (r1' & H1 & -> & ->)%Hl (r2' & H2 & -> & ->)%Hl. eauto.
Qed.

(** The operations on the table. *)
Inductive user_step : user_table → user_table → Prop :=
  | us_insert t user c t' : InsertUser t user c = Ok t' → user_step t t'
  | us_bootstrap t u h r tn c t' : EnsureBootstrapUser t u h r tn c = Ok t' → user_step t t'
  | us_enable t id tn b t' : SetUserEnabled t id tn b = Ok t' → user_step t t'
  | us_touch t id c : user_step t (TouchUserLogin t id c).

Lemma user_step_wf t t' : wf_users t → user_step t t' → wf_users t'.
Proof.
  intros Hwf Hst. destruct Hst as [t user c t' Hi|t u h r tn c t' Hb|t id tn b t' Hs|t id c].
  - unfold InsertUser in Hi. case_if_in Hi; [done|]. case_if_in Hi; [done|].
    case_if_in Hi; [done|]. injection Hi as <-. bsplit.
    apply (wf_users_insert t (UserRow.mk _ _ _ _ _ _ _ _ _)); simpl; try done.
    + apply tenantOrDefault_nonempty.
    + by apply eq_None_not_Some.
  - unfold EnsureBootstrapUser in Hb. case_if_in Hb; [by simplify_eq|].
    case_if_in Hb; [injection Hb as <-; by apply wf_users_update|].
    case_if_in Hb; [done|]. injection Hb as <-. bsplit.
    apply (wf_users_insert t (UserRow.mk _ _ _ _ _ _ _ _ _)); simpl; try done.
    + apply tenantOrDefault_nonempty.
    + by apply eq_None_not_Some.
  - unfold SetUserEnabled in Hs. case_if_in Hs; [done|]. injection Hs as <-.
    by apply wf_users_update.
  - by apply wf_users_update.
Qed.

Definition users_reachable (t : user_table) : Prop := rtc user_step ∅ t.

Lemma users_reachable_wf t : users_reachable t → wf_users t.
Proof.
  intros Hr. assert (Hg : ∀ t1 t2, rtc user_step t1 t2 → wf_users t1 → wf_users t2).
  { induction 1; eauto using user_step_wf. }
  apply (Hg ∅ t Hr). split; [|split]; intros ?; intros; simplify_map_eq.
Qed.

(** At most one row has a given tenant and name, so [FindUser] is a function
    of the table and not of the order of its rows. *)
Lemma FindUser_unique t tenant username k r :
  wf_users t → t !! k = Some r →
  UserRow.tenant_id r = tenantOrDefault tenant → UserRow.username r = username →
  FindUser t tenant username = Ok (scanUser r).
Proof.
  intros (Hk & _ & Hu) Hr Ht Hn. unfold FindUser.
  assert (Hall : ∀ r', r' ∈ List.filter (named (tenantOrDefault tenant) username) (rows t) → r' = r).
  { intros r' [[k' Hr']%elem_of_rows [H1 H2]%named_spec]%elem_of_list_filter_bool.
    assert (k' = k) as -> by (eapply Hu; [exact Hr'|exact Hr|congruence|congruence]). congruence. }
  assert (Hin : r ∈ List.filter (named (tenantOrDefault tenant) username) (rows t)).
  { apply elem_of_list_filter_bool. split; [apply elem_of_rows; eauto|by apply named_spec]. }
  destruct (List.filter _ (rows t)) as [|r' l]; [by apply not_elem_of_nil in Hin|].
  by rewrite (Hall r') by left.
Qed.

(** in every reachable table, ensuring the bootstrap user makes the pair
    of tenant and name resolve to one enabled account that keeps its identity,
    role and any password it already has; only an empty password is replaced,
    and no other account changes. *)
Theorem bootstrap_keeps_password t username hash role tenant c t' k r :
  users_reachable t → username ≠ "" → hash ≠ "" →
  EnsureBootstrapUser t username hash role tenant c = Ok t' →
  t !! k = Some r → UserRow.tenant_id r = tenantOrDefault tenant → UserRow.username r = username →
  FindUser t' tenant username = Ok (scanUser (rearm hash r))
  ∧ User.Enabled (scanUser (rearm hash r)) = true
  ∧ User.Role (scanUser (rearm hash r)) = UserRow.role r
  ∧ (UserRow.password_hash r ≠ Some "" → UserRow.password_hash (rearm hash r) = UserRow.password_hash r)
  ∧ (∀ k', k' ≠ k → t' !! k' = t !! k').
Proof.
  intros Hwf%users_reachable_wf Hu Hh Hb Hr Ht Hn.
  assert (Hwf' : wf_users t') by (eapply user_step_wf; [done|by eapply us_bootstrap]).
  unfold EnsureBootstrapUser in Hb.
  rewrite (proj2 (String.eqb_neq _ _) Hu), (proj2 (String.eqb_neq _ _) Hh) in Hb. simpl in Hb.
  assert (Hnr : named (tenantOrDefault tenant) username r = true) by by apply named_spec.
  destruct (count_where (named (tenantOrDefault tenant) username) t =? 0) eqn:E.
  { bsplit. rewrite count_where_zero in E. rewrite (E _ _ Hr) in Hnr. done. }
  simpl in Hb. injection Hb as <-.
  split; [|split; [done|split; [done|split]]].
  - apply (FindUser_unique _ _ _ k); [done| |done|done].
    rewrite lookup_update_where, Hr. simpl. by rewrite Hnr.
  - intros Hp. unfold rearm; simpl. by rewrite bool_decide_eq_false_2.
  - intros k' Hne. rewrite lookup_update_where. destruct (t !! k') as [r'|] eqn:E'; [|done]. simpl.
    destruct (named _ _ r') eqn:En; [|done]. exfalso. apply Hne.
    apply named_spec in En as [H1 H2]. destruct Hwf as (_ & _ & Huniq).
    eapply Huniq; [exact E'|exact Hr|congruence|congruence].
Qed.
End users.
