(* ===== verification/Jobs.v ===== *)
(** * Jobs, their events, the audit log and retention: [internal/db/sqlite.go]

    The tables [jobs], [job_events] and [audit_logs].  A JSON column is
    represented by the value it encodes, a table with an automatic key by its
    next key and its rows in the order of insertion. *)
From S2P Require Import Prelude Sql GoStr GoFloat GoTime Model Tasks TaskQueue TaskLease.

(** A row of [jobs]. *)
Module JobRow.
Record t := mk {
  id : string;
  type_ : string;
  status : string;
  progress : float64;
  message : string;
  error : string;
  stats : option (gmap string json);
  options : option (gmap string json);
  created_at : string;
  updated_at : string;
  started_at : option string;
  ended_at : option string;
  actor : string;
  tenant_id : string;
}.
#[export] Instance eta : Eta t := λ r, mk (id r) (type_ r) (status r) (progress r) (message r)
  (error r) (stats r) (options r) (created_at r) (updated_at r) (started_at r) (ended_at r)
  (actor r) (tenant_id r).
End JobRow.
Export (hints) JobRow.

Abbreviation job_table := (gmap string JobRow.t).

(** [JobEvent] and the table [job_events] *)
Module JobEvent.
Record t := mk { ID : Z; JobID : string; At : string; Level : string; Message : string }.
End JobEvent.
Module Events.
Record t := mk { next : Z; entries : list JobEvent.t }.
End Events.

(** A row of [audit_logs], and the table *)
Module AuditRow.
Record t := mk { id : Z; at_ : string; actor : string; action : string; detail : string }.
End AuditRow.
Module AuditLog.
Record t := mk { next : Z; entries : list AuditRow.t }.
End AuditLog.

(** [ORDER BY created_at DESC,id DESC] *)
Definition job_cmp (a b : JobRow.t) : comparison :=
  lexc (String.compare (JobRow.created_at b) (JobRow.created_at a))
    (String.compare (JobRow.id b) (JobRow.id a)).

#[export] Instance job_cmp_comparator : Comparator (λ _ : JobRow.t, True) job_cmp.
Proof. unfold job_cmp. apply _. Qed.

Definition job_in (tenant : string) (r : JobRow.t) : bool :=
  (tenant =? "")%string || (JobRow.tenant_id r =? tenantOrDefault tenant)%string.

(** [LIKE] of SQLite, on ASCII text: [%] is any text, [_] any character, and
    letters match in either case. *)
Fixpoint like_bytes (pat s : bytes) {struct pat} : bool :=
  match pat with
  | [] => match s with [] => true | _ => false end
  | "%"%char :: pat =>
      (fix any (s : bytes) : bool :=
        like_bytes pat s || match s with [] => false | _ :: s => any s end) s
  | "_"%char :: pat => match s with [] => false | _ :: s => like_bytes pat s end
  | c :: pat =>
      match s with
      | [] => false
      | d :: s => Ascii.eqb (lower_byte c) (lower_byte d) && like_bytes pat s
      end
  end.
Definition like (s pat : string) : bool := like_bytes (explode pat) (explode s).

(** [auditFilters] *)
Definition auditFilters (tenant from to : string) (r : AuditRow.t) : bool :=
  ((tenant =? "")%string || like (AuditRow.actor r) (tenantOrDefault tenant +:+ ":%")
   || (AuditRow.actor r =? "system")%string)
  && ((from =? "")%string || String.leb from (AuditRow.at_ r))
  && ((to =? "")%string || String.leb (AuditRow.at_ r) to).

(** [ORDER BY id DESC LIMIT] *)
Definition newest (limit : Z) (p : AuditRow.t → bool) (log : AuditLog.t) : list AuditRow.t :=
  take (Z.to_nat limit)
    (stable_sort (λ a b, AuditRow.id b <? AuditRow.id a) (List.filter p (AuditLog.entries log))).

(** [ListAuditTenantRange] and the listings that call it *)
Definition ListAuditTenantRange (log : AuditLog.t) (limit : Z) (tenant from to : string)
    : list AuditRow.t :=
  let limit := if (limit <=? 0) || (500 <? limit) then 50 else limit in
  newest limit (auditFilters tenant from to) log.
Definition ListAuditTenant (log : AuditLog.t) (limit : Z) (tenant : string) : list AuditRow.t :=
  ListAuditTenantRange log limit tenant "" "".
Definition ListAudit (log : AuditLog.t) (limit : Z) : list AuditRow.t := ListAuditTenant log limit "".

(** [ListAuditPageTenantRange] *)
Definition ListAuditPageTenantRange (log : AuditLog.t) (limit : Z) (cursor tenant from to : string)
    : result (list AuditRow.t) :=
  let limit := if (limit <=? 0) || (101 <? limit) then 51 else limit in
  let! before :=
    if (cursor =? "")%string then Ok (λ _ : AuditRow.t, true)
    else
      match Atoi cursor with
      | (id, ok) =>
          if negb ok || (id <? 1) then Err (ErrMsg "invalid audit cursor")
          else Ok (λ r : AuditRow.t, AuditRow.id r <? id)
      end in
  Ok (newest limit (λ r, auditFilters tenant from to r && before r) log).

(** [CountAuditTenantRange] *)
Definition CountAuditTenantRange (log : AuditLog.t) (tenant from to : string) : Z :=
  Z.of_nat (length (List.filter (auditFilters tenant from to) (AuditLog.entries log))).

(** The calendar of the host: [t.AddDate(0, 0, days)] in its local zone. *)
Class LocalCalendar := AddDays : Time → Z → Time.

(** The tables that [PruneHistory] cleans. *)
Module Metric.
Record t := mk {
  NodeID : string;
  MeasuredAt : string;
  Success : bool;
  LatencyMS : Z;
  JitterMS : Z;
  TLSMS : Z;
  HTTPMS : Z;
  ThroughputBPS : Z;
  Score : float64;
}.
End Metric.

(** A row of [alerts]. *)
Module AlertRow.
Record t := mk {
  id : string;
  kind : string;
  severity : string;
  message : string;
  details : option (gmap string json);
  active : bool;
  created_at : string;
  resolved_at : option string;
  acknowledged_at : option string;
  acknowledged_by : option string;
}.
#[export] Instance eta : Eta t := λ r, mk (id r) (kind r) (severity r) (message r) (details r)
  (active r) (created_at r) (resolved_at r) (acknowledged_at r) (acknowledged_by r).
End AlertRow.
Export (hints) AlertRow.

Module History.
Record t := mk {
  jobs : job_table;
  events : Events.t;
  audit : AuditLog.t;
  metrics : list Metric.t;
  tasks : table;
  alerts : gmap string AlertRow.t;
}.
#[export] Instance eta : Eta t := λ h, mk (jobs h) (events h) (audit h) (metrics h) (tasks h) (alerts h).
End History.
Export (hints) History.

Section jobs.
Context `{TzData} `{LenientParse}.

(** [fmtTimePtr] *)
Definition fmtTimePtr (t : option Time) : option string :=
  match t with
  | None => None
  | Some t => if IsZero t then None else Some (fmtTime t)
  end.

(** [SaveJob]: an upsert that keeps the type, the options and the creation
    time of an existing row *)
Definition SaveJob (t : job_table) (j : Job.t) : job_table :=
  let fresh := JobRow.mk (Job.ID j) (Job.Type_ j) (Job.Status j) (Job.Progress j) (Job.Message j)
    (Job.Error j) (Job.Stats j) (Job.Options j) (fmtTime (Job.CreatedAt j))
    (fmtTime (Job.UpdatedAt j)) (fmtTimePtr (Job.StartedAt j)) (fmtTimePtr (Job.EndedAt j))
    (Job.Actor j) (tenantOrDefault (Job.TenantID j)) in
  match t !! Job.ID j with
  | None => <[Job.ID j := fresh]> t
  | Some r =>
      <[Job.ID j :=
        fresh <| JobRow.type_ := JobRow.type_ r |> <| JobRow.options := JobRow.options r |>
              <| JobRow.created_at := JobRow.created_at r |>]> t
  end.

(** One row of [scanJobs] *)
Definition scanJob (r : JobRow.t) : Job.t :=
  Job.mk (JobRow.id r) (JobRow.type_ r) (JobRow.status r) (JobRow.progress r) (JobRow.message r)
    (JobRow.error r) (JobRow.stats r) (parseTime (JobRow.created_at r))
    (parseTime (JobRow.updated_at r)) (parseTime <$> JobRow.started_at r)
    (parseTime <$> JobRow.ended_at r) (JobRow.options r) (JobRow.actor r) (JobRow.tenant_id r).

(** [ListJobsPageTenant] and the listings that call it *)
Definition ListJobsPageTenant (t : job_table) (limit : Z) (cursor tenant : string)
    : result (list Job.t) :=
  let limit := if limit <=? 0 then 30 else limit in
  let! after :=
    if (cursor =? "")%string then Ok (λ _, true)
    else
      match t !! cursor with
      | Some x => if job_in tenant x then Ok (less job_cmp x) else Err ErrNoRows
      | None => Err ErrNoRows
      end in
  Ok (scanJob <$> select_page (λ r, job_in tenant r && after r) (less job_cmp) limit t).
Definition ListJobsPage (t : job_table) (limit : Z) (cursor : string) : result (list Job.t) :=
  ListJobsPageTenant t limit cursor "".
Definition ListJobs (t : job_table) (limit : Z) : result (list Job.t) := ListJobsPage t limit "".

(** [GetJobTenant] and [GetJob] *)
Definition GetJobTenant (t : job_table) (id tenant : string) : result Job.t :=
  match t !! id with
  | Some r => if job_in tenant r then Ok (scanJob r) else Err ErrNoRows
  | None => Err ErrNoRows
  end.
Definition GetJob (t : job_table) (id : string) : result Job.t := GetJobTenant t id "".

(** [AddJobEvent] *)
Definition AddJobEvent (ev : Events.t) (jobID level msg : string) (clock : Time) : Events.t :=
  Events.mk (Events.next ev + 1)
    (Events.entries ev ++ [JobEvent.mk (Events.next ev) jobID (FormatRFC3339 clock) level msg]).

(** [ListJobEventsTenant] and [ListJobEvents] *)
Definition ListJobEventsTenant (jobs : job_table) (ev : Events.t) (jobID : string)
    (afterID limit : Z) (tenant : string) : result (list JobEvent.t) :=
  let! _ :=
    if negb (tenant =? "")%string then
      let! _ := GetJobTenant jobs jobID tenant in Ok tt
    else Ok tt in
  let limit := if (limit <=? 0) || (1000 <? limit) then 200 else limit in
  Ok (take (Z.to_nat limit)
    (stable_sort (λ a b, JobEvent.ID a <? JobEvent.ID b)
      (List.filter (λ e, (JobEvent.JobID e =? jobID)%string && (afterID <? JobEvent.ID e))
        (Events.entries ev)))).
Definition ListJobEvents (jobs : job_table) (ev : Events.t) (jobID : string) (afterID limit : Z)
    : result (list JobEvent.t) := ListJobEventsTenant jobs ev jobID afterID limit "".

(** [Audit] *)
Definition Audit (log : AuditLog.t) (actor action detail : string) (clock : Time) : AuditLog.t :=
  AuditLog.mk (AuditLog.next log + 1)
    (AuditLog.entries log ++ [AuditRow.mk (AuditLog.next log) (FormatRFC3339 clock) actor action detail]).

(** [PruneHistory]: the statements in their order, with the clock read three
    times; the events of a pruned job go before it. *)
Definition retention (days fallback : Z) : Z := if days <=? 0 then fallback else days.
Definition PruneHistory `{LocalCalendar} (h : History.t) (jobDays auditDays : Z)
    (metricDays : list Z) (c1 c2 c3 : Time) : History.t :=
  let metrics := match metricDays with d :: _ => if 0 <? d then d else 30 | [] => 30 end in
  let jobCutoff := fmtTime (AddDays c1 (- retention jobDays 30)) in
  let auditCutoff := fmtTime (AddDays c2 (- retention auditDays 90)) in
  let metricCutoff := fmtTime (AddDays c3 (- metrics)) in
  let old r := String.ltb (JobRow.created_at r) jobCutoff in
  let doomed id := negb (count_where (λ r, (JobRow.id r =? id)%string && old r) (History.jobs h) =? 0) in
  History.mk
    (delete_where old (History.jobs h))
    (Events.mk (Events.next (History.events h))
      (List.filter (λ e, negb (doomed (JobEvent.JobID e))) (Events.entries (History.events h))))
    (AuditLog.mk (AuditLog.next (History.audit h))
      (List.filter (λ a, negb (String.ltb (AuditRow.at_ a) auditCutoff))
        (AuditLog.entries (History.audit h))))
    (List.filter (λ m, negb (String.ltb (Metric.MeasuredAt m) metricCutoff)) (History.metrics h))
    (prune_tasks (History.tasks h) (AddDays c1 (- retention jobDays 30)))
    (delete_where (λ a, negb (AlertRow.active a) && null_lt (AlertRow.resolved_at a) auditCutoff)
      (History.alerts h)).

(** ** Laws *)

Lemma job_cmp_key x y : job_cmp x y = Eq → JobRow.id x = JobRow.id y.
Proof.
  unfold job_cmp. destruct (String.compare (JobRow.created_at y) _); try done.
  simpl. intros Hc. symmetry. by apply String.compare_eq_iff.
Qed.

Definition wf_jobs (t : job_table) : Prop := Sql.keyed JobRow.id t.

Lemma SaveJob_wf t j : wf_jobs t → wf_jobs (SaveJob t j).
Proof.
  intros Hk k r. unfold SaveJob. destruct (t !! Job.ID j);
    destruct (decide (Job.ID j = k)) as [<-|]; intros Hr;
    rewrite ?lookup_insert_eq, ?lookup_insert_ne in Hr by done; [by injection Hr as <-|eauto..].
  by injection Hr as <-.
Qed.

(** A time that a job carries, when it carries one. *)
Definition storable_opt (o : option Time) : Prop := match o with Some t => storable t | None => True end.

Lemma parse_ptr `{!TzShanghai} o : storable_opt o → parseTime <$> fmtTimePtr o = o.
Proof.
  destruct o as [t|]; simpl; [|done]. intros Hs. rewrite storable_not_zero by done. simpl.
  f_equal. by apply parseTime_fmtTime.
Qed.

(** a job that was never stored reads back exactly as it was saved, to the
    nanosecond, with the tenant defaulted; saving it again keeps the type, the
    options and the creation time of the first save and takes everything else
    from the last. *)
Theorem job_roundtrip `{!TzShanghai} t j j' :
  t !! Job.ID j = None → Job.ID j' = Job.ID j →
  storable (Job.CreatedAt j) → storable (Job.UpdatedAt j) →
  storable_opt (Job.StartedAt j) → storable_opt (Job.EndedAt j) →
  storable (Job.UpdatedAt j') → storable_opt (Job.StartedAt j') → storable_opt (Job.EndedAt j') →
  GetJob (SaveJob t j) (Job.ID j) =
    Ok (j <| Job.TenantID := tenantOrDefault (Job.TenantID j) |>)
  ∧ GetJob (SaveJob (SaveJob t j) j') (Job.ID j) =
    Ok (j' <| Job.TenantID := tenantOrDefault (Job.TenantID j') |>
           <| Job.Type_ := Job.Type_ j |> <| Job.Options := Job.Options j |>
           <| Job.CreatedAt := Job.CreatedAt j |>).
Proof.
  intros Hn Hid Hc Hu Hs He Hu' Hs' He'. split.
  - unfold GetJob, GetJobTenant, SaveJob. rewrite Hn, lookup_insert_eq. simpl.
    unfold scanJob; simpl. rewrite !parseTime_fmtTime, !parse_ptr by done. by destruct j.
  - unfold GetJob, GetJobTenant. unfold SaveJob at 2. rewrite Hn. unfold SaveJob.
    rewrite Hid, !lookup_insert_eq. simpl. unfold scanJob; simpl.
    rewrite !parseTime_fmtTime, !parse_ptr by done. destruct j'; simpl in *. by subst.
Qed.

(** retention removes a job, with its events, exactly when it was created
    before the cutoff; it never removes a task that is queued or running, nor
    an active alert, however old. *)
Theorem prune_exact `{!TzShanghai} `{LocalCalendar} h jobDays auditDays metricDays c1 c2 c3 id r u :
  wf_jobs (History.jobs h) →
  History.jobs h !! id = Some r → JobRow.created_at r = fmtTime u →
  let cutoff := AddDays c1 (- retention jobDays 30) in
  storable u → storable cutoff →
  let h' := PruneHistory h jobDays auditDays metricDays c1 c2 c3 in
  (History.jobs h' !! id = Some r ↔ cutoff ≤ u)
  ∧ (∀ e, e ∈ Events.entries (History.events h) → JobEvent.JobID e = id →
      (e ∈ Events.entries (History.events h') ↔ cutoff ≤ u))
  ∧ (∀ k task, History.tasks h !! k = Some task → pending task = true →
      History.tasks h' !! k = Some task)
  ∧ (∀ k a, History.alerts h !! k = Some a → AlertRow.active a = true →
      History.alerts h' !! k = Some a).
Proof.
  intros Hk Hr Hcr cutoff Hsu Hsc h'. unfold h', PruneHistory; simpl.
  assert (Hold : String.ltb (JobRow.created_at r) (fmtTime cutoff) = (u <? cutoff)).
  { rewrite Hcr. by apply fmtTime_ltb. }
  split; [|split; [|split]].
  - rewrite lookup_delete_where. fold cutoff. rewrite Hold, Z.ltb_ge. tauto.
  - intros e He Hid. rewrite elem_of_list_filter_bool, Hid, count_where_id, Hr by done.
    fold cutoff. rewrite Hold. destruct (Z.ltb_spec u cutoff); simpl; split; intros; try lia;
      tauto.
  - intros k task Ht Hp. apply lookup_delete_where. split; [done|].
    assert (finished task = false) as ->; [|done].
    unfold pending in Hp. apply orb_prop in Hp as [Hp|Hp]; bsplit;
      auto using queued_not_finished, running_not_finished.
  - intros k a Ha Hact. apply lookup_delete_where. by rewrite Hact.
Qed.

(** The audit entries listed for a tenant are not only its own and the
    system's: the tenant is used as a [LIKE] pattern, so a tenant whose name
    has a wildcard reads the entries of another tenant. *)
Theorem audit_crosses_tenants :
  ∃ log, AuditLog.entries log = [AuditRow.mk 1 "2025-12-13T00:00:00+08:00" "acme1:u" "auth.login" "local"]
    ∧ ListAuditTenant log 10 "acme_" = AuditLog.entries log.
Proof. eexists (AuditLog.mk 2 _). split; reflexivity. Qed.
End jobs.
