(* ===== verification/Alerts.v ===== *)
(** * Alerts, configuration versions and source states

    [internal/db/alerts.go], [internal/db/config_versions.go] and the source
    table of [internal/db/sqlite.go].  An alert is stored under its kind: the
    table holds one alert per kind. *)
From S2P Require Import Prelude Sql GoStr GoFloat GoTime Model Tasks Jobs.

Abbreviation alert_table := (gmap string AlertRow.t).

(** [Alert] *)
Module Alert.
Record t := mk {
  ID : string;
  Kind : string;
  Severity : string;
  Message : string;
  Details : option (gmap string json);
  Active : bool;
  CreatedAt : string;
  ResolvedAt : string;
  AcknowledgedAt : string;
  AcknowledgedBy : string;
}.
End Alert.

Definition active_rank (r : AlertRow.t) : Z := if AlertRow.active r then 1 else 0.

(** [ORDER BY active DESC,created_at DESC,id DESC] *)
Definition alert_cmp (a b : AlertRow.t) : comparison :=
  lexc (active_rank b ?= active_rank a)
    (lexc (String.compare (AlertRow.created_at b) (AlertRow.created_at a))
      (String.compare (AlertRow.id b) (AlertRow.id a))).

#[export] Instance alert_cmp_comparator : Comparator (λ _ : AlertRow.t, True) alert_cmp.
Proof. unfold alert_cmp. apply _. Qed.

Lemma alert_cmp_key x y : alert_cmp x y = Eq → AlertRow.id x = AlertRow.id y.
Proof.
  unfold alert_cmp. destruct (active_rank y ?= _); try done. simpl.
  destruct (String.compare (AlertRow.created_at y) _); try done.
  simpl. intros Hc. symmetry. by apply String.compare_eq_iff.
Qed.

(** [scanAlerts] *)
Definition scanAlert (r : AlertRow.t) : Alert.t :=
  Alert.mk (AlertRow.id r) (AlertRow.kind r) (AlertRow.severity r) (AlertRow.message r)
    (AlertRow.details r) (AlertRow.active r) (AlertRow.created_at r)
    (default "" (AlertRow.resolved_at r)) (default "" (AlertRow.acknowledged_at r))
    (default "" (AlertRow.acknowledged_by r)).

Definition shown (activeOnly : bool) (r : AlertRow.t) : bool := negb activeOnly || AlertRow.active r.

(** [ListAlerts] *)
Definition ListAlerts (t : alert_table) (activeOnly : bool) (limit : Z) : list Alert.t :=
  let limit := if (limit <=? 0) || (500 <? limit) then 100 else limit in
  scanAlert <$> select_page (shown activeOnly) (less alert_cmp) limit t.

(** [ListAlertsPage] *)
Definition ListAlertsPage (t : alert_table) (activeOnly : bool) (limit : Z) (cursor : string)
    : result (list Alert.t) :=
  let limit := if (limit <=? 0) || (101 <? limit) then 31 else limit in
  let! after :=
    if (cursor =? "")%string then Ok (λ _, true)
    else
      match t !! cursor with
      | Some x => if shown activeOnly x then Ok (less alert_cmp x) else Err ErrNoRows
      | None => Err ErrNoRows
      end in
  Ok (scanAlert <$> select_page (λ r, shown activeOnly r && after r) (less alert_cmp) limit t).

(** [CountAlerts] *)
Definition CountAlerts (t : alert_table) (activeOnly : bool) : Z := count_where (shown activeOnly) t.

(** [PreviousCompletedQualityStats] *)
Definition null_cmp (a b : option string) : comparison :=
  match a, b with
  | None, None => Eq
  | None, Some _ => Lt
  | Some _, None => Gt
  | Some x, Some y => String.compare x y
  end.
(** [ORDER BY ended_at DESC,id DESC], where NULL is the least value *)
Definition ended_less (a b : JobRow.t) : bool :=
  lt_of (lexc (null_cmp (JobRow.ended_at b) (JobRow.ended_at a))
          (String.compare (JobRow.id b) (JobRow.id a))).
Definition quality_job (excludeID : string) (r : JobRow.t) : bool :=
  negb (JobRow.id r =? excludeID)%string && (JobRow.status r =? "completed")%string
  && ((JobRow.type_ r =? "quality")%string || (JobRow.type_ r =? "full")%string).
Definition PreviousCompletedQualityStats (t : job_table) (excludeID : string)
    : result (option (gmap string json)) :=
  match select_page (quality_job excludeID) ended_less 1 t with
  | r :: _ => Ok (JobRow.stats r)
  | [] => Err ErrNoRows
  end.

(** [RecentConsecutiveJobFailures] *)
Fixpoint leading_failures (l : list JobRow.t) : Z :=
  match l with
  | [] => 0
  | r :: l => if negb (JobRow.status r =? "failed")%string then 0 else 1 + leading_failures l
  end.
Definition ended_job (r : JobRow.t) : bool :=
  (JobRow.status r =? "completed")%string || (JobRow.status r =? "failed")%string.
Definition RecentConsecutiveJobFailures (t : job_table) (limit : Z) : Z :=
  let limit := if limit <=? 0 then 10 else limit in
  leading_failures (select_page ended_job ended_less limit t).

(** [ConfigVersion] *)
Module ConfigVersion.
Record t := mk {
  ID : string;
  Actor : string;
  Checksum : string;
  PatchJSON : string;
  CreatedAt : string;
}.
#[export] Instance eta : Eta t := λ v, mk (ID v) (Actor v) (Checksum v) (PatchJSON v) (CreatedAt v).
End ConfigVersion.
Export (hints) ConfigVersion.
Abbreviation version_table := (gmap string ConfigVersion.t).

Definition version_cmp (a b : ConfigVersion.t) : comparison :=
  lexc (String.compare (ConfigVersion.CreatedAt b) (ConfigVersion.CreatedAt a))
    (String.compare (ConfigVersion.ID b) (ConfigVersion.ID a)).

(** [LatestConfigVersion] and [ListConfigVersions] *)
Definition LatestConfigVersion (t : version_table) : result ConfigVersion.t :=
  match select_page (λ _, true) (less version_cmp) 1 t with v :: _ => Ok v | [] => Err ErrNoRows end.
Definition ListConfigVersions (t : version_table) (limit : Z) : list ConfigVersion.t :=
  let limit := if (limit <=? 0) || (100 <? limit) then 20 else limit in
  select_page (λ _, true) (less version_cmp) limit t.

(** [SourceState]; the nullable columns of its row are options there. *)
Module SourceState.
Record t := mk {
  Name : string;
  URL : string;
  Priority : Z;
  LastAttemptAt : string;
  LastSuccessAt : string;
  LastError : string;
  ConsecutiveFailures : Z;
  FetchCount : Z;
  SuccessCount : Z;
  LatencyMS : Z;
  Bytes : Z;
  StatusCode : Z;
  Attempts : Z;
  DisabledUntil : string;
  ManuallyDisabled : bool;
  ContributionTotal : Z;
  ContributionHQ : Z;
  HealthScore : float64;
}.
#[export] Instance eta : Eta t := λ s, mk (Name s) (URL s) (Priority s) (LastAttemptAt s)
  (LastSuccessAt s) (LastError s) (ConsecutiveFailures s) (FetchCount s) (SuccessCount s)
  (LatencyMS s) (Bytes s) (StatusCode s) (Attempts s) (DisabledUntil s) (ManuallyDisabled s)
  (ContributionTotal s) (ContributionHQ s) (HealthScore s).
End SourceState.
Export (hints) SourceState.

(** The table [source_states]: a row is kept as the [SourceState] that
    [ListSourceStates] reads from it, NULL being the empty string. *)
Abbreviation source_table := (gmap string SourceState.t).

(** [ListSourceStates]: [ORDER BY priority DESC,name] *)
Definition source_cmp (a b : SourceState.t) : comparison :=
  lexc (SourceState.Priority b ?= SourceState.Priority a)
    (String.compare (SourceState.Name a) (SourceState.Name b)).
Definition ListSourceStates (t : source_table) : list SourceState.t :=
  stable_sort (less source_cmp) (rows t).

(** [SetSourceEnabled] of the database *)
Definition db_SetSourceEnabled (t : source_table) (name : string) (enabled : bool)
    : result source_table :=
  match t !! name with
  | None => Err ErrNoRows
  | Some st =>
      Ok (<[name := st <| SourceState.ManuallyDisabled := negb enabled |>
                       <| SourceState.DisabledUntil := "" |>]> t)
  end.

(** [EnsureSource] *)
Definition EnsureSource (t : source_table) (st : SourceState.t) : source_table :=
  let health := if f_eq (SourceState.HealthScore st) f_zero then f_of_Z 100
                else SourceState.HealthScore st in
  match t !! SourceState.Name st with
  | Some old =>
      <[SourceState.Name st := old <| SourceState.URL := SourceState.URL st |>
                                   <| SourceState.Priority := SourceState.Priority st |>]> t
  | None =>
      <[SourceState.Name st := SourceState.mk (SourceState.Name st) (SourceState.URL st)
          (SourceState.Priority st) "" "" "" 0 0 0 0 0 0 0 "" false 0 0 health]> t
  end.

(** [SetSourceContribution] *)
Definition SetSourceContribution (t : source_table) (name : string) (total hq : Z)
    (health : float64) : source_table :=
  alter (λ st, st <| SourceState.ContributionTotal := total |>
                  <| SourceState.ContributionHQ := hq |>
                  <| SourceState.HealthScore := health |>) name t.

Section alerts.
Context `{TzData}.

(** [RaiseAlert]: details that do not marshal are an error ([marshals]). *)
Definition RaiseAlert (t : alert_table) (kind severity message : string)
    (details : option (gmap string json)) (clock : Time) : Alert.t * alert_table :=
  let at_ := FormatRFC3339 clock in
  let fresh := AlertRow.mk kind kind severity message details true at_ None None None in
  (Alert.mk kind kind severity message details true at_ "" "" "",
   match t !! kind with
   | None => <[kind := fresh]> t
   | Some r => <[kind := fresh <| AlertRow.kind := AlertRow.kind r |>]> t
   end).

Definition active_id (id : string) (r : AlertRow.t) : bool :=
  (AlertRow.id r =? id)%string && AlertRow.active r.

(** [AcknowledgeAlert] *)
Definition AcknowledgeAlert (t : alert_table) (id actor : string) (clock : Time)
    : result alert_table :=
  if count_where (active_id id) t =? 0 then Err ErrNoRows
  else Ok (update_where (active_id id)
            (λ r, r <| AlertRow.acknowledged_at := Some (FormatRFC3339 clock) |>
                    <| AlertRow.acknowledged_by := Some actor |>) t).

(** [ResolveAlert] and [ResolveAlertIfActive] *)
Definition resolve_row (at_ : string) (r : AlertRow.t) : AlertRow.t :=
  r <| AlertRow.active := false |> <| AlertRow.resolved_at := Some at_ |>.
Definition ResolveAlert (t : alert_table) (id : string) (clock : Time) : result alert_table :=
  if count_where (active_id id) t =? 0 then Err ErrNoRows
  else Ok (update_where (active_id id) (resolve_row (FormatRFC3339 clock)) t).
Definition ResolveAlertIfActive (t : alert_table) (id : string) (clock : Time) : alert_table :=
  update_where (active_id id) (resolve_row (FormatRFC3339 clock)) t.

(** [SaveConfigVersion] *)
Definition SaveConfigVersion (t : version_table) (version : ConfigVersion.t) (clock : Time)
    : result version_table :=
  let version :=
    if (ConfigVersion.CreatedAt version =? "")%string
    then version <| ConfigVersion.CreatedAt := FormatRFC3339 clock |> else version in
  match t !! ConfigVersion.ID version with
  | Some _ => Err (ErrMsg "UNIQUE constraint failed: config_versions.id")
  | None => Ok (<[ConfigVersion.ID version := version]> t)
  end.

(** [RecordSourceFetch] *)
Definition RecordSourceFetch (t : source_table) (st : SourceState.t) (ok : bool) (clock : Time)
    : source_table :=
  let now := FormatRFC3339 clock in
  let old := t !! SourceState.Name st in
  let count f := from_option f 0 old in
  let new :=
    st <| SourceState.LastAttemptAt := now |>
       <| SourceState.LastSuccessAt :=
            if ok then now else from_option SourceState.LastSuccessAt "" old |>
       <| SourceState.LastError := if ok then "" else SourceState.LastError st |>
       <| SourceState.ConsecutiveFailures :=
            if ok then 0 else count SourceState.ConsecutiveFailures + 1 |>
       <| SourceState.FetchCount := count SourceState.FetchCount + 1 |>
       <| SourceState.SuccessCount := count SourceState.SuccessCount + (if ok then 1 else 0) |> in
  <[SourceState.Name st := new]> t.

(** ** The alert table *)

Inductive alert_step : alert_table → alert_table → Prop :=
  | as_raise t k s m d c : alert_step t (RaiseAlert t k s m d c).2
  | as_ack t id a c t' : AcknowledgeAlert t id a c = Ok t' → alert_step t t'
  | as_resolve t id c t' : ResolveAlert t id c = Ok t' → alert_step t t'
  | as_resolve_if t id c : alert_step t (ResolveAlertIfActive t id c)
  | as_prune t p : alert_step t (delete_where p t).

Definition wf_alert (r : AlertRow.t) : Prop :=
  AlertRow.kind r = AlertRow.id r ∧
  (AlertRow.active r = true ↔ AlertRow.resolved_at r = None).

Definition wf_alerts (t : alert_table) : Prop :=
  Sql.keyed AlertRow.id t ∧ ∀ k r, t !! k = Some r → wf_alert r.

Lemma wf_alerts_update p f t :
  (∀ r, AlertRow.id (f r) = AlertRow.id r) → (∀ r, wf_alert r → p r = true → wf_alert (f r)) →
  wf_alerts t → wf_alerts (update_where p f t).
Proof.
  intros Hid Hf [Hk Hw]. split; [by apply update_where_keyed|].
  intros k r. rewrite lookup_update_where, fmap_Some. intros (r' & Hr' & ->). case_if; eauto.
Qed.

Lemma wf_resolve at_ r : wf_alert r → wf_alert (resolve_row at_ r).
Proof. intros [? ?]. split; [done|]. simpl. by split. Qed.

Lemma alert_step_wf t t' : wf_alerts t → alert_step t t' → wf_alerts t'.
Proof.
  intros [Hk Hw] Hst.
  destruct Hst as [t k s m d c|t id a c t' Ha|t id c t' Hr|t id c|t p].
  - assert (Hin : ∀ r, AlertRow.id r = k → wf_alert r → wf_alerts (<[k := r]> t)).
    { intros r <- Hr. split; [by apply insert_keyed|]. intros k' r'.
      destruct (decide (AlertRow.id r = k')) as [<-|]; intros Hr'; simplify_map_eq; eauto. }
    simpl. destruct (t !! k) as [r|] eqn:E; apply Hin; try done.
    split; [|done]. simpl. destruct (Hw _ _ E) as [-> _]. by apply Hk.
  - unfold AcknowledgeAlert in Ha. case_if_in Ha; [done|]. injection Ha as <-.
    apply wf_alerts_update; [done| |by split]. by intros r [? ?] _.
  - unfold ResolveAlert in Hr. case_if_in Hr; [done|]. injection Hr as <-.
    apply wf_alerts_update; [done| |by split]. intros r ? _. by apply wf_resolve.
  - apply wf_alerts_update; [done| |by split]. intros r ? _. by apply wf_resolve.
  - split; [by apply delete_where_keyed|]. intros k r [? _]%lookup_delete_where. eauto.
Qed.

(** the alert table is a state machine with one alert per kind: raising an
    alert makes its kind active and unacknowledged whatever its history; an
    active alert leaves that state only by being resolved, which a second
    resolution reports as an error; resolving never touches another kind. *)
Theorem alert_lifecycle t kind severity message details c c' :
  rtc alert_step ∅ t →
  let t1 := (RaiseAlert t kind severity message details c).2 in
  (∃ r, t1 !! kind = Some r ∧ AlertRow.kind r = kind ∧ AlertRow.active r = true
    ∧ AlertRow.resolved_at r = None ∧ AlertRow.acknowledged_at r = None
    ∧ AlertRow.severity r = severity ∧ AlertRow.created_at r = FormatRFC3339 c)
  ∧ ∃ t2, ResolveAlert t1 kind c' = Ok t2
    ∧ (∃ r, t2 !! kind = Some r ∧ AlertRow.active r = false
         ∧ AlertRow.resolved_at r = Some (FormatRFC3339 c'))
    ∧ (∀ k, k ≠ kind → t2 !! k = t !! k)
    ∧ ∀ c'', ResolveAlert t2 kind c'' = Err ErrNoRows.
Proof.
  intros Hreach t1.
  assert (Hwf : wf_alerts t).
  { assert (Hg : ∀ a b, rtc alert_step a b → wf_alerts a → wf_alerts b).
    { induction 1; eauto using alert_step_wf. }
    apply (Hg ∅ t Hreach). split; intros ?; intros; simplify_map_eq. }
  assert (Hwf1 : wf_alerts t1) by (eapply alert_step_wf; [done|apply as_raise]).
  assert (H1 : ∃ r, t1 !! kind = Some r ∧ AlertRow.kind r = kind ∧ AlertRow.active r = true
    ∧ AlertRow.resolved_at r = None ∧ AlertRow.acknowledged_at r = None
    ∧ AlertRow.severity r = severity ∧ AlertRow.created_at r = FormatRFC3339 c).
  { unfold t1; simpl. destruct (t !! kind) as [r|] eqn:E; rewrite lookup_insert_eq;
      (eexists; split; [done|]); simpl; [|done].
    destruct Hwf as [Hk Hw]. destruct (Hw _ _ E) as [-> _]. by rewrite (Hk _ _ E). }
  split; [done|]. destruct H1 as (r & Hr & Hkd & Hact & _).
  destruct Hwf1 as [Hk1 _].
  assert (Hsel : ∀ t0 : alert_table, Sql.keyed AlertRow.id t0 → ∀ r0, t0 !! kind = Some r0 →
    count_where (active_id kind) t0 = if AlertRow.active r0 then 1 else 0).
  { intros t0 Hk0 r0 Hr0. unfold active_id. rewrite count_where_id, Hr0 by done. done. }
  exists (<[kind := resolve_row (FormatRFC3339 c') r]> t1). split; [|split; [|split]].
  - unfold ResolveAlert. rewrite (Hsel _ Hk1 _ Hr), Hact. simpl. f_equal.
    unfold active_id. by rewrite (update_where_id kind AlertRow.active _ t1 r).
  - eexists. rewrite lookup_insert_eq. done.
  - intros k Hne. rewrite lookup_insert_ne by done. unfold t1; simpl.
    destruct (t !! kind); by rewrite lookup_insert_ne.
  - intros c''. unfold ResolveAlert.
    assert (Hk2 : Sql.keyed AlertRow.id (<[kind := resolve_row (FormatRFC3339 c') r]> t1)).
    { pose proof (Hk1 _ _ Hr) as <-.
      exact (insert_keyed (key := AlertRow.id) t1 (resolve_row (FormatRFC3339 c') r) Hk1). }
    by rewrite (Hsel _ Hk2 _ (lookup_insert_eq _ _ _)).
Qed.

(** ** Source counters *)

(** The counters of a source after a history of fetches. *)
Fixpoint fetches (t : source_table) (log : list (SourceState.t * bool * Time)) : source_table :=
  match log with
  | [] => t
  | (st, ok, c) :: log => fetches (RecordSourceFetch t st ok c) log
  end.

Definition of_source (name : string) (log : list (SourceState.t * bool * Time)) : list bool :=
  (λ e, e.1.2) <$> List.filter (λ e, (SourceState.Name e.1.1 =? name)%string) log.

Fixpoint trailing_failures (acc : Z) (l : list bool) : Z :=
  match l with
  | [] => acc
  | ok :: l => trailing_failures (if ok then 0 else acc + 1) l
  end.

Definition counters (t : source_table) (name : string) : Z * Z * Z :=
  match t !! name with
  | None => (0, 0, 0)
  | Some st => (SourceState.FetchCount st, SourceState.SuccessCount st,
                SourceState.ConsecutiveFailures st)
  end.

(** after any history of recorded fetches of any sources, the row of a
    source counts exactly its fetches, its successes and the failures since
    its last success. *)
Theorem source_counters log name :
  counters (fetches ∅ log) name =
    (Z.of_nat (length (of_source name log)),
     Z.of_nat (length (List.filter (λ ok, ok) (of_source name log))),
     trailing_failures 0 (of_source name log)).
Proof.
  assert (Hg : ∀ t, counters (fetches t log) name =
    ((counters t name).1.1 + Z.of_nat (length (of_source name log)),
     (counters t name).1.2 + Z.of_nat (length (List.filter (λ ok, ok) (of_source name log))),
     trailing_failures (counters t name).2 (of_source name log))).
  2: { rewrite Hg. unfold counters at 1 2 3. rewrite lookup_empty. reflexivity. }
  induction log as [|[[st ok] c] log IH]; intros t; simpl.
  { unfold of_source; simpl. rewrite !Z.add_0_r. by destruct (counters t name) as [[? ?] ?]. }
  rewrite IH. unfold of_source; simpl.
  destruct (String.eqb_spec (SourceState.Name st) name) as [<-|Hne]; simpl.
  - unfold counters, RecordSourceFetch. rewrite lookup_insert_eq.
    assert (Hpair : ∀ a b c a' b' c' : Z, a = a' → b = b' → c = c' → (a, b, c) = (a', b', c')).
    { by intros; subst. }
    destruct (t !! SourceState.Name st) as [old|]; destruct ok; simpl;
      apply Hpair; rewrite ?Nat2Z.inj_succ; unfold fmap; lia || done.
  - assert (counters (RecordSourceFetch t st ok c) name = counters t name) as ->; [|done].
    unfold counters, RecordSourceFetch. by rewrite lookup_insert_ne.
Qed.
End alerts.
