(* ===== verification/Auth.v ===== *)
(** * Tokens, sessions and roles: [internal/auth]

    [tokens.go] and [session.go].  The password hash is a parameter ([Bcrypt],
    the package golang.org/x/crypto/bcrypt), as are the digests ([Crypto]) and
    the JSON codec of the session claims ([ClaimsCodec]); what the theorems
    rely on of each is a named hypothesis.  Random bytes and clock readings are
    arguments.

    ** What tokens and sessions guarantee

    The theorems on [Auth.v]: a session reads back the principal it was issued
    for, nothing but the holder of the secret can make one, and a created token
    grants exactly the rights it was created with. *)
From S2P Require Import Prelude Sql GoStr GoFloat GoTime Model Base64 Tasks Tokens Users Jobs.

(** [bcrypt.GenerateFromPassword] with the random salt as its first argument,
    and whether [bcrypt.CompareHashAndPassword] returns nil. *)
Class Bcrypt := {
  bcrypt_generate : string → string → option string;
  bcrypt_compare : string → string → bool;
}.

(** The documented behaviour of bcrypt: a generated hash carries the version
    prefix and matches the password it was generated from. *)
Definition bcrypt_sound `{Bcrypt} : Prop :=
  ∀ salt plain hash, bcrypt_generate salt plain = Some hash →
    HasPrefix hash "$2" = true ∧ bcrypt_compare hash plain = true.

(** ** Roles *)

Abbreviation Role := string.
Definition RoleViewer : Role := "viewer".
Definition RoleOperator : Role := "operator".
Definition RoleAdmin : Role := "admin".

(** [Role.Allows]: an unknown role has level 0 *)
Definition level (r : Role) : Z :=
  if (r =? RoleViewer)%string then 1 else if (r =? RoleOperator)%string then 2
  else if (r =? RoleAdmin)%string then 3 else 0.
Definition Allows (r required : Role) : bool := level required <=? level r.

(** [Principal] *)
Module Principal.
Record t := mk {
  Kind : string;
  TokenID : string;
  Name : string;
  AllowCountries : list string;
  AllowProtocols : list string;
  MaxRPS : float64;
  DailyQuota : Z;
  Role : string;
  TenantID : string;
  Subject : string;
  Email : string;
  Authenticated : bool;
}.
#[export] Instance eta : Eta t := λ p, mk (Kind p) (TokenID p) (Name p) (AllowCountries p)
  (AllowProtocols p) (MaxRPS p) (DailyQuota p) (Role p) (TenantID p) (Subject p) (Email p)
  (Authenticated p).
Definition zero : t := mk "" "" "" [] [] f_zero 0 "" "" "" "" false.
End Principal.
Export (hints) Principal.

(** [sessionClaims] *)
Module Claims.
Record t := mk {
  Issuer : string;
  Subject : string;
  Name : string;
  Email : string;
  Role : string;
  TenantID : string;
  IssuedAt : Z;
  Expires : Z;
}.
End Claims.

(** [encoding/json] on the claims, and on the header object of a session. *)
Class ClaimsCodec := {
  claims_marshal : Claims.t → option string;
  claims_unmarshal : string → option Claims.t;
  header_unmarshal : string → option (gmap string string);
}.

(** [json.Marshal(map[string]string{"alg": "HS256", "typ": "JWT"})], byte by
    byte: a quote is 34. *)
Definition quoted (s : string) : string := String (byte_of 34) (s +:+ String (byte_of 34) "").
Definition header_text : string :=
  "{" +:+ quoted "alg" +:+ ":" +:+ quoted "HS256" +:+ ","
      +:+ quoted "typ" +:+ ":" +:+ quoted "JWT" +:+ "}".

(** The codec reads back what it writes. *)
Definition codec_sound `{ClaimsCodec} : Prop :=
  (∀ c s, claims_marshal c = Some s → claims_unmarshal s = Some c)
  ∧ header_unmarshal header_text = Some {["alg" := "HS256"; "typ" := "JWT"]}.

(** [config.AuthConfig], the fields that [NewManager] reads *)
Module AuthConfig.
Record t := mk {
  LocalEnabled : bool;
  BootstrapUser : string;
  BootstrapTenant : string;
  BootstrapHash : string;
  SessionSecret : string;
  SessionTTLHours : Z;
  SessionCookieName : string;
  SessionCookieDomain : string;
}.
End AuthConfig.

(** [Manager]; the database it points to is passed to its methods. *)
Module Manager.
Record t := mk {
  MasterToken : string;
  SessionSecret : string;
  SessionTTL : Duration;
  CookieName : string;
  CookieDomain : string;
  LocalEnabled : bool;
}.
End Manager.

(** The tables behind [Manager.DB], when it is not nil. *)
Module AuthDB.
Record t := mk { tokens : token_table; users : user_table; audit : AuditLog.t }.
#[export] Instance eta : Eta t := λ d, mk (tokens d) (users d) (audit d).
End AuthDB.
Export (hints) AuthDB.

(** [secureEqual] *)
Definition secureEqual (a b : string) : bool :=
  if (a =? "")%string || (b =? "")%string || negb (slen a =? slen b) then false
  else (a =? b)%string.

(** [tenantOrDefault] of this package, which trims *)
Definition tenantTrim (tenant : string) : string :=
  if (TrimSpace tenant =? "")%string then "default" else TrimSpace tenant.

(** [Principal.Actor] *)
Definition Actor (p : option Principal.t) : string :=
  match p with
  | None => "unknown"
  | Some p =>
      if negb (Principal.Subject p =? "")%string then
        tenantTrim (Principal.TenantID p) +:+ ":" +:+ Principal.Subject p
      else if negb (Principal.Name p =? "")%string then Principal.Name p
      else Principal.Kind p
  end.

Section auth.
Context `{TzData} `{LenientParse} `{Unicode} `{Crypto} `{Bcrypt} `{ClaimsCodec}.

(** [normalizeRole] *)
Definition normalizeRole (value : string) (fallback : Role) : Role :=
  let r := ToLower (TrimSpace value) in
  if (r =? RoleViewer)%string then RoleViewer
  else if (r =? RoleOperator)%string then RoleOperator
  else if (r =? RoleAdmin)%string then RoleAdmin
  else if (fallback =? "")%string then RoleViewer else fallback.

(** ** Tokens *)

(** [HashToken] *)
Definition HashToken (plain : string) : string := hex_encode (sha256_sum plain).

(** [NewTokenPlain], on 24 and 8 random bytes *)
Definition prefix8 (s : string) : string := if 8 <? slen s then slice_to s 8 else s.
Definition NewTokenPlain (b idb : string) : string * string * string :=
  let plain := hex_encode b in (plain, hex_encode idb, prefix8 plain).

(** The test of a candidate in [ValidateSubToken] *)
Definition token_matches (plain : string) (t : Token.t) : bool :=
  if HasPrefix (Token.TokenHash t) "$2" then bcrypt_compare (Token.TokenHash t) plain
  else secureEqual (Token.TokenHash t) (HashToken plain).

(** [ValidateSubToken]; a granted token is touched. *)
Definition ValidateSubToken (m : Manager.t) (db : option AuthDB.t) (plain : string)
    (clock1 clock2 : Time) : result (Principal.t * option AuthDB.t) :=
  let plain := TrimSpace plain in
  if (plain =? "")%string then
    if (Manager.MasterToken m =? "")%string then
      Ok (Principal.zero <| Principal.Kind := "public" |> <| Principal.Name := "public" |>, db)
    else Err (ErrMsg "token required")
  else if secureEqual plain (Manager.MasterToken m) then
    Ok (Principal.zero <| Principal.Kind := "master" |> <| Principal.Name := "master" |>
          <| Principal.TokenID := "master" |>, db)
  else
    match db with
    | None => Err (ErrMsg "invalid token")
    | Some d =>
        match List.find (token_matches plain) (FindTokensByPrefix (AuthDB.tokens d) (prefix8 plain)) with
        | None => Err (ErrMsg "invalid token")
        | Some t =>
            if negb (Token.Enabled t) then Err (ErrMsg "token disabled")
            else if negb (Token.ExpiresAt t =? "")%string
                    && match ParseRFC3339 (Token.ExpiresAt t) with
                       | Some exp => After clock1 exp | None => false end
            then Err (ErrMsg "token expired")
            else
              Ok (Principal.mk "db" (Token.ID t) (Token.Name t) (Token.AllowCountries t)
                    (Token.AllowProtocols t) (Token.MaxRPS t) (Token.DailyQuota t) ""
                    (tenantTrim (Token.TenantID t)) "" "" false,
                  Some (d <| AuthDB.tokens := TouchToken (AuthDB.tokens d) (Token.ID t) clock2 |>))
        end
    end.

(** [normalizeCountries] *)
Definition normalizeCountry (country : string) : string :=
  let country := ToUpper (TrimSpace country) in
  if (country =? "UK")%string then "GB" else country.
Definition normalizeCountries (countries : list string) : list string :=
  dedup (List.filter (λ c, slen c =? 2) (normalizeCountry <$> countries)).

(** [normalizeProtocols]: the first protocol that is not known is an error. *)
Definition allowed_protocols : list string :=
  ["vmess"; "vless"; "trojan"; "ss"; "ssr"; "hysteria2"; "tuic"].
Definition normalizeProtocol (protocol : string) : string :=
  let protocol := ToLower (TrimSpace protocol) in
  if (protocol =? "hy2")%string then "hysteria2" else protocol.
Definition normalizeProtocols (protocols : list string) : result (list string) :=
  let protocols := normalizeProtocol <$> protocols in
  if forallb (λ p, bool_decide (p ∈ allowed_protocols)) protocols then Ok (dedup protocols)
  else Err (ErrMsg "unsupported protocol").

(** [CreateToken]; [b], [idb] and [salt] are the random bytes it draws.  Its
    arithmetic on [days] wraps like [time.Duration]. *)
Definition CreateToken (d : option AuthDB.t) (name note tenant : string)
    (countries protocols : list string) (days : Z) (maxRPS : float64) (dailyQuota : Z)
    (actor b idb salt : string) (clock1 clock2 clock3 : Time) : result (Token.t * AuthDB.t) :=
  match d with
  | None => Err (ErrMsg "db not available")
  | Some d =>
      let '(plain, id, prefix) := NewTokenPlain b idb in
      match bcrypt_generate salt plain with
      | None => Err (ErrMsg "bcrypt")
      | Some hash =>
          let countries := normalizeCountries countries in
          let! protocols := normalizeProtocols protocols in
          let expires :=
            if 0 <? days then FormatRFC3339 (clock2 + wrap64 (days * 24 * Hour)) else "" in
          let t := Token.mk id name hash prefix true maxRPS countries protocols
            (tenantTrim tenant) dailyQuota expires (FormatRFC3339 clock1) "" note 0 0 plain in
          let! tokens := InsertToken (AuthDB.tokens d) t in
          Ok (t, d <| AuthDB.tokens := tokens |>
                   <| AuthDB.audit := Audit (AuthDB.audit d) actor "token.create"
                        (name +:+ " " +:+ prefix) clock3 |>)
      end
  end.

(** ** Sessions *)

(** [NewManager], and the bootstrap of the first account *)
Definition NewManager (cfg : AuthConfig.t) (db : option AuthDB.t) (masterToken : string)
    (clock : Time) : result (Manager.t * option AuthDB.t) :=
  let ttl := wrap64 (AuthConfig.SessionTTLHours cfg * Hour) in
  let m := Manager.mk masterToken (AuthConfig.SessionSecret cfg)
    (if ttl <=? 0 then 12 * Hour else ttl)
    (if (AuthConfig.SessionCookieName cfg =? "")%string then "nh_session"
     else AuthConfig.SessionCookieName cfg)
    (AuthConfig.SessionCookieDomain cfg) (AuthConfig.LocalEnabled cfg) in
  match db with
  | Some d =>
      if AuthConfig.LocalEnabled cfg then
        let! users := EnsureBootstrapUser (AuthDB.users d) (AuthConfig.BootstrapUser cfg)
          (AuthConfig.BootstrapHash cfg) RoleAdmin (AuthConfig.BootstrapTenant cfg) clock in
        Ok (m, Some (d <| AuthDB.users := users |>))
      else Ok (m, db)
  | None => Ok (m, db)
  end.

(** [sign] *)
Definition sign (message secret : string) : string := hmac_sha256 secret message.

(** [IssueSession] *)
Definition IssueSession (m : Manager.t) (principal : option Principal.t) (clock : Time)
    : result string :=
  if slen (Manager.SessionSecret m) <? 32 then Err (ErrMsg "session signing is not configured")
  else
    match principal with
    | None => Err (ErrMsg "authenticated principal is required")
    | Some p =>
        if negb (Principal.Authenticated p) then Err (ErrMsg "authenticated principal is required")
        else
          let claims := Claims.mk "nodeharvest" (Principal.Subject p) (Principal.Name p)
            (Principal.Email p) (Principal.Role p) (tenantTrim (Principal.TenantID p))
            (Unix clock) (Unix (clock + Manager.SessionTTL m)) in
          match claims_marshal claims with
          | None => Err (ErrMsg "json")
          | Some payload =>
              let unsigned := rawBase64 header_text +:+ "." +:+ rawBase64 payload in
              Ok (unsigned +:+ "." +:+ rawBase64 (sign unsigned (Manager.SessionSecret m)))
          end
    end.

(** [ValidateSession] *)
Definition header_ok (h : gmap string string) : bool :=
  (default "" (h !! "alg") =? "HS256")%string && (default "" (h !! "typ") =? "JWT")%string.
Definition ValidateSession (m : Manager.t) (raw : string) (clock : Time) : result Principal.t :=
  if slen (Manager.SessionSecret m) <? 32 then Err (ErrMsg "session signing is not configured")
  else
    match Split raw "." with
    | [p0; p1; p2] =>
        match decodeRawBase64 p0 with
        | None => Err (ErrMsg "invalid session")
        | Some headerBytes =>
            if negb (match header_unmarshal headerBytes with
                     | Some h => header_ok h | None => false end)
            then Err (ErrMsg "invalid session algorithm")
            else
              match decodeRawBase64 p2 with
              | None => Err (ErrMsg "invalid session signature")
              | Some signature =>
                  if negb (signature =? sign (p0 +:+ "." +:+ p1) (Manager.SessionSecret m))%string
                  then Err (ErrMsg "invalid session signature")
                  else
                    match decodeRawBase64 p1 with
                    | None => Err (ErrMsg "invalid session")
                    | Some payload =>
                        match claims_unmarshal payload with
                        | None => Err (ErrMsg "invalid session")
                        | Some claims =>
                            let now := Unix clock in
                            if negb (Claims.Issuer claims =? "nodeharvest")%string
                               || (Claims.Subject claims =? "")%string
                               || (Claims.Expires claims <=? now)
                               || (now + 60 <? Claims.IssuedAt claims)
                               || negb (Allows (normalizeRole (Claims.Role claims) "") RoleViewer)
                            then Err (ErrMsg "expired or invalid session")
                            else
                              Ok (Principal.mk "session" "" (Claims.Name claims) [] [] f_zero 0
                                    (Claims.Role claims) (tenantTrim (Claims.TenantID claims))
                                    (Claims.Subject claims) (Claims.Email claims) true)
                        end
                    end
              end
        end
    | _ => Err (ErrMsg "invalid session")
    end.

(** [principalFromUser] *)
Definition principalFromUser (user : User.t) (kind : string) : Principal.t :=
  Principal.mk kind "" (User.Username user) [] [] f_zero 0
    (normalizeRole (User.Role user) RoleViewer) (tenantTrim (User.TenantID user))
    (User.ID user) (User.Email user) true.

(** [LoginLocal] *)
Definition LoginLocal (m : Manager.t) (db : option AuthDB.t) (tenant username password : string)
    (clock1 clock2 clock3 : Time) : result (Principal.t * string * AuthDB.t) :=
  match db with
  | Some d =>
      if negb (Manager.LocalEnabled m) then Err (ErrMsg "local login is disabled")
      else
        match FindUser (AuthDB.users d) tenant (TrimSpace username) with
        | Err _ => Err (ErrMsg "invalid credentials")
        | Ok user =>
            if negb (User.Enabled user) || negb (bcrypt_compare (User.PasswordHash user) password)
            then Err (ErrMsg "invalid credentials")
            else
              let principal := principalFromUser user "local" in
              let! token := IssueSession m (Some principal) clock1 in
              Ok (principal, token,
                  d <| AuthDB.users := TouchUserLogin (AuthDB.users d) (User.ID user) clock2 |>
                    <| AuthDB.audit := Audit (AuthDB.audit d) (Actor (Some principal))
                         "auth.login" "local" clock3 |>)
        end
  | None => Err (ErrMsg "local login is disabled")
  end.

(** [RequestPrincipal]: [cookie] is the value of the session cookie, if the
    request has one *)
Definition RequestPrincipal (m : Manager.t) (cookie : option string) (clock : Time)
    : result Principal.t :=
  match cookie with
  | Some value =>
      if negb (value =? "")%string then ValidateSession m value clock
      else Ok (Principal.mk "public" "" "public" [] [] f_zero 0 RoleViewer "public" "" "" false)
  | None => Ok (Principal.mk "public" "" "public" [] [] f_zero 0 RoleViewer "public" "" "" false)
  end.

(** [HashPassword] *)
Definition HashPassword (password salt : string) : result string :=
  if slen password <? 12 then Err (ErrMsg "password must contain at least 12 characters")
  else match bcrypt_generate salt password with Some h => Ok h | None => Err (ErrMsg "bcrypt") end.
End auth.

Lemma no_dot s : "."%char ∉ explode (rawBase64 s).
Proof.
  unfold rawBase64. rewrite explode_implode. intros Hin.
  pose proof (b64_encode_plain (explode s)) as Hp. rewrite Forall_forall in Hp.
  destruct (Hp _ Hin) as (_ & Hd & _). done.
Qed.

Lemma Split_session a b c :
  Split (rawBase64 a +:+ "." +:+ rawBase64 b +:+ "." +:+ rawBase64 c) "." =
  [rawBase64 a; rawBase64 b; rawBase64 c].
Proof.
  unfold Split.
  assert (He : explode (rawBase64 a +:+ "." +:+ rawBase64 b +:+ "." +:+ rawBase64 c) =
    explode (rawBase64 a) ++ "."%char :: explode (rawBase64 b) ++ "."%char :: explode (rawBase64 c)).
  { rewrite explode_app. f_equal. change ("." +:+ ?s) with (String "." s).
    unfold explode; simpl; fold explode. f_equal. fold (explode (rawBase64 b +:+ String "." (rawBase64 c))).
    by rewrite explode_app. }
  rewrite He, !split_on_app, split_on_plain by apply no_dot. simpl.
  by rewrite !implode_explode.
Qed.

Lemma string_app_assoc (a b c : string) : (a +:+ b) +:+ c = a +:+ b +:+ c.
Proof. induction a as [|x a IH]; [done|].
  change (String x ((a +:+ b) +:+ c) = String x (a +:+ (b +:+ c))). by rewrite IH.
Qed.

Lemma tenantTrim_idemp s : tenantTrim (tenantTrim s) = tenantTrim s.
Proof.
  unfold tenantTrim. destruct (TrimSpace s =? "")%string eqn:E; [reflexivity|].
  by rewrite TrimSpace_idemp, E.
Qed.

Lemma tenantOrDefault_trim s : tenantOrDefault (tenantTrim s) = tenantTrim s.
Proof.
  unfold tenantOrDefault, tenantTrim. destruct (TrimSpace s =? "")%string eqn:E; [reflexivity|].
  by rewrite E.
Qed.

Section auth.
Context `{TzData} `{LenientParse} `{Unicode} `{Crypto} `{Bcrypt} `{ClaimsCodec}.

Lemma normalizeRole_viewer v : Allows (normalizeRole v "") RoleViewer = true.
Proof. unfold normalizeRole. simpl ("" =? "")%string. repeat case_if; reflexivity. Qed.

Lemma header_accepted : codec_sound →
  ∃ h, header_unmarshal header_text = Some h ∧ header_ok h = true.
Proof. intros [_ Hh]. eexists. split; [exact Hh|]. reflexivity. Qed.

(** C20: a session issued for an authenticated principal is accepted from its
    issue until its time to live ends (and at most a minute before, for clock
    skew), and it names the same subject, name, e-mail and role, whatever that
    role is, in the trimmed tenant; after that it is rejected. *)
Theorem session_roundtrip m p token c c' :
  codec_sound →
  IssueSession m (Some p) c = Ok token →
  Principal.Subject p ≠ "" →
  Unix c - 60 ≤ Unix c' →
  ValidateSession m token c' =
    (if Unix (c + Manager.SessionTTL m) <=? Unix c'
     then Err (ErrMsg "expired or invalid session")
     else Ok (Principal.mk "session" "" (Principal.Name p) [] [] f_zero 0 (Principal.Role p)
            (tenantTrim (Principal.TenantID p)) (Principal.Subject p)
            (Principal.Email p) true)).
Proof.
  intros Hc Hi Hs Ht. unfold IssueSession in Hi. case_if_in Hi; [done|].
  destruct (Principal.Authenticated p) eqn:Ha; [|done]. simpl in Hi.
  destruct (claims_marshal _) as [payload|] eqn:Em; [|done]. injection Hi as <-.
  unfold ValidateSession. rewrite E.
  rewrite !string_app_assoc, Split_session, decodeRawBase64_raw.
  destruct (header_accepted Hc) as (h & -> & ->). simpl negb. cbn iota.
  rewrite !decodeRawBase64_raw, String.eqb_refl. simpl negb. cbn iota.
  destruct Hc as [Hc _]. rewrite (Hc _ _ Em). cbn [Claims.Issuer Claims.Subject Claims.Expires
    Claims.IssuedAt Claims.Role Claims.Name Claims.Email Claims.TenantID].
  rewrite (proj2 (String.eqb_neq _ _) Hs), normalizeRole_viewer.
  rewrite (proj2 (Z.ltb_ge (Unix c' + 60) (Unix c))) by lia.
  rewrite String.eqb_refl, tenantTrim_idemp. by destruct (_ <=? _).
Qed.

(** C19: a session is accepted only when its last part is the keyed digest,
    under the configured secret of at least 32 bytes, of the two parts before
    it, in the one text that encodes it; its claims are the accepted ones, not
    expired, and the principal carries them. *)
Theorem session_unforgeable m raw c p :
  ValidateSession m raw c = Ok p →
  ∃ header payload claims,
    let unsigned := rawBase64 header +:+ "." +:+ rawBase64 payload in
    32 ≤ slen (Manager.SessionSecret m)
    ∧ raw = unsigned +:+ "." +:+ rawBase64 (hmac_sha256 (Manager.SessionSecret m) unsigned)
    ∧ claims_unmarshal payload = Some claims
    ∧ Claims.Issuer claims = "nodeharvest"
    ∧ Unix c < Claims.Expires claims ∧ Claims.IssuedAt claims ≤ Unix c + 60
    ∧ Principal.Subject p = Claims.Subject claims ∧ Principal.Subject p ≠ ""
    ∧ Principal.Role p = Claims.Role claims
    ∧ Principal.TenantID p = tenantTrim (Claims.TenantID claims).
Proof.
  unfold ValidateSession. intros Hv. case_if_in Hv; [done|].
  destruct (Split raw ".") as [|p0 [|p1 [|p2 [|? ?]]]] eqn:Es; try done.
  apply Split_three in Es.
  destruct (decodeRawBase64 p0) as [header|] eqn:E0; [|done].
  destruct (negb _); [done|].
  destruct (decodeRawBase64 p2) as [sg|] eqn:E2; [|done].
  destruct (sg =? _)%string eqn:Esig; [|done]. simpl in Hv.
  destruct (decodeRawBase64 p1) as [payload|] eqn:E1; [|done].
  destruct (claims_unmarshal payload) as [claims|] eqn:Ec; [|done].
  destruct (_ || _) eqn:Eg in Hv; [done|]. injection Hv as <-.
  apply decodeRawBase64_inv in E0 as ->, E1 as ->, E2 as ->. bsplit.
  exists header, payload, claims. cbn zeta. split; [done|]. split.
  { rewrite Es, Esig. unfold sign. by rewrite !string_app_assoc. }
  by repeat split.
Qed.

(** ** Tokens *)

Lemma insert_found (db : token_table) r k :
  db !! k = None →
  FindTokensByPrefix (<[k := r]> db) (TokenRow.token_prefix r) ≡ₚ
    scanToken r :: FindTokensByPrefix db (TokenRow.token_prefix r).
Proof.
  intros Hk. unfold FindTokensByPrefix.
  rewrite (filter_perm _ _ _ (rows_insert db k r Hk)). simpl. by rewrite String.eqb_refl.
Qed.

Lemma find_unique {A} (f : A → bool) l l' x :
  l ≡ₚ x :: l' → f x = true → Forall (λ y, f y = false) l' → List.find f l = Some x.
Proof.
  intros Hp Hx Hl'. rewrite Forall_forall in Hl'.
  destruct (List.find f l) as [y|] eqn:E.
  - apply List.find_some in E as [Hin Hy]. apply list_elem_of_In in Hin. rewrite Hp in Hin.
    apply elem_of_cons in Hin as [->|Hin]; [done|]. rewrite (Hl' _ Hin) in Hy. done.
  - pose proof (List.find_none f l E x) as Hn. rewrite Hx in Hn. discriminate Hn.
    apply list_elem_of_In. rewrite Hp. left.
Qed.

Lemma normalizeProtocols_allowed ps l :
  normalizeProtocols ps = Ok l → NoDup l ∧ ∀ p, p ∈ l → p ∈ allowed_protocols.
Proof.
  unfold normalizeProtocols. case_if; [|done]. intros [= <-]. split; [apply NoDup_dedup|].
  intros p. rewrite elem_of_dedup. rewrite forallb_forall in E. intros Hp.
  apply list_elem_of_In, E in Hp. by bsplit.
Qed.

Lemma expiry_open `{!TzShanghai} days c c' :
  (let e := c + wrap64 (days * 24 * Hour) in
   days ≤ 0 ∨ storable e ∧ c' ≤ e - local_nsec (In_ e)) →
  let text := if 0 <? days then FormatRFC3339 (c + wrap64 (days * 24 * Hour)) else "" in
  negb (text =? "")%string
    && match ParseRFC3339 text with Some exp => After c' exp | None => false end = false.
Proof.
  intros He. cbn zeta in *. destruct (Z.ltb_spec 0 days) as [Hd|Hd]; [|done].
  destruct He as [?|[Hs He]]; [lia|]. rewrite ParseRFC3339_Format by done.
  unfold After. rewrite (proj2 (Z.ltb_ge _ _)) by done. apply andb_false_r.
Qed.

(** C21: the plain text of a created token, in any surrounding white space, is
    accepted until the second in which the token expires, and it grants exactly
    what the token was created with: the normalised countries and protocols,
    the rate, the quota and the trimmed tenant (when no other stored token
    matches the same text, and it is not the master token). *)
Theorem token_lifecycle `{!TzShanghai} m d name note tenant countries protocols days rps quota actor
    b idb salt c1 c2 c3 t d' text c4 c5 :
  bcrypt_sound →
  CreateToken (Some d) name note tenant countries protocols days rps quota actor b idb salt
    c1 c2 c3 = Ok (t, d') →
  b ≠ "" → TrimSpace text = Token.PlainToken t →
  Manager.MasterToken m ≠ Token.PlainToken t →
  Forall (λ y, token_matches (Token.PlainToken t) y = false)
    (FindTokensByPrefix (AuthDB.tokens d) (prefix8 (Token.PlainToken t))) →
  (let e := c2 + wrap64 (days * 24 * Hour) in
   days ≤ 0 ∨ storable e ∧ c4 ≤ e - local_nsec (In_ e)) →
  ∃ ps db', normalizeProtocols protocols = Ok ps
    ∧ (NoDup ps ∧ ∀ p, p ∈ ps → p ∈ allowed_protocols)
    ∧ ValidateSubToken m (Some d') text c4 c5 =
        Ok (Principal.mk "db" (Token.ID t) name (normalizeCountries countries) ps rps quota ""
              (tenantTrim tenant) "" "" false, Some db').
Proof.
  intros Hb Hcr Hne Htext Hmaster Hothers Hexp. unfold CreateToken in Hcr.
  destruct (NewTokenPlain b idb) as [[plain id] prefix] eqn:En.
  unfold NewTokenPlain in En. injection En as Hplain Hid Hprefix.
  destruct (bcrypt_generate salt plain) as [hash|] eqn:Eg; [|done].
  destruct (Hb _ _ _ Eg) as [Hh2 Hhc].
  destruct (normalizeProtocols protocols) as [ps|] eqn:Ep; [|done]. simpl in Hcr.
  destruct (InsertToken _ _) as [tokens|] eqn:Ei; [|done]. simpl in Hcr. injection Hcr as <- <-.
  simpl in *. exists ps.
  unfold InsertToken in Ei. case_if_in Ei; [done|]. case_if_in Ei; [done|]. injection Ei as Htok.
  bsplit. apply eq_None_not_Some in E. simpl in *.
  eexists. split; [done|]. split; [by apply normalizeProtocols_allowed in Ep|].
  unfold ValidateSubToken. rewrite Htext.
  assert (Hpne : plain ≠ "").
  { rewrite <-Hplain. intros Hz. apply Hne. apply hex_encode_inj. by rewrite Hz. }
  rewrite (proj2 (String.eqb_neq _ _) Hpne).
  assert (secureEqual plain (Manager.MasterToken m) = false) as ->.
  { unfold secureEqual. destruct (_ || _ || _); [done|]. by apply String.eqb_neq. }
  cbn [AuthDB.tokens upd].
  rewrite Hplain in Hprefix. subst prefix.
  match type of Htok with <[_ := ?x]> _ = _ => set (r := x) in Htok end.
  assert (List.find (token_matches plain) (FindTokensByPrefix tokens (prefix8 plain))
    = Some (scanToken r)) as ->.
  { subst tokens. eapply find_unique; [exact (insert_found (AuthDB.tokens d) r id E)| |exact Hothers].
    unfold token_matches, scanToken; simpl. by rewrite Hh2. }
  cbn [Token.Enabled Token.ExpiresAt scanToken scanTokenFields TokenRow.enabled
    TokenRow.expires_at negb r]. rewrite expiry_open by done.
  change (Token.TenantID (scanToken r)) with (tenantOrDefault (tenantTrim tenant)).
  rewrite tenantOrDefault_trim, tenantTrim_idemp. reflexivity.
Qed.
End auth.
