(* ===== verification/Ratelimit.v ===== *)
(** * Rate limiting and client addresses: [internal/middleware/ratelimit.go]

    The token bucket computes on [float64]; the instants of its calls are
    arguments.  The addresses of [net/netip] are a parameter ([NetIP]). *)
From Stdlib Require Import SpecFloat.
From S2P Require Import Prelude GoStr GoFloat GoTime.

(** ** The token bucket *)

Module Visitor.
Record t := mk { tokens : float64; last : Time }.
End Visitor.

Module TokenBucket.
Record t := mk {
  rate : float64;
  burst : float64;
  visitors : gmap string Visitor.t;
}.
#[export] Instance eta : Eta t := λ b, mk (rate b) (burst b) (visitors b).
End TokenBucket.
Export (hints) TokenBucket.

(** [NewTokenBucket] *)
Definition NewTokenBucket (rps : float64) (burst : Z) : TokenBucket.t :=
  TokenBucket.mk (if f_le rps f_zero then f_of_Z 10 else rps)
    (f_of_Z (if burst <=? 0 then 20 else burst)) ∅.

(** One tick of [cleanup] *)
Definition cleanup (tb : TokenBucket.t) (now : Time) : TokenBucket.t :=
  tb <| TokenBucket.visitors :=
    filter (λ kv, Before (Visitor.last kv.2) (now - 10 * Minute) = false)
      (TokenBucket.visitors tb) |>.

(** [time.Duration.Seconds] *)
Definition Seconds (d : Duration) : float64 :=
  f_add (f_of_Z (Z.quot d Second)) (f_div (f_of_Z (Z.rem d Second)) (f_of_Z 1000000000)).

Definition one : float64 := f_of_Z 1.

(** The balance of a visitor before the request is charged *)
Definition refill (v : Visitor.t) (rps : float64) (burst : Z) (now : Time) : float64 :=
  let tokens := f_add (Visitor.tokens v) (f_mul (Seconds (now - Visitor.last v)) rps) in
  if f_lt (f_of_Z burst) tokens then f_of_Z burst else tokens.

(** [AllowRate] and [Allow] *)
Definition AllowRate (tb : TokenBucket.t) (key : string) (rps : float64) (burst : Z) (now : Time)
    : bool * TokenBucket.t :=
  let rps := if f_le rps f_zero then TokenBucket.rate tb else rps in
  let burst := if burst <=? 0 then f_to_int64 (TokenBucket.burst tb) else burst in
  let put v := tb <| TokenBucket.visitors := <[key := v]> (TokenBucket.visitors tb) |> in
  match TokenBucket.visitors tb !! key with
  | None => (true, put (Visitor.mk (f_of_Z (wrap64 (burst - 1))) now))
  | Some v =>
      let tokens := refill v rps burst now in
      if f_lt tokens one then (false, put (Visitor.mk tokens now))
      else (true, put (Visitor.mk (f_sub tokens one) now))
  end.
Definition Allow (tb : TokenBucket.t) (key : string) (now : Time) : bool * TokenBucket.t :=
  AllowRate tb key (TokenBucket.rate tb) (f_to_int64 (TokenBucket.burst tb)) now.

(** ** Bursts

    Small integers are exact floats: the balance of a visitor that calls within
    one instant counts down by one. *)
Definition max_burst : nat := 512.

Lemma countdown_exact k :
  1 ≤ k ≤ Z.of_nat max_burst →
  f_sub (f_of_Z k) one = f_of_Z (k - 1) ∧ f_lt (f_of_Z k) one = false.
Proof.
  intros Hk.
  assert (Hall : forallb (λ n, let k := Z.of_nat n in
    bool_decide (f_sub (f_of_Z k) one = f_of_Z (k - 1)) && negb (f_lt (f_of_Z k) one))
    (seq 1 max_burst) = true) by (by vm_compute).
  rewrite forallb_forall in Hall. specialize (Hall (Z.to_nat k)).
  rewrite Z2Nat.id in Hall by lia.
  assert (Hin : In (Z.to_nat k) (seq 1 max_burst)) by (apply in_seq; lia).
  specialize (Hall Hin). cbv zeta in Hall. by bsplit.
Qed.

Lemma not_above k b :
  0 ≤ k ≤ b → b ≤ Z.of_nat max_burst → f_lt (f_of_Z b) (f_of_Z k) = false.
Proof.
  intros Hk Hb.
  assert (Hstep : forallb (λ n, f_le (f_of_Z (Z.of_nat n)) (f_of_Z (Z.of_nat n + 1)))
    (seq 0 max_burst) = true) by (by vm_compute).
  assert (Hrefl : forallb (λ n, f_le (f_of_Z (Z.of_nat n)) (f_of_Z (Z.of_nat n)))
    (seq 0 (S max_burst)) = true) by (by vm_compute).
  rewrite forallb_forall in Hstep, Hrefl.
  assert (Hle : ∀ d, Z.of_nat d ≤ b - k → f_le (f_of_Z k) (f_of_Z (k + Z.of_nat d)) = true).
  { induction d as [|d IH]; intros Hd.
    - rewrite Z.add_0_r. specialize (Hrefl (Z.to_nat k)). rewrite Z2Nat.id in Hrefl by lia.
      apply Hrefl, in_seq. lia.
    - eapply f_le_trans; [apply IH; lia|].
      specialize (Hstep (Z.to_nat (k + Z.of_nat d))). rewrite Z2Nat.id in Hstep by lia.
      replace (k + Z.of_nat (S d)) with (k + Z.of_nat d + 1) by lia.
      apply Hstep, in_seq. lia. }
  specialize (Hle (Z.to_nat (b - k)) ltac:(lia)).
  replace (k + Z.of_nat (Z.to_nat (b - k))) with b in Hle by lia.
  destruct (f_le_not_nan _ _ Hle). f_order.
Qed.

(** A rate is finite and positive. *)
Definition finite_rate (rps : float64) : Prop := ∃ m e, rps = S754_finite false m e.

Lemma refill_still k rps b now :
  finite_rate rps → 0 ≤ k ≤ b → b ≤ Z.of_nat max_burst →
  refill (Visitor.mk (f_of_Z k) now) rps b now = f_of_Z k.
Proof.
  intros (m & e & ->) Hk Hb. unfold refill. simpl Visitor.tokens. simpl Visitor.last.
  rewrite Z.sub_diag.
  assert (f_add (f_of_Z k) (f_mul (Seconds 0) (S754_finite false m e)) = f_of_Z k) as ->.
  { change (f_mul (Seconds 0) (S754_finite false m e)) with (S754_zero false).
    assert (Hall : forallb (λ n, bool_decide
      (f_add (f_of_Z (Z.of_nat n)) (S754_zero false) = f_of_Z (Z.of_nat n)))
      (seq 0 (S max_burst)) = true) by (by vm_compute).
    rewrite forallb_forall in Hall. specialize (Hall (Z.to_nat k)).
    rewrite Z2Nat.id in Hall by lia. eapply bool_decide_eq_true, Hall, in_seq. lia. }
  by rewrite not_above.
Qed.

(** The decisions on a sequence of calls, by key and instant. *)
Fixpoint decisions (tb : TokenBucket.t) (rps : float64) (burst : Z)
    (calls : list (string * Time)) : list bool :=
  match calls with
  | [] => []
  | (key, now) :: calls =>
      let '(ok, tb) := AllowRate tb key rps burst now in ok :: decisions tb rps burst calls
  end.

Lemma decisions_still n tb rps b key now k :
  finite_rate rps → 0 ≤ k ≤ b → 1 ≤ b ≤ Z.of_nat max_burst →
  TokenBucket.visitors tb !! key = Some (Visitor.mk (f_of_Z k) now) →
  decisions tb rps b (replicate n (key, now)) =
    replicate (n `min` Z.to_nat k) true ++ replicate (n - Z.to_nat k) false.
Proof.
  intros Hr Hk Hb. revert tb k Hk; induction n as [|n IH]; intros tb k Hk Hv; [done|].
  assert (Hrps : f_le rps f_zero = false) by (by destruct Hr as (m & e & ->)).
  simpl replicate. simpl decisions. unfold AllowRate.
  rewrite Hv, Hrps, (proj2 (Z.leb_gt b 0)) by lia.
  rewrite refill_still by (done || lia).
  destruct (decide (k = 0)) as [->|Hk0].
  - change (f_lt (f_of_Z 0) one) with true. simpl.
    rewrite (IH _ 0) by (lia || apply lookup_insert_eq). simpl.
    by rewrite Nat.min_0_r, !Nat.sub_0_r.
  - destruct (countdown_exact k) as [Hs Hl]; [lia|]. rewrite Hl, Hs.
    rewrite (IH _ (k - 1)) by (lia || apply lookup_insert_eq).
    replace (Z.to_nat k) with (S (Z.to_nat (k - 1))) by lia. done.
Qed.

(** within one instant a new key is admitted exactly [burst] times and
    then refused, however many requests it makes. *)
Theorem burst_exact n tb rps b key now :
  finite_rate rps → 1 ≤ b ≤ Z.of_nat max_burst →
  TokenBucket.visitors tb !! key = None →
  decisions tb rps b (replicate n (key, now)) =
    replicate (n `min` Z.to_nat b) true ++ replicate (n - Z.to_nat b) false.
Proof.
  intros Hr Hb Hv. destruct n as [|n]; [done|].
  simpl replicate at 1. simpl decisions. unfold AllowRate at 1.
  rewrite Hv, (proj2 (Z.leb_gt b 0)) by lia.
  rewrite wrap64_id by (unfold int64_range, max_burst in *; lia).
  rewrite (decisions_still _ _ _ _ _ _ (b - 1)) by (done || lia || apply lookup_insert_eq).
  replace (Z.to_nat b) with (S (Z.to_nat (b - 1))) by lia. done.
Qed.

(** ** Client addresses *)

(** The parsed addresses and prefixes of [net/netip]. *)
Class NetIP := {
  Addr : Type;
  Prefix : Type;
  ParseAddr : string → option Addr;
  addr_string : Addr → string;
  addr_eqb : Addr → Addr → bool;
  ParsePrefix : string → option Prefix;
  prefix_contains : Prefix → Addr → bool;
}.

Definition has_byte (c : ascii) (l : bytes) : bool := existsb (Ascii.eqb c) l.

(** [net.SplitHostPort]: the host, when there is no error *)
Definition SplitHostPort (hostport : string) : option string :=
  match CutLast hostport ":" with
  | None => None
  | Some (before, port) =>
      match explode hostport with
      | "["%char :: rest =>
          match cut_on "]" rest with
          | Some (host, ":"%char :: tail) =>
              if has_byte ":" tail || has_byte "[" host || has_byte "[" tail || has_byte "]" tail
              then None else Some (implode host)
          | _ => None
          end
      | _ =>
          if has_byte ":" (explode before) || has_byte "[" (explode hostport)
             || has_byte "]" (explode hostport)
          then None else Some before
      end
  end.

Section client.
Context `{NetIP}.

(** [trustedProxy] *)
Definition trustedProxy (ip : Addr) (entries : list string) : bool :=
  existsb (λ entry,
    let entry := TrimSpace entry in
    match ParsePrefix entry with Some p => prefix_contains p ip | None => false end
    || match ParseAddr entry with Some a => addr_eqb a ip | None => false end) entries.

(** The loop over the entries of [X-Forwarded-For], from the last to the
    first *)
Fixpoint forwarded (trusted : list string) (rev_parts : list string) : option string :=
  match rev_parts with
  | [] => None
  | part :: rest =>
      match ParseAddr (TrimSpace part) with
      | None => forwarded trusted rest
      | Some ip =>
          if negb (trustedProxy ip trusted) || bool_decide (rest = [])
          then Some (addr_string ip) else forwarded trusted rest
      end
  end.

(** The loop over the single-address headers *)
Fixpoint first_addr (raws : list string) : option string :=
  match raws with
  | [] => None
  | raw :: raws =>
      match ParseAddr (TrimSpace raw) with
      | Some ip => Some (addr_string ip)
      | None => first_addr raws
      end
  end.

(** [ClientIP], on the headers it reads *)
Definition ClientIP (remoteAddr xff cf real : string) (trusted : list string) : string :=
  let host := match SplitHostPort remoteAddr with Some h => h | None => remoteAddr end in
  match ParseAddr (TrimSpace host) with
  | None => host
  | Some remote =>
      if negb (trustedProxy remote trusted) then host
      else
        match (if negb (xff =? "")%string then forwarded trusted (rev (Split xff ",")) else None) with
        | Some ip => ip
        | None =>
            match first_addr [cf; real] with Some ip => ip | None => addr_string remote end
        end
  end.

(** [Middleware]: whether the request passes, on its path and [token]
    parameter *)
Definition Middleware (tb : TokenBucket.t) (remoteAddr xff cf real path token : string)
    (trusted : list string) (now : Time) : bool * TokenBucket.t :=
  let key := ClientIP remoteAddr xff cf real trusted in
  let key :=
    if Contains path "/sub" && negb (token =? "")%string then
      key +:+ "|" +:+ (if 8 <? slen token then slice_to token 8 else token)
    else key in
  Allow tb key now.

Lemma forwarded_skip trusted pre rest :
  rest ≠ [] →
  (∀ s ip, s ∈ pre → ParseAddr (TrimSpace s) = Some ip → trustedProxy ip trusted = true) →
  forwarded trusted (pre ++ rest) = forwarded trusted rest.
Proof.
  intros Hne. induction pre as [|s pre IH]; intros Hp; simpl; [done|].
  destruct (ParseAddr (TrimSpace s)) as [ip|] eqn:E; [|apply IH; intros; eapply Hp; [by right|done]].
  rewrite (Hp s ip) by (by left || done). simpl.
  rewrite bool_decide_eq_false_2 by (by intros [_ ?]%app_nil).
  apply IH. intros; eapply Hp; [by right|done].
Qed.

(** C22: a client cannot choose its rate-limit identity.  Without a trusted
    proxy in front, the headers are ignored; behind one, whatever the client
    puts in front of [X-Forwarded-For], the identity is the last entry that is
    not itself a trusted proxy. *)
Theorem client_not_spoofed remoteAddr host remote trusted :
  SplitHostPort remoteAddr = Some host → ParseAddr (TrimSpace host) = Some remote →
  (trustedProxy remote trusted = false →
    ∀ xff cf real, ClientIP remoteAddr xff cf real trusted = host)
  ∧ (trustedProxy remote trusted = true →
    ∀ xff cf real spoofed client ip proxies,
      xff ≠ "" → Split xff "," = spoofed ++ client :: proxies →
      ParseAddr (TrimSpace client) = Some ip → trustedProxy ip trusted = false →
      (∀ s p, s ∈ proxies → ParseAddr (TrimSpace s) = Some p → trustedProxy p trusted = true) →
      ClientIP remoteAddr xff cf real trusted = addr_string ip).
Proof.
  intros Hh Hr. unfold ClientIP. rewrite Hh, Hr. split.
  - by intros ->.
  - intros -> xff cf real spoofed client ip proxies Hne Hx Hc Hu Hp.
    rewrite (proj2 (String.eqb_neq _ _) Hne). simpl negb. cbn iota.
    rewrite Hx, rev_app_distr. simpl. rewrite <-app_assoc. simpl.
    rewrite forwarded_skip; [|done|].
    + simpl. by rewrite Hc, Hu.
    + intros s p Hs. apply Hp. by rewrite list_elem_of_In, in_rev, <-list_elem_of_In.
Qed.
End client.
