(* ===== verification/NetAddr.v ===== *)
(** * Internet addresses: [net/netip] and [net.ParseIP]

    The parts of the standard library that the program uses to read, compare
    and print addresses, as executable functions.  They instantiate the
    interface [NetIP] against which the middleware and the validation of the
    configuration are written. *)
From S2P Require Import Prelude GoStr GoTime Ratelimit.

(** [netip.Addr]: 32 bits, or 128 bits with a zone *)
Inductive addr :=
  | V4 (a : Z)
  | V6 (a : Z) (zone : string).

#[export] Instance addr_eq_dec : EqDecision addr.
Proof. solve_decision. Defined.

Definition colon : ascii := ":"%char.
Definition point : ascii := "."%char.

Fixpoint digits_val (acc : Z) (l : bytes) : option Z :=
  match l with
  | [] => Some acc
  | c :: l => match digit_val c with Some d => digits_val (acc * 10 + d) l | None => None end
  end.

(** A decimal octet: one to three digits, no leading zero, at most 255 *)
Definition octet (l : bytes) : option Z :=
  match l with
  | [] => None
  | c :: rest =>
      if Ascii.eqb c "0" && negb (bool_decide (rest = [])) then None
      else match digits_val 0 l with
           | Some v => if (v <=? 255) && (length l <=? 3)%nat then Some v else None
           | None => None
           end
  end.

Definition parse_v4 (l : bytes) : option Z :=
  match mapM octet (split_on point l) with
  | Some [a; b; c; d] => Some (((a * 256 + b) * 256 + c) * 256 + d)
  | _ => None
  end.

Definition hex_val (c : ascii) : option Z :=
  let v := byte_val c in
  if (48 <=? v) && (v <=? 57) then Some (v - 48)
  else if (97 <=? v) && (v <=? 102) then Some (v - 87)
  else if (65 <=? v) && (v <=? 70) then Some (v - 55)
  else None.

(** The hexadecimal digits at the front, with their value and number *)
Fixpoint hex_run (acc : Z) (n : nat) (l : bytes) : Z * nat * bytes :=
  match l with
  | c :: l' => match hex_val c with
               | Some d => hex_run (acc * 16 + d) (S n) l'
               | None => (acc, n, l)
               end
  | [] => (acc, n, [])
  end.

(** The groups of an IPv6 address, most significant first, and the place of
    the ellipsis.  [fuel] bounds the groups left. *)
Fixpoint groups (fuel : nat) (gs : list Z) (ell : option nat) (l : bytes) :
    option (list Z * option nat) :=
  match fuel with
  | O => match l with [] => Some (gs, ell) | _ => None end
  | S fuel =>
      match hex_run 0 0 l with
      | (_, O, _) => None
      | (acc, n, rest) =>
          match rest with
          | "."%char :: _ =>
              if (4 <? n)%nat then None
              else if (bool_decide (ell = None) && negb (length gs =? 6)%nat) || (6 <? length gs)%nat
              then None
              else match parse_v4 l with
                   | Some v => Some (gs ++ [v / 65536; v mod 65536], ell)
                   | None => None
                   end
          | _ =>
              if (4 <? n)%nat then None
              else
                let gs := gs ++ [acc] in
                match rest with
                | [] => Some (gs, ell)
                | ":"%char :: [] => None
                | ":"%char :: ":"%char :: rest =>
                    match ell with
                    | Some _ => None
                    | None => match rest with
                              | [] => Some (gs, Some (length gs))
                              | _ => groups fuel gs (Some (length gs)) rest
                              end
                    end
                | ":"%char :: rest => groups fuel gs ell rest
                | _ => None
                end
          end
      end
  end.

Definition join_groups (gs : list Z) : Z := fold_left (λ a g, a * 65536 + g) gs 0.

(** Expand the ellipsis. *)
Definition expand (r : list Z * option nat) : option Z :=
  let '(gs, ell) := r in
  match ell with
  | None => if (length gs =? 8)%nat then Some (join_groups gs) else None
  | Some e =>
      if (length gs <? 8)%nat
      then Some (join_groups (take e gs ++ replicate (8 - length gs) 0 ++ drop e gs))
      else None
  end.

Definition parse_v6 (l : bytes) : option Z :=
  match l with
  | ":"%char :: ":"%char :: [] => Some 0
  | ":"%char :: ":"%char :: rest => match groups 8 [] (Some 0%nat) rest with
                                    | Some r => expand r
                                    | None => None
                                    end
  | _ => match groups 8 [] None l with Some r => expand r | None => None end
  end.

(** [netip.ParseAddr] *)
Fixpoint first_mark (l : bytes) : option ascii :=
  match l with
  | [] => None
  | c :: l => if Ascii.eqb c "." || Ascii.eqb c ":" || Ascii.eqb c "%" then Some c else first_mark l
  end.
Definition parse_addr (s : string) : option addr :=
  match first_mark (explode s) with
  | Some "."%char => V4 <$> parse_v4 (explode s)
  | Some ":"%char =>
      match cut_on "%" (explode s) with
      | Some (_, []) => None
      | Some (l, zone) => (λ a, V6 a (implode zone)) <$> parse_v6 l
      | None => (λ a, V6 a "") <$> parse_v6 (explode s)
      end
  | _ => None
  end.

(** [Addr.String] *)
Definition dotted (a : Z) : string :=
  Itoa (a / 16777216) +:+ "." +:+ Itoa (a / 65536 mod 256) +:+ "." +:+
  Itoa (a / 256 mod 256) +:+ "." +:+ Itoa (a mod 256).
Definition group (a : Z) (i : nat) : Z := a / 65536 ^ (7 - Z.of_nat i) mod 65536.
Fixpoint zero_run (gs : list Z) : nat :=
  match gs with 0 :: gs => S (zero_run gs) | _ => O end.
Fixpoint best_run (i : nat) (gs : list Z) (best : nat * nat) : nat * nat :=
  match gs with
  | [] => best
  | g :: gs' =>
      let n := zero_run gs in
      best_run (S i) gs' (if (2 <=? n)%nat && (best.2 <? n)%nat then (i, n) else best)
  end.
Definition hex_digit1 (d : Z) : ascii := byte_of (if d <? 10 then 48 + d else 87 + d).
Definition hex_group (g : Z) : string :=
  let ds := [g / 4096; g / 256 mod 16; g / 16 mod 16; g mod 16] in
  implode (hex_digit1 <$>
    (fix strip (n : nat) (ds : list Z) := match n, ds with
       | S n, 0 :: ds => strip n ds | _, ds => ds end) 3%nat ds).
Definition v6_string (a : Z) : string :=
  let gs := group a <$> seq 0 8 in
  let '(i, n) := best_run 0 gs (0%nat, 0%nat) in
  if (n =? 0)%nat then Join (hex_group <$> gs) ":"
  else Join (hex_group <$> take i gs) ":" +:+ "::" +:+ Join (hex_group <$> drop (i + n) gs) ":".
Definition mapped_v4 (a : Z) : bool := a / 2 ^ 32 =? 65535.
Definition addr_text (a : addr) : string :=
  match a with
  | V4 a => dotted a
  | V6 a zone =>
      (if mapped_v4 a then "::ffff:" +:+ dotted (a mod 2 ^ 32) else v6_string a)
      +:+ (if (zone =? "")%string then "" else "%" +:+ zone)
  end.

(** [netip.ParsePrefix] and [Prefix.Contains] *)
Record prefix := Pfx { pfx_addr : addr; pfx_bits : Z }.
Definition parse_prefix (s : string) : option prefix :=
  match CutLast s "/" with
  | None => None
  | Some (ip, bits) =>
      match parse_addr ip, digits_val 0 (explode bits) with
      | Some a, Some n =>
          let signed := match explode bits with
                        | [] => true
                        | c :: _ :: _ => negb ((49 <=? byte_val c) && (byte_val c <=? 57))
                        | _ => false
                        end in
          if signed then None
          else match a with
               | V4 _ => if n <=? 32 then Some (Pfx a n) else None
               | V6 _ zone => if (zone =? "")%string && (n <=? 128) then Some (Pfx a n) else None
               end
      | _, _ => None
      end
  end.
Definition contains_addr (p : prefix) (a : addr) : bool :=
  match pfx_addr p, a with
  | V4 x, V4 y => x / 2 ^ (32 - pfx_bits p) =? y / 2 ^ (32 - pfx_bits p)
  | V6 x _, V6 y zone =>
      (zone =? "")%string && (x / 2 ^ (128 - pfx_bits p) =? y / 2 ^ (128 - pfx_bits p))
  | _, _ => false
  end.

#[export] Instance go_netip : NetIP := {
  Addr := addr;
  Prefix := prefix;
  ParseAddr := parse_addr;
  addr_string := addr_text;
  addr_eqb := λ a b, bool_decide (a = b);
  ParsePrefix := parse_prefix;
  prefix_contains := contains_addr;
}.

(** [net.ParseIP]: the 128 bits, an IPv4 address in its mapped form *)
Definition ParseIP (s : string) : option Z :=
  match parse_addr s with
  | Some (V4 a) => Some (65535 * 2 ^ 32 + a)
  | Some (V6 a zone) => if (zone =? "")%string then Some a else None
  | None => None
  end.

(** [IP.IsLoopback], [IP.IsPrivate], [IP.IsLinkLocalUnicast], [IP.IsUnspecified] *)
Definition as_v4 (ip : Z) : option Z := if mapped_v4 ip then Some (ip mod 2 ^ 32) else None.
Definition IsLoopback (ip : Z) : bool :=
  match as_v4 ip with Some a => a / 2 ^ 24 =? 127 | None => ip =? 1 end.
Definition IsPrivate (ip : Z) : bool :=
  match as_v4 ip with
  | Some a => (a / 2 ^ 24 =? 10) || (a / 2 ^ 20 =? 172 * 16 + 1) || (a / 2 ^ 16 =? 192 * 256 + 168)
  | None => ip / 2 ^ 121 =? 126
  end.
Definition IsLinkLocalUnicast (ip : Z) : bool :=
  match as_v4 ip with
  | Some a => a / 2 ^ 16 =? 169 * 256 + 254
  | None => ip / 2 ^ 118 =? 1018
  end.
Definition IsUnspecified (ip : Z) : bool := (ip =? 65535 * 2 ^ 32) || (ip =? 0).

(** Samples *)
Example parse_samples :
  map (λ s, addr_text <$> parse_addr s)
    ["192.168.0.1"; "::1"; "2001:DB8::0:1"; "::ffff:10.0.0.1"; "1:0:0:2::3"; "fe80::1%eth0";
     "01.2.3.4"; "1.2.3"; "1::2::3"; "12345::"; "1:2:3:4:5:6:7:8"; "::"; "1.2.3.4:80"]
  = [Some "192.168.0.1"; Some "::1"; Some "2001:db8::1"; Some "::ffff:10.0.0.1"; Some "1:0:0:2::3";
     Some "fe80::1%eth0"; None; None; None; None; Some "1:2:3:4:5:6:7:8"; Some "::"; None].
Proof. vm_compute. reflexivity. Qed.
