(* ===== verification/Config.v ===== *)
(** * The configuration: [internal/config]

    The structs of [config.go], [enterprise.go] and [runtime.go], one module per
    struct with the Go names of its fields, the defaults, and the questions the
    rest of the program asks of a configuration. *)
From S2P Require Import Prelude GoStr GoFloat GoTime.

Module AppConfig.
Record t := mk {
  Concurrency : Z;
  FetchTimeoutSec : Z;
  TestTimeoutSec : Z;
  UserAgent : string;
}.
#[export] Instance eta : Eta t := λ c,
  mk (Concurrency c) (FetchTimeoutSec c) (TestTimeoutSec c) (UserAgent c).
End AppConfig.
Export (hints) AppConfig.

Module Source.
Record t := mk {
  Name : string;
  Type_ : string;
  URL : string;
  Enabled : bool;
  Priority : Z;
  MaxBytes : Z;
  Jurisdiction : string;
}.
#[export] Instance eta : Eta t := λ c,
  mk (Name c) (Type_ c) (URL c) (Enabled c) (Priority c) (MaxBytes c) (Jurisdiction c).
End Source.
Export (hints) Source.

Module FilterConfig.
Record t := mk {
  MaxLatencyMS : Z;
  MinSuccess : bool;
  DropInvalid : bool;
  PreferTLS : bool;
  MaxNodes : Z;
  SortBy : string;
  MinScore : float64;
  PruneAfterQuality : bool;
  MaxStoreNodes : Z;
  CollapseSameIPPorts : bool;
}.
#[export] Instance eta : Eta t := λ c,
  mk (MaxLatencyMS c) (MinSuccess c) (DropInvalid c) (PreferTLS c) (MaxNodes c) (SortBy c)
  (MinScore c) (PruneAfterQuality c) (MaxStoreNodes c) (CollapseSameIPPorts c).
End FilterConfig.
Export (hints) FilterConfig.

Module ExportConfig.
Record t := mk {
  Dir : string;
  Formats : list string;
  FilenamePrefix : string;
  KeepRuns : Z;
}.
#[export] Instance eta : Eta t := λ c,
  mk (Dir c) (Formats c) (FilenamePrefix c) (KeepRuns c).
End ExportConfig.
Export (hints) ExportConfig.

Module ScheduleConfig.
Record t := mk {
  Enabled : bool;
  IntervalMin : Z;
  Job : string;
  RunOnStart : bool;
  SkipAI : bool;
  MaxTest : Z;
  Rounds : Z;
  JitterSec : Z;
}.
#[export] Instance eta : Eta t := λ c,
  mk (Enabled c) (IntervalMin c) (Job c) (RunOnStart c) (SkipAI c) (MaxTest c) (Rounds c)
  (JitterSec c).
End ScheduleConfig.
Export (hints) ScheduleConfig.

Module PublishConfig.
Record t := mk {
  Enabled : bool;
  Token : string;
  PathPrefix : string;
  MinScore : float64;
  MaxNodes : Z;
  MaxNodeAgeHours : Z;
  AliveOnly : bool;
  Formats : list string;
  CacheSec : Z;
  PublicURL : string;
  PreRender : bool;
  MaxCountries : Z;
}.
#[export] Instance eta : Eta t := λ c,
  mk (Enabled c) (Token c) (PathPrefix c) (MinScore c) (MaxNodes c) (MaxNodeAgeHours c)
  (AliveOnly c) (Formats c) (CacheSec c) (PublicURL c) (PreRender c) (MaxCountries c).
End PublishConfig.
Export (hints) PublishConfig.

Module GeoConfig.
Record t := mk {
  Enabled : bool;
  DBPath : string;
  ASNDBPath : string;
  DownloadURL : string;
  ASNDownloadURL : string;
  AutoDownload : bool;
  AnnotateAfterQuality : bool;
  RenameWithFlag : bool;
}.
#[export] Instance eta : Eta t := λ c,
  mk (Enabled c) (DBPath c) (ASNDBPath c) (DownloadURL c) (ASNDownloadURL c) (AutoDownload c)
  (AnnotateAfterQuality c) (RenameWithFlag c).
End GeoConfig.
Export (hints) GeoConfig.

Module DialConfig.
Record t := mk {
  Enabled : bool;
  Bin : string;
  MihomoBin : string;
  Engine : string;
  Concurrency : Z;
  TimeoutSec : Z;
  TestURL : string;
  VerifiedTTLHours : Z;
  DownloadBytes : Z;
  SamplePercent : float64;
  MaxNodes : Z;
  BatchSize : Z;
  AfterQuality : bool;
  AfterQualityMax : Z;
}.
#[export] Instance eta : Eta t := λ c,
  mk (Enabled c) (Bin c) (MihomoBin c) (Engine c) (Concurrency c) (TimeoutSec c) (TestURL c)
  (VerifiedTTLHours c) (DownloadBytes c) (SamplePercent c) (MaxNodes c) (BatchSize c)
  (AfterQuality c) (AfterQualityMax c).
End DialConfig.
Export (hints) DialConfig.

Module SecurityConfig.
Record t := mk {
  AllowQueryToken : bool;
  SubRPS : float64;
  SubBurst : Z;
  APIRPS : float64;
  APIBurst : Z;
  LoginRPS : float64;
  LoginBurst : Z;
}.
#[export] Instance eta : Eta t := λ c,
  mk (AllowQueryToken c) (SubRPS c) (SubBurst c) (APIRPS c) (APIBurst c) (LoginRPS c) (LoginBurst
  c).
End SecurityConfig.
Export (hints) SecurityConfig.

Module ServerConfig.
Record t := mk {
  ReadHeaderTimeoutSec : Z;
  ReadTimeoutSec : Z;
  WriteTimeoutSec : Z;
  IdleTimeoutSec : Z;
  ShutdownTimeoutSec : Z;
  MaxHeaderBytes : Z;
  TrustedProxies : list string;
  AllowedOrigins : list string;
  EnableMetrics : bool;
  EnablePprof : bool;
}.
#[export] Instance eta : Eta t := λ c,
  mk (ReadHeaderTimeoutSec c) (ReadTimeoutSec c) (WriteTimeoutSec c) (IdleTimeoutSec c)
  (ShutdownTimeoutSec c) (MaxHeaderBytes c) (TrustedProxies c) (AllowedOrigins c)
  (EnableMetrics c) (EnablePprof c).
End ServerConfig.
Export (hints) ServerConfig.

Module SQLiteConfig.
Record t := mk {
  Enabled : bool;
  Path : string;
}.
#[export] Instance eta : Eta t := λ c,
  mk (Enabled c) (Path c).
End SQLiteConfig.
Export (hints) SQLiteConfig.

Module DatabaseConfig.
Record t := mk {
  Enabled : bool;
  Driver : string;
  DSN : string;
  MaxOpenConns : Z;
  MaxIdleConns : Z;
  JobRetentionDays : Z;
  AuditRetentionDays : Z;
  MetricRetentionDays : Z;
}.
#[export] Instance eta : Eta t := λ c,
  mk (Enabled c) (Driver c) (DSN c) (MaxOpenConns c) (MaxIdleConns c) (JobRetentionDays c)
  (AuditRetentionDays c) (MetricRetentionDays c).
End DatabaseConfig.
Export (hints) DatabaseConfig.

Module RedisConfig.
Record t := mk {
  Enabled : bool;
  URL : string;
  Prefix : string;
  CacheTTLSec : Z;
  LockTTLSec : Z;
}.
#[export] Instance eta : Eta t := λ c,
  mk (Enabled c) (URL c) (Prefix c) (CacheTTLSec c) (LockTTLSec c).
End RedisConfig.
Export (hints) RedisConfig.

Module ObjectStoreConfig.
Record t := mk {
  Enabled : bool;
  Endpoint : string;
  AccessKey : string;
  SecretKey : string;
  SessionToken : string;
  Bucket : string;
  Prefix : string;
  Region : string;
  AutoCreateBucket : bool;
}.
#[export] Instance eta : Eta t := λ c,
  mk (Enabled c) (Endpoint c) (AccessKey c) (SecretKey c) (SessionToken c) (Bucket c) (Prefix c)
  (Region c) (AutoCreateBucket c).
End ObjectStoreConfig.
Export (hints) ObjectStoreConfig.

Module QueueConfig.
Record t := mk {
  Enabled : bool;
  EmbeddedWorkers : Z;
  MaxPending : Z;
  LeaseSec : Z;
  PollMS : Z;
  MaxAttempts : Z;
  RetryBaseSec : Z;
}.
#[export] Instance eta : Eta t := λ c,
  mk (Enabled c) (EmbeddedWorkers c) (MaxPending c) (LeaseSec c) (PollMS c) (MaxAttempts c)
  (RetryBaseSec c).
End QueueConfig.
Export (hints) QueueConfig.

Module AuthConfig.
Record t := mk {
  LocalEnabled : bool;
  BootstrapUser : string;
  BootstrapTenant : string;
  BootstrapHash : string;
  SessionSecret : string;
  SessionTTLHours : Z;
  SessionCookieName : string;
  SessionCookieDomain : string;
  AdminHost : string;
  PublicHost : string;
  AdminCIDRs : list string;
}.
#[export] Instance eta : Eta t := λ c,
  mk (LocalEnabled c) (BootstrapUser c) (BootstrapTenant c) (BootstrapHash c) (SessionSecret c)
  (SessionTTLHours c) (SessionCookieName c) (SessionCookieDomain c) (AdminHost c)
  (PublicHost c) (AdminCIDRs c).
End AuthConfig.
Export (hints) AuthConfig.

Module SubStoreConfig.
Record t := mk {
  Enabled : bool;
  PublicURL : string;
  BackendPath : string;
  Version : string;
}.
#[export] Instance eta : Eta t := λ c,
  mk (Enabled c) (PublicURL c) (BackendPath c) (Version c).
End SubStoreConfig.
Export (hints) SubStoreConfig.

Module GovernanceConfig.
Record t := mk {
  DisabledSourceCountries : list string;
  DisableAfterFailures : Z;
  CooldownHours : Z;
  HQDropPercent : float64;
  CountrySharePercent : float64;
  JobFailureThreshold : Z;
  AlertWebhookURL : string;
  AlertWebhookSecret : string;
  TermsURL : string;
}.
#[export] Instance eta : Eta t := λ c,
  mk (DisabledSourceCountries c) (DisableAfterFailures c) (CooldownHours c) (HQDropPercent c)
  (CountrySharePercent c) (JobFailureThreshold c) (AlertWebhookURL c) (AlertWebhookSecret c)
  (TermsURL c).
End GovernanceConfig.
Export (hints) GovernanceConfig.

Module QualityV2Config.
Record t := mk {
  Latency : float64;
  Success : float64;
  Stability : float64;
  TLS : float64;
  HTTP : float64;
  Throughput : float64;
}.
#[export] Instance eta : Eta t := λ c,
  mk (Latency c) (Success c) (Stability c) (TLS c) (HTTP c) (Throughput c).
End QualityV2Config.
Export (hints) QualityV2Config.

Module ObservabilityConfig.
Record t := mk {
  OTLPEndpoint : string;
  OTLPInsecure : bool;
  ServiceName : string;
  SampleRatio : float64;
  ExportTimeoutSec : Z;
  ResourceAttrs : gmap string string;
}.
#[export] Instance eta : Eta t := λ c,
  mk (OTLPEndpoint c) (OTLPInsecure c) (ServiceName c) (SampleRatio c) (ExportTimeoutSec c)
  (ResourceAttrs c).
End ObservabilityConfig.
Export (hints) ObservabilityConfig.

Module PoolConfig.
Record t := mk {
  Key : string;
  Name : string;
  MinScore : float64;
  MaxLatencyMS : Z;
  Countries : list string;
  Protocols : list string;
  RequireAI : bool;
  RequireVerified : bool;
  RefreshSec : Z;
  MaxNodes : Z;
}.
#[export] Instance eta : Eta t := λ c,
  mk (Key c) (Name c) (MinScore c) (MaxLatencyMS c) (Countries c) (Protocols c) (RequireAI c)
  (RequireVerified c) (RefreshSec c) (MaxNodes c).
End PoolConfig.
Export (hints) PoolConfig.

Module LoggingConfig.
Record t := mk {
  Level : string;
}.
#[export] Instance eta : Eta t := λ c,
  mk (Level c).
End LoggingConfig.
Export (hints) LoggingConfig.

Module Config.
Record t := mk {
  App : AppConfig.t;
  Sources : list Source.t;
  Protocols : list string;
  Filter : FilterConfig.t;
  Export : ExportConfig.t;
  Schedule : ScheduleConfig.t;
  Publish : PublishConfig.t;
  Geo : GeoConfig.t;
  Dial : DialConfig.t;
  Security : SecurityConfig.t;
  Server : ServerConfig.t;
  SQLite : SQLiteConfig.t;
  Database : DatabaseConfig.t;
  Redis : RedisConfig.t;
  ObjectStore : ObjectStoreConfig.t;
  Queue : QueueConfig.t;
  Auth : AuthConfig.t;
  SubStore : SubStoreConfig.t;
  Governance : GovernanceConfig.t;
  QualityV2 : QualityV2Config.t;
  Observability : ObservabilityConfig.t;
  Pools : list PoolConfig.t;
  Logging : LoggingConfig.t;
}.
#[export] Instance eta : Eta t := λ c,
  mk (App c) (Sources c) (Protocols c) (Filter c) (Export c) (Schedule c) (Publish c) (Geo c)
  (Dial c) (Security c) (Server c) (SQLite c) (Database c) (Redis c) (ObjectStore c) (Queue
  c) (Auth c) (SubStore c) (Governance c) (QualityV2 c) (Observability c) (Pools c) (Logging
  c).
End Config.
Export (hints) Config.

Module RuntimePatch.
Record t := mk {
  PublishMinScore : option float64;
  PublishMaxNodes : option Z;
  PublishAliveOnly : option bool;
  PublishCacheSec : option Z;
  PublishMaxNodeAgeHours : option Z;
  GovernanceDisableFailures : option Z;
  GovernanceCooldownHours : option Z;
  GovernanceHQDropPercent : option float64;
  GovernanceCountryShare : option float64;
  DialAfterQuality : option bool;
  DialAfterQualityMax : option Z;
}.
#[export] Instance eta : Eta t := λ c,
  mk (PublishMinScore c) (PublishMaxNodes c) (PublishAliveOnly c) (PublishCacheSec c)
  (PublishMaxNodeAgeHours c) (GovernanceDisableFailures c) (GovernanceCooldownHours c)
  (GovernanceHQDropPercent c) (GovernanceCountryShare c) (DialAfterQuality c)
  (DialAfterQualityMax c).
End RuntimePatch.
Export (hints) RuntimePatch.

Abbreviation config := Config.t.

(** [Default] *)
Definition default_pool (key name : string) (min_score max_latency : Z) (ai verified : bool)
    (refresh max_nodes : Z) : PoolConfig.t :=
  PoolConfig.mk key name (f_of_Z min_score) max_latency [] [] ai verified refresh max_nodes.

Definition Default : config := Config.mk
  (AppConfig.mk 64 20 6
    "Mozilla/5.0 (Windows NT 10.0; Win64; x64) AppleWebKit/537.36 Chrome/122.0.0.0 Safari/537.36")
  []
  ["vmess"; "vless"; "trojan"; "ss"; "ssr"; "hysteria2"; "hy2"; "tuic"]
  (FilterConfig.mk 2500 true true false 500 "score" (f_of_Z 70) true 8000 false)
  (ExportConfig.mk "output" ["raw"; "base64"; "clash"; "json"] "nodes" 48)
  (ScheduleConfig.mk false 180 "full" false true 1200 2 30)
  (PublishConfig.mk true "" "/sub" f_zero 0 24 true ["raw"; "base64"; "clash"] 120 "" true 30)
  (GeoConfig.mk true "data/GeoLite2-Country.mmdb" "data/GeoLite2-ASN.mmdb" "" "" true true true)
  (DialConfig.mk true "" "" "both" 4 18 "https://www.cloudflare.com/cdn-cgi/trace" 6 262144
    f_zero 0 200 false 0)
  (SecurityConfig.mk false (f_of_Z 20) 40 (f_of_Z 30) 60 (f_lit 2 10) 5)
  (ServerConfig.mk 10 30 60 120 30 1048576 ["127.0.0.1/32"; "::1/128"] [] true false)
  (SQLiteConfig.mk true "data/nodeharvest.db")
  (DatabaseConfig.mk true "sqlite" "data/nodeharvest.db" 10 5 30 90 30)
  (RedisConfig.mk false "" "nodeharvest" 300 120)
  (ObjectStoreConfig.mk false "" "" "" "" "nodeharvest" "artifacts" "" false)
  (QueueConfig.mk false 0 1000 120 500 3 5)
  (AuthConfig.mk false "" "default" "" "" 12 "nh_session" "" "" "" [])
  (SubStoreConfig.mk false "" "" "2.36.22")
  (GovernanceConfig.mk [] 5 6 (f_of_Z 40) (f_of_Z 80) 2 "" "" "")
  (QualityV2Config.mk (f_lit 25 100) (f_lit 25 100) (f_lit 15 100) (f_lit 10 100) (f_lit 15 100)
    (f_lit 10 100))
  (ObservabilityConfig.mk "" false "nodeharvest" (f_lit 1 10) 5 ∅)
  [default_pool "global-hq" "Global HQ" 70 0 false false 120 500;
   default_pool "verified" "Verified" 60 0 false true 300 300;
   default_pool "streaming" "Streaming" 70 800 false false 180 300;
   default_pool "ai-friendly" "AI Friendly" 60 0 true false 300 300;
   default_pool "low-latency" "Low Latency" 50 300 false false 120 200]
  (LoggingConfig.mk "info").

(** [FetchTimeout], [TestTimeout] and [ScheduleInterval] *)
Definition FetchTimeout (c : config) : Duration :=
  wrap64 (AppConfig.FetchTimeoutSec (Config.App c) * Second).
Definition TestTimeout (c : config) : Duration :=
  wrap64 (AppConfig.TestTimeoutSec (Config.App c) * Second).
Definition ScheduleInterval (c : config) : Duration :=
  wrap64 (ScheduleConfig.IntervalMin (Config.Schedule c) * Minute).

Section questions.
Context `{Unicode}.

(** [ProtocolAllowed] *)
Definition hy2_name (p : string) : string := if (p =? "hy2")%string then "hysteria2" else p.
Definition ProtocolAllowed (c : config) (p : string) : bool :=
  match Config.Protocols c with
  | [] => true
  | _ =>
      let p := hy2_name (ToLower (TrimSpace p)) in
      existsb (λ allowed, (hy2_name (ToLower allowed) =? p)%string) (Config.Protocols c)
  end.

(** [EnabledSources] of the configuration *)
Definition blocked_source (c : config) (s : Source.t) : bool :=
  existsb (λ country,
    EqualFold (TrimSpace country) (TrimSpace (Source.Jurisdiction s))
    && negb (TrimSpace (Source.Jurisdiction s) =? "")%string)
    (GovernanceConfig.DisabledSourceCountries (Config.Governance c)).
Definition config_EnabledSources (c : config) : list Source.t :=
  stable_sort (λ a b, Source.Priority b <? Source.Priority a)
    (List.filter (λ s, Source.Enabled s && negb (TrimSpace (Source.URL s) =? "")%string
                       && negb (blocked_source c s)) (Config.Sources c)).
End questions.
