(* ===== verification/ConfigCheck.v ===== *)
(** * Loading a configuration: normalisation, validation, runtime patches

    [normalize], [normalizeEnterprise], [Validate], [validateEnterprise] and
    [ApplyRuntimePatch].  The Go code assigns the fields one after the other;
    the sections of a configuration are independent of each other but for the
    ones named here, so each section has its own normaliser.  The environment
    is a function, [net/url] and [net/netip] are parameters ([UrlParser],
    [NetIP]), and so is the public suffix list. *)
From S2P Require Import Prelude GoStr GoFloat GoTime Ratelimit Config.

(** [url.Parse] and the parts of a URL that the program looks at. *)
Module Url.
Record t := mk {
  Scheme : string;
  Host : string;
  Hostname : string;
  HasUser : bool;
  Path : string;
  RawQuery : string;
  Fragment : string;
}.
End Url.
Class UrlParser := url_parse : string → option Url.t.

(** [publicsuffix.PublicSuffix] of golang.org/x/net *)
Class PublicSuffix := public_suffix : string → string.

Definition pos_or (d v : Z) : Z := if v <=? 0 then d else v.
Definition nonneg (v : Z) : Z := if v <? 0 then 0 else v.
Definition fpos_or (d v : float64) : float64 := if f_le v f_zero then d else v.
Definition str_or (d v : string) : string := if (v =? "")%string then d else v.

(** [fmt.Sscanf(v, "%d", &n)] on text without leading white space *)
Fixpoint digits_prefix (acc : option Z) (l : bytes) : option Z :=
  match l with
  | [] => acc
  | c :: l => match digit_val c with
              | Some d => digits_prefix (Some (default 0 acc * 10 + d)) l
              | None => acc
              end
  end.
Definition sscanf_d (v : string) : option Z :=
  let signed s l := match digits_prefix None l with Some n => Some (s * n) | None => None end in
  let n := match explode v with
           | "-"%char :: l => signed (-1) l
           | "+"%char :: l => signed 1 l
           | l => signed 1 l
           end in
  match n with
  | Some n => if (- 2 ^ 63 <=? n) && (n <? 2 ^ 63) then Some n else None
  | None => None
  end.

(** [strings.FieldsFunc] with a set of ASCII separators *)
Fixpoint fields_on (seps : string) (cur : bytes) (l : bytes) : list bytes :=
  match l with
  | [] => match cur with [] => [] | _ => [rev cur] end
  | c :: l =>
      if in_cutset seps c then
        match cur with [] => fields_on seps [] l | _ => rev cur :: fields_on seps [] l end
      else fields_on seps (c :: cur) l
  end.
Definition tab : string := String (byte_of 9) "".
Definition crlf : string := String (byte_of 13) (String (byte_of 10) "").
Definition proxy_separators : string := ",; " +:+ tab +:+ crlf.
Definition FieldsFunc (v seps : string) : list string := implode <$> fields_on seps [] (explode v).

(** ** Normalisation *)

Section normalize.
Context `{Unicode} (getenv : string → string).

(** [if v := strings.TrimSpace(os.Getenv(key)); v != "" ...] *)
Definition env_or (key d : string) : string := str_or d (TrimSpace (getenv key)).
Definition env_set (key : string) : bool := negb (TrimSpace (getenv key) =? "")%string.

(** [envBool]: the value, when it is set and known *)
Definition envBool (key : string) : option bool :=
  let v := ToLower (TrimSpace (getenv key)) in
  if bool_decide (v ∈ ["1"; "true"; "on"; "yes"; "enable"; "enabled"]) then Some true
  else if bool_decide (v ∈ ["0"; "false"; "off"; "no"; "disable"; "disabled"]) then Some false
  else None.
Definition env_bool_or (key : string) (d : bool) : bool := default d (envBool key).

Definition normalize_database (sqlite_path : string) (d : DatabaseConfig.t) : DatabaseConfig.t :=
  let driver := ToLower (TrimSpace (str_or "sqlite" (DatabaseConfig.Driver d))) in
  let dsn := if (driver =? "sqlite")%string && (DatabaseConfig.DSN d =? "")%string
             then sqlite_path else DatabaseConfig.DSN d in
  DatabaseConfig.mk (DatabaseConfig.Enabled d)
    (if env_set "NODE_HARVEST_DATABASE_URL" then "postgres" else driver)
    (env_or "NODE_HARVEST_DATABASE_URL" dsn)
    (pos_or 10 (DatabaseConfig.MaxOpenConns d)) (nonneg (DatabaseConfig.MaxIdleConns d))
    (pos_or 30 (DatabaseConfig.JobRetentionDays d))
    (pos_or 90 (DatabaseConfig.AuditRetentionDays d))
    (pos_or 30 (DatabaseConfig.MetricRetentionDays d)).

Definition normalize_redis (r : RedisConfig.t) : RedisConfig.t :=
  RedisConfig.mk (env_set "NODE_HARVEST_REDIS_URL" || RedisConfig.Enabled r)
    (env_or "NODE_HARVEST_REDIS_URL" (RedisConfig.URL r))
    (Trim (str_or "nodeharvest" (RedisConfig.Prefix r)) ": ")
    (pos_or 300 (RedisConfig.CacheTTLSec r)) (pos_or 120 (RedisConfig.LockTTLSec r)).

Definition normalize_object_store (o : ObjectStoreConfig.t) : ObjectStoreConfig.t :=
  let auto := ToLower (TrimSpace (getenv "NODE_HARVEST_OBJECT_STORE_AUTO_CREATE")) in
  ObjectStoreConfig.mk
    (env_set "NODE_HARVEST_OBJECT_STORE_ENDPOINT" || ObjectStoreConfig.Enabled o)
    (env_or "NODE_HARVEST_OBJECT_STORE_ENDPOINT" (ObjectStoreConfig.Endpoint o))
    (env_or "NODE_HARVEST_OBJECT_STORE_ACCESS_KEY" (ObjectStoreConfig.AccessKey o))
    (env_or "NODE_HARVEST_OBJECT_STORE_SECRET_KEY" (ObjectStoreConfig.SecretKey o))
    (env_or "NODE_HARVEST_OBJECT_STORE_SESSION_TOKEN" (ObjectStoreConfig.SessionToken o))
    (env_or "NODE_HARVEST_OBJECT_STORE_BUCKET" (str_or "nodeharvest" (ObjectStoreConfig.Bucket o)))
    (Trim (ObjectStoreConfig.Prefix o) "/ ")
    (ObjectStoreConfig.Region o)
    (if bool_decide (auto ∈ ["1"; "true"; "on"; "yes"]) then true
     else if bool_decide (auto ∈ ["0"; "false"; "off"; "no"]) then false
     else ObjectStoreConfig.AutoCreateBucket o).

Definition normalize_queue (q : QueueConfig.t) : QueueConfig.t :=
  QueueConfig.mk (QueueConfig.Enabled q)
    (if env_set "NODE_HARVEST_EMBEDDED_WORKERS"
     then default (QueueConfig.EmbeddedWorkers q)
            (sscanf_d (TrimSpace (getenv "NODE_HARVEST_EMBEDDED_WORKERS")))
     else QueueConfig.EmbeddedWorkers q)
    (pos_or 1000 (QueueConfig.MaxPending q)) (pos_or 120 (QueueConfig.LeaseSec q))
    (pos_or 500 (QueueConfig.PollMS q)) (pos_or 3 (QueueConfig.MaxAttempts q))
    (pos_or 5 (QueueConfig.RetryBaseSec q)).

Definition normal_domain (s : string) : string := TrimPrefix (ToLower (TrimSpace s)) ".".
Definition normalize_auth (a : AuthConfig.t) : AuthConfig.t :=
  AuthConfig.mk (env_bool_or "NODE_HARVEST_LOCAL_AUTH" (AuthConfig.LocalEnabled a))
    (AuthConfig.BootstrapUser a) (str_or "default" (AuthConfig.BootstrapTenant a))
    (env_or "NODE_HARVEST_BOOTSTRAP_PASSWORD_HASH" (AuthConfig.BootstrapHash a))
    (env_or "NODE_HARVEST_SESSION_SECRET" (AuthConfig.SessionSecret a))
    (pos_or 12 (AuthConfig.SessionTTLHours a))
    (str_or "nh_session" (AuthConfig.SessionCookieName a))
    (normal_domain (env_or "NODE_HARVEST_SESSION_COOKIE_DOMAIN"
      (normal_domain (AuthConfig.SessionCookieDomain a))))
    (env_or "NODE_HARVEST_ADMIN_HOST" (AuthConfig.AdminHost a))
    (env_or "NODE_HARVEST_PUBLIC_HOST" (AuthConfig.PublicHost a)) (AuthConfig.AdminCIDRs a).

Definition normalize_sub_store (s : SubStoreConfig.t) : SubStoreConfig.t :=
  let path := TrimSpace (env_or "NODE_HARVEST_SUB_STORE_BACKEND_PATH" (SubStoreConfig.BackendPath s)) in
  SubStoreConfig.mk (env_bool_or "NODE_HARVEST_SUB_STORE_ENABLED" (SubStoreConfig.Enabled s))
    (TrimRight (TrimSpace (env_or "NODE_HARVEST_SUB_STORE_PUBLIC_URL" (SubStoreConfig.PublicURL s))) "/")
    (if negb (path =? "")%string && negb (HasPrefix path "/") then "/" +:+ path else path)
    (TrimSpace (env_or "NODE_HARVEST_SUB_STORE_VERSION" (str_or "2.36.22" (SubStoreConfig.Version s)))).

Definition normalize_governance (g : GovernanceConfig.t) : GovernanceConfig.t :=
  GovernanceConfig.mk (GovernanceConfig.DisabledSourceCountries g)
    (pos_or 5 (GovernanceConfig.DisableAfterFailures g)) (pos_or 6 (GovernanceConfig.CooldownHours g))
    (fpos_or (f_of_Z 40) (GovernanceConfig.HQDropPercent g))
    (fpos_or (f_of_Z 80) (GovernanceConfig.CountrySharePercent g))
    (pos_or 2 (GovernanceConfig.JobFailureThreshold g)) (GovernanceConfig.AlertWebhookURL g)
    (env_or "NODE_HARVEST_ALERT_WEBHOOK_SECRET" (GovernanceConfig.AlertWebhookSecret g))
    (GovernanceConfig.TermsURL g).

Definition normalize_observability (o : ObservabilityConfig.t) : ObservabilityConfig.t :=
  ObservabilityConfig.mk
    (env_or "OTEL_EXPORTER_OTLP_ENDPOINT" (ObservabilityConfig.OTLPEndpoint o))
    (ObservabilityConfig.OTLPInsecure o) (str_or "nodeharvest" (ObservabilityConfig.ServiceName o))
    (if f_lt (ObservabilityConfig.SampleRatio o) f_zero
        || f_lt (f_of_Z 1) (ObservabilityConfig.SampleRatio o)
     then f_lit 1 10 else ObservabilityConfig.SampleRatio o)
    (pos_or 5 (ObservabilityConfig.ExportTimeoutSec o)) (ObservabilityConfig.ResourceAttrs o).

Definition env_proxies (d : list string) : list string :=
  if env_set "NODE_HARVEST_TRUSTED_PROXIES"
  then FieldsFunc (TrimSpace (getenv "NODE_HARVEST_TRUSTED_PROXIES")) proxy_separators else d.

(** [normalizeEnterprise]; it runs before the path of the SQLite file gets its
    default. *)
Definition normalizeEnterprise (c : config) : config :=
  c <| Config.Database := normalize_database (SQLiteConfig.Path (Config.SQLite c)) (Config.Database c) |>
    <| Config.Redis := normalize_redis (Config.Redis c) |>
    <| Config.ObjectStore := normalize_object_store (Config.ObjectStore c) |>
    <| Config.Queue := normalize_queue (Config.Queue c) |>
    <| Config.Auth := normalize_auth (Config.Auth c) |>
    <| Config.SubStore := normalize_sub_store (Config.SubStore c) |>
    <| Config.Governance := normalize_governance (Config.Governance c) |>
    <| Config.Observability := normalize_observability (Config.Observability c) |>
    <| Config.Server := (Config.Server c) <| ServerConfig.TrustedProxies :=
         env_proxies (ServerConfig.TrustedProxies (Config.Server c)) |> |>.

Definition normalize_app (a : AppConfig.t) : AppConfig.t :=
  AppConfig.mk (pos_or 64 (AppConfig.Concurrency a)) (pos_or 20 (AppConfig.FetchTimeoutSec a))
    (pos_or 6 (AppConfig.TestTimeoutSec a))
    (str_or (AppConfig.UserAgent (Config.App Default)) (AppConfig.UserAgent a)).

Definition list_or {A} (d l : list A) : list A := match l with [] => d | _ => l end.
Definition normalize_export (e : ExportConfig.t) : ExportConfig.t :=
  ExportConfig.mk (str_or "output" (ExportConfig.Dir e))
    (list_or ["raw"; "base64"; "clash"] (ExportConfig.Formats e))
    (str_or "nodes" (ExportConfig.FilenamePrefix e)) (pos_or 48 (ExportConfig.KeepRuns e)).

Definition normalize_filter (f : FilterConfig.t) : FilterConfig.t :=
  FilterConfig.mk (FilterConfig.MaxLatencyMS f) (FilterConfig.MinSuccess f)
    (FilterConfig.DropInvalid f) (FilterConfig.PreferTLS f) (pos_or 500 (FilterConfig.MaxNodes f))
    (str_or "score" (FilterConfig.SortBy f)) (fpos_or (f_of_Z 70) (FilterConfig.MinScore f))
    (FilterConfig.PruneAfterQuality f) (pos_or 8000 (FilterConfig.MaxStoreNodes f))
    (FilterConfig.CollapseSameIPPorts f).

Definition normalize_schedule (s : ScheduleConfig.t) : ScheduleConfig.t :=
  ScheduleConfig.mk (env_bool_or "NODE_HARVEST_SCHEDULE" (ScheduleConfig.Enabled s))
    (pos_or 180 (ScheduleConfig.IntervalMin s))
    (ToLower (TrimSpace (str_or "full" (ScheduleConfig.Job s)))) (ScheduleConfig.RunOnStart s)
    (ScheduleConfig.SkipAI s) (pos_or 1200 (ScheduleConfig.MaxTest s))
    (pos_or 2 (ScheduleConfig.Rounds s)) (ScheduleConfig.JitterSec s).

(** The limits of the publication default to those of the filter, after its
    own defaults. *)
Definition normalize_prefix (p : string) : string :=
  let p := str_or "/sub" p in
  let p := if HasPrefix p "/" then p else "/" +:+ p in
  str_or "/sub" (TrimRight p "/").
Definition normalize_publish (f : FilterConfig.t) (p : PublishConfig.t) : PublishConfig.t :=
  PublishConfig.mk (PublishConfig.Enabled p)
    (env_or "NODE_HARVEST_TOKEN" (PublishConfig.Token p))
    (normalize_prefix (PublishConfig.PathPrefix p))
    (fpos_or (FilterConfig.MinScore f) (PublishConfig.MinScore p))
    (pos_or (FilterConfig.MaxNodes f) (PublishConfig.MaxNodes p))
    (pos_or 24 (PublishConfig.MaxNodeAgeHours p)) (PublishConfig.AliveOnly p)
    (list_or ["raw"; "base64"; "clash"] (PublishConfig.Formats p))
    (nonneg (PublishConfig.CacheSec p))
    (if env_set "NODE_HARVEST_PUBLIC_URL"
     then TrimRight (TrimSpace (getenv "NODE_HARVEST_PUBLIC_URL")) "/" else PublishConfig.PublicURL p)
    (PublishConfig.PreRender p) (pos_or 30 (PublishConfig.MaxCountries p)).

Definition normalize_geo (g : GeoConfig.t) : GeoConfig.t :=
  g <| GeoConfig.DBPath := str_or "data/GeoLite2-Country.mmdb" (GeoConfig.DBPath g) |>
    <| GeoConfig.ASNDBPath := str_or "data/GeoLite2-ASN.mmdb" (GeoConfig.ASNDBPath g) |>.

Definition normalize_security (s : SecurityConfig.t) : SecurityConfig.t :=
  SecurityConfig.mk
    (env_bool_or "NODE_HARVEST_ALLOW_QUERY_TOKEN" (SecurityConfig.AllowQueryToken s))
    (fpos_or (f_of_Z 20) (SecurityConfig.SubRPS s)) (pos_or 40 (SecurityConfig.SubBurst s))
    (fpos_or (f_of_Z 30) (SecurityConfig.APIRPS s)) (pos_or 60 (SecurityConfig.APIBurst s))
    (SecurityConfig.LoginRPS s) (SecurityConfig.LoginBurst s).

Definition normalize_server (s : ServerConfig.t) : ServerConfig.t :=
  ServerConfig.mk (pos_or 10 (ServerConfig.ReadHeaderTimeoutSec s))
    (pos_or 30 (ServerConfig.ReadTimeoutSec s)) (pos_or 60 (ServerConfig.WriteTimeoutSec s))
    (pos_or 120 (ServerConfig.IdleTimeoutSec s)) (pos_or 30 (ServerConfig.ShutdownTimeoutSec s))
    (pos_or 1048576 (ServerConfig.MaxHeaderBytes s)) (ServerConfig.TrustedProxies s)
    (ServerConfig.AllowedOrigins s) (ServerConfig.EnableMetrics s) (ServerConfig.EnablePprof s).

Definition normalize_dial (d : DialConfig.t) : DialConfig.t :=
  DialConfig.mk (DialConfig.Enabled d) (env_or "NODE_HARVEST_SINGBOX" (DialConfig.Bin d))
    (env_or "NODE_HARVEST_MIHOMO" (DialConfig.MihomoBin d))
    (ToLower (TrimSpace (str_or "both" (DialConfig.Engine d))))
    (pos_or 4 (DialConfig.Concurrency d)) (pos_or 18 (DialConfig.TimeoutSec d))
    (str_or "https://www.cloudflare.com/cdn-cgi/trace" (DialConfig.TestURL d))
    (pos_or 6 (DialConfig.VerifiedTTLHours d)) (DialConfig.DownloadBytes d)
    (DialConfig.SamplePercent d) (DialConfig.MaxNodes d) (pos_or 200 (DialConfig.BatchSize d))
    (DialConfig.AfterQuality d) (DialConfig.AfterQualityMax d).

Definition normalize_source (i : Z) (s : Source.t) : Source.t :=
  s <| Source.Type_ := str_or "subscription" (Source.Type_ s) |>
    <| Source.Name := str_or ("source-" +:+ Itoa (i + 1)) (Source.Name s) |>
    <| Source.Priority := if Source.Priority s =? 0 then 50 else Source.Priority s |>
    <| Source.MaxBytes := pos_or 33554432 (Source.MaxBytes s) |>.

(** [normalize] *)
Definition normalize (c : config) : config :=
  let c := normalizeEnterprise c in
  let f := normalize_filter (Config.Filter c) in
  c <| Config.App := normalize_app (Config.App c) |>
    <| Config.Export := normalize_export (Config.Export c) |>
    <| Config.Filter := f |>
    <| Config.Schedule := normalize_schedule (Config.Schedule c) |>
    <| Config.Publish := normalize_publish f (Config.Publish c) |>
    <| Config.Geo := normalize_geo (Config.Geo c) |>
    <| Config.Security := normalize_security (Config.Security c) |>
    <| Config.Server := normalize_server (Config.Server c) |>
    <| Config.SQLite := (Config.SQLite c) <| SQLiteConfig.Path :=
         str_or "data/nodeharvest.db" (SQLiteConfig.Path (Config.SQLite c)) |> |>
    <| Config.Dial := normalize_dial (Config.Dial c) |>
    <| Config.Sources := imap (λ i s, normalize_source (Z.of_nat i) s) (Config.Sources c) |>.
End normalize.
