(* ===== verification/ConfigValid.v ===== *)
(** * Validation and runtime patches of a configuration

    [Validate], [validateEnterprise] and their helpers, and [ApplyRuntimePatch],
    with what a validated configuration guarantees. *)
From S2P Require Import Prelude GoStr GoFloat GoTime Ratelimit Config ConfigCheck.

(** A check with its message. *)
Definition require (b : bool) (msg : string) : result unit :=
  if b then Ok tt else Err (ErrMsg msg).
Notation "'check' b 'else' msg 'in' k" := (rbind (require b msg) (fun _ => k))
  (at level 10, b at level 100, msg at level 100, k at level 200) : go_scope.

(** A loop of checks over a list. *)
Fixpoint each {A} (f : A → result unit) (l : list A) : result unit :=
  match l with [] => Ok tt | x :: l => let! _ := f x in each f l end.

Definition between (lo hi v : Z) : bool := (lo <=? v) && (v <=? hi).
Definition lower_alnum (c : ascii) : bool :=
  let v := byte_val c in between 97 122 v || between 48 57 v.
Definition dash (c : ascii) : bool := byte_val c =? 45.
Definition underscore (c : ascii) : bool := byte_val c =? 95.

(** [validTenant] *)
Definition validTenant (value : string) : bool :=
  negb (value =? "")%string && (slen value <=? 64) &&
  match explode value with
  | [] => true
  | c :: l => lower_alnum c && forallb (λ c, lower_alnum c || dash c || underscore c) l
  end.

(** [validCookieDomain] *)
Definition valid_label (label : bytes) : bool :=
  negb (bool_decide (label = [])) && (Z.of_nat (length label) <=? 63)
  && negb (match head label with Some c => dash c | None => false end)
  && negb (match last label with Some c => dash c | None => false end)
  && forallb (λ c, lower_alnum c || dash c) label.
Definition validCookieDomain `{PublicSuffix} (value : string) : bool :=
  (slen value <=? 253) && Contains value "." && negb (public_suffix value =? value)%string
  && forallb valid_label (split_on "." (explode value)).

(** [validSubStoreBackendPath] *)
Definition path_byte (c : ascii) : bool :=
  let v := byte_val c in
  between 97 122 v || between 65 90 v || between 48 57 v || dash c || underscore c
  || (v =? 46) || (v =? 126).
Definition validSubStoreBackendPath (value : string) : bool :=
  between 2 128 (slen value) &&
  match explode value with "/"%char :: l => forallb path_byte l | _ => false end.

(** The canonical name of an export format *)
Definition canonical_format `{Unicode} (format : string) : option string :=
  let f := ToLower (TrimSpace format) in
  if bool_decide (f ∈ ["raw"; "uri"; "txt"]) then Some "raw"
  else if bool_decide (f ∈ ["base64"; "sub"; "subscription"]) then Some "base64"
  else if bool_decide (f ∈ ["clash"; "yaml"; "yml"]) then Some "clash"
  else if (f =? "json")%string then Some "json"
  else None.

Section validate.
Context `{Unicode} `{UrlParser} `{NetIP} `{PublicSuffix}.

(** [domainIncludesHost] *)
Definition bare (s : string) : string := ToLower (TrimSuffix (TrimSpace s) ".").
Definition domainIncludesHost (domain host : string) : bool :=
  let host := bare host in
  let domain := bare domain in
  (host =? domain)%string || HasSuffix host ("." +:+ domain).

Definition url_ok (schemes : list string) (s : string) : bool :=
  match url_parse s with
  | Some u => bool_decide (Url.Scheme u ∈ schemes) && negb (Url.Host u =? "")%string
  | None => false
  end.

Fixpoint check_formats (seen : gset string) (formats : list string) : result unit :=
  match formats with
  | [] => Ok tt
  | format :: formats =>
      match canonical_format format with
      | None => Err (ErrMsg "unsupported export format")
      | Some f =>
          check negb (bool_decide (f ∈ seen)) else "duplicate export format" in
          check_formats ({[f]} ∪ seen) formats
      end
  end.

Fixpoint check_sources (seen : gset string) (sources : list Source.t) : result unit :=
  match sources with
  | [] => Ok tt
  | s :: sources =>
      check negb (bool_decide (Source.Name s ∈ seen)) else "duplicate source name" in
      check bool_decide (Source.Type_ s ∈ ["subscription"; "raw"; "clash"])
        else "source has unsupported type" in
      check negb (Source.Enabled s && negb (url_ok ["http"; "https"] (Source.URL s)))
        else "source has invalid URL" in
      check (0 <? Source.MaxBytes s) && (Source.MaxBytes s <=? 134217728)
        else "source max_bytes must be between 1 and 134217728" in
      check between 1 1000 (Source.Priority s) else "source priority must be between 1 and 1000" in
      check_sources ({[Source.Name s]} ∪ seen) sources
  end.

Fixpoint check_pools (seen : gset string) (pools : list PoolConfig.t) : result unit :=
  match pools with
  | [] => Ok tt
  | p :: pools =>
      let key := ToLower (TrimSpace (PoolConfig.Key p)) in
      check negb (key =? "")%string && negb (bool_decide (key ∈ seen))
        else "pool keys must be non-empty and unique" in
      check negb (f_lt (PoolConfig.MinScore p) f_zero || f_lt (f_of_Z 100) (PoolConfig.MinScore p)
                  || (PoolConfig.MaxLatencyMS p <? 0) || (PoolConfig.RefreshSec p <? 0)
                  || (PoolConfig.MaxNodes p <? 0))
        else "pool has invalid limits" in
      check_pools ({[key]} ∪ seen) pools
  end.

Definition addr_or_prefix (s : string) : bool :=
  match ParsePrefix (TrimSpace s) with
  | Some _ => true
  | None => match ParseAddr (TrimSpace s) with Some _ => true | None => false end
  end.

(** The checks on the domain of the session cookie.  The error of the second
    [url.Parse] is dropped, and the nil URL dereferenced. *)
Definition check_cookie_domain (a : AuthConfig.t) : result unit :=
  if (AuthConfig.SessionCookieDomain a =? "")%string then Ok tt
  else
    check validCookieDomain (AuthConfig.SessionCookieDomain a)
      else "auth.session_cookie_domain must be a valid parent domain" in
    check negb (HasPrefix (AuthConfig.SessionCookieName a) "__Host-")
      else "auth.session_cookie_name cannot use __Host- with a cookie domain" in
    if (AuthConfig.AdminHost a =? "")%string then Ok tt
    else
      match url_parse ("//" +:+ AuthConfig.AdminHost a) with
      | None => Err (ErrPanic "nil pointer dereference")
      | Some u =>
          require (domainIncludesHost (AuthConfig.SessionCookieDomain a) (Url.Hostname u))
            "auth.session_cookie_domain must contain auth.admin_host"
      end.

Definition check_database (d : DatabaseConfig.t) : result unit :=
  if negb (DatabaseConfig.Enabled d) then Ok tt
  else if (DatabaseConfig.Driver d =? "sqlite")%string then
    require (negb (TrimSpace (DatabaseConfig.DSN d) =? "")%string) "database.dsn is required for sqlite"
  else if (DatabaseConfig.Driver d =? "postgres")%string then
    require (url_ok ["postgres"; "postgresql"] (DatabaseConfig.DSN d))
      "database.dsn must be a postgres URL"
  else Err (ErrMsg "database.driver must be sqlite or postgres").

Definition check_object_store (o : ObjectStoreConfig.t) : result unit :=
  if negb (ObjectStoreConfig.Enabled o) then Ok tt
  else
    check url_ok ["http"; "https"] (ObjectStoreConfig.Endpoint o)
      else "object_store.endpoint must be an HTTP(S) URL" in
    require (negb ((ObjectStoreConfig.AccessKey o =? "")%string
                   || (ObjectStoreConfig.SecretKey o =? "")%string
                   || (ObjectStoreConfig.Bucket o =? "")%string))
      "object_store access_key, secret_key, and bucket are required".

Definition check_sub_store (s : SubStoreConfig.t) (cookie_domain : string) : result unit :=
  if negb (SubStoreConfig.Enabled s) then Ok tt
  else
    match url_parse (SubStoreConfig.PublicURL s) with
    | None => Err (ErrMsg "sub_store.public_url must be an HTTPS origin")
    | Some u =>
        check (Url.Scheme u =? "https")%string && negb (Url.Host u =? "")%string
              && negb (Url.HasUser u)
              && ((Url.Path u =? "")%string || (Url.Path u =? "/")%string)
              && (Url.RawQuery u =? "")%string && (Url.Fragment u =? "")%string
          else "sub_store.public_url must be an HTTPS origin" in
        check validSubStoreBackendPath (SubStoreConfig.BackendPath s)
          else "sub_store.backend_path must be one non-root URL path segment" in
        check negb (cookie_domain =? "")%string
          else "sub_store.enabled requires auth.session_cookie_domain" in
        require (domainIncludesHost cookie_domain (Url.Hostname u))
          "auth.session_cookie_domain must contain the Sub-Store host"
    end.

(** [validateEnterprise] *)
Definition validateEnterprise (c : config) : result unit :=
  let s := Config.Security c in
  let a := Config.Auth c in
  let q := Config.Queue c in
  let w := Config.QualityV2 c in
  check negb (f_le (SecurityConfig.LoginRPS s) f_zero || f_lt (f_of_Z 100) (SecurityConfig.LoginRPS s)
              || (SecurityConfig.LoginBurst s <? 1) || (1000 <? SecurityConfig.LoginBurst s))
    else "security login rate limits are invalid" in
  let! _ := check_database (Config.Database c) in
  check negb (RedisConfig.Enabled (Config.Redis c))
        || url_ok ["redis"; "rediss"] (RedisConfig.URL (Config.Redis c))
    else "redis.url must be a redis or rediss URL" in
  let! _ := check_object_store (Config.ObjectStore c) in
  check between 0 64 (QueueConfig.EmbeddedWorkers q)
    else "queue.embedded_workers must be between 0 and 64" in
  check negb (QueueConfig.Enabled q && negb (DatabaseConfig.Enabled (Config.Database c)))
    else "queue.enabled requires database.enabled" in
  check negb (AuthConfig.LocalEnabled a && ((AuthConfig.BootstrapUser a =? "")%string
              || (AuthConfig.BootstrapHash a =? "")%string))
    else "local auth requires bootstrap_user and bootstrap_password_hash" in
  check validTenant (AuthConfig.BootstrapTenant a)
    else "auth.bootstrap_tenant must be a lowercase tenant identifier" in
  check negb (ContainsAny (AuthConfig.SessionCookieName a) (" ;," +:+ tab +:+ crlf))
    else "auth.session_cookie_name contains invalid characters" in
  let! _ := check_cookie_domain a in
  let! _ := each (λ host,
    require (negb (Contains host "://" || ContainsAny host "/?#"))
      "auth hosts must contain a hostname only") [AuthConfig.AdminHost a; AuthConfig.PublicHost a] in
  let! _ := each (λ cidr, require (addr_or_prefix cidr) "invalid auth.admin_cidrs entry")
    (AuthConfig.AdminCIDRs a) in
  let! _ := each (λ p, require (addr_or_prefix p) "invalid server.trusted_proxies entry")
    (ServerConfig.TrustedProxies (Config.Server c)) in
  check negb (AuthConfig.LocalEnabled a && (slen (AuthConfig.SessionSecret a) <? 32))
    else "auth.session_secret must contain at least 32 characters" in
  let! _ := check_sub_store (Config.SubStore c) (AuthConfig.SessionCookieDomain a) in
  check (GovernanceConfig.AlertWebhookURL (Config.Governance c) =? "")%string
        || url_ok ["https"; "http"] (GovernanceConfig.AlertWebhookURL (Config.Governance c))
    else "governance.alert_webhook_url must be an HTTP(S) URL" in
  check negb (f_lt (QualityV2Config.Latency w) f_zero || f_lt (QualityV2Config.Success w) f_zero
              || f_lt (QualityV2Config.Stability w) f_zero || f_lt (QualityV2Config.TLS w) f_zero
              || f_lt (QualityV2Config.HTTP w) f_zero || f_lt (QualityV2Config.Throughput w) f_zero)
    else "quality_v2 weights must not be negative" in
  check_pools ∅ (Config.Pools c).

Definition backslash : string := String (byte_of 92) "".
Definition reserved_prefix (prefix : string) : bool :=
  (prefix =? "/metrics")%string || HasPrefix prefix "/debug"
  || (negb (prefix =? "/api/sub")%string && ((prefix =? "/api")%string || HasPrefix prefix "/api/"))
  || (negb (prefix =? "/sub")%string && HasPrefix prefix "/sub/").

(** [Validate] *)
Definition Validate (c : config) : result unit :=
  let d := Config.Dial c in
  check between 1 4096 (AppConfig.Concurrency (Config.App c))
    else "app.concurrency must be between 1 and 4096" in
  check negb ((FilterConfig.MaxNodes (Config.Filter c) <? 0)
              || (FilterConfig.MaxStoreNodes (Config.Filter c) <? 0))
    else "filter node limits must not be negative" in
  check between 1024 67108864 (DialConfig.DownloadBytes d)
    else "dial.download_bytes must be between 1024 and 67108864" in
  check bool_decide (DialConfig.Engine d ∈ ["auto"; "sing-box"; "xray"; "mihomo"; "both"])
    else "unsupported dial.engine" in
  check between 1 64 (DialConfig.Concurrency d) else "dial.concurrency must be between 1 and 64" in
  check between 5 300 (DialConfig.TimeoutSec d) else "dial.timeout_sec must be between 5 and 300" in
  check between 1 168 (DialConfig.VerifiedTTLHours d)
    else "dial.verified_ttl_hours must be between 1 and 168" in
  check url_ok ["http"; "https"] (DialConfig.TestURL d) else "dial.test_url must be an HTTP(S) URL" in
  check negb (f_lt (DialConfig.SamplePercent d) f_zero || f_lt (f_of_Z 100) (DialConfig.SamplePercent d))
    else "dial.sample_percent must be between 0 and 100" in
  let prefix := ExportConfig.FilenamePrefix (Config.Export c) in
  check negb ((prefix =? ".")%string || (prefix =? "..")%string
              || ContainsAny prefix ("/" +:+ backslash))
    else "export.filename_prefix must be a file name" in
  let! _ := check_formats ∅ (ExportConfig.Formats (Config.Export c)) in
  check bool_decide (ScheduleConfig.Job (Config.Schedule c) ∈ ["full"; "fetch"; "quality"])
    else "unsupported schedule.job" in
  let route := PublishConfig.PathPrefix (Config.Publish c) in
  check negb (ContainsAny route ("{}?# " +:+ tab +:+ crlf))
    else "publish.path_prefix contains unsupported characters" in
  check negb (reserved_prefix route) else "publish.path_prefix conflicts with a built-in route" in
  let! _ := check_sources ∅ (Config.Sources c) in
  validateEnterprise c.
End validate.

(** ** Runtime patches *)

(** One field of the patch: nothing when it is absent, an error when its value
    is refused, the assignment otherwise. *)
Definition patch_field {A} (o : option A) (ok : A → bool) (msg : string)
    (assign : A → config → config) (next : config) : result config :=
  match o with
  | None => Ok next
  | Some v => check ok v else msg in Ok (assign v next)
  end.
Definition f_between (lo hi v : float64) : bool := negb (f_lt v lo || f_lt hi v).
Definition f_above_to (lo hi v : float64) : bool := negb (f_le v lo || f_lt hi v).
Definition any {A} (_ : A) : bool := true.

Definition set_publish (f : PublishConfig.t → PublishConfig.t) (c : config) : config :=
  c <| Config.Publish := f (Config.Publish c) |>.
Definition set_governance (f : GovernanceConfig.t → GovernanceConfig.t) (c : config) : config :=
  c <| Config.Governance := f (Config.Governance c) |>.
Definition set_dial (f : DialConfig.t → DialConfig.t) (c : config) : config :=
  c <| Config.Dial := f (Config.Dial c) |>.

Section patch.
Import RuntimePatch.

(** The fields of the patch in the order of the code *)
Definition patch_fields (p : RuntimePatch.t) (c : config) : result config :=
  let! c := patch_field (PublishMinScore p) (f_between f_zero (f_of_Z 100))
    "publish_min_score must be between 0 and 100"
    (λ v, set_publish (λ s, s <| PublishConfig.MinScore := v |>)) c in
  let! c := patch_field (PublishMaxNodes p) (between 1 100000)
    "publish_max_nodes must be between 1 and 100000"
    (λ v, set_publish (λ s, s <| PublishConfig.MaxNodes := v |>)) c in
  let! c := patch_field (PublishAliveOnly p) any ""
    (λ v, set_publish (λ s, s <| PublishConfig.AliveOnly := v |>)) c in
  let! c := patch_field (PublishCacheSec p) (between 0 86400)
    "publish_cache_sec must be between 0 and 86400"
    (λ v, set_publish (λ s, s <| PublishConfig.CacheSec := v |>)) c in
  let! c := patch_field (PublishMaxNodeAgeHours p) (between 1 (24 * 365))
    "publish_max_node_age_hours must be between 1 and 8760"
    (λ v, set_publish (λ s, s <| PublishConfig.MaxNodeAgeHours := v |>)) c in
  let! c := patch_field (GovernanceDisableFailures p) (between 1 100)
    "governance_disable_after_failures must be between 1 and 100"
    (λ v, set_governance (λ s, s <| GovernanceConfig.DisableAfterFailures := v |>)) c in
  let! c := patch_field (GovernanceCooldownHours p) (between 1 (24 * 30))
    "governance_cooldown_hours must be between 1 and 720"
    (λ v, set_governance (λ s, s <| GovernanceConfig.CooldownHours := v |>)) c in
  let! c := patch_field (GovernanceHQDropPercent p) (f_above_to f_zero (f_of_Z 100))
    "governance_hq_drop_percent must be between 0 and 100"
    (λ v, set_governance (λ s, s <| GovernanceConfig.HQDropPercent := v |>)) c in
  let! c := patch_field (GovernanceCountryShare p) (f_above_to f_zero (f_of_Z 100))
    "governance_country_share_percent must be between 0 and 100"
    (λ v, set_governance (λ s, s <| GovernanceConfig.CountrySharePercent := v |>)) c in
  let! c := patch_field (DialAfterQuality p) any ""
    (λ v, set_dial (λ s, s <| DialConfig.AfterQuality := v |>)) c in
  patch_field (DialAfterQualityMax p) (between 0 100000)
    "dial_after_quality_max must be between 0 and 100000"
    (λ v, set_dial (λ s, s <| DialConfig.AfterQualityMax := v |>)) c.

(** [ApplyRuntimePatch]; a nil configuration is [None]. *)
Definition ApplyRuntimePatch `{Unicode} `{UrlParser} `{NetIP} `{PublicSuffix}
    (current : option config) (p : RuntimePatch.t) : result config :=
  match current with
  | None => Err (ErrMsg "config is required")
  | Some c =>
      let! next := patch_fields p c in
      let! _ := Validate next in
      Ok next
  end.

(** What the patch asks for, and when it may. *)
Definition opt_ok {A} (ok : A → bool) (o : option A) : bool :=
  match o with Some v => ok v | None => true end.
Definition in_range (p : RuntimePatch.t) : bool :=
  opt_ok (f_between f_zero (f_of_Z 100)) (PublishMinScore p)
  && opt_ok (between 1 100000) (PublishMaxNodes p)
  && opt_ok (between 0 86400) (PublishCacheSec p)
  && opt_ok (between 1 (24 * 365)) (PublishMaxNodeAgeHours p)
  && opt_ok (between 1 100) (GovernanceDisableFailures p)
  && opt_ok (between 1 (24 * 30)) (GovernanceCooldownHours p)
  && opt_ok (f_above_to f_zero (f_of_Z 100)) (GovernanceHQDropPercent p)
  && opt_ok (f_above_to f_zero (f_of_Z 100)) (GovernanceCountryShare p)
  && opt_ok (between 0 100000) (DialAfterQualityMax p).

Definition overlay (p : RuntimePatch.t) (c : config) : config :=
  let s := Config.Publish c in
  let g := Config.Governance c in
  let d := Config.Dial c in
  c <| Config.Publish := s
        <| PublishConfig.MinScore := default (PublishConfig.MinScore s) (PublishMinScore p) |>
        <| PublishConfig.MaxNodes := default (PublishConfig.MaxNodes s) (PublishMaxNodes p) |>
        <| PublishConfig.AliveOnly := default (PublishConfig.AliveOnly s) (PublishAliveOnly p) |>
        <| PublishConfig.CacheSec := default (PublishConfig.CacheSec s) (PublishCacheSec p) |>
        <| PublishConfig.MaxNodeAgeHours :=
             default (PublishConfig.MaxNodeAgeHours s) (PublishMaxNodeAgeHours p) |> |>
    <| Config.Governance := g
        <| GovernanceConfig.DisableAfterFailures :=
             default (GovernanceConfig.DisableAfterFailures g) (GovernanceDisableFailures p) |>
        <| GovernanceConfig.CooldownHours :=
             default (GovernanceConfig.CooldownHours g) (GovernanceCooldownHours p) |>
        <| GovernanceConfig.HQDropPercent :=
             default (GovernanceConfig.HQDropPercent g) (GovernanceHQDropPercent p) |>
        <| GovernanceConfig.CountrySharePercent :=
             default (GovernanceConfig.CountrySharePercent g) (GovernanceCountryShare p) |> |>
    <| Config.Dial := d
        <| DialConfig.AfterQuality := default (DialConfig.AfterQuality d) (DialAfterQuality p) |>
        <| DialConfig.AfterQualityMax :=
             default (DialConfig.AfterQualityMax d) (DialAfterQualityMax p) |> |>.
End patch.

(** A field of the patch as one update, present or not *)
Lemma patch_field_spec {A} (o : option A) ok msg assign (put : option A → config → config) c :
  (∀ c, put None c = c) → (∀ v c, put (Some v) c = assign v c) →
  patch_field o ok msg assign c = if opt_ok ok o then Ok (put o c) else Err (ErrMsg msg).
Proof.
  intros H0 H1. destruct o as [v|]; simpl; [|by rewrite H0].
  rewrite H1. unfold require. by destruct (ok v).
Qed.

Definition put_publish {A} (F : PublishConfig.t → A) `{!Updatable F} (o : option A) :=
  set_publish (λ s, s <| F := default (F s) o |>).
Definition put_governance {A} (F : GovernanceConfig.t → A) `{!Updatable F} (o : option A) :=
  set_governance (λ s, s <| F := default (F s) o |>).
Definition put_dial {A} (F : DialConfig.t → A) `{!Updatable F} (o : option A) :=
  set_dial (λ s, s <| F := default (F s) o |>).


Lemma opt_ok_any {A} (o : option A) : opt_ok any o = true.
Proof. by destruct o. Qed.

Ltac open_config c :=
  destruct c as [App Sources Protocols Filter Export Schedule [] Geo [] Security Server SQLite
    Database Redis ObjectStore Queue Auth SubStore [] Quality Obs Pools Logging].
Ltac patch_step put :=
  rewrite (patch_field_spec _ _ _ _ put);
    [|let c := fresh in intros c; open_config c; reflexivity|reflexivity];
  rewrite ?opt_ok_any;
  try (match goal with |- context [if opt_ok ?f ?o then Ok _ else _] => destruct (opt_ok f o) end;
       cbn [andb]; [|rewrite ?andb_false_r; cbn [rbind]; by eauto]); cbn [rbind].

Lemma patch_fields_spec p c :
  if in_range p then patch_fields p c = Ok (overlay p c)
  else ∃ msg, patch_fields p c = Err (ErrMsg msg).
Proof.
  unfold in_range, patch_fields.
  patch_step (put_publish PublishConfig.MinScore).
  patch_step (put_publish PublishConfig.MaxNodes).
  patch_step (put_publish PublishConfig.AliveOnly).
  patch_step (put_publish PublishConfig.CacheSec).
  patch_step (put_publish PublishConfig.MaxNodeAgeHours).
  patch_step (put_governance GovernanceConfig.DisableAfterFailures).
  patch_step (put_governance GovernanceConfig.CooldownHours).
  patch_step (put_governance GovernanceConfig.HQDropPercent).
  patch_step (put_governance GovernanceConfig.CountrySharePercent).
  patch_step (put_dial DialConfig.AfterQuality).
  patch_step (put_dial DialConfig.AfterQualityMax).
  by open_config c.
Qed.

(** ** What validation guarantees *)

Lemma require_ok b msg u : require b msg = Ok u → b = true.
Proof. unfold require. by destruct b. Qed.

Lemma rbind_ok {A B} (r : result A) (f : A → result B) y :
  rbind r f = Ok y → ∃ x, r = Ok x ∧ f x = Ok y.
Proof. destruct r; simpl; [eauto|done]. Qed.

(** Split a chain of checks that succeeded. *)
Ltac checks H :=
  lazymatch type of H with
  | rbind _ _ = Ok _ =>
      let u := fresh "u" in let E := fresh "E" in
      apply rbind_ok in H as [u [E H]]; try apply require_ok in E; cbv beta in H; checks H
  | _ => try apply require_ok in H
  end.

Section guarantees.
Context `{Unicode} `{UrlParser} `{NetIP} `{PublicSuffix}.

(** The only failure that is not an error value is the nil admin URL. *)
Definition no_panic {A} (r : result A) : bool :=
  match r with Err (ErrPanic _) => false | _ => true end.

Lemma no_panic_bind {A B} (r : result A) (f : A → result B) :
  no_panic r = true → (∀ x, no_panic (f x) = true) → no_panic (rbind r f) = true.
Proof. destruct r as [|[]]; simpl; auto. Qed.

Lemma no_panic_require b msg : no_panic (require b msg) = true.
Proof. by destruct b. Qed.

Lemma no_panic_each {A} (f : A → result unit) l :
  (∀ x, no_panic (f x) = true) → no_panic (each f l) = true.
Proof. intros Hf. induction l; simpl; [done|]. by apply no_panic_bind. Qed.

Ltac no_panics := repeat first
  [ apply no_panic_require
  | apply no_panic_bind; [|intros ?]
  | apply no_panic_each; intros ?
  | case_match ]; try done.

Lemma no_panic_formats seen l : no_panic (check_formats seen l) = true.
Proof. revert seen; induction l; intros; simpl; no_panics; auto. Qed.
Lemma no_panic_sources seen l : no_panic (check_sources seen l) = true.
Proof. revert seen; induction l; intros; simpl; no_panics; auto. Qed.
Lemma no_panic_pools seen l : no_panic (check_pools seen l) = true.
Proof. revert seen; induction l; intros; simpl; no_panics; auto. Qed.

Definition admin_url_ok (a : AuthConfig.t) : bool :=
  (AuthConfig.SessionCookieDomain a =? "")%string || (AuthConfig.AdminHost a =? "")%string
  || bool_decide (is_Some (url_parse ("//" +:+ AuthConfig.AdminHost a))).

Lemma no_panic_cookie_domain a : admin_url_ok a = true → no_panic (check_cookie_domain a) = true.
Proof.
  unfold admin_url_ok, check_cookie_domain. intros Hok.
  destruct (_ =? "")%string; simpl in *; [done|]. no_panics.
Qed.

Lemma no_panic_database d : no_panic (check_database d) = true.
Proof. unfold check_database. no_panics. Qed.
Lemma no_panic_object_store o : no_panic (check_object_store o) = true.
Proof. unfold check_object_store. no_panics. Qed.
Lemma no_panic_sub_store s d : no_panic (check_sub_store s d) = true.
Proof. unfold check_sub_store. no_panics. Qed.

Ltac no_panic_checks := repeat first
  [ apply no_panic_formats | apply no_panic_sources | apply no_panic_pools
  | apply no_panic_database | apply no_panic_object_store | apply no_panic_sub_store
  | apply no_panic_cookie_domain; assumption
  | apply no_panic_require
  | apply no_panic_bind; [|intros ?]
  | apply no_panic_each; intros ?
  | reflexivity ].

(** Validation returns an error value rather than crash, whatever the
    configuration, unless the admin host is set together with a cookie domain
    and "//" followed by that host is not a URL: then [validateEnterprise]
    may dereference the nil URL whose error it dropped. *)
Theorem validate_no_panic (c : config) :
  admin_url_ok (Config.Auth c) = true → no_panic (Validate c) = true.
Proof. intros Hok. unfold Validate, validateEnterprise. no_panic_checks. Qed.

(** *** Soundness *)

Lemma check_formats_ok seen l u :
  check_formats seen l = Ok u →
  ∃ fs, mapM canonical_format l = Some fs ∧ NoDup fs ∧ Forall (λ f, f ∉ seen) fs.
Proof.
  revert seen; induction l as [|f l IH]; intros seen; simpl.
  { intros _. exists []. repeat constructor. }
  destruct (canonical_format f) as [g|]; [|done]. intros Hc. checks Hc.
  apply IH in Hc as (fs & -> & Hnd & Hall). exists (g :: fs). simpl.
  apply negb_true_iff, bool_decide_eq_false in E.
  rewrite Forall_forall in Hall. repeat split.
  - constructor; [|done]. intros Hin. apply Hall in Hin. set_solver.
  - constructor; [done|]. rewrite Forall_forall. intros x Hx. apply Hall in Hx. set_solver.
Qed.

Definition source_ok (s : Source.t) : Prop :=
  Source.Type_ s ∈ ["subscription"; "raw"; "clash"] ∧
  (Source.Enabled s = true → url_ok ["http"; "https"] (Source.URL s) = true) ∧
  0 < Source.MaxBytes s ≤ 134217728 ∧ 1 ≤ Source.Priority s ≤ 1000.

Lemma check_sources_ok seen l u :
  check_sources seen l = Ok u →
  NoDup (Source.Name <$> l) ∧ Forall (λ s, Source.Name s ∉ seen) l ∧ Forall source_ok l.
Proof.
  revert seen; induction l as [|s l IH]; intros seen; simpl.
  { intros _. repeat constructor. }
  intros Hc. checks Hc. apply IH in Hc as (Hnd & Hns & Hall).
  apply negb_true_iff, bool_decide_eq_false in E. unfold between in *. bsplit.
  rewrite Forall_forall in Hns. repeat split.
  - constructor; [|done]. intros Hin. apply list_elem_of_fmap in Hin as (x & Hx & Hin).
    apply Hns in Hin. set_solver.
  - constructor; [done|]. rewrite Forall_forall. intros x Hx. apply Hns in Hx. set_solver.
  - constructor; [|done]. unfold source_ok.
    split_and!; try lia; [done|].
    + intros He. rewrite He in *. by destruct (url_ok _ _).
Qed.
Definition pool_key (p : PoolConfig.t) : string := ToLower (TrimSpace (PoolConfig.Key p)).

Lemma check_pools_ok seen l u :
  check_pools seen l = Ok u →
  NoDup (pool_key <$> l) ∧ Forall (λ p, pool_key p ∉ seen ∧ pool_key p ≠ "") l.
Proof.
  revert seen; induction l as [|p l IH]; intros seen; simpl.
  { intros _. repeat constructor. }
  intros Hc. checks Hc. apply IH in Hc as (Hnd & Hns). fold (pool_key p) in *. bsplit.
  rewrite Forall_forall in Hns. split; constructor.
  - intros Hin. apply list_elem_of_fmap in Hin as (x & Hx & Hin).
    apply Hns in Hin. set_solver.
  - done.
  - done.
  - rewrite Forall_forall. intros x Hx. apply Hns in Hx. set_solver.
Qed.

(** What the rest of the program relies on *)
Record valid (c : config) : Prop := {
  valid_concurrency : 1 ≤ AppConfig.Concurrency (Config.App c) ≤ 4096;
  valid_download : 1024 ≤ DialConfig.DownloadBytes (Config.Dial c) ≤ 67108864;
  valid_engine : DialConfig.Engine (Config.Dial c) ∈ ["auto"; "sing-box"; "xray"; "mihomo"; "both"];
  valid_formats : ∃ fs, mapM canonical_format (ExportConfig.Formats (Config.Export c)) = Some fs
                        ∧ NoDup fs;
  valid_job : ScheduleConfig.Job (Config.Schedule c) ∈ ["full"; "fetch"; "quality"];
  valid_route : reserved_prefix (PublishConfig.PathPrefix (Config.Publish c)) = false;
  valid_source_names : NoDup (Source.Name <$> Config.Sources c);
  valid_sources : Forall source_ok (Config.Sources c);
  valid_pools : NoDup (pool_key <$> Config.Pools c);
  valid_queue : QueueConfig.Enabled (Config.Queue c) = true →
    DatabaseConfig.Enabled (Config.Database c) = true;
  valid_local_auth : AuthConfig.LocalEnabled (Config.Auth c) = true →
    AuthConfig.BootstrapUser (Config.Auth c) ≠ "" ∧
    AuthConfig.BootstrapHash (Config.Auth c) ≠ "" ∧
    32 ≤ slen (AuthConfig.SessionSecret (Config.Auth c));
  valid_tenant : validTenant (AuthConfig.BootstrapTenant (Config.Auth c)) = true;
  valid_proxies : Forall (λ p, addr_or_prefix p = true)
    (ServerConfig.TrustedProxies (Config.Server c));
  valid_sub_store : SubStoreConfig.Enabled (Config.SubStore c) = true →
    ∃ u, url_parse (SubStoreConfig.PublicURL (Config.SubStore c)) = Some u ∧
         Url.Scheme u = "https" ∧
         domainIncludesHost (AuthConfig.SessionCookieDomain (Config.Auth c)) (Url.Hostname u) = true;
}.

Lemma each_require {A} (f : A → bool) msg l u :
  each (λ x, require (f x) msg) l = Ok u → Forall (λ x, f x = true) l.
Proof.
  induction l as [|x l IH]; simpl; [constructor|]. intros Hc. checks Hc. by constructor; [|apply IH].
Qed.

Lemma check_sub_store_ok s d u :
  check_sub_store s d = Ok u → SubStoreConfig.Enabled s = true →
  ∃ u, url_parse (SubStoreConfig.PublicURL s) = Some u ∧ Url.Scheme u = "https" ∧
       domainIncludesHost d (Url.Hostname u) = true.
Proof.
  unfold check_sub_store. intros Hc He. rewrite He in Hc. simpl in Hc.
  destruct (url_parse _) as [v|]; [|done]. checks Hc. bsplit. eauto.
Qed.

(** Validation looks at no field that a patch can set. *)
Lemma overlay_validate p c : Validate (overlay p c) = Validate c.
Proof. open_config c. reflexivity. Qed.

(** On a configuration that validates, a runtime patch is accepted exactly
    when every value it carries is in its range; then the result is the
    configuration with those fields replaced and every other field kept, and it
    validates too: the final validation never refuses a patch.  A patch that
    carries nothing changes nothing. *)
Theorem patch_exact (c : config) (p : RuntimePatch.t) :
  Validate c = Ok tt →
  match ApplyRuntimePatch (Some c) p with
  | Ok c' => in_range p = true ∧ c' = overlay p c ∧ Validate c' = Ok tt
  | Err _ => in_range p = false
  end ∧
  overlay (RuntimePatch.mk None None None None None None None None None None None) c = c.
Proof.
  intros Hv. split; [|by open_config c].
  unfold ApplyRuntimePatch. pose proof (patch_fields_spec p c) as Hp.
  destruct (in_range p).
  - rewrite Hp. simpl. rewrite overlay_validate, Hv. simpl.
    by rewrite overlay_validate.
  - destruct Hp as [msg ->]. done.
Qed.
End guarantees.
