(* ===== verification/AccountExamples.v ===== *)
(** * Accounts and configurations at work

    Concrete runs of the stores of tokens, users, jobs and alerts, of sessions,
    of the rate limiter and of a configuration.  The functions of other
    libraries are small concrete ones: an ASCII case table, checksums for
    digests, a password hash that keeps the password, a codec that writes the
    claims as binary digits, a URL parser that knows only [scheme://host/path]
    and a list of public suffixes that knows only "org". *)
From S2P Require Import Prelude Sql GoStr GoFloat GoTime Model Base64 Tasks TaskExamples Tokens Users Jobs Alerts.
From S2P Require Import Auth Ratelimit NetAddr Config ConfigCheck ConfigValid.

#[local] Existing Instances no_tzdata no_tzdata_cst.
#[local] Existing Instance strict_only.

Definition ascii_only : Unicode := {|
  unicode_lower := λ s, s; unicode_upper := λ s, s; unicode_equal_fold := String.eqb |}.
(** A checksum of 64 bits, as 32 bytes *)
Definition checksum (seed : Z) (s : string) : string :=
  let h := fold_left (λ h c, (h * 1099511628211 + byte_val c) mod 2 ^ 64) (explode s) seed in
  implode ((λ i, byte_of (h / 2 ^ (8 * (i mod 8)) mod 256)) <$> seqZ 0 32).
Definition checksums : Crypto := {|
  sha256_sum := checksum 1; sha1_sum := checksum 2; hmac_sha256 := λ k, checksum (slen k) |}.
Definition keeping : Bcrypt := {|
  bcrypt_generate := λ salt plain, Some ("$2" +:+ plain);
  bcrypt_compare := λ hash plain, (hash =? "$2" +:+ plain)%string |}.
#[local] Existing Instances ascii_only checksums keeping.

Lemma keeping_sound : bcrypt_sound.
Proof. intros salt plain hash [= <-]. split; [by destruct plain|]. apply String.eqb_refl. Qed.

(** ** Claims as binary digits *)

Fixpoint digits (p : positive) : string :=
  match p with
  | xH => "1" | xO p => String (byte_of 48) (digits p) | xI p => String (byte_of 49) (digits p)
  end.
Fixpoint of_digits (s : string) : option positive :=
  match s with
  | EmptyString => None
  | String c EmptyString => Some xH
  | String c s => (if (byte_val c =? 48) then xO else xI) <$> of_digits s
  end.

Lemma of_digits_digits p : of_digits (digits p) = Some p.
Proof.
  induction p as [p IH|p IH|]; [| |done]; simpl; destruct (digits p) eqn:E; try done;
    by rewrite IH.
Qed.

Definition claims_tuple (c : Claims.t) :=
  (Claims.Issuer c, Claims.Subject c, Claims.Name c, Claims.Email c, Claims.Role c,
   Claims.TenantID c, Claims.IssuedAt c, Claims.Expires c).
Definition digit_codec : ClaimsCodec := {|
  claims_marshal := λ c, Some (digits (encode (claims_tuple c)));
  claims_unmarshal := λ s,
    p ← of_digits s;
    '(i, s, n, e, r, t, a, x) ← decode p;
    Some (Claims.mk i s n e r t a x);
  header_unmarshal := λ s,
    if (s =? header_text)%string then Some {["alg" := "HS256"; "typ" := "JWT"]} else None |}.
#[local] Existing Instance digit_codec.

Lemma digit_codec_sound : codec_sound.
Proof.
  split; [|reflexivity]. intros c s [= <-]. unfold claims_unmarshal, digit_codec.
  rewrite of_digits_digits. unfold mbind, option_bind. rewrite decode_encode. by destruct c.
Qed.

(** ** Quotas *)

Definition calls : list usage_op :=
  [OpConsume "k" 2 t0; OpBytes "k" 100 t0; OpConsume "j" 9 t0; OpConsume "k" 2 (t0 + Second)].

Lemma quota_exact_witness :
  (ConsumeTokenQuota (foldl usage_step ∅ calls) "k" 2 (t0 + Minute)).1 = (0, false).
Proof.
  destruct (quota_exact calls "k" 2 (t0 + Minute)) as [_ ->]; [done|lia| |by vm_compute].
  intros q' c' Hin.
  repeat (apply elem_of_cons in Hin as [[=]|Hin]; [done|] || apply elem_of_cons in Hin as [[=]|Hin]).
  by apply not_elem_of_nil in Hin.
Defined.

(** ** Accounts *)

Definition root0 := get ∅ (EnsureBootstrapUser ∅ "root" "$2old" "admin" "" t0).
Definition root1 := get ∅ (EnsureBootstrapUser root0 "root" "$2new" "viewer" "" (t0 + Minute)).
Definition no_user := UserRow.mk "" "" "" None None "" false "" None.
Definition root_row : UserRow.t := default no_user (root0 !! bootstrap_id "default" "root").

Lemma root_row_ok : root0 !! bootstrap_id "default" "root" = Some root_row.
Proof. by vm_compute. Qed.

Lemma bootstrap_keeps_password_witness :
  User.PasswordHash <$> (match FindUser root1 "default" "root" with Ok u => Some u | _ => None end)
  = Some "$2old".
Proof.
  destruct (bootstrap_keeps_password root0 "root" "$2new" "viewer" "" (t0 + Minute) root1
    (bootstrap_id "default" "root") root_row) as (Hf & _).
  - eapply rtc_l; [|apply rtc_refl]. eapply us_bootstrap with (u := "root") (h := "$2old")
      (r := "admin") (tn := "") (c := t0). apply get_ok. by vm_compute.
  - done.
  - done.
  - apply get_ok. by vm_compute.
  - apply root_row_ok.
  - by vm_compute.
  - by vm_compute.
  - change (FindUser root1 "default" "root") with (FindUser root1 "" "root"). rewrite Hf.
    by vm_compute.
Defined.

(** ** Jobs and retention *)

Lemma t0_storable : storable t0.
Proof. by apply (bool_decide_eq_true_1 (storable t0)); vm_compute. Qed.

Definition job (status tenant : string) (c : Time) : Job.t :=
  Job.mk "j1" "pipeline" status f_zero "" "" None c c (Some c) None None "root" tenant.

Lemma job_roundtrip_witness :
  GetJob (SaveJob (SaveJob ∅ (job "running" "" t0)) (job "completed" "acme" (t0 + Minute))) "j1"
  = Ok ((job "completed" "acme" (t0 + Minute)) <| Job.CreatedAt := t0 |>).
Proof.
  destruct (job_roundtrip ∅ (job "running" "" t0) (job "completed" "acme" (t0 + Minute)))
    as [_ H]; try done; by apply (bool_decide_eq_true_1 (storable _)); vm_compute.
Defined.

(** A calendar without daylight saving time *)
Definition fixed_days : LocalCalendar := λ t n, t + n * 24 * Hour.
#[local] Existing Instance fixed_days.

Definition old_jobs := SaveJob ∅ (job "completed" "" t0).
Definition history : History.t :=
  History.mk old_jobs (AddJobEvent (Events.mk 1 []) "j1" "info" "done" t0) (AuditLog.mk 1 []) []
    q3 (RaiseAlert ∅ "disk" "warn" "full" None t0).2.
Definition old_row : JobRow.t :=
  default (JobRow.mk "" "" "" f_zero "" "" None None "" "" None None "" "") (old_jobs !! "j1").
Definition later : Time := t0 + 40 * 24 * Hour.

Lemma prune_exact_witness :
  History.jobs (PruneHistory history 0 0 [] later later later) !! "j1" ≠ Some old_row.
Proof.
  destruct (prune_exact history 0 0 [] later later later "j1" old_row t0) as [Hj _].
  - apply (SaveJob_wf ∅). by intros k r Hr.
  - by vm_compute.
  - by vm_compute.
  - apply t0_storable.
  - apply (bool_decide_eq_true_1 (storable _)). by vm_compute.
  - rewrite Hj. apply Z.lt_nge. by vm_compute.
Defined.

Lemma alert_lifecycle_witness :
  ∃ t2, ResolveAlert (RaiseAlert ∅ "disk" "warn" "full" None t0).2 "disk" (t0 + Minute) = Ok t2
    ∧ ResolveAlert t2 "disk" (t0 + Minute) = Err ErrNoRows.
Proof.
  destruct (alert_lifecycle ∅ "disk" "warn" "full" None t0 (t0 + Minute)) as (_ & t2 & Hr & _ & _ & Hn);
    [apply rtc_refl|].
  exists t2. split; [exact Hr|apply Hn].
Defined.

(** ** Sessions *)

Definition secret : string := "0123456789abcdef0123456789abcdef".
Definition manager : Manager.t := Manager.mk "" secret (12 * Hour) "nh_session" "" true.
Definition alice : Principal.t :=
  Principal.mk "local" "" "alice" [] [] f_zero 0 "operator" " acme " "u1" "a@example.org" true.
Definition session : string := get "" (IssueSession manager (Some alice) t0).

Lemma session_issued : IssueSession manager (Some alice) t0 = Ok session.
Proof. apply get_ok. by vm_compute. Qed.

Lemma session_roundtrip_witness :
  ValidateSession manager session (t0 + Minute) =
    Ok (Principal.mk "session" "" "alice" [] [] f_zero 0 "operator" "acme" "u1" "a@example.org" true)
  ∧ is_ok (ValidateSession manager session (t0 + 13 * Hour)) = false.
Proof.
  split.
  - by rewrite (session_roundtrip manager alice session t0 (t0 + Minute) digit_codec_sound session_issued
      ltac:(done) ltac:(done)).
  - by rewrite (session_roundtrip manager alice session t0 (t0 + 13 * Hour) digit_codec_sound
      session_issued ltac:(done) ltac:(done)).
Defined.

Definition accepted : Principal.t := get Principal.zero (ValidateSession manager session t0).

Lemma session_unforgeable_witness :
  ∃ unsigned, session = unsigned +:+ "." +:+ rawBase64 (hmac_sha256 secret unsigned).
Proof.
  destruct (session_unforgeable manager session t0 accepted) as (h & p & c & H).
  { apply get_ok. by vm_compute. }
  exists (rawBase64 h +:+ "." +:+ rawBase64 p). apply H.
Defined.

(** ** Subscription tokens *)

Definition empty_db : AuthDB.t := AuthDB.mk ∅ ∅ (AuditLog.mk 1 []).
Definition no_token : Token.t :=
  Token.mk "" "" "" "" false f_zero [] [] "" 0 "" "" "" "" 0 0 "".
Definition created :=
  get (no_token, empty_db)
    (CreateToken (Some empty_db) "phone" "" " acme " ["uk"; "US"; "x"; "gb"] ["Hy2"; "vmess"] 30
       (f_of_Z 5) 100 "root" "0123456789abcdef01234567" "abcdefgh" "salt" t0 t0 t0).

Lemma token_created :
  CreateToken (Some empty_db) "phone" "" " acme " ["uk"; "US"; "x"; "gb"] ["Hy2"; "vmess"] 30
    (f_of_Z 5) 100 "root" "0123456789abcdef01234567" "abcdefgh" "salt" t0 t0 t0
  = Ok (created.1, created.2).
Proof. rewrite <-surjective_pairing. apply get_ok. by vm_compute. Qed.

Lemma token_lifecycle_witness :
  ∃ p db', ValidateSubToken manager (Some created.2) (" " +:+ Token.PlainToken created.1)
             (t0 + Hour) (t0 + Hour) = Ok (p, Some db')
    ∧ Principal.AllowCountries p = ["GB"; "US"] ∧ Principal.TenantID p = "acme".
Proof.
  destruct (token_lifecycle manager empty_db "phone" "" " acme " ["uk"; "US"; "x"; "gb"]
    ["Hy2"; "vmess"] 30 (f_of_Z 5) 100 "root" "0123456789abcdef01234567" "abcdefgh" "salt" t0 t0 t0
    created.1 created.2 (" " +:+ Token.PlainToken created.1) (t0 + Hour) (t0 + Hour)
    keeping_sound token_created) as (ps & db' & _ & _ & H).
  - done.
  - by vm_compute.
  - by vm_compute.
  - by vm_compute.
  - right. split; [apply (bool_decide_eq_true_1 (storable _)); by vm_compute|by vm_compute].
  - eexists _, db'. split; [exact H|split; reflexivity].
Defined.

(** ** Rate limits *)

Lemma burst_exact_witness :
  decisions (NewTokenBucket (f_of_Z 10) 20) (f_of_Z 10) 3 (replicate 5 ("203.0.113.9", t0))
  = [true; true; true; false; false].
Proof.
  rewrite (burst_exact 5 (NewTokenBucket (f_of_Z 10) 20) (f_of_Z 10) 3 "203.0.113.9" t0); try done.
  by eexists _, _.
Defined.

Definition proxy_addr : @Addr go_netip := V4 167772161.
Definition client_addr : @Addr go_netip := V4 3405803785.

Lemma client_not_spoofed_witness :
  ClientIP "10.0.0.1:4000" "1.2.3.4, 203.0.113.9, 10.0.0.7" "" "" ["10.0.0.0/8"] = "203.0.113.9"
  ∧ ClientIP "203.0.113.9:4000" "1.2.3.4" "" "" ["10.0.0.0/8"] = "203.0.113.9".
Proof.
  split.
  - destruct (client_not_spoofed "10.0.0.1:4000" "10.0.0.1" proxy_addr ["10.0.0.0/8"]) as [_ H];
      [by vm_compute..|].
    rewrite (H ltac:(by vm_compute) "1.2.3.4, 203.0.113.9, 10.0.0.7" "" "" ["1.2.3.4"] " 203.0.113.9"
      client_addr [" 10.0.0.7"]); [by vm_compute|done|by vm_compute..|].
    intros s p ->%list_elem_of_singleton Hp. vm_compute in Hp. injection Hp as <-. by vm_compute.
  - destruct (client_not_spoofed "203.0.113.9:4000" "203.0.113.9" client_addr ["10.0.0.0/8"]) as [H _];
      [by vm_compute..|].
    apply H. by vm_compute.
Defined.

(** ** Configurations *)

#[local] Existing Instance ascii_only.

Definition simple_url (s : string) : option Url.t :=
  let s := if HasPrefix s "//" then ":" +:+ s else s in
  let i := Index s "://" in
  if i <? 0 then None
  else
    let scheme := slice_to s i in
    let rest := TrimPrefix s (scheme +:+ "://") in
    let '(host, path) := default (rest, "") (Cut rest (byte_of 47)) in
    Some (Url.mk scheme host (default host (fst <$> Cut host (byte_of 58))) false
            (if (path =? "")%string then "" else "/" +:+ path) "" "").
#[local] Instance simple_url_parser : UrlParser := simple_url.
#[local] Instance org_suffix : PublicSuffix := λ _, "org".

Definition site : config :=
  Default
    <| Config.Sources :=
         [Source.mk "main" "subscription" "https://feeds.example.org/sub" true 10 1048576 ""] |>
    <| Config.Auth := (AuthConfig.mk true "root" "default" "$2hash" secret 12 "nh_session"
         "example.org" "admin.example.org" "" []) |>.

Lemma site_validates : Validate site = Ok tt.
Proof. by vm_compute. Qed.

Lemma validate_no_panic_witness : no_panic (Validate site) = true.
Proof. apply (validate_no_panic site). by vm_compute. Defined.


(** Without a URL for the admin host the check dereferences nil. *)
Lemma validate_panics :
  no_panic (@Validate _ (λ s, if HasPrefix s "//" then None else simple_url s) _ _ site) = false.
Proof. by vm_compute. Qed.

(** A path prefix that no request can have *)
Lemma unclean_prefix_validates :
  Validate (site <| Config.Publish := (Config.Publish site) <| PublishConfig.PathPrefix := "/a//b" |> |>) = Ok tt.
Proof. by vm_compute. Qed.

Definition patch : RuntimePatch.t :=
  RuntimePatch.mk None (Some 300) None (Some 0) None None None None None (Some true) None.

Lemma patch_exact_witness : ApplyRuntimePatch (Some site) patch = Ok (overlay patch site).
Proof.
  destruct (patch_exact site patch site_validates) as [H _].
  destruct (ApplyRuntimePatch (Some site) patch) as [c'|e] eqn:E.
  - destruct H as (_ & -> & _). reflexivity.
  - assert (in_range patch = true) as Hr by (by vm_compute). rewrite Hr in H. discriminate H.
Defined.
