(* ===== verification/Cleaner.v ===== *)
(** * Cleaning a batch of nodes: [internal/cleaner]

    [Clean] normalises, filters and deduplicates the nodes of a run.  The
    nodes are distinct objects of the heap (the fetcher allocates each of
    them), so a node is modelled by its contents; [best] is the map of the
    code.  Ranging over that map at the end yields its values in any order:
    [Clean] is the relation that allows every order. *)
From S2P Require Import Prelude GoStr GoFloat GoTime Model Ratelimit NetAddr Config.

(** [mergeSources] *)
Definition mergeSources (a b : list string) : list string :=
  dedup (List.filter (λ s, negb (s =? "")%string) (a ++ b)).

(** [scoreMeta] *)
Definition point_if (b : bool) : Z := if b then 1 else 0.
Definition scoreMeta (n : node) : Z :=
  point_if (negb (Node.Name n =? "")%string) + point_if (Node.TLS n)
  + point_if (negb (Node.SNI n =? "")%string)
  + point_if (negb (Node.UUID n =? "")%string || negb (Node.Password n =? "")%string)
  + point_if (negb (Node.Network n =? "")%string)
  + point_if (negb (Node.RawURI n =? "")%string).

Section cleaner.
Context `{Unicode} `{Crypto}.

(** [isBadHost] *)
Definition bad_ip (ip : Z) : bool :=
  IsLoopback ip || IsPrivate ip || IsLinkLocalUnicast ip || IsUnspecified ip.
Definition isBadHost (host : string) : bool :=
  let h := ToLower (TrimSpace host) in
  if bool_decide (h ∈ [""; "localhost"; "0.0.0.0"; "::"; "example.com"]) then true
  else match ParseIP h with Some ip => bad_ip ip | None => false end.

(** [normalize] *)
Definition normalize (n : node) : node :=
  let n := n <| Node.Server := TrimSpace (Node.Server n) |>
             <| Node.Name := TrimSpace (Node.Name n) |>
             <| Node.UUID := TrimSpace (Node.UUID n) |>
             <| Node.Password := TrimSpace (Node.Password n) |>
             <| Node.Method := TrimSpace (Node.Method n) |>
             <| Node.Network := ToLower (TrimSpace (Node.Network n)) |>
             <| Node.Security := ToLower (TrimSpace (Node.Security n)) |>
             <| Node.SNI := TrimSpace (Node.SNI n) |>
             <| Node.Host := TrimSpace (Node.Host n) |>
             <| Node.Path := TrimSpace (Node.Path n) |> in
  let n := if (Node.Protocol n =? "hy2")%string
           then n <| Node.Protocol := ProtoHysteria2 |> else n in
  let n := if (Node.Name n =? "")%string then n <| Node.Name := Address n |> else n in
  let n := n <| Node.Name := map_drop is_control (Node.Name n) |> in
  let n := if negb (Node.Source n =? "")%string
           then n <| Node.Sources := mergeSources (Node.Sources n) [Node.Source n] |> else n in
  n <| Node.Fingerprint := Key n |>.

(** The map of priorities: a name that two sources share has the last one. *)
Definition priorities (cfg : config) : gmap string Z :=
  fold_left (λ m s, <[Source.Name s := Source.Priority s]> m) (Config.Sources cfg) ∅.
Definition priority (cfg : config) (n : node) : Z := default 0 (priorities cfg !! Node.Source n).

(** The filters *)
Definition keep (cfg : config) (n : node) : bool :=
  negb (FilterConfig.DropInvalid (Config.Filter cfg) && negb (IsValid n))
  && ProtocolAllowed cfg (Node.Protocol n)
  && negb (isBadHost (Node.Server n)).

(** The key of deduplication: the port is left out for an IP address, when the
    configuration says so. *)
Definition dedup_key (cfg : config) (n : node) : string :=
  if FilterConfig.CollapseSameIPPorts (Config.Filter cfg)
     && bool_decide (is_Some (ParseIP (Node.Server n)))
  then Key (n <| Node.Port := 0 |>) else Key n.

Definition better (cfg : config) (n old : node) : bool :=
  (scoreMeta old <? scoreMeta n)
  || ((scoreMeta n =? scoreMeta old) && (priority cfg old <? priority cfg n)).

(** One turn of the loop, on a normalised node *)
Definition clean_node (cfg : config) (best : gmap string node) (n : node) : gmap string node :=
  if negb (keep cfg n) then best
  else
    let key := dedup_key cfg n in
    match best !! key with
    | Some old =>
        let sources := mergeSources (Node.Sources old) (Node.Sources n) in
        if better cfg n old
        then <[key := n <| Node.Sources := sources |>]> best
        else <[key := old <| Node.Sources := sources |>]> best
    | None => <[key := n]> best
    end.
Definition clean_step (cfg : config) (best : gmap string node) (n : option node) :
    gmap string node :=
  match n with
  | None => best
  | Some n => clean_node cfg best (normalize n)
  end.
Definition clean_loop (cfg : config) (nodes : list (option node)) : gmap string node :=
  fold_left (clean_step cfg) nodes ∅.

(** [Clean]: the values of the map, in some order *)
Definition Clean (nodes : list (option node)) (cfg : config) (out : list node) : Prop :=
  out ≡ₚ (map_to_list (clean_loop cfg nodes)).*2.

(** ** What cleaning promises *)

(** The nodes that pass the filters, normalised, in the order of the input *)
Definition admitted (cfg : config) (nodes : list (option node)) : list node :=
  List.filter (keep cfg) (normalize <$> omap id nodes).

(** [r] represents [m]: the same node, but for the sources. *)
Definition represents (r m : node) : Prop := r = m <| Node.Sources := Node.Sources r |>.

Lemma represents_sources m l : represents (m <| Node.Sources := l |>) m.
Proof. by destruct m. Qed.
Lemma represents_refl m : represents m m.
Proof. by destruct m. Qed.
Lemma represents_trans r m l : represents r m → represents (r <| Node.Sources := l |>) m.
Proof. unfold represents. intros ->. by destruct m. Qed.

Lemma dedup_key_sources cfg m l : dedup_key cfg (m <| Node.Sources := l |>) = dedup_key cfg m.
Proof. by destruct m. Qed.
Lemma better_sources_l cfg m n l : better cfg (m <| Node.Sources := l |>) n = better cfg m n.
Proof. by destruct m. Qed.
Lemma better_sources_r cfg m n l : better cfg n (m <| Node.Sources := l |>) = better cfg n m.
Proof. by destruct m. Qed.

(** [better] is a strict weak order. *)
Lemma better_irrefl cfg n : better cfg n n = false.
Proof. unfold better. by rewrite !Z.ltb_irrefl, andb_false_r. Qed.
Lemma better_asym cfg m n : better cfg m n = true → better cfg n m = false.
Proof.
  unfold better. destruct (Z.ltb_spec (scoreMeta n) (scoreMeta m)),
    (Z.ltb_spec (scoreMeta m) (scoreMeta n)), (Z.eqb_spec (scoreMeta m) (scoreMeta n)),
    (Z.eqb_spec (scoreMeta n) (scoreMeta m)); simpl; try done; try lia.
Qed.
Lemma better_negtrans cfg a b c :
  better cfg a b = false → better cfg b c = false → better cfg a c = false.
Proof.
  unfold better. intros H1 H2. bsplit. apply orb_false_iff.
  rewrite andb_false_iff in *. rewrite ?Z.ltb_ge, ?Z.eqb_neq in *. lia.
Qed.

Lemma elem_of_mergeSources a b s : s ≠ "" → s ∈ mergeSources a b ↔ s ∈ a ∨ s ∈ b.
Proof.
  intros Hs. unfold mergeSources. rewrite elem_of_dedup, elem_of_list_filter_bool, elem_of_app.
  destruct (String.eqb_spec s ""); simpl; naive_solver.
Qed.

Lemma elem_of_snoc {A} (l : list A) x y : x ∈ l ++ [y] ↔ x ∈ l ∨ x = y.
Proof. by rewrite elem_of_app, list_elem_of_singleton. Qed.

(** The invariant of the loop, on the nodes it has seen *)
Definition covers (cfg : config) (seen : list node) (k : string) (r : node) : Prop :=
  dedup_key cfg r = k ∧
  (∃ m, m ∈ seen ∧ represents r m) ∧
  (∀ m, m ∈ seen → dedup_key cfg m = k → better cfg m r = false) ∧
  (∀ s, s ≠ "" → s ∈ Node.Sources r ↔
                 ∃ m, m ∈ seen ∧ dedup_key cfg m = k ∧ s ∈ Node.Sources m).
Definition clean_inv (cfg : config) (seen : list node) (best : gmap string node) : Prop :=
  ∀ k, match best !! k with
       | Some r => covers cfg seen k r
       | None => ∀ m, m ∈ seen → dedup_key cfg m ≠ k
       end.

Lemma covers_other cfg seen k r n :
  dedup_key cfg n ≠ k → covers cfg seen k r → covers cfg (seen ++ [n]) k r.
Proof.
  intros Hk (H1 & (m & Hm & Hr) & H3 & H4). split_and!; [done| | |].
  - exists m. rewrite elem_of_snoc. auto.
  - intros m' [Hm'| ->]%elem_of_snoc; [by apply H3|done].
  - intros s Hs. rewrite H4 by done. setoid_rewrite elem_of_snoc. naive_solver.
Qed.

(** Merging a node into the representative of its key, whichever is kept *)
Lemma covers_merge cfg seen old n r :
  let sources := mergeSources (Node.Sources old) (Node.Sources n) in
  covers cfg seen (dedup_key cfg n) old →
  r = (if better cfg n old then n <| Node.Sources := sources |>
       else old <| Node.Sources := sources |>) →
  covers cfg (seen ++ [n]) (dedup_key cfg n) r.
Proof.
  intros sources (H1 & (m & Hm & Hr) & H3 & H4) ->. split_and!.
  - case_if; by rewrite dedup_key_sources.
  - case_if; [exists n|exists m]; rewrite elem_of_snoc;
      auto using represents_sources, represents_trans.
  - intros m' [Hm'| ->]%elem_of_snoc Hk; case_if;
      rewrite better_sources_r; auto using better_irrefl.
    apply (better_negtrans _ _ old); auto using better_asym.
  - intros s Hs.
    assert (∀ x, Node.Sources (x <| Node.Sources := sources |>) = sources) as E by by intros [].
    transitivity (s ∈ sources); [case_if; by rewrite E|].
    unfold sources. rewrite elem_of_mergeSources, H4 by done. setoid_rewrite elem_of_snoc. naive_solver.
Qed.

Lemma covers_first cfg seen n :
  (∀ m, m ∈ seen → dedup_key cfg m ≠ dedup_key cfg n) →
  covers cfg (seen ++ [n]) (dedup_key cfg n) n.
Proof.
  intros Hno. split_and!; [done| | |].
  - exists n. rewrite elem_of_snoc. auto using represents_refl.
  - intros m [Hm| ->]%elem_of_snoc Hk; [by apply Hno in Hm|].
    apply better_irrefl.
  - intros s Hs. setoid_rewrite elem_of_snoc. naive_solver.
Qed.

Lemma clean_inv_insert cfg seen best n r :
  clean_inv cfg seen best → covers cfg (seen ++ [n]) (dedup_key cfg n) r →
  clean_inv cfg (seen ++ [n]) (<[dedup_key cfg n := r]> best).
Proof.
  intros Hinv Hr k. destruct (decide (dedup_key cfg n = k)) as [<-|Hne].
  - by rewrite lookup_insert_eq.
  - rewrite lookup_insert_ne by done. specialize (Hinv k).
    destruct (best !! k); [by apply covers_other|].
    intros m [?| ->]%elem_of_snoc; auto.
Qed.

Lemma clean_node_inv cfg seen best n :
  clean_inv cfg seen best →
  clean_inv cfg (seen ++ List.filter (keep cfg) [n]) (clean_node cfg best n).
Proof.
  intros Hinv. unfold clean_node. simpl.
  destruct (keep cfg n); simpl; [|by rewrite app_nil_r].
  pose proof (Hinv (dedup_key cfg n)) as Hk.
  destruct (best !! dedup_key cfg n) as [old|] eqn:Eb.
  - case_if; apply clean_inv_insert; try done; apply (covers_merge _ _ old); try done;
      by rewrite E.
  - apply clean_inv_insert; [done|]. by apply covers_first.
Qed.

Lemma clean_step_inv cfg seen best n :
  clean_inv cfg seen best →
  clean_inv cfg (seen ++ admitted cfg [n]) (clean_step cfg best n).
Proof.
  intros Hinv. destruct n as [n|]; [by apply clean_node_inv|].
  unfold admitted. simpl. by rewrite app_nil_r.
Qed.

Lemma admitted_cons cfg n nodes : admitted cfg (n :: nodes) = admitted cfg [n] ++ admitted cfg nodes.
Proof.
  unfold admitted. rewrite <-List.filter_app, <-fmap_app. by destruct n.
Qed.

Lemma clean_loop_inv cfg nodes : clean_inv cfg (admitted cfg nodes) (clean_loop cfg nodes).
Proof.
  unfold clean_loop.
  assert (∀ seen best, clean_inv cfg seen best →
    clean_inv cfg (seen ++ admitted cfg nodes) (fold_left (clean_step cfg) nodes best)) as Hgen.
  { induction nodes as [|n nodes IH]; intros seen best Hinv; simpl.
    - by rewrite app_nil_r.
    - rewrite admitted_cons, assoc by apply _. by apply IH, clean_step_inv. }
  apply (Hgen [] ∅). intros k. rewrite lookup_empty. intros m Hm. by apply elem_of_nil in Hm.
Qed.

(** C24: Cleaning deduplicates exactly.  The nodes it returns have different
    keys; each one is a node of the input that passed the filters, normalised;
    and each node that passed has one representative with its key, which no
    node of that key beats (more complete metadata, then a source of higher
    priority), and whose sources are all the sources of all the nodes of that
    key.  This holds for every order in which the map is read out. *)
Theorem clean_exact cfg nodes out :
  Clean nodes cfg out →
  NoDup (dedup_key cfg <$> out) ∧
  (∀ r, r ∈ out → ∃ m, m ∈ admitted cfg nodes ∧ represents r m) ∧
  (∀ m, m ∈ admitted cfg nodes → ∃ r, r ∈ out ∧ dedup_key cfg r = dedup_key cfg m ∧
     better cfg m r = false ∧
     ∀ s, s ≠ "" → s ∈ Node.Sources r ↔
       ∃ m', m' ∈ admitted cfg nodes ∧ dedup_key cfg m' = dedup_key cfg m ∧ s ∈ Node.Sources m').
Proof.
  unfold Clean. intros Hout. pose proof (clean_loop_inv cfg nodes) as Hinv.
  assert (Hin : ∀ r, r ∈ out → clean_loop cfg nodes !! dedup_key cfg r = Some r).
  { intros r Hr. rewrite Hout in Hr. apply list_elem_of_fmap in Hr as ([k r'] & -> & Hr).
    apply elem_of_map_to_list in Hr. simpl. specialize (Hinv k). rewrite Hr in Hinv.
    by destruct Hinv as [-> _]. }
  split_and!.
  - rewrite Hout. assert ((dedup_key cfg <$> (map_to_list (clean_loop cfg nodes)).*2)
      = (map_to_list (clean_loop cfg nodes)).*1) as ->; [|apply NoDup_fst_map_to_list].
    rewrite <-list_fmap_compose. apply list_fmap_ext. intros i [k r] Hi.
    apply list_elem_of_lookup_2, elem_of_map_to_list in Hi.
    specialize (Hinv k). rewrite Hi in Hinv. destruct Hinv as [Hk _]. exact Hk.
  - intros r Hr%Hin. specialize (Hinv (dedup_key cfg r)). rewrite Hr in Hinv.
    by destruct Hinv as (_ & ? & _).
  - intros m Hm. specialize (Hinv (dedup_key cfg m)).
    destruct (clean_loop cfg nodes !! dedup_key cfg m) as [r|] eqn:Er; [|by apply Hinv in Hm].
    destruct Hinv as (Hk & _ & Hb & Hs). exists r. split_and!; auto.
    rewrite Hout. apply list_elem_of_fmap. exists (dedup_key cfg m, r).
    by rewrite elem_of_map_to_list.
Qed.
End cleaner.
