(* ===== verification/Filter.v ===== *)
(** * Selecting nodes: [internal/filter]

    [Apply] keeps the nodes that are good enough, sorts them by the order of
    the configuration and cuts the list. *)
From S2P Require Import Prelude GoStr GoFloat GoTime Model Config.

Section filter.
Context `{Unicode}.

(** The order of [sortNodes] *)
Definition by_latency (a b : node) : bool := Node.Latency a <? Node.Latency b.
Definition node_less (by_ : string) (preferTLS : bool) (a b : node) : bool :=
  if preferTLS && negb (Bool.eqb (Node.TLS a) (Node.TLS b)) then Node.TLS a
  else if (by_ =? "score")%string then
    if negb (f_eq (Node.Score a) (Node.Score b)) then f_lt (Node.Score b) (Node.Score a)
    else by_latency a b
  else if (by_ =? "protocol")%string then
    if negb (Node.Protocol a =? Node.Protocol b)%string
    then String.ltb (Node.Protocol a) (Node.Protocol b) else by_latency a b
  else if (by_ =? "name")%string then
    if negb (Node.Name a =? Node.Name b)%string
    then String.ltb (Node.Name a) (Node.Name b) else by_latency a b
  else
    if negb (Bool.eqb (Node.Alive a) (Node.Alive b)) then Node.Alive a
    else if negb (Node.Latency a =? Node.Latency b) then by_latency a b
    else f_lt (Node.Score b) (Node.Score a).

(** [sortNodes] *)
Definition cfg_less (cfg : config) : node → node → bool :=
  node_less (ToLower (FilterConfig.SortBy (Config.Filter cfg)))
            (FilterConfig.PreferTLS (Config.Filter cfg)).
Definition sortNodes (nodes : list node) (cfg : config) : list node :=
  stable_sort (cfg_less cfg) nodes.

(** The conditions of the loop of [Apply] *)
Definition apply_keep (cfg : config) (n : node) : bool :=
  let f := Config.Filter cfg in
  let maxLat := if FilterConfig.MaxLatencyMS f <=? 0 then 2500 else FilterConfig.MaxLatencyMS f in
  let minScore := if f_lt (FilterConfig.MinScore f) f_zero then f_zero else FilterConfig.MinScore f in
  negb (FilterConfig.MinSuccess f && negb (Node.Alive n))
  && negb (Node.Alive n && (maxLat <? LatencyMS n))
  && negb (f_lt f_zero minScore && f_lt f_zero (Node.Score n) && f_lt (Node.Score n) minScore).

(** [Apply] *)
Definition Apply (nodes : list (option node)) (cfg : config) : list node :=
  truncate (FilterConfig.MaxNodes (Config.Filter cfg))
    (sortNodes (List.filter (apply_keep cfg) (omap id nodes)) cfg).

(** [StatsByProtocol], on nodes that are not nil *)
Definition StatsByProtocol (nodes : list node) : gmap string Z :=
  fold_left (λ m n, <[Node.Protocol n := default 0 (m !! Node.Protocol n) + 1]> m) nodes ∅.

(** ** The order *)

Definition scored (n : node) : Prop := is_nan (Node.Score n) = false.

#[local] Instance score_desc : Comparator scored (λ a b, f_compare (Node.Score b) (Node.Score a)).
Proof. by apply f_comparator_desc. Qed.

(** The same order as a lexicographic comparison *)
Definition flag (b : bool) : Z := if b then 0 else 1.
Definition node_cmp (by_ : string) (preferTLS : bool) (a b : node) : comparison :=
  lexc (Z.compare (if preferTLS then flag (Node.TLS a) else 0) (if preferTLS then flag (Node.TLS b) else 0))
    (if (by_ =? "score")%string then
       lexc (f_compare (Node.Score b) (Node.Score a)) (Z.compare (Node.Latency a) (Node.Latency b))
     else if (by_ =? "protocol")%string then
       lexc (String.compare (Node.Protocol a) (Node.Protocol b))
            (Z.compare (Node.Latency a) (Node.Latency b))
     else if (by_ =? "name")%string then
       lexc (String.compare (Node.Name a) (Node.Name b))
            (Z.compare (Node.Latency a) (Node.Latency b))
     else
       lexc (Z.compare (flag (Node.Alive a)) (flag (Node.Alive b)))
         (lexc (Z.compare (Node.Latency a) (Node.Latency b))
               (f_compare (Node.Score b) (Node.Score a)))).

#[local] Instance node_cmp_comparator by_ preferTLS : Comparator scored (node_cmp by_ preferTLS).
Proof.
  unfold node_cmp. apply lex_comparator.
  - apply (Z_comparator _ (λ a, if preferTLS then flag (Node.TLS a) else 0)).
  - repeat case_if; repeat apply lex_comparator; try apply score_desc;
      first [apply (Z_comparator _ Node.Latency) | apply (string_comparator _ Node.Protocol)
            | apply (string_comparator _ Node.Name)
            | apply (Z_comparator _ (λ a, flag (Node.Alive a)))].
Qed.

Lemma lt_latency a b : by_latency a b = lt_of (Z.compare (Node.Latency a) (Node.Latency b)).
Proof. unfold by_latency, Z.ltb. by destruct (Z.compare _ _). Qed.

(** A key compared only when it differs *)
Lemma lex_score a b rest :
  scored a → scored b →
  (if negb (f_eq (Node.Score a) (Node.Score b)) then f_lt (Node.Score b) (Node.Score a) else lt_of rest)
  = lt_of (lexc (f_compare (Node.Score b) (Node.Score a)) rest).
Proof.
  unfold scored, f_compare. intros Ha Hb.
  destruct (f_eq (Node.Score a) (Node.Score b)) eqn:E1, (f_lt (Node.Score b) (Node.Score a)) eqn:E2,
    (f_eq (Node.Score b) (Node.Score a)) eqn:E3; simpl; try done; exfalso; f_order.
Qed.
Lemma last_score a b :
  f_lt (Node.Score b) (Node.Score a) = lt_of (f_compare (Node.Score b) (Node.Score a)).
Proof. unfold f_compare. by repeat case_if. Qed.
Lemma lex_string s t rest :
  (if negb (s =? t)%string then String.ltb s t else lt_of rest) = lt_of (lexc (String.compare s t) rest).
Proof.
  unfold String.ltb. destruct (String.eqb_spec s t) as [->|Hne]; simpl.
  - by rewrite string_compare_refl.
  - destruct (String.compare s t) eqn:E; try done. by apply String.compare_eq_iff in E.
Qed.
Lemma lex_flag s t rest :
  (if negb (Bool.eqb s t) then s else lt_of rest) = lt_of (lexc (Z.compare (flag s) (flag t)) rest).
Proof. by destruct s, t. Qed.
Lemma lex_latency a b rest :
  (if negb (Node.Latency a =? Node.Latency b) then by_latency a b else lt_of rest)
  = lt_of (lexc (Z.compare (Node.Latency a) (Node.Latency b)) rest).
Proof.
  unfold by_latency, Z.ltb. destruct (Z.eqb_spec (Node.Latency a) (Node.Latency b)) as [->|Hne]; simpl.
  - by rewrite Z.compare_refl.
  - destruct (Z.compare_spec (Node.Latency a) (Node.Latency b)); done.
Qed.

Lemma node_less_cmp by_ preferTLS a b :
  scored a → scored b → node_less by_ preferTLS a b = lt_of (node_cmp by_ preferTLS a b).
Proof.
  intros Ha Hb. unfold node_less, node_cmp.
  assert (∀ rest, (if preferTLS && negb (Bool.eqb (Node.TLS a) (Node.TLS b)) then Node.TLS a
      else lt_of rest) = lt_of (lexc (Z.compare (if preferTLS then flag (Node.TLS a) else 0)
      (if preferTLS then flag (Node.TLS b) else 0)) rest)) as Htls.
  { intros rest. destruct preferTLS; simpl; [apply lex_flag|done]. }
  rewrite <-Htls. destruct (preferTLS && _); [done|].
  destruct (by_ =? "score")%string; [by rewrite <-lex_score, lt_latency|].
  destruct (by_ =? "protocol")%string; [by rewrite <-lex_string, lt_latency|].
  destruct (by_ =? "name")%string; [by rewrite <-lex_string, lt_latency|].
  by rewrite <-lex_flag, <-lex_latency, last_score.
Qed.

#[local] Instance node_less_weak cfg : StrictWeak scored (cfg_less cfg).
Proof.
  eapply strict_weak_ext; [apply comparator_weak, node_cmp_comparator|].
  intros a b. apply node_less_cmp.
Qed.

(** [Apply] returns the best nodes in order.  When no score is NaN its
    result is the front of the stable sort, by the configured order, of the
    nodes that pass the filter: nothing left out precedes anything kept, ties
    keep the order of the input, and a positive limit is respected and only
    cuts when it must. *)
Theorem apply_best_first (nodes : list (option node)) (cfg : config) :
  Forall scored (omap id nodes) →
  let selected := List.filter (apply_keep cfg) (omap id nodes) in
  let limit := FilterConfig.MaxNodes (Config.Filter cfg) in
  best_first scored (cfg_less cfg) selected (Apply nodes cfg) ∧
  Z.of_nat (length (Apply nodes cfg)) =
    if 0 <? limit then Z.min limit (Z.of_nat (length selected)) else Z.of_nat (length selected).
Proof.
  intros Hs selected limit. split.
  - apply truncate_best_first; [apply _|].
    rewrite Forall_forall in *. intros n Hn%elem_of_list_filter_bool. apply Hs. tauto.
  - unfold Apply, sortNodes. fold selected limit. unfold truncate.
    rewrite !length_stable_sort.
    destruct (Z.ltb_spec 0 limit), (Z.ltb_spec limit (Z.of_nat (length selected))); simpl;
      rewrite ?length_take, ?length_stable_sort; lia.
Qed.

(** [StatsByProtocol] counts. *)
Lemma StatsByProtocol_count nodes p :
  default 0 (StatsByProtocol nodes !! p)
  = Z.of_nat (length (List.filter (λ n, (Node.Protocol n =? p)%string) nodes)).
Proof.
  unfold StatsByProtocol.
  assert (∀ m : gmap string Z, default 0 (fold_left (λ m n, <[Node.Protocol n := default 0 (m !! Node.Protocol n) + 1]> m)
    nodes m !! p) = default 0 (m !! p)
    + Z.of_nat (length (List.filter (λ n, (Node.Protocol n =? p)%string) nodes))) as Hgen.
  { induction nodes as [|n nodes IH]; intros m; simpl; [lia|]. rewrite IH.
    destruct (String.eqb_spec (Node.Protocol n) p) as [->|Hne]; simpl.
    - rewrite lookup_insert_eq. simpl. lia.
    - by rewrite lookup_insert_ne. }
  by rewrite Hgen, lookup_empty.
Qed.
End filter.
