(* ===== verification/Scoring.v ===== *)
(** * Quality scores: [internal/quality]

    The score of a probe ([testOne], [computeScore], [buildTags]) and the
    weighted score of version 2 ([ComputeV2], [ApplyV2]), on binary64.  The
    outcomes of the network probes are inputs; [math.Log2] is a parameter,
    since its Go implementation differs between architectures. *)
From S2P Require Import Prelude GoStr GoFloat GoRound GoTime Model.

(** [math.Log2], with what the code relies on: only a negative argument and NaN
    give NaN ([Log2(0)] is minus infinity), and the result is a binary64 number. *)
Class MathLog2 := {
  f_log2 : float64 → float64;
  f_log2_number x : f_nonneg x = true → is_nan (f_log2 x) = false;
  f_log2_valid x : f_valid (f_log2 x) = true;
}.

(** ** Version 1: a probe *)

Module Options.
Record t := mk {
  Concurrency : Z;
  Timeout : Duration;
  Rounds : Z;
  TLSProbe : bool;
  EdgeProbe : bool;
}.
#[export] Instance eta : Eta t := λ o,
  mk (Concurrency o) (Timeout o) (Rounds o) (TLSProbe o) (EdgeProbe o).
End Options.
Export (hints) Options.

(** [New] *)
Definition New (opts : Options.t) : Options.t :=
  let opts := if Options.Concurrency opts <=? 0 then opts <| Options.Concurrency := 64 |> else opts in
  let opts := if Options.Timeout opts <=? 0 then opts <| Options.Timeout := 5 * Second |> else opts in
  if Options.Rounds opts <=? 0 then opts <| Options.Rounds := 3 |> else opts.

(** [computeScore] *)
Definition latency_score (avg : Z) : float64 :=
  let lat := f_of_Z avg in
  let lat := if f_lt lat (f_of_Z 1) then f_of_Z 1 else lat in
  if f_le lat (f_of_Z 80) then f_of_Z 40
  else if f_le (f_of_Z 2500) lat then f_of_Z 2
  else f_mul (f_of_Z 40) (f_div (f_of_Z 1) (f_add (f_of_Z 1) (f_div lat (f_of_Z 500)))).
Definition protocol_score (n : node) (q : Quality.t) : float64 :=
  let p := Node.Protocol n in
  let s := if bool_decide (p ∈ [ProtoVLESS; ProtoHysteria2; ProtoTUIC]) then f_of_Z 10
           else if bool_decide (p ∈ [ProtoTrojan; ProtoVMess]) then f_of_Z 8
           else if (p =? ProtoSS)%string then f_of_Z 6
           else f_of_Z 5 in
  let s := if Node.TLS n then f_min (f_of_Z 10) (f_add s (f_of_Z 2)) else s in
  if Node.TLS n && negb (Quality.TLSOK q) && (0 <? Quality.TLSMS q)
  then f_mul s (f_lit 1 2) else s.
Definition score_total (n : node) (q : Quality.t) : float64 :=
  let sr := f_mul (Quality.SuccessRate q) (f_of_Z 35) in
  let jit := f_mul (f_of_Z 10)
    (f_div (f_of_Z 1) (f_add (f_of_Z 1) (f_div (f_of_Z (Quality.JitterMS q)) (f_of_Z 80)))) in
  let edge := f_mul (f_div (Quality.EdgeScore q) (f_of_Z 100)) (f_of_Z 5) in
  let total := f_add (f_add (f_add (f_add sr (latency_score (Quality.AvgLatencyMS q))) jit)
                            (protocol_score n q)) edge in
  let total := if f_lt (f_of_Z 100) total then f_of_Z 100 else total in
  if f_lt total f_zero then f_zero else total.
Definition computeScore (n : node) (q : Quality.t) : float64 := tenths (score_total n q).

(** [buildTags] *)
Definition tag_if (b : bool) (t : string) : list string := if b then [t] else [].
Definition buildTags (n : node) (q : Quality.t) : list string :=
  [Node.Protocol n]
  ++ tag_if (Node.TLS n) "tls"
  ++ tag_if ((0 <? Quality.AvgLatencyMS q) && (Quality.AvgLatencyMS q <? 150)) "low-latency"
  ++ tag_if (f_le (f_of_Z 1) (Quality.SuccessRate q)) "stable"
  ++ tag_if (f_le (f_of_Z 80) (Quality.Score q)) "premium"
  ++ tag_if (Node.Security n =? "reality")%string "reality".

(** The statistics of the latencies of the successful rounds *)
Definition total_latency (lats : list Duration) : Z := fold_left (λ a l, wrap64 (a + l)) lats 0.
Definition avg_latency (lats : list Duration) : Duration :=
  Z.quot (total_latency lats) (Z.of_nat (length lats)).
Definition variance_sum (avg : Duration) (lats : list Duration) : float64 :=
  fold_left (λ v l,
    let d := f_sub (f_of_Z (Milliseconds l)) (f_of_Z (Milliseconds avg)) in
    f_add v (f_mul d d)) lats f_zero.
Definition jitter (lats : list Duration) : Z :=
  f_to_int64 (f_sqrt (f_div (variance_sum (avg_latency lats) lats) (f_of_Z (Z.of_nat (length lats))))).
Definition sort_latencies (lats : list Duration) : list Duration := stable_sort Z.ltb lats.

(** [probeEdgeScore]: [ok] of the six edge hosts answered *)
Definition probeEdgeScore (ok : Z) : float64 :=
  f_mul (f_div (f_of_Z ok) (f_of_Z 6)) (f_of_Z 100).

(** What the network answered to one probe: the latencies of the rounds that
    connected (a cancelled context ends the rounds early), the TLS handshake
    and the number of edge hosts reached *)
Module Probe.
Record t := mk { Latencies : list Duration; TLSAnswer : bool * Z; Edge : Z }.
End Probe.

(** The measurement of a probe with at least one success *)
Definition probe_base (opts : Options.t) (success : Z) : Quality.t :=
  Quality.zero <| Quality.ScoreVersion := "v2" |> <| Quality.Rounds := Options.Rounds opts |>
    <| Quality.SuccessRate := f_div (f_of_Z success) (f_of_Z (Options.Rounds opts)) |>.
Definition probe_stats (sorted : list Duration) (q : Quality.t) : Quality.t :=
  q <| Quality.MinLatencyMS := Milliseconds (default 0 (head sorted)) |>
    <| Quality.MaxLatencyMS := Milliseconds (default 0 (last sorted)) |>
    <| Quality.AvgLatencyMS := Milliseconds (avg_latency sorted) |>
    <| Quality.JitterMS := jitter sorted |>.
Definition probe_tls (opts : Options.t) (p : Probe.t) (tls : bool) (q : Quality.t) : Quality.t :=
  if Options.TLSProbe opts && tls then
    let q := q <| Quality.TLSOK := (Probe.TLSAnswer p).1 |>
               <| Quality.TLSMS := (Probe.TLSAnswer p).2 |> in
    if negb (Probe.TLSAnswer p).1
    then q <| Quality.Notes := (Quality.Notes q ++ ["tls handshake failed"])%list |> else q
  else if tls then q <| Quality.TLSOK := true |> else q.
Definition probe_edge (opts : Options.t) (p : Probe.t) (q : Quality.t) : Quality.t :=
  q <| Quality.EdgeScore := if Options.EdgeProbe opts then probeEdgeScore (Probe.Edge p)
                            else f_of_Z 50 |>.

(** [testOne] *)
Definition testOne (opts : Options.t) (now : Time) (p : Probe.t) (n : node) : node :=
  let n := n <| Node.TestedAt := now |> in
  let lats := Probe.Latencies p in
  let success := Z.of_nat (length lats) in
  let q := probe_base opts success in
  if success =? 0 then
    n <| Node.Alive := false |> <| Node.Error := "all probes failed" |>
      <| Node.Latency := Options.Timeout opts |> <| Node.Quality := Some (q <| Quality.Score := f_zero |>) |>
      <| Node.Score := f_zero |> <| Node.Grade := "F" |>
  else
    let sorted := sort_latencies lats in
    let n := n <| Node.Alive := true |> <| Node.Error := "" |>
               <| Node.Latency := avg_latency sorted |> in
    let q := probe_edge opts p (probe_tls opts p (Node.TLS n) (probe_stats sorted q)) in
    let q := q <| Quality.Score := computeScore n q |> in
    n <| Node.Quality := Some q |> <| Node.Score := Quality.Score q |>
      <| Node.Grade := AssignGrade (Quality.Score q) |> <| Node.Tags := buildTags n q |>.

(** [TestAll]: each goroutine writes its own node; [None] is a context that
    is done before the probe starts. *)
Definition TestAll (opts : Options.t) (answers : list (option (Time * Probe.t)))
    (nodes : list node) : list node :=
  zip_with (λ a n, match a with
    | Some (now, p) => testOne opts now p n
    | None => n <| Node.Alive := false |> <| Node.Error := "canceled" |>
    end) answers nodes.

(** The counts of [Summary] *)
Definition Summary (nodes : list node) : Z * Z * Z * float64 :=
  let alive := List.filter Node.Alive nodes in
  let sum := fold_left (λ s n, f_add s (Node.Score n)) alive f_zero in
  (Z.of_nat (length alive), Z.of_nat (length nodes),
   Z.of_nat (length (List.filter (λ n, f_le (f_of_Z 70) (Node.Score n)) nodes)),
   match alive with [] => f_zero | _ => f_div sum (f_of_Z (Z.of_nat (length alive))) end).

(** ** Version 2: weighted components *)

Module Weights.
Record t := mk {
  Latency : float64;
  Success : float64;
  Stability : float64;
  TLS : float64;
  HTTP : float64;
  Throughput : float64;
}.
End Weights.

(** [DefaultWeights] *)
Definition DefaultWeights : Weights.t :=
  Weights.mk (f_lit 25 100) (f_lit 25 100) (f_lit 15 100) (f_lit 10 100) (f_lit 15 100) (f_lit 10 100).

Module Breakdown.
Record t := mk {
  Connectivity : float64;
  Latency : float64;
  Stability : float64;
  TLS : float64;
  HTTP : float64;
  Throughput : float64;
  Protocol : float64;
  Total : float64;
  Grade : string;
}.
Definition zero : t := mk f_zero f_zero f_zero f_zero f_zero f_zero f_zero f_zero "".
End Breakdown.

(** [weightSum] *)
Definition weightSum (w : Weights.t) : float64 :=
  f_add (f_add (f_add (f_add (f_add (Weights.Latency w) (Weights.Success w)) (Weights.Stability w))
    (Weights.TLS w)) (Weights.HTTP w)) (Weights.Throughput w).

(** [protocolCompleteness] *)
Definition protocolCompleteness (n : node) : float64 :=
  let p := Node.Protocol n in
  let set s := negb (s =? "")%string in
  if bool_decide (p ∈ [ProtoVLESS; ProtoVMess]) then
    if set (Node.UUID n) && (set (Node.Network n) || Node.TLS n || set (Node.Security n))
    then f_of_Z 100
    else if set (Node.UUID n) then f_of_Z 85 else f_of_Z 70
  else if bool_decide (p ∈ [ProtoTrojan; ProtoHysteria2]) then
    if set (Node.Password n) then f_of_Z 95 else f_of_Z 70
  else if (p =? ProtoSS)%string then
    if set (Node.Method n) && set (Node.Password n) then f_of_Z 90 else f_of_Z 70
  else f_of_Z 70.

Definition hundred : float64 := f_of_Z 100.
Definition percent (x : float64) : float64 := clamp x f_zero hundred.

Section v2.
Context `{MathLog2}.

(** The components of [ComputeV2], each by the assignments to its field *)
Definition v2_connectivity (n : node) : float64 :=
  let c := match Node.Quality n with
           | Some q => percent (f_mul (Quality.SuccessRate q) hundred)
           | None => f_of_Z 80
           end in
  match Node.Dial n with
  | Some d => if DialResult.OK d then f_max c (f_of_Z 95) else f_min c (f_of_Z 20)
  | None => c
  end.
Definition v2_latency_ms (n : node) : float64 :=
  let l := f_of_Z (LatencyMS n) in
  let l := match Node.Quality n with
           | Some q => if 0 <? Quality.AvgLatencyMS q then f_of_Z (Quality.AvgLatencyMS q) else l
           | None => l
           end in
  let l := match Node.Dial n with
           | Some d => if 0 <? DialResult.LatencyMS d then f_of_Z (DialResult.LatencyMS d) else l
           | None => l
           end in
  if f_le l f_zero then f_of_Z 500 else l.
Definition v2_latency (n : node) : float64 :=
  percent (f_div hundred (f_add (f_of_Z 1) (f_div (v2_latency_ms n) (f_of_Z 400)))).
Definition v2_stability (n : node) : float64 :=
  match Node.Quality n with
  | Some q => if f_lt f_zero (Quality.Stability7D q)
              then percent (f_mul (Quality.Stability7D q) hundred) else v2_connectivity n
  | None => v2_connectivity n
  end.
Definition v2_tls (n : node) : float64 :=
  if Node.TLS n then
    match Node.Quality n with
    | Some q => if Quality.TLSOK q then hundred else f_of_Z 40
    | None => f_of_Z 40
    end
  else f_of_Z 80.
Definition v2_http_ms (n : node) : Z :=
  let ms := match Node.Quality n with Some q => Quality.HTTPMS q | None => 0 end in
  match Node.Dial n with Some d => DialResult.HTTPMS d | None => ms end.
Definition v2_http_status (n : node) : float64 :=
  match Node.Dial n with
  | Some d =>
      if (200 <=? DialResult.StatusCode d) && (DialResult.StatusCode d <? 400) then hundred
      else if 0 <? DialResult.StatusCode d then f_of_Z 10 else f_of_Z 50
  | None => f_of_Z 50
  end.
Definition v2_http (n : node) : float64 :=
  let ms := v2_http_ms n in
  if 0 <? ms then
    f_mul (v2_http_status n)
      (clamp (f_div (f_of_Z 1) (f_add (f_of_Z 1) (f_div (f_of_Z ms) (f_of_Z 2000))))
             (f_lit 1 4) (f_of_Z 1))
  else v2_http_status n.
Definition v2_throughput (n : node) : float64 :=
  let t := match Node.Quality n with Some q => Quality.ThroughputBPS q | None => 0 end in
  let t := match Node.Dial n with
           | Some d => if 0 <? DialResult.ThroughputBPS d then DialResult.ThroughputBPS d else t
           | None => t
           end in
  if 0 <? t then
    clamp (f_add (f_of_Z 20) (f_mul (f_of_Z 20) (f_log2 (f_div (f_of_Z t) (f_of_Z 65536)))))
          (f_of_Z 10) hundred
  else f_of_Z 50.

Definition v2_weighted (w : Weights.t) (n : node) : float64 :=
  f_div
    (f_add (f_add (f_add (f_add (f_add
       (f_mul (v2_latency n) (Weights.Latency w))
       (f_mul (v2_connectivity n) (Weights.Success w)))
       (f_mul (v2_stability n) (Weights.Stability w)))
       (f_mul (v2_tls n) (Weights.TLS w)))
       (f_mul (v2_http n) (Weights.HTTP w)))
       (f_mul (v2_throughput n) (Weights.Throughput w)))
    (weightSum w).
Definition v2_total (w : Weights.t) (n : node) : float64 :=
  percent (f_mul (v2_weighted w n)
    (f_add (f_lit 85 100) (f_div (f_mul (f_lit 15 100) (protocolCompleteness n)) hundred))).

(** [ComputeV2]; the variadic weights are the optional ones. *)
Definition chosen_weights (configured : option Weights.t) : Weights.t :=
  match configured with
  | Some w => if f_lt f_zero (weightSum w) then w else DefaultWeights
  | None => DefaultWeights
  end.
Definition reachable (n : node) : bool :=
  Node.Alive n || match Node.Dial n with Some d => DialResult.OK d | None => false end.
Definition ComputeV2 (n : option node) (configured : option Weights.t) : Breakdown.t :=
  match n with
  | None => Breakdown.zero
  | Some n =>
      if negb (reachable n) then
        Breakdown.mk f_zero f_zero f_zero f_zero f_zero f_zero f_zero f_zero "F"
      else
        let total := v2_total (chosen_weights configured) n in
        Breakdown.mk (v2_connectivity n) (v2_latency n) (v2_stability n) (v2_tls n) (v2_http n)
          (v2_throughput n) (protocolCompleteness n) total (AssignGrade total)
  end.

(** [ApplyV2] *)
Definition v2_note : string := "v2 weighted scoring applied".
Definition v2_base (b : Breakdown.t) (q : Quality.t) : Quality.t :=
  q <| Quality.ScoreVersion := "v2" |> <| Quality.Score := tenths (Breakdown.Total b) |>
    <| Quality.Breakdown := list_to_map
         [("success", Breakdown.Connectivity b); ("latency", Breakdown.Latency b);
          ("stability", Breakdown.Stability b); ("tls", Breakdown.TLS b);
          ("http", Breakdown.HTTP b); ("throughput", Breakdown.Throughput b);
          ("protocol", Breakdown.Protocol b)] |>.
Definition v2_record (b : Breakdown.t) (q : Quality.t) : Quality.t :=
  let q := v2_base b q in
  if bool_decide (v2_note ∈ Quality.Notes q) then q
  else q <| Quality.Notes := (Quality.Notes q ++ [v2_note])%list |>.
Definition v2_write (b : Breakdown.t) (n : node) : node :=
  n <| Node.Score := tenths (Breakdown.Total b) |> <| Node.Grade := Breakdown.Grade b |>
    <| Node.Quality := Some (v2_record b
         (default (Quality.zero <| Quality.ScoreVersion := "v2" |>) (Node.Quality n))) |>.
Definition ApplyV2 (n : node) (configured : option Weights.t) : node :=
  v2_write (ComputeV2 (Some n) configured) n.

(** ** Bounds *)

Definition in_percent (x : float64) : Prop := f_between f_zero hundred x.

Lemma percent_bounds x : is_nan x = false → in_percent (percent x).
Proof. intros Hx. by apply clamp_between. Qed.

(** The measurements of a node are numbers. *)
Definition measured (n : node) : Prop :=
  match Node.Quality n with
  | Some q => is_nan (Quality.SuccessRate q) = false ∧ is_nan (Quality.Stability7D q) = false
  | None => True
  end.
(** Weights that [validateEnterprise] accepts, with a finite sum *)
Definition weights_ok (w : Weights.t) : Prop :=
  Forall (λ x, f_nonneg x = true ∧ f_finite x = true)
    [Weights.Latency w; Weights.Success w; Weights.Stability w; Weights.TLS w; Weights.HTTP w;
     Weights.Throughput w] ∧ f_finite (weightSum w) = true.

Lemma v2_connectivity_bounds n : measured n → in_percent (v2_connectivity n).
Proof.
  unfold measured, v2_connectivity. intros Hm.
  assert (in_percent (match Node.Quality n with
    | Some q => percent (f_mul (Quality.SuccessRate q) hundred) | None => f_of_Z 80 end)) as Hc.
  { destruct (Node.Quality n) as [q|]; [|done]. destruct Hm as [Hm _].
    apply percent_bounds. by apply f_mul_not_nan. }
  destruct (Node.Dial n) as [d|]; [|done].
  destruct (DialResult.OK d); [by apply f_max_between|by apply f_min_between].
Qed.

Lemma v2_latency_ms_number n : f_nonneg (v2_latency_ms n) = true.
Proof.
  unfold v2_latency_ms. case_if; [done|].
  match goal with E : f_le ?x _ = false |- _ =>
    assert (is_nan x = false) as Hx; [repeat case_match; apply normalize_not_nan|];
    rewrite f_le_lt in E by done; apply negb_false_iff in E end.
  apply f_nonneg_le. rewrite f_le_lt by done. by rewrite (f_lt_asym _ _ E).
Qed.

Lemma v2_latency_bounds n : in_percent (v2_latency n).
Proof.
  apply percent_bounds, f_nonneg_not_nan, f_decay_nonneg; [done|done|].
  apply f_div_nonneg; [apply v2_latency_ms_number|done].
Qed.

Lemma v2_stability_bounds n : measured n → in_percent (v2_stability n).
Proof.
  intros Hm. pose proof (v2_connectivity_bounds n Hm) as Hc. unfold v2_stability.
  unfold measured in Hm. destruct (Node.Quality n) as [q|]; [|done]. case_if; [|done].
  destruct Hm as [_ Hm]. apply percent_bounds. by apply f_mul_not_nan.
Qed.

Lemma v2_tls_bounds n : in_percent (v2_tls n).
Proof. unfold v2_tls. by repeat case_match. Qed.

Lemma v2_throughput_bounds n : in_percent (v2_throughput n).
Proof.
  unfold v2_throughput. set (t := match Node.Dial n with Some _ => _ | None => _ end).
  destruct (Z.ltb_spec 0 t) as [Ht|_]; [|done].
  assert (f_between (f_of_Z 10) hundred (clamp (f_add (f_of_Z 20) (f_mul (f_of_Z 20)
    (f_log2 (f_div (f_of_Z t) (f_of_Z 65536))))) (f_of_Z 10) hundred)) as [H1 H2].
  { apply clamp_between; [|done]. apply f_add_not_nan; [|done].
    assert (is_nan (f_log2 (f_div (f_of_Z t) (f_of_Z 65536))) = false) as Hn.
    { apply f_log2_number, f_div_nonneg; [apply f_of_Z_nonneg; lia|done]. }
    by apply f_mul_number_l. }
  split; [by eapply f_le_trans, H1|done].
Qed.

Lemma v2_http_bounds n : in_percent (v2_http n).
Proof.
  unfold v2_http. set (ms := v2_http_ms n). set (h := v2_http_status n).
  assert (f_valid h = true ∧ f_posfin h = true ∧ f_finite h = true ∧ f_nonneg h = true ∧ in_percent h)
    as (Hv & Hp & Hf & Hn & [H0 H1]) by (unfold h, v2_http_status; by repeat case_match).
  destruct (Z.ltb_spec 0 ms) as [Hm|_]; [|done].
  set (c := f_div _ _).
  assert (f_nonneg c = true) as Hc.
  { apply f_decay_nonneg; [done|done|]. apply f_div_nonneg; [apply f_of_Z_nonneg; lia|done]. }
  assert (f_valid c = true) as Hcv by (unfold c; auto 10 with floats).
  destruct (f_clamp_one c (f_lit 1 4)) as [Hv1 Hb1]; try done; [by apply f_nonneg_not_nan|].
  split.
  - apply f_nonneg_le, f_mul_nonneg; [done|]. by eapply f_between_nonneg, Hb1.
  - eapply f_le_trans; [by apply f_mul_le_one|done].
Qed.

Lemma protocolCompleteness_range n :
  protocolCompleteness n ∈ [f_of_Z 70; f_of_Z 85; f_of_Z 90; f_of_Z 95; f_of_Z 100].
Proof. unfold protocolCompleteness. repeat case_if; rewrite ?list_elem_of_In; simpl; tauto. Qed.

Lemma protocolCompleteness_bounds n : in_percent (protocolCompleteness n).
Proof.
  pose proof (protocolCompleteness_range n) as Hr. rewrite !elem_of_cons, elem_of_nil in Hr.
  by repeat destruct Hr as [->|Hr].
Qed.

Lemma DefaultWeights_ok : weights_ok DefaultWeights.
Proof. split; [repeat constructor|]; by vm_compute. Qed.

Lemma f_between_product x w :
  in_percent x → f_nonneg w = true ∧ f_finite w = true → f_nonneg (f_mul x w) = true.
Proof.
  intros Hx [Hw Hf]. apply f_mul_fin_nonneg; try done.
  - by eapply f_between_nonneg, Hx.
  - by eapply f_between_finite, Hx.
Qed.

Lemma v2_weighted_nonneg w n :
  measured n → weights_ok w → f_lt f_zero (weightSum w) = true → f_nonneg (v2_weighted w n) = true.
Proof.
  intros Hm [Hw Hsum] Hpos. rewrite !Forall_cons in Hw. destruct Hw as (W1 & W2 & W3 & W4 & W5 & W6 & _).
  apply f_div_nonneg; [|by apply f_lt_zero_posfin].
  repeat apply f_add_nonneg; apply f_between_product; try done;
    auto using v2_latency_bounds, v2_connectivity_bounds, v2_stability_bounds, v2_tls_bounds,
      v2_http_bounds, v2_throughput_bounds.
Qed.

Lemma v2_total_bounds w n :
  measured n → weights_ok w → f_lt f_zero (weightSum w) = true → in_percent (v2_total w n).
Proof.
  intros Hm Hw Hpos. apply percent_bounds, f_mul_not_nan.
  - by apply f_nonneg_not_nan, v2_weighted_nonneg.
  - pose proof (protocolCompleteness_range n) as Hr. rewrite !elem_of_cons, elem_of_nil in Hr.
    repeat destruct Hr as [->|Hr]; done.
Qed.

Lemma chosen_weights_ok c :
  from_option weights_ok True c →
  weights_ok (chosen_weights c) ∧ f_lt f_zero (weightSum (chosen_weights c)) = true.
Proof.
  unfold chosen_weights. destruct c as [w|]; simpl; [intros Hw; case_if|intros _];
    split; try done; apply DefaultWeights_ok.
Qed.

(** A [float64] of a Go program is always canonical. *)
Definition floats_ok (n : node) (w : option Weights.t) : Prop :=
  from_option (λ q, f_valid (Quality.SuccessRate q) = true ∧ f_valid (Quality.Stability7D q) = true)
    True (Node.Quality n) ∧
  from_option (λ w, Forall (λ x, f_valid x = true)
    [Weights.Latency w; Weights.Success w; Weights.Stability w; Weights.TLS w; Weights.HTTP w;
     Weights.Throughput w]) True w.

#[local] Hint Resolve f_log2_valid : floats.

Lemma percent_valid x : f_valid x = true → f_valid (percent x) = true.
Proof. intros. unfold percent, hundred. by auto with floats. Qed.
Lemma if_valid (b : bool) x y : f_valid x = true → f_valid y = true → f_valid (if b then x else y) = true.
Proof. by destruct b. Qed.
#[local] Hint Resolve percent_valid if_valid : floats.

Lemma v2_components_valid n w :
  floats_ok n w →
  f_valid (v2_connectivity n) = true ∧ f_valid (v2_latency n) = true ∧
  f_valid (v2_stability n) = true ∧ f_valid (v2_tls n) = true ∧ f_valid (v2_http n) = true ∧
  f_valid (v2_throughput n) = true ∧ f_valid (protocolCompleteness n) = true.
Proof.
  intros [Hq _].
  assert (f_valid (v2_connectivity n) = true) as Hc.
  { unfold v2_connectivity, hundred. destruct (Node.Quality n) as [q|], (Node.Dial n) as [d|];
      simpl in Hq; try destruct Hq; auto 8 with floats. }
  split_and!; [done| | | | | |].
  - unfold v2_latency, hundred, v2_latency_ms. repeat case_match; auto 8 with floats.
  - unfold v2_stability, hundred. destruct (Node.Quality n) as [q|]; [|done].
    destruct Hq. auto 8 with floats.
  - unfold v2_tls, hundred. repeat case_match; auto with floats.
  - unfold v2_http, v2_http_status, hundred. repeat case_match; auto 9 with floats.
  - unfold v2_throughput, hundred. repeat case_match; auto 9 with floats.
  - pose proof (protocolCompleteness_range n) as Hr. rewrite !elem_of_cons, elem_of_nil in Hr.
    repeat destruct Hr as [->|Hr]; done.
Qed.

Lemma weights_valid n w : floats_ok n w →
  Forall (λ x, f_valid x = true)
    [Weights.Latency (chosen_weights w); Weights.Success (chosen_weights w);
     Weights.Stability (chosen_weights w); Weights.TLS (chosen_weights w);
     Weights.HTTP (chosen_weights w); Weights.Throughput (chosen_weights w)].
Proof.
  intros [_ Hw]. unfold chosen_weights. destruct w as [w|]; [case_if; [done|]|];
    repeat constructor; by vm_compute.
Qed.

Lemma v2_total_valid n w : floats_ok n w → f_valid (v2_total (chosen_weights w) n) = true.
Proof.
  intros Hok. destruct (v2_components_valid n w Hok) as (? & ? & ? & ? & ? & ? & ?).
  pose proof (weights_valid n w Hok) as Hw. rewrite !Forall_cons in Hw.
  destruct Hw as (? & ? & ? & ? & ? & ? & _).
  unfold v2_total, v2_weighted, weightSum, hundred. auto 20 with floats.
Qed.

(** The version 2 score is a percentage.  For every node whose
    measurements are numbers and all weights that validation admits (finite
    sum), [ApplyV2] gives a score between 0 and 100 and records components that
    are each between 0 and 100; a node that is neither alive nor dialled gets
    0 and the grade F. *)
Theorem v2_bounded (n : node) (w : option Weights.t) :
  measured n → floats_ok n w → from_option weights_ok True w →
  let b := ComputeV2 (Some n) w in
  let n' := ApplyV2 n w in
  in_percent (Node.Score n') ∧ Node.Grade n' = Breakdown.Grade b ∧
  Forall in_percent [Breakdown.Connectivity b; Breakdown.Latency b; Breakdown.Stability b;
    Breakdown.TLS b; Breakdown.HTTP b; Breakdown.Throughput b; Breakdown.Protocol b;
    Breakdown.Total b] ∧
  (if reachable n then Breakdown.Grade b = AssignGrade (Breakdown.Total b)
   else Node.Score n' = f_zero ∧ Node.Grade n' = "F").
Proof.
  intros Hm Hok Hw b n'. destruct (chosen_weights_ok w Hw) as [Hcw Hpos].
  assert (Node.Score n' = tenths (Breakdown.Total b) ∧ Node.Grade n' = Breakdown.Grade b) as [-> ->]
    by by destruct n.
  unfold b, ComputeV2. destruct (reachable n); simpl.
  - pose proof (v2_total_bounds (chosen_weights w) n Hm Hcw Hpos) as Ht.
    split_and!; [|done| |done].
    + by apply tenths_bounds; [apply v2_total_valid|].
    + rewrite !Forall_cons. split_and!; auto using v2_connectivity_bounds, v2_latency_bounds,
        v2_stability_bounds, v2_tls_bounds, v2_http_bounds, v2_throughput_bounds,
        protocolCompleteness_bounds.
  - split_and!; try done. by rewrite !Forall_cons.
Qed.

(** What [ComputeV2] reads of a node *)
Definition readings (n : node) :=
  (Node.Alive n, Node.Dial n, Node.TLS n, LatencyMS n,
   (Node.Protocol n, Node.UUID n, Node.Network n, Node.Security n, Node.Password n, Node.Method n),
   (λ q, (Quality.SuccessRate q, Quality.AvgLatencyMS q, Quality.Stability7D q, Quality.TLSOK q,
          Quality.HTTPMS q, Quality.ThroughputBPS q)) <$> Node.Quality n).

Lemma compute_readings n n' w :
  is_Some (Node.Quality n) → readings n = readings n' → ComputeV2 (Some n) w = ComputeV2 (Some n') w.
Proof.
  intros [q Hq]. unfold readings. rewrite Hq. simpl.
  destruct (Node.Quality n') as [q'|] eqn:Hq'; [|done]. intros [=].
  unfold ComputeV2, reachable, v2_total, v2_weighted, v2_stability, v2_connectivity, v2_latency,
    v2_latency_ms, v2_tls, v2_http, v2_http_ms, v2_http_status, v2_throughput, protocolCompleteness.
  rewrite Hq, Hq'.
  repeat match goal with H : _ = _ |- _ => progress rewrite H; clear H end. reflexivity.
Qed.

Lemma v2_base_notes b q : Quality.Notes (v2_base b q) = Quality.Notes q.
Proof. by destruct q. Qed.
Lemma v2_record_notes b q : v2_note ∈ Quality.Notes (v2_record b q).
Proof. unfold v2_record. case_bool_decide as E; [done|]. destruct q. simpl in *. set_solver. Qed.
Lemma v2_record_idemp b q : v2_record b (v2_record b q) = v2_record b q.
Proof.
  pose proof (v2_record_notes b q) as Hn. unfold v2_record at 1.
  rewrite v2_base_notes, bool_decide_eq_true_2 by done. clear Hn. unfold v2_record.
  case_if; by destruct q.
Qed.
Lemma v2_record_readings b q :
  Quality.SuccessRate (v2_record b q) = Quality.SuccessRate q ∧
  Quality.AvgLatencyMS (v2_record b q) = Quality.AvgLatencyMS q ∧
  Quality.Stability7D (v2_record b q) = Quality.Stability7D q ∧
  Quality.TLSOK (v2_record b q) = Quality.TLSOK q ∧
  Quality.HTTPMS (v2_record b q) = Quality.HTTPMS q ∧
  Quality.ThroughputBPS (v2_record b q) = Quality.ThroughputBPS q.
Proof. unfold v2_record. case_if; by destruct q. Qed.

Lemma compute_write b n w q :
  Node.Quality n = Some q → ComputeV2 (Some (v2_write b n)) w = ComputeV2 (Some n) w.
Proof.
  intros Hq. symmetry. apply compute_readings; [by eexists|].
  destruct n. simpl in Hq. subst. unfold readings, v2_write. simpl.
  destruct (v2_record_readings b q) as (-> & -> & -> & -> & -> & ->). done.
Qed.

(** Scoring a node again changes nothing, when the node has quality
    measurements: what [ApplyV2] writes is not what [ComputeV2] reads. *)
Theorem apply_v2_idempotent (n : node) (w : option Weights.t) :
  is_Some (Node.Quality n) → ApplyV2 (ApplyV2 n w) w = ApplyV2 n w.
Proof.
  intros [q Hq]. unfold ApplyV2. rewrite (compute_write _ _ _ q) by done.
  generalize (ComputeV2 (Some n) w). intros b. destruct n. simpl in Hq. subst.
  unfold v2_write. simpl. by rewrite v2_record_idemp.
Qed.

(** Without quality measurements it is not so: the first call stores an empty
    measurement, which the second call reads as a success rate of zero. *)
Definition unmeasured : node :=
  Node.zero <| Node.Alive := true |> <| Node.Latency := 100 * Millisecond |>.
Theorem apply_v2_unmeasured :
  Node.Quality unmeasured = None ∧
  f_lt (Node.Score (ApplyV2 (ApplyV2 unmeasured None) None)) (Node.Score (ApplyV2 unmeasured None))
  = true.
Proof. split; [done|]. by vm_compute. Qed.

(** The grade comes from the score before it is rounded to one decimal, so the
    two that are stored can disagree. *)
Definition edge_node : node :=
  Node.zero <| Node.Alive := true |> <| Node.Latency := 100 * Millisecond |>
    <| Node.Protocol := ProtoVLESS |> <| Node.UUID := "u" |> <| Node.Network := "ws" |>.
Definition edge_weights : Weights.t :=
  Weights.mk (f_of_Z 1) f_zero f_zero f_zero (f_lit 1 1000) f_zero.
Theorem apply_v2_grade_disagrees :
  let n := ApplyV2 edge_node (Some edge_weights) in
  Node.Score n = f_of_Z 80 ∧ Node.Grade n = "B" ∧ AssignGrade (Node.Score n) = "A".
Proof. by vm_compute. Qed.
End v2.

(** A function that meets the interface: the exponent of its argument *)
Definition exponent_log2 (x : float64) : float64 :=
  match x with
  | SpecFloat.S754_zero _ => SpecFloat.S754_infinity true
  | SpecFloat.S754_infinity false => x
  | SpecFloat.S754_finite false m e => f_of_Z (digits (Z.pos m) + e - 1)
  | _ => SpecFloat.S754_nan
  end.
#[refine] Definition log2_grid : MathLog2 := {| f_log2 := exponent_log2 |}.
Proof.
  - by intros [[]|[]| |[] m e]; simpl; try done; intros _; apply normalize_not_nan.
  - by intros [[]|[]| |[] m e]; try done; apply f_of_Z_valid.
Defined.

(** ** Bounds of the score of a probe *)

Lemma latency_score_nonneg avg : 0 ≤ avg → f_nonneg (latency_score avg) = true ∧ f_valid (latency_score avg) = true.
Proof.
  intros Ha. unfold latency_score.
  assert (∃ lat, (if f_lt (f_of_Z avg) (f_of_Z 1) then f_of_Z 1 else f_of_Z avg) = lat ∧
    f_nonneg lat = true ∧ f_valid lat = true) as (lat & -> & Hn & Hv).
  { eexists; split; [reflexivity|]. case_if; [done|]. auto using f_of_Z_nonneg with floats. }
  case_if; [done|]. case_if; [done|]. split; [|auto 9 with floats].
  apply f_mul_nonneg; [done|]. apply f_decay_nonneg; [done|done|]. by apply f_div_nonneg.
Qed.

Lemma protocol_score_nonneg n q : f_nonneg (protocol_score n q) = true ∧ f_valid (protocol_score n q) = true.
Proof. unfold protocol_score. by repeat case_if. Qed.

Lemma cap_bounds t : is_nan t = false → f_valid t = true →
  let t := if f_lt hundred t then hundred else t in
  let t := if f_lt t f_zero then f_zero else t in
  in_percent t ∧ f_valid t = true.
Proof.
  intros Hn Hv t1 t2. assert (is_nan t1 = false ∧ f_valid t1 = true ∧ f_le t1 hundred = true) as (H1 & H2 & H3).
  { unfold t1. case_if; [done|]. split_and!; try done. rewrite f_le_lt by done. by rewrite E. }
  unfold t2. case_if; [done|]. split_and!; [split|]; try done. rewrite f_le_lt by done. by rewrite E.
Qed.

(** The score of a probe is a percentage, when the rates it is computed
    from are numbers that are not negative. *)
Theorem probe_score_bounds (n : node) (q : Quality.t) :
  f_valid (Quality.SuccessRate q) = true → f_nonneg (Quality.SuccessRate q) = true →
  f_valid (Quality.EdgeScore q) = true → f_nonneg (Quality.EdgeScore q) = true →
  0 ≤ Quality.AvgLatencyMS q → 0 ≤ Quality.JitterMS q →
  in_percent (computeScore n q).
Proof.
  intros Hsv Hsn Hev Hen Ha Hj.
  destruct (latency_score_nonneg (Quality.AvgLatencyMS q) Ha) as [Hl1 Hl2].
  destruct (protocol_score_nonneg n q) as [Hp1 Hp2].
  match goal with |- in_percent ?s => assert (∃ t, s = tenths t ∧ in_percent t ∧ f_valid t = true)
    as (t & -> & Ht & Hv) end; [|by apply tenths_bounds].
  eexists. split; [reflexivity|]. unfold score_total. apply cap_bounds.
  - apply f_nonneg_not_nan. repeat apply f_add_nonneg; try done.
    + by apply f_mul_nonneg_r.
    + apply f_mul_nonneg; [done|]. apply f_decay_nonneg; [done|done|].
      apply f_div_nonneg; [by apply f_of_Z_nonneg|done].
    + apply f_mul_nonneg_r; [|done]. by apply f_div_nonneg.
  - auto 15 with floats.
Qed.

(** ** Consistency of a probe *)

Definition latency_ok (l : Duration) : Prop := 0 ≤ l ≤ Hour.

#[export] Instance ltb_weak : StrictWeak (λ _ : Z, True) Z.ltb.
Proof.
  split.
  - intros x _. apply Z.ltb_irrefl.
  - intros x y z _ _ _. rewrite !Z.ltb_ge. lia.
  - intros x y _ _. rewrite Z.ltb_lt, Z.ltb_ge. lia.
Qed.

Lemma total_latency_bounds lats lo hi :
  0 ≤ lo → hi ≤ Hour → Z.of_nat (length lats) ≤ 1000 → Forall (λ l, lo ≤ l ≤ hi) lats →
  lo * Z.of_nat (length lats) ≤ total_latency lats ≤ hi * Z.of_nat (length lats).
Proof.
  intros Hlo Hhi Hlen Hall. unfold total_latency.
  assert (∀ a k, lo * k ≤ a ≤ hi * k → 0 ≤ k → k + Z.of_nat (length lats) ≤ 1000 →
    lo * (k + Z.of_nat (length lats)) ≤ fold_left (λ a l, wrap64 (a + l)) lats a
      ≤ hi * (k + Z.of_nat (length lats))) as Hgen.
  { clear Hlen. induction Hall as [|l lats Hl Hall IH]; intros a k Ha Hk Hlen; simpl.
    { replace (k + Z.of_nat 0) with k by lia. done. }
    simpl length in Hlen. rewrite wrap64_id by (unfold int64_range, Hour, Minute, Second in *; nia).
    replace (k + Z.of_nat (S (length lats))) with (k + 1 + Z.of_nat (length lats)) by lia.
    apply IH; lia. }
  pose proof (Hgen 0 0). lia.
Qed.

Lemma sorted_ends lats :
  lats ≠ [] → let s := sort_latencies lats in
  Forall (λ l, default 0 (head s) ≤ l ≤ default 0 (last s)) s.
Proof.
  intros Hne s. assert (sorted_by Z.ltb s) as Hs.
  { apply (stable_sort_sorted (λ _, True) Z.ltb). by apply Forall_true. }
  assert (s ≠ []) as Hsne.
  { unfold s, sort_latencies. intros Hz%(f_equal length). rewrite length_stable_sort in Hz.
    by destruct lats. }
  clearbody s. clear Hne lats. rewrite Forall_forall. intros l Hl. split.
  - destruct s as [|a s]; [done|]. simpl. apply StronglySorted_inv in Hs as [_ Hall].
    apply elem_of_cons in Hl as [->|Hl]; [done|]. rewrite Forall_forall in Hall.
    specialize (Hall l Hl). by apply Z.ltb_ge in Hall.
  - destruct s as [|b s _] using rev_ind; [done|]. rewrite last_snoc. simpl.
    apply elem_of_app in Hl as [Hl|Hl%list_elem_of_singleton]; [|by rewrite Hl].
    clear Hsne. induction s as [|a s IH]; [set_solver|]. simpl in Hs.
    apply StronglySorted_inv in Hs as [Hs Hall].
    apply elem_of_cons in Hl as [->|Hl]; [|by apply IH].
    rewrite Forall_forall in Hall. specialize (Hall b ltac:(set_solver)). by apply Z.ltb_ge in Hall.
Qed.

Lemma probe_stats_kept opts p tls s q :
  let q' := probe_edge opts p (probe_tls opts p tls (probe_stats s q)) in
  Quality.MinLatencyMS q' = Milliseconds (default 0 (head s)) ∧
  Quality.MaxLatencyMS q' = Milliseconds (default 0 (last s)) ∧
  Quality.AvgLatencyMS q' = Milliseconds (avg_latency s).
Proof. unfold probe_edge, probe_tls. destruct q. by repeat case_if. Qed.

(** A probe leaves a consistent node.  It is alive exactly when a round
    connected; score and grade are those of the stored measurement; and when
    the latencies are of sane size, the average lies between the least and the
    greatest of them, and the latency of the node is that average. *)
Theorem probe_consistent (opts : Options.t) (now : Time) (p : Probe.t) (n : node) :
  Forall latency_ok (Probe.Latencies p) → Z.of_nat (length (Probe.Latencies p)) ≤ 1000 →
  let n' := testOne opts now p n in
  Node.TestedAt n' = now ∧
  (Node.Alive n' = true ↔ Probe.Latencies p ≠ []) ∧
  ∃ q, Node.Quality n' = Some q ∧ Node.Score n' = Quality.Score q ∧
       Node.Grade n' = AssignGrade (Node.Score n') ∧
       (Node.Alive n' = true →
          Quality.MinLatencyMS q ≤ Quality.AvgLatencyMS q ≤ Quality.MaxLatencyMS q ∧
          LatencyMS n' = Quality.AvgLatencyMS q).
Proof.
  intros Hlats Hlen n'. unfold n', testOne.
  destruct (Z.eqb_spec (Z.of_nat (length (Probe.Latencies p))) 0) as [Hz|Hz].
  { destruct (Probe.Latencies p); [|done]. destruct n. simpl. split_and!; try done.
    eexists. split_and!; done. }
  assert (Hne : Probe.Latencies p ≠ []) by by destruct (Probe.Latencies p).
  pose proof (sorted_ends _ Hne) as Hends. simpl in Hends.
  set (s := sort_latencies (Probe.Latencies p)) in *.
  assert (Hsl : length s = length (Probe.Latencies p)) by apply length_stable_sort.
  assert (Hok : Forall latency_ok s) by (unfold s, sort_latencies; by rewrite stable_sort_perm).
  set (lo := default 0 (head s)) in *. set (hi := default 0 (last s)) in *.
  assert (0 ≤ lo ∧ hi ≤ Hour ∧ lo ≤ hi) as (Hlo & Hhi & Hlh).
  { unfold latency_ok in Hok. destruct s as [|a s'] eqn:Es; [by destruct (Probe.Latencies p)|].
    split_and!.
    - unfold lo. simpl. apply Forall_cons_1 in Hok as [? _]. lia.
    - unfold hi. destruct (last (a :: s')) as [b|] eqn:El; [|by apply last_None in El].
      apply last_Some_elem_of in El. rewrite Forall_forall in Hok. simpl. by apply Hok.
    - apply Forall_cons_1 in Hends as [? _]. lia. }
  pose proof (total_latency_bounds s lo hi Hlo Hhi ltac:(lia) Hends) as Ht.
  assert (lo ≤ avg_latency s ≤ hi) as Havg.
  { unfold avg_latency. rewrite Z.quot_div_nonneg by lia. split.
    - apply Z.div_le_lower_bound; lia.
    - apply Z.div_le_upper_bound; lia. }
  assert (Hms : ∀ a b, 0 ≤ a ≤ b → Milliseconds a ≤ Milliseconds b).
  { intros a b Hab. unfold Milliseconds. apply Z.quot_le_mono; unfold Millisecond; lia. }
  assert (HL : (if avg_latency s <=? 0 then 0 else Milliseconds (avg_latency s)) = Milliseconds (avg_latency s)).
  { destruct (Z.leb_spec (avg_latency s) 0); [|done]. by replace (avg_latency s) with 0 by lia. }
  cbv zeta. set (m := n <| Node.TestedAt := now |> <| Node.Alive := true |> <| Node.Error := "" |>
    <| Node.Latency := avg_latency s |>).
  pose proof (probe_stats_kept opts p (Node.TLS m) s (probe_base opts (Z.of_nat (length (Probe.Latencies p)))))
    as (Hmin & Hmax & Hav).
  set (q := probe_edge _ _ _) in *. set (sc := computeScore m q). clearbody q sc.
  assert (Hm : Node.TestedAt m = now ∧ Node.Alive m = true ∧ Node.Latency m = avg_latency s) by by destruct n.
  clearbody m. destruct m. simpl in Hm. destruct Hm as (-> & -> & ->).
  destruct q. simpl in *. split_and!; [done|done|]. eexists. split_and!; try reflexivity.
  intros _. simpl. subst. unfold LatencyMS. simpl. rewrite HL.
  split; [split|]; [apply Hms; lia|apply Hms; lia|done].
Qed.
