(* ===== verification/NodeStore.v ===== *)
(** * The node store: [internal/store]

    The in-memory store of nodes and jobs with its snapshot on disk.  A store
    is a record of its maps; the store keeps clones of the nodes it is given
    and hands out clones, so no node is shared and a node is its contents.
    Every operation holds the lock for its whole body.

    Ranging over a Go map visits it in an arbitrary order: [MapRange].  The
    snapshot is written by a sequence of file operations each of which may
    fail ([io]); [encoding/json] is the parameter [SnapshotCodec]. *)
From S2P Require Import Prelude Sql GoStr GoFloat GoTime Model Filter.

(** The order in which a [range] over the nodes visits them *)
Class MapRange := {
  range_nodes : gmap string node → list node;
  range_nodes_perm m : range_nodes m ≡ₚ rows m;
}.

(** The contents of [snapshot.json] *)
Module Snapshot.
Record t := mk {
  Nodes : list node;
  HostAI : option (gmap string (option AIProbeResult.t));
  LastFetch : option Time;
  LastQual : option Time;
}.
End Snapshot.
Class SnapshotCodec := {
  marshal_snapshot : Snapshot.t → option string;
  unmarshal_snapshot : string → option Snapshot.t;
}.

Module Store.
Record t := mk {
  nodes : gmap string node;
  jobs : gmap string Job.t;
  jobOrder : list string;
  lastFetch : option Time;
  lastQual : option Time;
  hostAI : option (gmap string (option AIProbeResult.t));
  persistent : bool;
  disk : option string;
}.
#[export] Instance eta : Eta t := λ s, mk (nodes s) (jobs s) (jobOrder s) (lastFetch s)
  (lastQual s) (hostAI s) (persistent s) (disk s).
End Store.
Export (hints) Store.
Abbreviation store := Store.t.

(** [NewMemory] *)
Definition NewMemory : store := Store.mk ∅ ∅ [] None None (Some ∅) false None.

(** [cloneDial], [cloneNode], [cloneJob]: deep copies; a clone forgets nil AI
    results, nil checks and the checks of checks. *)
Definition cloneDial (r : DialResult.t) : DialResult.t :=
  r <| DialResult.Checks :=
    omap (λ c, match c with
               | Some check => Some (Some (check <| DialResult.Checks := [] |>))
               | None => None
               end) (DialResult.Checks r) |>.
Definition cloneNode (n : node) : node :=
  n <| Node.AIAccess := (λ m, filter (λ kv, is_Some kv.2) m) <$> Node.AIAccess n |>
    <| Node.Dial := cloneDial <$> Node.Dial n |>.
Definition cloneJob (j : Job.t) : Job.t := j.

(** [NodeFilter] *)
Module NodeFilter.
Record t := mk {
  Protocol : string;
  Source : string;
  Grade : string;
  Country : string;
  AliveOnly : bool;
  MinScore : float64;
  AIKey : string;
  Search : string;
  Limit : Z;
  HighQuality : bool;
  VerifiedOnly : bool;
  SeenAfter : Time;
  DialTestedAfter : Time;
  DialEngine : string;
}.
#[export] Instance eta : Eta t := λ f, mk (Protocol f) (Source f) (Grade f) (Country f)
  (AliveOnly f) (MinScore f) (AIKey f) (Search f) (Limit f) (HighQuality f) (VerifiedOnly f)
  (SeenAfter f) (DialTestedAfter f) (DialEngine f).
Definition zero : t := mk "" "" "" "" false f_zero "" "" 0 false false 0 0 "".
End NodeFilter.
Export (hints) NodeFilter.

Module PruneOptions.
Record t := mk {
  DropDead : bool;
  MinScoreKeep : float64;
  MaxNodes : Z;
  KeepUntested : bool;
}.
#[export] Instance eta : Eta t := λ o,
  mk (DropDead o) (MinScoreKeep o) (MaxNodes o) (KeepUntested o).
End PruneOptions.
Export (hints) PruneOptions.

Definition unset (s : string) : bool := (s =? "")%string.

Section store.
Context `{Unicode} `{Crypto}.

(** [nodeID]: the first eight bytes of a SHA-1 digest *)
Definition nodeID (n : node) : string := hex_encode (slice_to (sha1_sum (Key n)) 8).

(** [NodeFilter.Match] *)
Definition country_ok (want got : string) : bool :=
  let want := ToUpper want in
  let got := ToUpper got in
  let got := if unset got then "XX" else got in
  let want := if (want =? "UK")%string then "GB" else want in
  let got := if (got =? "UK")%string then "GB" else got in
  (got =? want)%string.
Definition search_blob (n : node) : string :=
  ToLower (Node.Name n +:+ " " +:+ Node.Server n +:+ " " +:+ Node.Source n +:+ " " +:+
    Join (Node.Sources n) " " +:+ " " +:+ Node.Protocol n +:+ " " +:+ Node.Country n +:+ " "
    +:+ Node.City n).
Definition ai_ok (n : node) (k : string) : bool :=
  match Node.AIAccess n with
  | Some m => match m !! k with Some (Some r) => AIProbeResult.OK r | _ => false end
  | None => false
  end.
Definition dial_tested_ok (after : Time) (n : node) : bool :=
  match Node.Dial n with
  | Some d => negb (IsZero (DialResult.TestedAt d) || Before (DialResult.TestedAt d) after)
  | None => false
  end.
Definition Match (f : NodeFilter.t) (n : node) : bool :=
  (unset (NodeFilter.Protocol f) || (Node.Protocol n =? NodeFilter.Protocol f)%string)
  && (unset (NodeFilter.Source f) || (Node.Source n =? NodeFilter.Source f)%string
      || bool_decide (NodeFilter.Source f ∈ Node.Sources n))
  && (unset (NodeFilter.Grade f) || (Node.Grade n =? NodeFilter.Grade f)%string)
  && (unset (NodeFilter.Country f) || country_ok (NodeFilter.Country f) (Node.Country n))
  && (negb (NodeFilter.AliveOnly f) || Node.Alive n)
  && negb (f_lt f_zero (NodeFilter.MinScore f) && f_lt (Node.Score n) (NodeFilter.MinScore f))
  && negb (NodeFilter.HighQuality f && f_lt (Node.Score n) (f_of_Z 70))
  && (negb (NodeFilter.VerifiedOnly f) || Node.Verified n)
  && (IsZero (NodeFilter.DialTestedAfter f) || dial_tested_ok (NodeFilter.DialTestedAfter f) n)
  && (unset (NodeFilter.DialEngine f) || PassedEngine (Node.Dial n) (NodeFilter.DialEngine f))
  && negb (negb (IsZero (NodeFilter.SeenAfter f)) && negb (IsZero (Node.LastSeenAt n))
           && Before (Node.LastSeenAt n) (NodeFilter.SeenAfter f))
  && (unset (NodeFilter.AIKey f) || ai_ok n (NodeFilter.AIKey f))
  && (unset (NodeFilter.Search f) || Contains (search_blob n) (ToLower (NodeFilter.Search f))).

(** The three orders of the package *)
Definition list_less (a b : node) : bool :=
  if negb (f_eq (Node.Score a) (Node.Score b)) then f_lt (Node.Score b) (Node.Score a)
  else if negb (Node.Latency a =? Node.Latency b) then Node.Latency a <? Node.Latency b
  else if negb (Node.Name a =? Node.Name b)%string then String.ltb (Node.Name a) (Node.Name b)
  else String.ltb (Node.ID a) (Node.ID b).
Definition snapshot_less (a b : node) : bool :=
  if negb (f_eq (Node.Score a) (Node.Score b)) then f_lt (Node.Score b) (Node.Score a)
  else Node.Latency a <? Node.Latency b.
Definition prune_less (a b : node) : bool :=
  if negb (Bool.eqb (Node.Alive a) (Node.Alive b)) then Node.Alive a
  else if negb (f_eq (Node.Score a) (Node.Score b)) then f_lt (Node.Score b) (Node.Score a)
  else Node.Latency a <? Node.Latency b.

(** ** The snapshot *)

(** The file operations of [persistLocked]; the rename is what publishes the
    new snapshot. *)
Inductive io_step := CreateTemp | Chmod | Write | Sync | CloseTemp | Rename.
Definition io_steps : list io_step := [CreateTemp; Chmod; Write; Sync; CloseTemp; Rename].
Abbreviation io := (io_step → option error).
Fixpoint first_error (answers : io) (steps : list io_step) : option error :=
  match steps with
  | [] => None
  | step :: steps => match answers step with
                     | Some e => Some e
                     | None => first_error answers steps
                     end
  end.

Context `{MapRange} `{SnapshotCodec}.

Definition snapshot_limit : nat := 12000.
Definition take_snapshot (s : store) : Snapshot.t :=
  Snapshot.mk (take snapshot_limit (stable_sort snapshot_less (range_nodes (Store.nodes s))))
    (Store.hostAI s) (Store.lastFetch s) (Store.lastQual s).

(** [persistLocked] *)
Definition persistLocked (answers : io) (s : store) : option error * store :=
  if negb (Store.persistent s) then (None, s)
  else match marshal_snapshot (take_snapshot s) with
       | None => (Some (ErrMsg "json: unsupported value"), s)
       | Some b => match first_error answers io_steps with
                   | Some e => (Some e, s)
                   | None => (None, s <| Store.disk := Some b |>)
                   end
       end.

(** [Load] *)
Definition first_seen_at (now : Time) (n : node) : node :=
  if IsZero (Node.FirstSeenAt n) then n <| Node.FirstSeenAt := now |> else n.
Definition last_seen_at (t : Time) (n : node) : node :=
  if IsZero (Node.LastSeenAt n) then n <| Node.LastSeenAt := t |> else n.
Definition set_identity (n : node) : node :=
  n <| Node.ID := nodeID n |> <| Node.Fingerprint := Key n |>.
Definition load_node (now : Time) (n : node) : node :=
  let n := first_seen_at now (set_identity n) in
  last_seen_at (Node.FirstSeenAt n) n.
Definition load_nodes (now : Time) (l : list node) : gmap string node :=
  fold_left (λ m n, let n := load_node now n in <[Node.ID n := n]> m) l ∅.
Definition Load (now : Time) (s : store) : option error * store :=
  match Store.disk s with
  | None => (Some (ErrMsg "file does not exist"), s)
  | Some b =>
      match unmarshal_snapshot b with
      | None => (Some (ErrMsg "json"), s)
      | Some snap =>
          (None, s <| Store.nodes := load_nodes now (Snapshot.Nodes snap) |>
                   <| Store.hostAI := match Snapshot.HostAI snap with
                                      | Some m => Some m | None => Store.hostAI s end |>
                   <| Store.lastFetch := Snapshot.LastFetch snap |>
                   <| Store.lastQual := Snapshot.LastQual snap |>)
      end
  end.

(** [New], after the directory is made: an absent snapshot is not an error. *)
Definition New (now : Time) (disk : option string) : result store :=
  let s := Store.mk ∅ ∅ [] None None (Some ∅) true disk in
  match disk with
  | None => Ok s
  | Some _ => match Load now s with
              | (None, s) => Ok s
              | (Some e, _) => Err e
              end
  end.

(** ** Writing nodes *)

(** [mergeObservations], one condition after the other *)
Definition merge_first_seen (old dst : node) : node :=
  if IsZero (Node.FirstSeenAt dst) then dst <| Node.FirstSeenAt := Node.FirstSeenAt old |> else dst.
Definition merge_last_seen (old dst : node) : node :=
  if IsZero (Node.LastSeenAt dst) then dst <| Node.LastSeenAt := Node.LastSeenAt old |> else dst.
Definition merge_tested (old dst : node) : node :=
  if IsZero (Node.TestedAt dst) then
    dst <| Node.Alive := Node.Alive old |> <| Node.Latency := Node.Latency old |>
        <| Node.Error := Node.Error old |> <| Node.TestedAt := Node.TestedAt old |>
        <| Node.Quality := Node.Quality old |> <| Node.Score := Node.Score old |>
        <| Node.Grade := Node.Grade old |> <| Node.Tags := Node.Tags old |>
        <| Node.QualityFailures := Node.QualityFailures old |>
        <| Node.SuccessStreak := Node.SuccessStreak old |>
        <| Node.NextTestAt := Node.NextTestAt old |>
  else dst.
Definition merge_geo (old dst : node) : node :=
  if unset (Node.Country dst) then
    dst <| Node.Country := Node.Country old |> <| Node.City := Node.City old |>
        <| Node.ISP := Node.ISP old |> <| Node.ASN := Node.ASN old |>
        <| Node.EntryType := Node.EntryType old |>
  else dst.
Definition merge_ai (old dst : node) : node :=
  match Node.AIAccess dst with
  | None => dst <| Node.AIAccess := Node.AIAccess old |>
  | Some _ => dst
  end.
Definition merge_dial (old dst : node) : node :=
  match Node.Dial dst with
  | None => dst <| Node.Dial := Node.Dial old |> <| Node.Verified := Node.Verified old |>
  | Some _ => dst
  end.
Definition merge_purity (old dst : node) : node :=
  match Node.Purity dst with
  | None => dst <| Node.Purity := Node.Purity old |>
  | Some _ => dst
  end.
Definition mergeObservations (dst old : node) : node :=
  merge_purity old (merge_dial old (merge_ai old (merge_geo old
    (merge_tested old (merge_last_seen old (merge_first_seen old dst)))))).

(** [ReplaceNodes] *)
Definition by_key (nodes : gmap string node) : gmap string node :=
  fold_left (λ m n, <[Key n := n]> m) (range_nodes nodes) ∅.
Definition replaced (old : gmap string node) (now : Time) (n : node) : node :=
  let n := match old !! Key n with Some o => mergeObservations n o | None => n end in
  set_identity (last_seen_at now (first_seen_at now n)).
Definition replace_nodes (old : gmap string node) (now : Time) (l : list (option node)) :
    gmap string node :=
  fold_left (λ m n, match n with
                    | None => m
                    | Some n => let n := replaced old now n in <[Node.ID n := cloneNode n]> m
                    end) l ∅.
Definition ReplaceNodes (answers : io) (now : Time) (l : list (option node)) (s : store) :
    option error * store :=
  persistLocked answers
    (s <| Store.nodes := replace_nodes (by_key (Store.nodes s)) now l |>
       <| Store.lastFetch := Some now |>).

(** [UpsertNodes], on nodes that are not nil *)
Definition keep_set (new old : string) : string := if unset new then old else new.
Definition upsert_tests (n old : node) : node :=
  old <| Node.Alive := Node.Alive n |> <| Node.Latency := Node.Latency n |>
    <| Node.Error := Node.Error n |> <| Node.TestedAt := Node.TestedAt n |>
    <| Node.Quality := Node.Quality n |> <| Node.AIAccess := Node.AIAccess n |>
    <| Node.Score := Node.Score n |> <| Node.Grade := Node.Grade n |>
    <| Node.QualityFailures := Node.QualityFailures n |>
    <| Node.SuccessStreak := Node.SuccessStreak n |> <| Node.NextTestAt := Node.NextTestAt n |>.
Definition upsert_seen (n old : node) : node :=
  old <| Node.FirstSeenAt := if IsZero (Node.FirstSeenAt n) then Node.FirstSeenAt old
                             else Node.FirstSeenAt n |>
      <| Node.LastSeenAt := if IsZero (Node.LastSeenAt n) then Node.LastSeenAt old
                            else Node.LastSeenAt n |>
      <| Node.Tags := match Node.Tags n with [] => Node.Tags old | tags => tags end |>.
Definition upsert_geo (n old : node) : node :=
  old <| Node.Country := keep_set (Node.Country n) (Node.Country old) |>
      <| Node.City := keep_set (Node.City n) (Node.City old) |>
      <| Node.ISP := keep_set (Node.ISP n) (Node.ISP old) |>
      <| Node.ASN := keep_set (Node.ASN n) (Node.ASN old) |>
      <| Node.EntryType := keep_set (Node.EntryType n) (Node.EntryType old) |>.
Definition upsert_dial (n old : node) : node :=
  match Node.Dial n with
  | Some d => old <| Node.Dial := Some d |> <| Node.Verified := Node.Verified n |>
  | None => old
  end.
Definition upsert_purity (n old : node) : node :=
  match Node.Purity n with Some p => old <| Node.Purity := Some p |> | None => old end.
Definition upsert_verified (n old : node) : node :=
  if Node.Verified n then old <| Node.Verified := true |> else old.
Definition upsert_uri (n old : node) : node :=
  old <| Node.RawURI := keep_set (Node.RawURI n) (Node.RawURI old) |>.
Definition upserted (old n : node) : node :=
  upsert_uri n (upsert_verified n (upsert_purity n (upsert_dial n (upsert_geo n
    (upsert_seen n (upsert_tests n old)))))).
Definition upsert_node (m : gmap string node) (n : node) : gmap string node :=
  let n := n <| Node.ID := nodeID n |> in
  let n := cloneNode n in
  match m !! Node.ID n with
  | Some old => <[Node.ID n := upserted old n]> m
  | None => <[Node.ID n := n]> m
  end.
Definition UpsertNodes (answers : io) (now : Time) (l : list node) (s : store) :
    option error * store :=
  persistLocked answers
    (s <| Store.nodes := fold_left upsert_node l (Store.nodes s) |>
       <| Store.lastQual := Some now |>).

(** [Prune]: the number of nodes removed *)
Definition prune_keep (o : PruneOptions.t) (n : node) : bool :=
  let tested := negb (IsZero (Node.TestedAt n)) in
  if PruneOptions.DropDead o && tested && negb (Node.Alive n) && (3 <=? Node.QualityFailures n)
  then false
  else if f_lt f_zero (PruneOptions.MinScoreKeep o) && tested
          && f_lt (Node.Score n) (PruneOptions.MinScoreKeep o)
          && negb (PruneOptions.KeepUntested o && negb tested)
  then false
  else true.
Definition pruned (o : PruneOptions.t) (s : store) : list node :=
  truncate (PruneOptions.MaxNodes o)
    (stable_sort prune_less (List.filter (prune_keep o) (range_nodes (Store.nodes s)))).
Definition Prune (answers : io) (o : PruneOptions.t) (s : store) : Z * option error * store :=
  let s' := s <| Store.nodes := fold_left (λ m n, <[Node.ID n := n]> m) (pruned o s) ∅ |> in
  let '(e, s'') := persistLocked answers s' in
  (Z.of_nat (size (Store.nodes s)) - Z.of_nat (size (Store.nodes s')), e, s'').

Definition Flush (answers : io) (s : store) : option error * store := persistLocked answers s.

(** ** Reading *)

Definition ListNodes (f : NodeFilter.t) (s : store) : list node :=
  truncate (NodeFilter.Limit f)
    (stable_sort list_less
       (cloneNode <$> List.filter (Match f) (range_nodes (Store.nodes s)))).
Definition AllNodes (s : store) : list node := ListNodes NodeFilter.zero s.
Definition GetNode (id : string) (s : store) : option node := cloneNode <$> Store.nodes s !! id.
Definition Count (s : store) : Z := Z.of_nat (size (Store.nodes s)).
Definition ExportURIs (f : NodeFilter.t) (s : store) : list string :=
  Node.RawURI <$> List.filter (λ n, negb (unset (Node.RawURI n))) (ListNodes f s).

(** [SetHostAI], [HostAI]; the latter dereferences every entry. *)
Definition SetHostAI (answers : io) (m : option (gmap string (option AIProbeResult.t))) (s : store) :
    option error * store :=
  persistLocked answers (s <| Store.hostAI := m |>).
Definition HostAI (s : store) : result (gmap string AIProbeResult.t) :=
  let m := default ∅ (Store.hostAI s) in
  if bool_decide (map_Forall (λ _ v, is_Some v) m) then Ok (omap id m)
  else Err (ErrPanic "nil pointer dereference").

(** ** Jobs *)

Definition SaveJob (j : Job.t) (s : store) : store :=
  let s := match Store.jobs s !! Job.ID j with
           | Some _ => s
           | None => s <| Store.jobOrder := (Store.jobOrder s ++ [Job.ID j])%list |>
           end in
  s <| Store.jobs := <[Job.ID j := cloneJob j]> (Store.jobs s) |>.
Definition GetJob (id : string) (s : store) : option Job.t := cloneJob <$> Store.jobs s !! id.

(** The loop of [ListJobsPage], from the last job to the first *)
Fixpoint jobs_page (jobs : gmap string Job.t) (cursor : string) (started : bool) (room : nat)
    (ids : list string) : list Job.t :=
  match ids with
  | [] => []
  | id :: ids =>
      match room with
      | O => []
      | S room' =>
          if negb started then jobs_page jobs cursor (id =? cursor)%string room ids
          else match jobs !! id with
               | Some j => cloneJob j :: jobs_page jobs cursor true room' ids
               | None => jobs_page jobs cursor true room ids
               end
      end
  end.
Definition ListJobsPage (limit : Z) (cursor : string) (s : store) : list Job.t :=
  let limit := if limit <=? 0 then 20 else limit in
  jobs_page (Store.jobs s) cursor (cursor =? "")%string (Z.to_nat limit) (rev (Store.jobOrder s)).
Definition ListJobs (limit : Z) (s : store) : list Job.t := ListJobsPage limit "" s.

(** ** The invariant *)

(** What the key of a node depends on *)
Definition ident (n : node) :=
  (Node.Protocol n, Node.Server n, Node.Port n, Node.UUID n, Node.Password n, Node.Method n,
   Node.Network n, Node.TLS n, Node.SNI n, Node.Path n, Node.Host n, Node.Flow n,
   Node.Security n, Node.ALPN n, Node.Extra n).
Lemma Key_ident n m : ident n = ident m → Key n = Key m.
Proof.
  unfold ident. intros [=]. unfold Key, canonical, key_parts.
  repeat match goal with H : _ = _ |- _ => rewrite H; clear H end. reflexivity.
Qed.
Lemma nodeID_ident n m : ident n = ident m → nodeID n = nodeID m.
Proof. intros Hi. unfold nodeID. by rewrite (Key_ident n m). Qed.

(** A stored node carries its identifier, which is that of its identity. *)
Definition node_ok (id : string) (n : node) : Prop := Node.ID n = id ∧ nodeID n = id.
Definition nodes_ok (m : gmap string node) : Prop := map_Forall node_ok m.

Record jobs_ok (s : store) : Prop := {
  jobs_order_NoDup : NoDup (Store.jobOrder s);
  jobs_order_dom id : id ∈ Store.jobOrder s ↔ is_Some (Store.jobs s !! id);
  jobs_ids : map_Forall (λ id j, Job.ID j = id) (Store.jobs s);
}.
Definition store_ok (s : store) : Prop := nodes_ok (Store.nodes s) ∧ jobs_ok s.

Lemma nodes_ok_keyed m : nodes_ok m → Sql.keyed Node.ID m.
Proof. intros Hm k n Hk. by destruct (Hm k n Hk). Qed.

Lemma ident_cloneNode n : ident (cloneNode n) = ident n.
Proof. by destruct n. Qed.
Lemma ID_cloneNode n : Node.ID (cloneNode n) = Node.ID n.
Proof. by destruct n. Qed.
Lemma ident_set_ID n id : ident (n <| Node.ID := id |>) = ident n.
Proof. by destruct n. Qed.
Lemma ident_mergeObservations n o : ident (mergeObservations n o) = ident n.
Proof.
  unfold mergeObservations.
  transitivity (ident (merge_dial o (merge_ai o (merge_geo o (merge_tested o
    (merge_last_seen o (merge_first_seen o n))))))).
  { unfold merge_purity. by destruct (merge_dial _ _), Purity. }
  transitivity (ident (merge_ai o (merge_geo o (merge_tested o (merge_last_seen o (merge_first_seen o n)))))).
  { unfold merge_dial. by destruct (merge_ai _ _), Dial. }
  transitivity (ident (merge_geo o (merge_tested o (merge_last_seen o (merge_first_seen o n))))).
  { unfold merge_ai. by destruct (merge_geo _ _), AIAccess. }
  transitivity (ident (merge_tested o (merge_last_seen o (merge_first_seen o n)))).
  { unfold merge_geo. destruct (merge_tested _ _). by case_if. }
  transitivity (ident (merge_last_seen o (merge_first_seen o n))).
  { unfold merge_tested. destruct (merge_last_seen _ _). by case_if. }
  transitivity (ident (merge_first_seen o n)).
  { unfold merge_last_seen. destruct (merge_first_seen _ _). by case_if. }
  unfold merge_first_seen. destruct n. by case_if.
Qed.
Lemma ident_seen now t n : ident (last_seen_at t (first_seen_at now n)) = ident n.
Proof.
  transitivity (ident (first_seen_at now n)).
  - unfold last_seen_at. destruct (first_seen_at now n). by case_if.
  - unfold first_seen_at. destruct n. by case_if.
Qed.
Lemma set_identity_spec n :
  ident (set_identity n) = ident n ∧ Node.ID (set_identity n) = nodeID n.
Proof. by destruct n. Qed.
Lemma replaced_spec old now n :
  ident (replaced old now n) = ident n ∧ Node.ID (replaced old now n) = nodeID n.
Proof.
  unfold replaced. destruct (set_identity_spec (last_seen_at now (first_seen_at now
    (match old !! Key n with Some o => mergeObservations n o | None => n end)))) as [-> ->].
  rewrite (nodeID_ident _ _ (ident_seen _ _ _)), ident_seen.
  destruct (old !! Key n) as [o|]; [|done].
  by rewrite (nodeID_ident _ _ (ident_mergeObservations n o)), ident_mergeObservations.
Qed.
Lemma upserted_spec old n :
  ident (upserted old n) = ident old ∧ Node.ID (upserted old n) = Node.ID old.
Proof.
  unfold upserted. set (a := upsert_tests n old). set (b := upsert_seen n a).
  set (c := upsert_geo n b). set (d := upsert_dial n c). set (e := upsert_purity n d).
  set (f := upsert_verified n e).
  assert (ident a = ident old ∧ Node.ID a = Node.ID old) as [<- <-] by by destruct old.
  assert (ident b = ident a ∧ Node.ID b = Node.ID a) as [<- <-] by by unfold b; destruct a.
  assert (ident c = ident b ∧ Node.ID c = Node.ID b) as [<- <-] by by unfold c; destruct b.
  assert (ident d = ident c ∧ Node.ID d = Node.ID c) as [<- <-]
    by (unfold d, upsert_dial; destruct c; by case_match).
  assert (ident e = ident d ∧ Node.ID e = Node.ID d) as [<- <-]
    by (unfold e, upsert_purity; destruct d; by case_match).
  assert (ident f = ident e ∧ Node.ID f = Node.ID e) as [<- <-]
    by (unfold f, upsert_verified; destruct e; by case_match).
  by destruct f.
Qed.

Lemma node_ok_insert m n : nodes_ok m → node_ok (Node.ID n) n → nodes_ok (<[Node.ID n := n]> m).
Proof. intros Hm Hn. by apply map_Forall_insert_2. Qed.
Lemma fold_nodes_ok {A} (f : gmap string node → A → gmap string node) l m :
  (∀ m x, nodes_ok m → nodes_ok (f m x)) → nodes_ok m → nodes_ok (fold_left f l m).
Proof. intros Hf. revert m; induction l; simpl; auto. Qed.
Lemma nodes_ok_empty : nodes_ok ∅.
Proof. apply map_Forall_empty. Qed.

Lemma load_node_ok now n : node_ok (Node.ID (load_node now n)) (load_node now n).
Proof.
  unfold load_node. set (t := Node.FirstSeenAt _).
  destruct (set_identity_spec n) as [Hi Hid]. split; [done|].
  rewrite (nodeID_ident _ _ (ident_seen now t (set_identity n))).
  rewrite (nodeID_ident _ _ Hi), <-Hid.
  unfold last_seen_at, first_seen_at. destruct (set_identity n). by repeat case_if.
Qed.

Lemma load_nodes_ok now l : nodes_ok (load_nodes now l).
Proof.
  apply fold_nodes_ok, nodes_ok_empty. intros m n Hm. apply node_ok_insert; [done|].
  apply load_node_ok.
Qed.

Lemma clone_ok n id : node_ok id n → node_ok id (cloneNode n).
Proof. intros [Ha Hb]. split; [by rewrite ID_cloneNode|]. by rewrite (nodeID_ident _ _ (ident_cloneNode n)). Qed.

Lemma replaced_ok old now n : node_ok (Node.ID (replaced old now n)) (replaced old now n).
Proof.
  destruct (replaced_spec old now n) as [Hi Hid]. split; [done|]. by rewrite Hid, (nodeID_ident _ _ Hi).
Qed.

Lemma replace_nodes_ok old now l : nodes_ok (replace_nodes old now l).
Proof.
  apply fold_nodes_ok, nodes_ok_empty. intros m [n|] Hm; [|done]. apply map_Forall_insert_2; [|done].
  apply clone_ok, replaced_ok.
Qed.

Lemma upsert_node_ok m n : nodes_ok m → nodes_ok (upsert_node m n).
Proof.
  intros Hm. unfold upsert_node. set (c := cloneNode _).
  assert (node_ok (Node.ID c) c) as Hc.
  { unfold c. rewrite ID_cloneNode. apply clone_ok. split; [done|].
    rewrite (nodeID_ident _ _ (ident_set_ID n _)). by destruct n. }
  clearbody c. destruct (m !! Node.ID c) as [old|] eqn:E; [|by apply node_ok_insert].
  apply map_Forall_insert_2; [|done]. destruct (upserted_spec old c) as [Hi Hid].
  destruct (Hm _ _ E) as [H1' H2']. split; [by rewrite Hid|]. by rewrite (nodeID_ident _ _ Hi).
Qed.

Lemma persist_nodes answers s :
  Store.nodes (persistLocked answers s).2 = Store.nodes s ∧
  Store.jobs (persistLocked answers s).2 = Store.jobs s ∧
  Store.jobOrder (persistLocked answers s).2 = Store.jobOrder s.
Proof. unfold persistLocked. repeat case_match; by destruct s. Qed.
Lemma persist_ok answers s : store_ok s → store_ok (persistLocked answers s).2.
Proof.
  destruct (persist_nodes answers s) as (Hn & Hj & Ho). intros [H1' [H2' H3' H4']].
  split; [by rewrite Hn|]. split; by rewrite ?Hj, ?Ho.
Qed.
Lemma store_ok_nodes s s' :
  store_ok s → nodes_ok (Store.nodes s') → Store.jobs s' = Store.jobs s →
  Store.jobOrder s' = Store.jobOrder s → store_ok s'.
Proof. intros [_ [? ? ?]] Hm Hj Ho. split; [done|]. split; by rewrite ?Hj, ?Ho. Qed.

Lemma SaveJob_ok j s : store_ok s → store_ok (SaveJob j s).
Proof.
  intros [Hn [Hnd Hdom Hids]]. unfold SaveJob, cloneJob.
  destruct (Store.jobs s !! Job.ID j) as [o|] eqn:E.
  - split; [by destruct s|]. destruct s; simpl in *. split; simpl; [done| |].
    + intros id. rewrite Hdom. destruct (decide (Job.ID j = id)) as [<-|];
        simplify_map_eq; [naive_solver|done].
    + by apply map_Forall_insert_2.
  - split; [by destruct s|]. destruct s; simpl in *. split; simpl.
    + apply NoDup_app. split_and!; [done| |apply NoDup_singleton].
      intros id Hin%Hdom ->%list_elem_of_singleton. rewrite E in Hin. by destruct Hin.
    + intros id. rewrite elem_of_app, list_elem_of_singleton, Hdom.
      destruct (decide (Job.ID j = id)) as [<-|]; simplify_map_eq; naive_solver.
    + by apply map_Forall_insert_2.
Qed.

Lemma pruned_sub o s n : n ∈ pruned o s → n ∈ rows (Store.nodes s) ∧ prune_keep o n = true.
Proof.
  unfold pruned. intros Hn%truncate_sublist.
  rewrite elem_of_stable_sort, elem_of_list_filter_bool, range_nodes_perm in Hn. done.
Qed.

Lemma prune_nodes_ok o s :
  nodes_ok (Store.nodes s) → nodes_ok (fold_left (λ m n, <[Node.ID n := n]> m) (pruned o s) ∅).
Proof.
  intros Hs. assert (Hall : Forall (λ n, node_ok (Node.ID n) n) (pruned o s)).
  { rewrite Forall_forall. intros n Hn. apply pruned_sub in Hn as [[k Hk]%elem_of_rows _].
    pose proof (Hs _ _ Hk) as [<- ?]. by split. }
  pose proof nodes_ok_empty as Hm. revert Hm. generalize (∅ : gmap string node).
  induction Hall as [|n l Hn Hall IH]; intros m Hm; simpl; [done|].
  apply IH. by apply node_ok_insert.
Qed.

Lemma Prune_state answers o s :
  (Prune answers o s).2 = (persistLocked answers
    (s <| Store.nodes := fold_left (λ m n, <[Node.ID n := n]> m) (pruned o s) ∅ |>)).2.
Proof. unfold Prune. by destruct (persistLocked _ _). Qed.

End store.

Section store_steps.
Context `{Unicode} `{Crypto} `{SnapshotCodec}.

(** The operations, as the steps of a store: the environment picks, at every
    step, the order of the ranges, the answers of the file system and the
    clock. *)
Inductive step : store → store → Prop :=
  | step_replace (R : MapRange) answers now l s : step s (ReplaceNodes answers now l s).2
  | step_upsert (R : MapRange) answers now l s : step s (UpsertNodes answers now l s).2
  | step_prune (R : MapRange) answers o s : step s (Prune answers o s).2
  | step_host_ai (R : MapRange) answers m s : step s (SetHostAI answers m s).2
  | step_flush (R : MapRange) answers s : step s (Flush answers s).2
  | step_load now s : step s (Load now s).2
  | step_job j s : step s (SaveJob j s).

Lemma step_ok s s' : step s s' → store_ok s → store_ok s'.
Proof.
  intros Hstep Hok. destruct Hstep as [R answers now l s|R answers now l s|R answers o s|R answers m s|R answers s|now s|j s].
  - apply persist_ok. eapply store_ok_nodes; [exact Hok| | |]; try by destruct s.
    apply replace_nodes_ok.
  - apply persist_ok. eapply store_ok_nodes; [exact Hok| | |]; try by destruct s.
    apply fold_nodes_ok; [apply upsert_node_ok|]. apply Hok.
  - rewrite Prune_state. apply persist_ok. eapply store_ok_nodes; [exact Hok| | |]; try by destruct s.
    apply prune_nodes_ok, Hok.
  - apply persist_ok. eapply store_ok_nodes; [exact Hok| | |]; try by destruct s. by destruct s, Hok.
  - by apply persist_ok.
  - unfold Load. destruct (Store.disk s) as [b|]; [|done].
    destruct (unmarshal_snapshot b) as [snap|]; [|done].
    eapply store_ok_nodes; [exact Hok| | |]; try by destruct s. apply load_nodes_ok.
  - by apply SaveJob_ok.
Qed.

Lemma steps_ok s s' : rtc step s s' → store_ok s → store_ok s'.
Proof. induction 1; eauto using step_ok. Qed.

(** C25: Whatever operations run, in whatever order the maps are ranged over and
    whatever the file system answers, every node of the store is filed under
    its own identifier, which is the digest of its identity; every job is
    filed under its own; and the list of jobs has each job exactly once. *)
Theorem store_invariant s s' : rtc step s s' → store_ok s → store_ok s'.
Proof. apply steps_ok. Qed.
End store_steps.

(** ** Listings *)

Section listings.
Context `{Unicode}.

#[local] Instance score_cmp : Comparator scored (λ a b, f_compare (Node.Score b) (Node.Score a)).
Proof. by apply f_comparator_desc. Qed.

Definition list_cmp (a b : node) : comparison :=
  lexc (f_compare (Node.Score b) (Node.Score a))
    (lexc (Z.compare (Node.Latency a) (Node.Latency b))
      (lexc (String.compare (Node.Name a) (Node.Name b)) (String.compare (Node.ID a) (Node.ID b)))).
Definition snapshot_cmp (a b : node) : comparison :=
  lexc (f_compare (Node.Score b) (Node.Score a)) (Z.compare (Node.Latency a) (Node.Latency b)).
Definition prune_cmp (a b : node) : comparison :=
  lexc (Z.compare (flag (Node.Alive a)) (flag (Node.Alive b))) (snapshot_cmp a b).

Ltac lex_keys := repeat apply lex_comparator; first
  [ apply score_cmp | apply (Z_comparator _ Node.Latency) | apply (string_comparator _ Node.Name)
  | apply (string_comparator _ Node.ID) | apply (Z_comparator _ (λ a, flag (Node.Alive a))) ].

#[local] Instance list_comparator : Comparator scored list_cmp.
Proof. unfold list_cmp. lex_keys. Qed.
#[local] Instance prune_comparator : Comparator scored prune_cmp.
Proof. unfold prune_cmp, snapshot_cmp. lex_keys. Qed.

Lemma last_string s t : String.ltb s t = lt_of (String.compare s t).
Proof. unfold String.ltb. by destruct (String.compare s t). Qed.
Lemma list_less_cmp a b : scored a → scored b → list_less a b = lt_of (list_cmp a b).
Proof.
  intros Ha Hb. unfold list_less, list_cmp.
  rewrite <-lex_score, <-lex_latency, <-lex_string, <-last_string by done. done.
Qed.
Lemma prune_less_cmp a b : scored a → scored b → prune_less a b = lt_of (prune_cmp a b).
Proof.
  intros Ha Hb. unfold prune_less, prune_cmp, snapshot_cmp.
  rewrite <-lex_flag, <-lex_score, <-lt_latency by done. done.
Qed.
#[export] Instance list_weak : StrictWeak scored list_less.
Proof. eapply strict_weak_ext; [apply comparator_weak, list_comparator|apply list_less_cmp]. Qed.
#[export] Instance prune_weak : StrictWeak scored prune_less.
Proof. eapply strict_weak_ext; [apply comparator_weak, prune_comparator|apply prune_less_cmp]. Qed.

Lemma list_less_total a b :
  scored a → scored b → list_less a b = false → list_less b a = false → Node.ID a = Node.ID b.
Proof.
  intros Ha Hb. rewrite !list_less_cmp by done.
  rewrite (cmp_opp (P := scored) (cmp := list_cmp) a b) by done.
  destruct (list_cmp a b) eqn:E; try done. intros _ _. unfold list_cmp in E.
  destruct (f_compare _ _); try done. simpl in E.
  destruct (Z.compare _ _); try done. simpl in E.
  destruct (String.compare (Node.Name a) _); try done. simpl in E.
  by apply String.compare_eq_iff in E.
Qed.

(** C26: A listing is determined by the contents of the store.  When no score
    is NaN, [ListNodes] returns the front of the matching nodes in the order of
    score, latency, name and identifier, at most as many as the limit, and the
    result does not depend on the order in which the map was ranged over. *)
Theorem list_deterministic `{Crypto} (R1 R2 : MapRange) (f : NodeFilter.t) (s : store) :
  nodes_ok (Store.nodes s) → map_Forall (λ _ n, scored n) (Store.nodes s) →
  @ListNodes _ R1 f s = @ListNodes _ R2 f s ∧
  best_first scored list_less (cloneNode <$> List.filter (Match f) (@range_nodes R1 (Store.nodes s)))
    (@ListNodes _ R1 f s) ∧
  (0 < NodeFilter.Limit f → Z.of_nat (length (@ListNodes _ R1 f s)) ≤ NodeFilter.Limit f).
Proof.
  intros Hok Hs.
  assert (Hrange : ∀ (R : MapRange) n, n ∈ cloneNode <$> List.filter (Match f) (@range_nodes R (Store.nodes s)) →
    ∃ m, n = cloneNode m ∧ m ∈ rows (Store.nodes s)).
  { intros R n (m & -> & Hm)%list_elem_of_fmap. rewrite elem_of_list_filter_bool, range_nodes_perm in Hm.
    exists m. tauto. }
  assert (Hscored : ∀ R : MapRange, Forall scored
    (cloneNode <$> List.filter (Match f) (@range_nodes R (Store.nodes s)))).
  { intros R. rewrite Forall_forall. intros n (m & -> & [k Hk]%elem_of_rows)%Hrange.
    specialize (Hs _ _ Hk). by destruct m. }
  split_and!.
  - unfold ListNodes. f_equal. apply (stable_sort_unique scored list_less); [apply Hscored| |].
    + intros x y Hx Hy Hxy Hyx.
      pose proof (Hrange _ _ Hx) as (a & -> & Ha). pose proof (Hrange _ _ Hy) as (b & -> & Hb).
      f_equal. apply (rows_NoDup_id (key := Node.ID) (Store.nodes s)); [by apply nodes_ok_keyed|done|done|].
      rewrite <-(ID_cloneNode a), <-(ID_cloneNode b). pose proof (Hscored R1) as Hall.
      rewrite Forall_forall in Hall. apply list_less_total; auto.
    + apply fmap_Permutation, filter_perm. by rewrite !range_nodes_perm.
  - apply truncate_best_first; [apply _|apply Hscored].
  - apply length_truncate.
Qed.

(** ** Pruning *)

(** [KeepUntested] is read in one place, where it cannot matter. *)
Lemma prune_keep_untested o b n :
  prune_keep (o <| PruneOptions.KeepUntested := b |>) n = prune_keep o n.
Proof.
  destruct o. unfold prune_keep. simpl. destruct (IsZero (Node.TestedAt n)); simpl;
    by rewrite ?andb_false_r, ?andb_true_r.
Qed.

Definition file_all (l : list node) (m : gmap string node) : gmap string node :=
  fold_left (λ m n, <[Node.ID n := n]> m) l m.

Lemma lookup_file_all l m k n :
  (∀ x y, x ∈ l → y ∈ l → Node.ID x = Node.ID y → x = y) → (∀ x, x ∈ l → m !! Node.ID x = None) →
  NoDup l →
  file_all l m !! k = Some n ↔ (n ∈ l ∧ Node.ID n = k) ∨ m !! k = Some n.
Proof.
  intros Hinj Hm Hnd. revert m Hinj Hm; induction Hnd as [|x l Hx Hnd IH]; intros m Hinj Hm; simpl.
  { set_solver. }
  unfold file_all in IH. rewrite IH.
  - rewrite elem_of_cons. destruct (decide (Node.ID x = k)) as [<-|Hne].
    + rewrite lookup_insert_eq. split.
      * intros [[? ?]|[= ->]]; auto.
      * intros [[[->|?] ?]|Hk]; auto. rewrite Hm in Hk by (by left). done.
    + rewrite lookup_insert_ne by done. naive_solver.
  - intros a b Ha Hb. apply Hinj; by right.
  - intros a Ha. rewrite lookup_insert_ne; [apply Hm; by right|].
    intros Heq. apply Hx. rewrite (Hinj x a); [done|by left|by right|done].
Qed.

Lemma size_rows {A} (m : gmap string A) : size m = length (rows m).
Proof. unfold rows. by rewrite length_fmap, length_map_to_list. Qed.

Lemma size_file_all l :
  (∀ x y, x ∈ l → y ∈ l → Node.ID x = Node.ID y → x = y) → NoDup l →
  size (file_all l ∅) = length l.
Proof.
  intros Hinj Hnd. assert (rows (file_all l ∅) ≡ₚ l) as Hp.
  { apply NoDup_Permutation; [|done|].
    - apply (rows_NoDup (key := Node.ID)). intros k n. rewrite lookup_file_all by set_solver.
      rewrite lookup_empty. naive_solver.
    - intros n. rewrite elem_of_rows. split.
      + intros [k Hk]. rewrite lookup_file_all in Hk by set_solver. rewrite lookup_empty in Hk. naive_solver.
      + intros Hn. exists (Node.ID n). rewrite lookup_file_all by set_solver. auto. }
  rewrite size_rows. by apply Permutation_length.
Qed.

(** Pruning keeps the best and removes the rest.  When no score is NaN, the
    store afterwards holds exactly the front, by aliveness, score and latency,
    of the nodes that pass the criteria (as many as the limit allows); the
    number returned is the number of nodes removed; and the option
    [KeepUntested] makes no difference. *)
Theorem store_prune_exact `{Crypto, MapRange, SnapshotCodec} answers (o : PruneOptions.t) (s : store) :
  nodes_ok (Store.nodes s) → map_Forall (λ _ n, scored n) (Store.nodes s) →
  let '(removed, _, s') := Prune answers o s in
  (∀ k n, Store.nodes s' !! k = Some n ↔ Store.nodes s !! k = Some n ∧ n ∈ pruned o s) ∧
  best_first scored prune_less (List.filter (prune_keep o) (range_nodes (Store.nodes s))) (pruned o s) ∧
  removed = Count s - Count s' ∧ Count s' = Z.of_nat (length (pruned o s)) ∧
  ∀ b, Prune answers (o <| PruneOptions.KeepUntested := b |>) s = Prune answers o s.
Proof.
  intros Hok Hs. pose proof (nodes_ok_keyed _ Hok) as Hkeyed.
  assert (Hbest : best_first scored prune_less
    (List.filter (prune_keep o) (range_nodes (Store.nodes s))) (pruned o s)).
  { apply truncate_best_first; [apply _|]. rewrite Forall_forall. intros n.
    rewrite elem_of_list_filter_bool, range_nodes_perm. intros [[k Hk]%elem_of_rows _].
    by specialize (Hs _ _ Hk). }
  assert (Hinj : ∀ x y, x ∈ pruned o s → y ∈ pruned o s → Node.ID x = Node.ID y → x = y).
  { intros x y [Hx _]%pruned_sub [Hy _]%pruned_sub. by apply (rows_NoDup_id (key := Node.ID) (Store.nodes s)). }
  assert (Hnd : NoDup (pruned o s)).
  { destruct Hbest as (rest & Hp & _).
    assert (NoDup (pruned o s ++ rest)) as Hnd; [|by apply NoDup_app in Hnd as [? _]].
    rewrite Hp, NoDup_ListNoDup. apply List.NoDup_filter. rewrite <-NoDup_ListNoDup, range_nodes_perm.
    by apply (rows_NoDup (key := Node.ID)). }
  assert (Hopt : ∀ b, pruned (o <| PruneOptions.KeepUntested := b |>) s = pruned o s).
  { intros b. unfold pruned. destruct o as [? ? ? k]. f_equal. f_equal. apply List.filter_ext.
    intros n. apply (prune_keep_untested (PruneOptions.mk _ _ _ k)). }
  unfold Prune at 1. fold (file_all (pruned o s) ∅).
  destruct (persist_nodes answers (s <| Store.nodes := file_all (pruned o s) ∅ |>)) as (Hn & _ & _).
  destruct (persistLocked _ _) as [e s']. simpl in Hn.
  assert (Store.nodes s' = file_all (pruned o s) ∅) as Hn' by by destruct s.
  split_and!.
  - intros k n. rewrite Hn', lookup_file_all by set_solver. rewrite lookup_empty. split.
    + intros [[Hin <-]|?]; [|done]. split; [|done]. apply pruned_sub in Hin as [[k Hk]%elem_of_rows _].
      by rewrite (Hkeyed _ _ Hk).
    + intros [Hk Hin]. left. split; [done|]. by apply Hkeyed.
  - done.
  - unfold Count. rewrite Hn'. by destruct s.
  - unfold Count. by rewrite Hn', size_file_all.
  - intros b. unfold Prune. by rewrite Hopt.
Qed.
End listings.

(** ** What a replacement keeps *)

Section history.
Context `{Unicode} `{Crypto} `{MapRange} `{SnapshotCodec}.

(** The observations of a node: the outcome of its last test, when it was first
    seen, and whether a dial verified it *)
Definition tested (n : node) :=
  (Node.Alive n, Node.Latency n, Node.Error n, Node.TestedAt n, Node.Quality n, Node.Score n,
   Node.Grade n, Node.Tags n, Node.QualityFailures n, Node.SuccessStreak n, Node.NextTestAt n).

Ltac keeps f g := unfold f; destruct g; repeat case_match; reflexivity.

Lemma merge_tested_spec n o :
  tested (mergeObservations n o) = if IsZero (Node.TestedAt n) then tested o else tested n.
Proof.
  unfold mergeObservations.
  set (a := merge_first_seen o n). set (b := merge_last_seen o a). set (c := merge_tested o b).
  set (d := merge_geo o c). set (e := merge_ai o d). set (f := merge_dial o e).
  assert (tested a = tested n) as Ha by (unfold a; keeps merge_first_seen n).
  assert (tested b = tested a) as Hb by (unfold b; keeps merge_last_seen a).
  assert (tested d = tested c) as Hd by (unfold d; keeps merge_geo c).
  assert (tested e = tested d) as He by (unfold e; keeps merge_ai d).
  assert (tested f = tested e) as Hf by (unfold f; keeps merge_dial e).
  transitivity (tested f); [keeps merge_purity f|]. rewrite Hf, He, Hd, <-Ha, <-Hb.
  assert (Node.TestedAt b = Node.TestedAt n) as <-.
  { rewrite <-Hb in Ha. unfold tested in Ha. congruence. }
  rewrite Hb in *. unfold c, merge_tested. destruct b. by case_if.
Qed.

Lemma merge_seen_spec n o :
  Node.FirstSeenAt (mergeObservations n o)
  = if IsZero (Node.FirstSeenAt n) then Node.FirstSeenAt o else Node.FirstSeenAt n.
Proof.
  unfold mergeObservations.
  set (a := merge_first_seen o n). set (b := merge_last_seen o a). set (c := merge_tested o b).
  set (d := merge_geo o c). set (e := merge_ai o d). set (f := merge_dial o e).
  assert (Node.FirstSeenAt b = Node.FirstSeenAt a) as Hb by (unfold b; keeps merge_last_seen a).
  assert (Node.FirstSeenAt c = Node.FirstSeenAt b) as Hc by (unfold c; keeps merge_tested b).
  assert (Node.FirstSeenAt d = Node.FirstSeenAt c) as Hd by (unfold d; keeps merge_geo c).
  assert (Node.FirstSeenAt e = Node.FirstSeenAt d) as He by (unfold e; keeps merge_ai d).
  assert (Node.FirstSeenAt f = Node.FirstSeenAt e) as Hf by (unfold f; keeps merge_dial e).
  transitivity (Node.FirstSeenAt f); [keeps merge_purity f|].
  rewrite Hf, He, Hd, Hc, Hb. unfold a. keeps merge_first_seen n.
Qed.

Definition stored_as (r n : node) : Prop :=
  ident r = ident n ∧ tested r = tested n ∧
  Node.FirstSeenAt r = Node.FirstSeenAt n.

Lemma set_identity_stored n : stored_as (set_identity n) n.
Proof. by destruct n. Qed.
Lemma clone_stored n : stored_as (cloneNode n) n.
Proof. by destruct n. Qed.

Lemma replaced_fields old now n :
  let m := match old !! Key n with Some o => mergeObservations n o | None => n end in
  tested (replaced old now n) = tested m ∧
  Node.FirstSeenAt (replaced old now n)
    = if IsZero (Node.FirstSeenAt m) then now else Node.FirstSeenAt m.
Proof.
  intros m. unfold replaced. fold m. set (a := first_seen_at now m). set (b := last_seen_at now a).
  destruct (set_identity_stored b) as (_ & -> & ->).
  assert (tested b = tested a ∧ Node.FirstSeenAt b = Node.FirstSeenAt a) as [-> ->].
  { unfold b, last_seen_at. destruct a. by case_if. }
  unfold a, first_seen_at. destruct m. by case_if.
Qed.

Lemma lookup_by_key m k o :
  nodes_ok m → by_key m !! k = Some o ↔ o ∈ rows m ∧ Key o = k.
Proof.
  intros Hm. unfold by_key.
  assert (Hinj : ∀ a b, a ∈ rows m → b ∈ rows m → Key a = Key b → a = b).
  { intros a b [ka Ha]%elem_of_rows [kb Hb]%elem_of_rows Hk.
    pose proof (Hm _ _ Ha) as [_ Hia]. pose proof (Hm _ _ Hb) as [_ Hib].
    assert (ka = kb); [|congruence]. rewrite <-Hia, <-Hib. unfold nodeID. by rewrite Hk. }
  assert (Hgen : ∀ l (acc : gmap string node), (∀ x, x ∈ l → x ∈ rows m) → (∀ k o, acc !! k = Some o → o ∈ rows m ∧ Key o = k) →
    fold_left (λ m n, <[Key n := n]> m) l acc !! k = Some o ↔
    (o ∈ l ∧ Key o = k) ∨ acc !! k = Some o).
  { induction l as [|x l IH]; intros acc Hl Hacc; simpl; [set_solver|].
    rewrite IH.
    - rewrite elem_of_cons. destruct (decide (Key x = k)) as [<-|Hne].
      + rewrite lookup_insert_eq. split.
        * intros [[? ?]|[= ->]]; auto.
        * intros [[[->|?] ?]|Ho]; auto. right. f_equal. destruct (Hacc _ _ Ho) as [? ?].
          apply Hinj; [apply Hl; by left|done|done].
      + rewrite lookup_insert_ne by done. naive_solver.
    - intros y Hy. apply Hl. by right.
    - intros k' o'. destruct (decide (Key x = k')) as [<-|Hne].
      + rewrite lookup_insert_eq. intros [= ->]. split; [apply Hl; by left|done].
      + rewrite lookup_insert_ne by done. apply Hacc. }
  rewrite Hgen.
  - rewrite lookup_empty, range_nodes_perm. naive_solver.
  - intros x. by rewrite range_nodes_perm.
  - intros k' o'. by rewrite lookup_empty.
Qed.

Lemma lookup_replace_nodes old now l k :
  NoDup (nodeID <$> omap id l) →
  replace_nodes old now l !! k =
    (λ n, cloneNode (replaced old now n)) <$> List.find (λ n, (nodeID n =? k)%string) (omap id l).
Proof.
  unfold replace_nodes.
  assert (Hgen : ∀ acc : gmap string node, NoDup (nodeID <$> omap id l) →
    fold_left (λ m n, match n with None => m
      | Some n => let n := replaced old now n in <[Node.ID n := cloneNode n]> m end) l acc !! k =
    match List.find (λ n, (nodeID n =? k)%string) (omap id l) with
    | Some n => Some (cloneNode (replaced old now n))
    | None => acc !! k
    end).
  { induction l as [|[n|] l IH]; intros acc Hnd;
      cbn [fold_left omap list_omap id fmap list_fmap List.find] in *; [done| |by apply IH].
    apply NoDup_cons in Hnd as [Hni Hnd]. rewrite IH by done.
    destruct (replaced_spec old now n) as [_ ->].
    destruct (String.eqb_spec (nodeID n) k) as [<-|Hne].
    - destruct (List.find _ _) as [m|] eqn:Ef; [|by rewrite lookup_insert_eq].
      apply List.find_some in Ef as [Hin Heq]. apply String.eqb_eq in Heq.
      destruct Hni. rewrite <-Heq. apply list_elem_of_fmap_2. by apply list_elem_of_In.
    - destruct (List.find _ _) as [m|]; [done|]. by rewrite lookup_insert_ne. }
  intros Hnd. rewrite Hgen by done. rewrite lookup_empty. by destruct (List.find _ _).
Qed.

(** Replacing the nodes keeps their history.  Afterwards the store holds
    exactly the nodes given (with distinct identifiers); a node that was there
    before and comes without a test of its own keeps the outcome of its last
    test, its score and its failure counters, and one that comes without a
    first sighting keeps the old one; a node that is new and without one gets
    the current time. *)
Theorem replace_history answers now (l : list (option node)) (s : store) :
  nodes_ok (Store.nodes s) → NoDup (nodeID <$> omap id l) →
  let s' := (ReplaceNodes answers now l s).2 in
  (∀ k, is_Some (Store.nodes s' !! k) ↔ k ∈ nodeID <$> omap id l) ∧
  (∀ n, n ∈ omap id l → ∃ r, Store.nodes s' !! nodeID n = Some r ∧ ident r = ident n ∧
     (∀ o, o ∈ rows (Store.nodes s) → Key o = Key n →
        tested r = (if IsZero (Node.TestedAt n) then tested o else tested n) ∧
        (IsZero (Node.FirstSeenAt n) = true → IsZero (Node.FirstSeenAt o) = false →
           Node.FirstSeenAt r = Node.FirstSeenAt o)) ∧
     ((∀ o, o ∈ rows (Store.nodes s) → Key o ≠ Key n) →
        tested r = tested n ∧
        Node.FirstSeenAt r = if IsZero (Node.FirstSeenAt n) then now else Node.FirstSeenAt n)).
Proof.
  intros Hok Hnd s'.
  assert (Hl : ∀ k, Store.nodes s' !! k = (λ n, cloneNode (replaced (by_key (Store.nodes s)) now n)) <$>
    List.find (λ n, (nodeID n =? k)%string) (omap id l)).
  { intros k. unfold s', ReplaceNodes. destruct (persist_nodes answers
      (s <| Store.nodes := replace_nodes (by_key (Store.nodes s)) now l |>
         <| Store.lastFetch := Some now |>)) as [Hn _].
    rewrite Hn. destruct s. by apply lookup_replace_nodes. }
  clearbody s'. split.
  - intros k. rewrite Hl, fmap_is_Some. split.
    + intros [n Hn]. apply List.find_some in Hn as [Hin Heq%String.eqb_eq]. rewrite <-Heq.
      apply list_elem_of_fmap_2. by apply list_elem_of_In.
    + intros (n & -> & Hin)%list_elem_of_fmap.
      destruct (List.find _ _) as [m|] eqn:Ef; [by eexists|].
      apply list_elem_of_In, (List.find_none _ _ Ef) in Hin. by rewrite String.eqb_refl in Hin.
  - intros n Hin.
    assert (List.find (λ m, (nodeID m =? nodeID n)%string) (omap id l) = Some n) as Hf.
    { clear Hl. induction (omap id l) as [|m ms IH]; [set_solver|]. simpl.
      simpl in Hnd. apply NoDup_cons in Hnd as [Hni Hnd].
      apply elem_of_cons in Hin as [<-|Hin]; [by rewrite String.eqb_refl|].
      destruct (String.eqb_spec (nodeID m) (nodeID n)) as [Heq|_]; [|by apply IH].
      destruct Hni. rewrite Heq. by apply list_elem_of_fmap_2. }
    eexists. rewrite Hl, Hf. split; [reflexivity|].
    destruct (clone_stored (replaced (by_key (Store.nodes s)) now n)) as (-> & -> & ->).
    destruct (replaced_spec (by_key (Store.nodes s)) now n) as [-> _]. split; [done|].
    destruct (replaced_fields (by_key (Store.nodes s)) now n) as [-> ->]. split.
    + intros o Ho Hk. rewrite (proj2 (lookup_by_key _ _ o Hok)) by done.
      rewrite merge_tested_spec, merge_seen_spec. split; [done|].
      intros Hz Hz'. by rewrite Hz, Hz'.
    + intros Hno. destruct (by_key (Store.nodes s) !! Key n) as [o|] eqn:Eo; [|done].
      apply lookup_by_key in Eo as [Ho Hk]; [|done]. by destruct (Hno o Ho).
Qed.
End history.

(** ** Pages of jobs *)

Section job_pages.

Definition jobs_of (s : store) (ids : list string) : list Job.t := omap (λ id, Store.jobs s !! id) ids.

Lemma jobs_page_started jobs cursor room ids :
  jobs_page jobs cursor true room ids = take room (omap (λ id, jobs !! id) ids).
Proof.
  revert room; induction ids as [|id ids IH]; intros [|room]; simpl; try done.
  destruct (jobs !! id) as [j|]; simpl; [by rewrite IH|apply (IH (S room))].
Qed.

Lemma jobs_page_skip jobs cursor room pre post :
  cursor ∉ pre → (0 < room)%nat →
  jobs_page jobs cursor false room (pre ++ cursor :: post) = jobs_page jobs cursor true room post.
Proof.
  intros Hni Hroom. destruct room as [|room]; [lia|]. induction pre as [|id pre IH]; simpl.
  - by rewrite String.eqb_refl.
  - rewrite (proj2 (String.eqb_neq id cursor)); [|set_solver]. apply IH. set_solver.
Qed.

(** Following the cursor from page to page lists every job once, newest
    first.  The first page is the front of the list, and the page after the
    last job of a page (identifiers are not empty) is the front of what
    follows it. *)
Theorem job_pages_enumerate (s : store) (limit : Z) :
  jobs_ok s → 0 < limit → "" ∉ Store.jobOrder s →
  let all := jobs_of s (rev (Store.jobOrder s)) in
  Job.ID <$> all = rev (Store.jobOrder s) ∧
  ListJobsPage limit "" s = take (Z.to_nat limit) all ∧
  (∀ pre j post, all = pre ++ j :: post →
     ListJobsPage limit (Job.ID j) s = take (Z.to_nat limit) post).
Proof.
  intros [Hnd Hdom Hids] Hlim Hne all.
  assert (Hall : ∀ ids, (∀ id, id ∈ ids → is_Some (Store.jobs s !! id)) →
    Job.ID <$> jobs_of s ids = ids).
  { induction ids as [|id ids IH]; intros Hin; [done|]. unfold jobs_of. simpl.
    destruct (Hin id) as [j Hj]; [by left|]. rewrite Hj. simpl.
    rewrite (Hids _ _ Hj). f_equal. apply IH. intros id' Hid'. apply Hin. by right. }
  assert (Hrev : ∀ id, id ∈ rev (Store.jobOrder s) → is_Some (Store.jobs s !! id)).
  { intros id Hid. apply Hdom. by rewrite list_elem_of_In, in_rev, <-list_elem_of_In. }
  split_and!.
  - by apply Hall.
  - unfold ListJobsPage. rewrite (proj2 (Z.leb_gt limit 0)) by lia. apply jobs_page_started.
  - intros pre j post Heq. unfold ListJobsPage. rewrite (proj2 (Z.leb_gt limit 0)) by lia.
    pose proof (Hall _ Hrev) as Hr. unfold all in Heq. rewrite Heq in Hr.
    rewrite fmap_app, fmap_cons in Hr.
    assert (Job.ID j ∈ Store.jobOrder s) as Hj.
    { rewrite list_elem_of_In, in_rev, <-list_elem_of_In, <-Hr. set_solver. }
    rewrite (proj2 (String.eqb_neq (Job.ID j) "")) by (intros Hz; by rewrite Hz in Hj).
    assert (NoDup (rev (Store.jobOrder s))) as Hnd'
      by (rewrite NoDup_ListNoDup in *; by apply List.NoDup_rev).
    rewrite <-Hr in Hnd' |- *. apply NoDup_app in Hnd' as (_ & Hnd1 & Hnd2).
    apply NoDup_cons in Hnd2 as [Hni _].
    rewrite jobs_page_skip; [|intros Hin; apply (Hnd1 _ Hin); by left|lia].
    rewrite jobs_page_started. f_equal.
    assert (Hpost : ∀ p, p ∈ post → Store.jobs s !! Job.ID p = Some p).
    { intros p Hp. assert (p ∈ jobs_of s (rev (Store.jobOrder s))) as Hin by (rewrite Heq; set_solver).
      apply list_elem_of_omap in Hin as (id & _ & Hid). by rewrite (Hids _ _ Hid). }
    clear -Hpost. induction post as [|p post IH]; simpl; [done|].
    rewrite Hpost by (by left). f_equal. apply IH. intros q Hq. apply Hpost. by right.
Qed.
End job_pages.
