(* ===== verification/Pools.v ===== *)
(** * Pools and statistics: [internal/pools], [Store.Stats]

    A pool is a named selection of the nodes of the store; [Select] filters a
    listing of the store by what the pool requires. *)
From S2P Require Import Prelude Sql GoStr GoFloat GoTime Model Filter Config NodeStore.

(** ** Statistics *)

Module DashboardStats.
Record t := mk {
  TotalNodes : Z;
  AliveNodes : Z;
  HighQuality : Z;
  ByProtocol : gmap string Z;
  ByGrade : gmap string Z;
  BySource : gmap string Z;
  ByCountry : gmap string Z;
  ByCountryHQ : gmap string Z;
  AvgLatencyMS : Z;
  AIPassRate : gmap string float64;
  LastFetchAt : option Time;
  LastQualityAt : option Time;
  SourcesEnabled : Z;
}.
End DashboardStats.

(** [m[k]++] over the elements that have a key *)
Definition bump (m : gmap string Z) (k : string) : gmap string Z := <[k := default 0 (m !! k) + 1]> m.
Definition tally {A} (key : A → option string) (l : list A) : gmap string Z :=
  fold_left (λ m x, match key x with Some k => bump m k | None => m end) l ∅.
Definition count_if {A} (p : A → bool) (l : list A) : Z := Z.of_nat (length (List.filter p l)).

Definition country_of (n : node) : string := if unset (Node.Country n) then "XX" else Node.Country n.
Definition high_quality (n : node) : bool := f_le (f_of_Z 70) (Node.Score n).
Definition some_if (b : bool) (s : string) : option string := if b then Some s else None.
Definition ai_entries (n : node) : list (string * option AIProbeResult.t) :=
  map_to_list (default ∅ (Node.AIAccess n)).
Definition entry_ok (kr : string * option AIProbeResult.t) : bool :=
  match kr.2 with Some r => AIProbeResult.OK r | None => false end.

(** [Store.Stats] *)
Definition Stats `{MapRange} (sourcesEnabled : Z) (s : store) : DashboardStats.t :=
  let l := range_nodes (Store.nodes s) in
  let timed := List.filter (λ n, Node.Alive n && (0 <? LatencyMS n)) l in
  let latSum := fold_left (λ a n, wrap64 (a + LatencyMS n)) timed 0 in
  let probes := mjoin (ai_entries <$> l) in
  let total := tally (λ kr, Some kr.1) probes in
  let ok := tally (λ kr, some_if (entry_ok kr) kr.1) probes in
  DashboardStats.mk
    (Z.of_nat (length l)) (count_if Node.Alive l) (count_if high_quality l)
    (tally (λ n, Some (Node.Protocol n)) l)
    (tally (λ n, some_if (negb (unset (Node.Grade n))) (Node.Grade n)) l)
    (tally (λ n, some_if (negb (unset (Node.Source n))) (Node.Source n)) l)
    (tally (λ n, Some (country_of n)) l)
    (tally (λ n, some_if (Node.Alive n && high_quality n) (country_of n)) l)
    (match timed with [] => 0 | _ => Z.quot latSum (Z.of_nat (length timed)) end)
    (map_imap (λ k t, if 0 <? t then Some (f_div (f_of_Z (default 0 (ok !! k))) (f_of_Z t)) else None) total)
    (Store.lastFetch s) (Store.lastQual s) sourcesEnabled.

Definition has_key {A} (key : A → option string) (k : string) (x : A) : bool :=
  match key x with Some k' => (k' =? k)%string | None => false end.

Lemma lookup_tally {A} (key : A → option string) l k :
  default 0 (tally key l !! k) = count_if (has_key key k) l.
Proof.
  unfold tally, count_if.
  assert (∀ m : gmap string Z, default 0 (fold_left (λ m x, match key x with Some k => bump m k | None => m end) l m !! k)
    = default 0 (m !! k) + Z.of_nat (length (List.filter (has_key key k) l))) as Hgen.
  { induction l as [|x l IH]; intros m; simpl; [lia|]. rewrite IH. unfold has_key at 2.
    destruct (key x) as [k'|]; simpl; [|done].
    unfold bump. destruct (String.eqb_spec k' k) as [->|Hne].
    - rewrite lookup_insert_eq. simpl. lia.
    - by rewrite lookup_insert_ne. }
  by rewrite Hgen, lookup_empty.
Qed.

Lemma count_if_perm {A} (p : A → bool) l1 l2 : l1 ≡ₚ l2 → count_if p l1 = count_if p l2.
Proof. intros Hp. unfold count_if. by rewrite (length_filter_perm p l1 l2 Hp). Qed.

(** The statistics are exact counts over the nodes of the store, whatever
    order the map is ranged over: totals, and for each protocol, grade, source
    and country the number of nodes that carry it, an empty country counting as
    XX; for each country also its nodes that are alive and of high quality. *)
Theorem stats_exact `{MapRange} enabled (s : store) (k : string) :
  let st := Stats enabled s in
  let l := rows (Store.nodes s) in
  DashboardStats.TotalNodes st = Count s ∧
  DashboardStats.AliveNodes st = count_if Node.Alive l ∧
  DashboardStats.HighQuality st = count_if high_quality l ∧
  default 0 (DashboardStats.ByProtocol st !! k) = count_if (λ n, (Node.Protocol n =? k)%string) l ∧
  default 0 (DashboardStats.ByGrade st !! k)
    = count_if (λ n, negb (unset (Node.Grade n)) && (Node.Grade n =? k)%string) l ∧
  default 0 (DashboardStats.BySource st !! k)
    = count_if (λ n, negb (unset (Node.Source n)) && (Node.Source n =? k)%string) l ∧
  default 0 (DashboardStats.ByCountry st !! k) = count_if (λ n, (country_of n =? k)%string) l ∧
  default 0 (DashboardStats.ByCountryHQ st !! k)
    = count_if (λ n, Node.Alive n && high_quality n && (country_of n =? k)%string) l.
Proof.
  intros st l. pose proof (range_nodes_perm (Store.nodes s)) as Hp.
  split_and!; unfold st, Stats; simpl; rewrite ?lookup_tally;
    try (rewrite (count_if_perm _ _ _ Hp)); try done.
  - unfold Count. rewrite size_rows. by rewrite Hp.
  - unfold count_if, l. do 2 f_equal. apply List.filter_ext. intros n. unfold has_key, some_if. by case_if.
  - unfold count_if, l. do 2 f_equal. apply List.filter_ext. intros n. unfold has_key, some_if. by case_if.
  - unfold count_if, l. do 2 f_equal. apply List.filter_ext. intros n. unfold has_key, some_if. by case_if.
Qed.

(** ** Pools *)

Module Named.
Record t := mk {
  Key : string;
  Title : string;
  Description : string;
  MinScore : float64;
  MaxLatencyMS : Z;
  Countries : gset string;
  Protocols : gset string;
  RequireAI : bool;
  RequireVerified : bool;
  VerifiedTTLHours : Z;
  DialEngine : string;
  RefreshSec : Z;
  MaxNodes : Z;
}.
Definition zero : t := mk "" "" "" f_zero 0 ∅ ∅ false false 0 "" 0 0.
End Named.

Section pools.
Context `{Unicode}.

(** [normalizeProtocol], [normalizedSet], [first], [description] *)
Definition normalizeProtocol (value : string) : string :=
  let value := ToLower (TrimSpace value) in
  if (value =? "hy2")%string then "hysteria2" else value.
Definition set_value (value : string) : string :=
  let value := ToUpper (TrimSpace value) in
  if 2 <? slen value then normalizeProtocol value else value.
Definition normalizedSet (values : list string) : gset string :=
  list_to_set (List.filter (λ v, negb (unset v)) (set_value <$> values)).
Definition first (value fallback : string) : string := if unset value then fallback else value.
Definition description (p : PoolConfig.t) : string :=
  if PoolConfig.RequireVerified p then "Passed real protocol validation"
  else if PoolConfig.RequireAI p then "Passed at least one configured AI reachability probe"
  else if 0 <? PoolConfig.MaxLatencyMS p then "Bounded latency and score selection"
  else "High-quality alive nodes".

(** [Configured] *)
Definition configured (cfg : config) (p : PoolConfig.t) : Named.t :=
  let minScore := PoolConfig.MinScore p in
  let minScore := if f_le minScore f_zero then FilterConfig.MinScore (Config.Filter cfg) else minScore in
  let minScore := if f_le minScore f_zero then f_of_Z 70 else minScore in
  let refresh := if PoolConfig.RefreshSec p <=? 0
                 then Z.max (PublishConfig.CacheSec (Config.Publish cfg)) 60
                 else PoolConfig.RefreshSec p in
  let limit := PoolConfig.MaxNodes p in
  let limit := if limit <=? 0 then PublishConfig.MaxNodes (Config.Publish cfg) else limit in
  let limit := if limit <=? 0 then 500 else limit in
  Named.mk (ToLower (TrimSpace (PoolConfig.Key p))) (PoolConfig.Name p) (description p) minScore
    (PoolConfig.MaxLatencyMS p) (normalizedSet (PoolConfig.Countries p))
    (normalizedSet (PoolConfig.Protocols p)) (PoolConfig.RequireAI p) (PoolConfig.RequireVerified p)
    (DialConfig.VerifiedTTLHours (Config.Dial cfg)) (DialConfig.Engine (Config.Dial cfg)) refresh limit.
Definition Configured (cfg : option config) : list Named.t :=
  let cfg := default Default cfg in
  configured cfg <$> Config.Pools cfg.

(** [Find] *)
Definition Find (cfg : option config) (key : string) : option Named.t :=
  let key := ToLower (TrimSpace key) in
  List.find (λ p, (Named.Key p =? key)%string) (Configured cfg).

(** [hasAIOK] *)
Definition hasAIOK (n : node) : bool := existsb entry_ok (ai_entries n).

(** [Select]: the filter it lists the store by, the conditions of its loop,
    and the loop, which stops as soon as the pool is full *)
Definition pool_filter (now : Time) (p : Named.t) : NodeFilter.t :=
  let f := NodeFilter.zero <| NodeFilter.AliveOnly := true |>
    <| NodeFilter.MinScore := Named.MinScore p |>
    <| NodeFilter.Limit := Z.max (wrap64 (Named.MaxNodes p * 20)) 5000 |>
    <| NodeFilter.VerifiedOnly := Named.RequireVerified p |> in
  if Named.RequireVerified p && (0 <? Named.VerifiedTTLHours p) then
    let f := f <| NodeFilter.DialTestedAfter := now - wrap64 (Named.VerifiedTTLHours p * Hour) |> in
    if negb (Named.DialEngine p =? "auto")%string
    then f <| NodeFilter.DialEngine := Named.DialEngine p |> else f
  else f.
Definition pool_member (p : Named.t) (n : node) : bool :=
  negb (Named.RequireAI p && negb (hasAIOK n))
  && negb ((0 <? Named.MaxLatencyMS p) && (Named.MaxLatencyMS p <? LatencyMS n))
  && (bool_decide (Named.Countries p = ∅)
      || bool_decide (ToUpper (first (Node.Country n) "XX") ∈ Named.Countries p))
  && (bool_decide (Named.Protocols p = ∅)
      || bool_decide (normalizeProtocol (Node.Protocol n) ∈ Named.Protocols p)).
Fixpoint select_loop (p : Named.t) (len : Z) (candidates : list node) : list node :=
  match candidates with
  | [] => []
  | n :: candidates =>
      if negb (pool_member p n) then select_loop p len candidates
      else if Named.MaxNodes p <=? len + 1 then [n]
      else n :: select_loop p (len + 1) candidates
  end.
Definition Select `{MapRange} (now : Time) (st : option store) (p : Named.t) : list node :=
  match st with
  | None => []
  | Some s => select_loop p 0 (ListNodes (pool_filter now p) s)
  end.

(** ** What a pool holds *)

Lemma select_loop_spec p len l :
  len < Named.MaxNodes p →
  select_loop p len l = take (Z.to_nat (Named.MaxNodes p - len)) (List.filter (pool_member p) l).
Proof.
  revert len; induction l as [|n l IH]; intros len Hlen; simpl; [by rewrite take_nil|].
  destruct (pool_member p n); simpl; [|by apply IH].
  destruct (Z.leb_spec (Named.MaxNodes p) (len + 1)).
  - by replace (Z.to_nat (Named.MaxNodes p - len)) with 1%nat by lia.
  - rewrite IH by lia.
    by replace (Z.to_nat (Named.MaxNodes p - len)) with (S (Z.to_nat (Named.MaxNodes p - (len + 1)))) by lia.
Qed.

Lemma configured_MaxNodes cfg p : 0 < Named.MaxNodes (configured cfg p).
Proof.
  unfold configured. simpl. repeat case_match; bsplit; lia.
Qed.

Lemma elem_of_ListNodes `{MapRange} f s n :
  n ∈ ListNodes f s → ∃ m, n = cloneNode m ∧ m ∈ rows (Store.nodes s) ∧ Match f m = true.
Proof.
  unfold ListNodes. intros Hn%truncate_sublist. rewrite elem_of_stable_sort in Hn.
  apply list_elem_of_fmap in Hn as (m & -> & Hm).
  rewrite elem_of_list_filter_bool, range_nodes_perm in Hm. exists m. tauto.
Qed.

(** A pool holds only what it promises.  Every node that [Select] returns
    for a configured pool is a clone of a stored node that is alive, reaches
    the least score of the pool and meets its conditions on AI access, latency,
    country, protocol and verification; the pool is never larger than its
    limit; and while it is smaller, it holds every candidate of the listing
    that meets the conditions, in the order of the listing. *)
Theorem select_sound `{MapRange} now (cfg : config) (pc : PoolConfig.t) (s : store) :
  let p := configured cfg pc in
  let l := Select now (Some s) p in
  let qualified := List.filter (pool_member p) (ListNodes (pool_filter now p) s) in
  Z.of_nat (length l) ≤ Named.MaxNodes p ∧
  l = take (Z.to_nat (Named.MaxNodes p)) qualified ∧
  (Z.of_nat (length l) < Named.MaxNodes p → l = qualified) ∧
  (∀ n, n ∈ l → pool_member p n = true ∧
     ∃ m, n = cloneNode m ∧ m ∈ rows (Store.nodes s) ∧ Node.Alive m = true ∧
       (f_lt f_zero (Named.MinScore p) = true → f_lt (Node.Score m) (Named.MinScore p) = false) ∧
       (Named.RequireVerified p = true → Node.Verified m = true)).
Proof.
  intros p l qualified. pose proof (configured_MaxNodes cfg pc) as Hmax. fold p in Hmax.
  assert (Hl : l = take (Z.to_nat (Named.MaxNodes p)) qualified).
  { unfold l, Select. rewrite select_loop_spec by lia. by rewrite Z.sub_0_r. }
  split_and!.
  - rewrite Hl, length_take. lia.
  - done.
  - rewrite Hl, length_take. intros Hlt. rewrite firstn_all2; [done|]. lia.
  - intros n Hn. rewrite Hl in Hn.
    assert (n ∈ qualified) as [Hin Hm]%elem_of_list_filter_bool
      by (rewrite <-(take_drop (Z.to_nat (Named.MaxNodes p)) qualified); set_solver).
    split; [done|]. apply elem_of_ListNodes in Hin as (m & -> & Hrow & Hmatch).
    exists m. split; [done|]. split; [done|].
    assert (NodeFilter.AliveOnly (pool_filter now p) = true ∧
      NodeFilter.MinScore (pool_filter now p) = Named.MinScore p ∧
      NodeFilter.VerifiedOnly (pool_filter now p) = Named.RequireVerified p) as (Ea & Es & Ev)
      by (unfold pool_filter; repeat case_if; done).
    unfold Match in Hmatch. rewrite Ea, Es, Ev in Hmatch. bsplit.
    split_and!; [done| |].
    + intros Hz. by rewrite Hz in *.
    + intros Hv. by rewrite Hv in *.
Qed.

(** A protocol name of two letters is stored in upper case, and looked up in
    lower case: a pool that asks for [ss] is empty. *)
Lemma lower_not_SS s : is_ascii s = true → ToLower s ≠ "SS".
Proof.
  intros Ha. unfold ToLower. rewrite Ha. intros Heq.
  assert (∀ c, lower_byte c ≠ "S"%char) as Hc.
  { intros c Hc. pose proof (ascii_forall (λ c, negb (bool_decide (lower_byte c = "S"%char)))) as Hall.
    specialize (Hall ltac:(by vm_compute) c). simpl in Hall. by rewrite Hc in Hall. }
  destruct s as [|c s]; [done|]. simpl in Heq. injection Heq as H1 _. by apply Hc in H1.
Qed.

Theorem pool_ss_empty `{MapRange} now (cfg : config) (pc : PoolConfig.t) (s : store) :
  PoolConfig.Protocols pc = ["ss"] →
  map_Forall (λ _ n, is_ascii (TrimSpace (Node.Protocol n)) = true) (Store.nodes s) →
  Select now (Some s) (configured cfg pc) = [].
Proof.
  intros Hp Hs. destruct (Select _ _ _) as [|n l] eqn:E; [done|].
  destruct (select_sound now cfg pc s) as (_ & _ & _ & Hall).
  destruct (Hall n) as (Hm & m & -> & [k Hk]%elem_of_rows & _); [by rewrite E; left|].
  unfold pool_member in Hm. bsplit.
  assert (Named.Protocols (configured cfg pc) = {["SS"]}) as Hset
    by (unfold configured; simpl; rewrite Hp; by vm_compute).
  rewrite Hset in *. match goal with H : _ || _ = true |- _ => apply orb_prop in H as [Hx|Hx] end.
  - apply bool_decide_eq_true in Hx. set_solver.
  - apply bool_decide_eq_true, elem_of_singleton in Hx. specialize (Hs _ _ Hk). simpl in Hs.
    assert (Node.Protocol (cloneNode m) = Node.Protocol m) as Hpm by by destruct m.
    rewrite Hpm in Hx. unfold normalizeProtocol in Hx. case_if_in Hx; [done|].
    by apply lower_not_SS in Hx.
Qed.
End pools.
