(* ===== verification/Purity.v ===== *)
(** * Purity of the exit address: [internal/purity]

    What a probe through a proxy learns about its exit address, and the score
    made of it.  The answers of the network are inputs: the body and status of
    each request, or the text of its error. *)
From S2P Require Import Prelude GoStr GoFloat GoTime Model Pools.

(** ** Answers of the network *)

(** [httpGet]: an error, or a body and a status *)
Inductive answer :=
  | Failed (err : string)
  | Answered (body : string) (code : Z).

(** Everything the network answers to one probe; [Setup] is the error of the
    steps before the first request, if any. *)
Module Answers.
Record t := mk {
  Setup : option string;
  Trace : answer;
  TraceMS : Z;
  Site : answer;
  StatusSite : answer;
  Ipify : answer;
  Proxied : answer;
  Direct : answer;
}.
End Answers.

(** ** The score *)

Definition dc_keywords : list string :=
  ["amazon"; "google cloud"; "digitalocean"; "linode"; "ovh"; "hetzner"; "vultr"; "contabo";
   "choopa"; "m247"; "datacamp"].

Definition clean_grade (clean : Z) : string :=
  if 85 <=? clean then "S" else if 70 <=? clean then "A" else if 55 <=? clean then "B"
  else if 40 <=? clean then "C" else if 25 <=? clean then "D" else "F".

Section purity.
Context `{Unicode}.

Definition note_if (b : bool) (n : string) : list string := if b then [n] else [].
Definition challenge_points (c : string) : Z * list string :=
  if (c =? "none")%string then (10, [])
  else if (c =? "soft")%string then (-15, ["cf:soft_challenge"])
  else if (c =? "hard")%string then (-35, ["cf:hard_challenge"])
  else if (c =? "blocked")%string then (-50, ["cf:blocked"])
  else if (c =? "error")%string then (-10, [])
  else (0, []).
Definition dc_keyword (res : PurityResult.t) : option string :=
  let isp := ToLower (PurityResult.ISP res +:+ " " +:+ PurityResult.AS res) in
  List.find (Contains isp) dc_keywords.

(** [scorePurity] *)
Definition raw_clean (res : PurityResult.t) : Z :=
  75 + (if PurityResult.IsProxy res then -45 else 0)
     + (if PurityResult.IsHosting res then -30 else 0)
     + (if PurityResult.IsMobile res then 10 else 0)
     + (if PurityResult.CFTraceOK res then 10 else -15)
     + (challenge_points (PurityResult.CFChallenge res)).1
     + (match dc_keyword res with Some _ => -15 | None => 0 end).
Definition scorePurity (res : PurityResult.t) : Z * Z * string * list string :=
  let clean := raw_clean res in
  let clean := if clean <? 0 then 0 else clean in
  let clean := if 100 <? clean then 100 else clean in
  (clean, 100 - clean, clean_grade clean,
   note_if (PurityResult.IsProxy res) "flag:proxy"
   ++ note_if (PurityResult.IsHosting res) "flag:hosting"
   ++ note_if (PurityResult.IsMobile res) "flag:mobile"
   ++ (challenge_points (PurityResult.CFChallenge res)).2
   ++ match dc_keyword res with Some kw => ["isp_dc:" +:+ kw] | None => [] end)%list.

(** ** The steps of a probe *)

(** [classifyCFChallenge], on the answers of the two sites *)
Definition classify_page (body : string) (code : Z) : string :=
  let low := ToLower body in
  let has := Contains low in
  if (code =? 403) || (code =? 503) then
    if has "cf-browser-verification" || has "challenge-platform" || has "turnstile"
    then "hard" else "blocked"
  else if has "just a moment" || has "checking your browser" || has "cf-browser-verification"
          || has "challenge-platform" || has "turnstile" || has "_cf_chl" then
    if has "turnstile" || has "cf-challenge-running" then "hard" else "soft"
  else if (200 <=? code) && (code <? 400) then "none"
  else "error".
Definition classifyCFChallenge (site status : answer) : string :=
  match site with
  | Answered body code => classify_page body code
  | Failed _ => match status with
                | Answered body code => classify_page body code
                | Failed _ => "error"
                end
  end.

(** [parseTraceIP]: the first line [ip=...] of hexadecimal digits, dots and
    colons, white space allowed after it *)
Definition ip_byte (c : ascii) : bool :=
  let v := byte_val c in
  ((48 <=? v) && (v <=? 57)) || ((97 <=? v) && (v <=? 102)) || ((65 <=? v) && (v <=? 70))
  || (v =? 46) || (v =? 58).
Definition trace_space (c : ascii) : bool :=
  let v := byte_val c in (v =? 9) || (v =? 12) || (v =? 13) || (v =? 32).
Fixpoint take_bytes (p : ascii → bool) (l : bytes) : bytes :=
  match l with
  | c :: l => if p c then c :: take_bytes p l else []
  | [] => []
  end.
Definition trace_line (l : bytes) : option string :=
  match l with
  | "i"%char :: "p"%char :: "="%char :: l =>
      match take_bytes ip_byte l with
      | [] => None
      | ip => if bool_decide (drop_bytes trace_space (drop_bytes ip_byte l) = [])
              then Some (implode ip) else None
      end
  | _ => None
  end.
Definition newline : ascii := byte_of 10.
Definition parseTraceIP (body : string) : string :=
  match omap trace_line (split_on newline (explode body)) with
  | ip :: _ => TrimSpace ip
  | [] => ""
  end.

(** [trimErr] *)
Definition trimErr (e : string) : string := if 80 <? slen e then slice_to e 80 else e.

(** [mergeTag] *)
Definition mergeTag (tags : list string) (add : string) : list string :=
  if bool_decide (add ∈ tags) then tags else (tags ++ [add])%list.

Context `{FmtAny}.

(** [enrichIPAPI]: the answers through the proxy and of the direct fallback;
    [object] is [json.Unmarshal] into a map. *)
Context (object : string → option (gmap string json)).
Definition get_str (m : gmap string json) (k d : string) : string :=
  match m !! k with Some (JStr s) => s | _ => d end.
Definition get_bool (m : gmap string json) (k : string) (d : bool) : bool :=
  match m !! k with Some (JBool b) => b | _ => d end.
Definition add_notes (l : list string) (res : PurityResult.t) : PurityResult.t :=
  res <| PurityResult.Notes := (PurityResult.Notes res ++ l)%list |>.
Definition ok_body (a : answer) : option string :=
  match a with
  | Answered body code => if code =? 200 then Some body else None
  | Failed _ => None
  end.
Definition enrich_object (m : gmap string json) (res : PurityResult.t) : PurityResult.t :=
  add_notes ["ipapi_ok"]
    (res <| PurityResult.Country := get_str m "countryCode" (PurityResult.Country res) |>
         <| PurityResult.ISP := get_str m "isp" (PurityResult.ISP res) |>
         <| PurityResult.AS := get_str m "as" (PurityResult.AS res) |>
         <| PurityResult.IsProxy := get_bool m "proxy" (PurityResult.IsProxy res) |>
         <| PurityResult.IsHosting := get_bool m "hosting" (PurityResult.IsHosting res) |>
         <| PurityResult.IsMobile := get_bool m "mobile" (PurityResult.IsMobile res) |>).
Definition enrichIPAPI (proxied direct : answer) (res : PurityResult.t) : PurityResult.t :=
  let body := match ok_body proxied with Some b => Some b | None => ok_body direct end in
  match body with
  | None => add_notes ["ipapi_fail"] res
  | Some body =>
      match object body with
      | None => res
      | Some m =>
          if negb (get_str m "status" "" =? "success")%string
          then add_notes ["ipapi:" +:+ fmt_any (m !! "message")] res
          else enrich_object m res
      end
  end.

(** [testOne]: the steps of the probe, then the deferred tags *)
Definition step_trace (a : Answers.t) (res : PurityResult.t) : PurityResult.t :=
  let res := res <| PurityResult.LatencyMS := Answers.TraceMS a |> in
  match Answers.Trace a with
  | Answered body code =>
      if (200 <=? code) && (code <? 400) then
        let res := res <| PurityResult.CFTraceOK := true |> <| PurityResult.OK := true |> in
        let ip := parseTraceIP body in
        let res := if (ip =? "")%string then res else res <| PurityResult.ExitIP := ip |> in
        add_notes ["cf_trace_ok"] res
      else add_notes ["cf_trace_http_" +:+ Itoa code] res
  | Failed e => add_notes ["cf_trace_err:" +:+ trimErr e] res
  end.
Definition step_challenge (a : Answers.t) (res : PurityResult.t) : PurityResult.t :=
  let chal := classifyCFChallenge (Answers.Site a) (Answers.StatusSite a) in
  let res := res <| PurityResult.CFChallenge := chal |>
    <| PurityResult.CFHumanLikely := (chal =? "none")%string && PurityResult.CFTraceOK res |> in
  add_notes [if (chal =? "none")%string then "cf_page_no_challenge" else "cf_challenge:" +:+ chal] res.
Definition step_ipify (a : Answers.t) (res : PurityResult.t) : PurityResult.t :=
  if (PurityResult.ExitIP res =? "")%string then
    match ok_body (Answers.Ipify a) with
    | Some body => res <| PurityResult.ExitIP := TrimSpace body |> <| PurityResult.OK := true |>
    | None => res
    end
  else res.
Definition step_enrich (a : Answers.t) (res : PurityResult.t) : PurityResult.t :=
  if (PurityResult.ExitIP res =? "")%string then res
  else enrichIPAPI (Answers.Proxied a) (Answers.Direct a) res.
Definition step_score (res : PurityResult.t) : PurityResult.t :=
  let '(clean, risk, grade, notes) := scorePurity res in
  let res := add_notes notes (res <| PurityResult.CleanScore := clean |>
    <| PurityResult.RiskScore := risk |> <| PurityResult.Grade := grade |>) in
  if negb (PurityResult.ExitIP res =? "")%string || PurityResult.CFTraceOK res
  then res <| PurityResult.OK := true |> else res.
Definition probe (now : Time) (a : Answers.t) : PurityResult.t :=
  let res := PurityResult.zero <| PurityResult.TestedAt := now |> in
  match Answers.Setup a with
  | Some e => res <| PurityResult.Error := e |>
  | None => step_score (step_enrich a (step_ipify a (step_challenge a (step_trace a res))))
  end.
Definition tag_when (b : bool) (tag : string) (tags : list string) : list string :=
  if b then mergeTag tags tag else tags.
Definition purity_tags (res : PurityResult.t) (tags : list string) : list string :=
  tag_when (PurityResult.IsProxy res || PurityResult.IsHosting res) "datacenter"
  (tag_when ((PurityResult.CFChallenge res =? "hard")%string
             || (PurityResult.CFChallenge res =? "blocked")%string) "cf-challenge"
  (tag_when (PurityResult.CFHumanLikely res) "cf-ok"
  (tag_when (PurityResult.OK res && (70 <=? PurityResult.CleanScore res)) "clean" tags))).
Definition testOne (now : Time) (a : Answers.t) (n : node) : node :=
  let res := probe now a in
  n <| Node.Purity := Some res |> <| Node.Tags := purity_tags res (Node.Tags n) |>.

(** [TestAll]: each goroutine writes its own node; [None] is a context that is
    done first, and the nodes beyond the limit are left alone. *)
Definition TestAll (max_nodes : Z) (answers : list (Time * option Answers.t)) (nodes : list node) :
    list node :=
  let k := if (0 <? max_nodes) && (max_nodes <? Z.of_nat (length nodes))
           then Z.to_nat max_nodes else length nodes in
  (zip_with (λ ta n, match ta.2 with
    | Some a => testOne ta.1 a n
    | None => n <| Node.Purity := Some (PurityResult.zero <| PurityResult.Error := "canceled" |>
                                          <| PurityResult.TestedAt := ta.1 |>) |>
    end) (take k answers) (take k nodes) ++ drop k nodes)%list.

(** [GradeCounts], and the numbers of [Summary] *)
Definition GradeCounts (nodes : list node) : gmap string Z :=
  tally (λ n, match Node.Purity n with
              | Some p => some_if (negb (PurityResult.Grade p =? "")%string) (PurityResult.Grade p)
              | None => None
              end) nodes.
Definition has_purity (q : PurityResult.t → bool) (n : node) : bool :=
  match Node.Purity n with Some p => q p | None => false end.
Definition Summary (nodes : list node) : Z * Z * Z * Z * Z :=
  let ok := count_if (has_purity PurityResult.OK) nodes in
  let sum := fold_left (λ a n, match Node.Purity n with
    | Some p => if PurityResult.OK p then wrap64 (a + PurityResult.CleanScore p) else a
    | None => a end) nodes 0 in
  (ok, Z.of_nat (length nodes) - ok, count_if (has_purity PurityResult.CFHumanLikely) nodes,
   count_if (has_purity (λ p, 70 <=? PurityResult.CleanScore p)) nodes,
   if 0 <? ok then Z.quot sum ok else 0).
End purity.

(** ** Ports *)

(** [allocPort]: [free] is what listening on a port answers, [nano] the clock
    of the fallback. *)
Fixpoint alloc_loop (tries : nat) (base next : Z) (free : Z → bool) : option Z * Z :=
  match tries with
  | O => (None, next)
  | S tries =>
      let port := next in
      let next := next + 1 in
      let next := if base + 4000 <? next then base else next in
      if free port then (Some port, next) else alloc_loop tries base next free
  end.
Definition allocPort (base next : Z) (free : Z → bool) (nano : Z) : Z * Z :=
  match alloc_loop 200 base next free with
  | (Some port, next) => (port, next)
  | (None, next) => (base + Z.rem nano 2000, next)
  end.

(** ** Properties *)

Section properties.
Context `{Unicode} `{FmtAny} (object : string → option (gmap string json)).

Lemma scorePurity_range res :
  let '(clean, risk, grade, _) := scorePurity res in
  0 ≤ clean ≤ 100 ∧ risk = 100 - clean ∧ grade = clean_grade clean.
Proof.
  unfold scorePurity. split_and!; try done; repeat case_if; bsplit; lia.
Qed.

Lemma clean_grade_mono a b : a ≤ b → grade_rank (clean_grade a) ≤ grade_rank (clean_grade b).
Proof.
  intros Hab. unfold clean_grade. repeat case_if; bsplit; try lia; by vm_compute.
Qed.

(** [r] has more against it than [s]: a proxy or hosting flag, a Cloudflare
    trace that failed, a provider that is a known data centre. *)
Definition worse_than (r s : PurityResult.t) : Prop :=
  (PurityResult.IsProxy s = true → PurityResult.IsProxy r = true) ∧
  (PurityResult.IsHosting s = true → PurityResult.IsHosting r = true) ∧
  PurityResult.IsMobile r = PurityResult.IsMobile s ∧
  (PurityResult.CFTraceOK r = true → PurityResult.CFTraceOK s = true) ∧
  PurityResult.CFChallenge r = PurityResult.CFChallenge s ∧
  (is_Some (dc_keyword s) → is_Some (dc_keyword r)).

Lemma raw_clean_mono r s : worse_than r s → raw_clean r ≤ raw_clean s.
Proof.
  intros (Hp & Hh & Hm & Ht & Hc & Hk). unfold raw_clean. rewrite Hm, Hc.
  assert ((if PurityResult.IsProxy r then -45 else 0) ≤ (if PurityResult.IsProxy s then -45 else 0))
    by (destruct (PurityResult.IsProxy s); [by rewrite Hp|case_if; lia]).
  assert ((if PurityResult.IsHosting r then -30 else 0) ≤ (if PurityResult.IsHosting s then -30 else 0))
    by (destruct (PurityResult.IsHosting s); [by rewrite Hh|case_if; lia]).
  assert ((if PurityResult.CFTraceOK r then 10 else -15) ≤ (if PurityResult.CFTraceOK s then 10 else -15))
    by (destruct (PurityResult.CFTraceOK r); [by rewrite Ht|case_if; lia]).
  assert ((match dc_keyword r with Some _ => -15 | None => 0 end)
    ≤ (match dc_keyword s with Some _ => -15 | None => 0 end)).
  { destruct (dc_keyword s); [|by destruct (dc_keyword r)]. destruct Hk as [k ->]; [by eexists|done]. }
  lia.
Qed.

(** The purity score lies between 0 and 100, the risk is its complement and
    the grade is read off it; and evidence against an address never helps: of
    two results that agree otherwise, the one with more against it has no
    higher score and no better grade. *)
Theorem purity_score_monotone (r s : PurityResult.t) :
  worse_than r s →
  let '(clean, risk, grade, _) := scorePurity r in
  let '(clean', _, grade', _) := scorePurity s in
  0 ≤ clean ≤ 100 ∧ risk = 100 - clean ∧ grade = clean_grade clean ∧
  clean ≤ clean' ∧ grade_rank grade ≤ grade_rank grade'.
Proof.
  intros Hw. pose proof (raw_clean_mono r s Hw) as Hm.
  pose proof (scorePurity_range r) as Hr. pose proof (scorePurity_range s) as Hs.
  destruct (scorePurity r) as [[[c k] g] l] eqn:Er, (scorePurity s) as [[[c' k'] g'] l'] eqn:Es.
  destruct Hr as (? & ? & ->), Hs as (? & ? & ->).
  assert (c ≤ c').
  { unfold scorePurity in Er, Es. injection Er as <- _ _. injection Es as <- _ _.
    destruct (Z.ltb_spec (raw_clean r) 0), (Z.ltb_spec (raw_clean s) 0); simpl;
      repeat match goal with |- context [100 <? ?z] => destruct (Z.ltb_spec 100 z) end; lia. }
  split_and!; auto using clean_grade_mono; lia.
Qed.

(** The fields the enrichment leaves alone *)
Definition cf_fields (r : PurityResult.t) :=
  (PurityResult.OK r, PurityResult.ExitIP r, PurityResult.CFTraceOK r, PurityResult.CFChallenge r,
   PurityResult.CFHumanLikely r, PurityResult.TestedAt r, PurityResult.Error r).
Lemma enrich_cf p d r : cf_fields (enrichIPAPI object p d r) = cf_fields r.
Proof.
  unfold enrichIPAPI. destruct (match ok_body p with Some _ => _ | None => _ end) as [body|];
    [|by destruct r].
  destruct (object body) as [m|]; [|done]. case_if; [by destruct r|].
  unfold enrich_object, add_notes. by destruct r.
Qed.

(** The score of a completed probe *)
Lemma step_score_spec r :
  let r' := step_score r in
  0 ≤ PurityResult.CleanScore r' ≤ 100 ∧
  PurityResult.RiskScore r' = 100 - PurityResult.CleanScore r' ∧
  PurityResult.Grade r' = clean_grade (PurityResult.CleanScore r') ∧
  PurityResult.CFTraceOK r' = PurityResult.CFTraceOK r ∧
  PurityResult.CFChallenge r' = PurityResult.CFChallenge r ∧
  PurityResult.CFHumanLikely r' = PurityResult.CFHumanLikely r ∧
  PurityResult.ExitIP r' = PurityResult.ExitIP r ∧
  PurityResult.OK r' = (negb (PurityResult.ExitIP r =? "")%string || PurityResult.CFTraceOK r
                        || PurityResult.OK r) ∧
  PurityResult.TestedAt r' = PurityResult.TestedAt r.
Proof.
  unfold step_score. pose proof (scorePurity_range r) as Hr.
  destruct (scorePurity r) as [[[c k] g] l]. destruct Hr as (? & -> & ->).
  destruct r. unfold add_notes. simpl. case_if; split_and!; try done; simpl; lia.
Qed.

Lemma step_challenge_spec a r :
  PurityResult.CFHumanLikely (step_challenge a r)
    = (PurityResult.CFChallenge (step_challenge a r) =? "none")%string
      && PurityResult.CFTraceOK (step_challenge a r) ∧
  PurityResult.OK (step_challenge a r) = PurityResult.OK r ∧
  PurityResult.CFTraceOK (step_challenge a r) = PurityResult.CFTraceOK r ∧
  PurityResult.TestedAt (step_challenge a r) = PurityResult.TestedAt r.
Proof. by destruct r. Qed.

Lemma step_ipify_cf a r :
  PurityResult.CFHumanLikely (step_ipify a r) = PurityResult.CFHumanLikely r ∧
  PurityResult.CFChallenge (step_ipify a r) = PurityResult.CFChallenge r ∧
  PurityResult.CFTraceOK (step_ipify a r) = PurityResult.CFTraceOK r ∧
  PurityResult.TestedAt (step_ipify a r) = PurityResult.TestedAt r.
Proof. unfold step_ipify. destruct r. repeat case_match; by split_and!. Qed.

Lemma step_trace_cf a r :
  PurityResult.TestedAt (step_trace a r) = PurityResult.TestedAt r.
Proof. unfold step_trace, add_notes. destruct r. repeat case_match; done. Qed.

Lemma step_enrich_cf a r : cf_fields (step_enrich object a r) = cf_fields r.
Proof. unfold step_enrich. case_if; [done|]. apply enrich_cf. Qed.

(** A completed probe is consistent: the score lies between 0 and 100, the
    risk is its complement and the grade is read off it; a human is called
    likely exactly when the page showed no challenge and the Cloudflare trace
    succeeded; an exit address or a successful trace makes it OK; and the tag
    "clean" is added only to a result that is OK with a score of at least 70.
    A probe that fails in its setup has the error and no score. *)
Theorem purity_probe (now : Time) (a : Answers.t) (n : node) :
  let n' := testOne object now a n in
  ∃ r, Node.Purity n' = Some r ∧ PurityResult.TestedAt r = now ∧
    (∀ e, Answers.Setup a = Some e →
       PurityResult.Error r = e ∧ PurityResult.OK r = false ∧ PurityResult.CleanScore r = 0) ∧
    (Answers.Setup a = None →
       0 ≤ PurityResult.CleanScore r ≤ 100 ∧
       PurityResult.RiskScore r = 100 - PurityResult.CleanScore r ∧
       PurityResult.Grade r = clean_grade (PurityResult.CleanScore r) ∧
       PurityResult.CFHumanLikely r
         = (PurityResult.CFChallenge r =? "none")%string && PurityResult.CFTraceOK r ∧
       (PurityResult.ExitIP r ≠ "" ∨ PurityResult.CFTraceOK r = true → PurityResult.OK r = true)) ∧
    ("clean" ∈ Node.Tags n' → "clean" ∉ Node.Tags n →
       PurityResult.OK r = true ∧ 70 ≤ PurityResult.CleanScore r).
Proof.
  intros n'. exists (probe object now a).
  assert (Hn : Node.Purity n' = Some (probe object now a) ∧
    Node.Tags n' = purity_tags (probe object now a) (Node.Tags n)) by by destruct n.
  destruct Hn as [-> ->]. split; [done|].
  assert (Htag : ∀ b t l, "clean" ∈ tag_when b t l → "clean" ∈ l ∨ (b = true ∧ t = "clean")).
  { intros b t l. unfold tag_when, mergeTag. destruct b; [|auto]. case_bool_decide; [auto|].
    rewrite elem_of_app, list_elem_of_singleton. intuition. }
  assert (Hclean : ∀ r l, "clean" ∈ purity_tags r l → "clean" ∉ l →
    PurityResult.OK r = true ∧ 70 ≤ PurityResult.CleanScore r).
  { intros r l Hin Hni. unfold purity_tags in Hin.
    do 4 (apply Htag in Hin as [Hin|[Hb Heq]]; [|try done]); [done|]. bsplit. by split. }
  assert (Hgoal : match Answers.Setup a with
    | Some e => PurityResult.Error (probe object now a) = e ∧ PurityResult.OK (probe object now a) = false
                ∧ PurityResult.CleanScore (probe object now a) = 0
                ∧ PurityResult.TestedAt (probe object now a) = now
    | None => let r := probe object now a in
       0 ≤ PurityResult.CleanScore r ≤ 100 ∧
       PurityResult.RiskScore r = 100 - PurityResult.CleanScore r ∧
       PurityResult.Grade r = clean_grade (PurityResult.CleanScore r) ∧
       PurityResult.CFHumanLikely r
         = (PurityResult.CFChallenge r =? "none")%string && PurityResult.CFTraceOK r ∧
       (PurityResult.ExitIP r ≠ "" ∨ PurityResult.CFTraceOK r = true → PurityResult.OK r = true) ∧
       PurityResult.TestedAt r = now end).
  { unfold probe. destruct (Answers.Setup a) as [e|]; [done|].
    set (r0 := PurityResult.zero <| PurityResult.TestedAt := now |>).
    assert (PurityResult.TestedAt r0 = now) as Hr0 by done. clearbody r0.
    pose proof (step_trace_cf a r0) as Hr1. rewrite Hr0 in Hr1. set (r1 := step_trace a r0) in *. clearbody r1.
    destruct (step_challenge_spec a r1) as (H2a & _ & _ & H2b). rewrite Hr1 in H2b.
    set (r2 := step_challenge a r1) in *. clearbody r2.
    destruct (step_ipify_cf a r2) as (H3a & H3b & H3c & H3d). rewrite H2a, <-H3b, <-H3c in H3a. rewrite H2b in H3d.
    set (r3 := step_ipify a r2) in *. clearbody r3.
    pose proof (step_enrich_cf a r3) as H4. set (r4 := step_enrich object a r3) in *. clearbody r4.
    unfold cf_fields in H4. injection H4 as _ _ H4a H4b H4c H4d _.
    destruct (step_score_spec r4) as (S1 & S2 & S3 & S4 & S5 & S6 & S7 & S8 & S9).
    split_and!; try done; try lia.
    - by rewrite S6, S5, S4, H4c, H4b, H4a.
    - rewrite S8, S7, S4. intros [Hx|Hx]; [by rewrite (proj2 (String.eqb_neq _ _) Hx)|].
      by rewrite Hx, orb_true_r.
    }
  destruct (Answers.Setup a) as [e|].
  - destruct Hgoal as (? & ? & ? & ?). split_and!; [done|by intros e' [= <-]|done|apply Hclean].
  - destruct Hgoal as (? & ? & ? & ? & ? & ?). split_and!; [done|done|done|apply Hclean].
Qed.
End properties.

Lemma alloc_loop_range tries base next free :
  base ≤ next ≤ base + 4000 →
  let '(port, next') := alloc_loop tries base next free in
  base ≤ next' ≤ base + 4000 ∧ (∀ p, port = Some p → base ≤ p ≤ base + 4000 ∧ free p = true).
Proof.
  revert next; induction tries as [|tries IH]; intros next Hn; simpl; [done|].
  assert (base ≤ (if base + 4000 <? next + 1 then base else next + 1) ≤ base + 4000) as Hn'
    by (destruct (Z.ltb_spec (base + 4000) (next + 1)); lia).
  destruct (free next) eqn:E; [|by apply IH]. split; [done|]. by intros p [= <-].
Qed.

(** The port allocator stays in its window: from a cursor in
    [base, base + 4000] it returns a port in that window and leaves the cursor
    in it; the port is one that answered as free, unless two hundred in a row
    did not. *)
Theorem alloc_port_window base next free nano :
  base ≤ next ≤ base + 4000 → 0 ≤ nano →
  let '(port, next') := allocPort base next free nano in
  base ≤ port ≤ base + 4000 ∧ base ≤ next' ≤ base + 4000 ∧
  (free port = true ∨ (alloc_loop 200 base next free).1 = None).
Proof.
  intros Hn Hnano. pose proof (alloc_loop_range 200 base next free Hn) as Hl. unfold allocPort.
  destruct (alloc_loop 200 base next free) as [[p|] next']; destruct Hl as [Hn' Hp].
  - destruct (Hp p eq_refl). auto.
  - pose proof (Z.rem_bound_pos nano 2000 Hnano ltac:(lia)). split_and!; try lia. by right.
Qed.
