(* ===== verification/NodesDB.v ===== *)
(** * Durable nodes and their metrics: [internal/db/nodes.go]

    The tables [nodes] and [node_metrics].  The payload of a row is the JSON
    text of the node ([NodeCodec]); timestamps are stored as text. *)
From S2P Require Import Prelude Sql GoStr GoFloat GoRound GoTime Model Jobs.

(** [json.Marshal] and [json.Unmarshal] of a node *)
Class NodeCodec := {
  marshal_node : node → option string;
  unmarshal_node : string → option node;
}.

Module NodeRow.
Record t := mk {
  id : string;
  fingerprint : string;
  protocol : string;
  server : string;
  port : Z;
  country : string;
  asn : string;
  entry_type : string;
  score : float64;
  alive : bool;
  first_seen_at : string;
  last_seen_at : string;
  payload_json : string;
  updated_at : string;
}.
End NodeRow.
Abbreviation node_table := (gmap string NodeRow.t).

Module DailyMetric.
Record t := mk {
  Day : string;
  Samples : Z;
  SuccessRate : float64;
  P50LatencyMS : Z;
  P95LatencyMS : Z;
  AvgScore : float64;
  AvgThroughput : Z;
}.
End DailyMetric.

(** The buckets of [DailyNodeMetrics], one for each day *)
Module Bucket.
Record t := mk {
  latencies : list Z;
  samples : Z;
  successes : Z;
  score : float64;
  throughput : Z;
}.
Definition zero : t := mk [] 0 0 f_zero 0.
End Bucket.

Section nodes.
Context `{TzData} `{NodeCodec}.

(** [SaveNodes]: a transaction, undone by the first node that does not
    marshal *)
Definition node_row (now : Time) (n : node) (payload : string) : NodeRow.t :=
  NodeRow.mk (Node.ID n) (Node.Fingerprint n) (Node.Protocol n) (Node.Server n) (Node.Port n)
    (Node.Country n) (Node.ASN n) (Node.EntryType n) (Node.Score n) (Node.Alive n)
    (fmtTime (Node.FirstSeenAt n)) (fmtTime (Node.LastSeenAt n)) payload (fmtTime now).
Definition storable_node (n : option node) : option node :=
  match n with Some n => if (Node.ID n =? "")%string then None else Some n | None => None end.
Fixpoint save_loop (now : Time) (nodes : list node) (t : node_table) : result node_table :=
  match nodes with
  | [] => Ok t
  | n :: nodes =>
      match marshal_node n with
      | None => Err (ErrMsg ("marshal node " +:+ Node.ID n))
      | Some payload => save_loop now nodes (<[Node.ID n := node_row now n payload]> t)
      end
  end.
Definition SaveNodes (now : Time) (nodes : list (option node)) (t : node_table) : result node_table :=
  match nodes with
  | [] => Ok t
  | _ => save_loop now (omap storable_node nodes) t
  end.

(** [ReplaceNodes]: save, then delete the rows that were not given *)
Definition ReplaceNodes (now : Time) (nodes : list (option node)) (t : node_table) : result node_table :=
  let! t := SaveNodes now nodes t in
  let keep : gset string := list_to_set (Node.ID <$> omap storable_node nodes) in
  Ok (filter (λ kr, kr.1 ∈ keep) t).

(** [LoadNodes]: [ORDER BY last_seen_at DESC, id LIMIT limit] *)
Definition recent (a b : NodeRow.t) : comparison :=
  lexc (String.compare (NodeRow.last_seen_at b) (NodeRow.last_seen_at a))
       (String.compare (NodeRow.id a) (NodeRow.id b)).
Definition LoadNodes (limit : Z) (t : node_table) : result (list node) :=
  let limit := if limit <=? 0 then 10000 else limit in
  match mapM (λ r, unmarshal_node (NodeRow.payload_json r))
             (select_page (λ _, true) (less recent) limit t) with
  | Some nodes => Ok nodes
  | None => Err (ErrMsg "decode persisted node")
  end.

(** [DeleteNodesMissingSince]; the number of rows affected comes with it *)
Definition DeleteNodesMissingSince (cutoff : Time) (t : node_table) : Z * node_table :=
  let old r := String.ltb (NodeRow.last_seen_at r) (fmtTime cutoff) in
  (count_where old t, delete_where old t).
(** ** Metrics *)

(** [metricFromNode] *)
Definition metricFromNode (now : Time) (n : node) : Metric.t :=
  let at_ := Node.TestedAt n in
  let at_ := match Node.Dial n with
             | Some d => if After (DialResult.TestedAt d) at_ then DialResult.TestedAt d else at_
             | None => at_
             end in
  let at_ := if IsZero at_ then now else at_ in
  let '(jitter, tls, http, bps) := match Node.Quality n with
    | Some q => (Quality.JitterMS q, Quality.TLSMS q, Quality.HTTPMS q, Quality.ThroughputBPS q)
    | None => (0, 0, 0, 0) end in
  match Node.Dial n with
  | Some d =>
      Metric.mk (Node.ID n) (fmtTime at_) (DialResult.OK d)
        (if LatencyMS n =? 0 then DialResult.LatencyMS d else LatencyMS n)
        jitter tls (DialResult.HTTPMS d) (DialResult.ThroughputBPS d) (Node.Score n)
  | None =>
      Metric.mk (Node.ID n) (fmtTime at_) (Node.Alive n) (LatencyMS n) jitter tls http bps (Node.Score n)
  end.

(** [RecordNodeMetrics]: one row for each node that was measured *)
Definition measured_node (n : node) : bool :=
  negb (IsZero (Node.TestedAt n) && bool_decide (Node.Dial n = None)).
Definition RecordNodeMetrics (now : Time) (nodes : list (option node)) (t : list Metric.t) :
    list Metric.t :=
  (t ++ (metricFromNode now <$> List.filter measured_node (omap storable_node nodes)))%list.

(** [percentile] *)
Definition percentile (values : list Z) (p : float64) : Z :=
  match values with
  | [] => 0
  | _ =>
      let n := Z.of_nat (length values) in
      let index := f_to_int64 (f_ceil (f_mul (f_of_Z n) p)) - 1 in
      let index := if index <? 0 then 0 else index in
      let index := if n <=? index then n - 1 else index in
      default 0 (values !! Z.to_nat index)
  end.


Definition day_of (at_ : string) : string := if 10 <? slen at_ then slice_to at_ 10 else at_.
Definition bucket_add (b : Bucket.t) (m : Metric.t) : Bucket.t :=
  Bucket.mk
    (if 0 <? Metric.LatencyMS m then (Bucket.latencies b ++ [Metric.LatencyMS m])%list
     else Bucket.latencies b)
    (Bucket.samples b + 1)
    (Bucket.successes b + if Metric.Success m then 1 else 0)
    (f_add (Bucket.score b) (Metric.Score m))
    (wrap64 (Bucket.throughput b + Metric.ThroughputBPS m)).
Definition put_metric (bs : gmap string Bucket.t) (m : Metric.t) : gmap string Bucket.t :=
  let day := day_of (Metric.MeasuredAt m) in
  <[day := bucket_add (default Bucket.zero (bs !! day)) m]> bs.
Definition daily_of (day : string) (b : Bucket.t) : DailyMetric.t :=
  let latencies := stable_sort Z.ltb (Bucket.latencies b) in
  DailyMetric.mk day (Bucket.samples b)
    (f_div (f_of_Z (Bucket.successes b)) (f_of_Z (Bucket.samples b)))
    (percentile latencies (f_lit 1 2)) (percentile latencies (f_lit 95 100))
    (f_div (Bucket.score b) (f_of_Z (Bucket.samples b)))
    (Z.quot (Bucket.throughput b) (Bucket.samples b)).

Context `{LocalCalendar}.

(** [DailyNodeMetrics] *)
Definition in_window (cutoff : string) (nodeID : string) (m : Metric.t) : bool :=
  String.leb cutoff (Metric.MeasuredAt m)
  && ((nodeID =? "")%string || (Metric.NodeID m =? nodeID)%string).
Definition window (now : Time) (nodeID : string) (days default_days : Z) (t : list Metric.t) :
    list Metric.t :=
  let days := if days <=? 0 then default_days else days in
  List.filter (in_window (fmtTime (AddDays now (- days))) nodeID) t.
Definition by_day (l : list Metric.t) : gmap string Bucket.t := fold_left put_metric l ∅.
Definition DailyNodeMetrics (now : Time) (nodeID : string) (days : Z) (t : list Metric.t) :
    list DailyMetric.t :=
  let rows := stable_sort (λ a b, String.ltb (Metric.MeasuredAt a) (Metric.MeasuredAt b))
                (window now nodeID days 30 t) in
  let buckets := by_day rows in
  let daysList := stable_sort String.ltb ((map_to_list buckets).*1) in
  (λ day, daily_of day (default Bucket.zero (buckets !! day))) <$> daysList.

(** [NodeStabilities]: [AVG(success) GROUP BY node_id] *)
Definition rates (l : list Metric.t) : gmap string (Z * Z) :=
  fold_left (λ m r, let '(k, n) := default (0, 0) (m !! Metric.NodeID r) in
                    <[Metric.NodeID r := (k + (if Metric.Success r then 1 else 0), n + 1)]> m) l ∅.
Definition NodeStabilities (now : Time) (days : Z) (t : list Metric.t) : gmap string float64 :=
  (λ kn, f_div (f_of_Z kn.1) (f_of_Z kn.2)) <$> rates (window now "" days 7 t).

(** ** Saving and loading *)

Definition given (nodes : list (option node)) : list node := omap storable_node nodes.

Lemma mapM_perm {A B} (f : A → option B) l k out :
  mapM f l = Some out → l ≡ₚ k → ∃ out', mapM f k = Some out' ∧ out ≡ₚ out'.
Proof.
  intros Hm Hp. revert out Hm. induction Hp as [|x l k Hp IH|x y l|l1 l2 l3 _ IH1 _ IH2]; intros out Hm.
  - eauto.
  - simpl in *. destruct (f x) as [a|]; [|done]. simpl in *.
    destruct (mapM f l) as [o|] eqn:E; [|done]. simpl in Hm. injection Hm as <-.
    destruct (IH _ eq_refl) as (o' & -> & Ho). simpl. eexists. split; [done|]. by rewrite Ho.
  - simpl in *. destruct (f x) as [a|], (f y) as [b|]; try done; simpl in *.
    destruct (mapM f l) as [o|]; [|done]. simpl in *. injection Hm as <-.
    eexists. split; [done|]. constructor.
  - destruct (IH1 _ Hm) as (o & Ho & Hp1). destruct (IH2 _ Ho) as (o' & ? & Hp2).
    exists o'. split; [done|]. by transitivity o.
Qed.

Lemma save_loop_spec now nodes t t' :
  save_loop now nodes t = Ok t' → NoDup (Node.ID <$> nodes) →
  (∀ n, n ∈ nodes → ∃ p, marshal_node n = Some p ∧ t' !! Node.ID n = Some (node_row now n p)) ∧
  (∀ k, k ∉ Node.ID <$> nodes → t' !! k = t !! k).
Proof.
  revert t; induction nodes as [|n nodes IH]; intros t; simpl.
  { intros [= <-] _. split; [set_solver|done]. }
  destruct (marshal_node n) as [p|] eqn:E; [|done]. intros Hs Hnd.
  rewrite NoDup_cons in Hnd. destruct Hnd as [Hni Hnd].
  destruct (IH _ Hs Hnd) as [IH1 IH2]. split.
  - intros m [->|Hm]%elem_of_cons; [|by apply IH1].
    exists p. split; [done|]. rewrite IH2 by done. apply lookup_insert_eq.
  - intros k Hk. apply not_elem_of_cons in Hk as [Hne Hk]. rewrite IH2 by done.
    by rewrite lookup_insert_ne.
Qed.

Lemma SaveNodes_spec now nodes t t' :
  SaveNodes now nodes t = Ok t' → NoDup (Node.ID <$> given nodes) →
  (∀ n, n ∈ given nodes → ∃ p, marshal_node n = Some p ∧ t' !! Node.ID n = Some (node_row now n p)) ∧
  (∀ k, k ∉ Node.ID <$> given nodes → t' !! k = t !! k).
Proof.
  unfold SaveNodes. destruct nodes as [|n l]; [|apply save_loop_spec].
  intros [= <-] _. split; [set_solver|done].
Qed.

Lemma SaveNodes_ok now nodes t :
  (∀ n, n ∈ given nodes → is_Some (marshal_node n)) → is_ok (SaveNodes now nodes t) = true.
Proof.
  unfold SaveNodes. destruct nodes as [|n l]; [done|]. fold (given (n :: l)).
  generalize (given (n :: l)) t. clear. induction l as [|m l IH]; intros t Hm; simpl; [done|].
  destruct (Hm m) as [p ->]; [by left|]. apply IH. intros x Hx. apply Hm. by right.
Qed.

Lemma ReplaceNodes_rows now nodes t t' :
  ReplaceNodes now nodes t = Ok t' → NoDup (Node.ID <$> given nodes) →
  ∃ ps, mapM marshal_node (given nodes) = Some ps ∧
        rows t' ≡ₚ zip_with (node_row now) (given nodes) ps ∧
        Sql.keyed NodeRow.id t'.
Proof.
  unfold ReplaceNodes. destruct (SaveNodes now nodes t) as [t1|] eqn:Es; [|done].
  simpl. intros [= <-] Hnd. destruct (SaveNodes_spec _ _ _ _ Es Hnd) as [Hin Hout]. clear Es Hout.
  fold (given nodes). revert Hnd Hin. generalize (given nodes). intros l Hnd Hin.
  assert (∃ ps, mapM marshal_node l = Some ps ∧ Forall2 (λ n p, t1 !! Node.ID n = Some (node_row now n p)) l ps)
    as (ps & Hps & Hall).
  { clear Hnd. induction l as [|n l IH]; [by exists []|]. simpl.
    destruct (Hin n) as (p & Hp & Hl); [by left|].
    destruct IH as (ps & -> & Hall); [intros m Hm; apply Hin; by right|].
    exists (p :: ps). rewrite Hp. simpl. split; [done|]. by constructor. }
  exists ps. split; [done|].
  set (t' := filter _ t1).
  assert (Ht' : ∀ k r, t' !! k = Some r ↔ t1 !! k = Some r ∧ k ∈ Node.ID <$> l).
  { intros k r. unfold t'. rewrite map_lookup_filter_Some. simpl. by rewrite elem_of_list_to_set. }
  assert (Hrow : ∀ n, n ∈ l → ∃ p, t1 !! Node.ID n = Some (node_row now n p)).
  { intros n Hn. destruct (Hin n Hn) as (p & _ & Hl). eauto. }
  assert (Hkey : Sql.keyed NodeRow.id t').
  { intros k r [Hk Hkl]%Ht'. apply list_elem_of_fmap in Hkl as (n & -> & Hn).
    destruct (Hrow n Hn) as [p Hp]. rewrite Hk in Hp. by injection Hp as ->. }
  split; [|done]. apply NoDup_Permutation.
  - by apply (rows_NoDup (key := NodeRow.id)).
  - apply (NoDup_fmap_1 NodeRow.id).
    assert (NodeRow.id <$> zip_with (node_row now) l ps = Node.ID <$> l) as ->; [|done].
    clear -Hall. induction Hall; simpl; [done|]. by f_equal.
  - intros r. rewrite elem_of_rows. split.
    + intros [k [Hk Hkl]%Ht']. apply list_elem_of_fmap in Hkl as (n & -> & Hn).
      clear -Hall Hk Hn. induction Hall as [|m p l ps Hm Hall IH]; [set_solver|]. simpl.
      apply elem_of_cons in Hn as [<-|Hn]; [|by right; apply IH].
      rewrite Hk in Hm. injection Hm as ->. by left.
    + intros Hr. clear -Hall Hr Ht'.
      assert (∃ n, n ∈ l ∧ t1 !! Node.ID n = Some r) as (n & Hn & Hl).
      { clear Ht'. induction Hall as [|m p l ps Hm Hall IH]; simpl in Hr; [set_solver|].
        apply elem_of_cons in Hr as [->|Hr]; [exists m; split; [by left|done]|].
        destruct (IH Hr) as (n & Hn & Hl). exists n. split; [by right|done]. }
      exists (Node.ID n). apply Ht'. split; [done|]. by apply list_elem_of_fmap_2.
Qed.

(** What is saved is what is loaded.  [ReplaceNodes] leaves one row for each
    node given that has an identifier (distinct ones), and no other row;
    [LoadNodes] with a limit that is large enough then returns exactly those
    nodes, each as its JSON text reads back, in some order. *)
Theorem nodes_roundtrip (stored : node → node) now nodes t limit :
  NoDup (Node.ID <$> given nodes) →
  (∀ n, n ∈ given nodes → ∃ p, marshal_node n = Some p ∧ unmarshal_node p = Some (stored n)) →
  Z.of_nat (length (given nodes)) ≤ limit → 0 < limit →
  ∃ t' l, ReplaceNodes now nodes t = Ok t' ∧ LoadNodes limit t' = Ok l ∧
    l ≡ₚ stored <$> given nodes.
Proof.
  intros Hnd Hcodec Hlim Hpos.
  assert (is_ok (SaveNodes now nodes t) = true) as Hok.
  { apply SaveNodes_ok. intros n Hn. destruct (Hcodec n Hn) as (p & -> & _). by eexists. }
  assert (∃ t', ReplaceNodes now nodes t = Ok t') as [t' Ht'].
  { unfold ReplaceNodes. destruct (SaveNodes now nodes t); [|done]. simpl. eauto. }
  exists t'. destruct (ReplaceNodes_rows _ _ _ _ Ht' Hnd) as (ps & Hps & Hrows & Hkey).
  assert (Hlen : length (rows t') = length (given nodes)).
  { rewrite Hrows, length_zip_with. apply length_mapM in Hps. lia. }
  set (page := select_page (λ _, true) (less recent) limit t').
  assert (Hpage : zip_with (node_row now) (given nodes) ps ≡ₚ page).
  { symmetry. unfold page, select_page. rewrite take_ge.
    - rewrite stable_sort_perm, <-Hrows. clear. induction (rows t'); simpl; by constructor.
    - rewrite length_stable_sort.
      assert (∀ l : list NodeRow.t, length (List.filter (λ _, true) l) = length l) as ->; [|lia].
      induction l; simpl; auto. }
  assert (Hz : mapM (λ r, unmarshal_node (NodeRow.payload_json r)) (zip_with (node_row now) (given nodes) ps)
      = Some (stored <$> given nodes)).
  { clear -Hps Hcodec. revert ps Hps; induction (given nodes) as [|n l IH]; intros ps Hps; simpl in *.
    { by injection Hps as <-. }
    destruct (Hcodec n) as (p & Hp & Hu); [by left|]. rewrite Hp in Hps. simpl in Hps.
    destruct (mapM marshal_node l) as [qs|] eqn:E; [|done]. simpl in Hps. injection Hps as <-.
    simpl. rewrite Hu. simpl. rewrite (IH (λ m Hm, Hcodec m (list_elem_of_further _ _ _ Hm)) _ eq_refl). done. }
  destruct (mapM_perm _ _ _ _ Hz Hpage) as (out & Hout & Hperm).
  exists out. split; [done|]. split; [|by symmetry].
  unfold LoadNodes. destruct (Z.leb_spec limit 0); [lia|]. fold page. by rewrite Hout.
Qed.
End nodes.
