(* ===== verification/NodeExamples.v ===== *)
(** * Nodes at work

    Two nodes and a duplicate go through the cleaner, the filter, the scores,
    the node store, the durable table and the purity score. *)
From S2P Require Import Prelude Sql GoStr GoFloat GoRound GoTime Model Config Jobs NodesDB.
From S2P Require Import Cleaner Filter Scoring Purity TaskExamples AccountExamples NodeStore.
From S2P Require Import Pools.

#[local] Existing Instances no_tzdata no_tzdata_cst ascii_only checksums log2_grid.

Definition in_order : MapRange := {| range_nodes := rows; range_nodes_perm m := reflexivity _ |}.
#[local] Existing Instance in_order.

(** A codec that knows one snapshot, the empty one *)
Definition empty_snapshot : SnapshotCodec := {|
  marshal_snapshot := λ s, match Snapshot.Nodes s with [] => Some "{}" | _ => None end;
  unmarshal_snapshot := λ s,
    if (s =? "{}")%string then Some (Snapshot.mk [] None None None) else None |}.
#[local] Existing Instance empty_snapshot.

Definition tokyo : node :=
  Node.zero <| Node.ID := "a" |> <| Node.Protocol := "trojan" |> <| Node.Name := " Tokyo " |>
    <| Node.Server := "tokyo.example.org" |> <| Node.Port := 443 |> <| Node.Password := "pw" |>
    <| Node.Source := "main" |> <| Node.Sources := ["main"] |> <| Node.Alive := true |>
    <| Node.Latency := 80 * Millisecond |> <| Node.Score := f_of_Z 90 |>.
Definition paris : node :=
  Node.zero <| Node.ID := "b" |> <| Node.Protocol := "vless" |> <| Node.Name := "Paris" |>
    <| Node.Server := "paris.example.org" |> <| Node.Port := 8443 |> <| Node.UUID := "u" |>
    <| Node.Source := "other" |> <| Node.Sources := ["other"] |>
    <| Node.Score := f_of_Z 70 |>.
Definition tokyo_again : node := tokyo <| Node.Source := "other" |> <| Node.Sources := ["other"] |>.
Definition feed : list (option node) := [Some tokyo; None; Some paris; Some tokyo_again].

(** ** Cleaning and filtering *)

Definition clean_out : list node := (map_to_list (clean_loop Default feed)).*2.

Lemma clean_exact_witness : NoDup (dedup_key Default <$> clean_out) ∧ length clean_out = 2%nat.
Proof.
  destruct (clean_exact Default feed clean_out) as [Hnd _]; [apply Permutation_refl|].
  split; [exact Hnd|by vm_compute].
Defined.

Lemma apply_best_first_witness :
  Z.of_nat (length (Apply feed Default)) =
    Z.of_nat (length (List.filter (apply_keep Default) (omap id feed))).
Proof.
  destruct (apply_best_first feed Default) as [_ Hl].
  - apply Forall_forall. intros n Hn. simpl in Hn.
    repeat (apply elem_of_cons in Hn as [->|Hn]; [by vm_compute|]). by apply not_elem_of_nil in Hn.
  - rewrite Hl. by vm_compute.
Defined.

(** ** Scores *)

Lemma v2_bounded_witness : in_percent (Node.Score (ApplyV2 tokyo None)).
Proof. apply (v2_bounded tokyo None); by vm_compute. Defined.

Definition probed : node :=
  Scoring.testOne (Scoring.Options.mk 4 (10 * Second) 3 false false) t0
    (Probe.mk [40 * Millisecond; 60 * Millisecond] (false, 0) 0) tokyo.

Lemma apply_v2_idempotent_witness : ApplyV2 (ApplyV2 probed None) None = ApplyV2 probed None.
Proof. apply apply_v2_idempotent. by eexists. Defined.

Lemma probe_score_bounds_witness :
  in_percent (computeScore tokyo (default Quality.zero (Node.Quality probed))).
Proof. apply probe_score_bounds; by vm_compute. Defined.

Lemma probe_consistent_witness : Node.Alive probed = true.
Proof.
  destruct (probe_consistent (Options.mk 4 (10 * Second) 3 false false) t0
    (Probe.mk [40 * Millisecond; 60 * Millisecond] (false, 0) 0) tokyo) as (_ & [_ H] & _).
  - apply Forall_forall. intros l Hl. simpl in Hl.
    repeat (apply elem_of_cons in Hl as [->|Hl]; [by split|]). by apply not_elem_of_nil in Hl.
  - done.
  - apply H. done.
Defined.

(** ** The store *)

Definition no_io : io_step → option error := λ _, None.
Definition full_disk : io_step → option error := λ _, Some (ErrMsg "disk full").
Definition base : store := NewMemory <| Store.persistent := true |>.
Definition s1 : store := (ReplaceNodes no_io t0 [Some tokyo; Some paris] base).2.
Definition s2 : store := SaveJob (job "running" "" t0) s1.
Definition s3 : store := (Prune full_disk (PruneOptions.mk false f_zero 1 true) s2).2.

Lemma base_ok : store_ok base.
Proof.
  split; [by intros k n Hk|]. split; simpl.
  - constructor.
  - intros id. simpl. split; [intros Hid; by apply not_elem_of_nil in Hid|by intros []].
  - by intros k j Hk.
Qed.

Lemma run2 : rtc step base s2.
Proof.
  apply (rtc_l _ _ s1); [exact (step_replace in_order no_io t0 [Some tokyo; Some paris] base)|].
  apply rtc_once. exact (step_job (job "running" "" t0) s1).
Qed.
Lemma run3 : rtc step base s3.
Proof.
  apply (rtc_r _ s2); [apply run2|].
  exact (step_prune in_order full_disk (PruneOptions.mk false f_zero 1 true) s2).
Qed.

Lemma store_invariant_witness : store_ok s3.
Proof. apply (store_invariant base s3 run3 base_ok). Defined.

(** The other order in which a map may be ranged over *)
Definition backwards : MapRange.
Proof.
  refine {| range_nodes m := rev (rows m) |}. intros m. symmetry. apply Permutation_rev.
Defined.

Lemma s2_nodes_ok : nodes_ok (Store.nodes s2).
Proof.
  assert (Hb : bool_decide (nodes_ok (Store.nodes s2)) = true) by (by vm_compute).
  by apply bool_decide_eq_true in Hb.
Qed.
Lemma s2_scored : map_Forall (λ _ n, scored n) (Store.nodes s2).
Proof.
  assert (Hb : bool_decide (map_Forall (λ _ n, scored n) (Store.nodes s2)) = true) by (by vm_compute).
  by apply bool_decide_eq_true in Hb.
Qed.

Lemma list_deterministic_witness :
  @ListNodes _ in_order NodeFilter.zero s2 = @ListNodes _ backwards NodeFilter.zero s2.
Proof. apply (list_deterministic in_order backwards NodeFilter.zero s2 s2_nodes_ok s2_scored). Defined.

Lemma store_prune_exact_witness :
  ∃ removed e s', Prune full_disk (PruneOptions.mk false f_zero 1 true) s2 = (removed, e, s') ∧
    removed = 1 ∧ Count s' = 1.
Proof.
  pose proof (store_prune_exact full_disk (PruneOptions.mk false f_zero 1 true) s2
    s2_nodes_ok s2_scored) as H.
  destruct (Prune _ _ _) as [[removed e] s']. exists removed, e, s'. split; [exact eq_refl|].
  destruct H as (_ & _ & Hr & Hc & _). rewrite Hr, Hc. split; vm_compute; exact eq_refl.
Defined.

(** The second feed brings the nodes back without the results of their tests. *)
Definition tokyo_bare : node :=
  tokyo <| Node.Alive := false |> <| Node.Score := f_zero |> <| Node.Latency := 0 |>.
Definition tested_tokyo : node := tokyo <| Node.TestedAt := t0 |>.
Definition s4 : store := (ReplaceNodes no_io t0 [Some tested_tokyo] base).2.

Lemma s4_nodes_ok : nodes_ok (Store.nodes s4).
Proof.
  assert (Hb : bool_decide (nodes_ok (Store.nodes s4)) = true) by (by vm_compute).
  by apply bool_decide_eq_true in Hb.
Qed.

Lemma s4_tokyo : ∃ o, o ∈ rows (Store.nodes s4) ∧ Key o = Key tokyo_bare ∧
  Node.Alive o = true ∧ Node.Score o = f_of_Z 90.
Proof.
  exists (default Node.zero (Store.nodes s4 !! nodeID tokyo)). split_and!; [|by vm_compute..].
  apply elem_of_rows. exists (nodeID tokyo). by vm_compute.
Qed.

Lemma replace_history_witness :
  ∃ r, Store.nodes (ReplaceNodes no_io (t0 + Hour) [Some tokyo_bare] s4).2 !! nodeID tokyo_bare
        = Some r ∧ Node.Alive r = true ∧ Node.Score r = f_of_Z 90.
Proof.
  destruct (replace_history no_io (t0 + Hour) [Some tokyo_bare] s4 s4_nodes_ok) as [_ H].
  { apply NoDup_singleton. }
  destruct (H tokyo_bare) as (r & Hr & _ & Hold & _); [by left|].
  exists r. split; [exact Hr|]. destruct s4_tokyo as (o & Ho & Hk & Ha & Hs).
  destruct (Hold o Ho Hk) as [Ht _].
  assert (IsZero (Node.TestedAt tokyo_bare) = true) as Hz by (by vm_compute). rewrite Hz in Ht.
  clear -Ht Ha Hs. unfold tested in Ht. injection Ht as -> _ _ _ _ -> _. by split.
Defined.

(** ** Pages of jobs, the durable table, purity *)

Lemma s2_jobs : jobs_ok s2.
Proof.
  apply (step_ok s1 s2 (step_job _ s1)), (step_ok base s1); [|apply base_ok].
  exact (step_replace in_order no_io t0 [Some tokyo; Some paris] base).
Qed.

Lemma job_pages_enumerate_witness : length (ListJobsPage 5 "" s2) = 1%nat.
Proof.
  destruct (job_pages_enumerate s2 5 s2_jobs) as (_ & -> & _); [done| |by vm_compute].
  assert (Hb : bool_decide ("" ∉ Store.jobOrder s2) = true) by (by vm_compute).
  by apply bool_decide_eq_true in Hb.
Defined.

(** A codec that keeps only the identifier *)
Definition id_codec : NodeCodec := {|
  marshal_node := λ n, Some (Node.ID n);
  unmarshal_node := λ s, Some (Node.zero <| Node.ID := s |>) |}.
#[local] Existing Instance id_codec.

Lemma nodes_roundtrip_witness :
  ∃ t l, NodesDB.ReplaceNodes t0 [Some tokyo; None; Some paris] ∅ = Ok t ∧ LoadNodes 10 t = Ok l ∧
    length l = 2%nat.
Proof.
  destruct (nodes_roundtrip (λ n, Node.zero <| Node.ID := Node.ID n |>) t0
    [Some tokyo; None; Some paris] ∅ 10) as (t & l & Ht & Hl & Hp).
  - assert (Hb : bool_decide (NoDup (Node.ID <$> given [Some tokyo; None; Some paris])) = true)
      by (by vm_compute).
    by apply bool_decide_eq_true in Hb.
  - intros n _. exists (Node.ID n). by split.
  - by vm_compute.
  - done.
  - exists t, l. split; [exact Ht|]. split; [exact Hl|]. by rewrite Hp.
Defined.

Definition clean_result : PurityResult.t := PurityResult.zero <| PurityResult.CFTraceOK := true |>.
Definition hosting_result : PurityResult.t :=
  clean_result <| PurityResult.IsHosting := true |> <| PurityResult.CFTraceOK := false |>.

Lemma purity_score_monotone_witness :
  (scorePurity hosting_result).1.1.1 ≤ (scorePurity clean_result).1.1.1.
Proof.
  pose proof (purity_score_monotone hosting_result clean_result) as H.
  destruct (scorePurity hosting_result) as [[[? ?] ?] ?].
  destruct (scorePurity clean_result) as [[[? ?] ?] ?].
  apply H. split_and!; try done; intros H'; by vm_compute in H'.
Defined.

Lemma alloc_port_window_witness :
  let '(port, _) := allocPort 20000 20005 (λ p, p =? 20007) 0 in 20000 ≤ port ≤ 24000.
Proof.
  pose proof (alloc_port_window 20000 20005 (λ p, p =? 20007) 0 ltac:(lia) ltac:(lia)) as H.
  destruct (allocPort _ _ _ _) as [port next]. apply H.
Defined.
