(* ===== verification/NetUrl.v ===== *)
(** * URLs: [net/url] and [net.SplitHostPort]

    The escapes, the queries and the parser of URLs of the standard library,
    with the laws that the link formats use: what is escaped reads back, and
    the parser looks at nothing but the part before the first '#', whose rest
    is the fragment.  (The library's limit of 10000 parameters in a query is not
    modelled.) *)
From S2P Require Import Prelude GoStr GoTime Model Base64 Ratelimit NetAddr.

(** ** Escapes *)

Inductive mode :=
  | encodePath | encodePathSegment | encodeHost | encodeZone
  | encodeUserPassword | encodeQueryComponent | encodeFragment.
#[export] Instance mode_eq_dec : EqDecision mode.
Proof. solve_decision. Defined.

Definition one_of (chars : string) (c : ascii) : bool := existsb (Ascii.eqb c) (explode chars).
Definition quote_byte : ascii := byte_of 34.
Definition alnum (c : ascii) : bool :=
  let v := byte_val c in
  (48 <=? v) && (v <=? 57) || (65 <=? v) && (v <=? 90) || (97 <=? v) && (v <=? 122).
Definition in_host (m : mode) : bool := bool_decide (m = encodeHost ∨ m = encodeZone).

Definition shouldEscape (c : ascii) (m : mode) : bool :=
  if alnum c then false
  else if in_host m && (one_of "!$&'()*+,;=:[]<>" c || Ascii.eqb c quote_byte) then false
  else if one_of "-_.~" c then false
  else if one_of "$&+,/:;=?@" c then
    match m with
    | encodePath => one_of "?" c
    | encodePathSegment => one_of "/;,?" c
    | encodeUserPassword => one_of "@/?:" c
    | encodeQueryComponent => true
    | encodeFragment => false
    | encodeHost | encodeZone => true
    end
  else if bool_decide (m = encodeFragment) && one_of "!()*" c then false
  else true.

Definition upper_hex (n : Z) : ascii := byte_of (if n <? 10 then 48 + n else 55 + n).
Definition percent_byte : ascii := "%"%char.

(** [escape] *)
Definition escape_byte (m : mode) (c : ascii) : bytes :=
  if shouldEscape c m then
    if Ascii.eqb c " " && bool_decide (m = encodeQueryComponent) then ["+"%char]
    else [percent_byte; upper_hex (byte_val c / 16); upper_hex (byte_val c mod 16)]
  else [c].
Definition escape_bytes (m : mode) (l : bytes) : bytes := l ≫= escape_byte m.
Definition escape (m : mode) (s : string) : string := implode (escape_bytes m (explode s)).
Definition PathEscape : string → string := escape encodePathSegment.
Definition QueryEscape : string → string := escape encodeQueryComponent.

(** [unescape]: the escape of an ASCII character is refused in a host, save
    the one of '%' itself, and in a zone, save those of '%' and of what a host
    may hold *)
Definition hex_allowed (m : mode) (v : Z) : bool :=
  match m with
  | encodeHost => negb (v <? 128) || (v =? 37)
  | encodeZone => (v =? 37) || (v =? 32) || negb (shouldEscape (byte_of v) encodeHost)
  | _ => true
  end.
Fixpoint unescape_bytes (m : mode) (l : bytes) : option bytes :=
  match l with
  | [] => Some []
  | c :: l =>
      if Ascii.eqb c percent_byte then
        match l with
        | h1 :: h2 :: l =>
            match hex_val h1, hex_val h2 with
            | Some a, Some b =>
                if hex_allowed m (a * 16 + b) then
                  r ← unescape_bytes m l; Some (byte_of (a * 16 + b) :: r)
                else None
            | _, _ => None
            end
        | _ => None
        end
      else if Ascii.eqb c "+" && bool_decide (m = encodeQueryComponent) then
        r ← unescape_bytes m l; Some (" "%char :: r)
      else if in_host m && (byte_val c <? 128) && shouldEscape c m then None
      else r ← unescape_bytes m l; Some (c :: r)
  end.
Definition unescape (m : mode) (s : string) : option string :=
  implode <$> unescape_bytes m (explode s).
Definition QueryUnescape : string → option string := unescape encodeQueryComponent.

(** ** Queries *)

(** [url.Values], as the pairs in their order: [Get] is the first. *)
Abbreviation values := (list (string * string)).
Definition Get (q : values) (k : string) : string :=
  from_option snd "" (List.find (λ kv, (kv.1 =? k)%string) q).
Definition Set_ (q : values) (k v : string) : values :=
  ((k, v) :: List.filter (λ kv, negb (kv.1 =? k)%string) q)%list.

Definition cut_or (s : string) (c : ascii) : string * string := default (s, "") (Cut s c).

(** One part of a query; [None] is an error, of which [Query] makes nothing. *)
Definition query_part (part : string) : option (list (string * string)) :=
  if Contains part ";" then None
  else if (part =? "")%string then Some []
  else
    let '(k, v) := cut_or part "=" in
    k ← QueryUnescape k; v ← QueryUnescape v; Some [(k, v)].
Definition query_parts (query : string) : list (option values) :=
  if (query =? "")%string then [] else query_part <$> Split query "&".
(** [ParseQuery]: the values that parse, and whether there was no error *)
Definition ParseQuery (query : string) : values * bool :=
  (mjoin (default [] <$> query_parts query), forallb (λ o, bool_decide (is_Some o)) (query_parts query)).

(** [Values.Encode]: the keys in order, the values of a key in theirs *)
Definition Encode (q : values) : string :=
  let sorted := stable_sort (λ a b, String.ltb a.1 b.1) q in
  Join ((λ kv, QueryEscape kv.1 +:+ "=" +:+ QueryEscape kv.2) <$> sorted) "&".

(** ** URLs *)

(** [url.URL], the fields the program reads; [User] is the name and the
    password, when there is one *)
Module URL.
Record t := mk {
  Scheme : string;
  User : option (string * option string);
  Host : string;
  Path : string;
  RawQuery : string;
  Fragment : string;
}.
#[export] Instance eta : Eta t := λ u, mk (Scheme u) (User u) (Host u) (Path u) (RawQuery u) (Fragment u).
End URL.
Export (hints) URL.

Definition ctl_byte (c : ascii) : bool := (byte_val c <? 32) || (byte_val c =? 127).
Definition letter (c : ascii) : bool := alnum c && negb ((48 <=? byte_val c) && (byte_val c <=? 57)).

(** [getScheme] on the bytes read so far, in reverse: [None] is an error *)
Fixpoint get_scheme (seen l : bytes) : option (bytes * bytes) :=
  match l with
  | [] => Some ([], rev seen)
  | c :: r =>
      if letter c then get_scheme (c :: seen) r
      else if alnum c || one_of "+-." c then
        match seen with [] => Some ([], l) | _ => get_scheme (c :: seen) r end
      else if Ascii.eqb c ":" then
        match seen with [] => None | _ => Some (rev seen, r) end
      else Some ([], rev seen ++ l)
  end.

Definition user_byte (c : ascii) : bool := alnum c || one_of "-._:~!$&'()*+,;=%@" c.
Definition validOptionalPort (l : bytes) : bool :=
  match l with
  | [] => true
  | c :: l => Ascii.eqb c ":" && forallb (λ d, (48 <=? byte_val d) && (byte_val d <=? 57)) l
  end.

(** [parseHost] *)
Definition parse_literal (hostname : bytes) : option bytes :=
  match String.index 0 "%25" (implode hostname) with
  | Some i =>
      h ← unescape_bytes encodeHost (take i hostname);
      z ← unescape_bytes encodeZone (drop i hostname); Some (h ++ z)
  | None => unescape_bytes encodeHost hostname
  end.
Definition parseHost (l : bytes) : option bytes :=
  match cut_on "[" (rev l) with
  | Some _ =>
      match cut_on "]" (rev l) with
      | None => None
      | Some (rev_port, rev_front) =>
          let port := rev rev_port in
          if negb (validOptionalPort port) then None
          else
            match cut_on "[" rev_front with
            | None => None
            | Some (rev_name, _) =>
                name ← parse_literal (rev rev_name);
                port ← unescape_bytes encodeHost port;
                match parse_addr (implode name) with
                | Some (V6 _ _) => Some ("["%char :: name ++ "]"%char :: port)
                | _ => None
                end
            end
      end
  | None =>
      match cut_on ":" l with
      | Some (_, port) => if validOptionalPort (":"%char :: port) then unescape_bytes encodeHost l else None
      | None => unescape_bytes encodeHost l
      end
  end.

(** [parseAuthority] *)
Definition parseAuthority (l : bytes) : option (option (string * option string) * string) :=
  match cut_on "@" (rev l) with
  | None => h ← parseHost l; Some (None, implode h)
  | Some (rev_host, rev_user) =>
      h ← parseHost (rev rev_host);
      let user := rev rev_user in
      if negb (forallb user_byte user) then None
      else
        match cut_on ":" user with
        | None => u ← unescape_bytes encodeUserPassword user; Some (Some (implode u, None), implode h)
        | Some (a, b) =>
            a ← unescape_bytes encodeUserPassword a;
            b ← unescape_bytes encodeUserPassword b;
            Some (Some (implode a, Some (implode b)), implode h)
        end
  end.

(** The query is what follows the first '?'; a lone '?' at the end is no
    query. *)
Definition split_query (rest : bytes) : bytes * bytes := default (rest, []) (cut_on "?" rest).

(** [parse]: a URL without its fragment *)
Definition parse_base `{Unicode} (s : string) : option URL.t :=
  if existsb ctl_byte (explode s) then None
  else if (s =? "*")%string then Some (URL.mk "" None "" "*" "" "")
  else
    '(scheme, rest) ← get_scheme [] (explode s);
    let scheme := ToLower (implode scheme) in
    let '(rest, query) := split_query rest in
    let url := URL.mk scheme None "" "" (implode query) "" in
    match rest with
    | "/"%char :: "/"%char :: r =>
        if (scheme =? "")%string && match r with "/"%char :: _ => true | _ => false end then
          p ← unescape_bytes encodePath rest; Some (url <| URL.Path := implode p |>)
        else
          let '(authority, path) := match cut_on "/" r with
                                    | Some (a, p) => (a, "/"%char :: p) | None => (r, []) end in
          '(user, host) ← parseAuthority authority;
          p ← unescape_bytes encodePath path;
          Some (url <| URL.User := user |> <| URL.Host := host |> <| URL.Path := implode p |>)
    | "/"%char :: _ => p ← unescape_bytes encodePath rest; Some (url <| URL.Path := implode p |>)
    | _ =>
        if negb (scheme =? "")%string then Some url   (* opaque *)
        else if has_byte ":" (default rest (fst <$> cut_on "/" rest)) then None
        else p ← unescape_bytes encodePath rest; Some (url <| URL.Path := implode p |>)
    end.

(** [url.Parse] *)
Definition ParseURL `{Unicode} (raw : string) : option URL.t :=
  let '(u, frag) := cut_or raw "#" in
  url ← parse_base u;
  if (frag =? "")%string then Some url
  else f ← unescape encodeFragment frag; Some (url <| URL.Fragment := f |>).

(** [net.SplitHostPort], host and port *)
Definition SplitHostPort2 (hostport : string) : option (string * string) :=
  match CutLast hostport ":" with
  | None => None
  | Some (_, port) => (λ host, (host, port)) <$> SplitHostPort hostport
  end.

(** ** Laws *)

Lemma upper_hex_val n : 0 ≤ n < 16 → hex_val (upper_hex n) = Some n ∧ graphic (upper_hex n) ∧ byte_val (upper_hex n) ≠ 35.
Proof.
  intros Hn. assert (Hall : forallb (λ k, bool_decide (hex_val (upper_hex (Z.of_nat k)) = Some (Z.of_nat k))
    && (33 <=? byte_val (upper_hex (Z.of_nat k))) && (byte_val (upper_hex (Z.of_nat k)) <? 127)
    && negb (byte_val (upper_hex (Z.of_nat k)) =? 35)) (seq 0 16) = true)
    by (by vm_compute).
  rewrite forallb_forall in Hall. specialize (Hall (Z.to_nat n)).
  rewrite Z2Nat.id in Hall by lia. assert (Hin : In (Z.to_nat n) (seq 0 16)) by (apply in_seq; lia).
  specialize (Hall Hin). bsplit. done.
Qed.

(** Facts about every byte and every mode, by inspection *)
Definition all_modes : list mode :=
  [encodePath; encodePathSegment; encodeHost; encodeZone; encodeUserPassword; encodeQueryComponent;
   encodeFragment].
Lemma escape_table (P : mode → ascii → bool) :
  forallb (λ m, forallb (λ n, P m (ascii_of_nat n)) (seq 0 256)) all_modes = true →
  ∀ m c, P m c = true.
Proof.
  intros Hall m c. rewrite forallb_forall in Hall. apply ascii_forall. apply Hall.
  destruct m; simpl; auto 8.
Qed.

(** A byte that is left as it is: never '%', '+' only outside queries. *)
Lemma plain_byte m c : shouldEscape c m = false →
  Ascii.eqb c percent_byte = false ∧ (m = encodeQueryComponent → Ascii.eqb c "+" = false) ∧
  (in_host m = false → byte_val c ≠ 35 ∧ graphic c).
Proof.
  intros Hs. pose proof (escape_table (λ m c, shouldEscape c m
    || negb (Ascii.eqb c percent_byte) && (negb (bool_decide (m = encodeQueryComponent)) || negb (Ascii.eqb c "+"))
       && (in_host m || negb (byte_val c =? 35) && (33 <=? byte_val c) && (byte_val c <? 127)))
    ltac:(by vm_compute) m c) as H.
  cbv beta in H. rewrite Hs in H. simpl in H. bsplit. split_and!; [done| |].
  - intros ->. by destruct (Ascii.eqb c "+").
  - intros Hm. rewrite Hm in *. simpl in *. bsplit. done.
Qed.

Lemma escape_graphic m l : in_host m = false →
  Forall (λ c, graphic c ∧ byte_val c ≠ 35) (escape_bytes m l).
Proof.
  intros Hm. induction l as [|c l IH]; simpl; [constructor|]. apply Forall_app. split; [|done].
  unfold escape_byte. destruct (shouldEscape c m) eqn:E.
  - pose proof (byte_val_range c). case_if; [repeat constructor; by vm_compute|].
    destruct (upper_hex_val (byte_val c / 16)) as [_ G1]; [euclid|].
    destruct (upper_hex_val (byte_val c mod 16)) as [_ G2]; [euclid|].
    apply Forall_cons_2; [by vm_compute|]. apply Forall_cons_2; [done|]. by apply Forall_singleton.
  - destruct (plain_byte m c E) as (_ & _ & [? ?]); [done|]. by apply Forall_singleton.
Qed.

(** What one mode escapes another reads back, when both or neither write a
    space as '+'. *)
Lemma unescape_escape m m' l :
  in_host m = false → (m = encodeQueryComponent ↔ m' = encodeQueryComponent) →
  unescape_bytes m (escape_bytes m' l) = Some l.
Proof.
  intros Hm Hq. induction l as [|c l IH]; simpl; [done|].
  unfold escape_byte. destruct (shouldEscape c m') eqn:E.
  - pose proof (byte_val_range c).
    destruct (Ascii.eqb c " " && bool_decide (m' = encodeQueryComponent)) eqn:Es.
    + bsplit. apply Ascii.eqb_eq in H0 as ->. simpl. rewrite (bool_decide_eq_true_2 (m = _)) by tauto.
      by rewrite IH.
    + cbn [app unescape_bytes]. change (Ascii.eqb percent_byte percent_byte) with true. cbv iota.
      destruct (upper_hex_val (byte_val c / 16)) as [-> _]; [euclid|].
      destruct (upper_hex_val (byte_val c mod 16)) as [-> _]; [euclid|].
      assert (hex_allowed m (byte_val c / 16 * 16 + byte_val c mod 16) = true) as -> by (by destruct m).
      rewrite IH. simpl. f_equal. f_equal. apply byte_of_eq. euclid.
  - destruct (plain_byte m' c E) as (Hp & Hplus & _). cbn [app unescape_bytes]. rewrite Hp.
    rewrite Hm. assert (Ascii.eqb c "+" && bool_decide (m = encodeQueryComponent) = false) as ->.
    { destruct (Ascii.eqb c "+") eqn:Ec; [|done]. simpl. apply bool_decide_eq_false_2.
      intros Hc. specialize (Hplus (proj1 Hq Hc)). discriminate Hplus. }
    simpl. by rewrite IH.
Qed.

Lemma unescape_plain m l : in_host m = false →
  Forall (λ c, Ascii.eqb c percent_byte = false ∧ Ascii.eqb c "+" = false) l →
  unescape_bytes m l = Some l.
Proof.
  intros Hm. induction 1 as [|c l [Hp Hc] Hl IH]; cbn [unescape_bytes]; [done|].
  rewrite Hp, Hc, Hm. cbn [andb]. by rewrite IH.
Qed.

Lemma QueryUnescape_QueryEscape s : QueryUnescape (QueryEscape s) = Some s.
Proof.
  unfold QueryUnescape, QueryEscape, unescape, escape. rewrite explode_implode.
  rewrite unescape_escape by done. simpl. by rewrite implode_explode.
Qed.

Lemma cut_on_absent c l : c ∉ l → cut_on c l = None.
Proof.
  induction l as [|d l IH]; [done|]. intros Hc. apply not_elem_of_cons in Hc as [Hne Hc]. simpl.
  rewrite (proj2 (Ascii.eqb_neq c d)) by done. by rewrite IH.
Qed.
Lemma cut_on_app c a b : c ∉ a → cut_on c (a ++ c :: b) = Some (a, b).
Proof.
  induction a as [|d a IH]; intros Hc; simpl; [by rewrite Ascii.eqb_refl|].
  apply not_elem_of_cons in Hc as [Hne Hc]. rewrite (proj2 (Ascii.eqb_neq c d)) by done. by rewrite IH.
Qed.

(** The fragment, and nothing else, follows the first '#'. *)
Lemma ParseURL_fragment `{Unicode} base frag :
  "#"%char ∉ explode base → frag ≠ "" →
  ParseURL (base +:+ "#" +:+ escape encodePathSegment frag) =
    (λ u, u <| URL.Fragment := frag |>) <$> parse_base base.
Proof.
  intros Hb Hf. unfold ParseURL, cut_or, Cut. rewrite !explode_app.
  change (explode "#") with ["#"%char]. cbn [app]. rewrite cut_on_app by done.
  unfold escape. rewrite explode_implode. simpl. rewrite implode_explode.
  destruct (parse_base base) as [u|]; [|done]. simpl.
  destruct (String.eqb_spec (implode (escape_bytes encodePathSegment (explode frag))) "") as [E|_].
  { exfalso. apply Hf. apply (f_equal explode) in E. rewrite explode_implode in E.
    destruct frag as [|c s]; [done|]. exfalso. change (explode (String c s)) with (c :: explode s) in E.
    simpl in E. unfold escape_byte in E. by repeat case_if_in E. }
  unfold unescape. rewrite explode_implode, unescape_escape by done. simpl.
  by rewrite implode_explode.
Qed.

Lemma ParseURL_plain `{Unicode} base :
  "#"%char ∉ explode base → ParseURL base = parse_base base.
Proof.
  intros Hb. unfold ParseURL, cut_or, Cut. rewrite cut_on_absent by done. simpl.
  by destruct (parse_base base).
Qed.
