(* ===== verification/Links.v ===== *)
(** * Node links: [internal/parser/parser.go] and [protocols.go]

    The readers of single links: vmess, vless, trojan, ss, ssr, hysteria2 and
    tuic, with their helpers.  JSON text is a parameter ([LinkJson]). *)
From S2P Require Import Prelude GoStr GoFloat GoTime Model Base64 Ratelimit NetAddr.
From S2P Require Import NetUrl.

(** ** Helpers *)

Definition link_schemes : list string :=
  ["vmess://"; "vless://"; "trojan://"; "ss://"; "ssr://"; "hysteria2://"; "hy2://"; "tuic://"].

Section helpers.
Context `{Unicode}.

(** [looksLikeURI] *)
Definition looksLikeURI (s : string) : bool :=
  let s := ToLower (TrimSpace s) in existsb (HasPrefix s) link_schemes.

(** [truthy] *)
Definition truthy (s : string) : bool :=
  let s := ToLower (TrimSpace s) in bool_decide (s ∈ ["1"; "true"; "yes"; "tls"; "reality"]).

(** [splitLines]: carriage returns, alone or before a newline, are newlines *)
Definition cr : ascii := byte_of 13.
Definition lf : ascii := byte_of 10.
Fixpoint unix_lines (l : bytes) : bytes :=
  match l with
  | [] => []
  | c :: l =>
      if Ascii.eqb c cr then
        lf :: match l with d :: l' => if Ascii.eqb d lf then unix_lines l' else unix_lines l | [] => [] end
      else c :: unix_lines l
  end.
Definition splitLines (s : string) : list string := Split (implode (unix_lines (explode s))) lf.

(** [isMostlyPrintable]: fewer than a tenth of the bytes are control
    characters *)
Definition bad_rune (r : option bytes) : bool :=
  match r with
  | Some [c] =>
      let v := byte_val c in
      negb ((v =? 10) || (v =? 13) || (v =? 9)) && ((v <? 32) || (v =? 127))
  | _ => false
  end.
Definition isMostlyPrintable (s : string) : bool :=
  if (s =? "")%string then false
  else Z.of_nat (length (List.filter bad_rune (runes s))) * 10 <? slen s.

(** The padding that completes a text to groups of four *)
Definition pad4 (s : string) : string :=
  let m := slen s mod 4 in
  if m =? 0 then s else s +:+ implode (replicate (Z.to_nat (4 - m)) pad_char).

Definition all_encodings : list encoding := [StdEncoding; URLEncoding; RawStdEncoding; RawURLEncoding].

(** The first of the encodings that decodes the text to something that passes *)
Fixpoint decode_first (ok : string → bool) (es : list encoding) (s : string) : option string :=
  match es with
  | [] => None
  | e :: es =>
      match DecodeString e s with
      | Some out => if ok out then Some out else decode_first ok es s
      | None => decode_first ok es s
      end
  end.

(** The bytes of [b64Re] *)
Definition b64_text_byte (c : ascii) : bool := alnum c || one_of "+/=" c.
Definition space_rune (r : option bytes) : bool :=
  match r with Some b => bool_decide (b ∈ space_runes) | None => false end.

(** [tryDecodeBase64] *)
Definition tryDecodeBase64 (s : string) : option string :=
  let s := TrimSpace s in
  if (s =? "")%string || looksLikeURI s then None
  else
    let compact := map_drop space_rune s in
    if (slen compact <? 16) || negb (forallb b64_text_byte (explode compact)) then None
    else decode_first isMostlyPrintable all_encodings (pad4 compact).

(** [decodeMaybeBase64] *)
Definition decodeMaybeBase64 (s : string) : string :=
  let compact := TrimSpace s in
  if (compact =? "")%string then ""
  else default s (decode_first isMostlyPrintable all_encodings (pad4 compact)).

(** [firstNonEmpty] and [queryGet] *)
Definition firstNonEmpty (vals : list string) : string :=
  default "" (List.find (λ v, negb (TrimSpace v =? "")%string) vals).
Definition queryGet (q : values) (keys : list string) : string :=
  default "" (List.find (λ v, negb (v =? "")%string) (Get q <$> keys)).

(** [atoiDefault] *)
Definition atoiDefault (s : string) (d : Z) : Z :=
  let s := TrimSpace s in
  if (s =? "")%string then d
  else let '(n, ok) := Atoi s in if ok then n else d.

(** [parseNameFromFragment], on a URL that is not nil *)
Definition parseNameFromFragment (u : URL.t) (fallback : string) : string :=
  if (URL.Fragment u =? "")%string then fallback
  else match QueryUnescape (URL.Fragment u) with
       | Some name => if (name =? "")%string then URL.Fragment u else name
       | None => URL.Fragment u
       end.

(** [splitHostPort] *)
Definition count_byte (c : ascii) (l : bytes) : Z := Z.of_nat (length (List.filter (Ascii.eqb c) l)).
Definition splitHostPort (hostport defaultPort : string) : result (string * string) :=
  let hostport := TrimSpace hostport in
  let split := match SplitHostPort2 hostport with
               | Some hp => Ok hp | None => Err (ErrMsg "address") end in
  if (hostport =? "")%string then Err (ErrMsg "empty host")
  else if HasPrefix hostport "[" then split
  else if count_byte ":" (explode hostport) =? 1 then split
  else Ok (hostport, defaultPort).

(** [firstPort] *)
Definition before (s : string) (c : ascii) : string := default s (fst <$> Cut s c).
Definition firstPort (spec : string) (fallback : Z) : Z :=
  let first := TrimSpace (before spec ",") in
  let first := TrimSpace (before first "-") in
  atoiDefault first fallback.

(** [anyToInt], on what [encoding/json] puts in an [any] *)
Definition anyToInt (v : option json) : Z :=
  match v with
  | Some (JNum x) => f_to_int64 x
  | Some (JStr s) => (Atoi (TrimSpace s)).1
  | _ => 0
  end.
End helpers.

(** ** The links *)

(** [vmessJSON]; an [any] is nil when the field is absent or null *)
Module VMess.
Record t := mk {
  PS : string;
  Add_ : string;
  Port : option json;
  ID : string;
  Aid : option json;
  Scy : string;
  Net : string;
  Type_ : string;
  Host : string;
  Path : string;
  TLS : string;
  SNI : string;
  Alpn : string;
  FP : string;
  AllowInsecure : option json;
  Insecure : option json;
}.
End VMess.

(** [encoding/json] on the objects of the links: into the struct; of a map;
    into a map, which the text [null] leaves nil ([Some None]) *)
Class LinkJson := {
  vmess_unmarshal : string → option VMess.t;
  opts_marshal : gmap string json → option string;
  object_unmarshal : string → option (option (gmap string json));
}.

Section links.
Context `{Unicode} `{Crypto} `{FmtAny} `{LinkJson}.

(** [n.Fingerprint = n.Key()] *)
Definition fingerprinted (n : node) : node := n <| Node.Fingerprint := Key n |>.

(** The node of a link with nothing but what all of them set *)
Definition link_node (protocol raw source name host : string) (port : Z) : node :=
  Node.zero <| Node.Protocol := protocol |> <| Node.Name := name |> <| Node.Server := host |>
    <| Node.Port := port |> <| Node.RawURI := raw |> <| Node.Source := source |>.

Definition fallback_name (kind host : string) (port : Z) : string :=
  kind +:+ "-" +:+ host +:+ "-" +:+ Itoa port.

(** [strings.Index(s, "#")] and the part before it *)
Definition without_fragment (s : string) : string := before s "#".

(** [parseVMess] *)
Definition vmess_extra (j : VMess.t) : gmap string string :=
  let extra := <["aid" := fmt_any (VMess.Aid j)]> {["type" := VMess.Type_ j]} in
  let extra := if (VMess.FP j =? "")%string then extra else <["fp" := VMess.FP j]> extra in
  let extra := match VMess.AllowInsecure j with
               | Some v => <["allowInsecure" := fmt_any (Some v)]> extra | None => extra end in
  match VMess.Insecure j with
  | Some v => <["insecure" := fmt_any (Some v)]> extra | None => extra end.
Definition vmess_node (raw source : string) (j : VMess.t) (port : Z) : node :=
  let name := if (VMess.PS j =? "")%string then fallback_name "vmess" (VMess.Add_ j) port
              else VMess.PS j in
  fingerprinted ((link_node ProtoVMess raw source name (VMess.Add_ j) port)
    <| Node.UUID := VMess.ID j |> <| Node.Method := VMess.Scy j |>
    <| Node.Network := firstNonEmpty [VMess.Net j; "tcp"] |> <| Node.TLS := truthy (VMess.TLS j) |>
    <| Node.SNI := firstNonEmpty [VMess.SNI j; VMess.Host j] |> <| Node.Path := VMess.Path j |>
    <| Node.Host := VMess.Host j |> <| Node.ALPN := VMess.Alpn j |>
    <| Node.Extra := vmess_extra j |>).
Definition parseVMess (raw source : string) : result node :=
  let payload := TrimPrefix (TrimPrefix raw "vmess://") "VMESS://" in
  let payload := pad4 (TrimSpace (without_fragment payload)) in
  match decode_first (λ _, true) all_encodings payload with
  | None => Err (ErrMsg "vmess base64")
  | Some data =>
      match vmess_unmarshal data with
      | None => Err (ErrMsg "vmess json")
      | Some j =>
          let port := anyToInt (VMess.Port j) in
          if (VMess.Add_ j =? "")%string || (port <=? 0) then Err (ErrMsg "vmess missing server/port")
          else Ok (vmess_node raw source j port)
      end
  end.

(** The extra fields that are read off a query: the field and the keys *)
Definition query_extra (q : values) (fields : list (string * list string)) : gmap string string :=
  list_to_map ((λ fk, (fk.1, queryGet q fk.2)) <$> fields).

Definition username (u : URL.t) : string := from_option fst "" (URL.User u).
Definition password (u : URL.t) : option string := URL.User u ≫= snd.
Definition full_password (u : URL.t) : string :=
  username u +:+ match password u with Some p => ":" +:+ p | None => "" end.
Definition query_of (u : URL.t) : values := (ParseQuery (URL.RawQuery u)).1.

(** [url.Parse], then [splitHostPort] on the host with the default port 443 *)
Definition parse_link (raw : string) : result (URL.t * string * Z) :=
  match ParseURL raw with
  | None => Err (ErrMsg "url")
  | Some u =>
      let! hp := splitHostPort (URL.Host u) "443" in
      Ok (u, hp.1, atoiDefault hp.2 443)
  end.

(** [parseVLESS] *)
Definition insecure_keys : string * list string :=
  ("insecure", ["insecure"; "allowInsecure"; "skip-cert-verify"]).
Definition vless_fields : list (string * list string) :=
  [("encryption", ["encryption"]); ("fp", ["fp"]); ("pbk", ["pbk"]); ("sid", ["sid"]);
   ("spx", ["spx"]); ("serviceName", ["serviceName"]); ("headerType", ["headerType"]);
   ("mode", ["mode"]); ("packet-encoding", ["packetEncoding"; "packet-encoding"]);
   ("max-early-data", ["ed"; "max-early-data"]);
   ("early-data-header-name", ["eh"; "early-data-header-name"]); insecure_keys].
Definition vless_node (raw source : string) (u : URL.t) (host : string) (port : Z) : node :=
  let q := query_of u in
  let sec := queryGet q ["security"] in
  fingerprinted ((link_node ProtoVLESS raw source
      (parseNameFromFragment u (fallback_name "vless" host port)) host port)
    <| Node.UUID := username u |>
    <| Node.Network := firstNonEmpty [queryGet q ["type"; "net"]; "tcp"] |>
    <| Node.TLS := truthy sec || (sec =? "tls")%string || (sec =? "reality")%string |>
    <| Node.SNI := queryGet q ["sni"; "peer"] |> <| Node.Path := queryGet q ["path"] |>
    <| Node.Host := queryGet q ["host"] |> <| Node.Flow := queryGet q ["flow"] |>
    <| Node.Security := sec |> <| Node.ALPN := queryGet q ["alpn"] |>
    <| Node.Extra := query_extra q vless_fields |>).
Definition parseVLESS (raw source : string) : result node :=
  let! (u, host, port) := parse_link raw in Ok (vless_node raw source u host port).

(** [parseTrojan] *)
Definition trojan_fields : list (string * list string) :=
  [("fp", ["fp"]); ("pbk", ["pbk"]); ("sid", ["sid"]); ("serviceName", ["serviceName"]);
   ("headerType", ["headerType"]); ("mode", ["mode"]); ("max-early-data", ["ed"; "max-early-data"]);
   ("early-data-header-name", ["eh"; "early-data-header-name"]); insecure_keys].
Definition trojan_security (q : values) : string :=
  if (ToLower (queryGet q ["security"]) =? "reality")%string || negb (queryGet q ["pbk"] =? "")%string
  then "reality" else "tls".
Definition trojan_node (raw source : string) (u : URL.t) (host : string) (port : Z) : node :=
  let q := query_of u in
  fingerprinted ((link_node ProtoTrojan raw source
      (parseNameFromFragment u (fallback_name "trojan" host port)) host port)
    <| Node.Password := full_password u |>
    <| Node.Network := firstNonEmpty [queryGet q ["type"]; "tcp"] |> <| Node.TLS := true |>
    <| Node.SNI := queryGet q ["sni"; "peer"] |> <| Node.Path := queryGet q ["path"] |>
    <| Node.Host := queryGet q ["host"] |> <| Node.ALPN := queryGet q ["alpn"] |>
    <| Node.Extra := query_extra q trojan_fields |> <| Node.Security := trojan_security q |>).
Definition parseTrojan (raw source : string) : result node :=
  let! (u, host, port) := parse_link raw in Ok (trojan_node raw source u host port).

(** [parseSS] *)
Definition ss_plugin_item (opts : gmap string json) (item : string) : gmap string json :=
  match Cut item "=" with
  | Some (key, value) =>
      if negb (key =? "")%string then <[key := JStr value]> opts else <[item := JBool true]> opts
  | None => if (item =? "")%string then opts else <[item := JBool true]> opts
  end.
Definition ss_extra (pluginSpec : string) : gmap string string :=
  if (pluginSpec =? "")%string then ∅
  else
    let parts := Split pluginSpec ";" in
    let opts := fold_left ss_plugin_item (tail parts) ∅ in
    let extra := {["plugin" := default "" (head parts)]} in
    if bool_decide (opts = ∅) then extra
    else match opts_marshal opts with Some raw => <["plugin-opts" := raw]> extra | None => extra end.

(** The four parts of a link: method, password, host and port *)
Definition ss_address (hp : string) : result (string * Z) :=
  let! x := splitHostPort hp "8388" in Ok (x.1, atoiDefault x.2 8388).
Definition ss_parts (body : string) : result (string * string * string * Z) :=
  match Cut body "@" with
  | Some (userinfo, hp) =>
      let userinfo := default userinfo (tryDecodeBase64 userinfo) in
      match Cut userinfo ":" with
      | None => Err (ErrMsg "ss bad userinfo")
      | Some (method, pass) => let! a := ss_address hp in Ok (method, pass, a.1, a.2)
      end
  | None =>
      match tryDecodeBase64 body with
      | None => Err (ErrMsg "ss decode failed")
      | Some decoded =>
          match CutLast decoded "@" with
          | None => Err (ErrMsg "ss missing @")
          | Some (userinfo, hp) =>
              let '(method, pass) := default ("", "") (Cut userinfo ":") in
              let! a := ss_address hp in Ok (method, pass, a.1, a.2)
          end
      end
  end.
(** What the link says about the name and the plugin, and its body *)
Definition ss_name (body : string) : string :=
  match Cut body "#" with
  | Some (_, fragment) => default "" (QueryUnescape fragment)
  | None => ""
  end.
Definition ss_plugin (body : string) : string :=
  match Cut body "?" with
  | Some (_, query) => let '(q, ok) := ParseQuery query in if ok then Get q "plugin" else ""
  | None => ""
  end.
Definition parseSS (raw source : string) : result node :=
  let body := TrimPrefix (TrimPrefix raw "ss://") "SS://" in
  let name := ss_name body in
  let body := before body "#" in
  let pluginSpec := ss_plugin body in
  let body := TrimSuffix (before body "?") "/" in
  let! (method, pass, host, port) := ss_parts body in
  let name := if (name =? "")%string then fallback_name "ss" host port else name in
  Ok (fingerprinted ((link_node ProtoSS raw source name host port)
    <| Node.Method := method |> <| Node.Password := pass |> <| Node.Extra := ss_extra pluginSpec |>)).

(** [parseSSR] *)
Definition ssr_split (decoded : string) : string * string :=
  let i := Index decoded "/?" in
  if 0 <=? i then (slice_to decoded i, slice_from decoded (i + 2)) else cut_or decoded "?".
Definition ssr_name (params fallback : string) : string :=
  let r := Get (ParseQuery params).1 "remarks" in
  if (params =? "")%string || (r =? "")%string then fallback else default r (tryDecodeBase64 r).
Definition ssr_extra (params protocol obfs : string) : gmap string string :=
  let q := (ParseQuery params).1 in
  list_to_map
    [("protocol", protocol); ("obfs", obfs);
     ("protocol-param", decodeMaybeBase64 (firstNonEmpty [Get q "protoparam"; Get q "protocolparam"]));
     ("obfs-param", decodeMaybeBase64 (Get q "obfsparam"))].
Definition parseSSR (raw source : string) : result node :=
  match tryDecodeBase64 (TrimPrefix (TrimPrefix raw "ssr://") "SSR://") with
  | None => Err (ErrMsg "ssr decode failed")
  | Some decoded =>
      let '(main, params) := ssr_split decoded in
      let parts := Split main ":" in
      if (length parts <? 6)%nat then Err (ErrMsg "ssr format")
      else
        let offset := (length parts - 5)%nat in
        let part i := default "" (parts !! (offset + i)%nat) in
        let host := Trim (Join (take offset parts) ":") "[]" in
        let port := atoiDefault (part 0%nat) 0 in
        Ok (fingerprinted ((link_node ProtoSSR raw source
            (ssr_name params (fallback_name "ssr" host port)) host port)
          <| Node.Method := part 2%nat |> <| Node.Password := decodeMaybeBase64 (part 4%nat) |>
          <| Node.Extra := ssr_extra params (part 1%nat) (part 3%nat) |>))
  end.

(** [strings.LastIndex] *)
Definition str_rev (s : string) : string := implode (rev (explode s)).
Definition LastIndex (s sub : string) : Z :=
  let i := Index (str_rev s) (str_rev sub) in
  if i <? 0 then -1 else slen s - slen sub - i.

(** [parseHysteriaURL]: a list or a range of ports, which no URL may have, is
    replaced with its first port. *)
Fixpoint take_authority (l : bytes) : bytes :=
  match l with
  | [] => []
  | c :: l => if one_of "/?#" c then [] else c :: take_authority l
  end.
Definition split_authority (s : string) : string * string :=
  let a := implode (take_authority (explode s)) in (a, slice_from s (slen a)).
Definition port_colon (hostPort : string) : Z :=
  if HasPrefix hostPort "[" then
    let i := LastIndex hostPort "]:" in if 0 <=? i then i + 1 else i
  else LastIndex hostPort ":".
Definition parseHysteriaURL (raw : string) : option (URL.t * string) :=
  match ParseURL raw with
  | Some u => Some (u, "")
  | None =>
      let schemeEnd := Index raw "://" in
      if schemeEnd <? 0 then None
      else
        let start := schemeEnd + 3 in
        let '(authority, tail) := split_authority (slice_from raw start) in
        let hostStart := LastIndex authority "@" + 1 in
        let hostPort := slice_from authority hostStart in
        let colon := port_colon hostPort in
        if colon <? 0 then None
        else
          let ports := slice_from hostPort (colon + 1) in
          let port := firstPort ports 0 in
          if negb (ContainsAny ports ",-") || (port <=? 0) then None
          else
            let front := slice_to raw (start + hostStart + colon + 1) in
            (λ u, (u, ports)) <$> ParseURL (front +:+ Itoa port +:+ tail)
  end.

(** [parseHysteria2] *)
Definition hysteria_fields : list (string * list string) :=
  [("obfs", ["obfs"]); ("obfs-password", ["obfs-password"; "obfsPassword"]); ("fp", ["fp"]);
   ("fingerprint", ["pinSHA256"; "fingerprint"]); ("ech", ["ech"]); insecure_keys].
Definition hysteria_node (raw source ports : string) (u : URL.t) (host : string) (port : Z) : node :=
  let q := query_of u in
  let extra := query_extra q hysteria_fields in
  fingerprinted ((link_node ProtoHysteria2 raw source
      (parseNameFromFragment u (fallback_name "hy2" host port)) host port)
    <| Node.Password := full_password u |> <| Node.TLS := true |>
    <| Node.SNI := queryGet q ["sni"; "peer"] |> <| Node.ALPN := queryGet q ["alpn"] |>
    <| Node.Extra := if (ports =? "")%string then extra else <["ports" := ports]> extra |>).
Definition parseHysteria2 (raw source : string) : result node :=
  match parseHysteriaURL raw with
  | None => Err (ErrMsg "url")
  | Some (u, ports) =>
      let! hp := splitHostPort (URL.Host u) "443" in
      Ok (hysteria_node raw source ports u hp.1 (firstPort hp.2 443))
  end.

(** [parseTUIC] *)
Definition tuic_fields : list (string * list string) :=
  [("congestion_control", ["congestion_control"; "congestion-control"]);
   ("udp_relay_mode", ["udp_relay_mode"; "udp-relay-mode"]); ("fp", ["fp"]);
   ("fingerprint", ["fingerprint"; "pinSHA256"]);
   ("name-cert-verify", ["name-cert-verify"; "name_cert_verify"]); ("ip", ["ip"]);
   ("heartbeat-interval", ["heartbeat-interval"; "heartbeat_interval"]);
   ("disable-sni", ["disable-sni"; "disable_sni"]); ("reduce-rtt", ["reduce-rtt"; "reduce_rtt"]);
   ("request-timeout", ["request-timeout"; "request_timeout"]);
   ("max-udp-relay-packet-size", ["max-udp-relay-packet-size"; "max_udp_relay_packet_size"]);
   ("fast-open", ["fast-open"; "fast_open"]);
   ("max-open-streams", ["max-open-streams"; "max_open_streams"]); insecure_keys].
Definition tuic_node (raw source : string) (u : URL.t) (host : string) (port : Z) : node :=
  let q := query_of u in
  let pass := default "" (password u) in
  let token := queryGet q ["token"] in
  let '(token, uuid) := if (pass =? "")%string && (token =? "")%string then (username u, "")
                        else (token, username u) in
  fingerprinted ((link_node ProtoTUIC raw source
      (parseNameFromFragment u (fallback_name "tuic" host port)) host port)
    <| Node.UUID := uuid |> <| Node.Password := pass |> <| Node.TLS := true |>
    <| Node.SNI := queryGet q ["sni"; "peer"] |> <| Node.ALPN := queryGet q ["alpn"] |>
    <| Node.Extra := <["token" := token]> (query_extra q tuic_fields) |>).
Definition parseTUIC (raw source : string) : result node :=
  let! (u, host, port) := parse_link raw in Ok (tuic_node raw source u host port).

(** [ParseURI] *)
Definition ParseURI (raw source : string) : result node :=
  let raw := TrimSpace raw in
  let lower := ToLower raw in
  if HasPrefix lower "vmess://" then parseVMess raw source
  else if HasPrefix lower "vless://" then parseVLESS raw source
  else if HasPrefix lower "trojan://" then parseTrojan raw source
  else if HasPrefix lower "ss://" then parseSS raw source
  else if HasPrefix lower "ssr://" then parseSSR raw source
  else if HasPrefix lower "hysteria2://" || HasPrefix lower "hy2://" then parseHysteria2 raw source
  else if HasPrefix lower "tuic://" then parseTUIC raw source
  else Err (ErrMsg "unsupported scheme").
End links.
