(* ===== verification/Clash.v ===== *)
(** * Clash proxies: [internal/parser/clash.go]

    The mapping from a proxy of a Clash or Mihomo configuration to a node, and
    to a link.  The document is a tree of Go values ([any]); YAML and JSON text
    are parameters ([ClashCodec]). *)
From S2P Require Import Prelude GoStr GoFloat GoTime Model Base64 Ratelimit NetAddr.
From S2P Require Import NetUrl Links.

(** A value of a decoded document: nil, a string, an integer, a float, a
    boolean, a list, a list of strings (which only the program makes), a map;
    [AOther] is a value of a type that no function here looks at (a timestamp, an
    unsigned integer that does not fit). *)
Inductive any :=
  | ANil
  | AStr (s : string)
  | AInt (z : Z)
  | AFloat (x : float64)
  | ABool (b : bool)
  | AList (l : list any)
  | AStrs (l : list string)
  | AMap (m : gmap string any)
  | AOther.
Abbreviation amap := (gmap string any).

(** [yaml.Unmarshal] into a map ([None] on an error; an empty document gives
    an empty map), [yaml.Marshal] and [json.Marshal] of a map *)
Class ClashCodec := {
  yaml_object : string → option amap;
  yaml_text : amap → option string;
  json_object : amap → option string;
}.

(** [m[k]] *)
Definition at_key (m : amap) (k : string) : any := default ANil (m !! k).

Section values.
Context `{Unicode}.

(** [asString], [asInt], [asBool], [asMap], [asCSV] *)
Definition asString (v : any) : string :=
  match v with
  | AStr s => s
  | AInt z => Itoa z
  | AFloat x => Itoa (f_to_int64 x)
  | ABool b => if b then "true" else "false"
  | _ => ""
  end.
Definition asInt (v : any) : Z :=
  match v with
  | AInt z => z
  | AFloat x => f_to_int64 x
  | AStr s => (Atoi (TrimSpace s)).1
  | _ => 0
  end.
Definition asBool (v : any) : bool :=
  match v with
  | ABool b => b
  | AStr s => truthy s
  | AInt z => negb (z =? 0)
  | _ => false
  end.
Definition asMap (v : any) : option amap := match v with AMap m => Some m | _ => None end.
Definition nonempty (s : string) : bool := negb (s =? "")%string.
Definition asCSV (v : any) : string :=
  match v with
  | AList l => Join (List.filter nonempty (asString <$> l)) ","
  | AStrs l => Join l ","
  | _ => asString v
  end.

(** [firstListValue], [firstAny], [firstStr], [boolToTLS] *)
Definition firstListValue (v : any) : string :=
  match v with
  | AList (x :: _) => asString x
  | AList [] => ""
  | AStrs l => default "" (head l)
  | _ => asString v
  end.
Definition firstAny (m : amap) (keys : list string) : any :=
  default ANil (head (omap (λ k, m !! k) keys)).
Definition firstStr (m : amap) (keys : list string) : string :=
  default "" (List.find nonempty ((λ k, asString (at_key m k)) <$> keys)).
Definition boolToTLS (v : any) : string := if asBool v then "tls" else "".

(** The value under a key of the map under another *)
Definition sub_key (m : amap) (k k' : string) : any :=
  match asMap (at_key m k) with Some opts => at_key opts k' | None => ANil end.
Definition header_host (opts : amap) : string :=
  match asMap (at_key opts "headers") with
  | Some headers => firstListValue (firstAny headers ["Host"; "host"])
  | None => ""
  end.

(** [clashHost] and [clashPath]: the first place that has one *)
Definition clashHost (m : amap) : string :=
  default "" (List.find nonempty
    [asString (at_key m "host");
     from_option header_host "" (asMap (at_key m "ws-opts"));
     from_option header_host "" (asMap (at_key m "xhttp-opts"));
     firstListValue (sub_key m "http-upgrade-opts" "host");
     firstListValue (sub_key m "h2-opts" "host");
     from_option header_host "" (asMap (at_key m "http-opts"))]).
Definition clashPath (m : amap) : string :=
  default "" (List.find nonempty
    [asString (at_key m "path"); asString (sub_key m "ws-opts" "path");
     asString (sub_key m "xhttp-opts" "path"); asString (sub_key m "http-upgrade-opts" "path");
     firstListValue (sub_key m "h2-opts" "path"); firstListValue (sub_key m "http-opts" "path")]).
End values.

(** ** From a proxy to a node *)

Section clash.
Context `{Unicode} `{Crypto} `{ClashCodec}.

(** [looksLikeClash] *)
Definition looksLikeClash (content : string) : bool :=
  let low := ToLower (if 4096 <? slen content then slice_to content 4096 else content) in
  if Contains low "proxies:" then true
  else existsb (Contains low) ["type: vmess"; "type: vless"; "type: trojan"; "type: ss";
                               "type: hysteria"; "type: tuic"]
       && Contains low "server:".

Definition set_extra (k v : string) (n : node) : node :=
  n <| Node.Extra := <[k := v]> (Node.Extra n) |>.
Definition set_extra_if (k v : string) (n : node) : node := if nonempty v then set_extra k v n else n.
(** [if raw, err := json.Marshal(opts); err == nil] *)
Definition set_extra_json (k : string) (opts : option amap) (n : node) : node :=
  match opts ≫= json_object with Some raw => set_extra k raw n | None => n end.

Definition clash_base (m : amap) (source : string) : node :=
  Node.zero <| Node.Name := asString (at_key m "name") |>
    <| Node.Server := asString (at_key m "server") |> <| Node.Port := asInt (at_key m "port") |>
    <| Node.Source := source |> <| Node.TLS := asBool (at_key m "tls") |>
    <| Node.SNI := firstStr m ["sni"; "servername"] |> <| Node.UUID := asString (at_key m "uuid") |>
    <| Node.Password := firstStr m ["password"; "auth"] |>
    <| Node.Method := firstStr m ["cipher"; "security"] |>
    <| Node.Network := let net := firstStr m ["network"; "net"] in if nonempty net then net else "tcp" |>
    <| Node.Flow := asString (at_key m "flow") |> <| Node.ALPN := asCSV (at_key m "alpn") |>.

Definition clash_common (m : amap) (n : node) : node :=
  let n := if asBool (at_key m "skip-cert-verify") then set_extra "skip-cert-verify" "true" n else n in
  let n := set_extra_if "fp" (asString (at_key m "client-fingerprint")) n in
  let n := set_extra_if "fingerprint" (asString (at_key m "fingerprint")) n in
  let n := set_extra_if "name-cert-verify" (asString (at_key m "name-cert-verify")) n in
  set_extra_if "packet-encoding" (asString (at_key m "packet-encoding")) n.

Definition clash_security (m : amap) (n : node) : node :=
  match asMap (at_key m "reality-opts") with
  | Some reality =>
      let n := n <| Node.Security := "reality" |> <| Node.TLS := true |> in
      let n := set_extra "pbk" (firstStr reality ["public-key"; "public_key"]) n in
      let n := set_extra "sid" (firstStr reality ["short-id"; "short_id"]) n in
      set_extra_json "reality-opts" (Some reality) n
  | None => if Node.TLS n then n <| Node.Security := "tls" |> else n
  end.

Definition tls_option_keys : list string :=
  ["ech-opts"; "shadow-tls-opts"; "restls-opts"; "jls-opts"; "tlsmirror-opts"].
Definition clash_tls_opts (m : amap) (n : node) : node :=
  fold_left (λ n k, set_extra_json k (asMap (at_key m k)) n) tls_option_keys n.

(** [applyClashTransport] *)
Definition options_key (network : string) : string :=
  if bool_decide (network ∈ ["ws"; "websocket"]) then "ws-opts"
  else if (network =? "grpc")%string then "grpc-opts"
  else if (network =? "http")%string then "http-opts"
  else if (network =? "h2")%string then "h2-opts"
  else if (network =? "httpupgrade")%string then "http-upgrade-opts"
  else if bool_decide (network ∈ ["xhttp"; "splithttp"]) then "xhttp-opts"
  else "".
Definition set_host_from (opts : amap) (n : node) : node :=
  match asMap (at_key opts "headers") with
  | Some headers => n <| Node.Host := firstListValue (firstAny headers ["Host"; "host"]) |>
  | None => n
  end.
Definition ws_transport (opts : amap) (n : node) : node :=
  let n := set_host_from opts (n <| Node.Path := asString (at_key opts "path") |>) in
  let n := set_extra_if "max-early-data" (asString (at_key opts "max-early-data")) n in
  set_extra_if "early-data-header-name" (asString (at_key opts "early-data-header-name")) n.
Definition grpc_transport (opts : amap) (n : node) : node :=
  set_extra "mode" (firstStr opts ["grpc-mode"; "mode"])
    (set_extra "serviceName" (firstStr opts ["grpc-service-name"; "serviceName"]) n).
Definition http_transport (opts : amap) (n : node) : node :=
  set_host_from opts (n <| Node.Path := firstListValue (at_key opts "path") |>).
Definition h2_transport (opts : amap) (n : node) : node :=
  n <| Node.Path := firstListValue (at_key opts "path") |>
    <| Node.Host := firstListValue (at_key opts "host") |>.
Definition upgrade_transport (opts : amap) (n : node) : node :=
  n <| Node.Path := asString (at_key opts "path") |> <| Node.Host := asString (at_key opts "host") |>.
Definition xhttp_transport (opts : amap) (n : node) : node :=
  let n := n <| Node.Path := asString (at_key opts "path") |> in
  set_host_from opts (set_extra "mode" (asString (at_key opts "mode")) n).

Definition with_opts (m : amap) (k : string) (f : amap → node → node) (n : node) : node :=
  match asMap (at_key m k) with Some opts => f opts n | None => n end.
Definition transport_fields (network : string) (m : amap) (n : node) : node :=
  if bool_decide (network ∈ ["ws"; "websocket"]) then with_opts m "ws-opts" ws_transport n
  else if (network =? "grpc")%string then with_opts m "grpc-opts" grpc_transport n
  else if (network =? "http")%string then with_opts m "http-opts" http_transport n
  else if (network =? "h2")%string then with_opts m "h2-opts" h2_transport n
  else if (network =? "httpupgrade")%string then with_opts m "http-upgrade-opts" upgrade_transport n
  else if bool_decide (network ∈ ["xhttp"; "splithttp"]) then
    with_opts m "xhttp-opts" xhttp_transport (n <| Node.Network := "xhttp" |>)
  else n.
Definition default_path (m : amap) (n : node) : node :=
  if nonempty (Node.Path n) then n else n <| Node.Path := clashPath m |>.
Definition default_host (m : amap) (n : node) : node :=
  if nonempty (Node.Host n) then n else n <| Node.Host := clashHost m |>.
Definition applyClashTransport (m : amap) (n : node) : node :=
  let network := ToLower (Node.Network n) in
  let n := set_extra_json "clash-transport-opts" (asMap (at_key m (options_key network))) n in
  default_host m (default_path m (transport_fields network m n)).

(** The fields of each type; [None] for a type that is not known *)
Definition set_extras (l : list (string * string)) (n : node) : node :=
  fold_left (λ n kv, set_extra kv.1 kv.2 n) l n.
Definition same_keys (m : amap) (keys : list string) : list (string * string) :=
  (λ k, (k, asString (at_key m k))) <$> keys.
Definition clash_ss (m : amap) (n : node) : node :=
  let n := n <| Node.Protocol := ProtoSS |> in
  let plugin := asString (at_key m "plugin") in
  if nonempty plugin then
    set_extra_json "plugin-opts" (asMap (at_key m "plugin-opts")) (set_extra "plugin" plugin n)
  else n.
Definition clash_ssr (m : amap) (n : node) : node :=
  set_extras (same_keys m ["protocol"; "obfs"; "protocol-param"; "obfs-param"])
    (n <| Node.Protocol := ProtoSSR |>).
Definition hysteria_keys : list string :=
  ["ports"; "hop-interval"; "up"; "down"; "bbr-profile"; "obfs-min-packet-size"; "obfs-max-packet-size"].
Definition clash_hysteria2 (m : amap) (n : node) : node :=
  set_extra_json "realm-opts" (asMap (at_key m "realm-opts"))
    (set_extras (same_keys m (["obfs"; "obfs-password"] ++ hysteria_keys))
      (n <| Node.Protocol := ProtoHysteria2 |> <| Node.TLS := true |>)).
Definition tuic_keys : list string :=
  ["ip"; "heartbeat-interval"; "disable-sni"; "reduce-rtt"; "request-timeout";
   "max-udp-relay-packet-size"; "fast-open"; "max-open-streams"; "bbr-profile"].
Definition clash_tuic (m : amap) (n : node) : node :=
  set_extras
    ([("token", asString (at_key m "token"));
      ("congestion_control", firstStr m ["congestion-controller"; "congestion_control"]);
      ("udp_relay_mode", firstStr m ["udp-relay-mode"; "udp_relay_mode"])] ++ same_keys m tuic_keys)
    (n <| Node.Protocol := ProtoTUIC |> <| Node.TLS := true |>).
Definition clash_fields (typ : string) (m : amap) (n : node) : option node :=
  if bool_decide (typ ∈ ["ss"; "shadowsocks"]) then Some (clash_ss m n)
  else if (typ =? "ssr")%string then Some (clash_ssr m n)
  else if (typ =? "trojan")%string then Some (n <| Node.Protocol := ProtoTrojan |> <| Node.TLS := true |>)
  else if (typ =? "vmess")%string then Some (n <| Node.Protocol := ProtoVMess |>)
  else if (typ =? "vless")%string then
    Some (set_extra "encryption" (asString (at_key m "encryption")) (n <| Node.Protocol := ProtoVLESS |>))
  else if bool_decide (typ ∈ ["hysteria2"; "hy2"]) then Some (clash_hysteria2 m n)
  else if (typ =? "tuic")%string then Some (clash_tuic m n)
  else None.

(** ** From a proxy to a link *)

(** [rawB64], [uriHostPort] *)
Definition rawB64 (value : string) : string := EncodeToString RawURLEncoding value.
Definition JoinHostPort (host port : string) : string :=
  if has_byte ":" (explode host) then "[" +:+ host +:+ "]:" +:+ port else host +:+ ":" +:+ port.
Definition uriHostPort (server port : string) : string := JoinHostPort (Trim server "[]") port.

Definition set_if (k v : string) (q : values) : values := if nonempty v then Set_ q k v else q.
Definition set_flag (b : bool) (k : string) (q : values) : values := if b then Set_ q k "1" else q.

(** [applyClashURIOptions] *)
Definition uri_transport (m : amap) (network : string) (q : values) : values :=
  let network := ToLower network in
  if (network =? "grpc")%string then
    match asMap (at_key m "grpc-opts") with
    | Some opts => set_if "mode" (firstStr opts ["grpc-mode"; "mode"])
                     (Set_ q "serviceName" (firstStr opts ["grpc-service-name"; "serviceName"]))
    | None => q
    end
  else if bool_decide (network ∈ ["ws"; "websocket"]) then
    set_if "eh" (asString (sub_key m "ws-opts" "early-data-header-name"))
      (set_if "ed" (asString (sub_key m "ws-opts" "max-early-data")) q)
  else if bool_decide (network ∈ ["xhttp"; "splithttp"]) then
    set_if "mode" (asString (sub_key m "xhttp-opts" "mode")) q
  else q.
Definition applyClashURIOptions (m : amap) (q : values) : values :=
  let network := firstStr m ["network"; "net"] in
  uri_transport m network
    (set_if "type" network
      (set_if "alpn" (asCSV (at_key m "alpn"))
        (set_if "fp" (asString (at_key m "client-fingerprint")) q))).

(** The link of each type, on the server, the port and the escaped name *)
Definition ss_spec (m : amap) (plugin : string) : string :=
  match asMap (at_key m "plugin-opts") with
  | Some opts =>
      fold_left (λ spec k,
          match at_key opts k with
          | ABool true => spec +:+ ";" +:+ k
          | v => spec +:+ ";" +:+ k +:+ "=" +:+ asString v
          end) (stable_sort String.ltb ((map_to_list opts).*1)) plugin
  | None => plugin
  end.
Definition ss_uri (m : amap) (server : string) (port : Z) (frag : string) : string :=
  let cipher := asString (at_key m "cipher") in
  let password := asString (at_key m "password") in
  if negb (nonempty cipher) || negb (nonempty password) then ""
  else
    let userinfo := TrimRight (EncodeToString StdEncoding (cipher +:+ ":" +:+ password)) "=" in
    let plugin := asString (at_key m "plugin") in
    let query := if nonempty plugin then "?" +:+ Encode [("plugin", ss_spec m plugin)] else "" in
    "ss://" +:+ userinfo +:+ "@" +:+ uriHostPort server (Itoa port) +:+ query +:+ "#" +:+ frag.
Definition ssr_uri (m : amap) (server : string) (port : Z) (name : string) : string :=
  let cipher := asString (at_key m "cipher") in
  let password := asString (at_key m "password") in
  let protocol := asString (at_key m "protocol") in
  let obfs := asString (at_key m "obfs") in
  if negb (forallb nonempty [cipher; password; protocol; obfs]) then ""
  else
    let b64_if k v q := if nonempty v then Set_ q k (rawB64 v) else q in
    let params := b64_if "obfsparam" (asString (at_key m "obfs-param"))
      (b64_if "protoparam" (asString (at_key m "protocol-param")) (b64_if "remarks" name [])) in
    "ssr://" +:+ rawB64 (uriHostPort server (Itoa port) +:+ ":" +:+ protocol +:+ ":" +:+ cipher
      +:+ ":" +:+ obfs +:+ ":" +:+ rawB64 password +:+ "/?" +:+ Encode params).
Definition trojan_query (m : amap) : values :=
  let q := set_if "host" (clashHost m)
    (set_if "path" (clashPath m) (set_if "sni" (firstStr m ["sni"; "servername"]) [])) in
  let q := set_flag (asBool (at_key m "skip-cert-verify")) "allowInsecure" (applyClashURIOptions m q) in
  match asMap (at_key m "reality-opts") with
  | Some ro => Set_ (Set_ (Set_ q "security" "reality") "pbk" (firstStr ro ["public-key"; "public_key"]))
                 "sid" (firstStr ro ["short-id"; "short_id"])
  | None => q
  end.
Definition trojan_uri (m : amap) (server : string) (port : Z) (frag : string) : string :=
  let password := asString (at_key m "password") in
  if negb (nonempty password) then ""
  else "trojan://" +:+ QueryEscape password +:+ "@" +:+ uriHostPort server (Itoa port) +:+ "?"
         +:+ Encode (trojan_query m) +:+ "#" +:+ frag.
Definition set_str (k v : string) (o : amap) : amap := <[k := AStr v]> o.
Definition set_str_if (k v : string) (o : amap) : amap := if nonempty v then set_str k v o else o.
Definition vmess_object (m : amap) (server : string) (port : Z) (name : string) : amap :=
  let aid := firstStr m ["alterId"; "alter-id"] in
  let o : amap := {["v" := AStr "2"; "ps" := AStr name; "add" := AStr server;
    "port" := AStr (Itoa port); "id" := AStr (asString (at_key m "uuid"));
    "aid" := AStr (if nonempty aid then aid else "0");
    "scy" := AStr (firstStr m ["cipher"; "security"]);
    "net" := AStr (firstNonEmpty [firstStr m ["network"; "net"]; "tcp"]);
    "type" := AStr "none"; "tls" := AStr (boolToTLS (at_key m "tls"))]} in
  let o := set_str_if "sni" (firstStr m ["servername"; "sni"]) o in
  let o := set_str_if "host" (clashHost m) o in
  let o := set_str_if "path" (clashPath m) o in
  let o := set_str_if "alpn" (asCSV (at_key m "alpn")) o in
  let o := set_str_if "fp" (asString (at_key m "client-fingerprint")) o in
  let o := if asBool (at_key m "skip-cert-verify") then <["allowInsecure" := ABool true]> o else o in
  match asMap (at_key m "grpc-opts") with
  | Some opts => set_str "path" (firstStr opts ["grpc-service-name"; "serviceName"]) o
  | None => o
  end.
Definition vmess_uri (m : amap) (server : string) (port : Z) (name : string) : string :=
  match json_object (vmess_object m server port name) with
  | Some b => "vmess://" +:+ EncodeToString StdEncoding b
  | None => ""
  end.
Definition vless_query (m : amap) : values :=
  let q := Set_ [] "encryption" (firstNonEmpty [asString (at_key m "encryption"); "none"]) in
  let q := set_if "type" (firstStr m ["network"; "net"]) q in
  let q := match at_key m "reality-opts" with
           | ANil => if asBool (at_key m "tls") then Set_ q "security" "tls" else q
           | _ => Set_ q "security" "reality"
           end in
  let q := set_if "host" (clashHost m) (set_if "path" (clashPath m)
    (set_if "flow" (asString (at_key m "flow")) (set_if "sni" (firstStr m ["servername"; "sni"]) q))) in
  let q := set_if "packetEncoding" (asString (at_key m "packet-encoding")) (applyClashURIOptions m q) in
  let q := set_flag (asBool (at_key m "skip-cert-verify")) "allowInsecure" q in
  set_if "sid" (asString (sub_key m "reality-opts" "short-id"))
    (set_if "pbk" (asString (sub_key m "reality-opts" "public-key")) q).
Definition vless_uri (m : amap) (server : string) (port : Z) (frag : string) : string :=
  let uuid := asString (at_key m "uuid") in
  if negb (nonempty uuid) then ""
  else "vless://" +:+ uuid +:+ "@" +:+ uriHostPort server (Itoa port) +:+ "?"
         +:+ Encode (vless_query m) +:+ "#" +:+ frag.
Definition hysteria_query (m : amap) : values :=
  let q := set_if "alpn" (asCSV (at_key m "alpn"))
    (set_if "obfs-password" (asString (at_key m "obfs-password"))
      (set_if "obfs" (asString (at_key m "obfs")) (set_if "sni" (firstStr m ["sni"; "servername"]) []))) in
  let q := set_if "ech" (asString (at_key m "ech"))
    (set_if "pinSHA256" (asString (at_key m "fingerprint")) q) in
  set_flag (asBool (at_key m "skip-cert-verify")) "insecure" q.
Definition hysteria_uri (m : amap) (server : string) (port : Z) (frag : string) : string :=
  let ports := firstStr m ["ports"] in
  "hysteria2://" +:+ QueryEscape (firstStr m ["password"; "auth"]) +:+ "@"
    +:+ uriHostPort server (if nonempty ports then ports else Itoa port) +:+ "?"
    +:+ Encode (hysteria_query m) +:+ "#" +:+ frag.
Definition tuic_query (m : amap) : values :=
  let q := set_if "alpn" (asCSV (at_key m "alpn")) (set_if "sni" (firstStr m ["sni"; "servername"]) []) in
  let q := set_if "udp_relay_mode" (firstStr m ["udp-relay-mode"; "udp_relay_mode"])
    (set_if "congestion_control" (firstStr m ["congestion-controller"; "congestion_control"]) q) in
  set_flag (asBool (at_key m "skip-cert-verify")) "allowInsecure" q.
Definition tuic_uri (m : amap) (server : string) (port : Z) (frag : string) : string :=
  let uuid := asString (at_key m "uuid") in
  let password := asString (at_key m "password") in
  if negb (nonempty uuid) || negb (nonempty password) then ""
  else "tuic://" +:+ QueryEscape uuid +:+ ":" +:+ QueryEscape password +:+ "@"
         +:+ uriHostPort server (Itoa port) +:+ "?" +:+ Encode (tuic_query m) +:+ "#" +:+ frag.

(** [clashProxyToURI] *)
Definition clashProxyToURI (m : amap) : string :=
  let typ := ToLower (asString (at_key m "type")) in
  let name := asString (at_key m "name") in
  let server := asString (at_key m "server") in
  let port := asInt (at_key m "port") in
  let frag := QueryEscape name in
  if negb (nonempty server) || (port <=? 0) then ""
  else if bool_decide (typ ∈ ["ss"; "shadowsocks"]) then ss_uri m server port frag
  else if (typ =? "ssr")%string then ssr_uri m server port name
  else if (typ =? "trojan")%string then trojan_uri m server port frag
  else if (typ =? "vmess")%string then vmess_uri m server port name
  else if (typ =? "vless")%string then vless_uri m server port frag
  else if bool_decide (typ ∈ ["hysteria2"; "hy2"]) then hysteria_uri m server port frag
  else if (typ =? "tuic")%string then tuic_uri m server port frag
  else "".

(** [clashMapToNode] *)
Definition clash_named (n : node) : node :=
  if nonempty (Node.Name n) then n else n <| Node.Name := Address n |>.
Definition clashMapToNode (m : amap) (source : string) : option node :=
  let typ := ToLower (asString (at_key m "type")) in
  if negb (nonempty (asString (at_key m "server"))) || (asInt (at_key m "port") <=? 0) then None
  else
    let n := clash_tls_opts m (clash_security m (clash_common m (clash_base m source))) in
    match clash_fields typ m (applyClashTransport m n) with
    | None => None
    | Some n => Some (fingerprinted ((clash_named n) <| Node.RawURI := clashProxyToURI m |>))
    end.

(** [ParseClash]: a list of proxies without its key is read too; of proxies
    with one key the first is kept. *)
Fixpoint first_keys (seen : gset string) (l : list node) : list node :=
  match l with
  | [] => []
  | n :: l => if bool_decide (Key n ∈ seen) then first_keys seen l
              else n :: first_keys ({[Key n]} ∪ seen) l
  end.
Definition clash_item (source : string) (item : any) : option node :=
  match asMap item with Some m => clashMapToNode m source | None => None end.
Definition ParseClash (content source : string) : list node :=
  let root := match yaml_object content with
              | Some root => Some root
              | None => yaml_object ("proxies:" +:+ String lf content)
              end in
  match root with
  | Some root => match at_key root "proxies" with
                 | AList l => first_keys ∅ (omap (clash_item source) l)
                 | _ => []
                 end
  | None => []
  end.
End clash.
