(* ===== verification/Exporter.v ===== *)
(** * Exports: [internal/exporter/exporter.go]

    The names of exported nodes, the list of links, the Clash proxies and the
    choice of the old files to remove.  Writing the files is not modelled. *)
From S2P Require Import Prelude GoStr GoFloat GoTime Model Base64 Ratelimit NetAddr.
From S2P Require Import NetUrl Links Clash.

(** ** Names *)

(** [sanitizeYAMLName] *)
Definition yaml_name_byte (c : ascii) : ascii :=
  if Ascii.eqb c quote_byte then "'"%char else if Ascii.eqb c lf then " "%char else c.
Definition sanitizeYAMLName (name : string) (idx : Z) : string :=
  let name := string_map yaml_name_byte name in
  if (TrimSpace name =? "")%string then "node-" +:+ Itoa (idx + 1) else name.

(** The names that are taken, and the next suffix of each name *)
Module Names.
Record t := mk { used : gset string; next : gmap string Z }.
End Names.

Definition candidate (base : string) (suffix : Z) : string := base +:+ " #" +:+ Itoa suffix.

(** The loop of [claimUniqueName]: the first suffix that is free, and the one
    after it; [None] when the fuel runs out, which it never does (see
    [claim_loop_total]). *)
Fixpoint claim_loop (fuel : nat) (base : string) (suffix : Z) (used : gset string) : option (string * Z) :=
  match fuel with
  | O => None
  | S fuel =>
      if bool_decide (candidate base suffix ∈ used) then claim_loop fuel base (suffix + 1) used
      else Some (candidate base suffix, suffix + 1)
  end.
Definition claimUniqueName (name : string) (idx : Z) (s : Names.t) : string * Names.t :=
  let base := sanitizeYAMLName name idx in
  let used := Names.used s in
  if bool_decide (base ∈ used) then
    let suffix := Z.max (default 0 (Names.next s !! base)) 2 in
    let '(name, suffix) := default (base, suffix) (claim_loop (S (size used)) base suffix used) in
    (name, Names.mk ({[name]} ∪ used) (<[base := suffix]> (Names.next s)))
  else (base, Names.mk ({[base]} ∪ used) (Names.next s)).

(** [reservedProxyNames] *)
Definition reserved_names : list string := ["DIRECT"; "REJECT"; "REJECT-DROP"; "PASS"; "COMPATIBLE"; "GLOBAL"].
Definition reservedProxyNames : Names.t := Names.mk (list_to_set reserved_names) ∅.

(** ** Links *)

(** [strings.Cut] at a string *)
Definition CutStr (s sep : string) : option (string * string) :=
  let i := Index s sep in
  if i <? 0 then None else Some (slice_to s i, slice_from s (i + slen sep)).

(** [decodeBase64Payload] *)
Definition decodeBase64Payload (value : string) : option string :=
  decode_first (λ _, true) [RawStdEncoding; StdEncoding; RawURLEncoding; URLEncoding] (TrimSpace value).

Section exporter.
Context `{Unicode} `{LinkJson} `{ClashCodec}.

(** [rawURIWithName]; a panic is an assignment into a nil map *)
Definition vmess_with_name (raw name : string) : result string :=
  match CutStr raw "://" ≫= (λ p, decodeBase64Payload p.2) with
  | None => Ok raw
  | Some payload =>
      match object_unmarshal payload with
      | None => Ok raw
      | Some None => Err (ErrPanic "assignment to entry in nil map")
      | Some (Some config) =>
          match opts_marshal (<["ps" := JStr name]> config) with
          | None => Ok raw
          | Some payload => Ok ("vmess://" +:+ EncodeToString StdEncoding payload)
          end
      end
  end.
Definition ssr_with_name (raw name : string) : string :=
  match CutStr raw "://" ≫= (λ p, decodeBase64Payload p.2) with
  | None => raw
  | Some payload =>
      let '(base, query) := default (payload, "") (CutStr payload "/?") in
      let '(q, ok) := ParseQuery query in
      if negb ok then raw
      else
        let q := Set_ q "remarks" (EncodeToString RawURLEncoding name) in
        "ssr://" +:+ EncodeToString RawURLEncoding (TrimSuffix base "/" +:+ "/?" +:+ Encode q)
  end.
Definition link_with_name (raw name : string) : string :=
  default raw (fst <$> CutLast raw "#") +:+ "#" +:+ PathEscape name.
Definition rawURIWithName (raw protocol name : string) : result string :=
  if (protocol =? ProtoVMess)%string then vmess_with_name raw name
  else if (protocol =? ProtoSSR)%string then Ok (ssr_with_name raw name)
  else Ok (link_with_name raw name).

(** [RenderRaw]: the lines *)
Fixpoint raw_lines (i : Z) (s : Names.t) (nodes : list (option node)) : result (list string) :=
  match nodes with
  | [] => Ok []
  | Some n :: nodes =>
      if (Node.RawURI n =? "")%string then raw_lines (i + 1) s nodes
      else
        let '(name, s) := claimUniqueName (Node.Name n) i s in
        let! line := rawURIWithName (Node.RawURI n) (Node.Protocol n) name in
        let! lines := raw_lines (i + 1) s nodes in Ok (line :: lines)
  | None :: nodes => raw_lines (i + 1) s nodes
  end.
Definition RenderRaw (nodes : list (option node)) : result string :=
  let! lines := raw_lines 0 reservedProxyNames nodes in
  Ok (implode (mjoin ((λ l, explode l ++ [lf]) <$> lines))).

(** [RenderBase64] *)
Definition RenderBase64 (nodes : list (option node)) : result string :=
  let! raw := RenderRaw nodes in Ok (EncodeToString StdEncoding raw).

(** ** Clash proxies *)

(** [first], [splitCSV], [intValue] *)
Definition first (v d : string) : string := if (TrimSpace v =? "")%string then d else v.
Definition splitCSV (value : string) : list string :=
  List.filter nonempty (TrimSpace <$> Split value ",").
Definition intValue (value : string) : Z := (Atoi (TrimSpace value)).1.

Definition put (k : string) (v : any) (p : amap) : amap := <[k := v]> p.
Definition put_if (k v : string) (p : amap) : amap := if nonempty v then put k (AStr v) p else p.
(** [yaml.Unmarshal(raw, &opts) == nil && len(opts) > 0] *)
Definition yaml_opts (raw : string) : option amap :=
  if nonempty raw then
    match yaml_object raw with
    | Some opts => if bool_decide (opts = ∅) then None else Some opts
    | None => None
    end
  else None.
Definition put_opts (k raw : string) (p : amap) : amap :=
  match yaml_opts raw with Some opts => put k (AMap opts) p | None => p end.

(** [mergeMissing] *)
Fixpoint merge_any (original target : any) : any :=
  match original, target with
  | AMap o, AMap t =>
      AMap (map_fold (λ k v acc,
        match acc !! k with
        | None => <[k := v]> acc
        | Some cur => match cur, v with
                      | AMap _, AMap _ => <[k := merge_any v cur]> acc
                      | _, _ => acc
                      end
        end) t o)
  | _, _ => target
  end.
Definition mergeMissing (target original : amap) : amap :=
  default target (asMap (merge_any (AMap original) (AMap target))).

(** [mergeOriginalTransport] *)
Definition mergeOriginalTransport (target : amap) (n : node) : amap :=
  let raw := extra_get n "clash-transport-opts" in
  if nonempty raw then
    match yaml_object raw with Some original => mergeMissing target original | None => target end
  else target.

(** [applyTLS] *)
Definition is_proto (n : node) (l : list string) : bool := bool_decide (Node.Protocol n ∈ l).
Definition applyTLS (n : node) (serverNameKey : string) (p : amap) : amap :=
  let security := ToLower (TrimSpace (Node.Security n)) in
  let p := if is_proto n [ProtoVMess; ProtoVLESS]
              && (Node.TLS n || (security =? "tls")%string || (security =? "reality")%string)
           then put "tls" (ABool true) p else p in
  let p := put_if serverNameKey (Node.SNI n) p in
  let p := if SkipTLSVerify n then put "skip-cert-verify" (ABool true) p else p in
  let p := if nonempty (Node.ALPN n) then put "alpn" (AStrs (splitCSV (Node.ALPN n))) p else p in
  let p := if is_proto n [ProtoVMess; ProtoVLESS; ProtoTrojan]
           then put_if "client-fingerprint" (extra_get n "fp") p else p in
  let p := put_if "fingerprint" (extra_get n "fingerprint") p in
  let p := put_if "name-cert-verify" (extra_get n "name-cert-verify") p in
  let p := fold_left (λ p k, put_opts k (extra_get n k) p) tls_option_keys p in
  let ech := extra_get n "ech" in
  if nonempty ech && bool_decide (p !! "ech-opts" = None)
  then put "ech-opts" (AMap {["enable" := ABool true; "config" := AStr ech]}) p else p.

(** [applyReality]; the stored options are the text of a map, never [null], on
    which the source would assign into a nil map. *)
Definition applyReality (n : node) (p : amap) : amap :=
  let pbk := extra_get n "pbk" in
  if EqualFold (Node.Security n) "reality" || nonempty pbk then
    let raw := extra_get n "reality-opts" in
    let opts := if nonempty raw then default ∅ (yaml_object raw) else ∅ in
    put "reality-opts" (AMap (put_if "short-id" (extra_get n "sid") (put_if "public-key" pbk opts))) p
  else p.

(** [applyTransport] *)
Definition transport_network (n : node) : string :=
  let network := ToLower (TrimSpace (Node.Network n)) in
  let network := if (network =? "")%string then "tcp" else network in
  let network := if (network =? "websocket")%string then "ws" else network in
  if (network =? "tcp")%string && EqualFold (extra_get n "headerType") "http" then "http" else network.
Definition host_header (host : any) : any := AMap {["Host" := host]}.
Definition ws_opts (n : node) : amap :=
  let o : amap := {["path" := AStr (first (Node.Path n) "/")]} in
  let o := if nonempty (Node.Host n) then put "headers" (host_header (AStr (Node.Host n))) o else o in
  let early := intValue (first (extra_get n "max-early-data") (extra_get n "ed")) in
  let o := if 0 <? early then put "max-early-data" (AInt early) o else o in
  put_if "early-data-header-name" (first (extra_get n "early-data-header-name") (extra_get n "eh")) o.
Definition grpc_opts (n : node) : amap :=
  put_if "grpc-mode" (extra_get n "mode")
    {["grpc-service-name" := AStr (first (extra_get n "serviceName") (TrimPrefix (Node.Path n) "/"))]}.
Definition http_opts (n : node) : amap :=
  let o : amap := {["path" := AStrs [first (Node.Path n) "/"]]} in
  if nonempty (Node.Host n) then put "headers" (host_header (AStrs [Node.Host n])) o else o.
Definition h2_opts (n : node) : amap :=
  let o : amap := {["path" := AStr (first (Node.Path n) "/")]} in
  if nonempty (Node.Host n) then put "host" (AStrs [Node.Host n]) o else o.
Definition upgrade_opts (n : node) : amap :=
  put_if "host" (Node.Host n) {["path" := AStr (first (Node.Path n) "/")]}.
Definition xhttp_opts (n : node) : amap :=
  let o : amap := {["path" := AStr (first (Node.Path n) "/")]} in
  let o := if nonempty (Node.Host n) then put "headers" (host_header (AStr (Node.Host n))) o else o in
  put_if "mode" (extra_get n "mode") o.
Definition applyTransport (n : node) (p : amap) : amap :=
  let network := transport_network n in
  let opts k o p := put k (AMap (mergeOriginalTransport o n)) p in
  let p := put "network" (AStr network) p in
  if (network =? "ws")%string then opts "ws-opts" (ws_opts n) p
  else if (network =? "grpc")%string then opts "grpc-opts" (grpc_opts n) p
  else if (network =? "http")%string then opts "http-opts" (http_opts n) p
  else if (network =? "h2")%string then opts "h2-opts" (h2_opts n) p
  else if (network =? "httpupgrade")%string then opts "http-upgrade-opts" (upgrade_opts n) p
  else if bool_decide (network ∈ ["xhttp"; "splithttp"])
  then opts "xhttp-opts" (xhttp_opts n) (put "network" (AStr "xhttp") p)
  else p.

(** [applyIntegerExtras] and [applyBooleanExtras] *)
Definition applyIntegerExtras (n : node) (keys : list string) (p : amap) : amap :=
  fold_left (λ p k,
    let value := TrimSpace (extra_get n k) in
    let '(parsed, ok) := Atoi value in
    if nonempty value && ok then put k (AInt parsed) p else p) keys p.
Definition applyBooleanExtras (n : node) (keys : list string) (p : amap) : amap :=
  fold_left (λ p k,
    let value := ToLower (TrimSpace (extra_get n k)) in
    if bool_decide (value ∈ ["1"; "true"; "yes"; "on"]) then put k (ABool true) p
    else if bool_decide (value ∈ ["0"; "false"; "no"; "off"]) then put k (ABool false) p
    else p) keys p.
Definition copy_extras (n : node) (keys : list string) (p : amap) : amap :=
  fold_left (λ p k, put_if k (extra_get n k) p) keys p.

(** [BuildClashProxy], by protocol *)
Definition type_ (t : string) (p : amap) : amap := put "type" (AStr t) p.
Definition reality_incomplete (n : node) : bool :=
  (EqualFold (Node.Security n) "reality" || nonempty (extra_get n "sid"))
  && negb (nonempty (extra_get n "pbk")).
Definition vmess_proxy (n : node) (p : amap) : result amap :=
  if negb (nonempty (Node.UUID n)) then Err (ErrMsg "vmess missing uuid")
  else Ok (applyTransport n (applyTLS n "servername"
    (put "alterId" (AInt (intValue (extra_get n "aid")))
      (put "cipher" (AStr (first (Node.Method n) "auto"))
        (put "uuid" (AStr (Node.UUID n)) (type_ "vmess" p)))))).
Definition vless_proxy (n : node) (p : amap) : result amap :=
  if negb (nonempty (Node.UUID n)) then Err (ErrMsg "vless missing uuid")
  else if reality_incomplete n then Err (ErrMsg "vless reality missing public key")
  else Ok (applyTransport n (applyReality n (applyTLS n "servername"
    (put_if "packet-encoding" (extra_get n "packet-encoding") (put_if "flow" (Node.Flow n)
      (put_if "encryption" (extra_get n "encryption")
        (put "uuid" (AStr (Node.UUID n)) (type_ "vless" p)))))))).
Definition trojan_proxy (n : node) (p : amap) : result amap :=
  if negb (nonempty (Node.Password n)) then Err (ErrMsg "trojan missing password")
  else if reality_incomplete n then Err (ErrMsg "trojan reality missing public key")
  else Ok (applyTransport n (applyReality n (applyTLS n "sni"
    (put "password" (AStr (Node.Password n)) (type_ "trojan" p))))).
Definition ss_proxy (n : node) (p : amap) : result amap :=
  if negb (nonempty (Node.Method n)) || negb (nonempty (Node.Password n))
  then Err (ErrMsg "ss missing cipher/password")
  else
    let p := put "password" (AStr (Node.Password n)) (put "cipher" (AStr (Node.Method n)) (type_ "ss" p)) in
    let plugin := extra_get n "plugin" in
    Ok (if nonempty plugin
        then put_opts "plugin-opts" (extra_get n "plugin-opts") (put "plugin" (AStr plugin) p) else p).
Definition ssr_proxy (n : node) (p : amap) : result amap :=
  if negb (forallb nonempty [Node.Method n; Node.Password n; extra_get n "protocol"; extra_get n "obfs"])
  then Err (ErrMsg "ssr missing protocol fields")
  else
    let p := put "password" (AStr (Node.Password n)) (put "cipher" (AStr (Node.Method n)) (type_ "ssr" p)) in
    Ok (copy_extras n ["protocol"; "obfs"; "protocol-param"; "obfs-param"] p).
Definition hysteria2_proxy (n : node) (p : amap) : result amap :=
  if negb (nonempty (Node.Password n)) then Err (ErrMsg "hysteria2 missing password")
  else
    let p := applyTLS n "sni" (put "password" (AStr (Node.Password n)) (type_ "hysteria2" p)) in
    let p := copy_extras n ["ports"; "hop-interval"; "up"; "down"; "bbr-profile"; "obfs"; "obfs-password"] p in
    let p := applyIntegerExtras n ["obfs-min-packet-size"; "obfs-max-packet-size"] p in
    Ok (put_opts "realm-opts" (extra_get n "realm-opts") p).
Definition tuic_user (n : node) (p : amap) : result amap :=
  let token := extra_get n "token" in
  if nonempty token then Ok (put "token" (AStr token) p)
  else if negb (nonempty (Node.UUID n)) || negb (nonempty (Node.Password n))
  then Err (ErrMsg "tuic missing token or uuid/password")
  else Ok (put "password" (AStr (Node.Password n)) (put "uuid" (AStr (Node.UUID n)) p)).
Definition tuic_proxy (n : node) (p : amap) : result amap :=
  let! p := tuic_user n (type_ "tuic" p) in
  let p := copy_extras n ["ip"; "bbr-profile"] (applyTLS n "sni" p) in
  let p := put_if "udp-relay-mode" (extra_get n "udp_relay_mode")
    (put_if "congestion-controller" (extra_get n "congestion_control") p) in
  let p := applyIntegerExtras n
    ["heartbeat-interval"; "request-timeout"; "max-udp-relay-packet-size"; "max-open-streams"] p in
  Ok (applyBooleanExtras n ["disable-sni"; "reduce-rtt"; "fast-open"] p).

Definition BuildClashProxy (n : option node) (name : string) : result amap :=
  match n with
  | None => Err (ErrMsg "invalid node")
  | Some n =>
      if negb (IsValid n) then Err (ErrMsg "invalid node")
      else
        let name := if (TrimSpace name =? "")%string then Node.Name n else name in
        let p : amap := {["name" := AStr name; "server" := AStr (Node.Server n);
                          "port" := AInt (Node.Port n); "udp" := ABool true]} in
        let proto := Node.Protocol n in
        if (proto =? ProtoVMess)%string then vmess_proxy n p
        else if (proto =? ProtoVLESS)%string then vless_proxy n p
        else if (proto =? ProtoTrojan)%string then trojan_proxy n p
        else if (proto =? ProtoSS)%string then ss_proxy n p
        else if (proto =? ProtoSSR)%string then ssr_proxy n p
        else if (proto =? ProtoHysteria2)%string then hysteria2_proxy n p
        else if (proto =? ProtoTUIC)%string then tuic_proxy n p
        else Err (ErrMsg "unsupported protocol")
  end.

(** [buildClash]: a name is claimed for every node, and the proxies that can
    be built are listed with theirs *)
Fixpoint clash_proxies (i : Z) (s : Names.t) (nodes : list (option node)) : list (string * amap) * Names.t :=
  match nodes with
  | [] => ([], s)
  | None :: nodes => clash_proxies (i + 1) s nodes
  | Some n :: nodes =>
      let '(name, s) := claimUniqueName (Node.Name n) i s in
      let '(rest, s) := clash_proxies (i + 1) s nodes in
      (match BuildClashProxy (Some n) name with Ok p => (name, p) :: rest | Err _ => rest end, s)
  end.
Definition clash_root (nodes : list (option node)) : amap :=
  let '(proxies, s) := clash_proxies 0 reservedProxyNames nodes in
  let root : amap := {["mixed-port" := AInt 7890; "allow-lan" := ABool false; "mode" := AStr "rule";
    "log-level" := AStr "info"; "proxies" := AList ((λ np, AMap np.2) <$> proxies)]} in
  match proxies with
  | [] => root
  | _ =>
      let group := (claimUniqueName "NodeHarvest" (Z.of_nat (length nodes)) s).1 in
      put "rules" (AStrs ["MATCH," +:+ group])
        (put "proxy-groups" (AList [AMap {["name" := AStr group; "type" := AStr "select";
          "proxies" := AStrs proxies.*1]}]) root)
  end.
Definition buildClash (nodes : list (option node)) : string :=
  match yaml_text (clash_root nodes) with
  | Some raw => "# Generated by nodeharvest" +:+ String lf raw
  | None => "proxies: []" +:+ String lf ""
  end.

(** [RenderClash] *)
Definition RenderClash (nodes : list (option node)) : string := buildClash nodes.
End exporter.

(** ** Old files: [cleanupOldRuns] *)

(** [time.Parse("20060102-150405", run)] succeeds *)
Definition valid_run (l : bytes) : bool :=
  match l with
  | [y1; y2; y3; y4; m1; m2; d1; d2; dash; h1; h2; n1; n2; s1; s2] =>
      match parse_range [y1; y2; y3; y4] 0 9999, parse_range [m1; m2] 1 12 with
      | Some y, Some m =>
          Ascii.eqb dash "-" && bool_decide (is_Some (parse_range [d1; d2] 1 (days_in m y)))
          && bool_decide (is_Some (parse_range [h1; h2] 0 23))
          && bool_decide (is_Some (parse_range [n1; n2] 0 59))
          && bool_decide (is_Some (parse_range [s1; s2] 0 59))
      | _, _ => false
      end
  | _ => false
  end.
(** The run of a file: the timestamp that follows the prefix in its name *)
Definition run_of (prefix : string) (entry : string * bool) : option string :=
  let '(name, is_dir) := entry in
  let stem := TrimPrefix name (prefix +:+ "-") in
  if is_dir || (stem =? name)%string || (slen stem <? 15) then None
  else let run := slice_to stem 15 in if valid_run (explode run) then Some run else None.
Definition runs_desc (prefix : string) (entries : list (string * bool)) : list string :=
  stable_sort (λ a b, String.ltb b a) (dedup (omap (run_of prefix) entries)).
(** The names it removes from the directory *)
Definition cleanupOldRuns (prefix : string) (keep : Z) (entries : list (string * bool)) : list string :=
  if keep <=? 0 then []
  else
    let old := drop (Z.to_nat keep) (runs_desc prefix entries) in
    (old ≫= λ run, List.filter (λ e, bool_decide (run_of prefix e = Some run)) entries).*1.
