(* ===== verification/ExportProofs.v ===== *)
(** * What exports promise

    Names are unique; a link under a new name is the same link; only the
    oldest runs are removed. *)
From S2P Require Import Prelude GoStr GoFloat GoTime Model Base64 Ratelimit NetAddr.
From S2P Require Import NetUrl Links Clash Exporter.

(** ** Unique names *)

Lemma string_app_inj_l a b c : a +:+ b = a +:+ c → b = c.
Proof. intros H%(f_equal explode). rewrite !explode_app in H. apply app_inv_head in H. by apply explode_inj. Qed.
Lemma candidate_inj base i j : candidate base i = candidate base j → i = j.
Proof. unfold candidate. intros H%string_app_inj_l%string_app_inj_l. by apply Itoa_inj. Qed.

Lemma claim_loop_spec fuel base suffix used x s' :
  claim_loop fuel base suffix used = Some (x, s') → x ∉ used.
Proof.
  revert suffix; induction fuel as [|fuel IH]; intros suffix; simpl; [done|].
  case_if; [apply IH|]. bsplit. by intros [= <- _].
Qed.

Lemma claim_loop_none fuel base suffix used :
  claim_loop fuel base suffix used = None →
  ∀ i, (i < fuel)%nat → candidate base (suffix + Z.of_nat i) ∈ used.
Proof.
  revert suffix; induction fuel as [|fuel IH]; intros suffix; simpl; [lia|].
  case_if; [|done]. bsplit. intros Hn [|i] Hi.
  - by rewrite Z.add_0_r.
  - replace (suffix + Z.of_nat (S i)) with (suffix + 1 + Z.of_nat i) by lia. apply IH; [done|lia].
Qed.

(** One more candidate than there are names in use: one is free. *)
Lemma claim_loop_total base suffix used : is_Some (claim_loop (S (size used)) base suffix used).
Proof.
  destruct (claim_loop _ _ _ _) eqn:E; [eauto|]. exfalso.
  pose proof (claim_loop_none _ _ _ _ E) as Hin.
  set (names := (λ i, candidate base (suffix + Z.of_nat i)) <$> seq 0 (S (size used))).
  assert (Hnd : NoDup names).
  { apply NoDup_fmap_2; [|apply NoDup_seq]. intros i j H%candidate_inj. lia. }
  assert (Hsub : list_to_set names ⊆ used).
  { intros x. rewrite elem_of_list_to_set. intros (i & -> & Hi)%list_elem_of_fmap.
    apply Hin. apply elem_of_seq in Hi. lia. }
  apply subseteq_size in Hsub. rewrite size_list_to_set in Hsub by done.
  unfold names in Hsub. rewrite length_fmap, length_seq in Hsub. lia.
Qed.

Lemma claim_spec name i s x s' :
  claimUniqueName name i s = (x, s') → x ∉ Names.used s ∧ Names.used s' = {[x]} ∪ Names.used s.
Proof.
  unfold claimUniqueName. case_if.
  - destruct (claim_loop_total (sanitizeYAMLName name i)
      (Z.max (default 0 (Names.next s !! sanitizeYAMLName name i)) 2) (Names.used s)) as [[y k] Hc].
    rewrite Hc. simpl. intros [= <- <-]. split; [by eapply claim_loop_spec|done].
  - bsplit. by intros [= <- <-].
Qed.

(** A claimed name is never blank. *)
Lemma sanitize_not_blank name i : TrimSpace (sanitizeYAMLName name i) ≠ "".
Proof.
  unfold sanitizeYAMLName. cbv zeta. case_if; bsplit; [|done].
  apply (TrimSpace_keeps "n"); [by apply (bool_decide_unpack _)|].
  rewrite explode_app. apply elem_of_app. left. by left.
Qed.
Lemma candidate_not_blank base k : TrimSpace (candidate base k) ≠ "".
Proof.
  apply (TrimSpace_keeps "#"); [by apply (bool_decide_unpack _)|].
  unfold candidate. rewrite !explode_app. apply elem_of_app. right. apply elem_of_app. left.
  right. by left.
Qed.
Lemma claim_loop_candidate fuel base suffix used x k :
  claim_loop fuel base suffix used = Some (x, k) → ∃ j, x = candidate base j.
Proof.
  revert suffix; induction fuel as [|fuel IH]; intros suffix; simpl; [done|].
  case_if; [apply IH|]. intros [= <- _]. eauto.
Qed.
Lemma claim_not_blank name i s x s' : claimUniqueName name i s = (x, s') → TrimSpace x ≠ "".
Proof.
  unfold claimUniqueName. case_if.
  - destruct (claim_loop _ _ _ _) as [[y k]|] eqn:Hc; simpl; intros [= <- _].
    + apply claim_loop_candidate in Hc as [j ->]. apply candidate_not_blank.
    + apply sanitize_not_blank.
  - intros [= <- _]. apply sanitize_not_blank.
Qed.

(** ** The keys of a proxy

    What identifies a proxy is put first; the options never overwrite it. *)

Definition core_keys : list string :=
  ["name"; "server"; "port"; "udp"; "type"; "uuid"; "password"; "cipher"; "token"].
Definition free (k : string) : bool := negb (bool_decide (k ∈ core_keys)).

Lemma free_all (l : list string) : forallb free l = true → ∀ k, k ∈ l → free k = true.
Proof.
  intros Hl k Hk. rewrite forallb_forall in Hl. apply Hl. by apply list_elem_of_In.
Qed.

Section keys.
Context `{Unicode} `{LinkJson} `{ClashCodec}.
Context (k : string) (Hcore : k ∈ core_keys).

Lemma kept_put j v p : free j = true → put j v p !! k = p !! k.
Proof.
  unfold free. intros Hj. bsplit. unfold put. apply lookup_insert_ne. by intros ->.
Qed.
Lemma kept_put_if j v p : free j = true → put_if j v p !! k = p !! k.
Proof. intros Hj. unfold put_if. destruct (nonempty v); [by apply kept_put|done]. Qed.
Lemma kept_put_opts j raw p : free j = true → put_opts j raw p !! k = p !! k.
Proof. intros Hj. unfold put_opts. destruct (yaml_opts raw); [by apply kept_put|done]. Qed.
Lemma kept_fold (g : amap → string → amap) keys p :
  (∀ q j, j ∈ keys → g q j !! k = q !! k) → fold_left g keys p !! k = p !! k.
Proof.
  revert p; induction keys as [|j keys IH]; intros p Hg; simpl; [done|].
  rewrite IH; [apply Hg; by left|]. intros q i Hi. apply Hg. by right.
Qed.

(** Strips from a lookup the options that do not touch the key. *)
Ltac kept := repeat first
  [ reflexivity | rewrite kept_put by done | rewrite kept_put_if by done
  | rewrite kept_put_opts by done
  | match goal with |- context [if ?b then _ else _] => destruct b end
  | match goal with |- context [match ?b with Ok _ => _ | Err _ => _ end] => destruct b end ].

Lemma kept_applyTLS n key p : free key = true → applyTLS n key p !! k = p !! k.
Proof.
  intros Hk. unfold applyTLS. cbv zeta.
  set (q := fold_left _ _ _).
  assert (q !! k = p !! k) as Hq.
  { unfold q. rewrite kept_fold.
    - kept; try (rewrite kept_put_if by exact Hk); kept.
    - intros q' j Hj. apply kept_put_opts. by apply (free_all tls_option_keys). }
  clearbody q. rewrite <-Hq. kept.
Qed.
Lemma kept_applyReality n p : applyReality n p !! k = p !! k.
Proof. unfold applyReality. kept. Qed.
Lemma kept_applyTransport n p : applyTransport n p !! k = p !! k.
Proof. unfold applyTransport. cbv zeta. kept. Qed.
Lemma kept_copy_extras n keys p : forallb free keys = true → copy_extras n keys p !! k = p !! k.
Proof.
  intros Hk. apply kept_fold. intros q j Hj. apply kept_put_if. by apply (free_all keys).
Qed.
Lemma kept_integers n keys p : forallb free keys = true → applyIntegerExtras n keys p !! k = p !! k.
Proof.
  intros Hk. apply kept_fold. intros q j Hj. cbv zeta.
  destruct (Atoi (TrimSpace (extra_get n j))) as [z b].
  case_if; [|done]. apply kept_put. by apply (free_all keys).
Qed.
Lemma kept_booleans n keys p : forallb free keys = true → applyBooleanExtras n keys p !! k = p !! k.
Proof.
  intros Hk. apply kept_fold. intros q j Hj. pose proof (free_all keys Hk j Hj). cbv zeta.
  case_bool_decide; [by apply kept_put|]. case_bool_decide; [by apply kept_put|done].
Qed.
End keys.

(** ** What a proxy says of its node *)

Section proxies.
Context `{Unicode} `{LinkJson} `{ClashCodec}.

Definition exported_protocols : list string :=
  [ProtoVMess; ProtoVLESS; ProtoTrojan; ProtoSS; ProtoSSR; ProtoHysteria2; ProtoTUIC].
Definition credentials (n : node) (p : amap) : Prop :=
  let has k v := p !! k = Some (AStr v) ∧ v ≠ "" in
  let proto := Node.Protocol n in
  (proto = ProtoVMess → has "uuid" (Node.UUID n) ∧ has "cipher" (first (Node.Method n) "auto")) ∧
  (proto = ProtoVLESS → has "uuid" (Node.UUID n)) ∧
  (proto = ProtoTrojan → has "password" (Node.Password n)) ∧
  (proto = ProtoSS → has "password" (Node.Password n) ∧ has "cipher" (Node.Method n)) ∧
  (proto = ProtoSSR → has "password" (Node.Password n) ∧ has "cipher" (Node.Method n)) ∧
  (proto = ProtoHysteria2 → has "password" (Node.Password n)) ∧
  (proto = ProtoTUIC →
     has "token" (extra_get n "token") ∨
     extra_get n "token" = "" ∧ has "uuid" (Node.UUID n) ∧ has "password" (Node.Password n)).

(** The base of a proxy, before its type *)
Definition base_proxy (n : node) (name : string) : amap :=
  {["name" := AStr (if (TrimSpace name =? "")%string then Node.Name n else name);
    "server" := AStr (Node.Server n); "port" := AInt (Node.Port n); "udp" := ABool true]}.

Definition core_in (k : string) (H : bool_decide (k ∈ core_keys) = true) : k ∈ core_keys :=
  bool_decide_eq_true_1 _ H.

Ltac strip := repeat first
  [ rewrite kept_applyTransport by (by apply core_in)
  | rewrite kept_applyReality by (by apply core_in)
  | rewrite kept_applyTLS by (done || by apply core_in)
  | rewrite kept_copy_extras by (done || by apply core_in)
  | rewrite kept_integers by (done || by apply core_in)
  | rewrite kept_booleans by (done || by apply core_in)
  | rewrite kept_put_opts by (done || by apply core_in)
  | rewrite kept_put_if by (done || by apply core_in)
  | match goal with |- context [if nonempty ?x then put_opts _ _ _ else _] => destruct (nonempty x) end
  | rewrite lookup_insert_eq | rewrite lookup_insert_ne by done ].

Lemma nonempty_true s : nonempty s = true → s ≠ "".
Proof. unfold nonempty. intros Hs. by bsplit. Qed.
Lemma first_nonempty v d : d ≠ "" → first v d ≠ "".
Proof. unfold first. intros Hd. case_if; [done|]. bsplit. by intros ->. Qed.

#[local] Opaque applyIntegerExtras applyBooleanExtras copy_extras applyTLS applyReality applyTransport
  put_if put_opts.

(** A proxy's keys, by the options they go through *)
Ltac solve_core :=
  unfold type_, put, credentials; cbv zeta;
  lazymatch goal with E : Node.Protocol _ = _ |- _ =>
    rewrite E; split_and!; [apply (bool_decide_unpack _); reflexivity|..]; try (intros [=]); intros; split_and?;
    first [strip; reflexivity | by apply nonempty_true | by apply first_nonempty | idtac]
  end.

Lemma BuildClashProxy_core n name p :
  BuildClashProxy (Some n) name = Ok p →
  IsValid n = true ∧ Node.Protocol n ∈ exported_protocols ∧
  p !! "name" = base_proxy n name !! "name" ∧ p !! "server" = Some (AStr (Node.Server n)) ∧
  p !! "port" = Some (AInt (Node.Port n)) ∧ p !! "type" = Some (AStr (Node.Protocol n)) ∧
  credentials n p.
Proof.
  unfold BuildClashProxy. destruct (IsValid n) eqn:Ev; [|done]. cbn [negb]. cbv zeta.
  fold (base_proxy n name). intros Hp. split; [done|].
  repeat case_if_in Hp; bsplit; try done.
  - unfold vmess_proxy in Hp. destruct (nonempty (Node.UUID n)) eqn:?; [|done]. injection Hp as <-.
    solve_core.
  - unfold vless_proxy in Hp. destruct (nonempty (Node.UUID n)) eqn:?, (reality_incomplete n); try done.
    injection Hp as <-. solve_core.
  - unfold trojan_proxy in Hp. destruct (nonempty (Node.Password n)) eqn:?, (reality_incomplete n); try done.
    injection Hp as <-. solve_core.
  - unfold ss_proxy in Hp.
    destruct (nonempty (Node.Method n)) eqn:?, (nonempty (Node.Password n)) eqn:?; try done.
    injection Hp as <-. solve_core.
  - unfold ssr_proxy in Hp. cbn [forallb] in Hp.
    destruct (nonempty (Node.Method n)) eqn:?, (nonempty (Node.Password n)) eqn:?; try done.
    case_if_in Hp; [done|]. injection Hp as <-. solve_core.
  - unfold hysteria2_proxy in Hp. destruct (nonempty (Node.Password n)) eqn:?; [|done].
    injection Hp as <-. solve_core.
  - unfold tuic_proxy, tuic_user in Hp. destruct (nonempty (extra_get n "token")) eqn:Et.
    + injection Hp as <-. solve_core. left. split; [strip; done|by apply nonempty_true].
    + destruct (nonempty (Node.UUID n)) eqn:?, (nonempty (Node.Password n)) eqn:?; try done.
      injection Hp as <-. solve_core. right. split; [unfold nonempty in Et; by bsplit|].
      split_and!; [strip; done|by apply nonempty_true|strip; done|by apply nonempty_true].
Qed.

(** A proxy carries the name it is given, unless that is blank. *)
Lemma BuildClashProxy_name n name p :
  BuildClashProxy (Some n) name = Ok p → TrimSpace name ≠ "" → p !! "name" = Some (AStr name).
Proof.
  intros (_ & _ & Hname & _)%BuildClashProxy_core Hb. rewrite Hname. unfold base_proxy.
  rewrite lookup_insert_eq. by rewrite (proj2 (String.eqb_neq _ _)).
Qed.

(** The names that a run of claims adds are new, distinct, and those of the
    proxies. *)
Record claimed (s s' : Names.t) (proxies : list (string * amap)) : Prop := {
  claimed_grows : Names.used s ⊆ Names.used s';
  claimed_nodup : NoDup proxies.*1;
  claimed_new : ∀ x, x ∈ proxies.*1 → x ∉ Names.used s ∧ x ∈ Names.used s';
  claimed_names : Forall (λ np : string * amap, np.2 !! "name" = Some (AStr np.1)) proxies;
}.

Lemma clash_proxies_claimed nodes : ∀ i s proxies s',
  clash_proxies i s nodes = (proxies, s') → claimed s s' proxies.
Proof.
  induction nodes as [|[n|] nodes IH]; intros i s proxies s'; cbn [clash_proxies].
  - intros [= <- <-]. split; [done|constructor|by intros ? ?%not_elem_of_nil|constructor].
  - destruct (claimUniqueName _ i s) as [x s1] eqn:Hx.
    destruct (clash_proxies _ s1 nodes) as [rest s2] eqn:Hr.
    pose proof (claim_not_blank _ _ _ _ _ Hx) as Hb. apply claim_spec in Hx as [Hx Hs].
    destruct (IH _ _ _ _ Hr) as [Hg Hn Hd Hf].
    destruct (BuildClashProxy (Some n) x) as [p|e] eqn:Hp; intros [= <- <-].
    + split; simpl; [set_solver| | |apply Forall_cons_2; [by eapply BuildClashProxy_name|done]].
      * constructor; [|done]. intros Hin%Hd. set_solver.
      * intros y [->|Hy]%elem_of_cons; [set_solver|]. apply Hd in Hy. set_solver.
    + split; [set_solver|done| |done]. intros y Hy%Hd. set_solver.
  - apply IH.
Qed.
End proxies.

(** ** Old runs *)

Lemma filter_none {A} (f : A → bool) l : (∀ y, y ∈ l → f y = false) → List.filter f l = [].
Proof.
  induction l as [|y l IH]; intros Hf; [done|]. simpl. rewrite (Hf y) by (by left).
  apply IH. intros z Hz. apply Hf. by right.
Qed.
(** The rank of an element in a sorted list without equivalent elements *)
Lemma rank_drop {A} (less : A → A → bool) (l : list A) k x :
  (∀ a, less a a = false) → (∀ a b, less a b = false → less b a = false → a = b) →
  sorted_by less l → NoDup l → x ∈ l →
  x ∈ drop k l ↔ (k ≤ length (List.filter (λ y, less y x) l))%nat.
Proof.
  intros Hirr Htot Hs Hn (l1 & l2 & ->)%list_elem_of_split.
  apply NoDup_app in Hn as (_ & H12 & [Hx2 _]%NoDup_cons).
  assert (Hx1 : x ∉ l1) by (intros Hx; by apply (H12 x Hx); left).
  assert (List.filter (λ y, less y x) (l1 ++ x :: l2) = l1) as ->.
  { rewrite List.filter_app. cbn [List.filter]. rewrite Hirr.
    rewrite (forallb_filter_id _ l1), (filter_none _ l2); [by rewrite app_nil_r|..].
    - intros y Hy. apply StronglySorted_app in Hs as (_ & _ & Hs).
      apply StronglySorted_inv in Hs as [_ Hs]. rewrite Forall_forall in Hs. by apply Hs.
    - apply forallb_forall. intros y Hy%list_elem_of_In.
      apply StronglySorted_app in Hs as (Hs & _). destruct (less y x) eqn:E; [done|].
      destruct Hx1. rewrite (Htot x y); [done| |done]. by apply Hs; [|left]. }
  split.
  - intros Hx. destruct (decide (k ≤ length l1)%nat) as [?|Hk]; [done|]. exfalso.
    rewrite drop_app_ge in Hx by lia. replace (k - length l1)%nat with (S (k - length l1 - 1)) in Hx by lia.
    simpl in Hx. apply Hx2. rewrite <-(take_drop (k - length l1 - 1) l2). apply elem_of_app. by right.
  - intros Hk. rewrite drop_app_le by done. apply elem_of_app. right. by left.
Qed.

Lemma entry_unique {A B} (l : list (A * B)) (a : A) b c :
  NoDup l.*1 → (a, b) ∈ l → (a, c) ∈ l → b = c.
Proof.
  intros Hn Hb Hc. apply list_elem_of_lookup in Hb as [i Hi], Hc as [j Hj].
  assert (i = j) as ->.
  { eapply (NoDup_lookup l.*1 i j a); [done|by rewrite list_lookup_fmap, Hi|by rewrite list_lookup_fmap, Hj]. }
  rewrite Hi in Hj. by injection Hj.
Qed.

(** The runs that are newer than one, each counted once *)
Definition newer_runs (prefix : string) (entries : list (string * bool)) (run : string) : gset string :=
  filter (λ r, String.ltb run r = true) (list_to_set (omap (run_of prefix) entries)).

Lemma ltb_lt_of a b : String.ltb a b = lt_of (String.compare a b).
Proof. unfold String.ltb. by destruct (String.compare a b). Qed.
Lemma newest_first : StrictWeak (λ _ : string, True) (λ a b, String.ltb b a).
Proof.
  eapply strict_weak_ext; [apply comparator_weak, (string_comparator_desc _ id)|].
  intros x y _ _. by rewrite ltb_lt_of.
Qed.
Lemma rank_run prefix k entries run :
  run ∈ runs_desc prefix entries → NoDup (runs_desc prefix entries) →
  run ∈ drop k (runs_desc prefix entries) ↔
  (k ≤ length (List.filter (λ y, String.ltb run y) (runs_desc prefix entries)))%nat.
Proof.
  intros Hin Hn. apply (rank_drop (λ a b, String.ltb b a)); [| | |done..].
  - intros a. rewrite ltb_lt_of. pose proof (String.compare_antisym a a) as H.
    by destruct (String.compare a a).
  - intros a b. rewrite !ltb_lt_of, (String.compare_antisym b a).
    destruct (String.compare a b) eqn:E; try done. intros _ _. by apply String.compare_eq_iff.
  - unfold runs_desc. pose proof newest_first. by apply (stable_sort_sorted (λ _, True)), Forall_true.
Qed.
Lemma old_run prefix k entries run :
  run ∈ drop k (runs_desc prefix entries) ↔
  (∃ e, e ∈ entries ∧ run_of prefix e = Some run) ∧ (k ≤ size (newer_runs prefix entries run))%nat.
Proof.
  set (l := dedup (omap (run_of prefix) entries)).
  assert (Hruns : ∀ r, r ∈ runs_desc prefix entries ↔ ∃ e, e ∈ entries ∧ run_of prefix e = Some r).
  { intros r. unfold runs_desc. by rewrite elem_of_stable_sort, elem_of_dedup, list_elem_of_omap. }
  assert (Hnd : NoDup (runs_desc prefix entries)).
  { unfold runs_desc. rewrite stable_sort_perm. apply NoDup_dedup. }
  assert (Hsize : length (List.filter (λ y, String.ltb run y) (runs_desc prefix entries))
                = size (newer_runs prefix entries run)).
  { rewrite <-(size_list_to_set (C := gset string)) by (by apply NoDup_ListNoDup, List.NoDup_filter, NoDup_ListNoDup).
    f_equal. apply set_eq. intros r. unfold newer_runs.
    rewrite elem_of_list_to_set, elem_of_list_filter_bool, elem_of_filter, elem_of_list_to_set, Hruns.
    rewrite list_elem_of_omap. tauto. }
  rewrite <-Hsize, <-Hruns. split.
  - intros Hx. assert (Hin : run ∈ runs_desc prefix entries).
    { rewrite <-(take_drop k (runs_desc _ _)). apply elem_of_app. by right. }
    split; [done|]. revert Hx. by apply rank_run.
  - intros [Hin Hx]. revert Hx. by apply rank_run.
Qed.

(** Only old runs are removed, and all of them: a file of the directory is
    removed if and only if its name has the form of a run of this prefix and
    at least [keep] runs are newer.  Directories and files of other names stay. *)
Theorem cleanup_exact prefix keep entries name is_dir :
  0 < keep → NoDup entries.*1 → (name, is_dir) ∈ entries →
  name ∈ cleanupOldRuns prefix keep entries ↔
  ∃ run, run_of prefix (name, is_dir) = Some run ∧
    keep ≤ Z.of_nat (size (newer_runs prefix entries run)).
Proof.
  intros Hk Hn Hin. unfold cleanupOldRuns. rewrite (proj2 (Z.leb_gt _ _)) by done. cbv zeta.
  rewrite list_elem_of_fmap. split.
  - intros ([name' d] & -> & Hrm). apply list_elem_of_bind in Hrm as (run & Hrm & Hrun).
    apply elem_of_list_filter_bool in Hrm as [Hin' Heq]. bsplit.
    pose proof (entry_unique _ _ _ _ Hn Hin Hin') as ->. exists run. split; [done|].
    apply old_run in Hrun as [_ Hrank]. lia.
  - intros (run & Hrun & Hrank). exists (name, is_dir). split; [done|].
    apply list_elem_of_bind. exists run. split.
    + apply elem_of_list_filter_bool. by rewrite Hrun, bool_decide_eq_true_2.
    + apply old_run. split; [by exists (name, is_dir)|lia].
Qed.

(** C18: The proxies of an exported configuration can be told apart: each one
    carries the name that was claimed for it, the names and the name of their
    group are pairwise distinct and none of them is a built-in policy, and the
    group and the rule refer to exactly these names. *)
Theorem clash_names_unique `{Unicode, LinkJson, ClashCodec} nodes :
  ∃ names proxies group,
    clash_root nodes !! "proxies" = Some (AList (AMap <$> proxies)) ∧
    Forall2 (λ x (p : amap), p !! "name" = Some (AStr x)) names proxies ∧
    NoDup (group :: names) ∧ (∀ x, x ∈ group :: names → x ∉ reserved_names) ∧
    (names ≠ [] →
      clash_root nodes !! "rules" = Some (AStrs ["MATCH," +:+ group]) ∧
      clash_root nodes !! "proxy-groups" = Some (AList [AMap
        {["name" := AStr group; "type" := AStr "select"; "proxies" := AStrs names]}])).
Proof.
  unfold clash_root. destruct (clash_proxies 0 reservedProxyNames nodes) as [proxies s] eqn:E.
  apply clash_proxies_claimed in E as [Hg Hn Hd Hf].
  destruct (claimUniqueName "NodeHarvest" (Z.of_nat (length nodes)) s) as [group s'] eqn:Hclaim.
  pose proof (claim_spec _ _ _ _ _ Hclaim) as [Hgroup _]. exists proxies.*1, proxies.*2, group.
  split_and!.
  - assert (AMap <$> proxies.*2 = (λ np : string * amap, AMap np.2) <$> proxies) as ->
      by (by rewrite <-list_fmap_compose).
    destruct proxies; [done|]. unfold put. by rewrite !lookup_insert_ne by done.
  - clear -Hf. induction Hf; simpl; constructor; done.
  - constructor; [|done]. by intros [_ Hin]%Hd.
  - assert (Hres : ∀ x, x ∉ Names.used reservedProxyNames → x ∉ reserved_names).
    { intros x Hx Hin. apply Hx. by apply elem_of_list_to_set. }
    intros x [->|Hx]%elem_of_cons; apply Hres; [set_solver|by apply Hd].
  - intros Hne. destruct proxies; [done|]. cbn [fst]. unfold put.
    rewrite lookup_insert_eq, lookup_insert_ne, lookup_insert_eq by done. done.
Qed.
