(* ===== verification/LinkProofs.v ===== *)
(** * A link under a new name

    An exported link carries the name that the export claimed: reading it back
    gives the node of the original link under that name. *)
From S2P Require Import Prelude GoStr GoFloat GoTime Model Base64 Ratelimit NetAddr.
From S2P Require Import NetUrl Links Clash Exporter.

(** ** Links and their fragments *)

(** A link is its base, or the base and a fragment. *)
Definition link_of (base raw : string) : Prop :=
  raw = base ∨ ∃ f, raw = base +:+ "#" +:+ f ∧ "#"%char ∉ explode f.
Definition no_hash (s : string) : Prop := "#"%char ∉ explode s.
(** Neither escaped nor read as an escape in a query *)
Definition plain_name (s : string) : Prop :=
  Forall (λ c, Ascii.eqb c percent_byte = false ∧ Ascii.eqb c "+" = false) (explode s).

Lemma explode_hash a f : explode (a +:+ "#" +:+ f) = explode a ++ "#"%char :: explode f.
Proof. by rewrite !explode_app. Qed.
Lemma Cut_hash a f : no_hash a → Cut (a +:+ "#" +:+ f) "#" = Some (a, f).
Proof. intros Ha. unfold Cut. by rewrite explode_hash, cut_on_app, !implode_explode. Qed.
Lemma Cut_no_hash a : no_hash a → Cut a "#" = None.
Proof. intros Ha. unfold Cut. by rewrite cut_on_absent. Qed.
Lemma before_link base raw : no_hash base → link_of base raw → before raw "#" = base.
Proof.
  intros Hb [->|(f & -> & _)]; unfold before; [by rewrite Cut_no_hash|by rewrite Cut_hash].
Qed.

Lemma link_with_name_link base raw name :
  no_hash base → link_of base raw → link_with_name raw name = base +:+ "#" +:+ PathEscape name.
Proof.
  intros Hb [->|(f & -> & Hf)]; unfold link_with_name, CutLast.
  - by rewrite cut_on_absent by (by rewrite elem_of_reverse_rev).
  - rewrite explode_hash, rev_app_distr. cbn [rev]. rewrite <-app_assoc. cbn [app].
    rewrite cut_on_app by (by rewrite elem_of_reverse_rev).
    cbn [fst fmap option_fmap option_map default]. by rewrite rev_involutive, implode_explode.
Qed.

Lemma escaped_no_hash name : no_hash (PathEscape name).
Proof.
  unfold no_hash, PathEscape, escape. rewrite explode_implode. intros Hin.
  pose proof (escape_graphic encodePathSegment (explode name) eq_refl) as Hg.
  rewrite Forall_forall in Hg. by apply Hg in Hin as [_ Hne].
Qed.

Section names.
Context `{Unicode}.

(** Reading a link is reading its base; the fragment is set beside it. *)
Lemma ParseURL_link base raw u :
  no_hash base → link_of base raw →
  ParseURL raw = Some u → ∃ u0 f, parse_base base = Some u0 ∧ u = u0 <| URL.Fragment := f |>.
Proof.
  intros Hb Hl. destruct Hl as [->|(f & -> & _)]; unfold ParseURL, cut_or.
  - rewrite Cut_no_hash by done. simpl. destruct (parse_base base) as [u0|]; [|done].
    intros [= <-]. exists u0, (URL.Fragment u0). by destruct u0.
  - rewrite Cut_hash by done. simpl. destruct (parse_base base) as [u0|]; [|done]. simpl.
    case_if; [intros [= <-]; exists u0, (URL.Fragment u0); by destruct u0|].
    destruct (unescape encodeFragment f) as [g|]; [|done]. intros [= <-]. by exists u0, g.
Qed.

Lemma parseName_plain u name d :
  plain_name name → name ≠ "" → parseNameFromFragment (u <| URL.Fragment := name |>) d = name.
Proof.
  intros Hp Hn. unfold parseNameFromFragment. simpl.
  rewrite (proj2 (String.eqb_neq _ _) Hn). unfold QueryUnescape, unescape.
  rewrite unescape_plain by done. simpl. rewrite implode_explode.
  by rewrite (proj2 (String.eqb_neq _ _) Hn).
Qed.

(** What a path escapes a query reads back, unless there is a '+'. *)
Lemma unescape_segment l :
  Forall (λ c, Ascii.eqb c "+" = false) l →
  unescape_bytes encodeQueryComponent (escape_bytes encodePathSegment l) = Some l.
Proof.
  induction 1 as [|c l Hc Hl IH]; simpl; [done|].
  unfold escape_byte. destruct (shouldEscape c encodePathSegment) eqn:E.
  - pose proof (byte_val_range c). rewrite (bool_decide_eq_false_2 (encodePathSegment = _)) by done.
    rewrite andb_false_r. cbn [app unescape_bytes].
    change (Ascii.eqb percent_byte percent_byte) with true. cbv iota.
    destruct (upper_hex_val (byte_val c / 16)) as [-> _]; [euclid|].
    destruct (upper_hex_val (byte_val c mod 16)) as [-> _]; [euclid|].
    simpl. rewrite IH. simpl. f_equal. f_equal. apply byte_of_eq. euclid.
  - destruct (plain_byte _ c E) as (Hp & _ & _). cbn [app unescape_bytes]. rewrite Hp, Hc. simpl.
    by rewrite IH.
Qed.

Lemma QueryUnescape_PathEscape name : plain_name name → QueryUnescape (PathEscape name) = Some name.
Proof.
  intros Hp. unfold QueryUnescape, PathEscape, unescape, escape. rewrite explode_implode.
  rewrite unescape_segment by (eapply Forall_impl; [done|by intros c []]). simpl.
  by rewrite implode_explode.
Qed.

(** ** The scheme *)

Lemma HasPrefix_hash a f p : no_hash p → HasPrefix (a +:+ String "#" f) p = HasPrefix a p.
Proof.
  unfold HasPrefix, no_hash. revert a; induction p as [|c p IH]; intros a Hp; [by destruct a|].
  apply not_elem_of_cons in Hp as [Hc Hp]. destruct a as [|d a]; simpl.
  - by destruct (ascii_dec c "#").
  - destruct (ascii_dec c d); [by apply IH|done].
Qed.
Lemma is_ascii_app a b : is_ascii (a +:+ b) = is_ascii a && is_ascii b.
Proof.
  induction a as [|c a IH]; [done|]. change (String c a +:+ b) with (String c (a +:+ b)).
  cbn. by rewrite IH, andb_assoc.
Qed.
Lemma string_map_append f a b : string_map f (a +:+ b) = string_map f a +:+ string_map f b.
Proof.
  induction a as [|c a IH]; [done|]. change (String c a +:+ b) with (String c (a +:+ b)).
  cbn. by rewrite IH.
Qed.
Lemma ToLower_hash a f :
  is_ascii (a +:+ "#" +:+ f) = true → ∃ g, ToLower (a +:+ "#" +:+ f) = ToLower a +:+ String "#" g.
Proof.
  intros Ha. unfold ToLower. rewrite Ha. rewrite is_ascii_app in Ha. bsplit. rewrite H0.
  exists (string_map lower_byte f). by rewrite string_map_append.
Qed.

Lemma graphic_ascii s : Forall graphic (explode s) → is_ascii s = true.
Proof.
  induction s as [|c s IH]; [done|]. intros [Hc Hs]%Forall_cons. cbn. rewrite IH by done.
  unfold graphic in Hc. lia.
Qed.

Lemma scheme_of_link base raw p :
  Forall graphic (explode raw) → link_of base raw → no_hash p →
  HasPrefix (ToLower (TrimSpace raw)) p = HasPrefix (ToLower base) p.
Proof.
  intros Hg Hl Hp. rewrite TrimSpace_graphic by done. destruct Hl as [->|(f & -> & _)]; [done|].
  destruct (ToLower_hash base f) as [g ->]; [by apply graphic_ascii|]. by apply HasPrefix_hash.
Qed.
End names.

(** ** Every kind of link *)

Definition renamed (n : node) (name raw : string) : node :=
  n <| Node.Name := name |> <| Node.RawURI := raw |>.

Section protocols.
Context `{Unicode} `{Crypto} `{FmtAny} `{LinkJson}.

Lemma parseVMess_protocol raw source n : parseVMess raw source = Ok n → Node.Protocol n = ProtoVMess.
Proof.
  unfold parseVMess. destruct (decode_first _ _ _); [|done]. destruct (vmess_unmarshal _); [|done].
  case_if; [done|]. by intros [= <-].
Qed.
Lemma parseSSR_protocol raw source n : parseSSR raw source = Ok n → Node.Protocol n = ProtoSSR.
Proof.
  unfold parseSSR. destruct (tryDecodeBase64 _); [|done]. destruct (ssr_split _).
  case_if; [done|]. by intros [= <-].
Qed.
Lemma parseHysteria2_protocol raw source n :
  parseHysteria2 raw source = Ok n → Node.Protocol n = ProtoHysteria2.
Proof.
  unfold parseHysteria2. destruct (parseHysteriaURL raw) as [[u ports]|]; [|done].
  destruct (splitHostPort _ _); [|done]. by intros [= <-].
Qed.
End protocols.

Section links.
Context `{Unicode} `{Crypto} `{FmtAny} `{LinkJson}.
Context (base raw name source : string).
Context (Hbase : no_hash base) (Hlink : link_of base raw).
Context (Hplain : plain_name name) (Hname : name ≠ "").
Let raw' := base +:+ "#" +:+ PathEscape name.

Lemma ParseURL_renamed u :
  ParseURL raw = Some u → ParseURL raw' = Some (u <| URL.Fragment := name |>).
Proof.
  intros (u0 & f & Hu & ->)%(ParseURL_link base); [|done..].
  unfold raw', PathEscape. rewrite ParseURL_fragment by done. by rewrite Hu.
Qed.
Lemma parse_link_renamed u host port :
  parse_link raw = Ok (u, host, port) →
  parse_link raw' = Ok (u <| URL.Fragment := name |>, host, port).
Proof.
  unfold parse_link. destruct (ParseURL raw) as [v|] eqn:E; [|done].
  rewrite (ParseURL_renamed v E).
  change (URL.Host (v <| URL.Fragment := name |>)) with (URL.Host v).
  destruct (splitHostPort _ _) as [[h p]|]; [|done]. simpl. by intros [= <- <- <-].
Qed.

Lemma parseVLESS_renamed n :
  parseVLESS raw source = Ok n → parseVLESS raw' source = Ok (renamed n name raw').
Proof.
  unfold parseVLESS. destruct (parse_link raw) as [[[u h] p]|] eqn:E; [|done].
  rewrite (parse_link_renamed _ _ _ E). simpl. intros [= <-].
  unfold vless_node. by rewrite parseName_plain.
Qed.
Lemma parseTrojan_renamed n :
  parseTrojan raw source = Ok n → parseTrojan raw' source = Ok (renamed n name raw').
Proof.
  unfold parseTrojan. destruct (parse_link raw) as [[[u h] p]|] eqn:E; [|done].
  rewrite (parse_link_renamed _ _ _ E). simpl. intros [= <-].
  unfold trojan_node. by rewrite parseName_plain.
Qed.
Lemma parseTUIC_renamed n :
  parseTUIC raw source = Ok n → parseTUIC raw' source = Ok (renamed n name raw').
Proof.
  unfold parseTUIC. destruct (parse_link raw) as [[[u h] p]|] eqn:E; [|done].
  rewrite (parse_link_renamed _ _ _ E). simpl. intros [= <-].
  unfold tuic_node. rewrite parseName_plain by done. simpl.
  change (password (u <| URL.Fragment := name |>)) with (password u).
  change (query_of (u <| URL.Fragment := name |>)) with (query_of u).
  change (username (u <| URL.Fragment := name |>)) with (username u).
  by destruct ((default "" (password u) =? "")%string && _).
Qed.
Lemma parseHysteria2_renamed n :
  is_Some (ParseURL raw) →
  parseHysteria2 raw source = Ok n → parseHysteria2 raw' source = Ok (renamed n name raw').
Proof.
  intros [u Hu]. unfold parseHysteria2, parseHysteriaURL. rewrite Hu, (ParseURL_renamed u Hu).
  change (URL.Host (u <| URL.Fragment := name |>)) with (URL.Host u).
  destruct (splitHostPort _ _) as [[h p]|]; [|done]. simpl. intros [= <-].
  unfold hysteria_node. by rewrite parseName_plain.
Qed.

(** The body of a shadowsocks link *)
Lemma TrimPrefix_hash p a f :
  no_hash p → no_hash a → TrimPrefix (a +:+ "#" +:+ f) p = TrimPrefix a p +:+ "#" +:+ f.
Proof.
  unfold TrimPrefix, no_hash. intros Hp Ha. rewrite explode_hash.
  assert (strip_prefix (explode p) (explode a ++ "#"%char :: explode f)
    = (λ k, k ++ "#"%char :: explode f) <$> strip_prefix (explode p) (explode a)) as ->.
  { clear -Hp Ha. revert Hp Ha. generalize (explode a) as x, (explode p) as q.
    intros x q; revert x; induction q as [|c q IH]; intros x Hp Ha; [done|].
    apply not_elem_of_cons in Hp as [Hc Hp]. destruct x as [|d x]; simpl.
    - by rewrite (proj2 (Ascii.eqb_neq _ _)) by done.
    - apply not_elem_of_cons in Ha as [_ Ha]. destruct (Ascii.eqb c d); [by apply IH|done]. }
  destruct (strip_prefix (explode p) (explode a)) as [k|]; [|done]. simpl.
  apply explode_inj. by rewrite explode_hash, !explode_implode.
Qed.
Lemma TrimPrefix_no_hash p a : no_hash a → no_hash (TrimPrefix a p).
Proof.
  unfold TrimPrefix, no_hash. intros Ha. destruct (strip_prefix _ _) as [k|] eqn:E; [|done].
  apply strip_prefix_app in E. rewrite explode_implode. rewrite E in Ha.
  by apply not_elem_of_app in Ha as [_ ?].
Qed.
Lemma TrimPrefix_link p a r :
  no_hash p → no_hash a → link_of a r → link_of (TrimPrefix a p) (TrimPrefix r p).
Proof.
  intros Hp Ha [->|(f & -> & Hf)]; [by left|]. right. exists f. by rewrite TrimPrefix_hash.
Qed.

(** What a shadowsocks link says beside its name and its text is in its base. *)
Definition ss_body (s : string) : string := TrimPrefix (TrimPrefix s "ss://") "SS://".
Lemma ss_body_no_hash : no_hash (ss_body base).
Proof. by apply TrimPrefix_no_hash, TrimPrefix_no_hash. Qed.
Lemma ss_body_link : link_of (ss_body base) (ss_body raw).
Proof.
  apply TrimPrefix_link; [by apply (bool_decide_unpack _)|by apply TrimPrefix_no_hash|].
  apply TrimPrefix_link; [by apply (bool_decide_unpack _)|done|done].
Qed.
Lemma ss_body_renamed : ss_body raw' = ss_body base +:+ "#" +:+ PathEscape name.
Proof.
  unfold ss_body, raw'. rewrite TrimPrefix_hash by (done || by apply (bool_decide_unpack _)).
  apply TrimPrefix_hash; [by apply (bool_decide_unpack _)|by apply TrimPrefix_no_hash].
Qed.

Lemma parseSS_renamed n :
  parseSS raw source = Ok n → parseSS raw' source = Ok (renamed n name raw').
Proof.
  unfold parseSS. cbv zeta. fold (ss_body raw) (ss_body raw').
  rewrite (before_link _ _ ss_body_no_hash ss_body_link).
  rewrite ss_body_renamed. unfold before at 3 4. rewrite Cut_hash by apply ss_body_no_hash. simpl.
  destruct (ss_parts _) as [[[[m pw] h] p]|]; [|done]. simpl. intros [= <-].
  assert (ss_name (ss_body base +:+ "#" +:+ PathEscape name) = name) as ->.
  { unfold ss_name. rewrite Cut_hash by apply ss_body_no_hash. by rewrite QueryUnescape_PathEscape. }
  by rewrite (proj2 (String.eqb_neq _ _) Hname).
Qed.

(** ** The theorem *)

Context (Hgraphic : Forall graphic (explode raw)).

Lemma raw'_link : link_of base raw'.
Proof. right. exists (PathEscape name). split; [done|apply escaped_no_hash]. Qed.
Lemma raw'_graphic : Forall graphic (explode raw').
Proof.
  unfold raw'. rewrite explode_hash. apply Forall_app. split.
  - destruct Hlink as [->|(f & -> & _)]; [done|]. by rewrite explode_hash in Hgraphic; apply Forall_app in Hgraphic as [? _].
  - apply Forall_cons_2; [by vm_compute|]. unfold PathEscape, escape. rewrite explode_implode.
    eapply Forall_impl; [by apply escape_graphic|]. by intros c [].
Qed.

(** The links that carry their name in a fragment, read by [ParseURI] *)
Lemma ParseURI_renamed n :
  Node.Protocol n ∉ [ProtoVMess; ProtoSSR] →
  (Node.Protocol n = ProtoHysteria2 → is_Some (ParseURL raw)) →
  ParseURI raw source = Ok n → ParseURI raw' source = Ok (renamed n name raw').
Proof.
  intros Hproto Hhy. unfold ParseURI. cbv zeta.
  pose proof raw'_graphic as Hg'. pose proof raw'_link as Hl'.
  rewrite !(scheme_of_link base raw) by (assumption || by apply (bool_decide_unpack _)).
  rewrite !(scheme_of_link base raw') by (assumption || by apply (bool_decide_unpack _)).
  rewrite (TrimSpace_graphic raw), (TrimSpace_graphic raw') by done.
  intros Hn. repeat case_if_in Hn; try done.
  - exfalso. apply Hproto. apply parseVMess_protocol in Hn as ->. by left.
  - by apply parseVLESS_renamed.
  - by apply parseTrojan_renamed.
  - by apply parseSS_renamed.
  - exfalso. apply Hproto. apply parseSSR_protocol in Hn as ->. by right; left.
  - apply parseHysteria2_renamed; [|done]. by apply Hhy; apply parseHysteria2_protocol in Hn.
  - by apply parseTUIC_renamed.
Qed.
End links.

(** Such a link is written with its new name after its base. *)
Lemma rawURI_renamed `{LinkJson} base raw name protocol :
  no_hash base → link_of base raw → protocol ∉ [ProtoVMess; ProtoSSR] →
  rawURIWithName raw protocol name = Ok (base +:+ "#" +:+ PathEscape name).
Proof.
  intros Hb Hl Hproto. unfold rawURIWithName. rewrite !(proj2 (String.eqb_neq _ _)).
  - by rewrite (link_with_name_link base).
  - intros ->. apply Hproto. by right; left.
  - intros ->. apply Hproto. by left.
Qed.

(** A link that is exported under a new name reads back as the node of the
    original link with nothing changed but the name and the text: for every
    kind of link that carries its name in the fragment, whatever fragment the
    original had, and every name with no '%' and no '+'. *)
Theorem rename_link `{Unicode} `{Crypto} `{FmtAny} `{LinkJson} base raw name source n :
  Forall graphic (explode raw) → no_hash base → link_of base raw →
  plain_name name → name ≠ "" →
  Node.Protocol n ∉ [ProtoVMess; ProtoSSR] →
  (Node.Protocol n = ProtoHysteria2 → is_Some (ParseURL raw)) →
  ParseURI raw source = Ok n →
  let raw' := base +:+ "#" +:+ PathEscape name in
  rawURIWithName raw (Node.Protocol n) name = Ok raw' ∧
  ParseURI raw' source = Ok (n <| Node.Name := name |> <| Node.RawURI := raw' |>).
Proof.
  intros Hg Hb Hl Hp Hne Hproto Hhy Hn raw'.
  split; [by apply rawURI_renamed|by eapply ParseURI_renamed].
Qed.
