(* ===== verification/Content.v ===== *)
(** * Subscriptions: [ParseContent] of [internal/parser/parser.go]

    How the text of a source becomes nodes: Clash documents, base64 texts,
    lines, and links anywhere in the text.

    ** A subscription, read back

    The list of links that an export renders is a subscription that the parser
    reads: no node is lost on the way. *)
From Stdlib Require Import DecimalString.
From S2P Require Import Prelude GoStr GoFloat GoTime Model Base64 NetUrl Links Clash Ratelimit.
From S2P Require Import NetAddr Exporter ExportProofs LinkProofs.

(** ** Links in a text: [uriRe]

    One of the schemes in any case, "://", and one or more bytes that are
    neither white space, nor an angle bracket, nor a quote; the long s (U+017F)
    folds to an s. *)
Definition long_s : bytes := map byte_of [197; 191].
Fixpoint match_fold (p l : bytes) : option bytes :=
  match p with
  | [] => Some l
  | c :: p =>
      match l with
      | d :: l' =>
          if Ascii.eqb (lower_byte d) c then match_fold p l'
          else if Ascii.eqb c "s" then
            match strip_prefix long_s l with Some l' => match_fold p l' | None => None end
          else None
      | [] => None
      end
  end.
Definition uri_names : list string := ["vmess"; "vless"; "trojan"; "ss"; "ssr"; "hysteria2"; "hy2"; "tuic"].
Fixpoint match_scheme (names : list string) (l : bytes) : option bytes :=
  match names with
  | [] => None
  | name :: names =>
      match match_fold (explode (name +:+ "://")) l with
      | Some l' => Some l'
      | None => match_scheme names l
      end
  end.
Definition uri_byte (c : ascii) : bool :=
  let v := byte_val c in
  negb ((v =? 9) || (v =? 10) || (v =? 12) || (v =? 13) || (v =? 32) || (v =? 34))
  && negb (one_of "<>'" c).
Fixpoint take_uri (l : bytes) : nat :=
  match l with
  | c :: l => if uri_byte c then S (take_uri l) else 0%nat
  | [] => 0%nat
  end.
(** The length of the match at the front of [l], 0 when there is none *)
Definition match_length (l : bytes) : nat :=
  match match_scheme uri_names l with
  | Some rest => match take_uri rest with
                 | O => O
                 | n => length l - length rest + n
                 end
  | None => O
  end%nat.
(** The matches, left to right, none inside another *)
Fixpoint find_uris (skip : nat) (l : bytes) : list bytes :=
  match l with
  | [] => []
  | c :: l' =>
      match skip with
      | S skip => find_uris skip l'
      | O => match match_length l with
             | O => find_uris 0 l'
             | S n => take (S n) l :: find_uris n l'
             end
      end
  end.
Definition FindAllURIs (s : string) : list string := implode <$> find_uris 0 (explode s).

Section content.
Context `{Unicode} `{Crypto} `{FmtAny} `{LinkJson} `{ClashCodec}.

(** [strings.TrimRightFunc] with the closing punctuation *)
Definition closing_marks : list bytes := [[","%char]; [";"%char]; [")"%char]; ["]"%char]].
Definition trim_marks (s : string) : string :=
  let l := explode s in
  implode (rev (trim_front (length l) (map (@rev ascii) (closing_marks ++ space_runes)) (rev l))).
Definition quotes : string := "`'" +:+ String quote_byte "".
Definition clean_line (line : string) : string := trim_marks (Trim (TrimSpace line) quotes).

(** One line of the text: nothing for a comment, the lines of a base64 line,
    else the line *)
Definition expand_line (line : string) : list string :=
  let line := TrimSpace line in
  if (line =? "")%string || HasPrefix line "#" || HasPrefix line "//" then []
  else if looksLikeURI line then [line]
  else match tryDecodeBase64 line with
       | Some decoded => if looksLikeURI decoded then splitLines decoded else [line]
       | None => [line]
       end.

(** The last loop: each cleaned line once *)
Fixpoint parse_lines (source : string) (seen : gset string) (lines : list string) : list node :=
  match lines with
  | [] => []
  | line :: lines =>
      if (Trim (TrimSpace line) quotes =? "")%string then parse_lines source seen lines
      else
        let line := clean_line line in
        if bool_decide (line ∈ seen) then parse_lines source seen lines
        else
          let rest := parse_lines source ({[line]} ∪ seen) lines in
          match ParseURI line source with Ok n => n :: rest | Err _ => rest end
  end.
Definition parse_text (content source : string) : list node :=
  parse_lines source ∅ (mjoin (expand_line <$> splitLines content) ++ FindAllURIs content).

(** The proxies of a Clash document, when there are any *)
Definition clash_nodes (content source : string) : list node :=
  if looksLikeClash content then ParseClash content source else [].

(** [ParseContent] *)
Definition ParseContent (content source : string) : list node :=
  let content := TrimSpace content in
  if (content =? "")%string then []
  else
    match clash_nodes content source with
    | [] =>
        match tryDecodeBase64 content with
        | Some decoded =>
            match clash_nodes decoded source with
            | [] => parse_text decoded source
            | nodes => nodes
            end
        | None => parse_text content source
        end
    | nodes => nodes
    end.
End content.

(** ** Claimed names *)

Lemma plain_app a b : plain_name (a +:+ b) ↔ plain_name a ∧ plain_name b.
Proof. unfold plain_name. by rewrite explode_app, Forall_app. Qed.
Lemma plain_map f s :
  (∀ c, Ascii.eqb c percent_byte = false ∧ Ascii.eqb c "+" = false →
        Ascii.eqb (f c) percent_byte = false ∧ Ascii.eqb (f c) "+" = false) →
  plain_name s → plain_name (string_map f s).
Proof.
  unfold plain_name. intros Hf. induction s as [|c s IH]; [done|]. intros [Hc Hs]%Forall_cons.
  apply Forall_cons_2; [by apply Hf|by apply IH].
Qed.
Lemma plain_uint u : plain_name (NilEmpty.string_of_uint u).
Proof. induction u; try (apply Forall_cons_2; [done|exact IHu]). constructor. Qed.
Lemma plain_nil_zero u : plain_name (NilZero.string_of_uint u).
Proof. destruct u; [by apply (bool_decide_unpack _)|apply plain_uint..]. Qed.
Lemma plain_Itoa z : plain_name (Itoa z).
Proof.
  unfold Itoa. destruct (Z.to_int z) as [u|u]; [apply plain_nil_zero|].
  apply Forall_cons_2; [done|apply plain_nil_zero].
Qed.

Lemma sanitize_plain name i : plain_name name → plain_name (sanitizeYAMLName name i).
Proof.
  intros Hn. unfold sanitizeYAMLName. cbv zeta. case_if.
  - apply plain_app. split; [by apply (bool_decide_unpack _)|apply plain_Itoa].
  - apply plain_map; [|done]. intros c Hc. unfold yaml_name_byte. case_if; [done|]. case_if; done.
Qed.
Lemma claim_plain name i s x s' :
  plain_name name → claimUniqueName name i s = (x, s') → plain_name x ∧ x ≠ "".
Proof.
  intros Hn Hx. split.
  2: { intros ->. by apply claim_not_blank in Hx. }
  unfold claimUniqueName in Hx. case_if_in Hx.
  - destruct (claim_loop _ _ _ _) as [[y k]|] eqn:Hc; simpl in Hx; injection Hx as <- _.
    + apply claim_loop_candidate in Hc as [j ->]. unfold candidate.
      rewrite !plain_app. split_and!; [by apply sanitize_plain|by apply (bool_decide_unpack _)|apply plain_Itoa].
    + by apply sanitize_plain.
  - injection Hx as <- _. by apply sanitize_plain.
Qed.

(** ** The lines of an export *)

Section export.
Context `{Unicode} `{Crypto} `{FmtAny} `{LinkJson}.

(** A node whose link is renamed faithfully *)
Definition exportable (source : string) (n : node) : Prop :=
  (∃ base, Forall graphic (explode (Node.RawURI n)) ∧ no_hash base ∧ link_of base (Node.RawURI n)) ∧
  plain_name (Node.Name n) ∧ Node.Protocol n ∉ [ProtoVMess; ProtoSSR] ∧
  (Node.Protocol n = ProtoHysteria2 → is_Some (ParseURL (Node.RawURI n))) ∧
  ParseURI (Node.RawURI n) source = Ok n.

(** A line of an export: a link with a name in its fragment *)
Definition export_line (line : string) : Prop :=
  ∃ base name, line = base +:+ "#" +:+ PathEscape name ∧ name ≠ "" ∧
    Forall graphic (explode line) ∧ looksLikeURI line = true.

Definition exported_as (source : string) (n : node) (line : string) : Prop :=
  ∃ name, ParseURI line source = Ok (n <| Node.Name := name |> <| Node.RawURI := line |>).

Lemma ParseURI_looks raw source n : ParseURI raw source = Ok n → looksLikeURI raw = true.
Proof.
  unfold ParseURI, looksLikeURI. cbv zeta. unfold link_schemes. cbn [existsb]. intros Hn.
  repeat case_if_in Hn; bsplit; try done; try by rewrite ?orb_true_r.
  apply orb_true_iff in E4 as [-> | ->]; by rewrite ?orb_true_r.
Qed.

Lemma export_line_intro base raw name source n :
  Forall graphic (explode raw) → no_hash base → link_of base raw → plain_name name → name ≠ "" →
  Node.Protocol n ∉ [ProtoVMess; ProtoSSR] →
  (Node.Protocol n = ProtoHysteria2 → is_Some (ParseURL raw)) →
  ParseURI raw source = Ok n →
  ∃ line, rawURIWithName raw (Node.Protocol n) name = Ok line ∧ export_line line ∧
          exported_as source n line.
Proof.
  intros Hg Hb Hl Hp Hne Hproto Hhy Hn. eexists. split; [by apply rawURI_renamed|].
  pose proof (ParseURI_renamed base raw name source Hb Hl Hp Hne Hg n Hproto Hhy Hn) as Hline.
  split; [|by exists name]. exists base, name. split; [done|]. split; [done|].
  split; [by eapply raw'_graphic|by eapply ParseURI_looks].
Qed.

Definition exportable_entry (source : string) (o : option node) : Prop :=
  match o with Some n => exportable source n | None => True end.

Lemma raw_lines_export source nodes : ∀ i s,
  Forall (exportable_entry source) nodes →
  ∃ lines, raw_lines i s nodes = Ok lines ∧ Forall export_line lines ∧
    ∀ n, Some n ∈ nodes → ∃ line, line ∈ lines ∧ exported_as source n line.
Proof.
  induction nodes as [|o nodes IH]; intros i s Hall.
  { exists []. split; [done|]. split; [constructor|]. intros n Hn. by apply not_elem_of_nil in Hn. }
  apply Forall_cons in Hall as [Ho Hall]. destruct o as [n|]; simpl.
  2: { destruct (IH (i + 1) s Hall) as (lines & -> & Hl & Hn). exists lines.
       split; [done|]. split; [done|]. intros n [|Hin]%elem_of_cons; [done|by apply Hn]. }
  destruct Ho as ((base & Hg & Hb & Hl) & Hp & Hproto & Hhy & Hparse).
  destruct (String.eqb_spec (Node.RawURI n) "") as [E|_].
  { rewrite E in Hparse. by apply ParseURI_looks in Hparse. }
  destruct (claimUniqueName (Node.Name n) i s) as [x s1] eqn:Hx.
  apply claim_plain in Hx as [Hx Hne]; [|done].
  destruct (export_line_intro base _ x source n Hg Hb Hl Hx Hne Hproto Hhy Hparse) as (line & -> & Hline & Has).
  destruct (IH (i + 1) s1 Hall) as (lines & -> & Hls & Hn). exists (line :: lines). simpl.
  split; [done|]. split; [by constructor|].
  intros m [[= ->]|Hin]%elem_of_cons; [exists line; split; [by left|done]|].
  destruct (Hn m Hin) as (l' & ? & ?). exists l'. split; [by right|done].
Qed.

(** ** How the parser takes such a line *)

Definition mark_byte (c : ascii) : bool := in_cutset quotes c || one_of ",;)]" c.
Definition plain_end (c : ascii) : bool :=
  negb (mark_byte c) && (33 <=? byte_val c) && (byte_val c <? 127).

Lemma escaped_ends name : Forall (λ c, plain_end c = true) (explode (PathEscape name)).
Proof.
  unfold PathEscape, escape. rewrite explode_implode.
  induction (explode name) as [|c l IH]; simpl; [constructor|]. apply Forall_app. split; [|done].
  pose proof (escape_table (λ m c, negb (bool_decide (m = encodePathSegment)) || forallb plain_end (escape_byte m c))
    ltac:(by vm_compute) encodePathSegment c) as Hc.
  cbv beta in Hc. rewrite bool_decide_eq_true_2 in Hc by done. cbn [negb orb] in Hc.
  apply Forall_forall. intros d Hd%list_elem_of_In. rewrite forallb_forall in Hc. by apply Hc.
Qed.

(** A line ends as an escaped name does. *)
Lemma export_line_end line : export_line line →
  ∃ l d, explode line = l ++ [d] ∧ plain_end d = true.
Proof.
  intros (base & name & -> & Hne & _). rewrite explode_hash.
  assert (Hesc : explode (PathEscape name) ≠ []).
  { unfold PathEscape, escape. rewrite explode_implode. destruct name as [|c name]; [done|].
    change (explode (String c name)) with (c :: explode name). simpl. unfold escape_byte.
    destruct (shouldEscape c encodePathSegment); [|done]. by destruct (_ && _). }
  pose proof (escaped_ends name) as He.
  destruct (exists_last Hesc) as (l & d & E). rewrite E in *.
  apply Forall_app in He as [_ Hd%Forall_inv].
  exists (explode base ++ "#"%char :: l), d. split; [by rewrite <-app_assoc|done].
Qed.

(** It begins as a link does. *)
Definition bad_starts : list ascii := ["`"%char; "'"%char; quote_byte; "#"%char; "/"%char].
Lemma export_line_start line : export_line line →
  ∃ c r, line = String c r ∧ c ∉ bad_starts.
Proof.
  intros (_ & _ & _ & _ & Hg & Hl). destruct line as [|c r]; [done|].
  exists c, r. split; [done|]. intros Hc. unfold looksLikeURI in Hl.
  rewrite TrimSpace_graphic in Hl by done. unfold ToLower in Hl. rewrite graphic_ascii in Hl by done.
  cbn [string_map] in Hl.
  repeat (apply elem_of_cons in Hc as [->|Hc]; [by vm_compute in Hl|]). by apply not_elem_of_nil in Hc.
Qed.

Lemma Trim_ends cut s c r l d :
  explode s = c :: r → explode s = l ++ [d] → in_cutset cut c = false → in_cutset cut d = false →
  Trim s cut = s.
Proof.
  intros Hc Hd Ec Ed. unfold Trim, TrimRight, TrimLeft. rewrite Hc. cbn [drop_bytes]. rewrite Ec, <-Hc.
  rewrite explode_implode, Hd, rev_app_distr. cbn [rev app drop_bytes]. rewrite Ed. cbn [rev].
  by rewrite rev_involutive, <-Hd, implode_explode.
Qed.

Lemma trim_marks_end s l d : explode s = l ++ [d] → plain_end d = true → trim_marks s = s.
Proof.
  intros Hs Hd. unfold trim_marks. cbv zeta. rewrite Hs, trim_front_fixed.
  - by rewrite rev_involutive, <-Hs, implode_explode.
  - rewrite rev_app_distr. apply strip_any_None. intros p l' Hp Heq.
    assert (Hall : Forall (λ p : bytes, match p with e :: _ => plain_end e = false | [] => False end)
      (map (@rev ascii) (closing_marks ++ space_runes))).
    { unfold closing_marks, space_runes. cbn [app map rev]. repeat (apply Forall_cons_2; [by vm_compute|]). constructor. }
    rewrite Forall_forall in Hall. specialize (Hall p Hp). destruct p as [|e p]; [done|].
    cbn [rev app] in Heq. injection Heq as -> _. congruence.
Qed.

Lemma HasPrefix_head c p d r : c ≠ d → HasPrefix (String d r) (String c p) = false.
Proof. intros Hne. unfold HasPrefix. simpl. by destruct (ascii_dec c d). Qed.
Lemma export_line_read line : export_line line →
  clean_line line = line ∧ (Trim (TrimSpace line) quotes =? "")%string = false ∧
  expand_line line = [line].
Proof.
  intros Hline. destruct (export_line_start line Hline) as (c & r & Hc & Hbad).
  destruct (export_line_end line Hline) as (l & d & Hd & Hend).
  destruct Hline as (_ & _ & _ & _ & Hg & Hlooks).
  assert (Hq : in_cutset quotes d = false) by (unfold plain_end, mark_byte in Hend; by bsplit).
  assert (Hcq : in_cutset quotes c = false).
  { apply not_true_iff_false. intros Hin. apply Hbad.
    apply existsb_exists in Hin as (e & He%list_elem_of_In & ->%Ascii.eqb_eq).
    revert He. unfold bad_starts. simpl. set_solver. }
  assert (Ht : Trim line quotes = line).
  { eapply Trim_ends; [by rewrite Hc|exact Hd|done|done]. }
  unfold clean_line, expand_line. cbv zeta. rewrite TrimSpace_graphic, Ht by done.
  assert (Hne : (line =? "")%string = false) by by rewrite Hc.
  rewrite (trim_marks_end line l d), Hlooks by done. split; [done|]. split; [done|].
  assert (HasPrefix line "#" = false ∧ HasPrefix line "//" = false) as [-> ->].
  { rewrite Hc. split; apply HasPrefix_head; intros <-; apply Hbad; by apply (bool_decide_unpack _). }
  by rewrite Hne.
Qed.

(** The last loop finds every link of its lines. *)
Lemma parse_lines_finds source line n lines : ∀ seen,
  line ∉ seen →
  (∃ l, l ∈ lines ∧ clean_line l = line ∧ (Trim (TrimSpace l) quotes =? "")%string = false) →
  ParseURI line source = Ok n → n ∈ parse_lines source seen lines.
Proof.
  induction lines as [|l lines IH]; intros seen Hs (k & Hk & Hclean & Hne) Hn.
  { by apply not_elem_of_nil in Hk. }
  cbn [parse_lines]. destruct (decide (clean_line l = line ∧ (Trim (TrimSpace l) quotes =? "")%string = false))
    as [[Hl Hl']|Hno].
  - rewrite Hl', bool_decide_eq_false_2 by (by rewrite Hl). rewrite Hl, Hn. by left.
  - assert (Hrest : ∀ seen, line ∉ seen → n ∈ parse_lines source seen lines).
    { intros seen' Hs'. apply IH; [done| |done]. exists k. split; [|done].
      apply elem_of_cons in Hk as [->|Hk]; [|done]. by destruct Hno. }
    destruct (Trim (TrimSpace l) quotes =? "")%string eqn:El; [by apply Hrest|].
    case_bool_decide; [by apply Hrest|].
    assert (n ∈ parse_lines source ({[clean_line l]} ∪ seen) lines).
    { apply Hrest. rewrite elem_of_union, elem_of_singleton. intros [->|?]; [by apply Hno|done]. }
    destruct (ParseURI (clean_line l) source); [by right|done].
Qed.
End export.

(** ** The text *)

(** The lines with a newline between them *)
Fixpoint joined (l : bytes) (ls : list bytes) : bytes :=
  match ls with [] => l | l' :: ls => l ++ lf :: joined l' ls end.

Lemma joined_text l ls : mjoin ((λ l, l ++ [lf]) <$> (l :: ls)) = joined l ls ++ [lf].
Proof.
  revert l; induction ls as [|l' ls IH]; intros l; [cbn; by rewrite app_nil_r|].
  change (mjoin ((λ l, l ++ [lf]) <$> l :: l' :: ls)) with ((l ++ [lf]) ++ mjoin ((λ l, l ++ [lf]) <$> l' :: ls)).
  rewrite IH. cbn [joined]. by rewrite <-!app_assoc.
Qed.

Lemma joined_snoc l ls : joined l ls ++ [lf] = joined l (ls ++ [[]]).
Proof.
  revert l; induction ls as [|l' ls IH]; intros l; [done|]. cbn [joined app].
  by rewrite <-IH, <-app_assoc.
Qed.
Lemma split_joined l ls : Forall (λ l, lf ∉ l) (l :: ls) → split_on lf (joined l ls) = l :: ls.
Proof.
  revert l; induction ls as [|l' ls IH]; intros l [Hl Hls]%Forall_cons; simpl; [by apply split_on_plain|].
  rewrite split_on_app by done. by rewrite IH.
Qed.
Lemma unix_lines_id l : cr ∉ l → unix_lines l = l.
Proof.
  induction l as [|c l IH]; [done|]. intros [Hne Hl]%not_elem_of_cons. simpl.
  rewrite (proj2 (Ascii.eqb_neq c cr)) by done. by rewrite IH.
Qed.

(** Every byte of the text is a newline or graphic; it begins and ends with a
    graphic one. *)
Definition graphic_line (l : bytes) : Prop := l ≠ [] ∧ Forall graphic l.
Lemma graphic_no_break l : Forall graphic l → lf ∉ l ∧ cr ∉ l.
Proof.
  intros Hl. rewrite Forall_forall in Hl. split; intros Hin%Hl; unfold graphic in Hin.
  - change (byte_val lf) with 10 in Hin. lia.
  - change (byte_val cr) with 13 in Hin. lia.
Qed.
Lemma joined_no_cr l ls : Forall graphic_line (l :: ls) → cr ∉ joined l ls.
Proof.
  revert l; induction ls as [|l' ls IH]; intros l [[_ Hl] Hls]%Forall_cons; simpl.
  - by apply graphic_no_break.
  - rewrite not_elem_of_app, not_elem_of_cons. split; [by apply graphic_no_break|].
    split; [done|by apply IH].
Qed.
Lemma joined_ends l ls : Forall graphic_line (l :: ls) →
  (∃ c r, joined l ls = c :: r ∧ graphic c) ∧ ∃ x d, joined l ls = x ++ [d] ∧ graphic d.
Proof.
  intros Hall. split.
  - apply Forall_cons in Hall as [[Hne Hl] _]. destruct l as [|c l]; [done|].
    apply Forall_cons in Hl as [Hc _]. by destruct ls; eexists c, _.
  - revert l Hall; induction ls as [|l' ls IH]; intros l [[Hne Hl] Hls]%Forall_cons; simpl.
    + destruct (exists_last Hne) as (x & d & ->). exists x, d. split; [done|].
      apply Forall_app in Hl as [_ Hl]. by apply Forall_inv in Hl.
    + destruct (IH l' Hls) as (x & d & -> & Hd). exists (l ++ lf :: x), d. by rewrite <-app_assoc.
Qed.

(** Trimming takes the last newline. *)
Lemma TrimSpace_newline w :
  (∃ c r, w = c :: r ∧ graphic c) → (∃ x d, w = x ++ [d] ∧ graphic d) →
  TrimSpace (implode (w ++ [lf])) = implode w.
Proof.
  intros (c & r & Hc & Hgc) (x & d & Hd & Hgd). unfold TrimSpace. rewrite explode_implode. f_equal.
  pose proof space_rune_ends as He. rewrite Forall_forall in He.
  unfold trim_left_bytes. rewrite trim_front_fixed.
  2: { apply strip_any_None. intros p l' Hp Heq. specialize (He p Hp).
       destruct p as [|e p]; [done|]. destruct He as [He _]. rewrite Hc in Heq. cbn in Heq.
       injection Heq as -> _. done. }
  unfold trim_right_bytes. rewrite length_app, Nat.add_comm, rev_app_distr.
  cbn [rev app length Nat.add trim_front].
  change (strip_any (map (@rev ascii) space_runes) (lf :: rev w)) with (Some (rev w)). cbv iota.
  rewrite trim_front_fixed; [by rewrite rev_involutive|].
  apply strip_any_None. intros q l' Hq Heq. apply list_elem_of_fmap in Hq as (p & -> & Hp).
  specialize (He p Hp). destruct p as [|e p]; [done|]. destruct He as [_ He].
  destruct (last (e :: p)) as [g|] eqn:El; [|done]. apply last_Some in El as [l'' El].
  rewrite El, Hd, !rev_app_distr in Heq. cbn in Heq. injection Heq as -> _. done.
Qed.

(** ** Nothing is lost *)

Lemma HasPrefix_app a b p : HasPrefix a p = true → HasPrefix (a +:+ b) p = true.
Proof.
  unfold HasPrefix. revert a; induction p as [|c p IH]; intros a; [by destruct (a +:+ b)|].
  destruct a as [|d a]; [done|]. change (String d a +:+ b) with (String d (a +:+ b)). simpl.
  destruct (ascii_dec c d); [by apply IH|done].
Qed.

Section nothing_lost.
Context `{Unicode} `{Crypto} `{FmtAny} `{LinkJson} `{ClashCodec}.

Lemma looks_app a b :
  Forall graphic (explode a) → is_ascii (a +:+ b) = true → TrimSpace (a +:+ b) = a +:+ b →
  looksLikeURI a = true → looksLikeURI (a +:+ b) = true.
Proof.
  intros Hg Ha Ht. unfold looksLikeURI. rewrite (TrimSpace_graphic a), Ht by done. cbv zeta.
  unfold ToLower. rewrite Ha. rewrite is_ascii_app in Ha. apply andb_true_iff in Ha as [-> _].
  intros (p & Hp & Hpre)%existsb_exists. apply existsb_exists. exists p. split; [done|].
  rewrite string_map_append. by apply HasPrefix_app.
Qed.

Lemma parse_text_finds source l ls line n :
  Forall (λ l, lf ∉ l ∧ cr ∉ l) (l :: ls) → explode line ∈ l :: ls → export_line line →
  ParseURI line source = Ok n → n ∈ parse_text (implode (joined l ls)) source.
Proof.
  intros Hall Hin Hline Hn. destruct (export_line_read line Hline) as (Hclean & Hne & Hexp).
  apply (parse_lines_finds source line n); [set_solver| |done].
  exists line. split; [|done]. apply elem_of_app. left.
  unfold splitLines, Split. rewrite !explode_implode, unix_lines_id.
  - rewrite split_joined by (eapply Forall_impl; [exact Hall|by intros ? []]).
    apply list_elem_of_join.
    exists (expand_line line). split; [rewrite Hexp; by left|].
    apply list_elem_of_fmap. exists line. split; [done|].
    apply list_elem_of_In, in_map_iff. exists (explode line). split; [apply implode_explode|].
    by apply list_elem_of_In.
  - clear -Hall. revert l Hall; induction ls as [|l' ls IH]; intros l [[_ Hl] Hls]%Forall_cons; [done|].
    simpl. rewrite not_elem_of_app, not_elem_of_cons. split; [done|]. split; [done|by apply IH].
Qed.

(** ** base64 subscriptions *)

Lemma prefix_bytes s p c : HasPrefix s p = true → c ∈ explode p → c ∈ explode s.
Proof.
  unfold HasPrefix. revert s; induction p as [|d p IH]; intros s; [intros _ Hc; by apply not_elem_of_nil in Hc|].
  destruct s as [|e s]; [done|]. simpl. destruct (ascii_dec d e) as [<-|]; [|done].
  intros Hp [->|Hc]%elem_of_cons; [by left|]. right. by apply IH.
Qed.
Lemma contains_bytes s sub c : Contains s sub = true → c ∈ explode sub → c ∈ explode s.
Proof.
  unfold Contains. destruct (String.index 0 sub s) as [i|] eqn:Hi; [|done]. intros _.
  revert i Hi; induction s as [|d s IH]; intros i Hi Hc.
  - destruct sub; [done|]. simpl in Hi. by destruct i.
  - cbn [String.index] in Hi. destruct (String.prefix sub (String d s)) eqn:Hp; [by eapply prefix_bytes|].
    destruct (String.index 0 sub s) as [j|]; [|done]. right. by eapply IH.
Qed.

(** The bytes of the standard encoding, which are neither colons nor white
    space, in any case *)
Lemma std_bytes l : Forall (λ c, b64_text_byte c = true) (encode_bytes StdEncoding l).
Proof.
  assert (Hc : ∀ n, 0 ≤ n < 64 → b64_text_byte (enc_char StdEncoding n) = true).
  { intros n Hn. pose proof (enc_table (λ e n, url_alphabet e || b64_text_byte (enc_char e n))
      ltac:(by vm_compute) StdEncoding n Hn) as He. done. }
  assert (Hl : ∀ l, Forall (λ n, 0 ≤ n < 64) l → Forall (λ c, b64_text_byte c = true) (enc_char StdEncoding <$> l)).
  { induction 1; constructor; auto. }
  induction l as [|a|a b|a b c l IH] using bytes_ind3; [constructor| | |]; cbn [encode_bytes];
    apply Forall_app; (split; [apply Hl|try apply IH; try by apply (bool_decide_unpack _)]);
    byte_ranges; unfold group1, group2, group3; repeat constructor; euclid.
Qed.
Lemma std_length l :
  Z.of_nat (length (encode_bytes StdEncoding l)) mod 4 = 0 ∧
  4 * Z.of_nat (length l) ≤ 3 * Z.of_nat (length (encode_bytes StdEncoding l)).
Proof.
  induction l as [|a|a b|a b c l IH] using bytes_ind3; [done|done|done|].
  cbn [encode_bytes group3 fmap list_fmap app length]. destruct IH as [IH1 IH2].
  split; [|lia]. rewrite !Nat2Z.inj_succ. euclid.
Qed.
Lemma text_byte_facts c : b64_text_byte c = true →
  graphic c ∧ lower_byte c ≠ ":"%char ∧ c ≠ ":"%char ∧ space_rune (Some [c]) = false.
Proof.
  intros Hc. pose proof (ascii_forall (λ c, negb (b64_text_byte c) || (33 <=? byte_val c) && (byte_val c <? 127)
    && negb (Ascii.eqb (lower_byte c) ":") && negb (Ascii.eqb c ":") && negb (space_rune (Some [c])))
    ltac:(by vm_compute) c) as H0'. cbv beta in H0'. rewrite Hc in H0'. cbn [negb orb] in H0'. bsplit.
  split_and!; [split; lia| | |done]; by apply Ascii.eqb_neq.
Qed.

Section encoded.
Context (s : string).
Let enc := EncodeToString StdEncoding s.

Lemma enc_bytes : Forall (λ c, b64_text_byte c = true) (explode enc).
Proof. unfold enc, EncodeToString. rewrite explode_implode. apply std_bytes. Qed.
Lemma enc_graphic : Forall graphic (explode enc).
Proof. eapply Forall_impl; [apply enc_bytes|]. by intros c []%text_byte_facts. Qed.
Lemma enc_no_colon : ":"%char ∉ explode enc.
Proof.
  pose proof enc_bytes as Hb. rewrite Forall_forall in Hb. by intros []%Hb%text_byte_facts; destruct_and?.
Qed.
Lemma explode_map f t : explode (string_map f t) = f <$> explode t.
Proof. induction t as [|c t IH]; [done|]. cbn. f_equal. exact IH. Qed.
Lemma lower_no_colon t : (∀ c, c ∈ explode t → c ∈ explode enc) → ":"%char ∉ explode (ToLower t).
Proof.
  intros Hsub Hc. pose proof enc_bytes as Hb. rewrite Forall_forall in Hb.
  unfold ToLower in Hc. assert (is_ascii t = true) as Ha.
  { apply graphic_ascii. apply Forall_forall. intros c Hin%Hsub%Hb. by apply text_byte_facts in Hin as []. }
  rewrite Ha, explode_map in Hc. apply list_elem_of_fmap in Hc as (d & Hd & Hin%Hsub%Hb).
  by apply text_byte_facts in Hin as (_ & ? & _).
Qed.

(** It looks neither like a link nor like a Clash document. *)
Lemma enc_not_link : looksLikeURI enc = false.
Proof.
  apply not_true_iff_false. unfold looksLikeURI. rewrite TrimSpace_graphic by apply enc_graphic.
  intros (p & Hp & Hpre)%existsb_exists. apply (lower_no_colon enc); [done|].
  eapply prefix_bytes; [exact Hpre|]. revert Hp. unfold link_schemes. cbn [In].
  intros Hp. repeat (destruct Hp as [<-|Hp]; [by apply (bool_decide_unpack _)|]). done.
Qed.
Lemma slice_bytes t n c : c ∈ explode (slice_to t n) → c ∈ explode t.
Proof.
  unfold slice_to. generalize (Z.to_nat n) as k. induction t as [|d t IH]; intros [|k]; cbn; try done.
  - intros Hc. by apply not_elem_of_nil in Hc.
  - intros [->|Hc]%elem_of_cons; [by left|]. right. by eapply IH.
Qed.
Lemma enc_not_clash : looksLikeClash enc = false.
Proof.
  assert (Hno : ∀ sub, ":"%char ∈ explode sub →
    Contains (ToLower (if 4096 <? slen enc then slice_to enc 4096 else enc)) sub = false).
  { intros sub Hsub. apply not_true_iff_false. intros Hc%(contains_bytes _ _ ":"); [|done].
    revert Hc. apply lower_no_colon. intros c. case_if; [apply slice_bytes|done]. }
  unfold looksLikeClash. cbv zeta. rewrite !Hno by (by apply (bool_decide_unpack _)).
  by rewrite andb_false_r.
Qed.

(** A whole subscription in base64 is decoded. *)
Lemma tryDecode_std : 10 ≤ slen s → isMostlyPrintable s = true → tryDecodeBase64 enc = Some s.
Proof.
  intros Hlen Hprint. unfold tryDecodeBase64. rewrite (TrimSpace_graphic enc) by apply enc_graphic.
  cbv zeta. rewrite enc_not_link.
  assert (Hcompact : map_drop space_rune enc = enc).
  { unfold map_drop, of_runes. rewrite runes_ascii by (apply graphic_ascii, enc_graphic).
    rewrite filter_all.
    - apply explode_inj. rewrite explode_implode. induction (explode enc) as [|c l IH]; [done|].
      cbn. f_equal. exact IH.
    - apply Forall_fmap. eapply Forall_impl; [apply enc_bytes|]. intros c Hc.
      apply text_byte_facts in Hc as (_ & _ & _ & Hc). change (negb (space_rune (Some [c])) = true). by rewrite Hc. }
  rewrite Hcompact.
  destruct (std_length (explode s)) as [Hmod Hle].
  assert (Hslen : slen enc = Z.of_nat (length (encode_bytes StdEncoding (explode s)))).
  { unfold slen, enc, EncodeToString. by rewrite <-length_explode, explode_implode. }
  unfold slen in Hlen. rewrite length_explode in Hle.
  assert ((enc =? "")%string = false) as ->.
  { apply String.eqb_neq. intros E. rewrite E in Hslen. change (slen "") with 0 in Hslen. lia. }
  rewrite (proj2 (Z.ltb_ge _ _)) by (rewrite Hslen; euclid).
  assert (forallb b64_text_byte (explode enc) = true) as ->.
  { apply forallb_forall. intros c Hc%list_elem_of_In. pose proof enc_bytes as Hb.
    rewrite Forall_forall in Hb. by apply Hb. }
  unfold pad4. rewrite Hslen, Hmod. cbn [Z.eqb orb negb]. unfold all_encodings. cbn [decode_first].
  unfold enc. by rewrite DecodeString_EncodeToString, Hprint.
Qed.
End encoded.
End nothing_lost.

Section subscription.
Context `{Unicode} `{Crypto} `{FmtAny} `{LinkJson} `{ClashCodec}.
Context (line0 : string) (lines : list string) (Hlines : Forall export_line (line0 :: lines)).
Let l0 := explode line0.
Let ls := explode <$> lines.
Let text := implode (joined l0 ls ++ [lf]).

Lemma subscription_lines : Forall graphic_line (l0 :: ls).
Proof.
  change (l0 :: ls) with (explode <$> (line0 :: lines)). apply Forall_fmap.
  eapply Forall_impl; [exact Hlines|]. intros line Hline. split.
  - destruct (export_line_end line Hline) as (l & d & -> & _). by destruct l.
  - by destruct Hline as (? & ? & _ & _ & ? & _).
Qed.

Lemma text_trim : TrimSpace text = implode (joined l0 ls).
Proof. destruct (joined_ends _ _ subscription_lines). by apply TrimSpace_newline. Qed.

(** Its bytes are printable. *)
Lemma text_bytes : Forall (λ c, graphic c ∨ c = lf) (explode text).
Proof.
  unfold text. rewrite explode_implode. apply Forall_app. split; [|repeat constructor; by right].
  pose proof subscription_lines as Hl. clearbody l0 ls. revert Hl. generalize l0 as l. clear.
  induction ls as [|l' ls' IH]; intros l [[_ Hl] Hls]%Forall_cons.
  - eapply Forall_impl; [exact Hl|]. by left.
  - cbn [joined]. apply Forall_app. split; [eapply Forall_impl; [exact Hl|by left]|].
    apply Forall_cons_2; [by right|by apply IH].
Qed.
Lemma printable_ascii s : Forall (λ c, graphic c ∨ c = lf) (explode s) → is_ascii s = true.
Proof.
  induction s as [|c s IH]; [done|]. intros [Hc Hs]%Forall_cons. cbn. rewrite IH by done.
  destruct Hc as [Hc| ->]; [|done]. unfold graphic in Hc. lia.
Qed.
Lemma text_printable : isMostlyPrintable text = true.
Proof.
  assert (Hne : text ≠ "").
  { intros E. apply (f_equal explode) in E. unfold text in E. rewrite explode_implode in E.
    by destruct (joined l0 ls). }
  unfold isMostlyPrintable. rewrite (proj2 (String.eqb_neq _ _)) by done.
  rewrite runes_ascii by apply printable_ascii, text_bytes.
  rewrite (filter_none bad_rune).
  - apply Z.ltb_lt. unfold slen. cbn [length Z.of_nat Z.mul]. destruct text; [done|]. cbn [String.length]. lia.
  - intros r (c & -> & Hc)%list_elem_of_fmap. pose proof text_bytes as Hb. rewrite Forall_forall in Hb.
    destruct (Hb c Hc) as [Hg| ->]; [|done]. unfold graphic in Hg. cbv zeta beta iota delta [bad_rune]. lia.
Qed.

Lemma text_finds line n source tail :
  line ∈ line0 :: lines → ParseURI line source = Ok n → tail = [] ∨ tail = [lf] →
  n ∈ parse_text (implode (joined l0 ls ++ tail)) source.
Proof.
  intros Hin Hn Htail. assert (Hline : export_line line).
  { rewrite Forall_forall in Hlines. by apply Hlines. }
  assert (Hbreaks : Forall (λ l, lf ∉ l ∧ cr ∉ l) (l0 :: ls)).
  { eapply Forall_impl; [apply subscription_lines|]. intros l []. by apply graphic_no_break. }
  assert (Hin' : explode line ∈ l0 :: ls).
  { change (l0 :: ls) with (explode <$> (line0 :: lines)). by apply list_elem_of_fmap_2. }
  destruct Htail as [-> | ->].
  - rewrite app_nil_r. by eapply parse_text_finds.
  - rewrite joined_snoc.
    eapply (parse_text_finds source _ _ line); [|set_solver|done|done].
    apply Forall_cons in Hbreaks as [? ?]. constructor; [done|]. apply Forall_app. split; [done|].
    repeat constructor; apply not_elem_of_nil.
Qed.

Lemma text_looks : looksLikeURI (implode (joined l0 ls)) = true.
Proof.
  assert (∃ b, implode (joined l0 ls) = line0 +:+ b) as [b E].
  { unfold l0. destruct ls as [|l' ls']; cbn [joined].
    - exists "". apply explode_inj. by rewrite explode_app, explode_implode, app_nil_r.
    - exists (implode (lf :: joined l' ls')). apply explode_inj. by rewrite explode_app, !explode_implode. }
  pose proof (Forall_inv Hlines) as (_ & _ & _ & _ & Hg & Hl).
  rewrite E. apply looks_app; [done| | |done].
  - rewrite <-E, <-text_trim. apply printable_ascii. rewrite text_trim, explode_implode.
    pose proof text_bytes as Hb. unfold text in Hb. rewrite explode_implode in Hb. by apply Forall_app in Hb as [? _].
  - rewrite <-E, <-text_trim. by rewrite TrimSpace_idemp.
Qed.

Lemma clash_nodes_none t source : looksLikeClash t = false → clash_nodes t source = [].
Proof. unfold clash_nodes. by intros ->. Qed.

Lemma ParseContent_plain source :
  looksLikeClash (TrimSpace text) = false → ParseContent text source = parse_text (TrimSpace text) source.
Proof.
  intros Hc. unfold ParseContent. cbv zeta. rewrite clash_nodes_none by done.
  assert (tryDecodeBase64 (TrimSpace text) = None) as ->.
  { unfold tryDecodeBase64. rewrite TrimSpace_idemp, text_trim, text_looks. cbv zeta.
    by rewrite orb_true_r. }
  destruct (String.eqb_spec (TrimSpace text) "") as [E|_]; [|done].
  exfalso. pose proof text_looks as Hl. rewrite <-text_trim, E in Hl. done.
Qed.
Lemma ParseContent_std source :
  looksLikeClash text = false → 10 ≤ slen text →
  ParseContent (EncodeToString StdEncoding text) source = parse_text text source.
Proof.
  intros Hc Hlen. unfold ParseContent. cbv zeta.
  rewrite TrimSpace_graphic by apply enc_graphic.
  rewrite clash_nodes_none by apply enc_not_clash.
  rewrite tryDecode_std, clash_nodes_none by (done || apply text_printable).
  destruct (String.eqb_spec (EncodeToString StdEncoding text) "") as [E|_]; [|done].
  exfalso. pose proof (tryDecode_std text Hlen text_printable) as Hd. by rewrite E in Hd.
Qed.
End subscription.

