(* ===== verification/ClashProofs.v ===== *)
(** * An exported proxy, read back

    What [BuildClashProxy] writes, [clashMapToNode] reads: the protocol, the
    address, the name and the credentials survive an export and an import. *)
From S2P Require Import Prelude GoStr GoFloat GoTime Model Base64 Ratelimit NetAddr.
From S2P Require Import NetUrl Links Clash Exporter ExportProofs.

(** ** What reading a proxy leaves alone *)

(** The fields of a node that only [clash_base] sets *)
Definition core (n : node) : string * string * Z * string * string * string :=
  (Node.Name n, Node.Server n, Node.Port n, Node.UUID n, Node.Password n, Node.Method n).

Section core.
Context `{Unicode} `{Crypto} `{ClashCodec}.

Lemma core_extra k v n : core (set_extra k v n) = core n.
Proof. done. Qed.
Lemma core_extra_if k v n : core (set_extra_if k v n) = core n.
Proof. unfold set_extra_if. by destruct (nonempty v). Qed.
Lemma core_extra_json k o n : core (set_extra_json k o n) = core n.
Proof. unfold set_extra_json. by destruct (o ≫= json_object). Qed.
Lemma core_extras l n : core (set_extras l n) = core n.
Proof. unfold set_extras. revert n; induction l as [|kv l IH]; intros n; simpl; [done|by rewrite IH]. Qed.
Lemma core_host_from o n : core (set_host_from o n) = core n.
Proof. unfold set_host_from. by destruct (asMap _). Qed.

#[local] Hint Rewrite core_extra core_extra_if core_extra_json core_extras core_host_from : core.
Ltac core := repeat (autorewrite with core; try done;
  match goal with
  | |- context [if ?b then _ else _] => destruct b
  | |- context [match ?b with Some _ => _ | None => _ end] => destruct b
  end); autorewrite with core; try done.

Lemma core_common m n : core (clash_common m n) = core n.
Proof. unfold clash_common. cbv zeta. core. Qed.
Lemma core_security m n : core (clash_security m n) = core n.
Proof. unfold clash_security. core. Qed.
Lemma core_tls_opts m n : core (clash_tls_opts m n) = core n.
Proof.
  unfold clash_tls_opts. generalize tls_option_keys as l. intros l. revert n.
  induction l as [|k l IH]; intros n; simpl; [done|]. by rewrite IH, core_extra_json.
Qed.
Lemma core_fields network m n : core (transport_fields network m n) = core n.
Proof.
  unfold transport_fields, with_opts, ws_transport, grpc_transport, http_transport, h2_transport,
    upgrade_transport, xhttp_transport. cbv zeta. core.
Qed.
Lemma core_default_path m n : core (default_path m n) = core n.
Proof. unfold default_path. core. Qed.
Lemma core_default_host m n : core (default_host m n) = core n.
Proof. unfold default_host. core. Qed.
Lemma core_transport m n : core (applyClashTransport m n) = core n.
Proof.
  unfold applyClashTransport. cbv zeta.
  by rewrite core_default_host, core_default_path, core_fields, core_extra_json.
Qed.

(** The type of a proxy decides the protocol, and nothing of the core. *)
Lemma core_clash_fields typ m n n' : clash_fields typ m n = Some n' → core n' = core n.
Proof.
  unfold clash_fields, clash_ss, clash_ssr, clash_hysteria2, clash_tuic. cbv zeta. intros Hn.
  repeat case_if_in Hn; try done; injection Hn as <-; core.
Qed.
End core.

(** ** The round trip *)

Section roundtrip.
Context `{Unicode} `{Crypto} `{LinkJson} `{ClashCodec}.

Lemma set_extras_lookup l n k v :
  NoDup l.*1 → (k, v) ∈ l → Node.Extra (set_extras l n) !! k = Some v.
Proof.
  unfold set_extras. revert n. induction l as [|[j w] l IH]; intros n Hn Hin; [by apply not_elem_of_nil in Hin|].
  simpl in Hn. apply NoDup_cons in Hn as [Hj Hn]. simpl.
  apply elem_of_cons in Hin as [[= -> ->]|Hin]; [|by apply IH].
  clear IH Hn. assert (Hkeep : ∀ l m, j ∉ l.*1 → Node.Extra (fold_left (λ n (kv : string * string), set_extra kv.1 kv.2 n) l m) !! j = Node.Extra m !! j).
  { clear. induction l as [|[i u] l IH]; intros m Hj; simpl; [done|].
    simpl in Hj. apply not_elem_of_cons in Hj as [Hne Hj]. rewrite IH by done.
    by apply lookup_insert_ne. }
  rewrite Hkeep by done. apply lookup_insert_eq.
Qed.
Lemma set_extras_protocol l n : Node.Protocol (set_extras l n) = Node.Protocol n.
Proof. unfold set_extras. revert n. induction l as [|kv l IH]; intros n; simpl; [done|by rewrite IH]. Qed.
Lemma set_extra_json_protocol k o n : Node.Protocol (set_extra_json k o n) = Node.Protocol n.
Proof. unfold set_extra_json. by destruct (o ≫= json_object). Qed.

Lemma extra_finished n raw k :
  extra_get (fingerprinted (n <| Node.RawURI := raw |>)) k = extra_get n k.
Proof. done. Qed.
Lemma tuic_token m n : extra_get (clash_tuic m n) "token" = asString (at_key m "token").
Proof.
  unfold extra_get, clash_tuic. rewrite (set_extras_lookup _ _ "token" (asString (at_key m "token"))).
  - done.
  - apply (bool_decide_unpack _). reflexivity.
  - by left.
Qed.

(** Each exported protocol is one that is read. *)
Lemma clash_fields_exported proto m n :
  proto ∈ exported_protocols →
  ∃ n', clash_fields (ToLower proto) m n = Some n' ∧ Node.Protocol n' = proto.
Proof.
  intros Hp. unfold clash_fields, clash_ss, clash_ssr, clash_hysteria2, clash_tuic. cbv zeta.
  repeat (apply elem_of_cons in Hp as [->|Hp]); [..|by apply not_elem_of_nil in Hp].
  all: eexists; split; [reflexivity|]; try reflexivity.
  all: rewrite ?set_extra_json_protocol, ?set_extras_protocol; try done.
  destruct (nonempty _); by rewrite ?set_extra_json_protocol.
Qed.

Lemma core_inv n n' : core n = core n' →
  Node.Name n = Node.Name n' ∧ Node.Server n = Node.Server n' ∧ Node.Port n = Node.Port n' ∧
  Node.UUID n = Node.UUID n' ∧ Node.Password n = Node.Password n' ∧ Node.Method n = Node.Method n'.
Proof. by intros [= -> -> -> -> -> ->]. Qed.

Lemma at_key_str (p : amap) k v : p !! k = Some (AStr v) → asString (at_key p k) = v.
Proof. unfold at_key. by intros ->. Qed.
Lemma firstStr_head (p : amap) k ks v :
  p !! k = Some (AStr v) → v ≠ "" → firstStr p (k :: ks) = v.
Proof.
  intros Hk Hv. unfold firstStr. cbn. rewrite (at_key_str p k v) by done.
  unfold nonempty. by rewrite (proj2 (String.eqb_neq _ _)).
Qed.
Lemma nonempty_ne s : s ≠ "" → nonempty s = true.
Proof. unfold nonempty. intros Hs. by rewrite (proj2 (String.eqb_neq _ _)). Qed.

(** The fields of the base, from the keys of the proxy *)
Lemma base_name p source v : p !! "name" = Some (AStr v) → Node.Name (clash_base p source) = v.
Proof. apply at_key_str. Qed.
Lemma base_server p source v : p !! "server" = Some (AStr v) → Node.Server (clash_base p source) = v.
Proof. apply at_key_str. Qed.
Lemma base_port p source z : p !! "port" = Some (AInt z) → Node.Port (clash_base p source) = z.
Proof. intros Hp. change (asInt (at_key p "port") = z). unfold at_key. by rewrite Hp. Qed.
Lemma base_uuid p source v : p !! "uuid" = Some (AStr v) ∧ v ≠ "" → Node.UUID (clash_base p source) = v.
Proof. intros [Hp _]. by apply at_key_str. Qed.
Lemma base_password p source v :
  p !! "password" = Some (AStr v) ∧ v ≠ "" → Node.Password (clash_base p source) = v.
Proof. intros []. by apply firstStr_head. Qed.
Lemma base_method p source v :
  p !! "cipher" = Some (AStr v) ∧ v ≠ "" → Node.Method (clash_base p source) = v.
Proof. intros []. by apply firstStr_head. Qed.

Lemma valid_node n : IsValid n = true → Node.Server n ≠ "" ∧ 0 < Node.Port n.
Proof.
  unfold IsValid. intros Hv. case_if_in Hv; [done|]. case_if_in Hv; [done|]. bsplit.
  split; [|lia]. by intros E1; rewrite E1 in *.
Qed.

(** A proxy with a type that is known, a server and a port is read. *)
Lemma clashMapToNode_reads p source proto server port name :
  proto ∈ exported_protocols → server ≠ "" → 0 < port → name ≠ "" →
  p !! "type" = Some (AStr proto) → p !! "server" = Some (AStr server) →
  p !! "port" = Some (AInt port) → p !! "name" = Some (AStr name) →
  ∃ n' : node, clashMapToNode p source = Some n' ∧ Node.Protocol n' = proto ∧
    core n' = core (clash_base p source) ∧
    (proto = ProtoTUIC → extra_get n' "token" = asString (at_key p "token")).
Proof.
  intros Hproto Hs Hpt Hn Ht Hserver Hport Hname. unfold clashMapToNode. cbv zeta.
  rewrite (at_key_str p "type" proto), (at_key_str p "server" server) by done.
  assert (asInt (at_key p "port") = port) as -> by (unfold at_key; by rewrite Hport).
  rewrite nonempty_ne, (proj2 (Z.leb_gt _ _)) by done. cbn [negb orb].
  set (n0 := applyClashTransport _ _).
  destruct (clash_fields_exported proto p n0 Hproto) as (n1 & Hn1 & Hp1). rewrite Hn1.
  assert (Hcore : core n1 = core (clash_base p source)).
  { rewrite (core_clash_fields _ _ _ _ Hn1). unfold n0.
    by rewrite core_transport, core_tls_opts, core_security, core_common. }
  assert (clash_named n1 = n1) as ->.
  { unfold clash_named. apply core_inv in Hcore as [-> _]. cbn [Node.Name clash_base].
    change (Node.Name (clash_base p source)) with (asString (at_key p "name")).
    by rewrite (at_key_str p "name" name), nonempty_ne. }
  eexists. split; [done|]. split; [done|]. split; [done|].
  intros ->. assert (clash_fields (ToLower ProtoTUIC) p n0 = Some (clash_tuic p n0)) as Htuic
    by reflexivity.
  rewrite Hn1 in Htuic. injection Htuic as ->. by rewrite extra_finished, tuic_token.
Qed.
End roundtrip.

(** C17: A node that is exported as a Clash proxy is read back with its
    protocol, its address, the name it was exported under and the credentials
    of its protocol.  Only the cipher of a vmess node without one changes, to
    the default [auto]. *)
Theorem clash_roundtrip `{Unicode} `{Crypto} `{LinkJson} `{ClashCodec} n name p source :
  BuildClashProxy (Some n) name = Ok p → TrimSpace name ≠ "" →
  ∃ n', clashMapToNode p source = Some n' ∧
    Node.Protocol n' = Node.Protocol n ∧ Node.Server n' = Node.Server n ∧
    Node.Port n' = Node.Port n ∧ Node.Name n' = name ∧
    let proto := Node.Protocol n in
    (proto ∈ [ProtoVMess; ProtoVLESS] → Node.UUID n' = Node.UUID n) ∧
    (proto ∈ [ProtoTrojan; ProtoSS; ProtoSSR; ProtoHysteria2] → Node.Password n' = Node.Password n) ∧
    (proto ∈ [ProtoSS; ProtoSSR] → Node.Method n' = Node.Method n) ∧
    (proto = ProtoVMess → Node.Method n' = first (Node.Method n) "auto") ∧
    (proto = ProtoTUIC → extra_get n "token" ≠ "" → extra_get n' "token" = extra_get n "token") ∧
    (proto = ProtoTUIC → extra_get n "token" = "" →
       Node.UUID n' = Node.UUID n ∧ Node.Password n' = Node.Password n).
Proof.
  intros Hb Hname. pose proof (BuildClashProxy_name _ _ _ Hb Hname) as Hn.
  apply BuildClashProxy_core in Hb as (Hv & Hproto & _ & Hs & Hpt & Ht & Hc).
  apply valid_node in Hv as [Hs' Hp'].
  assert (Hne : name ≠ "") by (by intros ->).
  destruct (clashMapToNode_reads p source _ _ _ _ Hproto Hs' Hp' Hne Ht Hs Hpt Hn)
    as (n' & Hn' & Hproto' & Hcore & Htok).
  exists n'. split; [done|]. split; [done|].
  apply core_inv in Hcore as (-> & -> & -> & -> & -> & ->).
  destruct Hc as (C1 & C2 & C3 & C4 & C5 & C6 & C7).
  rewrite (base_server _ _ _ Hs), (base_port _ _ _ Hpt), (base_name _ _ _ Hn). cbv zeta.
  split_and!; [done..| | | | | |].
  - intros Hp. apply base_uuid. set_solver.
  - intros Hp. apply base_password. set_solver.
  - intros Hp. apply base_method. set_solver.
  - intros Hp. apply base_method. naive_solver.
  - intros Hp Ht'. rewrite Htok by done. destruct (C7 Hp) as [[Hk _]|[? _]]; [by apply at_key_str|done].
  - intros Hp Ht'. destruct (C7 Hp) as [[_ ?]|(_ & Hu & Hpw)]; [done|].
    split; [by apply base_uuid|by apply base_password].
Qed.
