(* ===== verification/Publish.v ===== *)
(** * The published subscription: [internal/publish/cache.go]

    What the cache renders of the selected nodes, for all countries and for
    each, and how it writes and reads its files.  The directory is a map from
    file names to contents; its creation and its permissions are not
    modelled.

    ** What the published subscription promises

    An update renders every node, and the largest countries on their own; a
    crash leaves each file old or new, and what is read back is consistent. *)
From S2P Require Import Prelude GoStr GoFloat GoTime Model Base64 Ratelimit NetAddr NetUrl Links.
From S2P Require Import Clash Exporter.

(** [Blob] *)
Module Blob.
Record t := mk {
  Raw : string;
  Base64 : string;
  Clash : string;
  Count : Z;
  ByCountry : gmap string Z;
  ETag : string;
  UpdatedAt : string;
  Policy : string;
  CountryRaw : gmap string string;
  CountryBase64 : gmap string string;
  CountryClash : gmap string string;
  CountryCount : gmap string Z;
}.
#[export] Instance eta : Eta t := λ b, mk (Raw b) (Base64 b) (Clash b) (Count b) (ByCountry b) (ETag b)
  (UpdatedAt b) (Policy b) (CountryRaw b) (CountryBase64 b) (CountryClash b) (CountryCount b).
End Blob.
Export (hints) Blob.
Abbreviation blob := Blob.t.

(** The order in which a [range] over the counters visits them *)
Class CountRange := {
  range_counts : gmap string Z → list (string * Z);
  range_counts_perm m : range_counts m ≡ₚ map_to_list m;
}.

(** The text of [sub.meta.json]: the verb %q of [fmt], and [encoding/json] *)
Module Meta.
Record t := mk { Count : Z; ETag : string; UpdatedAt : string; Policy : string }.
End Meta.
Class MetaCodec := {
  fmt_q : string → string;
  meta_unmarshal : string → option Meta.t;
}.

(** [etagOf] *)
Definition double_quote : string := String (byte_of 34) "".
Definition etagOf `{Crypto} (s : string) : string :=
  double_quote +:+ hex_encode (implode (take 8 (explode (sha256_sum s)))) +:+ double_quote.

(** ** Rendering: the first part of [Update] *)

(** The key a node is counted under *)
Definition country_key (n : node) : string :=
  let cc := Node.Country n in
  let cc := if (cc =? "")%string then "XX" else cc in
  if (cc =? "UK")%string then "GB" else cc.

(** The loop over the nodes, with both maps; a nil node panics. *)
Definition count_country (cc : string) (m : gmap string Z) : gmap string Z :=
  <[cc := default 0 (m !! cc) + 1]> m.
Definition group_country (cc : string) (n : node) (g : gmap string (list node)) : gmap string (list node) :=
  <[cc := default [] (g !! cc) ++ [n]]> g.
Fixpoint group_nodes (m : gmap string Z) (g : gmap string (list node)) (nodes : list (option node))
    : result (gmap string Z * gmap string (list node)) :=
  match nodes with
  | [] => Ok (m, g)
  | Some n :: nodes => group_nodes (count_country (country_key n) m) (group_country (country_key n) n g) nodes
  | None :: _ => Err (ErrPanic "invalid memory address or nil pointer dereference")
  end.

(** The two nested loops: each position takes the greatest count of the rest,
    the counts passed on the way moving one place down. *)
Fixpoint sort_pass (x : string * Z) (l : list (string * Z)) : (string * Z) * list (string * Z) :=
  match l with
  | [] => (x, [])
  | y :: l =>
      if x.2 <? y.2 then let '(m, l) := sort_pass y l in (m, x :: l)
      else let '(m, l) := sort_pass x l in (m, y :: l)
  end.
Fixpoint exchange_sort (fuel : nat) (l : list (string * Z)) : list (string * Z) :=
  match fuel, l with
  | S fuel, x :: l => let '(m, l) := sort_pass x l in m :: exchange_sort fuel l
  | _, _ => []
  end.

Definition known_country (kv : string * Z) : bool := negb (kv.1 =? "XX")%string.

Section update.
Context `{Unicode} `{Crypto} `{LinkJson} `{ClashCodec} `{TzData} `{CountRange}.

(** The countries with variants of their own *)
Definition variants (byCountry : gmap string Z) (maxCountryVariants : Z) : list (string * Z) :=
  let sorted := List.filter known_country (range_counts byCountry) in
  take (Z.to_nat maxCountryVariants) (exchange_sort (length sorted) sorted).

Fixpoint render_variants (groups : gmap string (list node)) (vs : list (string * Z)) (b : blob) : result blob :=
  match vs with
  | [] => Ok b
  | it :: vs =>
      let ns := default [] (groups !! it.1) in
      let! raw := RenderRaw (Some <$> ns) in
      let! b64 := RenderBase64 (Some <$> ns) in
      render_variants groups vs (b
        <| Blob.CountryRaw := <[it.1 := raw]> (Blob.CountryRaw b) |>
        <| Blob.CountryBase64 := <[it.1 := b64]> (Blob.CountryBase64 b) |>
        <| Blob.CountryClash := <[it.1 := RenderClash (Some <$> ns)]> (Blob.CountryClash b) |>
        <| Blob.CountryCount := <[it.1 := Z.of_nat (length ns)]> (Blob.CountryCount b) |>)
  end.

Definition render_blob (nodes : list (option node)) (maxCountryVariants : Z) (policy : string) (now : Time) : result blob :=
  let maxCountryVariants := if maxCountryVariants <=? 0 then 30 else maxCountryVariants in
  let! (byCountry, groups) := group_nodes ∅ ∅ nodes in
  let! raw := RenderRaw nodes in
  let! b64 := RenderBase64 nodes in
  let clash := RenderClash nodes in
  render_variants groups (variants byCountry maxCountryVariants)
    (Blob.mk raw b64 clash (Z.of_nat (length nodes)) byCountry (etagOf (raw +:+ b64 +:+ clash))
      (FormatRFC3339 now) policy ∅ ∅ ∅ ∅).

(** ** Reading: [Format], [Fresh], [MatchesPolicy], [Age] *)

Definition normalizeCC (c : string) : string :=
  let c := ToUpper (TrimSpace c) in if (c =? "UK")%string then "GB" else c.

(** The three formats *)
Inductive format := FRaw | FBase64 | FClash.
Definition parse_format (f : string) : option format :=
  if bool_decide (f ∈ ["raw"; "txt"]) then Some FRaw
  else if bool_decide (f ∈ ["base64"; "b64"; "sub"]) then Some FBase64
  else if bool_decide (f ∈ ["clash"; "yaml"]) then Some FClash
  else None.
Definition body_of (b : blob) (f : format) : string :=
  match f with FRaw => Blob.Raw b | FBase64 => Blob.Base64 b | FClash => Blob.Clash b end.
Definition country_bodies (b : blob) (f : format) : gmap string string :=
  match f with FRaw => Blob.CountryRaw b | FBase64 => Blob.CountryBase64 b | FClash => Blob.CountryClash b end.

(** The body and the count, when there is one *)
Definition Format (b : option blob) (format country : string) : option (string * Z) :=
  b ← b;
  let country := normalizeCC country in
  f ← parse_format format;
  if negb (country =? "")%string then
    (λ body, (body, default 0 (Blob.CountryCount b !! country))) <$> country_bodies b f !! country
  else Some (body_of b f, Blob.Count b).

Definition Fresh `{LenientParse} (b : option blob) (maxAge : Duration) (now : Time) : bool :=
  match b with
  | Some b =>
      if (Blob.UpdatedAt b =? "")%string || (maxAge <=? 0) then false
      else match ParseRFC3339 (Blob.UpdatedAt b) with
           | Some updated => (- (5 * Minute) <=? now - updated) && (now - updated <=? maxAge)
           | None => false
           end
  | None => false
  end.
Definition MatchesPolicy (b : option blob) (policy : string) : bool :=
  match b with
  | Some b => negb (policy =? "")%string && (Blob.Policy b =? policy)%string
  | None => false
  end.
Definition Age `{LenientParse} (b : option blob) (now : Time) : Duration :=
  match b with
  | Some b =>
      if (Blob.UpdatedAt b =? "")%string then 0
      else match ParseRFC3339 (Blob.UpdatedAt b) with Some t => now - t | None => 0 end
  | None => 0
  end.
End update.

(** ** Files *)

Abbreviation dir := (gmap string string).

(** [persist], as the operations on the directory in their order; each body
    is written beside the file and renamed over it ([replaceFile]). *)
Inductive file_op := WriteFile (name body : string) | Rename (src dst : string).
Definition run_op (d : dir) (op : file_op) : dir :=
  match op with
  | WriteFile name body => <[name := body]> d
  | Rename src dst => match d !! src with Some body => <[dst := body]> (delete src d) | None => d end
  end.
Definition replace_ops (write : string * string) : list file_op :=
  [WriteFile (write.1 +:+ ".tmp") write.2; Rename (write.1 +:+ ".tmp") write.1].

(** [Cache]: its directory and the blob it points to *)
Module Cache.
Record t := mk { files : dir; ptr : option blob }.
End Cache.

Section files.
Context `{Crypto} `{TzData} `{MetaCodec}.

Definition meta_text (b : blob) : string :=
  let key k := double_quote +:+ k +:+ double_quote +:+ ":" in
  "{" +:+ key "count" +:+ Itoa (Blob.Count b) +:+ "," +:+ key "etag" +:+ fmt_q (Blob.ETag b)
    +:+ "," +:+ key "updated_at" +:+ fmt_q (Blob.UpdatedAt b) +:+ "," +:+ key "policy"
    +:+ fmt_q (Blob.Policy b) +:+ "}".
Definition writes (b : blob) : list (string * string) :=
  [("sub.txt", Blob.Raw b); ("sub.base64", Blob.Base64 b); ("clash.yaml", Blob.Clash b);
   ("sub.meta.json", meta_text b)].
Definition persist_ops (b : blob) : list file_op := writes b ≫= replace_ops.
(** The directory after the first [n] operations; all of them when nothing
    fails *)
Definition persist (d : dir) (b : blob) (n : nat) : dir := fold_left run_op (take n (persist_ops b)) d.

(** The lines that are not blank *)
Definition line_count (raw : string) : Z :=
  Z.of_nat (length (List.filter (λ line, negb (TrimSpace line =? "")%string) (Split raw (byte_of 10)))).

(** [loadFromDisk]; [mtime] is the modification time of a file. *)
Definition loadFromDisk (d : dir) (mtime : string → Time) : option blob :=
  let read name := d !! name in
  if bool_decide (read "sub.txt" = None ∧ read "sub.base64" = None ∧ read "clash.yaml" = None) then None
  else
    let raw := default "" (read "sub.txt") in
    let b64 := default "" (read "sub.base64") in
    let clash := default "" (read "clash.yaml") in
    let meta := default (Meta.mk 0 "" "" "") (read "sub.meta.json" ≫= meta_unmarshal) in
    let count := if (raw =? "")%string then Meta.Count meta else line_count raw in
    let updated := if (Meta.UpdatedAt meta =? "")%string
                   then match read "sub.txt" with Some _ => FormatRFC3339 (mtime "sub.txt") | None => "" end
                   else Meta.UpdatedAt meta in
    Some (Blob.mk raw b64 clash count ∅ (etagOf (raw +:+ b64 +:+ clash)) updated (Meta.Policy meta) ∅ ∅ ∅ ∅).

(** ** The cache *)

Definition NewCache (d : dir) (mtime : string → Time) : Cache.t := Cache.mk d (loadFromDisk d mtime).
Definition Get (c : Cache.t) : option blob := Cache.ptr c.
Definition Clear (c : Cache.t) : Cache.t := Cache.mk (Cache.files c) None.
(** [Store]: [n] operations of [persist] succeed. *)
Definition Store (c : Cache.t) (b : option blob) (save : bool) (n : nat) : Cache.t :=
  match b with
  | None => c
  | Some b => Cache.mk (if save then persist (Cache.files c) b n else Cache.files c) (Some b)
  end.
End files.

(** [Update]; the error of saving is logged, the blob is published all the
    same. *)
Definition Update `{Unicode} `{Crypto} `{LinkJson} `{ClashCodec} `{TzData} `{CountRange} `{MetaCodec}
    (c : Cache.t) (nodes : list (option node)) (maxCountryVariants : Z) (policy : string) (now : Time) (n : nat)
    : result (blob * Cache.t) :=
  let! b := render_blob nodes maxCountryVariants policy now in
  Ok (b, Cache.mk (persist (Cache.files c) b n) (Some b)).

(** ** The sort *)

Lemma sort_pass_perm x l m l' : sort_pass x l = (m, l') → m :: l' ≡ₚ x :: l.
Proof.
  revert x m l'; induction l as [|y l IH]; intros x m l'; simpl; [by intros [= <- <-]|].
  case_if.
  - destruct (sort_pass y l) as [m1 l1] eqn:Ep. intros [= <- <-]. apply IH in Ep.
    rewrite (Permutation_swap x m1 l1). by rewrite Ep.
  - destruct (sort_pass x l) as [m1 l1] eqn:Ep. intros [= <- <-]. apply IH in Ep.
    rewrite (Permutation_swap y m1 l1), Ep. apply Permutation_swap.
Qed.
Lemma sort_pass_max x l m l' : sort_pass x l = (m, l') → ∀ y, y ∈ x :: l → y.2 ≤ m.2.
Proof.
  revert x m l'; induction l as [|y l IH]; intros x m l'; simpl.
  - intros [= <- <-] y Hy. apply list_elem_of_singleton in Hy as ->. lia.
  - case_if; bsplit.
    + destruct (sort_pass y l) as [m1 l1] eqn:Ep. intros [= <- <-] z Hz.
      pose proof (IH _ _ _ Ep) as Hmax. apply elem_of_cons in Hz as [->|Hz]; [|by apply Hmax].
      specialize (Hmax y ltac:(by left)). lia.
    + destruct (sort_pass x l) as [m1 l1] eqn:Ep. intros [= <- <-] z Hz.
      pose proof (IH _ _ _ Ep) as Hmax. apply elem_of_cons in Hz as [->|Hz]; [by apply Hmax; left|].
      apply elem_of_cons in Hz as [->|Hz]; [|by apply Hmax; right].
      specialize (Hmax x ltac:(by left)). lia.
Qed.

Lemma exchange_sort_perm fuel l : (length l ≤ fuel)%nat → exchange_sort fuel l ≡ₚ l.
Proof.
  revert l; induction fuel as [|fuel IH]; intros [|x l] Hf; simpl in *; [done|lia|done|].
  destruct (sort_pass x l) as [m l'] eqn:E. apply sort_pass_perm in E as Hp.
  rewrite IH; [done|]. apply Permutation_length in Hp. simpl in Hp. lia.
Qed.
(** The loops sort by count, greatest first. *)
Lemma exchange_sort_sorted fuel l : (length l ≤ fuel)%nat →
  StronglySorted (λ a b : string * Z, b.2 ≤ a.2) (exchange_sort fuel l).
Proof.
  revert l; induction fuel as [|fuel IH]; intros [|x l] Hf; simpl in *; try constructor.
  destruct (sort_pass x l) as [m l'] eqn:E. pose proof (sort_pass_perm _ _ _ _ E) as Hp.
  assert (Hl : (length l' ≤ fuel)%nat) by (apply Permutation_length in Hp; simpl in Hp; lia).
  constructor; [by apply IH|]. apply Forall_forall. intros y Hy.
  apply (sort_pass_max _ _ _ _ E). rewrite <-Hp, (exchange_sort_perm _ _ Hl) in *. by right.
Qed.

(** ** The groups *)

Definition in_country (k : string) (n : node) : bool := (country_key n =? k)%string.

Lemma group_nodes_spec nodes : ∀ m g m' g',
  group_nodes m g nodes = Ok (m', g') →
  ∃ ns, nodes = Some <$> ns ∧
    (∀ k, default 0 (m' !! k) = default 0 (m !! k) + Z.of_nat (length (List.filter (in_country k) ns))) ∧
    (∀ k, default [] (g' !! k) = default [] (g !! k) ++ List.filter (in_country k) ns) ∧
    (∀ k, is_Some (m' !! k) ↔ is_Some (m !! k) ∨ List.filter (in_country k) ns ≠ []).
Proof.
  induction nodes as [|[n|] nodes IH]; intros m g m' g'; simpl; [| |done].
  - intros [= <- <-]. exists []. simpl. split; [done|]. split; [intros k; lia|].
    split; [intros k; by rewrite app_nil_r|]. intros k. naive_solver.
  - intros (ns & -> & Hm & Hg & Hd)%IH. exists (n :: ns). split; [done|].
    assert (Hk : ∀ k, country_key n = k ∧ in_country k n = true ∨ country_key n ≠ k ∧ in_country k n = false).
    { intros k. unfold in_country. destruct (String.eqb_spec (country_key n) k); auto. }
    split; [|split]; intros k; simpl;
      [rewrite Hm; unfold count_country|rewrite Hg; unfold group_country|rewrite Hd; unfold count_country];
      destruct (Hk k) as [[<- ->]|[Hne ->]].
    + rewrite lookup_insert_eq. simpl. lia.
    + by rewrite lookup_insert_ne.
    + rewrite lookup_insert_eq. simpl. by rewrite <-app_assoc.
    + by rewrite lookup_insert_ne.
    + rewrite lookup_insert_eq. split; [by right|]. intros _. left. by eexists.
    + by rewrite lookup_insert_ne.
Qed.

(** ** The variants *)

Section update.
Context `{Unicode} `{Crypto} `{LinkJson} `{ClashCodec} `{TzData} `{CountRange}.

(** What a blob holds for one country *)
Definition variant (b : blob) (k : string) (ns : list node) : Prop :=
  (∃ raw b64, RenderRaw (Some <$> ns) = Ok raw ∧ RenderBase64 (Some <$> ns) = Ok b64 ∧
     Blob.CountryRaw b !! k = Some raw ∧ Blob.CountryBase64 b !! k = Some b64) ∧
  Blob.CountryClash b !! k = Some (RenderClash (Some <$> ns)) ∧
  Blob.CountryCount b !! k = Some (Z.of_nat (length ns)).
Definition same_variants (b b' : blob) (k : string) : Prop :=
  Blob.CountryRaw b' !! k = Blob.CountryRaw b !! k ∧ Blob.CountryBase64 b' !! k = Blob.CountryBase64 b !! k ∧
  Blob.CountryClash b' !! k = Blob.CountryClash b !! k ∧ Blob.CountryCount b' !! k = Blob.CountryCount b !! k.
Definition globals (b : blob) :=
  (Blob.Raw b, Blob.Base64 b, Blob.Clash b, Blob.Count b, Blob.ByCountry b, Blob.ETag b, Blob.UpdatedAt b, Blob.Policy b).

Lemma render_variants_spec groups vs : ∀ b b',
  render_variants groups vs b = Ok b' →
  globals b' = globals b ∧
  (∀ k, k ∈ vs.*1 → variant b' k (default [] (groups !! k))) ∧
  (∀ k, k ∉ vs.*1 → same_variants b b' k).
Proof.
  induction vs as [|it vs IH]; intros b b'; cbn [render_variants].
  { intros [= <-]. split; [done|]. split; [by intros k ?%not_elem_of_nil|done]. }
  set (ns := default [] (groups !! it.1)).
  destruct (RenderRaw (Some <$> ns)) as [raw|] eqn:Er; [|done].
  destruct (RenderBase64 (Some <$> ns)) as [b64|] eqn:Eb; [|done]. cbn [rbind].
  intros (Hg & Hin & Hout)%IH. split; [by rewrite Hg|]. split.
  - intros k Hk. destruct (decide (k ∈ vs.*1)) as [?|Hno]; [by apply Hin|].
    apply elem_of_cons in Hk as [->|?]; [|done]. destruct (Hout _ Hno) as (H1' & H2' & H3' & H4').
    simpl in H1', H2', H3', H4'. rewrite lookup_insert_eq in H1', H2', H3'. rewrite lookup_insert_eq in H4'. unfold variant. fold ns.
    split; [by exists raw, b64|]. by rewrite H3', H4'.
  - intros k [Hne Hk]%not_elem_of_cons. destruct (Hout _ Hk) as (H1' & H2' & H3' & H4').
    simpl in H1', H2', H3', H4'. rewrite lookup_insert_ne in H1', H2', H3' by done.
    by rewrite lookup_insert_ne in H4' by done.
Qed.

Lemma variants_perm byCountry max :
  ∃ rest, variants byCountry max ++ rest ≡ₚ List.filter known_country (map_to_list byCountry) ∧
    (∀ x y, x ∈ variants byCountry max → y ∈ rest → y.2 ≤ x.2) ∧
    length (variants byCountry max) = (Z.to_nat max `min` length (List.filter known_country (map_to_list byCountry)))%nat.
Proof.
  unfold variants. set (l := List.filter known_country (range_counts byCountry)).
  assert (Hl : l ≡ₚ List.filter known_country (map_to_list byCountry)).
  { apply filter_perm, range_counts_perm. }
  pose proof (exchange_sort_perm (length l) l ltac:(done)) as Hp.
  pose proof (exchange_sort_sorted (length l) l ltac:(done)) as Hs.
  exists (drop (Z.to_nat max) (exchange_sort (length l) l)). rewrite take_drop.
  split; [by rewrite Hp|]. split.
  - intros x y Hx Hy. rewrite <-(take_drop (Z.to_nat max) (exchange_sort _ _)) in Hs.
    apply StronglySorted_app in Hs as (Hs & _). by apply Hs.
  - rewrite length_take, Hp. by rewrite Hl.
Qed.

(** The countries with a variant, among those that are known *)
Section chosen.
Context (m : gmap string Z) (max : Z).
Let vs := variants m max.

Lemma chosen_known k z : (k, z) ∈ vs → m !! k = Some z ∧ k ≠ "XX".
Proof.
  destruct (variants_perm m max) as (rest & Hp & _). intros Hin.
  assert (Hin' : (k, z) ∈ variants m max ++ rest) by (apply elem_of_app; by left). rewrite Hp in Hin'.
  apply elem_of_list_filter_bool in Hin' as [Hm Hk]. apply elem_of_map_to_list in Hm.
  split; [done|]. unfold known_country in Hk. bsplit. done.
Qed.
Lemma chosen_nodup : NoDup vs.*1.
Proof.
  destruct (variants_perm m max) as (rest & Hp & _).
  assert (Hn : NoDup (List.filter known_country (map_to_list m)).*1).
  { eapply sublist_NoDup; [apply (NoDup_fst_map_to_list m)|].
    clear Hp. induction (map_to_list m) as [|x l IH]; [constructor|]. cbn [List.filter].
    destruct (known_country x); simpl; by constructor. }
  rewrite <-Hp, fmap_app in Hn. by apply NoDup_app in Hn as [? _].
Qed.
Lemma unchosen_smaller k z k' z' :
  (k, z) ∈ vs → k' ∉ vs.*1 → m !! k' = Some z' → k' ≠ "XX" → z' ≤ z ∧ length vs = Z.to_nat max.
Proof.
  destruct (variants_perm m max) as (rest & Hp & Hle & Hlen). intros Hin Hout Hm Hk.
  assert (Hin' : (k', z') ∈ List.filter known_country (map_to_list m)).
  { apply elem_of_list_filter_bool. split; [by apply elem_of_map_to_list|].
    unfold known_country. simpl. by rewrite (proj2 (String.eqb_neq _ _)). }
  rewrite <-Hp in Hin'. apply elem_of_app in Hin' as [Hin'|Hrest].
  { destruct Hout. apply list_elem_of_fmap. by exists (k', z'). }
  split; [by apply (Hle (k, z) (k', z'))|].
  apply Permutation_length in Hp. rewrite length_app in Hp.
  destruct rest; [by apply not_elem_of_nil in Hrest|]. simpl in Hp. unfold vs in *. lia.
Qed.
End chosen.

(** The nodes, the counters and the groups behind a blob *)
Lemma render_blob_inv nodes maxCountryVariants policy now b :
  render_blob nodes maxCountryVariants policy now = Ok b →
  ∃ m g ns, group_nodes ∅ ∅ nodes = Ok (m, g) ∧ nodes = Some <$> ns ∧
    RenderRaw nodes = Ok (Blob.Raw b) ∧ RenderBase64 nodes = Ok (Blob.Base64 b) ∧
    Blob.Clash b = RenderClash nodes ∧ Blob.Count b = Z.of_nat (length nodes) ∧ Blob.ByCountry b = m ∧
    (∀ k, default [] (g !! k) = List.filter (in_country k) ns) ∧
    (∀ k, default 0 (m !! k) = Z.of_nat (length (List.filter (in_country k) ns))) ∧
    let vs := variants m (if maxCountryVariants <=? 0 then 30 else maxCountryVariants) in
    (∀ k, k ∈ vs.*1 → variant b k (default [] (g !! k))) ∧
    (∀ k, is_Some (Blob.CountryCount b !! k) ↔ k ∈ vs.*1).
Proof.
  unfold render_blob. cbv zeta. set (max := if maxCountryVariants <=? 0 then 30 else maxCountryVariants).
  destruct (group_nodes ∅ ∅ nodes) as [[m g]|] eqn:Egroup; [|done]. cbn [rbind].
  destruct (RenderRaw nodes) as [raw|] eqn:Eraw; [|done]. cbn [rbind].
  destruct (RenderBase64 nodes) as [b64|] eqn:Eb64; [|done]. cbn [rbind].
  intros (Hg & Hin & Hout)%render_variants_spec. exists m, g.
  destruct (group_nodes_spec _ _ _ _ _ Egroup) as (ns & -> & Hm & Hgr & _). exists ns.
  injection Hg as HRaw HB64 HClash HCount HBy _ _ _. rewrite HRaw, HB64, HClash, HCount, HBy.
  do 7 (split; [done|]). split; [by intros k; rewrite Hgr, lookup_empty|].
  split; [intros k; rewrite Hm, lookup_empty; simpl; lia|]. split; [done|].
  intros k. split.
  - intros [z Hz]. destruct (decide (k ∈ (variants m max).*1)) as [?|Hno]; [done|].
    destruct (Hout k Hno) as (_ & _ & _ & Hc). rewrite Hz in Hc. simpl in Hc. by rewrite lookup_empty in Hc.
  - intros Hk. destruct (Hin k Hk) as (_ & _ & Hc). by eexists.
Qed.

End update.

(** ** The files *)

Section files.
Context `{Unicode} `{Crypto} `{TzData} `{MetaCodec}.

(** One replacement: after the rename the file is new; before, it is old; no
    other file that is read is touched. *)
Lemma replace_one d name body rest n :
  fold_left run_op (take (S (S n)) (replace_ops (name, body) ++ rest)) d =
  fold_left run_op (take n rest) (<[name := body]> (delete (name +:+ ".tmp") d)).
Proof.
  unfold replace_ops. simpl. rewrite lookup_insert_eq. by rewrite delete_insert_eq.
Qed.

(** Temporary names are none of those that are read. *)
Definition file_names : list string := ["sub.txt"; "sub.base64"; "clash.yaml"; "sub.meta.json"].
Lemma tmp_name name x : name ∈ file_names → x ∈ file_names → x ≠ name +:+ ".tmp".
Proof.
  intros Hn Hx. assert (Hall : Forall (λ y, Forall (λ x, x ≠ y +:+ ".tmp") file_names) file_names)
    by (apply (bool_decide_unpack _); by vm_compute).
  rewrite Forall_forall in Hall. specialize (Hall name Hn). rewrite Forall_forall in Hall. by apply Hall.
Qed.
Lemma writes_names b : (writes b).*1 = file_names.
Proof. done. Qed.

Lemma replace_prefix ws : ∀ d n,
  Forall (λ w : string * string, w.1 ∈ file_names) ws → NoDup ws.*1 →
  ∃ k, (n = 0%nat → k = 0%nat) ∧ (2 * length ws ≤ n → k = length ws)%nat ∧
    (∀ i w, ws !! i = Some w →
      fold_left run_op (take n (ws ≫= replace_ops)) d !! w.1 =
        if (i <? k)%nat then Some w.2 else d !! w.1) ∧
    (∀ name, name ∈ file_names → name ∉ ws.*1 →
      fold_left run_op (take n (ws ≫= replace_ops)) d !! name = d !! name).
Proof.
  induction ws as [|[name body] ws IH]; intros d n Hnames Hnd.
  { exists 0%nat. split; [done|]. split; [done|]. split; [done|]. intros name _ _. by destruct n. }
  apply Forall_cons in Hnames as [Hname Hnames]. simpl in Hnd. apply NoDup_cons in Hnd as [Hnot Hnd].
  pose proof (tmp_name name) as Htmp.
  change (((name, body) :: ws) ≫= replace_ops) with (replace_ops (name, body) ++ (ws ≫= replace_ops)).
  destruct n as [|[|n]].
  - exists 0%nat. split; [done|]. split; [simpl; lia|]. split; [|done]. intros i w Hw. by destruct i.
  - exists 0%nat. split; [done|]. split; [simpl; lia|]. split.
    + intros i w Hw. replace (i <? 0)%nat with false by (by destruct i). simpl.
      rewrite lookup_insert_ne; [done|]. apply not_eq_sym; apply Htmp; [done|].
      destruct i; simpl in Hw; [by injection Hw as <-|].
      rewrite Forall_forall in Hnames. apply Hnames. by eapply list_elem_of_lookup_2.
    + intros x Hx Hout. simpl. rewrite lookup_insert_ne; [done|]. by apply not_eq_sym; apply Htmp; [done|].
  - rewrite replace_one.
    destruct (IH (<[name := body]> (delete (name +:+ ".tmp") d)) n Hnames Hnd) as (k & Hk0 & Hk & Hin & Hout).
    exists (S k). split; [done|]. split; [simpl; lia|]. split.
    + intros [|i] w Hw; simpl in Hw.
      * injection Hw as <-. simpl. rewrite Hout by done. by rewrite lookup_insert_eq.
      * rewrite (Hin i w Hw). change (S i <? S k)%nat with (i <? k)%nat. case_if; [done|].
        assert (Hwin : w ∈ ws) by (by eapply list_elem_of_lookup_2).
        rewrite lookup_insert_ne, lookup_delete_ne; [done| |].
        -- apply not_eq_sym; apply Htmp; [done|]. rewrite Forall_forall in Hnames. by apply Hnames.
        -- intros ->. apply Hnot. apply list_elem_of_fmap. by exists w.
    + intros x Hx Hno. simpl in Hno. apply not_elem_of_cons in Hno as [Hne Hno].
      rewrite Hout by done. rewrite lookup_insert_ne, lookup_delete_ne; [done| |done].
      by apply not_eq_sym; apply Htmp; [done|].
Qed.

(** A loaded blob is made of what the files hold. *)
Lemma load_fields d mtime b' : loadFromDisk d mtime = Some b' →
  Blob.Raw b' = default "" (d !! "sub.txt") ∧ Blob.Base64 b' = default "" (d !! "sub.base64") ∧
  Blob.Clash b' = default "" (d !! "clash.yaml") ∧
  Blob.ETag b' = etagOf (Blob.Raw b' +:+ Blob.Base64 b' +:+ Blob.Clash b').
Proof. unfold loadFromDisk. case_if; [done|]. cbv zeta. by intros [= <-]. Qed.

End files.
