(* ===== verification/HotCache.v ===== *)
(** * The stores beside the service: [internal/hotcache/redis.go] and
    [internal/objectstore/s3.go]

    What the workers of several hosts share: the last published blob and the
    lock of the publication in Redis, and the published files in a bucket.
    Redis is a class of commands with the behaviour its documentation states
    ([Redis], [RedisLaws]), and a bucket is the list of what was written to
    it. *)
From S2P Require Import Prelude GoStr GoFloat GoTime Model Base64 Ratelimit NetAddr NetUrl Config Publish.

(** ** Redis *)

(** [SET key value PX ttl], the same with [NX], [GET], and [releaseScript] *)
Class Redis := {
  redis : Type;
  r_set : string → string → Duration → Time → redis → redis;
  r_setnx : string → string → Duration → Time → redis → bool * redis;
  r_get : string → Time → redis → option string;
  r_delete_if : string → string → Time → redis → redis;
}.
(** A key is set until its time to live is over; the clock of the server does
    not run backwards. *)
Class RedisLaws `{Redis} : Prop := {
  get_set k v ttl t s k' t' : t ≤ t' →
    r_get k' t' (r_set k v ttl t s) = if decide (k = k') then (if t' <? t + ttl then Some v else None) else r_get k' t' s;
  setnx_spec k v ttl t s :
    r_setnx k v ttl t s = match r_get k t s with Some _ => (false, s) | None => (true, r_set k v ttl t s) end;
  get_delete k v t s k' t' : t ≤ t' →
    r_get k' t' (r_delete_if k v t s) =
      if decide (k = k' ∧ r_get k t s = Some v) then None else r_get k' t' s;
  get_later k t t' s v : t ≤ t' → r_get k t' s = Some v → r_get k t s = Some v;
}.
(** [encoding/json] on a blob, on nodes and on the counts of the countries *)
Class BlobJson := {
  blob_json : blob → result string;
  nodes_json : list node → result string;
  counts_text : gmap string Z → result string;
  blob_of_json : string → result blob;
}.

(** ** The client *)

Module Client.
Record t := mk { prefix : string; cacheTTL : Duration; lockTTL : Duration }.
End Client.
(** [Open]: [unparsed] and [unreached] are the errors of the URL and of the
    first ping. *)
Definition Open (unparsed unreached : option error) (prefix : string) (cacheTTL lockTTL : Duration) : result Client.t :=
  match unparsed, unreached with
  | Some err, _ | None, Some err => Err err
  | None, None =>
      let prefix := Trim prefix ": " in
      Ok (Client.mk (if (prefix =? "")%string then "nodeharvest" else prefix)
            (if cacheTTL <=? 0 then 5 * Minute else cacheTTL) (if lockTTL <=? 0 then 2 * Minute else lockTTL))
  end.
Definition key (c : Client.t) (name : string) : string := Client.prefix c +:+ ":" +:+ name.
(** [randomToken]: the random bytes, or without them the clock *)
Definition hex_char (n : Z) : ascii := byte_of (if n <? 10 then 48 + n else 87 + n).
Definition hex (l : bytes) : string := implode (l ≫= λ c, [hex_char (byte_val c / 16); hex_char (byte_val c mod 16)]).
Definition randomToken (random : option bytes) (now : Time) : string :=
  match random with Some l => hex l | None => Itoa (now - unix_epoch * Second) end.

Section commands.
Context `{Redis} `{BlobJson}.

(** [SetSnapshot]: the three keys in one transaction; [failed] is the error of
    the transaction, which is then not run. *)
Definition SetSnapshot (c : Client.t) (b : blob) (nodes : list node) (failed : option error) (t : Time) (s : redis)
    : option error * redis :=
  let texts :=
    let! b' := blob_json b in let! n := nodes_json nodes in let! k := counts_text (Blob.ByCountry b) in Ok (b', n, k) in
  match texts, failed with
  | Err err, _ | Ok _, Some err => (Some err, s)
  | Ok (b, n, k), None =>
      (None, r_set (key c "countries") k (Client.cacheTTL c) t
               (r_set (key c "nodes:hq") n (Client.cacheTTL c) t (r_set (key c "publish") b (Client.cacheTTL c) t s)))
  end.
(** [GetBlob] *)
Definition GetBlob (c : Client.t) (failed : option error) (t : Time) (s : redis) : result blob :=
  match failed with
  | Some err => Err err
  | None => match r_get (key c "publish") t s with
            | None => Err (ErrMsg "redis: nil")
            | Some data => blob_of_json data
            end
  end.

(** [Acquire] and [Release] *)
Record lock := mk_lock { lock_key : string; lock_token : string }.
Definition Acquire (c : Client.t) (name token : string) (failed : option error) (t : Time) (s : redis)
    : option lock * bool * option error * redis :=
  match failed with
  | Some err => (None, false, Some err, s)
  | None =>
      let '(ok, s) := r_setnx (key c ("lock:" +:+ name)) token (Client.lockTTL c) t s in
      (if ok then Some (mk_lock (key c ("lock:" +:+ name)) token) else None, ok, None, s)
  end.
Definition Release (l : lock) (t : Time) (s : redis) : redis := r_delete_if (lock_key l) (lock_token l) t s.

(** ** Workers that share a lock *)

(** What they do, each thing at a time of its own: an attempt with its token,
    one whose answer is lost though the command was run, the release of a lock,
    and the writing of a snapshot *)
Inductive event :=
  | Attempt_ (token : string)
  | Unanswered (token : string)
  | Done_ (token : string)
  | Wrote (b : blob) (nodes : list node) (failed : option error).
(** Redis, and since when each token has the lock *)
Definition shared : Type := redis * gmap string Time.
Definition happens (c : Client.t) (name : string) (ev : event) (t : Time) (st : shared) : shared :=
  let '(s, held) := st in
  match ev with
  | Attempt_ token =>
      let '(l, _, _, s) := Acquire c name token None t s in
      (s, match l with Some _ => <[token := t]> held | None => held end)
  | Unanswered token => ((Acquire c name token None t s).2, held)
  | Done_ token =>
      match held !! token with
      | Some _ => (Release (mk_lock (key c ("lock:" +:+ name)) token) t s, delete token held)
      | None => st
      end
  | Wrote b nodes failed => ((SetSnapshot c b nodes failed t s).2, held)
  end.
Fixpoint history (c : Client.t) (name : string) (evs : list (event * Time)) (st : shared) : shared :=
  match evs with
  | [] => st
  | (ev, t) :: evs => history c name evs (happens c name ev t st)
  end.
(** The tokens of the attempts, and whether the times do not run backwards *)
Definition attempts (evs : list (event * Time)) : list string :=
  omap (λ e, match e.1 with Attempt_ token | Unanswered token => Some token | _ => None end) evs.
Fixpoint ordered (from : Time) (evs : list (event * Time)) : Prop :=
  match evs with [] => True | (_, t) :: evs => from ≤ t ∧ ordered t evs end.

Context `{!RedisLaws}.

(** A lock in its time is in Redis under its token. *)
Definition lock_inv (c : Client.t) (name : string) (now : Time) (st : shared) : Prop :=
  ∀ token t, st.2 !! token = Some t → t ≤ now ∧ ∀ t', now ≤ t' → t' < t + Client.lockTTL c →
    r_get (key c ("lock:" +:+ name)) t' st.1 = Some token.

Lemma key_inj c a b : key c a = key c b → a = b.
Proof.
  unfold key. intros E. apply (f_equal explode) in E. rewrite !explode_app in E. apply explode_inj.
  by repeat apply app_inv_head in E.
Qed.
Lemma lock_key_apart c name k : k ∈ ["publish"; "nodes:hq"; "countries"] → key c k ≠ key c ("lock:" +:+ name).
Proof. intros Hk E%key_inj. set_solver. Qed.
Lemma get_snapshot c b nodes failed t t' name s : t ≤ t' →
  r_get (key c ("lock:" +:+ name)) t' (SetSnapshot c b nodes failed t s).2 = r_get (key c ("lock:" +:+ name)) t' s.
Proof.
  intros Ht. unfold SetSnapshot. destruct (rbind _ _) as [[[??]?]|]; [|done]. destruct failed; [done|]. cbn [snd].
  rewrite !get_set by done. by rewrite !decide_False by (apply lock_key_apart; set_solver).
Qed.
Lemma acquire_spec c name token t s : Acquire c name token None t s =
  match r_get (key c ("lock:" +:+ name)) t s with
  | Some _ => (None, false, None, s)
  | None => (Some (mk_lock (key c ("lock:" +:+ name)) token), true, None, r_set (key c ("lock:" +:+ name)) token (Client.lockTTL c) t s)
  end.
Proof. unfold Acquire. rewrite setnx_spec. by destruct (r_get _ _ _). Qed.

(** After what happens at [t] the key of the lock reads as before or, at an
    attempt on a free lock, as its token, or, at a release, as nothing. *)
Lemma happens_inv c name ev now t st : now ≤ t → lock_inv c name now st → lock_inv c name t (happens c name ev t st).
Proof.
  intros Hnow Hinv. destruct st as [s held].
  assert (∀ token t0, held !! token = Some t0 → t0 ≤ t) as Hpast by (intros token t0 Hh; apply Hinv in Hh as [? _]; lia).
  assert (∀ token t0 t', held !! token = Some t0 → t ≤ t' → t' < t0 + Client.lockTTL c →
    r_get (key c ("lock:" +:+ name)) t' s = Some token ∧ r_get (key c ("lock:" +:+ name)) t s = Some token) as Hlive.
  { intros token t0 t' Hh Ht' Hl. apply Hinv in Hh as [_ Hh].
    assert (r_get (key c ("lock:" +:+ name)) t' s = Some token) as Hg by (apply Hh; lia). split; [exact Hg|]. by eapply get_later. }
  destruct ev as [token|token|token|b nodes failed]; cbn [happens].
  - rewrite acquire_spec. destruct (r_get _ t s) as [v|] eqn:Ev.
    + intros token' t0 Hh. split; [by eapply Hpast|]. intros t' Ht' Hl. by eapply Hlive.
    + intros token' t0 Hh. cbn [snd] in Hh. apply lookup_insert_Some in Hh as [[<- <-]|[Hne Hh]].
      * split; [lia|]. intros t' Ht' Hl. cbn [fst]. rewrite get_set, decide_True by done. by destruct (Z.ltb_spec t' (t + Client.lockTTL c)); [|lia].
      * split; [by eapply Hpast|]. intros t' Ht' Hl. destruct (Hlive token' t0 t' Hh Ht' Hl). congruence.
  - rewrite acquire_spec. intros token' t0 Hh. destruct (r_get _ t s) as [v|] eqn:Ev; (split; [by eapply Hpast|]); intros t' Ht' Hl.
    + by eapply Hlive.
    + destruct (Hlive token' t0 t' Hh Ht' Hl). congruence.
  - destruct (held !! token) as [t1|] eqn:E1.
    + intros token' t0 Hh. cbn [snd] in Hh. apply lookup_delete_Some in Hh as [Hne Hh]. split; [by eapply Hpast|]. intros t' Ht' Hl. cbn [fst].
      destruct (Hlive token' t0 t' Hh Ht' Hl) as [Hg1 Hg2]. unfold Release. cbn [lock_key lock_token].
      rewrite get_delete, decide_False by (done || (intros [_ ?]; congruence)). exact Hg1.
    + intros token' t0 Hh. split; [by eapply Hpast|]. intros t' Ht' Hl. by eapply Hlive.
  - intros token' t0 Hh. split; [by eapply Hpast|]. intros t' Ht' Hl. cbn [fst]. rewrite get_snapshot by done. by eapply Hlive.
Qed.
(** The key of the lock is free a lease after the last thing that happened. *)
Definition freed (c : Client.t) (name : string) (now : Time) (st : shared) : Prop :=
  ∀ t', now + Client.lockTTL c ≤ t' → r_get (key c ("lock:" +:+ name)) t' st.1 = None.
Lemma happens_freed c name ev now t st : 0 ≤ Client.lockTTL c → now ≤ t → freed c name now st → freed c name t (happens c name ev t st).
Proof.
  intros Httl Hnow Hf. destruct st as [s held]. assert (∀ t', t + Client.lockTTL c ≤ t' → r_get (key c ("lock:" +:+ name)) t' s = None) as Hs.
  { intros t' Ht'. apply Hf. lia. }
  assert (∀ token t', t + Client.lockTTL c ≤ t' →
    r_get (key c ("lock:" +:+ name)) t' (r_set (key c ("lock:" +:+ name)) token (Client.lockTTL c) t s) = None) as Hset.
  { intros token t' Ht'. rewrite get_set, decide_True by (done || lia). by destruct (Z.ltb_spec t' (t + Client.lockTTL c)); [lia|]. }
  destruct ev as [token|token|token|b nodes failed]; cbn [happens]; rewrite ?acquire_spec; intros t' Ht'.
  - destruct (r_get _ t s); [by apply Hs|by apply Hset].
  - destruct (r_get _ t s); [by apply Hs|by apply Hset].
  - destruct (held !! token); [|by apply Hs]. cbn [fst]. unfold Release. cbn [lock_key lock_token].
    rewrite get_delete by lia. destruct (decide _); [done|by apply Hs].
  - cbn [fst]. rewrite get_snapshot by lia. by apply Hs.
Qed.
Lemma history_inv c name evs now st : 0 ≤ Client.lockTTL c → ordered now evs → lock_inv c name now st → freed c name now st →
  let last := foldl (λ _ e, e.2) now evs in
  lock_inv c name last (history c name evs st) ∧ freed c name last (history c name evs st).
Proof.
  intros Httl. revert now st. induction evs as [|[ev t] evs IH]; intros now st; [done|].
  intros [Hnow Ho] Hinv Hf. cbn [history foldl snd]. apply IH; [done|by eapply happens_inv|by eapply happens_freed].
Qed.


(** A snapshot is read back as long as it is cached. *)
Lemma snapshot_roundtrip c b nodes t t' s s' : (∀ b text, blob_json b = Ok text → blob_of_json text = Ok b) →
  SetSnapshot c b nodes None t s = (None, s') → t ≤ t' < t + Client.cacheTTL c → GetBlob c None t' s' = Ok b.
Proof.
  intros Hlaw. unfold SetSnapshot, GetBlob. destruct (blob_json b) as [text|] eqn:Eb; [|done].
  destruct (nodes_json nodes) as [n|]; [|done]. destruct (counts_text _) as [k|]; [|done]. intros [= <-] Ht.
  rewrite !get_set by lia. rewrite !decide_False by (intros E%key_inj; done). rewrite decide_True by done.
  destruct (Z.ltb_spec t' (t + Client.cacheTTL c)); [by apply Hlaw|lia].
Qed.
End commands.

(** ** The bucket *)

Module Object.
Record t := mk { Key : string; ContentType : string; Body : string }.
End Object.

(** [objectKey]: the segments of all parts, without blanks around them, that
    are neither empty nor steps *)
Section bucket.
Definition slashed (s : string) : string := implode ((λ c, if Ascii.eqb c "\" then "/"%char else c) <$> explode s).
Definition segments (part : string) : list string :=
  List.filter (λ x, negb (bool_decide (x ∈ [""; "."; ".."]))) (TrimSpace <$> Split (slashed part) "/").
Definition objectKey (parts : list string) : string := Join (parts ≫= segments) "/".

(** [20060102T150405.000000000Z], in UTC *)
Definition snapshot_stamp (t : Time) : string :=
  let c := civil_of_days (local_days t) in
  implode (fmt_year (c_year c) ++ pad 2 (c_month c) ++ pad 2 (c_day c) ++ explode "T"
    ++ pad 2 (local_hour t) ++ pad 2 (local_min t) ++ pad 2 (local_sec t) ++ explode "." ++ pad 9 (local_nsec t) ++ explode "Z").

(** [put]: [failed] is the error of the object
    that is written after so many others. *)
Definition put_object (failed : nat → option error) (o : Object.t) (bucket : list Object.t) : result (list Object.t) :=
  match failed (length bucket) with Some err => Err err | None => Ok (bucket ++ [o])%list end.

Context `{BlobJson}.

(** [Open] of the bucket: what the endpoint, the client and the bucket say *)
Definition open_bucket `{MetaCodec} (cfg : ObjectStoreConfig.t) (unparsed refused : option error) (exists_ : result bool)
    (unmade : option error) : result (option (string * string)) :=
  if negb (ObjectStoreConfig.Enabled cfg) then Ok None
  else
    match unparsed, refused, exists_ with
    | Some err, _, _ | None, Some err, _ | None, None, Err err => Err err
    | None, None, Ok found =>
        let client := Ok (Some (ObjectStoreConfig.Bucket cfg, Trim (ObjectStoreConfig.Prefix cfg) "/ ")) in
        if found then client
        else if negb (ObjectStoreConfig.AutoCreateBucket cfg)
        then Err (ErrMsg ("object-store bucket " +:+ fmt_q (ObjectStoreConfig.Bucket cfg) +:+ " does not exist"))
        else match unmade with Some err => Err err | None => client end
    end.
(** [UploadSnapshot]: every file twice; what was written before an error
    stays. *)
Definition uploads (prefix stamp : string) (files : list (string * string * string)) : list Object.t :=
  files ≫= λ '(name, typ, body),
    [Object.mk (objectKey [prefix; "current"; name]) typ body; Object.mk (objectKey [prefix; "snapshots"; stamp; name]) typ body].
Fixpoint put_all (failed : nat → option error) (objects bucket : list Object.t) : option error * list Object.t :=
  match objects with
  | [] => (None, bucket)
  | o :: objects =>
      match put_object failed o bucket with Err err => (Some err, bucket) | Ok bucket => put_all failed objects bucket end
  end.
Definition snapshot_files (b : blob) (metadata : string) : list (string * string * string) :=
  [("sub.txt", "text/plain; charset=utf-8", Blob.Raw b); ("sub.base64", "text/plain; charset=utf-8", Blob.Base64 b);
   ("clash.yaml", "text/yaml; charset=utf-8", Blob.Clash b); ("sub.meta.json", "application/json", metadata)].
Definition UploadSnapshot (prefix : string) (b : blob) (t : Time) (failed : nat → option error) (bucket : list Object.t)
    : option error * list Object.t :=
  match blob_json b with
  | Err err => (Some err, bucket)
  | Ok metadata => put_all failed (uploads prefix (snapshot_stamp t) (snapshot_files b metadata)) bucket
  end.

(** A key cannot leave the prefix: it is the segments of the prefix and more
    segments, none of which is empty or a step. *)
Lemma segments_clean part x : x ∈ segments part → x ≠ "" ∧ x ≠ "." ∧ x ≠ "..".
Proof. unfold segments. rewrite elem_of_list_filter_bool. intros [_ Hx]. apply negb_true_iff, bool_decide_eq_false in Hx. set_solver. Qed.
Lemma objectKey_inside prefix parts : ∃ l, objectKey (prefix :: parts) = Join (segments prefix ++ l) "/" ∧
  Forall (λ x, x ≠ "" ∧ x ≠ "." ∧ x ≠ "..") l.
Proof.
  exists (parts ≫= segments). split; [done|]. apply Forall_forall. intros x (part & Hx & _)%list_elem_of_bind. by eapply segments_clean.
Qed.
(** What is written is a prefix of what was to be written, and all of it
    without an error. *)
Lemma put_all_spec failed objects bucket err bucket' : put_all failed objects bucket = (err, bucket') →
  ∃ k, bucket' = (bucket ++ take k objects)%list ∧ (err = None → take k objects = objects).
Proof.
  revert bucket. induction objects as [|o objects IH]; intros bucket; simpl.
  - intros [= <- <-]. exists 0%nat. by rewrite app_nil_r.
  - unfold put_object. destruct (failed _) as [e|].
    + intros [= <- <-]. exists 0%nat. by rewrite app_nil_r.
    + intros (k & -> & Hk)%IH. exists (S k). rewrite <-app_assoc. split; [done|]. intros Hn. cbn [take]. by rewrite Hk.
Qed.
Lemma upload_exact prefix b t failed bucket err bucket' : UploadSnapshot prefix b t failed bucket = (err, bucket') →
  (∃ more, bucket' = (bucket ++ more)%list) ∧
  (err = None → ∃ metadata, blob_json b = Ok metadata ∧
     ∀ name typ body, (name, typ, body) ∈ snapshot_files b metadata →
       Object.mk (objectKey [prefix; "current"; name]) typ body ∈ bucket').
Proof.
  unfold UploadSnapshot. destruct (blob_json b) as [metadata|e].
  - intros (k & -> & Hk)%put_all_spec. split; [by eexists|]. intros Hn. exists metadata. split; [done|]. rewrite (Hk Hn).
    intros name typ body Hf. apply elem_of_app. right. unfold uploads. apply list_elem_of_bind. exists (name, typ, body). split; [left|done].
  - intros [= <- <-]. split; [exists []; by rewrite app_nil_r|done].
Qed.
Example keys_cleaned : objectKey ["a/../b/"; "current"; "sub.txt"] = "a/b/current/sub.txt".
Proof. by vm_compute. Qed.
End bucket.
