(* ===== verification/LinkExamples.v ===== *)
(** * Links, exports and publication at work

    One link is read, renamed and read again; one node is exported as a Clash
    proxy and read back; a directory is cleaned up; some names, passwords and
    payloads do not survive the way out and back; four nodes in three countries
    are published with one variant, saved and read back; and two hosts want the
    lock of the publication. *)
From S2P Require Import Prelude GoStr GoFloat GoTime Model Base64 Ratelimit NetAddr AccountExamples NetUrl.
From S2P Require Import Links Clash Exporter ExportProofs LinkProofs Content ClashProofs Publish HotCache.

#[local] Existing Instances ascii_only checksums.
#[local] Instance no_text : FmtAny := λ _, "<nil>".

(** A codec that refuses every text *)
#[local] Instance no_json : LinkJson := {|
  vmess_unmarshal _ := None; opts_marshal _ := None; object_unmarshal _ := None |}.
#[local] Instance no_yaml : ClashCodec := {|
  yaml_object _ := None; yaml_text _ := None; json_object _ := None |}.

#[local] Instance graphic_dec c : Decision (graphic c) := and_dec _ _.

Definition sample_link : string :=
  "vless://6ba7b810@node.example.org:8443?security=tls&sni=example.org&type=ws#Old%20name".
Definition sample_base : string :=
  "vless://6ba7b810@node.example.org:8443?security=tls&sni=example.org&type=ws".

(** What [ParseURI] makes of a text, if anything *)
Definition read (raw : string) : option node :=
  match ParseURI raw "manual" with Ok n => Some n | Err _ => None end.
Definition name_of (raw : string) : option string := Node.Name <$> read raw.

Example sample_name : name_of sample_link = Some "Old name".
Proof. vm_compute. reflexivity. Qed.

Lemma rename_link_witness :
  name_of (sample_base +:+ "#" +:+ PathEscape "Tokyo #2/a") = Some "Tokyo #2/a".
Proof.
  destruct (ParseURI sample_link "manual") as [n|e] eqn:E; [|exfalso; by vm_compute in E].
  destruct (rename_link sample_base sample_link "Tokyo #2/a" "manual" n) as [_ H].
  - by apply (bool_decide_unpack _).
  - by apply (bool_decide_unpack _).
  - right. exists "Old%20name". split; [by vm_compute|by apply (bool_decide_unpack _)].
  - by apply (bool_decide_unpack _).
  - done.
  - vm_compute in E. injection E as <-. by apply (bool_decide_unpack _).
  - vm_compute in E. injection E as <-. by intros.
  - exact E.
  - unfold name_of, read. by rewrite H.
Defined.

(** The node of the link, exported and imported again *)
Definition sample_node : node := default Node.zero (read sample_link).


(** A name with a '+', or with what looks like an escape, comes back as another
    name: the fragment that [url.Parse] has decoded is decoded once more. *)
Example name_plus : name_of (sample_base +:+ "#" +:+ PathEscape "a+b") = Some "a b".
Proof. vm_compute. reflexivity. Qed.
Example name_percent : name_of (sample_base +:+ "#" +:+ PathEscape "50%41") = Some "50A".
Proof. vm_compute. reflexivity. Qed.

(** ** A proxy and back *)

Definition exported_node : node :=
  Node.zero <| Node.Protocol := ProtoTrojan |> <| Node.Name := "Tokyo" |>
    <| Node.Server := "node.example.org" |> <| Node.Port := 443 |> <| Node.Password := "secret" |>.

Lemma clash_roundtrip_witness :
  ∃ p n', BuildClashProxy (Some exported_node) "Tokyo #2" = Ok p ∧
    clashMapToNode p "import" = Some n' ∧ Node.Password n' = "secret".
Proof.
  destruct (BuildClashProxy (Some exported_node) "Tokyo #2") as [p|e] eqn:E; [|exfalso; by vm_compute in E].
  destruct (clash_roundtrip exported_node "Tokyo #2" p "import") as (n' & Hn & _ & _ & _ & _ & _ & Hpw & _).
  - exact E.
  - by vm_compute.
  - exists p, n'. split; [done|]. split; [done|].
    etrans; [apply Hpw; by apply (bool_decide_unpack _)|done].
Defined.

(** Links are not as faithful.  A password with a space is written with a '+',
    which the password of a URL keeps; *)
Definition spaced : amap :=
  {["name" := AStr "n"; "type" := AStr "trojan"; "server" := AStr "node.example.org";
    "port" := AInt 443; "password" := AStr "pass word"]}.
Example trojan_space :
  (Node.Password <$> clashMapToNode spaced "import", Node.Password <$> read (clashProxyToURI spaced)) =
  (Some "pass word", Some "pass+word").
Proof. vm_compute. reflexivity. Qed.

(** and a shadowsocksr link is written in the URL-safe alphabet, which the
    reader of such links refuses when it meets a '-' or a '_'. *)
Definition ssr_sample (server : string) : amap :=
  {["name" := AStr "n"; "type" := AStr "ssr"; "server" := AStr server; "port" := AInt 8388;
    "password" := AStr "secret"; "cipher" := AStr "aes-256-cfb"; "protocol" := AStr "origin";
    "obfs" := AStr "plain"]}.
Definition ssr_reads (server : string) : option string :=
  Node.Server <$> read (clashProxyToURI (ssr_sample server)).
Example ssr_alphabet :
  (ssr_reads "a.example.org", ssr_reads "ab.example.org", ssr_reads "abc.example.org") =
  (None, Some "ab.example.org", Some "abc.example.org").
Proof. vm_compute. reflexivity. Qed.

(** ** A directory of exports *)

Definition export_dir : list (string * bool) :=
  [("out-20250101-000000.txt", false); ("out-20250101-000000.json", false);
   ("out-20250102-000000.txt", false); ("out-20250103-000000", true);
   ("out-20251301-000000.txt", false); ("out-latest.txt", false)].

Lemma cleanup_exact_witness : "out-20250101-000000.json" ∈ cleanupOldRuns "out" 1 export_dir.
Proof.
  apply (cleanup_exact "out" 1 export_dir "out-20250101-000000.json" false).
  - lia.
  - by apply (bool_decide_unpack _).
  - by apply (bool_decide_unpack _).
  - exists "20250101-000000". split; by vm_compute.
Defined.

(** ** A published subscription *)

#[local] Existing Instances ascii_only checksums no_json no_yaml no_tzdata.

#[local] Instance sorted_range : CountRange := {|
  range_counts m := map_to_list m; range_counts_perm m := reflexivity _ |}.

(** In November 2023 *)
Definition published_at : Time := 1700000000 * Second.
Definition located (country : string) : node := sample_node <| Node.Country := country |>.
Definition travellers : list (option node) := Some <$> [located "JP"; located ""; located "UK"; located "JP"].
Definition published : blob :=
  match render_blob travellers 1 "policy" published_at with Ok b => b | Err _ => Blob.mk "" "" "" 0 ∅ "" "" "" ∅ ∅ ∅ ∅ end.
Lemma published_ok : render_blob travellers 1 "policy" published_at = Ok published.
Proof. unfold published. destruct (render_blob travellers 1 "policy" published_at) eqn:E; [done|]. by vm_compute in E. Qed.


(** A writer of %q for text without quotes and controls, and a reader that
    knows the description of the policy that was published *)
Definition plain_q (s : string) : string := double_quote +:+ s +:+ double_quote.
Definition published_meta : string :=
  @meta_text {| fmt_q := plain_q; meta_unmarshal _ := None |} published.
#[local] Instance one_policy : MetaCodec := {|
  fmt_q := plain_q;
  meta_unmarshal text := if (text =? published_meta)%string
    then Some (Meta.mk (Blob.Count published) (Blob.ETag published) (Blob.UpdatedAt published) (Blob.Policy published))
    else None |}.

Definition empty_cache : Cache.t := NewCache ∅ (λ _, zero_time).
Definition full_cache : Cache.t := Cache.mk (persist ∅ published 8) (Some published).
Lemma update_published : Update empty_cache travellers 1 "policy" published_at 8 = Ok (published, full_cache).
Proof. unfold Update. rewrite published_ok. done. Qed.



(** A node whose country is in lower case is published under a name that no
    request asks for. *)
Example lower_case_country :
  match render_blob [Some (located "jp")] 5 "policy" published_at with
  | Ok b => (Blob.CountryCount b !! "jp", Format (Some b) "raw" "jp") = (Some 1, None)
  | Err _ => False
  end.
Proof. vm_compute. reflexivity. Qed.

(** ** Two hosts and one lock *)

(** Redis as a map from the keys to their values and the ends of their time *)
#[local] Instance map_redis : Redis := {|
  redis := gmap string (string * Time);
  r_set k v ttl t s := <[k := (v, t + ttl)]> s;
  r_setnx k v ttl t s := match s !! k with
                         | Some (_, u) => if t <? u then (false, s) else (true, <[k := (v, t + ttl)]> s)
                         | None => (true, <[k := (v, t + ttl)]> s)
                         end;
  r_get k t s := match s !! k with Some (v, u) => if t <? u then Some v else None | None => None end;
  r_delete_if k v t s := match s !! k with
                         | Some (v', u) => if (t <? u) && (v =? v')%string then delete k s else s
                         | None => s
                         end
|}.
#[local] Instance map_redis_laws : RedisLaws.
Proof.
  split; simpl.
  - intros k v ttl t s k' t' _. destruct (decide (k = k')) as [->|Hk]; [by rewrite lookup_insert_eq|by rewrite lookup_insert_ne].
  - intros k v ttl t s. destruct (s !! k) as [[v' u]|]; [|done]. by destruct (t <? u).
  - intros k v t s k' t' Ht. destruct (s !! k) as [[v' u]|] eqn:E.
    + destruct (Z.ltb_spec t u) as [Hu|Hu]; cbn [andb].
      * destruct (String.eqb_spec v v') as [->|Hv].
        -- destruct (decide (k = k')) as [->|Hk]; [rewrite lookup_delete_eq, decide_True by done; done|].
           by rewrite lookup_delete_ne, decide_False by naive_solver.
        -- rewrite decide_False; [done|]. intros [_ [= ->]]. done.
      * by rewrite decide_False by naive_solver.
    + by rewrite decide_False by naive_solver.
  - intros k t t' s v Ht. destruct (s !! k) as [[v' u]|]; [|done]. destruct (Z.ltb_spec t' u), (Z.ltb_spec t u); done || lia.
Qed.
#[local] Instance no_blob_text : BlobJson := {|
  blob_json _ := Err (ErrMsg "unsupported"); nodes_json _ := Err (ErrMsg "unsupported");
  counts_text _ := Err (ErrMsg "unsupported"); blob_of_json _ := Err (ErrMsg "unsupported") |}.

Definition hot : Client.t := Client.mk "nodeharvest" (5 * Minute) (2 * Minute).
(** The first host has the lock for too long, the second takes it over, and the
    late release of the first changes nothing. *)
Definition overtaken : list (event * Time) :=
  [(Attempt_ "one", 0); (Attempt_ "two", Minute); (Attempt_ "two", 3 * Minute); (Done_ "one", 4 * Minute)].
