(* ===== verification/Outbound.v ===== *)
(** * Outbounds of the proxy engines: [internal/dialer/outbound.go], [xray.go]

    The JSON objects that make sing-box and xray connect through a node, and
    which engine is asked to.  A Go [map[string]any] is an [amap] of
    [Clash.v]; a slice of strings that the code leaves nil is the empty list.
    The callers never pass a nil node.

    ** What the engines are given

    An engine that supports a node is configured exactly when the node has the
    credentials of its protocol, and its configuration addresses the node. *)
From S2P Require Import Prelude GoStr GoFloat GoTime Model Base64 Ratelimit NetAddr NetUrl Links.
From S2P Require Import Clash Exporter.

Section outbound.
Context `{Unicode}.

(** [firstNonEmpty], [splitCSV], [nonEmptySlice] *)
Definition blank (s : string) : bool := (TrimSpace s =? "")%string.
Definition firstNonEmpty (ss : list string) : string :=
  default "" (List.find (λ s, negb (blank s)) ss).
Definition splitCSV (s : string) : list string :=
  List.filter (λ p, negb (p =? "")%string) (TrimSpace <$> Split s ",").
Definition nonEmptySlice (s : string) : list string := if blank s then [] else [s].

(** [singBoxServerPorts], [singBoxHopInterval] *)
Definition is_int (s : string) : bool := (Atoi s).2.
Definition server_port (item : string) : option string :=
  let item := TrimSpace item in
  if (item =? "")%string then None
  else match Cut item "-" with
       | Some (lo, hi) =>
           if negb (is_int (TrimSpace lo)) then None
           else if negb (is_int (TrimSpace hi)) then None
           else Some (TrimSpace lo +:+ ":" +:+ TrimSpace hi)
       | None => if negb (is_int item) then None else Some item
       end.
Definition singBoxServerPorts (value : string) : list string := omap server_port (Split value ",").
Definition singBoxHopInterval (value : string) : string :=
  let value := TrimSpace value in
  if (value =? "")%string || Contains value "-" then ""
  else if is_int value then value +:+ "s" else value.

(** [buildTransport] *)
(** A nil slice is written like nil. *)
Definition host_of (n : node) : any :=
  match nonEmptySlice (Node.Host n) with [] => ANil | l => AStrs l end.
Definition path_of (n : node) : any := AStr (firstNonEmpty [Node.Path n; "/"]).
Definition http_transport (n : node) : amap :=
  {["type" := AStr "http"; "host" := host_of n; "path" := path_of n]}.
Definition grpc_service (n : node) : string :=
  let svc := extra_get n "serviceName" in
  let svc := if (svc =? "")%string then TrimPrefix (Node.Path n) "/" else svc in
  firstNonEmpty [svc; "GunService"].
Definition buildTransport (n : node) : option amap :=
  let netw := ToLower (Node.Network n) in
  if (netw =? "")%string || (netw =? "tcp")%string then
    if (extra_get n "headerType" =? "http")%string || (extra_get n "type" =? "http")%string
    then Some (http_transport n) else None
  else if (netw =? "ws")%string || (netw =? "websocket")%string then
    let tr : amap := {["type" := AStr "ws"; "path" := path_of n]} in
    Some (if nonempty (Node.Host n) then put "headers" (AMap {["Host" := AStr (Node.Host n)]}) tr else tr)
  else if (netw =? "grpc")%string then
    Some {["type" := AStr "grpc"; "service_name" := AStr (grpc_service n)]}
  else if (netw =? "http")%string || (netw =? "h2")%string then Some (http_transport n)
  else if (netw =? "httpupgrade")%string then
    Some (put_if "host" (Node.Host n) {["type" := AStr "httpupgrade"; "path" := path_of n]})
  else None.
Definition put_transport (n : node) (o : amap) : amap :=
  match buildTransport n with Some tr => put "transport" (AMap tr) o | None => o end.

(** The parts that the protocols share *)
Definition outbound_base (typ : string) (n : node) : amap :=
  {["type" := AStr typ; "tag" := AStr "proxy"; "server" := AStr (Node.Server n);
    "server_port" := AInt (Node.Port n)]}.
Definition server_name (n : node) : string := firstNonEmpty [Node.SNI n; Node.Host n; Node.Server n].
Definition tls_base (n : node) : amap :=
  {["enabled" := ABool true; "server_name" := AStr (server_name n)]}.
Definition put_insecure (n : node) (tls : amap) : amap :=
  if SkipTLSVerify n then put "insecure" (ABool true) tls else tls.
Definition put_alpn (n : node) (tls : amap) : amap :=
  if nonempty (Node.ALPN n) then put "alpn" (AStrs (splitCSV (Node.ALPN n))) tls else tls.
Definition utls (fp : string) : any := AMap {["enabled" := ABool true; "fingerprint" := AStr fp]}.
Definition put_fp (n : node) (tls : amap) : amap :=
  let fp := extra_get n "fp" in if nonempty fp then put "utls" (utls fp) tls else tls.
Definition reality (n : node) : any :=
  AMap {["enabled" := ABool true; "public_key" := AStr (extra_get n "pbk");
         "short_id" := AStr (extra_get n "sid")]}.
Definition put_tls (tls : amap) (o : amap) : amap := put "tls" (AMap tls) o.

(** [BuildOutbound], by protocol *)
Definition ss_outbound (n : node) : result amap :=
  if nonempty (extra_get n "plugin") then Err (ErrMsg "sing-box external ss plugins are not bundled")
  else if negb (nonempty (Node.Password n)) then Err (ErrMsg "ss missing password")
  else
    let method := if nonempty (Node.Method n) then Node.Method n else "aes-256-gcm" in
    Ok (put "method" (AStr method) (put "password" (AStr (Node.Password n)) (outbound_base "shadowsocks" n))).
Definition trojan_outbound (n : node) : result amap :=
  if negb (nonempty (Node.Password n)) then Err (ErrMsg "trojan missing password")
  else
    let tls := put_fp n (put_alpn n (put_insecure n (tls_base n))) in
    let tls :=
      if EqualFold (Node.Security n) "reality" || nonempty (extra_get n "pbk")
      then put "reality" (reality n) (put "utls" (utls (firstNonEmpty [extra_get n "fp"; "chrome"])) tls)
      else tls in
    Ok (put_transport n (put_tls tls
         (put "password" (AStr (Node.Password n)) (outbound_base "trojan" n)))).
Definition alter_id (n : node) : Z :=
  let aid := extra_get n "aid" in if is_int aid then (Atoi aid).1 else 0.
Definition vmess_outbound (n : node) : result amap :=
  if negb (nonempty (Node.UUID n)) then Err (ErrMsg "vmess missing uuid")
  else
    let sec := if nonempty (Node.Method n) then Node.Method n else "auto" in
    let o := put "alter_id" (AInt (alter_id n)) (put "security" (AStr sec)
               (put "uuid" (AStr (Node.UUID n)) (outbound_base "vmess" n))) in
    let o := if Node.TLS n || (Node.Security n =? "tls")%string
             then put_tls (put_alpn n (put_fp n (put_insecure n (tls_base n)))) o else o in
    Ok (put_transport n o).
Definition vless_outbound (n : node) : result amap :=
  if negb (nonempty (Node.UUID n)) then Err (ErrMsg "vless missing uuid")
  else
    let o := put_if "flow" (Node.Flow n) (put "uuid" (AStr (Node.UUID n)) (outbound_base "vless" n)) in
    let sec := ToLower (Node.Security n) in
    let fp := extra_get n "fp" in
    let o :=
      if Node.TLS n || (sec =? "tls")%string || (sec =? "reality")%string then
        let tls := put "utls" (utls (if nonempty fp then fp else "chrome")) (put_insecure n (tls_base n)) in
        let tls := if (sec =? "reality")%string || nonempty (extra_get n "pbk")
                   then put "reality" (reality n) tls else tls in
        put_tls (put_alpn n tls) o
      else o in
    Ok (put_transport n o).
Definition hysteria2_outbound (n : node) : result amap :=
  if negb (nonempty (Node.Password n)) then Err (ErrMsg "hysteria2 missing password")
  else
    let o := put "password" (AStr (Node.Password n)) (outbound_base "hysteria2" n) in
    let ports := singBoxServerPorts (extra_get n "ports") in
    let o := if bool_decide (ports = []) then o
             else put "server_ports" (AStrs ports) (delete "server_port" o) in
    let o := put_if "hop_interval" (singBoxHopInterval (extra_get n "hop-interval")) o in
    let o := put_tls (put_fp n (put_alpn n (put_insecure n (tls_base n)))) o in
    let obfs := extra_get n "obfs" in
    Ok (if nonempty obfs
        then put "obfs" (AMap {["type" := AStr obfs; "password" := AStr (extra_get n "obfs-password")]}) o
        else o).
Definition tuic_outbound (n : node) : result amap :=
  if negb (nonempty (Node.UUID n)) || negb (nonempty (Node.Password n))
  then Err (ErrMsg "tuic missing uuid/password")
  else
    Ok (put_tls (put_fp n (put_alpn n (put_insecure n (tls_base n))))
         (put "udp_relay_mode" (AStr (firstNonEmpty [extra_get n "udp_relay_mode"; "native"]))
           (put "congestion_control" (AStr (firstNonEmpty [extra_get n "congestion_control"; "cubic"]))
             (put "password" (AStr (Node.Password n)) (put "uuid" (AStr (Node.UUID n)) (outbound_base "tuic" n)))))).
Definition BuildOutbound (n : node) : result amap :=
  if negb (IsValid n) then Err (ErrMsg "invalid node")
  else
    let proto := Node.Protocol n in
    if (proto =? ProtoSS)%string then ss_outbound n
    else if (proto =? ProtoTrojan)%string then trojan_outbound n
    else if (proto =? ProtoVMess)%string then vmess_outbound n
    else if (proto =? ProtoVLESS)%string then vless_outbound n
    else if (proto =? ProtoHysteria2)%string then hysteria2_outbound n
    else if (proto =? ProtoTUIC)%string then tuic_outbound n
    else Err (ErrMsg ("unsupported protocol " +:+ proto)).

(** [SupportsEngine], [Supports] *)
Definition mihomo_like (engine : string) : bool := (engine =? "mihomo")%string || (engine =? "both")%string.
Definition SupportsEngine (n : node) (engine : string) : bool :=
  let engine := ToLower (TrimSpace engine) in
  let network := ToLower (TrimSpace (Node.Network n)) in
  if ((network =? "xhttp")%string || (network =? "splithttp")%string) && negb (mihomo_like engine) then false
  else
    let proto := Node.Protocol n in
    if (proto =? ProtoSS)%string then negb (nonempty (extra_get n "plugin")) || mihomo_like engine
    else if (proto =? ProtoTrojan)%string || (proto =? ProtoVMess)%string || (proto =? ProtoVLESS)%string then true
    else if (proto =? ProtoHysteria2)%string then negb (engine =? "xray")%string
    else if (proto =? ProtoTUIC)%string then
      negb (engine =? "xray")%string && (negb (nonempty (extra_get n "token")) || mihomo_like engine)
    else if (proto =? ProtoSSR)%string then mihomo_like engine
    else false.
Definition Supports (n : node) : bool := SupportsEngine n "mihomo".

(** ** xray *)

(** [buildXrayStream] *)
Definition xray_network (n : node) : string :=
  let network := ToLower (firstNonEmpty [Node.Network n; "tcp"]) in
  if (network =? "websocket")%string then "ws" else network.
Definition xray_transport (n : node) (network : string) : amap :=
  let stream : amap := {["network" := AStr network]} in
  if (network =? "ws")%string then
    put "wsSettings" (AMap {["path" := path_of n;
      "headers" := AMap (put_if "Host" (Node.Host n) ∅)]}) stream
  else if (network =? "grpc")%string then
    put "grpcSettings" (AMap {["serviceName" := AStr (firstNonEmpty
      [extra_get n "serviceName"; TrimPrefix (Node.Path n) "/"; "GunService"])]}) stream
  else if (network =? "http")%string || (network =? "h2")%string then
    put "httpSettings" (AMap {["host" := host_of n; "path" := path_of n]}) (put "network" (AStr "h2") stream)
  else stream.
Definition xray_fingerprint (n : node) : any := AStr (firstNonEmpty [extra_get n "fp"; "chrome"]).
Definition buildXrayStream (n : node) : amap :=
  let stream := xray_transport n (xray_network n) in
  let security := ToLower (Node.Security n) in
  if (security =? "reality")%string || nonempty (extra_get n "pbk") then
    put "realitySettings" (AMap {["serverName" := AStr (server_name n); "fingerprint" := xray_fingerprint n;
      "publicKey" := AStr (extra_get n "pbk"); "shortId" := AStr (extra_get n "sid")]})
      (put "security" (AStr "reality") stream)
  else if Node.TLS n || (security =? "tls")%string || (Node.Protocol n =? ProtoTrojan)%string then
    let tls : amap := {["serverName" := AStr (server_name n); "fingerprint" := xray_fingerprint n]} in
    let tls := if SkipTLSVerify n then put "allowInsecure" (ABool true) tls else tls in
    put "tlsSettings" (AMap (put_alpn n tls)) (put "security" (AStr "tls") stream)
  else stream.

(** [BuildXrayOutbound] *)
Definition xray_server (n : node) (fields : amap) : amap :=
  put "address" (AStr (Node.Server n)) (put "port" (AInt (Node.Port n)) fields).
Definition servers (n : node) (fields : amap) : amap :=
  {["servers" := AList [AMap (xray_server n fields)]]}.
Definition vnext (n : node) (user : amap) : amap :=
  {["vnext" := AList [AMap (xray_server n {["users" := AList [AMap user]]})]]}.
Definition xray_settings (n : node) : result (string * amap) :=
  let proto := Node.Protocol n in
  if (proto =? ProtoSS)%string then
    if nonempty (extra_get n "plugin") then Err (ErrMsg "xray external ss plugins are not bundled")
    else if negb (nonempty (Node.Password n)) then Err (ErrMsg "ss missing password")
    else Ok ("shadowsocks", servers n {["method" := AStr (firstNonEmpty [Node.Method n; "aes-256-gcm"]);
                                        "password" := AStr (Node.Password n)]})
  else if (proto =? ProtoTrojan)%string then
    if negb (nonempty (Node.Password n)) then Err (ErrMsg "trojan missing password")
    else Ok ("trojan", servers n {["password" := AStr (Node.Password n)]})
  else if (proto =? ProtoVMess)%string then
    if negb (nonempty (Node.UUID n)) then Err (ErrMsg "vmess missing uuid")
    else Ok ("vmess", vnext n {["id" := AStr (Node.UUID n); "alterId" := AInt (Atoi (extra_get n "aid")).1;
                                "security" := AStr (firstNonEmpty [Node.Method n; "auto"])]})
  else if (proto =? ProtoVLESS)%string then
    if negb (nonempty (Node.UUID n)) then Err (ErrMsg "vless missing uuid")
    else Ok ("vless", vnext n (put_if "flow" (Node.Flow n)
               {["id" := AStr (Node.UUID n); "encryption" := AStr "none"]}))
  else Err (ErrMsg ("xray does not support protocol " +:+ proto)).
Definition BuildXrayOutbound (n : node) : result amap :=
  if negb (IsValid n) then Err (ErrMsg "invalid node")
  else
    let! (protocol, settings) := xray_settings n in
    Ok {["tag" := AStr "proxy"; "protocol" := AStr protocol; "settings" := AMap settings;
         "streamSettings" := AMap (buildXrayStream n)]}.
End outbound.

Section outbound.
Context `{Unicode}.

(** The credentials that sing-box and xray need *)
Definition credentials (n : node) : bool :=
  let proto := Node.Protocol n in
  if (proto =? ProtoVMess)%string || (proto =? ProtoVLESS)%string then nonempty (Node.UUID n)
  else if (proto =? ProtoTUIC)%string then nonempty (Node.UUID n) && nonempty (Node.Password n)
  else nonempty (Node.Password n).

(** ** sing-box *)

(** A configuration whose entry [k] is [v] keeps it when other keys are put. *)
Lemma put_keeps k k' v w (o : amap) : k ≠ k' → o !! k = Some v → put k' w o !! k = Some v.
Proof. intros. unfold put. by rewrite lookup_insert_ne. Qed.
Lemma put_if_keeps k k' v w (o : amap) : k ≠ k' → o !! k = Some v → put_if k' w o !! k = Some v.
Proof. intros. unfold put_if. case_match; [by apply put_keeps|done]. Qed.
Lemma put_transport_keeps k v n o : k ≠ "transport" → o !! k = Some v → put_transport n o !! k = Some v.
Proof. intros. unfold put_transport. case_match; [by apply put_keeps|done]. Qed.
Lemma put_tls_keeps k v tls o : k ≠ "tls" → o !! k = Some v → put_tls tls o !! k = Some v.
Proof. intros. by apply put_keeps. Qed.

(** The entries of [outbound_base] *)
Definition addressed (typ : string) (n : node) (o : amap) : Prop :=
  o !! "type" = Some (AStr typ) ∧ o !! "tag" = Some (AStr "proxy") ∧ o !! "server" = Some (AStr (Node.Server n)).
Definition at_port (n : node) (o : amap) : Prop := o !! "server_port" = Some (AInt (Node.Port n)).
End outbound.
Create HintDb outbound.
#[export] Hint Resolve put_keeps put_if_keeps put_transport_keeps put_tls_keeps : outbound.
#[export] Hint Extern 1 (_ ≠ _) => discriminate : outbound.
#[export] Hint Extern 1 (outbound_base _ _ !! _ = _) => reflexivity : outbound.

Section engines.
Context `{Unicode}.

Lemma ss_entries n o : ss_outbound n = Ok o → addressed "shadowsocks" n o ∧ at_port n o.
Proof. unfold ss_outbound. repeat case_match; intros [= <-]; unfold addressed, at_port; repeat split; eauto 10 with outbound. Qed.
Lemma trojan_entries n o : trojan_outbound n = Ok o → addressed "trojan" n o ∧ at_port n o.
Proof. unfold trojan_outbound. case_match; intros [= <-]; unfold addressed, at_port; repeat split; eauto 10 with outbound. Qed.
Lemma vmess_entries n o : vmess_outbound n = Ok o → addressed "vmess" n o ∧ at_port n o.
Proof.
  unfold vmess_outbound. case_match; intros [= <-]. unfold addressed, at_port.
  destruct (Node.TLS n || _); repeat split; eauto 10 with outbound.
Qed.
Lemma vless_entries n o : vless_outbound n = Ok o → addressed "vless" n o ∧ at_port n o.
Proof.
  unfold vless_outbound. case_match; intros [= <-]. unfold addressed, at_port.
  destruct (Node.TLS n || _ || _); repeat split; eauto 10 with outbound.
Qed.
Lemma tuic_entries n o : tuic_outbound n = Ok o → addressed "tuic" n o ∧ at_port n o.
Proof. unfold tuic_outbound. case_match; intros [= <-]; unfold addressed, at_port; repeat split; eauto 10 with outbound. Qed.
(** Port hopping replaces the port by a list. *)
Definition hopping (n : node) (o : amap) : Prop :=
  o !! "server_ports" = Some (AStrs (singBoxServerPorts (extra_get n "ports"))) ∧ o !! "server_port" = None.
Lemma put_none k k' v (o : amap) : k ≠ k' → o !! k = None → put k' v o !! k = None.
Proof. intros. unfold put. by rewrite lookup_insert_ne. Qed.
Lemma put_if_none k k' v (o : amap) : k ≠ k' → o !! k = None → put_if k' v o !! k = None.
Proof. intros. unfold put_if. case_match; [by apply put_none|done]. Qed.
Lemma hysteria2_entries n o : hysteria2_outbound n = Ok o →
  addressed "hysteria2" n o ∧ (at_port n o ∨ singBoxServerPorts (extra_get n "ports") ≠ [] ∧ hopping n o).
Proof.
  unfold hysteria2_outbound. destruct (negb _); [done|]. intros [= <-].
  set (p0 := put "password" _ _). set (obfs := nonempty (extra_get n "obfs")).
  assert (Hk : ∀ p, addressed "hysteria2" n p → ∀ q, addressed "hysteria2" n (if obfs then put "obfs" q
      (put_tls (put_fp n (put_alpn n (put_insecure n (tls_base n)))) (put_if "hop_interval"
        (singBoxHopInterval (extra_get n "hop-interval")) p))
    else put_tls (put_fp n (put_alpn n (put_insecure n (tls_base n)))) (put_if "hop_interval"
        (singBoxHopInterval (extra_get n "hop-interval")) p))).
  { intros p (?&?&?) q. destruct obfs; repeat split; eauto 10 with outbound. }
  assert (Hp0 : addressed "hysteria2" n p0) by (repeat split; subst p0; eauto with outbound).
  case_bool_decide as Hp.
  - split; [by apply Hk|]. left. unfold at_port. destruct obfs; subst p0; eauto 10 with outbound.
  - split.
    + apply Hk. destruct Hp0 as (?&?&?). repeat split; apply put_keeps; try discriminate; by rewrite lookup_delete_ne.
    + right. split; [done|]. split.
      * assert (Hs : put "server_ports" (AStrs (singBoxServerPorts (extra_get n "ports"))) (delete "server_port" p0)
          !! "server_ports" = Some (AStrs (singBoxServerPorts (extra_get n "ports")))) by apply lookup_insert_eq.
        destruct obfs; eauto 10 with outbound.
      * assert (Hs : put "server_ports" (AStrs (singBoxServerPorts (extra_get n "ports"))) (delete "server_port" p0)
          !! "server_port" = None) by (apply put_none; [done|apply lookup_delete_eq]).
        destruct obfs; repeat (apply put_none; [done|]); by apply put_if_none.
Qed.

(** ** xray *)

(** The server entry of an xray outbound *)
Definition xray_addressed (n : node) (o : amap) : Prop :=
  ∃ settings key fields, o !! "settings" = Some (AMap settings) ∧ key ∈ ["servers"; "vnext"] ∧
    settings !! key = Some (AList [AMap fields]) ∧
    fields !! "address" = Some (AStr (Node.Server n)) ∧ fields !! "port" = Some (AInt (Node.Port n)).
Lemma xray_server_addressed n fields :
  xray_server n fields !! "address" = Some (AStr (Node.Server n)) ∧
  xray_server n fields !! "port" = Some (AInt (Node.Port n)).
Proof. by unfold xray_server, put; split; [rewrite lookup_insert_eq|rewrite lookup_insert_ne, lookup_insert_eq]. Qed.
Lemma xray_entries n o : BuildXrayOutbound n = Ok o → xray_addressed n o ∧ o !! "tag" = Some (AStr "proxy").
Proof.
  unfold BuildXrayOutbound. destruct (IsValid n); [|done]. cbn [negb].
  destruct (xray_settings n) as [[proto settings]|] eqn:Hs; [|done]. intros [= <-]. split; [|done].
  assert (∃ key fields, key ∈ ["servers"; "vnext"] ∧ settings !! key = Some (AList [AMap (xray_server n fields)])) as (key & fields & Hk & Hl).
  { unfold xray_settings, servers, vnext in Hs. repeat case_match; try done; simplify_eq/=;
      first [by exists "servers"; eexists; split; [by constructor|reflexivity]
            |by exists "vnext"; eexists; split; [by constructor; constructor|reflexivity]]. }
  destruct (xray_server_addressed n fields). by exists settings, key, (xray_server n fields).
Qed.

(** ** The credentials *)

Lemma ss_ok n : is_ok (ss_outbound n) = negb (nonempty (extra_get n "plugin")) && nonempty (Node.Password n).
Proof. unfold ss_outbound. by destruct (nonempty (extra_get n "plugin")), (nonempty (Node.Password n)). Qed.
Lemma trojan_ok n : is_ok (trojan_outbound n) = nonempty (Node.Password n).
Proof. unfold trojan_outbound. by destruct (nonempty (Node.Password n)). Qed.
Lemma vmess_ok n : is_ok (vmess_outbound n) = nonempty (Node.UUID n).
Proof. unfold vmess_outbound. by destruct (nonempty (Node.UUID n)). Qed.
Lemma vless_ok n : is_ok (vless_outbound n) = nonempty (Node.UUID n).
Proof. unfold vless_outbound. by destruct (nonempty (Node.UUID n)). Qed.
Lemma hysteria2_ok n : is_ok (hysteria2_outbound n) = nonempty (Node.Password n).
Proof. unfold hysteria2_outbound. by destruct (nonempty (Node.Password n)). Qed.
Lemma tuic_ok n : is_ok (tuic_outbound n) = nonempty (Node.UUID n) && nonempty (Node.Password n).
Proof. unfold tuic_outbound. by destruct (nonempty (Node.UUID n)), (nonempty (Node.Password n)). Qed.
Lemma SupportsEngine_protocol n engine : SupportsEngine n engine = true →
  Node.Protocol n ∈ [ProtoSS; ProtoTrojan; ProtoVMess; ProtoVLESS; ProtoHysteria2; ProtoTUIC; ProtoSSR].
Proof.
  unfold SupportsEngine. case_match; [done|].
  repeat match goal with |- context [(Node.Protocol n =? ?p)%string] =>
    destruct (Node.Protocol n =? p)%string eqn:?;
    [match goal with E : (_ =? p)%string = true |- _ => apply String.eqb_eq in E; rewrite E; intros _; set_solver end|]
  end; done.
Qed.

End engines.
