(* ===== verification/Dial.v ===== *)
(** * Real dials: [internal/dialer/dialer.go]

    One probe of a node through a proxy engine: the binary, the port, the
    configuration of the engine, the request, and what is written into the
    node.  The answers of the system are inputs ([Answers]); the goroutines of
    [TestAll] write disjoint nodes, so their order does not matter. *)
From S2P Require Import Prelude GoStr GoFloat GoTime Model Base64 Ratelimit NetAddr.
From S2P Require Import NetUrl Links Clash Exporter Outbound.

(** ** The options: what [New] makes of them, beneath a directory for
    temporary files *)

Module Options.
Record t := mk {
  Bin : string;
  Engine : string;
  Concurrency : Z;
  Timeout : Duration;
  TestURL : string;
  DownloadBytes : Z;
  WorkDir : string;
  BasePort : Z;
}.
End Options.
Definition or_positive (v d : Z) : Z := if v <=? 0 then d else v.
Definition or_text (v d : string) : string := if (v =? "")%string then d else v.
Definition new_options (temp_dir : string) (o : Options.t) : Options.t :=
  Options.mk (Options.Bin o) (Options.Engine o) (or_positive (Options.Concurrency o) 4)
    (or_positive (Options.Timeout o) (18 * Second))
    (or_text (Options.TestURL o) "https://www.cloudflare.com/cdn-cgi/trace")
    (or_positive (Options.DownloadBytes o) 262144) (or_text (Options.WorkDir o) (temp_dir +:+ "/nodeharvest-dial"))
    (or_positive (Options.BasePort o) 19000).

(** ** The binary: [resolveBinary]; the texts of its errors leave out the
    quoted engine *)

(** [filepath.Base] on slash-separated paths *)
Definition Base (path : string) : string :=
  if (path =? "")%string then "."
  else
    let p := TrimRight path "/" in
    if (p =? "")%string then "/" else from_option snd p (CutLast p "/").

(** [os.Stat] succeeds, and [exec.LookPath] *)
Class Programs := {
  path_exists : string → bool;
  look_path : string → option string;
}.

Definition all_candidates : list (string * string) :=
  [("sing-box", "sing-box"); ("mihomo", "mihomo"); ("clash-meta", "mihomo"); ("xray", "xray");
   ("/usr/local/bin/sing-box", "sing-box"); ("/usr/bin/sing-box", "sing-box");
   ("/usr/local/bin/mihomo", "mihomo"); ("/usr/bin/mihomo", "mihomo"); ("/usr/local/bin/xray", "xray");
   ("/opt/sing-box/sing-box", "sing-box"); ("/opt/nodeharvest/bin/sing-box", "sing-box");
   ("/opt/nodeharvest/bin/mihomo", "mihomo"); ("/app/bin/sing-box", "sing-box"); ("/app/bin/mihomo", "mihomo")].
Definition candidates (engine : string) : list (string * string) :=
  if (engine =? "xray")%string then
    (λ p, (p, "xray")) <$> ["xray"; "/usr/local/bin/xray"; "/usr/bin/xray"; "/opt/nodeharvest/bin/xray"; "/app/bin/xray"]
  else if (engine =? "mihomo")%string then
    (λ p, (p, "mihomo")) <$> ["mihomo"; "clash-meta"; "/usr/local/bin/mihomo"; "/usr/bin/mihomo";
                              "/opt/nodeharvest/bin/mihomo"; "/app/bin/mihomo"]
  else if (engine =? "sing-box")%string then
    (λ p, (p, "sing-box")) <$> ["sing-box"; "/usr/local/bin/sing-box"; "/usr/bin/sing-box"; "/opt/sing-box/sing-box";
                                "/opt/nodeharvest/bin/sing-box"; "/app/bin/sing-box"]
  else all_candidates.

Section resolve.
Context `{Unicode} `{Programs}.

Fixpoint first_program (cs : list (string * string)) : option (string * string) :=
  match cs with
  | [] => None
  | (path, eng) :: cs =>
      match look_path path with
      | Some p => Some (p, eng)
      | None => if path_exists path then Some (path, eng) else first_program cs
      end
  end.
Definition engine_of_binary (bin : string) : string :=
  let base := ToLower (Base bin) in
  if Contains base "mihomo" || Contains base "clash-meta" then "mihomo"
  else if Contains base "xray" then "xray" else "sing-box".
Definition resolveBinary (bin engine : string) : result (string * string) :=
  let engine := ToLower (TrimSpace engine) in
  let engine := if (engine =? "auto")%string then "" else engine in
  if negb (bool_decide (engine ∈ [""; "sing-box"; "xray"; "mihomo"])) then Err (ErrMsg "unsupported dial engine")
  else if nonempty bin then
    if path_exists bin then Ok (bin, if (engine =? "")%string then engine_of_binary bin else engine)
    else Err (ErrMsg (firstNonEmpty [engine; "dial"] +:+ " binary not found at " +:+ bin))
  else
    match first_program (candidates engine) with
    | Some found => Ok found
    | None => Err (ErrMsg (firstNonEmpty [engine; "sing-box/mihomo/xray"] +:+ " binary not found"))
    end.
Definition AvailableFor (bin engine : string) : result (string * string) := resolveBinary bin engine.
Definition Available : result (string * string) := resolveBinary "" "auto".
End resolve.

(** ** [allocPort]; [free] says which ports can be listened on *)

Fixpoint alloc_loop (tries : nat) (base next : Z) (free : Z → bool) : option Z * Z :=
  match tries with
  | O => (None, next)
  | S tries =>
      let p := next in
      let next := if base + 5000 <? next + 1 then base else next + 1 in
      if free p then (Some p, next) else alloc_loop tries base next free
  end.
Definition allocPort (base next : Z) (free : Z → bool) (nano : Z) : Z * Z :=
  let '(p, next) := alloc_loop 200 base next free in (default (base + Z.rem nano 3000) p, next).

(** ** What the network and the system answer *)

(** [httpMeasurement] *)
Module Measurement.
Record t := mk { StatusCode : Z; HeaderMS : Z; TotalMS : Z; Bytes : Z; ThroughputBPS : Z }.
End Measurement.

(** What a response was like: its status, the body (as many bytes as there
    are), how long its parts took, and the error of reading it, if any *)
Inductive response :=
  | NoResponse (header : Duration) (err : string)
  | Response (header : Duration) (status length : Z) (body_time total : Duration) (err : option string).

(** What the system answers before the request: an error, or the text of what
    fails; [None] when the port of the engine opens in time *)
Module Answers.
Record t := mk {
  Start : Time;
  Port : Z;
  LogPath : string;
  ProbeDir : option string;
  Setup : option string;
  Reply : response;
  Log : option string;
}.
End Answers.

(** ** The configuration of the engine: [coreConfig] *)

Section dial.
Context `{Unicode} `{ClashCodec}.

Definition mihomo_config (proxy : amap) (port : Z) : amap :=
  {["mixed-port" := AInt port; "allow-lan" := ABool false; "mode" := AStr "rule"; "log-level" := AStr "error";
    "ipv6" := ABool true; "unified-delay" := ABool true; "proxies" := AList [AMap proxy];
    "proxy-groups" := AList [AMap {["name" := AStr "nodeharvest-probe"; "type" := AStr "select";
                                    "proxies" := AStrs ["nodeharvest-proxy"]]}];
    "rules" := AStrs ["MATCH,nodeharvest-probe"]]}.
Definition xray_config (outbound : amap) (port : Z) (logPath : string) : amap :=
  {["log" := AMap {["loglevel" := AStr "warning"; "error" := AStr logPath]};
    "inbounds" := AList [AMap {["listen" := AStr "127.0.0.1"; "port" := AInt port; "protocol" := AStr "socks";
                                "settings" := AMap {["auth" := AStr "noauth"; "udp" := ABool true]}]}];
    "outbounds" := AList [AMap outbound]]}.
Definition singbox_config (outbound : amap) (port : Z) (logPath : string) : amap :=
  {["log" := AMap {["level" := AStr "error"; "output" := AStr logPath]};
    "inbounds" := AList [AMap {["type" := AStr "socks"; "tag" := AStr "socks-in"; "listen" := AStr "127.0.0.1";
                                "listen_port" := AInt port]}];
    "outbounds" := AList [AMap outbound; AMap {["type" := AStr "direct"; "tag" := AStr "direct"]}];
    "route" := AMap {["final" := AStr "proxy"]}]}.
Definition encoded (text : option string) : result string :=
  match text with Some raw => Ok raw | None => Err (ErrMsg "unsupported value") end.
Definition coreConfig (engine : string) (n : node) (port : Z) (logPath : string) : result string :=
  if (engine =? "mihomo")%string then
    let! proxy := BuildClashProxy (Some n) "nodeharvest-proxy" in encoded (yaml_text (mihomo_config proxy port))
  else if (engine =? "xray")%string then
    let! outbound := BuildXrayOutbound n in encoded (json_object (xray_config outbound port logPath))
  else
    let! outbound := BuildOutbound n in encoded (json_object (singbox_config outbound port logPath)).

(** ** The request: [measureHTTP] *)

Definition measureHTTP (maxBytes : Z) (r : response) : Measurement.t * option string :=
  match r with
  | NoResponse header err => (Measurement.mk 0 (Milliseconds header) (Milliseconds header) 0 0, Some err)
  | Response header status length body_time total err =>
      let bytes := Z.min length maxBytes in
      let throughput :=
        if 0 <? bytes then wrap64 (bytes * Second) ÷ Z.max body_time 1 else 0 in
      (Measurement.mk status (Milliseconds header) (Milliseconds total) bytes throughput, err)
  end.

(** ** One probe: [testOne] *)

(** [replaceTag], [markCanceled], [appendCoreError] *)
Definition replaceTag (tags : list string) (remove add : string) : list string :=
  List.filter (λ t, negb (t =? remove)%string && negb (t =? add)%string) tags ++ [add].
Definition canceled (engine : string) (now : Time) : DialResult.t :=
  DialResult.zero <| DialResult.Error := "canceled" |> <| DialResult.Engine := engine |>
    <| DialResult.TestedAt := now |>.
Definition markCanceled (n : node) (engine : string) (now : Time) : node :=
  n <| Node.Dial := Some (canceled engine now) |> <| Node.Verified := false |>
    <| Node.Tags := replaceTag (Node.Tags n) "verified" "dial-fail" |>.
Definition log_tail (body : string) : string :=
  if 500 <? slen body then slice_from body (slen body - 500) else body.
Definition appendCoreError (res : DialResult.t) (log : option string) : DialResult.t :=
  if DialResult.OK res || (DialResult.Error res =? "")%string then res
  else match log with
       | None => res
       | Some body =>
           let message := TrimSpace (log_tail body) in
           if nonempty message && negb (Contains (DialResult.Error res) message)
           then res <| DialResult.Error := DialResult.Error res +:+ " | " +:+ message |> else res
       end.

Definition dial_error (res : DialResult.t) (err : string) : DialResult.t := res <| DialResult.Error := err |>.
Definition http_verdict (m : Measurement.t) (err : option string) (res : DialResult.t) : DialResult.t :=
  let res := res <| DialResult.LatencyMS := Measurement.HeaderMS m |> <| DialResult.HTTPMS := Measurement.TotalMS m |>
    <| DialResult.DownloadBytes := Measurement.Bytes m |>
    <| DialResult.ThroughputBPS := Measurement.ThroughputBPS m |> in
  match err with
  | Some e => dial_error res e
  | None =>
      let res := res <| DialResult.StatusCode := Measurement.StatusCode m |> in
      if (200 <=? Measurement.StatusCode m) && (Measurement.StatusCode m <? 400)
      then res <| DialResult.OK := true |>
      else dial_error res ("http " +:+ Itoa (Measurement.StatusCode m))
  end.
Definition reply_verdict (maxBytes : Z) (r : response) (res : DialResult.t) : DialResult.t :=
  let '(m, err) := measureHTTP maxBytes r in http_verdict m err res.
Definition error_text (e : error) : string := match e with ErrMsg m => m | _ => "" end.
Definition dial_result (testURL engine : string) (maxBytes : Z) (a : Answers.t) (n : node) : DialResult.t :=
  let res := DialResult.zero <| DialResult.Target := testURL |> <| DialResult.Engine := engine |>
    <| DialResult.TestedAt := Answers.Start a |> in
  if negb (SupportsEngine n engine) then dial_error res "unsupported protocol"
  else match Answers.ProbeDir a with
       | Some e => dial_error res ("create probe directory: " +:+ e)
       | None =>
           appendCoreError
             (match coreConfig engine n (Answers.Port a) (Answers.LogPath a) with
              | Err e => dial_error res (error_text e)
              | Ok _ =>
                  match Answers.Setup a with
                  | Some e => dial_error res e
                  | None => reply_verdict maxBytes (Answers.Reply a) res
                  end
              end) (Answers.Log a)
       end.
(** The deferred function that writes the node *)
Definition write_dial (res : DialResult.t) (n : node) : node :=
  let n := n <| Node.Dial := Some res |> <| Node.Verified := DialResult.OK res |> in
  if DialResult.OK res then
    let n := if 0 <? DialResult.LatencyMS res
             then n <| Node.Latency := wrap64 (DialResult.LatencyMS res * Millisecond) |> else n in
    n <| Node.Alive := true |> <| Node.Tags := replaceTag (Node.Tags n) "dial-fail" "verified" |>
  else n <| Node.Tags := replaceTag (Node.Tags n) "verified" "dial-fail" |>.
Definition testOne (testURL engine : string) (maxBytes : Z) (a : Answers.t) (n : node) : node :=
  write_dial (dial_result testURL engine maxBytes a n) n.

(** [TestAll]: each node with what its goroutine meets, a canceled context
    with the time it is seen, or a probe *)
Definition TestAll (opts : Options.t) (engine : string) (runs : list (Time + Answers.t)) (nodes : list node)
    : list node :=
  zip_with (λ run n, match run with
                     | inl now => markCanceled n engine now
                     | inr a => testOne (Options.TestURL opts) engine (Options.DownloadBytes opts) a n end) runs nodes.
End dial.

(** [Summary] *)
Definition dial_ok (n : node) : bool := match Node.Dial n with Some d => DialResult.OK d | None => false end.
Definition dial_skip (n : node) : bool := match Node.Dial n with Some _ => false | None => true end.
Definition dial_latency (n : node) : Z := match Node.Dial n with Some d => DialResult.LatencyMS d | None => 0 end.
Definition count_nodes (p : node → bool) (nodes : list node) : Z := Z.of_nat (length (List.filter p nodes)).
Definition dial_average (nodes : list node) : Z :=
  let ok := List.filter dial_ok nodes in
  if 0 <? Z.of_nat (length ok)
  then wrap64 (foldr Z.add 0 (dial_latency <$> ok)) ÷ Z.of_nat (length ok) else 0.
Definition Summary (nodes : list node) : string :=
  "dial ok=" +:+ Itoa (count_nodes dial_ok nodes)
  +:+ " fail=" +:+ Itoa (count_nodes (λ n, negb (dial_ok n) && negb (dial_skip n)) nodes)
  +:+ " skip=" +:+ Itoa (count_nodes dial_skip nodes) +:+ " avg_ms=" +:+ Itoa (dial_average nodes).
