(* ===== verification/DialJob.v ===== *)
(** * The dial job: the part of [internal/service/service.go] on real dials

    Which nodes are dialled, with which engines, in which batches, and how the
    checks of the engines become the verdict on a node.  The options of a job
    come from JSON, so their numbers are [float64]. *)
From S2P Require Import Prelude GoStr GoFloat GoTime Model Base64 Ratelimit NetAddr.
From S2P Require Import Config Filter Scoring NodeStore NetUrl Links Clash Exporter Outbound Dial.

(** [qualityWeights], [boolScore], [hasTag] *)
Definition qualityWeights (cfg : config) : Weights.t :=
  let q := Config.QualityV2 cfg in
  Weights.mk (QualityV2Config.Latency q) (QualityV2Config.Success q) (QualityV2Config.Stability q)
    (QualityV2Config.TLS q) (QualityV2Config.HTTP q) (QualityV2Config.Throughput q).
Definition boolScore (value : bool) : float64 := if value then f_of_Z 1 else f_zero.
Definition hasTag (tags : list string) (want : string) : bool := bool_decide (want ∈ tags).

(** [configuredDialEngines]: engines with their binaries *)
Definition configuredDialEngines (cfg : config) : list (string * string) :=
  let d := Config.Dial cfg in
  if negb (DialConfig.Engine d =? "both")%string then
    let bin := if (DialConfig.Engine d =? "mihomo")%string && nonempty (DialConfig.MihomoBin d)
               then DialConfig.MihomoBin d else DialConfig.Bin d in
    [(DialConfig.Engine d, bin)]
  else [("sing-box", DialConfig.Bin d); ("mihomo", DialConfig.MihomoBin d)].

(** [combineDialChecks] *)
Definition is_mihomo (check : option DialResult.t) : bool :=
  match check with Some c => (DialResult.Engine c =? "mihomo")%string | None => false end.
Definition later (t : Time) (check : option DialResult.t) : Time :=
  match check with Some c => if After (DialResult.TestedAt c) t then DialResult.TestedAt c else t | None => t end.
Definition combineDialChecks (checks : list (option DialResult.t)) : option DialResult.t :=
  authoritative ← last checks;
  let authoritative := default authoritative (List.find is_mihomo checks) in
  result ← authoritative;
  Some (if bool_decide (length checks = 1%nat) then result <| DialResult.Checks := [] |>
        else result <| DialResult.Engine := "both" |> <| DialResult.Checks := checks |>
               <| DialResult.TestedAt := fold_left later checks (DialResult.TestedAt result) |>).

(** [setDialTag] *)
Definition setDialTag (tags : list string) (verified : bool) : list string :=
  let '(add, remove) := if verified then ("verified", "dial-fail") else ("dial-fail", "verified") in
  List.filter (λ t, negb (t =? add)%string && negb (t =? remove)%string) tags ++ [add].

(** [verifiedAfter], [publishSeenAfter], [verifiedEngine] *)
Definition hours_before (now : Time) (hours fallback : Z) : Time :=
  let hours := if hours <=? 0 then fallback else hours in now - wrap64 (hours * Hour).
Definition verifiedAfter (cfg : config) (now : Time) : Time :=
  hours_before now (DialConfig.VerifiedTTLHours (Config.Dial cfg)) 6.
Definition publishSeenAfter (cfg : config) (now : Time) : Time :=
  hours_before now (PublishConfig.MaxNodeAgeHours (Config.Publish cfg)) 24.

(** The options of [doDial] *)
Module Plan.
Record t := mk { Max : Z; AllHQ : bool; Batch : Z; OnlyUnverified : bool }.
End Plan.

Section dial_job.
Context `{Unicode}.

Definition verifiedEngine (cfg : config) : string :=
  let engine := ToLower (TrimSpace (DialConfig.Engine (Config.Dial cfg))) in
  if (engine =? "auto")%string then "" else engine.

(** ** The candidates: [pickDialCandidates] *)

(** The rank of a candidate *)
Definition rank_latency (n : node) : Z :=
  let ms := Milliseconds (Node.Latency n) in
  match Node.Quality n with
  | Some q => if ms <=? 0 then Quality.AvgLatencyMS q else ms
  | None => ms
  end.
Definition dial_rank (n : node) : float64 :=
  let ms := rank_latency n in
  let sc := Node.Score n in
  let sc := if (0 <? ms) && (ms <? 8) then f_sub sc (f_of_Z 25)
            else if (15 <=? ms) && (ms <=? 800) then f_add sc (f_of_Z 8)
            else if 1500 <? ms then f_sub sc (f_of_Z 10) else sc in
  let sc := if Node.Verified n then f_add sc (f_of_Z 5) else sc in
  let sc := if bool_decide (Node.Protocol n ∈ [ProtoSS; ProtoTrojan; ProtoHysteria2]) then f_add sc (f_of_Z 3) else sc in
  if hasTag (Node.Tags n) "dial-fail" then f_sub sc (f_of_Z 5) else sc.
Definition rank_less (a b : node) : bool :=
  if negb (f_eq (dial_rank a) (dial_rank b)) then f_lt (dial_rank b) (dial_rank a)
  else Node.Latency a <? Node.Latency b.

(** A node is left out when the engine cannot dial it, or when it has a recent
    result and only the others are wanted. *)
Definition recently_dialled (engine : string) (retestAfter : Time) (n : node) : bool :=
  match Node.Dial n with
  | Some d => HasEngine (Some d) engine && negb (IsZero (DialResult.TestedAt d))
              && After (DialResult.TestedAt d) retestAfter
  | None => false
  end.
Definition dialable (engine : string) (retestAfter : Time) (onlyUnverified : bool) (n : node) : bool :=
  SupportsEngine n engine && negb (onlyUnverified && recently_dialled engine retestAfter n).

Definition pool_limit (maxDial : Z) (allHQ : bool) : Z :=
  if negb allHQ && (0 <? maxDial) then Z.min (Z.max (maxDial * 25) 200) 8000 else 0.

(** The two passes of the limited mode, over the ranked nodes: the first takes
    few nodes of a country and protocol and two of a server, the second fills
    up with at most three of a server. *)
Definition spread_key (n : node) : string :=
  let cc := ToUpper (Node.Country n) in
  (if (cc =? "")%string then "XX" else cc) +:+ "|" +:+ Node.Protocol n.
Definition uses (m : gmap string Z) (k : string) : Z := default 0 (m !! k).
Definition use (k : string) (m : gmap string Z) : gmap string Z := <[k := uses m k + 1]> m.
Fixpoint spread (maxDial perKey : Z) (usedKey usedServer : gmap string Z) (out ranked : list node)
    : gmap string Z * list node :=
  match ranked with
  | [] => (usedServer, out)
  | n :: ranked =>
      if maxDial <=? Z.of_nat (length out) then (usedServer, out)
      else if perKey <=? uses usedKey (spread_key n) then spread maxDial perKey usedKey usedServer out ranked
      else if 2 <=? uses usedServer (Node.Server n) then spread maxDial perKey usedKey usedServer out ranked
      else spread maxDial perKey (use (spread_key n) usedKey) (use (Node.Server n) usedServer) (out ++ [n]) ranked
  end.
Fixpoint fill (maxDial : Z) (seen : gset string) (usedServer : gmap string Z) (out ranked : list node) : list node :=
  match ranked with
  | [] => out
  | n :: ranked =>
      if maxDial <=? Z.of_nat (length out) then out
      else if bool_decide (Node.ID n ∈ seen) then fill maxDial seen usedServer out ranked
      else if 3 <=? uses usedServer (Node.Server n) then fill maxDial seen usedServer out ranked
      else fill maxDial seen (use (Node.Server n) usedServer) (out ++ [n]) ranked
  end.
Definition per_key (maxDial : Z) : Z := Z.min (Z.max (maxDial ÷ 8 + 2) 3) 12.
Definition diversified (maxDial : Z) (ranked : list node) : list node :=
  let '(usedServer, out) := spread maxDial (per_key maxDial) ∅ ∅ [] ranked in
  if Z.of_nat (length out) <? maxDial then fill maxDial (list_to_set (Node.ID <$> out)) usedServer out ranked
  else out.

Context `{Crypto} `{MapRange}.

Definition candidate_pool (cfg : config) (s : store) (limit : Z) : list node :=
  let min := FilterConfig.MinScore (Config.Filter cfg) in
  let minScore := if f_lt f_zero min then min else f_zero in
  let candidates := ListNodes (NodeFilter.zero <| NodeFilter.AliveOnly := true |>
    <| NodeFilter.HighQuality := f_le (f_of_Z 70) minScore || f_le minScore f_zero |>
    <| NodeFilter.MinScore := minScore |> <| NodeFilter.Limit := limit |>) s in
  match candidates with
  | [] => ListNodes (NodeFilter.zero <| NodeFilter.AliveOnly := true |> <| NodeFilter.Limit := limit |>) s
  | _ => candidates
  end.
Definition pickDialCandidates (cfg : config) (s : store) (now : Time) (maxDial : Z) (onlyUnverified allHQ : bool)
    : list node :=
  let engine := DialConfig.Engine (Config.Dial cfg) in
  let ranked := stable_sort rank_less
    (List.filter (dialable engine (verifiedAfter cfg now) onlyUnverified)
      (candidate_pool cfg s (pool_limit maxDial allHQ))) in
  if allHQ || (maxDial <=? 0) then ranked else diversified maxDial ranked.

(** ** The plan of a job *)

Definition opt_num (opts : gmap string json) (k : string) : option Z :=
  match opts !! k with Some (JNum x) => Some (f_to_int64 x) | _ => None end.
Definition opt_true (opts : gmap string json) (k : string) : bool :=
  match opts !! k with Some (JBool b) => b | _ => false end.
Definition positive (o : option Z) (d : Z) : Z := match o with Some v => if 0 <? v then v else d | None => d end.
Definition dial_plan (cfg : config) (opts : gmap string json) : Plan.t :=
  let d := Config.Dial cfg in
  let maxDial := default (DialConfig.MaxNodes d) (opt_num opts "max_dial") in
  let all_hq := opt_true opts "all_hq" in
  let batch := if DialConfig.BatchSize d <=? 0 then 200 else DialConfig.BatchSize d in
  Plan.mk (if all_hq then 0 else maxDial) (all_hq || (maxDial <=? 0)) (positive (opt_num opts "batch_size") batch)
    (negb (opt_true opts "force")).

(** The slices of the rounds *)
Definition rounds (total batchSize : nat) : nat := (total + batchSize - 1) / batchSize.
Definition batches {A} (batchSize : nat) (l : list A) : list (list A) :=
  (λ r, take batchSize (drop (r * batchSize)%nat l)) <$> seq 0 (rounds (length l) batchSize).

(** ** One round *)

Context `{ClashCodec} `{MathLog2}.

(** One engine, under a context that stays open: the nodes it writes, and its
    checks after those before.  (When the context ends, the job returns its
    error before any verdict.) *)
Definition check_of (n : node) : list (option DialResult.t) :=
  match Node.Dial n with Some d => [Some (d <| DialResult.Checks := [] |>)] | None => [] end.
(** The options of an engine's dialer, which has its program already *)
Definition dial_opts (cfg : config) (e : string) : Options.t :=
  let d := Config.Dial cfg in
  new_options "" (Options.mk "" e (DialConfig.Concurrency d) (wrap64 (DialConfig.TimeoutSec d * Second))
    (DialConfig.TestURL d) (DialConfig.DownloadBytes d) ("data/dial-tmp/" +:+ e) 0).
Definition run_engine (cfg : config) (e : string * list Answers.t)
    (s : list node * list (list (option DialResult.t))) : list node * list (list (option DialResult.t)) :=
  let nodes := Dial.TestAll (dial_opts cfg e.1) e.1 (inr <$> e.2) s.1 in
  (nodes, zip_with (λ c n, c ++ check_of n) s.2 nodes).

(** The verdict on a node *)
Definition set_verdict (checks : list (option DialResult.t)) (n : node) : node :=
  let d := combineDialChecks checks in
  let ok := match d with Some r => DialResult.OK r | None => false end in
  n <| Node.Dial := d |> <| Node.Verified := ok |> <| Node.Tags := setDialTag (Node.Tags n) ok |>.
Definition set_quality (cfg : config) (n : node) : node :=
  match Node.Dial n with
  | None => n
  | Some d =>
      let q := default (Quality.zero <| Quality.SuccessRate := boolScore (DialResult.OK d) |>) (Node.Quality n) in
      let q := q <| Quality.HTTPMS := DialResult.HTTPMS d |> <| Quality.ThroughputBPS := DialResult.ThroughputBPS d |> in
      ApplyV2 (n <| Node.Quality := Some q |>) (Some (qualityWeights cfg))
  end.
Definition dial_round (cfg : config) (engines : list (string * list Answers.t)) (batch : list node)
    : list node :=
  let '(nodes, checks) := fold_left (λ s e, run_engine cfg e s) engines (batch, (λ _, []) <$> batch) in
  set_quality cfg <$> zip_with set_verdict checks nodes.
End dial_job.
