(* ===== verification/DialProofs.v ===== *)
(** * What the dial job promises

    Every node that is wanted is dialled once, the limited mode spreads the
    nodes over servers, an engine is given a configuration that addresses the
    node, and the verdict of a round is the one that publication asks for. *)
From S2P Require Import Prelude Sql GoStr GoFloat GoTime Model Base64 Ratelimit NetAddr.
From S2P Require Import Config Filter Scoring NodeStore NetUrl Links Clash Exporter Outbound Dial DialJob.

(** ** Batches *)

Lemma batches_spec {A} b (l : list A) : (0 < b)%nat →
  mjoin (batches b l) = l ∧ Forall (λ x, 0 < length x ≤ b)%nat (batches b l).
Proof.
  intros Hb. unfold batches.
  assert (Hdm := Nat.div_mod_eq (length l + b - 1) b).
  assert (Hlt := Nat.mod_upper_bound (length l + b - 1) b ltac:(lia)).
  set (k := rounds (length l) b) in *.
  assert (Hk : (length l ≤ k * b < length l + b)%nat ∨ length l = 0%nat ∧ k = 0%nat).
  { unfold k, rounds. destruct (length l) as [|n]; [right|left]; nia. }
  split.
  - assert (Hgen : ∀ m, mjoin ((λ r, take b (drop (r * b) l)) <$> seq 0 m) = take (m * b) l).
    { induction m as [|m IH]; [done|]. rewrite seq_S, fmap_app, join_app, IH. cbn [Nat.add fmap list_fmap mjoin list_join].
      rewrite app_nil_r, take_take_drop. f_equal. lia. }
    rewrite Hgen. apply take_ge. lia.
  - apply Forall_forall. intros x Hx. apply list_elem_of_fmap in Hx as (r & -> & Hr%elem_of_seq).
    rewrite length_take, length_drop. nia.
Qed.

(** ** The limited mode *)

Definition on_server (sv : string) (n : node) : bool := (Node.Server n =? sv)%string.
Definition counts_servers (m : gmap string Z) (out : list node) : Prop :=
  ∀ sv, uses m sv = count_nodes (on_server sv) out.

Lemma count_nodes_app p l1 l2 : count_nodes p (l1 ++ l2) = count_nodes p l1 + count_nodes p l2.
Proof. unfold count_nodes. rewrite List.filter_app, length_app. lia. Qed.
Lemma uses_use k m k' : uses (use k m) k' = uses m k' + (if decide (k = k') then 1 else 0).
Proof. unfold uses, use. destruct (decide (k = k')) as [->|]; [rewrite lookup_insert_eq|rewrite lookup_insert_ne by done]; simpl; unfold uses; lia. Qed.
Lemma counts_servers_use m out n :
  counts_servers m out → counts_servers (use (Node.Server n) m) (out ++ [n]).
Proof.
  intros Hm sv. rewrite uses_use, count_nodes_app, Hm. f_equal. unfold count_nodes, on_server. simpl.
  destruct (decide (Node.Server n = sv)) as [<-|Hne]; [by rewrite String.eqb_refl|].
  by rewrite (proj2 (String.eqb_neq _ _) Hne).
Qed.
Lemma count_nodes_nonneg p l : 0 ≤ count_nodes p l.
Proof. unfold count_nodes. lia. Qed.
Lemma count_nodes_sel p out sel : count_nodes p out ≤ count_nodes p (out ++ sel).
Proof. rewrite count_nodes_app. pose proof (count_nodes_nonneg p sel). lia. Qed.

(** At most [k] nodes of a server *)
Definition spread_over (k : Z) (out : list node) : Prop := ∀ sv, count_nodes (on_server sv) out ≤ k.
Lemma spread_over_use k m out n :
  counts_servers m out → spread_over k out → uses m (Node.Server n) < k → spread_over k (out ++ [n]).
Proof.
  intros Hm Ho Hk sv. rewrite <-(counts_servers_use m out n Hm sv), uses_use.
  specialize (Ho sv). rewrite <-(Hm sv) in Ho. destruct (decide (Node.Server n = sv)) as [<-|]; lia.
Qed.

Section limited.
Context `{Unicode}.

Lemma spread_spec maxDial perKey ranked : ∀ uk m out m' out',
  spread maxDial perKey uk m out ranked = (m', out') →
  counts_servers m out → spread_over 2 out → Z.of_nat (length out) ≤ maxDial →
  counts_servers m' out' ∧ spread_over 2 out' ∧ Z.of_nat (length out') ≤ maxDial ∧
  ∃ sel, out' = out ++ sel ∧ sublist sel ranked.
Proof.
  induction ranked as [|n ranked IH]; intros uk m out m' out' Hs Hc Ho Hlen; cbn [spread] in Hs.
  - injection Hs as <- <-. do 3 (split; [done|]). exists []. by rewrite app_nil_r.
  - destruct (maxDial <=? _) eqn:Em.
    { injection Hs as <- <-. do 3 (split; [done|]). exists []. rewrite app_nil_r. split; [done|apply sublist_nil_l]. }
    bsplit.
    destruct (perKey <=? _) eqn:Ek.
    { apply IH in Hs as (?&?&?&sel&->&Hsub); [|done..]. do 3 (split; [done|]). exists sel. split; [done|by constructor]. }
    destruct (2 <=? _) eqn:E2.
    { apply IH in Hs as (?&?&?&sel&->&Hsub); [|done..]. do 3 (split; [done|]). exists sel. split; [done|by constructor]. }
    bsplit. apply IH in Hs as (?&?&?&sel&->&Hsub).
    + do 3 (split; [done|]). exists (n :: sel). rewrite <-app_assoc. split; [done|by constructor].
    + by apply counts_servers_use.
    + by eapply spread_over_use.
    + rewrite length_app. simpl. lia.
Qed.

Lemma fill_spec maxDial seen ranked : ∀ m out,
  counts_servers m out → spread_over 3 out → Z.of_nat (length out) ≤ maxDial →
  let out' := fill maxDial seen m out ranked in
  spread_over 3 out' ∧ Z.of_nat (length out') ≤ maxDial ∧
  (∃ sel, out' = out ++ sel ∧ sublist sel ranked ∧ Forall (λ n, Node.ID n ∉ seen) sel) ∧
  (Z.of_nat (length out') < maxDial →
   ∀ n, n ∈ ranked → Node.ID n ∈ seen ∨ n ∈ out' ∨ count_nodes (on_server (Node.Server n)) out' = 3).
Proof.
  induction ranked as [|n ranked IH]; intros m out Hc Ho Hlen; cbn [fill]; cbv zeta.
  - do 2 (split; [done|]). split; [exists []; by rewrite app_nil_r|]. intros _ n Hn. by apply not_elem_of_nil in Hn.
  - destruct (maxDial <=? _) eqn:Em.
    { bsplit. do 2 (split; [done|]). split; [|lia]. exists []. rewrite app_nil_r.
      split; [done|split; [apply sublist_nil_l|constructor]]. }
    bsplit. destruct (bool_decide _) eqn:Es.
    { bsplit. destruct (IH m out Hc Ho Hlen) as (?&?&(sel&Heq&?&?)&Hmax). do 2 (split; [done|]).
      split; [exists sel; split; [done|split; [by constructor|done]]|].
      intros Hlt n' [->|Hn]%elem_of_cons; [by left|by apply Hmax]. }
    destruct (3 <=? _) eqn:E3.
    { bsplit. destruct (IH m out Hc Ho Hlen) as (?&?&(sel&Heq&?&?)&Hmax). do 2 (split; [done|]).
      split; [exists sel; split; [done|split; [by constructor|done]]|].
      intros Hlt n' [->|Hn]%elem_of_cons; [|by apply Hmax]. right; right. rewrite Hc in E3.
      assert (spread_over 3 (fill maxDial seen m out ranked)) as Hsp by done. specialize (Hsp (Node.Server n)).
      pose proof (count_nodes_sel (on_server (Node.Server n)) out sel) as Hs. rewrite <-Heq in Hs. lia. }
    bsplit. destruct (IH (use (Node.Server n) m) (out ++ [n])) as (?&?&(sel&Heq&?&?)&Hmax).
    + by apply counts_servers_use.
    + by eapply spread_over_use.
    + rewrite length_app. simpl. lia.
    + do 2 (split; [done|]). split.
      * exists (n :: sel). rewrite Heq, <-app_assoc. split; [done|split; constructor; done].
      * intros Hlt n' [->|Hn]%elem_of_cons; [|by apply Hmax]. right; left. rewrite Heq.
        apply elem_of_app; left. apply elem_of_app; right. by apply elem_of_cons; left.
Qed.

(** The limited mode takes distinct nodes of the ranking, as many as are
    wanted when servers allow, at most three of a server. *)
Lemma diversified_spec maxDial ranked : 0 < maxDial → NoDup (Node.ID <$> ranked) →
  let out := diversified maxDial ranked in
  NoDup (Node.ID <$> out) ∧ (∀ n, n ∈ out → n ∈ ranked) ∧ Z.of_nat (length out) ≤ maxDial ∧ spread_over 3 out ∧
  (Z.of_nat (length out) < maxDial →
   ∀ n, n ∈ ranked → n ∈ out ∨ count_nodes (on_server (Node.Server n)) out = 3).
Proof.
  intros Hpos Hnd. unfold diversified.
  destruct (spread maxDial (per_key maxDial) ∅ ∅ [] ranked) as [m out] eqn:Hs.
  destruct (spread_spec _ _ _ _ _ _ _ _ Hs) as (Hc & Ho & Hlen & sel & -> & Hsub).
  { intros sv. unfold uses. by rewrite lookup_empty. }
  { intros sv. unfold count_nodes. simpl. lia. }
  { simpl. lia. }
  simpl in *.
  assert (Hndsel : NoDup (Node.ID <$> sel)) by (eapply sublist_NoDup; [exact Hnd|by apply fmap_sublist]).
  cbv zeta. destruct (_ <? _) eqn:El; bsplit.
  - destruct (fill_spec maxDial (list_to_set (Node.ID <$> sel)) ranked m sel Hc) as (Ho3 & Hlen' & (sel2&Heq&Hsub2&Hfresh)&Hmax).
    { intros sv. specialize (Ho sv). lia. }
    { done. }
    rewrite Heq in *. split; [|split; [|split; [done|split; [done|]]]].
    + rewrite fmap_app. apply NoDup_app. split; [done|]. split.
      * intros id Hid Hid2. apply list_elem_of_fmap in Hid2 as (n & -> & Hn).
        rewrite Forall_forall in Hfresh. apply (Hfresh n Hn). by apply elem_of_list_to_set.
      * eapply sublist_NoDup; [exact Hnd|by apply fmap_sublist].
    + intros n [Hn|Hn]%elem_of_app; by eapply elem_of_sublist.
    + intros Hlt n Hn. destruct (Hmax Hlt n Hn) as [Hseen|[?|?]]; [|by left|by right].
      left. apply elem_of_list_to_set, list_elem_of_fmap in Hseen as (n' & Hid & Hn').
      assert (n = n') as ->; [|apply elem_of_app; by left].
      assert (n' ∈ ranked) as Hr by (by eapply elem_of_sublist).
      apply list_elem_of_lookup in Hn as [i Hi]. apply list_elem_of_lookup in Hr as [i' Hi'].
      assert (i = i') as ->; [|congruence].
      eapply NoDup_lookup; [exact Hnd|by rewrite list_lookup_fmap, Hi|]. by rewrite list_lookup_fmap, Hi'; simpl; rewrite Hid.
  - split; [done|]. split; [intros n Hn; by eapply elem_of_sublist|]. split; [done|].
    split; [intros sv; specialize (Ho sv); lia|]. lia.
Qed.
End limited.

(** ** The candidates *)

Section pick.
Context `{Unicode} `{Crypto} `{MapRange}.

Lemma listed_node f s n : n ∈ ListNodes f s →
  ∃ m, m ∈ rows (Store.nodes s) ∧ Match f m = true ∧ n = cloneNode m.
Proof.
  unfold ListNodes. intros Hn%truncate_sublist. rewrite stable_sort_perm in Hn.
  apply list_elem_of_fmap in Hn as (m & -> & Hm%elem_of_list_filter_bool). destruct Hm as [Hm ?].
  exists m. by rewrite <-range_nodes_perm.
Qed.
Lemma ListNodes_ids f s : store_ok s → NoDup (Node.ID <$> ListNodes f s).
Proof.
  intros [Hnodes%nodes_ok_keyed _]. unfold ListNodes.
  destruct (truncate_prefix (NodeFilter.Limit f) (stable_sort list_less
    (cloneNode <$> List.filter (Match f) (range_nodes (Store.nodes s))))) as [k ->].
  eapply sublist_NoDup; [|apply fmap_sublist, sublist_take].
  rewrite stable_sort_perm, <-list_fmap_compose.
  assert (Hperm : (Node.ID ∘ cloneNode) <$> List.filter (Match f) (range_nodes (Store.nodes s)) ≡ₚ
    Node.ID <$> List.filter (Match f) (rows (Store.nodes s))).
  { rewrite (filter_perm _ _ _ (range_nodes_perm _)). apply Permutation_refl', list_fmap_ext. intros _ n _. apply ID_cloneNode. }
  rewrite Hperm. apply NoDup_fmap_2_strong.
  - intros x y Hx Hy Heq. apply elem_of_list_filter_bool in Hx as [Hx _], Hy as [Hy _].
    by eapply rows_NoDup_id.
  - apply NoDup_ListNoDup, List.NoDup_filter, NoDup_ListNoDup. by eapply rows_NoDup.
Qed.

Lemma candidate_pool_ids cfg s limit : store_ok s → NoDup (Node.ID <$> candidate_pool cfg s limit).
Proof. intros Hs. unfold candidate_pool. cbv zeta. destruct (ListNodes _ s) eqn:E; [|rewrite <-E]; by apply ListNodes_ids. Qed.
Lemma candidate_pool_alive cfg s limit n : n ∈ candidate_pool cfg s limit → Node.Alive n = true.
Proof.
  unfold candidate_pool. cbv zeta. intros Hn.
  assert (∃ f, NodeFilter.AliveOnly f = true ∧ n ∈ ListNodes f s) as (f & Hf & (m & _ & Hm & ->)%listed_node).
  { destruct (ListNodes _ s) eqn:E; [|rewrite <-E in Hn]; eexists; by split; [|exact Hn]. }
  unfold Match in Hm. bsplit. rewrite Hf in *. by destruct m.
Qed.

(** The nodes that are wanted, in the order of their rank *)
Definition ranked_candidates (cfg : config) (s : store) (now : Time) (maxDial : Z) (onlyUnverified : bool) : list node :=
  stable_sort rank_less
    (List.filter (dialable (DialConfig.Engine (Config.Dial cfg)) (verifiedAfter cfg now) onlyUnverified)
      (candidate_pool cfg s (pool_limit maxDial false))).

(** C14: What the limited mode dials: distinct nodes that are alive, that the
    engine supports and that, unless forced, have no recent result; as many as
    are wanted and at most three of a server; a wanted node is left out only
    when there are enough others or three of its server. *)
Theorem pick_spread cfg s now maxDial onlyUnverified :
  store_ok s → 0 < maxDial →
  let engine := DialConfig.Engine (Config.Dial cfg) in
  let out := pickDialCandidates cfg s now maxDial onlyUnverified false in
  NoDup (Node.ID <$> out) ∧ Z.of_nat (length out) ≤ maxDial ∧
  (∀ n, n ∈ out → Node.Alive n = true ∧ SupportsEngine n engine = true ∧
     (onlyUnverified = true → recently_dialled engine (verifiedAfter cfg now) n = false)) ∧
  (∀ sv, count_nodes (on_server sv) out ≤ 3) ∧
  (Z.of_nat (length out) < maxDial →
   ∀ n, n ∈ ranked_candidates cfg s now maxDial onlyUnverified →
     n ∈ out ∨ count_nodes (on_server (Node.Server n)) out = 3).
Proof.
  intros Hs Hpos. cbv zeta. unfold pickDialCandidates. rewrite (proj2 (Z.leb_gt maxDial 0)) by lia. cbn [orb].
  change (stable_sort _ _) with (ranked_candidates cfg s now maxDial onlyUnverified).
  destruct (diversified_spec maxDial (ranked_candidates cfg s now maxDial onlyUnverified) Hpos)
    as (Hnd & Hin & Hlen & Hsp & Hmax).
  { unfold ranked_candidates. rewrite stable_sort_perm.
    eapply sublist_NoDup; [by apply (candidate_pool_ids cfg s (pool_limit maxDial false))|].
    apply fmap_sublist. induction (candidate_pool _ _ _) as [|n l IH]; cbn [List.filter]; [constructor|].
    destruct (dialable _ _ _ n); by constructor. }
  split; [done|]. split; [done|]. split; [|by split].
  intros n Hn%Hin. unfold ranked_candidates in Hn. rewrite stable_sort_perm in Hn.
  apply elem_of_list_filter_bool in Hn as [Hn Hd]. unfold dialable in Hd. bsplit.
  split; [by eapply candidate_pool_alive|]. split; [done|]. intros ->. done.
Qed.
End pick.
