(* ===== verification/DialVerdict.v ===== *)
(** * The verdict of a dial round

    What a probe means for a node: the result of an engine, what the next
    engine is given, and the verdict that publication reads. *)
From S2P Require Import Prelude Sql GoStr GoFloat GoTime Model Base64 Ratelimit NetAddr.
From S2P Require Import Config Filter Scoring NodeStore NetUrl Links Clash Exporter Outbound Dial DialJob.

(** ** One probe *)

Section verdict.
Context `{Unicode} `{ClashCodec} `{MathLog2}.

(** What a probe has to meet for the node to be usable through the engine *)
Definition answered (r : response) : Prop :=
  ∃ header status length body total, r = Response header status length body total None ∧ 200 ≤ status < 400.
Definition reached (engine : string) (a : Answers.t) (n : node) : Prop :=
  SupportsEngine n engine = true ∧ Answers.ProbeDir a = None ∧
  is_ok (coreConfig engine n (Answers.Port a) (Answers.LogPath a)) = true ∧
  Answers.Setup a = None ∧ answered (Answers.Reply a).

Lemma appendCoreError_OK res log : DialResult.OK (appendCoreError res log) = DialResult.OK res.
Proof. unfold appendCoreError. repeat case_match; by destruct res. Qed.
Lemma appendCoreError_Engine res log : DialResult.Engine (appendCoreError res log) = DialResult.Engine res.
Proof. unfold appendCoreError. repeat case_match; by destruct res. Qed.
Lemma appendCoreError_TestedAt res log : DialResult.TestedAt (appendCoreError res log) = DialResult.TestedAt res.
Proof. unfold appendCoreError. repeat case_match; by destruct res. Qed.

Lemma http_verdict_OK maxBytes r res : DialResult.OK res = false →
  DialResult.OK (reply_verdict maxBytes r res) = true ↔ answered r.
Proof.
  intros Hf. unfold answered, reply_verdict. destruct r as [header err|header status length body total [err|]]; simpl.
  - rewrite Hf. split; [done|by intros (?&?&?&?&?&?&?)].
  - rewrite Hf. split; [done|by intros (?&?&?&?&?&?&?)].
  - destruct ((200 <=? status) && (status <? 400)) eqn:E; simpl; bsplit.
    + split; [|done]. intros _. do 5 eexists. split; [done|lia].
    + rewrite Hf. split; [done|]. intros (?&?&?&?&?&[= -> -> -> -> ->]&?). lia.
Qed.
Lemma http_verdict_static maxBytes r res :
  DialResult.Engine (reply_verdict maxBytes r res) = DialResult.Engine res ∧
  DialResult.TestedAt (reply_verdict maxBytes r res) = DialResult.TestedAt res.
Proof. unfold reply_verdict. destruct r as [|? ? ? ? ? []]; simpl; [by destruct res..|]. case_match; by destruct res. Qed.

(** The result of a probe says whether the probe succeeded, with which engine
    and when. *)
Lemma dial_result_spec testURL engine maxBytes a n :
  let d := dial_result testURL engine maxBytes a n in
  (DialResult.OK d = true ↔ reached engine a n) ∧
  DialResult.Engine d = engine ∧ DialResult.TestedAt d = Answers.Start a.
Proof.
  unfold dial_result, reached. cbv zeta.
  destruct (SupportsEngine n engine); simpl; [|by repeat split; intros; destruct_and?].
  destruct (Answers.ProbeDir a); simpl; [by repeat split; intros; destruct_and?|].
  rewrite appendCoreError_OK, appendCoreError_Engine, appendCoreError_TestedAt.
  destruct (coreConfig _ _ _ _); simpl; [|by repeat split; intros; destruct_and?].
  destruct (Answers.Setup a); simpl; [by repeat split; intros; destruct_and?|].
  match goal with |- context [DialResult.Engine (reply_verdict ?m ?r ?res)] =>
    rewrite (http_verdict_OK m r res) by done; destruct (http_verdict_static m r res) as [-> ->] end.
  split; [|done]. split; [by repeat split|by intros (_&_&_&_&?)].
Qed.

(** Writing the result of one engine does not change what the next one is
    given: the configurations read the link of a node only. *)
Lemma write_dial_link {A} (f : node → A) res n :
  (∀ d v l a t, f (n <| Node.Dial := d |> <| Node.Verified := v |> <| Node.Latency := l |> <| Node.Alive := a |>
    <| Node.Tags := t |>) = f n) →
  f (write_dial res n) = f n.
Proof.
  intros Hf. unfold write_dial. destruct (DialResult.OK res), (0 <? DialResult.LatencyMS res).
  - apply (Hf _ _ _ true).
  - specialize (Hf (Some res) true (Node.Latency n) true (replaceTag (Node.Tags n) "dial-fail" "verified")).
    destruct n; exact Hf.
  - specialize (Hf (Some res) false (Node.Latency n) (Node.Alive n) (replaceTag (Node.Tags n) "verified" "dial-fail")).
    destruct n; exact Hf.
  - specialize (Hf (Some res) false (Node.Latency n) (Node.Alive n) (replaceTag (Node.Tags n) "verified" "dial-fail")).
    destruct n; exact Hf.
Qed.

(** The nodes of one link *)
Definition same_link (n n' : node) : Prop :=
  Node.Protocol n' = Node.Protocol n ∧ Node.Name n' = Node.Name n ∧ Node.Server n' = Node.Server n ∧
  Node.Port n' = Node.Port n ∧ Node.UUID n' = Node.UUID n ∧ Node.Password n' = Node.Password n ∧
  Node.Method n' = Node.Method n ∧ Node.Network n' = Node.Network n ∧ Node.TLS n' = Node.TLS n ∧
  Node.SNI n' = Node.SNI n ∧ Node.Path n' = Node.Path n ∧ Node.Host n' = Node.Host n ∧ Node.Flow n' = Node.Flow n ∧
  Node.Security n' = Node.Security n ∧ Node.ALPN n' = Node.ALPN n ∧ Node.Extra n' = Node.Extra n.
Lemma write_dial_same_link res n : same_link n (write_dial res n).
Proof. repeat split; by apply write_dial_link. Qed.

Ltac unfold_head f := lazymatch f with ?g _ => unfold_head g | _ => unfold f end.
Ltac lift_link f :=
  match goal with
  | _ : Node.Port ?n' = Node.Port ?n |- _ =>
      assert (f n' = f n) by
        (unfold_head f; repeat match goal with Hf : ?g n' = ?g n |- _ => rewrite !Hf end; reflexivity)
  end.
Lemma BuildClashProxy_link n n' name : same_link n n' → BuildClashProxy (Some n') name = BuildClashProxy (Some n) name.
Proof.
  intros Hl. unfold same_link in Hl. destruct_and!.
  lift_link extra_get. lift_link SkipTLSVerify. lift_link IsValid. lift_link is_proto. lift_link applyTLS.
  lift_link applyReality. lift_link transport_network. lift_link ws_opts. lift_link grpc_opts. lift_link http_opts.
  lift_link h2_opts. lift_link upgrade_opts. lift_link xhttp_opts.
  assert (∀ o, mergeOriginalTransport o n' = mergeOriginalTransport o n) as Hm
    by (intros o; unfold mergeOriginalTransport; match goal with Hf : extra_get n' = _ |- _ => by rewrite Hf end).
  assert (applyTransport n' = applyTransport n).
  { unfold applyTransport. repeat match goal with Hf : ?g n' = ?g n |- _ => rewrite !Hf end. by rewrite !Hm. }
  lift_link applyIntegerExtras. lift_link applyBooleanExtras. lift_link copy_extras. lift_link reality_incomplete.
  lift_link vmess_proxy. lift_link vless_proxy. lift_link trojan_proxy. lift_link ss_proxy. lift_link ssr_proxy.
  lift_link hysteria2_proxy. lift_link tuic_user. lift_link tuic_proxy.
  unfold BuildClashProxy. repeat match goal with Hf : ?g n' = ?g n |- _ => rewrite !Hf end. reflexivity.
Qed.
Lemma reached_write engine a res n : reached engine a (write_dial res n) ↔ reached engine a n.
Proof.
  assert (SupportsEngine (write_dial res n) engine = SupportsEngine n engine) as Hs
    by (apply (write_dial_link (λ n, SupportsEngine n engine)); intros; by destruct n).
  assert (∀ port log, coreConfig engine (write_dial res n) port log = coreConfig engine n port log) as Hc.
  { intros. unfold coreConfig. rewrite (write_dial_link BuildOutbound) by (intros; by destruct n).
    rewrite (write_dial_link BuildXrayOutbound) by (intros; by destruct n).
    by rewrite (BuildClashProxy_link n) by apply write_dial_same_link. }
  unfold reached. by rewrite Hs, Hc.
Qed.

(** [dialer.New] resolves the configured engine: it keeps a name, and makes
    one of the three programs of "auto". *)
Definition resolved (configured engine : string) : Prop :=
  if (configured =? "auto")%string then engine ∈ ["sing-box"; "mihomo"; "xray"] else engine = configured.
Lemma first_program_engine `{Programs} (P : string → Prop) cs path engine :
  Forall (λ c, P c.2) cs → first_program cs = Some (path, engine) → P engine.
Proof. induction 1 as [|[p e] cs Hp _ IH]; simpl; [done|]. repeat case_match; try (by intros [= <- <-]); done. Qed.
Lemma resolveBinary_resolved `{Programs} bin configured path engine :
  configured ∈ ["auto"; "sing-box"; "xray"; "mihomo"] →
  resolveBinary bin configured = Ok (path, engine) → resolved configured engine.
Proof.
  intros Hc. assert (∀ b, engine_of_binary b ∈ ["sing-box"; "mihomo"; "xray"]) as Hb
    by (intros b; unfold engine_of_binary; repeat case_match; set_solver).
  assert (∀ e, e ∈ [""; "sing-box"; "xray"; "mihomo"] → first_program (candidates e) = Some (path, engine) →
    resolved (if (e =? "")%string then "auto" else e) engine) as Hf.
  { intros e He Hf. repeat (apply elem_of_cons in He as [->|He]); try (by apply elem_of_nil in He);
      (eapply (first_program_engine (resolved _)); [|exact Hf]); vm_compute candidates;
      repeat constructor; unfold resolved; simpl; (done || set_solver). }
  assert (ToLower (TrimSpace configured) = configured) as Hl by set_solver.
  unfold resolveBinary. rewrite Hl.
  repeat (apply elem_of_cons in Hc as [->|Hc]); try (by apply elem_of_nil in Hc); cbn -[first_program candidates];
    (destruct (nonempty bin);
     [destruct (path_exists bin); [|done]; intros [= <- <-]; try done; apply Hb
     |destruct (first_program _) as [[p e]|] eqn:E; [|done]; intros [= <- <-];
      first [apply (Hf "" ltac:(set_solver) E)|apply (Hf "sing-box" ltac:(set_solver) E)
            |apply (Hf "xray" ltac:(set_solver) E)|apply (Hf "mihomo" ltac:(set_solver) E)]]).
Qed.

(** One engine, one node *)
Lemma run_engine_lookup cfg e nodes checks i n c a :
  nodes !! i = Some n → checks !! i = Some c → e.2 !! i = Some a →
  let o := dial_opts cfg e.1 in
  let r := dial_result (Options.TestURL o) e.1 (Options.DownloadBytes o) a n in
  (run_engine cfg e (nodes, checks)).1 !! i = Some (write_dial r n) ∧
  (run_engine cfg e (nodes, checks)).2 !! i = Some (c ++ [Some (r <| DialResult.Checks := [] |>)]).
Proof.
  intros Hn Hc Ha. unfold run_engine, Dial.TestAll. cbn [fst snd].
  assert (∀ d, Node.Dial (write_dial d n) = Some d) as Hd by (intros d; unfold write_dial; repeat case_match; by destruct n).
  match goal with |- ?l !! i = _ ∧ _ => assert (l !! i = Some (testOne (Options.TestURL (dial_opts cfg e.1)) e.1
    (Options.DownloadBytes (dial_opts cfg e.1)) a n)) as Hl end.
  { rewrite lookup_zip_with, list_lookup_fmap, Ha, Hn. done. }
  split; [exact Hl|]. rewrite lookup_zip_with, Hc, Hl. cbn [mbind option_bind]. do 2 f_equal.
  unfold check_of, testOne. by rewrite Hd.
Qed.

Lemma setDialTag_spec tags v :
  ("verified" ∈ setDialTag tags v ↔ v = true) ∧ ("dial-fail" ∈ setDialTag tags v ↔ v = false).
Proof.
  unfold setDialTag. destruct v;
    rewrite !elem_of_app, !elem_of_list_filter_bool, !elem_of_cons, !elem_of_nil; simpl; split; split; try done;
    try (by intros _; right; left); by intros [[_ ?]|[?|?]].
Qed.
Lemma combine_single c : combineDialChecks [Some c] = Some (c <| DialResult.Checks := [] |>).
Proof. unfold combineDialChecks. cbn [last List.find]. by destruct (is_mihomo (Some c)). Qed.
Lemma combine_both c1 c2 :
  DialResult.Engine c1 = "sing-box" → DialResult.Engine c2 = "mihomo" →
  ∃ t, combineDialChecks [Some c1; Some c2] = Some (c2 <| DialResult.Engine := "both" |>
         <| DialResult.Checks := [Some c1; Some c2] |> <| DialResult.TestedAt := t |>) ∧ DialResult.TestedAt c2 ≤ t.
Proof.
  intros He1 He2. exists (later (later (DialResult.TestedAt c2) (Some c1)) (Some c2)). split.
  - unfold combineDialChecks. cbn [last List.find is_mihomo]. by rewrite He1, He2.
  - unfold later, After. destruct (_ <? DialResult.TestedAt c1) eqn:E1, (_ <? DialResult.TestedAt c2) eqn:E2; bsplit; lia.
Qed.

(** What a round makes of the checks of a node *)
Definition judged (cfg : config) (checks : list (option DialResult.t)) (n : node) : node :=
  set_quality cfg (set_verdict checks n).
Lemma dial_round_lookup cfg engines batch i n checks :
  let s := fold_left (λ s e, run_engine cfg e s) engines (batch, (λ _, []) <$> batch) in
  s.1 !! i = Some n → s.2 !! i = Some checks → dial_round cfg engines batch !! i = Some (judged cfg checks n).
Proof.
  cbv zeta. intros Hn Hc. unfold dial_round. destruct (fold_left _ _ _) as [nodes cs]. simpl in Hn, Hc.
  by rewrite list_lookup_fmap, lookup_zip_with, Hc, Hn.
Qed.
Lemma judged_spec cfg checks n d : combineDialChecks checks = Some d →
  let n' := judged cfg checks n in
  Node.Dial n' = Some d ∧ Node.Verified n' = DialResult.OK d ∧
  ("verified" ∈ Node.Tags n' ↔ DialResult.OK d = true) ∧ ("dial-fail" ∈ Node.Tags n' ↔ DialResult.OK d = false).
Proof.
  intros Hd. cbv zeta. unfold judged.
  assert (∀ m, Node.Dial (set_quality cfg m) = Node.Dial m ∧ Node.Verified (set_quality cfg m) = Node.Verified m ∧
    Node.Tags (set_quality cfg m) = Node.Tags m) as Hq.
  { intros m. unfold set_quality, ApplyV2, v2_write. destruct (Node.Dial m) eqn:E; [|done].
    repeat case_match; destruct m; repeat split; done. }
  destruct (Hq (set_verdict checks n)) as (-> & -> & ->). unfold set_verdict. rewrite Hd.
  pose proof (setDialTag_spec (Node.Tags n) (DialResult.OK d)) as Ht. by destruct n.
Qed.

(** ** A round *)

(** The engines of a round, with an answer for every node *)
Definition round_engines (cfg : config) (batch : list node) (engines : list (string * list Answers.t)) : Prop :=
  Forall2 (λ c e, resolved c.1 e.1 ∧ length e.2 = length batch) (configuredDialEngines cfg) engines.

(** The verdict of a round on a node that the engine [e] answered last *)
Definition verdict_ok (cfg : config) (e : string) (a : Answers.t) (n n' : node) : Prop :=
  ∃ d, Node.Dial n' = Some d ∧ Node.Verified n' = DialResult.OK d ∧
    ("verified" ∈ Node.Tags n' ↔ DialResult.OK d = true) ∧ ("dial-fail" ∈ Node.Tags n' ↔ DialResult.OK d = false) ∧
    (DialResult.OK d = true ↔ reached e a n) ∧
    PassedEngine (Some d) (verifiedEngine cfg) = DialResult.OK d ∧
    HasEngine (Some d) (DialConfig.Engine (Config.Dial cfg)) = true ∧ Answers.Start a ≤ DialResult.TestedAt d.

Lemma verdict_single cfg configured bin e answers batch i n a :
  DialConfig.Engine (Config.Dial cfg) = configured →
  configuredDialEngines cfg = [(configured, bin)] → configured ∈ ["auto"; "sing-box"; "xray"; "mihomo"] →
  resolved configured e → batch !! i = Some n → answers !! i = Some a →
  ∃ n', dial_round cfg [(e, answers)] batch !! i = Some n' ∧ verdict_ok cfg e a n n'.
Proof.
  intros Hcfg Hone Hc He Hn Ha.
  destruct (run_engine_lookup cfg (e, answers) batch ((λ _, []) <$> batch) i n [] a) as [Hn' Hc'];
    [done|by rewrite list_lookup_fmap, Hn|done|].
  eexists. split; [by apply (dial_round_lookup cfg [(e, answers)] batch i)|].
  cbn [fst snd app] in *. set (r := dial_result _ _ _ a n) in *. assert (Hr := dial_result_spec (Options.TestURL (dial_opts cfg e)) e
    (Options.DownloadBytes (dial_opts cfg e)) a n). fold r in Hr. destruct Hr as (Hok & Heng & Hat). clearbody r.
  pose proof (judged_spec cfg [Some (r <| DialResult.Checks := [] |>)] (write_dial r n) _ (combine_single _))
    as (Hd & Hv & Ht).
  eexists. split; [exact Hd|]. split; [exact Hv|]. destruct Ht as [Ht1 Ht2]. split; [exact Ht1|]. split; [exact Ht2|].
  split; [by destruct r|]. rewrite <-Hat. clear -He Hc Heng Hcfg.
  unfold verifiedEngine. rewrite Hcfg. unfold resolved in He. clear Hcfg.
  destruct r as [ok tgt lat st http db tb err engine t checks]. simpl in *. subst.
  repeat (apply elem_of_cons in Hc as [->|Hc]); try (by apply elem_of_nil in Hc); simpl in He; subst;
    (split; [|split; [|done]]); vm_compute; by destruct ok.
Qed.

Lemma verdict_both cfg as1 as2 batch i n a1 a2 :
  DialConfig.Engine (Config.Dial cfg) = "both" → batch !! i = Some n → as1 !! i = Some a1 → as2 !! i = Some a2 →
  ∃ n', dial_round cfg [("sing-box", as1); ("mihomo", as2)] batch !! i = Some n' ∧ verdict_ok cfg "mihomo" a2 n n'.
Proof.
  intros Hcfg Hn Ha1 Ha2.
  destruct (run_engine_lookup cfg ("sing-box", as1) batch ((λ _, []) <$> batch) i n [] a1) as [Hn1 Hc1];
    [done|by rewrite list_lookup_fmap, Hn|done|].
  set (r1 := dial_result _ _ _ a1 n) in *. cbn [fst snd] in *.
  destruct (run_engine cfg ("sing-box", as1) (batch, (λ _, []) <$> batch)) as [nodes1 checks1] eqn:E1.
  destruct (run_engine_lookup cfg ("mihomo", as2) nodes1 checks1 i _ _ a2 Hn1 Hc1 Ha2) as [Hn2 Hc2].
  set (r2 := dial_result _ _ _ a2 _) in *. cbn [fst snd app] in *.
  eexists. split.
  { apply dial_round_lookup; cbn [fold_left]; rewrite E1; [exact Hn2|exact Hc2]. }
  assert (Hr1 := dial_result_spec (Options.TestURL (dial_opts cfg "sing-box")) "sing-box"
    (Options.DownloadBytes (dial_opts cfg "sing-box")) a1 n). fold r1 in Hr1. destruct Hr1 as (_ & Heng1 & _).
  assert (Hr2 := dial_result_spec (Options.TestURL (dial_opts cfg "mihomo")) "mihomo"
    (Options.DownloadBytes (dial_opts cfg "mihomo")) a2 (write_dial r1 n)). fold r2 in Hr2.
  destruct Hr2 as (Hok2 & Heng2 & Hat2). rewrite reached_write in Hok2. clearbody r2. clearbody r1.
  destruct (combine_both (r1 <| DialResult.Checks := [] |>) (r2 <| DialResult.Checks := [] |>)) as (t & Hcomb & Ht);
    [by destruct r1|by destruct r2|].
  pose proof (judged_spec cfg _ (write_dial r2 (write_dial r1 n)) _ Hcomb) as (Hd & Hv & Ht1 & Ht2).
  eexists. split; [exact Hd|]. split; [exact Hv|]. split; [exact Ht1|]. split; [exact Ht2|].
  split; [by destruct r2|]. rewrite <-Hat2. clear -Heng1 Heng2 Hcfg Ht.
  unfold verifiedEngine. rewrite Hcfg.
  destruct r1 as [ok1 ? ? ? ? ? ? ? ? ? ?], r2 as [ok2 ? ? ? ? ? ? ? ? ? ?]. simpl in Heng1, Heng2, Ht. subst.
  split; [vm_compute; by destruct ok2|]. split; [by vm_compute|exact Ht].
Qed.

(** A round does not change what identifies a node. *)
Lemma run_engine_ident cfg e s i n' : (run_engine cfg e s).1 !! i = Some n' →
  ∃ n, s.1 !! i = Some n ∧ ident n' = ident n.
Proof.
  unfold run_engine, Dial.TestAll. cbn [fst]. rewrite lookup_zip_with. intros Hl.
  apply bind_Some in Hl as (r & Hr & Hl). apply bind_Some in Hl as (n & Hn & [= <-]).
  exists n. split; [done|]. rewrite list_lookup_fmap in Hr. apply fmap_Some in Hr as (a & _ & ->).
  unfold testOne. by apply write_dial_link.
Qed.
Lemma run_engines_ident cfg engines s i n' : (fold_left (λ s e, run_engine cfg e s) engines s).1 !! i = Some n' →
  ∃ n, s.1 !! i = Some n ∧ ident n' = ident n.
Proof.
  revert s. induction engines as [|e engines IH]; intros s; [by eexists|]. cbn [fold_left]. intros (m & Hm & ->)%IH.
  destruct (run_engine_ident _ _ _ _ _ Hm) as (n & Hn & Hi). by exists n.
Qed.
Lemma judged_ident cfg checks n : ident (judged cfg checks n) = ident n.
Proof.
  unfold judged, set_quality, set_verdict, ApplyV2, v2_write. destruct n. repeat case_match; done.
Qed.
Lemma dial_round_ident cfg engines batch i n' : dial_round cfg engines batch !! i = Some n' →
  ∃ n, batch !! i = Some n ∧ ident n' = ident n.
Proof.
  unfold dial_round. destruct (fold_left _ _ _) as [nodes checks] eqn:E.
  rewrite list_lookup_fmap, lookup_zip_with. intros (m & Hm & ->)%fmap_Some.
  apply bind_Some in Hm as (c & _ & Hm). apply bind_Some in Hm as (n1 & Hn1 & [= <-]).
  destruct (run_engines_ident cfg engines (batch, (λ _, []) <$> batch) i n1) as (n & Hn & Hi); [by rewrite E|].
  exists n. split; [done|]. rewrite <-Hi. apply (judged_ident cfg c n1).
Qed.

(** Every node of a round is judged by the last engine. *)
Lemma round_judged cfg engines batch i n :
  DialConfig.Engine (Config.Dial cfg) ∈ ["auto"; "sing-box"; "xray"; "mihomo"; "both"] →
  round_engines cfg batch engines → batch !! i = Some n →
  ∃ n' e a, dial_round cfg engines batch !! i = Some n' ∧ last engines = Some e ∧ e.2 !! i = Some a ∧
    (DialConfig.Engine (Config.Dial cfg) = "both" → e.1 = "mihomo") ∧ verdict_ok cfg e.1 a n n'.
Proof.
  intros Hc Heng Hn. unfold round_engines in Heng.
  assert (∀ (l : list Answers.t), length l = length batch → ∃ a, l !! i = Some a) as Hl.
  { intros l Hl. apply lookup_lt_is_Some. rewrite Hl. by eapply lookup_lt_Some. }
  unfold configuredDialEngines in Heng. destruct (DialConfig.Engine (Config.Dial cfg) =? "both")%string eqn:E; simpl in Heng.
  - apply String.eqb_eq in E.
    inversion Heng as [|? [e1 as1] ? ? [Hr1 Hl1] Heng2]; subst. inversion Heng2 as [|? [e2 as2] ? ? [Hr2 Hl2] Heng3]; subst.
    inversion Heng3; subst. simpl in *. unfold resolved in Hr1, Hr2. simpl in Hr1, Hr2. subst.
    destruct (Hl _ Hl1) as [a1 Ha1], (Hl _ Hl2) as [a2 Ha2].
    destruct (verdict_both cfg as1 as2 batch i n a1 a2) as (n' & Hr & Hok); [done..|]. by exists n', ("mihomo", as2), a2.
  - apply String.eqb_neq in E.
    inversion Heng as [|? [e1 as1] ? ? [Hr1 Hl1] Heng2]; subst. inversion Heng2; subst. simpl in *.
    destruct (Hl _ Hl1) as [a1 Ha1].
    edestruct (verdict_single cfg (DialConfig.Engine (Config.Dial cfg))) as (n' & Hr & Hok);
      [done|by unfold configuredDialEngines; rewrite (proj2 (String.eqb_neq _ _) E)|set_solver|done..|].
    by exists n', (e1, as1), a1.
Qed.

(** C13: What a round of the dial job decides about a node, with the engine of
    the configuration or with both: the node is verified when the probe of the
    authoritative engine, the only one or mihomo, reached the test URL, its
    tag and its result for publication say the same, and until the result is
    older than the retest time the node is not picked again. *)
Theorem round_verdict cfg engines batch i n :
  DialConfig.Engine (Config.Dial cfg) ∈ ["auto"; "sing-box"; "xray"; "mihomo"; "both"] →
  round_engines cfg batch engines → batch !! i = Some n →
  ∃ n' e a, dial_round cfg engines batch !! i = Some n' ∧ last engines = Some e ∧ e.2 !! i = Some a ∧
    (DialConfig.Engine (Config.Dial cfg) = "both" → e.1 = "mihomo") ∧
    (Node.Verified n' = true ↔ reached e.1 a n) ∧
    ("verified" ∈ Node.Tags n' ↔ reached e.1 a n) ∧ ("dial-fail" ∈ Node.Tags n' ↔ ¬ reached e.1 a n) ∧
    (PassedEngine (Node.Dial n') (verifiedEngine cfg) = true ↔ reached e.1 a n) ∧
    (∀ retestAfter, retestAfter < Answers.Start a → zero_time < Answers.Start a →
     recently_dialled (DialConfig.Engine (Config.Dial cfg)) retestAfter n' = true).
Proof.
  intros Hc Heng Hn.
  destruct (round_judged cfg engines batch i n Hc Heng Hn)
    as (n' & e & a & Hr & He & Ha & Hb & d & Hd & Hv & Ht1 & Ht2 & Hok & Hp & Hh & Hat).
  exists n', e, a. repeat (split; [assumption|]). rewrite Hv, Hd, Hp, Ht1, Ht2.
  do 2 (split; [done|]). split; [by rewrite <-Hok, not_true_iff_false|]. split; [done|].
  intros retest Hlt Hz. unfold recently_dialled. rewrite Hd, Hh. unfold After, IsZero, zero_time in *.
  rewrite (proj2 (Z.ltb_lt _ _)), (proj2 (Z.eqb_neq _ _)) by lia. done.
Qed.
End verdict.
