(* ===== verification/Fetch.v ===== *)
(** * Fetching subscriptions: [internal/fetcher/fetcher.go]

    The answers of the network are inputs: what the server of a source says to
    each attempt, and what the context does while an attempt waits for the
    next.  The workers of [FetchAll] only decide in which order the documents
    arrive. *)
From S2P Require Import Prelude GoStr GoTime Config.

(** [Document] *)
Module Document.
Record t := mk {
  Source : Source.t;
  Body : string;
  Err : option error;
  Latency : Duration;
  Bytes : Z;
  StatusCode : Z;
  Attempts : Z;
}.
#[export] Instance eta : Eta t := λ d,
  mk (Source d) (Body d) (Err d) (Latency d) (Bytes d) (StatusCode d) (Attempts d).
Definition of_source (src : Source.t) : t := mk src "" None 0 0 0 0.
End Document.
Export (hints) Document.

(** What a request meets: an error before there is a response, or the status,
    the announced length and the whole body, with the error that ends its
    reading, if any *)
Inductive fetched :=
  | Unsent (err : error)
  | Received (status contentLength : Z) (body : string) (broken : option error).

(** An attempt: the response, the time since the start, and how the wait for
    the next one is interrupted, if it is *)
Module Attempt.
Record t := mk { Reply : fetched; Since : Duration; Interrupted : option error }.
End Attempt.

Section fetch.
Context `{Unicode}.

Definition looksLikeHTMLError (body : string) : bool :=
  let sample := ToLower body in
  let sample := if 512 <? slen sample then slice_to sample 512 else sample in
  Contains sample "<html" || Contains sample "<!doctype html" || Contains sample "<title>404"
  || Contains sample "repository not found".

Definition retryable (status : Z) (err : option error) : bool :=
  match err with
  | None => false
  | Some _ => (status =? 0) || bool_decide (status ∈ [408; 425; 429; 500; 502; 503; 504])
  end.

(** [fetchAttempt]; [io.LimitReader] gives nothing when the limit has
    overflown. *)
Definition max_bytes (src : Source.t) : Z :=
  if Source.MaxBytes src <=? 0 then 33554432 else Source.MaxBytes src.
Definition limited (body : string) (n : Z) : string := slice_to body (Z.max n 0).
Definition fetchAttempt (src : Source.t) (r : fetched) : Document.t :=
  let doc := Document.of_source src in
  match r with
  | Unsent e => doc <| Document.Err := Some e |>
  | Received status contentLength body broken =>
      let doc := doc <| Document.StatusCode := status |> in
      if (status <? 200) || (300 <=? status)
      then doc <| Document.Err := Some (ErrMsg ("http " +:+ Itoa status)) |>
      else
        let maxBytes := max_bytes src in
        if maxBytes <? contentLength then
          doc <| Document.Err := Some (ErrMsg ("response too large: " +:+ Itoa contentLength +:+ " > "
                                                 +:+ Itoa maxBytes +:+ " bytes")) |>
        else
          let b := limited body (wrap64 (maxBytes + 1)) in
          match broken with
          | Some e => doc <| Document.Err := Some e |>
          | None =>
              if maxBytes <? slen b
              then doc <| Document.Err := Some (ErrMsg ("response exceeds " +:+ Itoa maxBytes +:+ " bytes")) |>
              else
                let doc := doc <| Document.Body := b |> <| Document.Bytes := slen b |> in
                if looksLikeHTMLError b then doc <| Document.Err := Some (ErrMsg "html error page") |> else doc
          end
  end.

(** [FetchOne]: [more] attempts may follow. *)
Definition stamp (attempt : Z) (a : Attempt.t) (doc : Document.t) : Document.t :=
  doc <| Document.Attempts := attempt |> <| Document.Latency := Attempt.Since a |>.
Fixpoint fetch_loop (src : Source.t) (net : Z → Attempt.t) (attempt : Z) (more : nat) : Document.t :=
  let a := net attempt in
  let doc := stamp attempt a (fetchAttempt src (Attempt.Reply a)) in
  if negb (retryable (Document.StatusCode doc) (Document.Err doc)) then doc
  else
    match more with
    | O => doc
    | S more =>
        match Attempt.Interrupted a with
        | Some e => doc <| Document.Err := Some e |>
        | None => fetch_loop src net (attempt + 1) more
        end
    end.
Definition FetchOne (src : Source.t) (net : Z → Attempt.t) : Document.t := fetch_loop src net 1 2.

(** [FetchAll]: the context ends the sending after [sent] sources; the
    documents arrive in some order. *)
Definition doc_less (a b : Document.t) : bool :=
  let sa := Document.Source a in let sb := Document.Source b in
  if negb (Source.Priority sa =? Source.Priority sb) then Source.Priority sb <? Source.Priority sa
  else String.ltb (Source.Name sa) (Source.Name sb).
Definition fetched_docs (net : Source.t → Z → Attempt.t) (sources : list Source.t) : list Document.t :=
  (λ s, FetchOne s (net s)) <$> sources.
Definition FetchAll (net : Source.t → Z → Attempt.t) (sent : nat) (arrive : list Document.t → list Document.t)
    (sources : list Source.t) : list Document.t :=
  stable_sort doc_less (arrive (fetched_docs net (take sent sources))).

(** ** What fetching promises *)

Lemma fetchAttempt_source src r : Document.Source (fetchAttempt src r) = src.
Proof. unfold fetchAttempt. repeat case_match; by try destruct r. Qed.
Lemma fetchAttempt_ok src r : Document.Err (fetchAttempt src r) = None →
  ∃ status len body, r = Received status len body None ∧ 200 ≤ status < 300 ∧ len ≤ max_bytes src ∧
    Document.StatusCode (fetchAttempt src r) = status ∧
    Document.Body (fetchAttempt src r) = limited body (wrap64 (max_bytes src + 1)) ∧
    slen (Document.Body (fetchAttempt src r)) ≤ max_bytes src ∧
    Document.Bytes (fetchAttempt src r) = slen (Document.Body (fetchAttempt src r)) ∧
    looksLikeHTMLError (Document.Body (fetchAttempt src r)) = false.
Proof.
  unfold fetchAttempt. destruct r as [e|status len body [e|]]; cbn zeta; [done|repeat case_match; done|].
  destruct ((status <? 200) || (300 <=? status)) eqn:E1; [done|].
  destruct (max_bytes src <? len) eqn:E2; [done|]. destruct (max_bytes src <? slen _) eqn:E3; [done|].
  destruct (looksLikeHTMLError _) eqn:E4; [done|]. intros _. bsplit.
  exists status, len, body. simpl. repeat split; try done; lia.
Qed.

(** The document of one attempt *)
Definition tried (src : Source.t) (net : Z → Attempt.t) (i : Z) : Document.t :=
  fetchAttempt src (Attempt.Reply (net i)).
Definition again (src : Source.t) (net : Z → Attempt.t) (i : Z) : bool :=
  retryable (Document.StatusCode (tried src net i)) (Document.Err (tried src net i)).

Lemma fetch_loop_spec src net attempt more :
  let d := fetch_loop src net attempt more in
  let k := Document.Attempts d in
  attempt ≤ k ≤ attempt + Z.of_nat more ∧ Document.Source d = src ∧
  (∀ i, attempt ≤ i < k → again src net i = true ∧ Attempt.Interrupted (net i) = None) ∧
  Document.Body d = Document.Body (tried src net k) ∧ Document.Bytes d = Document.Bytes (tried src net k) ∧
  Document.StatusCode d = Document.StatusCode (tried src net k) ∧ Document.Latency d = Attempt.Since (net k) ∧
  (Document.Err d = Document.Err (tried src net k) ∧ (again src net k = false ∨ k = attempt + Z.of_nat more) ∨
   k < attempt + Z.of_nat more ∧ again src net k = true ∧
   Document.Err d = Attempt.Interrupted (net k) ∧ Attempt.Interrupted (net k) ≠ None).
Proof.
  assert (Hst : ∀ i, let d := stamp i (net i) (tried src net i) in
    Document.Attempts d = i ∧ Document.Source d = src ∧ Document.Body d = Document.Body (tried src net i) ∧
    Document.Bytes d = Document.Bytes (tried src net i) ∧ Document.StatusCode d = Document.StatusCode (tried src net i) ∧
    Document.Latency d = Attempt.Since (net i) ∧ Document.Err d = Document.Err (tried src net i)).
  { intros i. pose proof (fetchAttempt_source src (Attempt.Reply (net i))) as Hs. fold (tried src net i) in Hs.
    unfold stamp. by destruct (tried src net i). }
  revert attempt. induction more as [|more IH]; intros attempt; cbn [fetch_loop]; cbv zeta;
    fold (tried src net attempt); destruct (Hst attempt) as (Hk & Hs & Hb & Hn & Hc & Hl & He);
    rewrite Hc, He; fold (again src net attempt).
  - destruct (negb _) eqn:E; rewrite Hk, Hs, Hb, Hn, Hc, Hl, He; (repeat split; try lia); left; (split; [done|right; lia]).
  - destruct (again src net attempt) eqn:Ha; cbn [negb].
    + destruct (Attempt.Interrupted (net attempt)) as [e|] eqn:Hi.
      * destruct (stamp _ _ _) eqn:Est. simpl in *. subst. repeat split; try lia; try done.
        right. repeat split; try done; try lia; by rewrite Hi.
      * destruct (IH (attempt + 1)) as (Hk' & Hs' & Hall & Hrest). split; [lia|]. split; [done|]. split.
        { intros i Hi'. destruct (decide (i = attempt)) as [->|]; [done|]. apply Hall. lia. }
        replace (attempt + Z.of_nat (S more)) with (attempt + 1 + Z.of_nat more) by lia. exact Hrest.
    + rewrite Hk, Hs, Hb, Hn, Hc, Hl, He. repeat split; try lia. left. by split; [|left].
Qed.

Lemma FetchOne_source src net : Document.Source (FetchOne src net) = src.
Proof. apply (fetch_loop_spec src net 1 2). Qed.

(** What fetching a source comes to: one to three attempts, each but the
    last one failed in a way that is worth a retry and waited undisturbed; the
    document is the last attempt's, with its error or that of the interrupted
    wait; without an error it is the text of a response of the 200s within the
    limit of the source, and no error page. *)
Theorem fetch_exact src net :
  let d := FetchOne src net in let k := Document.Attempts d in
  1 ≤ k ≤ 3 ∧ Document.Source d = src ∧
  (∀ i, 1 ≤ i < k → again src net i = true ∧ Attempt.Interrupted (net i) = None) ∧
  (again src net k = true → k < 3 → Document.Err d = Attempt.Interrupted (net k) ∧ Document.Err d ≠ None) ∧
  (again src net k = false ∨ k = 3 → Document.Err d = Document.Err (tried src net k)) ∧
  (Document.Err d = None →
     slen (Document.Body d) ≤ max_bytes src ∧ Document.Bytes d = slen (Document.Body d) ∧
     looksLikeHTMLError (Document.Body d) = false ∧
     ∃ status len body, Attempt.Reply (net k) = Received status len body None ∧ 200 ≤ status < 300 ∧
       Document.StatusCode d = status ∧ Document.Body d = limited body (wrap64 (max_bytes src + 1))).
Proof.
  cbv zeta. unfold FetchOne. destruct (fetch_loop_spec src net 1 2) as (Hk & Hs & Hall & Hb & Hn & Hc & _ & He).
  set (d := fetch_loop _ _ _ _) in *. set (k := Document.Attempts d) in *.
  split; [lia|]. do 2 (split; [done|]).
  destruct He as [[He Hor]|(Hlt & Ha & He & Hne)].
  - split; [intros Ha Hlt; destruct Hor as [?|?]; [congruence|lia]|]. split; [done|].
    intros Hnone. rewrite He in Hnone. destruct (fetchAttempt_ok _ _ Hnone) as (st & len & body & Hr & Hst & _ & Hsc & Hbody & Hle & Hbytes & Hh).
    rewrite Hb, Hn, Hc. fold (tried src net k) in *. repeat split; try done. by exists st, len, body.
  - split; [by rewrite He|]. split; [intros [?|?]; [congruence|lia]|]. rewrite He. done.
Qed.

End fetch.

(** ** The order of the documents *)

Definition doc_cmp (a b : Document.t) : comparison :=
  lexc (Z.compare (Source.Priority (Document.Source b)) (Source.Priority (Document.Source a)))
    (String.compare (Source.Name (Document.Source a)) (Source.Name (Document.Source b))).
Lemma doc_less_cmp a b : doc_less a b = lt_of (doc_cmp a b).
Proof.
  unfold doc_less, doc_cmp, Z.ltb, String.ltb.
  destruct (Z.eqb_spec (Source.Priority (Document.Source a)) (Source.Priority (Document.Source b))) as [->|Hne]; simpl.
  - rewrite Z.compare_refl. simpl. by destruct (String.compare _ _).
  - destruct (Z.compare_spec (Source.Priority (Document.Source b)) (Source.Priority (Document.Source a))); simpl; lia || done.
Qed.
#[local] Instance doc_comparator : Comparator (λ _ : Document.t, True) doc_cmp.
Proof.
  apply lex_comparator.
  - apply (Z_comparator_desc _ (λ a, Source.Priority (Document.Source a))).
  - apply (string_comparator _ (λ a, Source.Name (Document.Source a))).
Qed.
#[local] Instance doc_weak : StrictWeak (λ _ : Document.t, True) doc_less.
Proof. apply (strict_weak_ext (λ _, True) (λ a b, lt_of (doc_cmp a b))); [apply _|]. intros a b _ _. apply doc_less_cmp. Qed.

(** Every document is that of a source that was asked. *)
Lemma FetchAll_source `{Unicode} net sent arrive sources d :
  (∀ l, arrive l ≡ₚ l) → d ∈ FetchAll net sent arrive sources → Document.Source d ∈ sources.
Proof.
  intros Ha. unfold FetchAll. rewrite elem_of_stable_sort, Ha. intros (s & -> & Hs)%list_elem_of_fmap.
  rewrite FetchOne_source. by apply elem_of_take in Hs as (i & Hs%list_elem_of_lookup_2 & _).
Qed.

(** The documents come in the order of their sources, whatever the order in
    which they arrive, when the names of the sources differ. *)
Lemma FetchAll_arrival `{Unicode} net sent arrive arrive' sources :
  (∀ l, arrive l ≡ₚ l) → (∀ l, arrive' l ≡ₚ l) → NoDup (Source.Name <$> sources) →
  FetchAll net sent arrive sources = FetchAll net sent arrive' sources.
Proof.
  intros Ha Ha' Hnd. unfold FetchAll. apply (stable_sort_unique (λ _, True) doc_less).
  - apply Forall_forall. by intros.
  - intros d d' Hd Hd' H1 H2. rewrite Ha in Hd, Hd'. unfold fetched_docs in Hd, Hd'.
    apply list_elem_of_fmap in Hd as (s & -> & Hs), Hd' as (s' & -> & Hs').
    assert (Source.Name s = Source.Name s') as Hn.
    { unfold doc_less in H1, H2.
      rewrite !FetchOne_source in H1, H2.
      destruct (Z.eqb_spec (Source.Priority s) (Source.Priority s')) as [E|E],
        (Z.eqb_spec (Source.Priority s') (Source.Priority s)) as [E'|E']; simpl in *; bsplit; try lia.
      unfold String.ltb in H1, H2. rewrite String.compare_antisym in H2. apply String.compare_eq_iff.
      by destruct (String.compare (Source.Name s) (Source.Name s')). }
    assert (s = s') as ->; [|done]. apply elem_of_take in Hs as (i & Hs & _), Hs' as (i' & Hs' & _).
    assert (i = i') as ->; [|congruence].
    eapply NoDup_lookup; [exact Hnd|by rewrite list_lookup_fmap, Hs|by rewrite list_lookup_fmap, Hs'; simpl; rewrite Hn].
  - by rewrite Ha, Ha'.
Qed.
