(* ===== verification/Sources.v ===== *)
(** * The sources of the service: states, circuit breaker and contributions

    The part of [internal/service/service.go] that keeps, for every source,
    what its fetches came to, in memory and in the table [source_states].  A
    failing write to the table is only logged there and is not modelled.

    ** What the source states promise

    The states in memory and in the table agree whatever happens, so that a
    restart changes nothing; the circuit breaker follows the results of the
    fetches; the health is a percentage. *)
From Stdlib Require Import SpecFloat.
From S2P Require Import Prelude Sql GoStr GoFloat GoTime Model Jobs Alerts Base64 Ratelimit NetAddr NetUrl.
From S2P Require Import Links Content Clash Config Fetch GoRound.

(** [err.Error()] *)
Definition err_text (e : error) : string :=
  match e with
  | ErrNoRows => "sql: no rows in result set"
  | ErrQueueFull => "durable task queue is full"
  | ErrCanceled => "context canceled"
  | ErrMsg msg | ErrPanic msg => msg
  end.

(** The field [sources] of [Service] and the table of its database, if it has
    one *)
Module Sources.
Record t := mk { States : gmap string SourceState.t; Table : option source_table }.
#[export] Instance eta : Eta t := λ s, mk (States s) (Table s).
End Sources.
Export (hints) Sources.

Definition zero_state : SourceState.t :=
  SourceState.mk "" "" 0 "" "" "" 0 0 0 0 0 0 0 "" false 0 0 f_zero.
Definition state_of (s : Sources.t) (name : string) : SourceState.t := default zero_state (Sources.States s !! name).

(** [sourceHealth] *)
Definition sourceHealth (state : SourceState.t) : float64 :=
  if SourceState.FetchCount state =? 0 then f_of_Z 100
  else
    let success := f_div (f_of_Z (SourceState.SuccessCount state)) (f_of_Z (SourceState.FetchCount state)) in
    let contribution :=
      if 0 <? SourceState.ContributionTotal state
      then f_div (f_of_Z (SourceState.ContributionHQ state)) (f_of_Z (SourceState.ContributionTotal state))
      else f_zero in
    let score := f_sub (f_add (f_mul success (f_of_Z 75)) (f_mul contribution (f_of_Z 25)))
                       (f_mul (f_of_Z (SourceState.ConsecutiveFailures state)) (f_of_Z 5)) in
    if f_lt score f_zero then f_zero else if f_lt (f_of_Z 100) score then f_of_Z 100 else score.
Definition with_health (state : SourceState.t) : SourceState.t :=
  state <| SourceState.HealthScore := sourceHealth state |>.

(** The part of [NewWithOptions] that loads the states *)
Definition load_state (s : gmap string SourceState.t) (state : SourceState.t) : gmap string SourceState.t :=
  <[SourceState.Name state := state]> s.
Definition configured_state (source : Source.t) : SourceState.t :=
  zero_state <| SourceState.Name := Source.Name source |> <| SourceState.URL := Source.URL source |>
    <| SourceState.Priority := Source.Priority source |> <| SourceState.HealthScore := f_of_Z 100 |>.
Definition ensure_state (s : gmap string SourceState.t * source_table) (source : Source.t)
    : gmap string SourceState.t * source_table :=
  let state := default (configured_state source) (s.1 !! Source.Name source) in
  (<[Source.Name source := state]> s.1, EnsureSource s.2 state).
Definition load_sources (cfg : config) (db : option source_table) : Sources.t :=
  match db with
  | None => Sources.mk ∅ None
  | Some t =>
      let '(states, t) :=
        fold_left ensure_state (Config.Sources cfg) (fold_left load_state (ListSourceStates t) ∅, t) in
      Sources.mk states (Some t)
  end.

(** [updateSourceContributions]: the sources of a node, the counts over the
    nodes, and the states with their counts *)
Definition contributors (n : node) : list string :=
  match Node.Sources n with
  | [] => if (Node.Source n =? "")%string then [] else [Node.Source n]
  | l => l
  end.
Definition contributed (p : node → bool) (nodes : list (option node)) (name : string) : Z :=
  Z.of_nat (length (List.filter (λ s, (s =? name)%string) (mjoin (contributors <$> List.filter p (omap id nodes))))).
Definition good_node (minScore : float64) (n : node) : bool := Node.Alive n && f_le minScore (Node.Score n).
Definition contribute (minScore : float64) (nodes : list (option node)) (name : string) (state : SourceState.t)
    : SourceState.t :=
  with_health (state <| SourceState.ContributionTotal := contributed (λ _, true) nodes name |>
                     <| SourceState.ContributionHQ := contributed (good_node minScore) nodes name |>).
Definition store_contribution (t : source_table) (kv : string * SourceState.t) : source_table :=
  SetSourceContribution t kv.1 (SourceState.ContributionTotal kv.2) (SourceState.ContributionHQ kv.2)
    (SourceState.HealthScore kv.2).
Definition updateSourceContributions (minScore : float64) (nodes : list (option node)) (s : Sources.t) : Sources.t :=
  let states := map_imap (λ name state, Some (contribute minScore nodes name state)) (Sources.States s) in
  Sources.mk states (fold_left store_contribution (map_to_list states) <$> Sources.Table s).

(** The verb [%q] *)
Class Quoting := quote : string → string.

Section sources.
Context `{Unicode} `{TzData} `{LenientParse}.

(** [EnabledSources] *)
Definition cooling (state : SourceState.t) (now : Time) : bool :=
  negb (SourceState.DisabledUntil state =? "")%string
  && match ParseRFC3339 (SourceState.DisabledUntil state) with Some until => After until now | None => false end.
Definition usable (s : Sources.t) (now : Time) (source : Source.t) : bool :=
  let state := state_of s (Source.Name source) in
  negb (SourceState.ManuallyDisabled state) && negb (cooling state now).
Definition EnabledSources (cfg : config) (s : Sources.t) (now : Time) : list Source.t :=
  List.filter (usable s now) (config_EnabledSources cfg).

(** [SetSourceEnabled], with the reading of the clock of its audit entry *)
Definition SetSourceEnabled `{Quoting} (cfg : config) (name : string) (enabled : bool) (actor : string) (clock : Time)
    (s : Sources.t) (log : AuditLog.t) : option error * Sources.t * AuditLog.t :=
  match Sources.Table s with
  | None => (Some (ErrMsg "source mutation requires database"), s, log)
  | Some t =>
      if negb (existsb (λ source, (Source.Name source =? name)%string) (Config.Sources cfg))
      then (Some (ErrMsg ("source " +:+ quote name +:+ " not found")), s, log)
      else
        match db_SetSourceEnabled t name enabled with
        | Err e => (Some e, s, log)
        | Ok t =>
            let state := (state_of s name) <| SourceState.ManuallyDisabled := negb enabled |> in
            let state := if enabled then state <| SourceState.DisabledUntil := "" |> else state in
            (None, Sources.mk (<[name := state]> (Sources.States s)) (Some t),
             Audit log actor "source.enabled" (name +:+ "=" +:+ fmt_bool enabled) clock)
        end
  end.

(** [recordSource], with the readings of the clock here and in the database *)
Definition attempted (d : Document.t) (now : string) (state : SourceState.t) : SourceState.t :=
  let source := Document.Source d in
  state <| SourceState.Name := Source.Name source |> <| SourceState.URL := Source.URL source |>
    <| SourceState.Priority := Source.Priority source |> <| SourceState.LastAttemptAt := now |>
    <| SourceState.FetchCount := SourceState.FetchCount state + 1 |>
    <| SourceState.LatencyMS := Milliseconds (Document.Latency d) |> <| SourceState.Bytes := Document.Bytes d |>
    <| SourceState.StatusCode := Document.StatusCode d |> <| SourceState.Attempts := Document.Attempts d |>.
Definition succeeded (now : string) (state : SourceState.t) : SourceState.t :=
  state <| SourceState.LastSuccessAt := now |> <| SourceState.LastError := "" |>
    <| SourceState.ConsecutiveFailures := 0 |> <| SourceState.DisabledUntil := "" |>
    <| SourceState.SuccessCount := SourceState.SuccessCount state + 1 |>.
Definition cooldown_end (cfg : config) (clock : Time) : string :=
  FormatRFC3339 (clock + wrap64 (GovernanceConfig.CooldownHours (Config.Governance cfg) * Hour)).
Definition failed (cfg : config) (e : error) (clock : Time) (state : SourceState.t) : SourceState.t :=
  let failures := SourceState.ConsecutiveFailures state + 1 in
  let state := state <| SourceState.LastError := err_text e |> <| SourceState.ConsecutiveFailures := failures |> in
  if GovernanceConfig.DisableAfterFailures (Config.Governance cfg) <=? failures
  then state <| SourceState.DisabledUntil := cooldown_end cfg clock |> else state.
Definition recorded (cfg : config) (d : Document.t) (err : option error) (clock : Time) (state : SourceState.t)
    : SourceState.t :=
  let now := FormatRFC3339 clock in
  let state := attempted d now state in
  with_health (match err with None => succeeded now state | Some e => failed cfg e clock state end).
Definition recordSource (cfg : config) (d : Document.t) (err : option error) (clock db_clock : Time) (s : Sources.t)
    : Sources.t :=
  let name := Source.Name (Document.Source d) in
  let state := recorded cfg d err clock (state_of s name) in
  Sources.mk (<[name := state]> (Sources.States s))
    ((λ t, RecordSourceFetch t state (bool_decide (err = None)) db_clock) <$> Sources.Table s).

(** [ProbeSource]: what was fetched from the source decides. *)
Definition ProbeSource `{Quoting} `{Crypto} `{FmtAny} `{LinkJson} `{ClashCodec} (cfg : config) (name : string)
    (net : Source.t → Z → Attempt.t) (clock db_clock : Time) (s : Sources.t)
    : SourceState.t * option error * Sources.t :=
  match List.find (λ source, (Source.Name source =? name)%string) (Config.Sources cfg) with
  | None => (zero_state, Some (ErrMsg ("source " +:+ quote name +:+ " not found")), s)
  | Some source =>
      let doc := FetchOne source (net source) in
      let err := match Document.Err doc with
                 | Some e => Some e
                 | None => match ParseContent (Document.Body doc) (Source.Name source) with
                           | [] => Some (ErrMsg "no supported nodes parsed") | _ => None end
                 end in
      let s := recordSource cfg doc err clock db_clock s in (state_of s name, err, s)
  end.
End sources.

(** ** Memory and table *)

(** Two states agree, but for the time of the last attempt and success, of
    which the database takes its own readings, and for the end of the cool
    down of a source that is disabled by hand. *)
Definition same_state (a b : SourceState.t) : Prop :=
  SourceState.Name a = SourceState.Name b ∧ SourceState.URL a = SourceState.URL b ∧
  SourceState.Priority a = SourceState.Priority b ∧ SourceState.LastError a = SourceState.LastError b ∧
  SourceState.ConsecutiveFailures a = SourceState.ConsecutiveFailures b ∧
  SourceState.FetchCount a = SourceState.FetchCount b ∧ SourceState.SuccessCount a = SourceState.SuccessCount b ∧
  SourceState.LatencyMS a = SourceState.LatencyMS b ∧ SourceState.Bytes a = SourceState.Bytes b ∧
  SourceState.StatusCode a = SourceState.StatusCode b ∧ SourceState.Attempts a = SourceState.Attempts b ∧
  SourceState.ManuallyDisabled a = SourceState.ManuallyDisabled b ∧
  SourceState.ContributionTotal a = SourceState.ContributionTotal b ∧
  SourceState.ContributionHQ a = SourceState.ContributionHQ b ∧
  SourceState.HealthScore a = SourceState.HealthScore b ∧
  (SourceState.ManuallyDisabled a = false → SourceState.DisabledUntil a = SourceState.DisabledUntil b).
Definition named_state (k : string) (a : SourceState.t) : Prop := SourceState.Name a = k.
Definition agree (m : gmap string SourceState.t) (t : source_table) : Prop :=
  (∀ k, option_Forall2 same_state (m !! k) (t !! k)) ∧ map_Forall named_state t.
Definition sources_ok (s : Sources.t) : Prop :=
  match Sources.Table s with Some t => agree (Sources.States s) t | None => True end.

Lemma same_state_refl a : same_state a a.
Proof. by repeat split. Qed.
Lemma agree_insert m t k a b :
  agree m t → same_state a b → SourceState.Name b = k → agree (<[k := a]> m) (<[k := b]> t).
Proof.
  intros [Hm Ht] Hs Hk. split; [|by apply map_Forall_insert_2].
  intros k'. destruct (decide (k = k')) as [->|Hne].
  - rewrite !lookup_insert_eq. by constructor.
  - by rewrite !lookup_insert_ne.
Qed.
Lemma agree_lookup m t k a : agree m t → m !! k = Some a →
  ∃ b, t !! k = Some b ∧ same_state a b ∧ SourceState.Name b = k.
Proof.
  intros [Hm Ht] Ha. specialize (Hm k). rewrite Ha in Hm. inversion Hm as [? b Hs Ea Eb|]; subst.
  exists b. split; [done|]. split; [done|]. by apply (Ht k).
Qed.
Lemma agree_none m t k : agree m t → m !! k = None → t !! k = None.
Proof. intros [Hm _] Ha. specialize (Hm k). rewrite Ha in Hm. by inversion Hm. Qed.

Section operations.
Context `{Unicode} `{TzData} `{LenientParse}.

Lemma recordSource_ok cfg d err clock db_clock s : sources_ok s → sources_ok (recordSource cfg d err clock db_clock s).
Proof.
  unfold sources_ok, recordSource. destruct s as [m [t|]]; [|done]. cbn [Sources.Table Sources.States fmap option_fmap option_map].
  intros Ha. set (k := Source.Name (Document.Source d)).
  set (a := recorded cfg d err clock _). assert (Hk : SourceState.Name a = k).
  { subst a. unfold recorded, with_health, succeeded, failed, attempted. by repeat case_match. }
  unfold RecordSourceFetch. rewrite Hk. apply agree_insert; [done| |by destruct a].
  assert (Hc : SourceState.FetchCount a = from_option SourceState.FetchCount 0 (t !! k) + 1 ∧
    SourceState.SuccessCount a = from_option SourceState.SuccessCount 0 (t !! k) + (if bool_decide (err = None) then 1 else 0) ∧
    SourceState.ConsecutiveFailures a =
      (if bool_decide (err = None) then 0 else from_option SourceState.ConsecutiveFailures 0 (t !! k) + 1) ∧
    (bool_decide (err = None) = true → SourceState.LastError a = "")).
  { subst a. unfold recorded, state_of, with_health. cbn [Sources.States]. fold k.
    destruct (m !! k) as [a|] eqn:Em.
    - destruct (agree_lookup _ _ _ _ Ha Em) as (b & -> & Hs & _). unfold same_state in Hs. destruct_and!. simpl.
      destruct err as [e|]; unfold succeeded, failed, attempted; [case_match|]; simpl; repeat split; try done; lia.
    - rewrite (agree_none _ _ _ Ha Em). destruct err as [e|]; unfold succeeded, failed, attempted; [case_match|]; done. }
  destruct Hc as (Hf & Hs & Hcf & Hle). destruct (bool_decide (err = None)) eqn:E; simpl;
    unfold same_state; simpl; rewrite <-?Hf, <-?Hs, <-?Hcf; repeat split; try done; auto.
Qed.

Lemma SetSourceEnabled_ok `{Quoting} cfg name enabled actor clock s log :
  sources_ok s → sources_ok (SetSourceEnabled cfg name enabled actor clock s log).1.2.
Proof.
  unfold sources_ok, SetSourceEnabled. destruct s as [m [t|]]; [|done]. cbn [Sources.Table Sources.States].
  intros Ha. destruct (negb _); [done|]. unfold db_SetSourceEnabled.
  destruct (t !! name) as [b|] eqn:Eb; [|done]. cbn [fst snd Sources.Table Sources.States].
  destruct (m !! name) as [a|] eqn:Em; [|by rewrite (agree_none _ _ _ Ha Em) in Eb].
  destruct (agree_lookup _ _ _ _ Ha Em) as (b' & Eb' & Hs & Hn). rewrite Eb in Eb'. injection Eb' as <-.
  apply agree_insert; [done| |exact Hn]. unfold state_of. cbn [Sources.States]. rewrite Em. simpl.
  unfold same_state in Hs |- *. destruct_and!. destruct enabled; simpl; repeat split; done.
Qed.

Lemma store_contributions_lookup l t k :
  NoDup l.*1 →
  fold_left store_contribution l t !! k =
    match (list_to_map l : source_table) !! k with
    | Some st => (λ old, old <| SourceState.ContributionTotal := SourceState.ContributionTotal st |>
                    <| SourceState.ContributionHQ := SourceState.ContributionHQ st |>
                    <| SourceState.HealthScore := SourceState.HealthScore st |>) <$> t !! k
    | None => t !! k
    end.
Proof.
  revert t. induction l as [|[k' st] l IH]; intros t Hnd; [by simpl; rewrite lookup_empty|].
  cbn [fmap list_fmap] in Hnd. apply NoDup_cons in Hnd as [Hni Hnd]. simpl. rewrite IH by done.
  unfold store_contribution, Alerts.SetSourceContribution. simpl.
  destruct (decide (k' = k)) as [->|Hne].
  - rewrite lookup_insert_eq, lookup_alter_eq.
    rewrite (proj1 (not_elem_of_list_to_map _ _)) by done. done.
  - by rewrite lookup_insert_ne, lookup_alter_ne.
Qed.
Lemma updateSourceContributions_ok minScore nodes s : sources_ok s → sources_ok (updateSourceContributions minScore nodes s).
Proof.
  unfold sources_ok, updateSourceContributions. destruct s as [m [t|]]; [|done]. cbn [Sources.Table Sources.States fmap option_fmap option_map].
  intros Ha. set (m' := map_imap _ m).
  assert (Hm : ∀ k, m' !! k = contribute minScore nodes k <$> m !! k) by (intros k; subst m'; by rewrite map_lookup_imap; destruct (m !! k)).
  assert (Ht : ∀ k, fold_left store_contribution (map_to_list m') t !! k = match m' !! k with
    | Some st => (λ old, old <| SourceState.ContributionTotal := SourceState.ContributionTotal st |>
                    <| SourceState.ContributionHQ := SourceState.ContributionHQ st |>
                    <| SourceState.HealthScore := SourceState.HealthScore st |>) <$> t !! k
    | None => t !! k end).
  { intros k. rewrite store_contributions_lookup by apply NoDup_fst_map_to_list. by rewrite list_to_map_to_list. }
  split.
  - intros k. rewrite Ht, Hm. destruct (m !! k) as [a|] eqn:Em; simpl.
    + destruct (agree_lookup _ _ _ _ Ha Em) as (b & -> & Hs & _). simpl. constructor.
      unfold same_state in Hs |- *. destruct_and!. simpl. by repeat split.
    + rewrite (agree_none _ _ _ Ha Em). constructor.
  - intros k b. rewrite Ht, Hm. destruct (m !! k) as [a|] eqn:Em; simpl.
    + intros (b' & Hb & ->)%fmap_Some. destruct Ha as [_ Ht']. by apply (Ht' k) in Hb.
    + rewrite (agree_none _ _ _ Ha Em). done.
Qed.
(** ** Loading *)

Lemma load_states t : map_Forall named_state t → fold_left load_state (ListSourceStates t) ∅ = t.
Proof.
  intros Ht. assert (Hp : ListSourceStates t ≡ₚ rows t) by apply stable_sort_perm.
  assert (Hnd : NoDup (SourceState.Name <$> ListSourceStates t)).
  { rewrite Hp. unfold rows. assert ((SourceState.Name <$> (map_to_list t).*2) = (map_to_list t).*1) as ->.
    { rewrite <-list_fmap_compose. apply list_fmap_ext. intros i [k a] Hi. simpl.
      apply list_elem_of_lookup_2, elem_of_map_to_list in Hi. by apply Ht in Hi. }
    apply NoDup_fst_map_to_list. }
  assert (Hin : ∀ a, a ∈ ListSourceStates t ↔ t !! SourceState.Name a = Some a).
  { intros a. rewrite Hp, elem_of_rows. split; [intros [k Hk]; pose proof (Ht _ _ Hk) as Hn; unfold named_state in Hn; by subst|by eauto]. }
  apply map_eq. intros k.
  assert (Hgen : ∀ l m, NoDup (SourceState.Name <$> l) → (∀ a, a ∈ l → t !! SourceState.Name a = Some a) →
    (∀ k, m !! k = None ∨ m !! k = t !! k) →
    (∀ k, fold_left load_state l m !! k = t !! k ∨ fold_left load_state l m !! k = None ∧ m !! k = None ∧
       ∀ a, a ∈ l → SourceState.Name a ≠ k)).
  { induction l as [|a l IH]; intros m' Hd Hl Hm' k'; simpl.
    - destruct (Hm' k') as [E|E]; [right|left; done]. split; [done|]. split; [done|]. by intros ? ?%elem_of_nil.
    - cbn [fmap list_fmap] in Hd. apply NoDup_cons in Hd as [_ Hd].
      destruct (IH (load_state m' a) Hd) with (k := k') as [E|(E & Em & Ha)]; [| |by left|].
      + intros b Hb. apply Hl. by right.
      + intros k2. unfold load_state. destruct (decide (SourceState.Name a = k2)) as [<-|Hne].
        * rewrite lookup_insert_eq. right. symmetry. apply Hl. by left.
        * by rewrite lookup_insert_ne.
      + right. unfold load_state in Em. destruct (decide (SourceState.Name a = k')) as [<-|Hne]; [by rewrite lookup_insert_eq in Em|].
        rewrite lookup_insert_ne in Em by done. split; [done|]. split; [done|].
        intros b [->|Hb]%elem_of_cons; [done|by apply Ha]. }
  destruct (Hgen (ListSourceStates t) ∅ Hnd) with (k := k) as [E|(E & _ & Ha)]; [by intros a Ha%Hin|by left|done|].
  rewrite E. destruct (t !! k) as [a|] eqn:Ek; [|done]. exfalso.
  pose proof (Ht _ _ Ek) as Hn. unfold named_state in Hn. apply (Ha a); [apply Hin; by subst|done].
Qed.

(** The states that are loaded from a table: its own, and those of the sources
    it does not have yet. *)
Definition loaded (t : source_table) (m : gmap string SourceState.t) : Prop :=
  ∀ k, m !! k = t !! k ∨ t !! k = None ∧ ∃ source, m !! k = Some (configured_state source).
Lemma load_sources_spec cfg t : map_Forall named_state t →
  let s := load_sources cfg (Some t) in sources_ok s ∧ loaded t (Sources.States s).
Proof.
  intros Ht. cbv zeta. unfold load_sources. rewrite load_states by done.
  assert (Hgen : ∀ l m t', agree m t' → loaded t m →
    agree (fold_left ensure_state l (m, t')).1 (fold_left ensure_state l (m, t')).2 ∧
    loaded t (fold_left ensure_state l (m, t')).1).
  { induction l as [|source l IH]; intros m t' Ha Hl; [done|]. cbn [fold_left].
    assert (∃ m2 t2, ensure_state (m, t') source = (m2, t2) ∧ agree m2 t2 ∧ loaded t m2) as (m2 & t2 & -> & Ha2 & Hl2);
      [|by apply IH].
    unfold ensure_state. cbn [fst snd]. eexists _, _. split; [reflexivity|].
    destruct (m !! Source.Name source) as [a|] eqn:Em; cbn [default from_option id].
    - rewrite insert_id by done. split; [|done].
      destruct (agree_lookup _ _ _ _ Ha Em) as (b & Eb & Hs & Hn). unfold same_state in Hs. destruct_and!.
      unfold EnsureSource. assert (SourceState.Name a = Source.Name source) as -> by congruence. rewrite Eb.
      rewrite <-(insert_id m (Source.Name source) a) by done. apply agree_insert; [done| |by destruct b].
      by repeat split.
    - split.
      + unfold EnsureSource. change (SourceState.Name (configured_state source)) with (Source.Name source).
        rewrite (agree_none _ _ _ Ha Em). by apply agree_insert.
      + intros k. destruct (decide (Source.Name source = k)) as [<-|Hne].
        * rewrite lookup_insert_eq. right. split; [|by eexists]. destruct (Hl (Source.Name source)) as [E|[? _]]; congruence.
        * rewrite lookup_insert_ne by done. apply Hl. }
  assert (agree t t) as Ha by (split; [intros k; destruct (t !! k); constructor; apply same_state_refl|done]).
  destruct (Hgen (Config.Sources cfg) t t Ha) as [Hok Hl]; [by left|].
  by destruct (fold_left ensure_state _ _).
Qed.

(** ** Executions *)

(** What happens to the states while the service runs: results of fetches,
    switches and countings, under any configuration of the moment *)
Inductive source_step : Sources.t → Sources.t → Prop :=
  | step_record cfg d err clock db_clock s : source_step s (recordSource cfg d err clock db_clock s)
  | step_enable `{Quoting} cfg name enabled actor clock log s :
      source_step s (SetSourceEnabled cfg name enabled actor clock s log).1.2
  | step_contribute minScore nodes s : source_step s (updateSourceContributions minScore nodes s).
#[local] Hint Resolve recordSource_ok SetSourceEnabled_ok updateSourceContributions_ok : go.
Lemma source_steps_ok s s' : rtc source_step s s' → sources_ok s → sources_ok s'.
Proof. induction 1 as [|s s1 s2 Hs _ IH]; [done|]. intros Hok. apply IH. destruct Hs; eauto with go. Qed.

Lemma source_steps_table s s' : rtc source_step s s' → is_Some (Sources.Table s) → is_Some (Sources.Table s').
Proof.
  induction 1 as [|s s1 s2 Hs _ IH]; [done|]. intros Hok. apply IH. destruct Hs; simpl.
  - by apply fmap_is_Some.
  - unfold SetSourceEnabled. by repeat case_match.
  - by apply fmap_is_Some.
Qed.

(** A source may be fetched after a restart exactly when it may without. *)
Lemma usable_same a b now :
  same_state a b →
  negb (SourceState.ManuallyDisabled a) && negb (cooling a now) = negb (SourceState.ManuallyDisabled b) && negb (cooling b now).
Proof.
  intros Hs. unfold same_state in Hs. destruct_and!. unfold cooling.
  destruct (SourceState.ManuallyDisabled a); [by replace (SourceState.ManuallyDisabled b) with true|].
  replace (SourceState.ManuallyDisabled b) with false. by replace (SourceState.DisabledUntil b) with (SourceState.DisabledUntil a) by auto.
Qed.


(** ** The circuit breaker *)

(** The results of a source, oldest first: the time of each, and its error *)
Definition source_log (cfg : config) (log : list (Document.t * option error * Time)) (a : SourceState.t) : SourceState.t :=
  fold_left (λ a e, recorded cfg e.1.1 e.1.2 e.2 a) log a.
Definition result_of (e : Document.t * option error * Time) : bool := bool_decide (e.1.2 = None).

Lemma recorded_counts cfg d err clock a :
  let b := recorded cfg d err clock a in
  SourceState.FetchCount b = SourceState.FetchCount a + 1 ∧
  SourceState.SuccessCount b = SourceState.SuccessCount a + (if bool_decide (err = None) then 1 else 0) ∧
  SourceState.ConsecutiveFailures b = (if bool_decide (err = None) then 0 else SourceState.ConsecutiveFailures a + 1) ∧
  SourceState.ManuallyDisabled b = SourceState.ManuallyDisabled a ∧
  SourceState.DisabledUntil b =
    (if bool_decide (err = None) then ""
     else if GovernanceConfig.DisableAfterFailures (Config.Governance cfg) <=? SourceState.ConsecutiveFailures a + 1
     then cooldown_end cfg clock else SourceState.DisabledUntil a) ∧
  SourceState.ContributionTotal b = SourceState.ContributionTotal a ∧
  SourceState.ContributionHQ b = SourceState.ContributionHQ a.
Proof.
  unfold recorded, with_health, succeeded, failed, attempted. destruct err as [e|]; simpl; [case_match; simpl|];
    repeat split; try done; lia.
Qed.

Lemma sourceHealth_with a : sourceHealth (with_health a) = SourceState.HealthScore (with_health a).
Proof. by destruct a. Qed.
Lemma history_counts cfg log a :
  let b := source_log cfg log a in
  SourceState.FetchCount b = SourceState.FetchCount a + Z.of_nat (length log) ∧
  SourceState.SuccessCount b =
    SourceState.SuccessCount a + Z.of_nat (length (List.filter (λ ok, ok) (result_of <$> log))) ∧
  SourceState.ConsecutiveFailures b = trailing_failures (SourceState.ConsecutiveFailures a) (result_of <$> log) ∧
  SourceState.ManuallyDisabled b = SourceState.ManuallyDisabled a ∧
  SourceState.ContributionTotal b = SourceState.ContributionTotal a ∧
  SourceState.ContributionHQ b = SourceState.ContributionHQ a ∧
  (sourceHealth a = SourceState.HealthScore a → SourceState.HealthScore b = sourceHealth b).
Proof.
  cbv zeta. revert a. induction log as [|[[d err] clock] log IH]; intros a.
  { unfold source_log. cbn [fold_left length fmap list_fmap List.filter trailing_failures].
    split; [lia|]. split; [lia|]. by repeat split. }
  cbn [source_log fold_left fst snd]. destruct (IH (recorded cfg d err clock a)) as (Hc1 & Hc2 & Hc3 & Hc4 & Hc5 & Hc6 & Hc7).
  fold (source_log cfg log (recorded cfg d err clock a)). rewrite Hc1, Hc2, Hc3, Hc4, Hc5, Hc6.
  destruct (recorded_counts cfg d err clock a) as (-> & -> & -> & -> & _ & -> & ->). unfold result_of; cbn [fmap list_fmap fst snd].
  repeat split; try (destruct err; simpl; lia). intros _. apply Hc7, sourceHealth_with.
Qed.

Lemma trailing_app acc l ok :
  trailing_failures acc (l ++ [ok]) = if ok then 0 else trailing_failures acc l + 1.
Proof. revert acc. induction l as [|b l IH]; intros acc; [done|]. simpl. apply IH. Qed.

(** The end of the cool down in force after a history that starts without
    one: that of the last result, if it is a failure, and one too many. *)
Definition in_force (cfg : config) (log : list (Document.t * option error * Time)) : string :=
  match last log with
  | Some (_, Some _, clock) =>
      if GovernanceConfig.DisableAfterFailures (Config.Governance cfg) <=? trailing_failures 0 (result_of <$> log)
      then cooldown_end cfg clock else ""
  | _ => ""
  end.
Lemma history_until cfg log a :
  0 < GovernanceConfig.DisableAfterFailures (Config.Governance cfg) →
  SourceState.ConsecutiveFailures a = 0 → SourceState.DisabledUntil a = "" →
  SourceState.DisabledUntil (source_log cfg log a) = in_force cfg log.
Proof.
  intros Hpos Hz Hu. induction log as [|[[d err] clock] log IH] using rev_ind; [done|].
  unfold in_force. rewrite last_snoc, fmap_app. unfold source_log. rewrite fold_left_app. cbn [fold_left fst snd].
  fold (source_log cfg log a). destruct (recorded_counts cfg d err clock (source_log cfg log a)) as (_ & _ & _ & _ & -> & _).
  destruct (history_counts cfg log a) as (_ & _ & -> & _). rewrite Hz.
  destruct err as [e|]; [|done]. cbn [fmap list_fmap]. rewrite trailing_app. simpl.
  case_match; [done|]. rewrite IH. unfold in_force. destruct (last log) as [[[? [?|]] ?]|] eqn:El; try done.
  rewrite (proj2 (Z.leb_gt _ _)); [done|]. bsplit. lia.
Qed.

(** ** Health *)

Lemma f_sub_not_nan x y : is_nan x = false → f_finite y = true → is_nan (f_sub x y) = false.
Proof.
  destruct x as [[]|[]| |[] m e], y as [[]|[]| |[] m' e']; try done; intros _ _; apply normalize_not_nan.
Qed.
Lemma penalty_finite k : 0 ≤ k < 2 ^ 53 → f_finite (f_mul (f_of_Z k) (f_of_Z 5)) = true.
Proof.
  intros Hk. destruct (Z.eq_dec k 0) as [->|Hz]; [done|].
  destruct (f_of_Z_exact k ltac:(lia)) as (p & e & -> & _ & He & Hp).
  assert (f_of_Z 5 = S754_finite false 5629499534213120 (-50)) as -> by reflexivity.
  assert (Hle : f_le (f_mul (S754_finite false p e) (S754_finite false 5629499534213120 (-50)))
      (S754_finite false 4503599627370496 4) = true).
  { apply f_mul_upper; [by vm_compute|lia|].
    replace (2 ^ (4 - (e + -50))) with (2 ^ 54 * 2 ^ (- e)) by (rewrite <-Z.pow_add_r by lia; f_equal; lia).
    rewrite Hp. assert (0 < 2 ^ (- e)) by (apply Z.pow_pos_nonneg; lia). nia. }
  eapply (f_between_finite (S754_finite false 4503599627370496 4)); [done|split; [|exact Hle]].
  apply f_nonneg_le, f_mul_nonneg_r; done.
Qed.
Lemma sourceHealth_bounds a :
  0 ≤ SourceState.SuccessCount a ≤ SourceState.FetchCount a → SourceState.FetchCount a < 2 ^ 53 →
  0 ≤ SourceState.ContributionHQ a ≤ SourceState.ContributionTotal a → SourceState.ContributionTotal a < 2 ^ 53 →
  0 ≤ SourceState.ConsecutiveFailures a < 2 ^ 53 →
  f_between f_zero (f_of_Z 100) (sourceHealth a).
Proof.
  intros Hs Hf Hq Ht Hc. unfold sourceHealth. destruct (Z.eqb_spec (SourceState.FetchCount a) 0) as [|Hne]; [done|].
  apply (clamp_between _ f_zero (f_of_Z 100)); [|done]. apply f_sub_not_nan; [|by apply penalty_finite].
  assert (Hrate : ∀ x c, f_between f_zero (f_of_Z 1) x → f_posfin (f_of_Z c) = true →
    f_nonneg (f_mul x (f_of_Z c)) = true).
  { intros x c [Hx _] Hpos. apply f_mul_nonneg_r; [|done]. by destruct x as [[]|[]| |[] m e]. }
  apply f_nonneg_not_nan, f_add_nonneg; apply Hrate; try done.
  - apply rate_bounds; lia.
  - case_match; bsplit; [apply rate_bounds; lia|done].
Qed.

End operations.

Section breaker.
Context `{Unicode} `{TzData} `{!TzShanghai} `{LenientParse}.

(** The end of the cool down, and an instant to the second *)
Definition cooled (cfg : config) (clock : Time) : Time :=
  clock + wrap64 (GovernanceConfig.CooldownHours (Config.Governance cfg) * Hour).
Definition to_second (t : Time) : Time := t - local_nsec (In_ t).
Lemma cooldown_end_parse cfg clock : storable (cooled cfg clock) →
  (cooldown_end cfg clock =? "")%string = false ∧
  ParseRFC3339 (cooldown_end cfg clock) = Some (to_second (cooled cfg clock)).
Proof.
  intros Hs. unfold cooldown_end. fold (cooled cfg clock). split; [|by apply ParseRFC3339_Format].
  unfold FormatRFC3339. rewrite storable_not_zero by done. apply String.eqb_neq. intros E.
  apply (f_equal (length ∘ explode)) in E. simpl in E.
  rewrite explode_implode, length_app, length_fmt_date in E by done. simpl in E. lia.
Qed.

(** C30: The circuit breaker of a source follows its results.  After any
    results since it was configured, its counters are exact, its health is
    between 0 and 100, and it is left out of the fetches exactly when its last
    results are failures, as many as the configuration allows or more, and the
    cool down since the last one, to the second, has not passed. *)
Theorem breaker_exact cfg log source now :
  0 < GovernanceConfig.DisableAfterFailures (Config.Governance cfg) → Z.of_nat (length log) < 2 ^ 53 →
  Forall (λ e, storable (cooled cfg e.2)) log →
  let failures := trailing_failures 0 (result_of <$> log) in
  let b := source_log cfg log (configured_state source) in
  SourceState.FetchCount b = Z.of_nat (length log) ∧
  SourceState.SuccessCount b = Z.of_nat (length (List.filter (λ ok, ok) (result_of <$> log))) ∧
  SourceState.ConsecutiveFailures b = failures ∧
  f_between f_zero (f_of_Z 100) (SourceState.HealthScore b) ∧
  (usable (Sources.mk {[Source.Name source := b]} None) now source = false ↔
   ∃ d e clock, last log = Some (d, Some e, clock) ∧
     GovernanceConfig.DisableAfterFailures (Config.Governance cfg) ≤ failures ∧ now < to_second (cooled cfg clock)).
Proof.
  intros Hpos Hlen Hst. cbv zeta. destruct (history_counts cfg log (configured_state source)) as (Hf & Hs & Hc & Hm & Ht & Hq & Hh).
  change (SourceState.FetchCount (configured_state source)) with 0 in Hf.
  change (SourceState.SuccessCount (configured_state source)) with 0 in Hs.
  change (SourceState.ConsecutiveFailures (configured_state source)) with 0 in Hc.
  pose proof (history_until cfg log (configured_state source) Hpos eq_refl eq_refl) as Hu.
  set (b := source_log cfg log (configured_state source)) in *.
  rewrite Hh by done. split; [lia|]. split; [lia|]. split; [done|]. split.
  - assert (Hfl : (length (List.filter (λ ok, ok) (result_of <$> log)) ≤ length log)%nat)
      by (rewrite List.filter_length_le; by rewrite length_fmap).
    assert (Htr : ∀ acc l, 0 ≤ acc → 0 ≤ trailing_failures acc l ≤ acc + Z.of_nat (length l)).
    { clear. intros acc l. revert acc. induction l as [|[] l IH]; intros acc Ha; simpl; [lia| |].
      - specialize (IH 0). lia.
      - specialize (IH (acc + 1)). lia. }
    specialize (Htr 0 (result_of <$> log)). rewrite length_fmap in Htr.
    apply sourceHealth_bounds; rewrite ?Hf, ?Hs, ?Hc, ?Ht, ?Hq; try lia; split; done || lia.
  - unfold usable, state_of. cbn [Sources.States]. rewrite lookup_singleton_eq. cbn [default from_option id].
    rewrite Hm. cbn [negb andb configured_state]. unfold cooling. rewrite Hu. unfold in_force.
    destruct (last log) as [[[d [e|]] clock]|] eqn:El; [|split; [done|by intros (?&?&?&?&?&?)]..].
    assert (storable (cooled cfg clock)) as [Hne Hparse]%cooldown_end_parse.
    { rewrite Forall_forall in Hst. apply (Hst (d, Some e, clock)). apply last_Some_elem_of in El. done. }
    destruct (_ <=? _) eqn:Eth; bsplit; [|split; [done|]; intros (?&?&?&[= <- <- <-]&?&?); lia].
    rewrite (proj2 (String.eqb_neq _ _) Hne), Hparse. cbn [negb andb]. unfold After.
    destruct (now <? to_second (cooled cfg clock)) eqn:En; bsplit; simpl.
    + split; [|done]. intros _. by exists d, e, clock.
    + split; [done|]. intros (?&?&?&[= <- <- <-]&?&?). lia.
Qed.
End breaker.
