(* ===== verification/Select.v ===== *)
(** * Publishing: what the service offers to subscribers

    The part of [internal/service/service.go] that selects the nodes to
    publish, names them after their country and renders them into the cache.
    [clock] gives the readings of the clock in the order in which they are
    taken.

    ** What publication promises

    What the selection offers was asked for, was seen and dialled recently,
    and is offered once; a node that failed its dial is not offered until it
    passes one; the cache serves the selection under the policy of the
    configuration. *)
From S2P Require Import Prelude GoStr GoFloat GoTime Model Base64 Links Clash Config Filter NodeStore.
From S2P Require Import Publish DialJob Sql Scoring Exporter Outbound Dial DialProofs DialVerdict.

(** [geo.FlagEmoji]: two regional indicators, in UTF-8 *)
Definition rune4 (r : Z) : bytes :=
  map byte_of [240 + r / 2 ^ 18; 128 + r / 2 ^ 12 mod 64; 128 + r / 2 ^ 6 mod 64; 128 + r mod 64].
Definition upper_letter (c : ascii) : bool := (65 <=? byte_val c) && (byte_val c <=? 90).
Definition indicator (c : ascii) : bytes := rune4 (0x1F1E6 + (byte_val c - 65)).

(** What decides about a publication: the anonymous struct of [publishPolicy] *)
Module Policy.
Record t := mk {
  Version : Z;
  PublishEnabled : bool;
  MinScore : float64;
  MaxNodes : Z;
  MaxNodeAge : Z;
  AliveOnly : bool;
  MaxCountries : Z;
  Filter : FilterConfig.t;
  DialEnabled : bool;
  DialEngine : string;
  VerifiedTTL : Z;
  RenameWithFlag : bool;
}.
End Policy.
(** [json.Marshal] of it; [None] is its error. *)
Class PolicyCodec := policy_json : Policy.t → option string.

Section select.
Context `{Unicode} `{Crypto} `{MapRange}.

Definition FlagEmoji (code : string) : string :=
  match explode (ToUpper (TrimSpace code)) with
  | [a; b] => if upper_letter a && upper_letter b then implode (indicator a ++ indicator b) else ""
  | _ => ""
  end.

(** [applyCountryNamePrefix], on a node that is not nil *)
Definition applyCountryNamePrefix (n : node) : node :=
  let country := Node.Country n in
  if unset country || (country =? "XX")%string then n
  else
    let flag := FlagEmoji country in
    if unset flag || HasPrefix (Node.Name n) flag then n
    else
      let name := TrimSpace (Node.Name n) in
      n <| Node.Name := flag +:+ " " +:+ (if unset name then country else name) |>.

Definition publish_policy (cfg : config) : Policy.t :=
  let p := Config.Publish cfg in
  let d := Config.Dial cfg in
  Policy.mk 2 (PublishConfig.Enabled p) (PublishConfig.MinScore p) (PublishConfig.MaxNodes p)
    (PublishConfig.MaxNodeAgeHours p) (PublishConfig.AliveOnly p) (PublishConfig.MaxCountries p)
    (Config.Filter cfg) (DialConfig.Enabled d) (DialConfig.Engine d) (DialConfig.VerifiedTTLHours d)
    (GeoConfig.RenameWithFlag (Config.Geo cfg)).
(** [publishPolicy] *)
Definition publishPolicy `{PolicyCodec} (cfg : config) : string :=
  match policy_json (publish_policy cfg) with
  | Some raw => "v2:" +:+ hex_encode (slice_to (sha256_sum raw) 8)
  | None => ""
  end.

(** ** The selection *)

Definition configured_min (cfg : config) : float64 :=
  let minScore := PublishConfig.MinScore (Config.Publish cfg) in
  if f_le minScore f_zero then FilterConfig.MinScore (Config.Filter cfg) else minScore.
Definition publish_min (cfg : config) : float64 :=
  let minScore := configured_min cfg in if f_le minScore f_zero then f_of_Z 70 else minScore.
Definition publish_limit (cfg : config) : Z :=
  let limit := PublishConfig.MaxNodes (Config.Publish cfg) in
  if limit <=? 0 then FilterConfig.MaxNodes (Config.Filter cfg) else limit.
Definition publish_alive (cfg : config) : bool :=
  let p := Config.Publish cfg in if PublishConfig.Enabled p then PublishConfig.AliveOnly p else true.
(** What is asked of the nodes when dialling is enabled *)
Definition with_verified (cfg : config) (now : Time) (f : NodeFilter.t) : NodeFilter.t :=
  if DialConfig.Enabled (Config.Dial cfg) then
    f <| NodeFilter.VerifiedOnly := true |> <| NodeFilter.DialTestedAfter := verifiedAfter cfg now |>
      <| NodeFilter.DialEngine := verifiedEngine cfg |>
  else f.
Definition select_filter (cfg : config) (clock : nat → Time) (country : string) : NodeFilter.t :=
  with_verified cfg (clock 1%nat)
    (NodeFilter.zero
       <| NodeFilter.AliveOnly := publish_alive cfg |> <| NodeFilter.MinScore := publish_min cfg |>
       <| NodeFilter.Limit := wrap64 (publish_limit cfg * 3) |>
       <| NodeFilter.Country := ToUpper (TrimSpace country) |>
       <| NodeFilter.SeenAfter := publishSeenAfter cfg (clock 0%nat) |>)
    <| NodeFilter.HighQuality := f_le (f_of_Z 70) (publish_min cfg) |>.
(** The two fallbacks *)
Definition fallback_filter (cfg : config) (now : Time) (limit : Z) (minScore : float64) : NodeFilter.t :=
  NodeFilter.zero <| NodeFilter.AliveOnly := true |> <| NodeFilter.MinScore := minScore |>
    <| NodeFilter.SeenAfter := publishSeenAfter cfg now |> <| NodeFilter.Limit := limit |>.
Definition or_else (again : bool) (f : NodeFilter.t) (s : store) (hq : list node) : list node :=
  match hq with [] => if again then ListNodes f s else [] | _ => hq end.
Definition publish_candidates (cfg : config) (clock : nat → Time) (country : string) (s : store) : list node :=
  let again := (country =? "")%string && negb (DialConfig.Enabled (Config.Dial cfg)) in
  let limit := publish_limit cfg in
  or_else again (fallback_filter cfg (clock 3%nat) limit f_zero) s
    (or_else again (fallback_filter cfg (clock 2%nat) (wrap64 (limit * 2)) (f_of_Z 50)) s
      (ListNodes (select_filter cfg clock country) s)).
(** [SelectPublishNodesCountry], [SelectPublishNodes] *)
Definition published_as (cfg : config) (n : node) : node :=
  if GeoConfig.RenameWithFlag (Config.Geo cfg) then applyCountryNamePrefix n else n.
Definition SelectPublishNodesCountry (cfg : config) (clock : nat → Time) (country : string) (s : store) : list node :=
  published_as cfg <$>
    truncate (publish_limit cfg) (Apply (Some <$> publish_candidates cfg clock country s) cfg).
Definition SelectPublishNodes (cfg : config) (clock : nat → Time) (s : store) : list node :=
  SelectPublishNodesCountry cfg clock "" s.

(** [PublishFilter] *)
Definition PublishFilter (cfg : config) (clock : nat → Time) : NodeFilter.t :=
  let minScore := configured_min cfg in
  with_verified cfg (clock 1%nat)
    (NodeFilter.zero
       <| NodeFilter.AliveOnly := PublishConfig.AliveOnly (Config.Publish cfg) |>
       <| NodeFilter.MinScore := minScore |> <| NodeFilter.Limit := publish_limit cfg |>
       <| NodeFilter.HighQuality := f_le (f_of_Z 70) minScore |>
       <| NodeFilter.SeenAfter := publishSeenAfter cfg (clock 0%nat) |>).

(** [hasAnyAIOK] *)
Definition hasAnyAIOK (n : node) : bool :=
  match Node.AIAccess n with
  | Some m => existsb (λ r, match r.2 with Some r => AIProbeResult.OK r | None => false end) (map_to_list m)
  | None => false
  end.

(** ** The cache *)

(** What Redis says to the publisher: there is none, the lock fails, is taken,
    or is held by another that has a snapshot or not *)
Inductive publish_lock := NoRedis | LockFailed | LockTaken | LockBusy (snapshot : option blob).
Definition busy_blob (lock : publish_lock) (policy : string) : option blob :=
  match lock with
  | LockBusy (Some b) => if MatchesPolicy (Some b) policy then Some b else None
  | _ => None
  end.

(** [RefreshPublishCache]: the blob and the cache; [saved] operations on its
    files succeed.  The snapshot is also offered to Redis and to the object
    store, whose errors are only logged, and counted by the metrics. *)
Definition RefreshPublishCache `{LinkJson} `{ClashCodec} `{TzData} `{CountRange} `{MetaCodec} `{PolicyCodec}
    (lock : publish_lock) (cfg : config) (clock : nat → Time) (saved : nat) (s : store) (c : Cache.t)
    : result (blob * Cache.t) :=
  let policy := publishPolicy cfg in
  match busy_blob lock policy with
  | Some b => Ok (b, Publish.Store c (Some b) false 0)
  | None =>
      let nodes := SelectPublishNodes cfg clock s in
      let maxC := if 0 <? PublishConfig.MaxCountries (Config.Publish cfg)
                  then PublishConfig.MaxCountries (Config.Publish cfg) else 30 in
      Publish.Update c (Some <$> nodes) maxC policy (clock 4%nat) saved
  end.
End select.

(** ** The names *)

Section names.
Context `{Unicode}.

Lemma HasPrefix_refl_app s t : HasPrefix (s +:+ t) s = true.
Proof. unfold HasPrefix. induction s as [|c s IH]; [by destruct t|]. simpl. by destruct (ascii_dec c c). Qed.
Lemma prefix_cases n : applyCountryNamePrefix n = n ∨
  ∃ rest, applyCountryNamePrefix n = n <| Node.Name := FlagEmoji (Node.Country n) +:+ rest |>.
Proof. unfold applyCountryNamePrefix. repeat case_match; (by left) || (right; by eexists). Qed.
(** A published node differs from the stored one in its name at most, which
    then starts with the flag of its country. *)
Lemma named_after_country n :
  let n' := applyCountryNamePrefix n in
  n' = n <| Node.Name := Node.Name n' |> ∧
  (n' = n ∨ HasPrefix (Node.Name n') (FlagEmoji (Node.Country n)) = true) ∧ applyCountryNamePrefix n' = n'.
Proof.
  cbv zeta. destruct (prefix_cases n) as [E|[rest E]]; rewrite !E; [split; [by destruct n|]; split; [by left|done]|].
  set (name := _ +:+ rest). assert (Hp : HasPrefix name (FlagEmoji (Node.Country n)) = true) by apply HasPrefix_refl_app.
  assert (Hc : Node.Country (n <| Node.Name := name |>) = Node.Country n ∧ Node.Name (n <| Node.Name := name |>) = name)
    by by destruct n.
  destruct Hc as [Hc Hn]. split; [by rewrite Hn|]. split; [right; by rewrite Hn|].
  unfold applyCountryNamePrefix. rewrite Hc, Hn, Hp, orb_true_r. by case_match.
Qed.
Lemma published_as_ID cfg n : Node.ID (published_as cfg n) = Node.ID n.
Proof.
  unfold published_as. case_match; [|done]. destruct (named_after_country n) as [-> _]. by destruct n.
Qed.
End names.

(** ** The selection *)

Section selection.
Context `{Unicode} `{Crypto} `{MapRange}.

(** The store has seen the node within the configured age. *)
Definition seen_lately (cfg : config) (now : Time) (m : node) : Prop :=
  IsZero (Node.LastSeenAt m) = false → IsZero (publishSeenAfter cfg now) = false →
  publishSeenAfter cfg now ≤ Node.LastSeenAt m.
(** The configured engine has reached the test URL through it within the
    configured time. *)
Definition dialled (cfg : config) (now : Time) (m : node) : Prop :=
  Node.Verified m = true ∧
  (unset (verifiedEngine cfg) = false → PassedEngine (Node.Dial m) (verifiedEngine cfg) = true) ∧
  (IsZero (verifiedAfter cfg now) = false →
   ∃ d, Node.Dial m = Some d ∧ IsZero (DialResult.TestedAt d) = false ∧ verifiedAfter cfg now ≤ DialResult.TestedAt d).
Record publishable (cfg : config) (clock : nat → Time) (country : string) (m : node) : Prop := {
  pub_filter : apply_keep cfg m = true;
  pub_alive : publish_alive cfg = true → Node.Alive m = true;
  pub_country : unset (ToUpper (TrimSpace country)) = false →
    country_ok (ToUpper (TrimSpace country)) (Node.Country m) = true;
  pub_recent : ∃ i, i ∈ [0; 2; 3]%nat ∧ seen_lately cfg (clock i) m;
  pub_dialled : DialConfig.Enabled (Config.Dial cfg) = true →
    dialled cfg (clock 1%nat) m ∧ seen_lately cfg (clock 0%nat) m ∧ f_lt (Node.Score m) (publish_min cfg) = false;
}.

Lemma seen_lately_intro cfg now m :
  negb (negb (IsZero (publishSeenAfter cfg now)) && negb (IsZero (Node.LastSeenAt m))
        && Before (Node.LastSeenAt m) (publishSeenAfter cfg now)) = true → seen_lately cfg now m.
Proof. intros Hs Hz Hz'. rewrite Hz, Hz' in Hs. simpl in Hs. unfold Before in Hs. by bsplit. Qed.
Lemma fallback_sound cfg now limit minScore s n : n ∈ ListNodes (fallback_filter cfg now limit minScore) s →
  ∃ m, m ∈ rows (Store.nodes s) ∧ n = cloneNode m ∧ Node.Alive m = true ∧ seen_lately cfg now m.
Proof.
  intros (m & Hm & Hf & ->)%listed_node. exists m. unfold Match in Hf. bsplit. simpl in *.
  by split_and!; [..|apply seen_lately_intro; apply negb_true_iff].
Qed.

Lemma publish_min_above cfg x :
  f_lt f_zero (publish_min cfg) && f_lt x (publish_min cfg) = false → f_lt x (publish_min cfg) = false.
Proof.
  intros Hx. destruct (f_lt f_zero (publish_min cfg)) eqn:E; [done|].
  unfold publish_min in *. destruct (f_le (configured_min cfg) f_zero) eqn:El; [done|].
  destruct (is_nan (configured_min cfg)) eqn:En; [by destruct x as [[]|[]| |[] ? ?], (configured_min cfg)|].
  exfalso. f_order.
Qed.
Lemma select_sound_in cfg clock country s n : n ∈ ListNodes (select_filter cfg clock country) s →
  ∃ m, m ∈ rows (Store.nodes s) ∧ n = cloneNode m ∧ (publish_alive cfg = true → Node.Alive m = true) ∧
    (unset (ToUpper (TrimSpace country)) = false → country_ok (ToUpper (TrimSpace country)) (Node.Country m) = true) ∧
    seen_lately cfg (clock 0%nat) m ∧
    (DialConfig.Enabled (Config.Dial cfg) = true →
     dialled cfg (clock 1%nat) m ∧ f_lt (Node.Score m) (publish_min cfg) = false).
Proof.
  intros (m & Hm & Hf & ->)%listed_node. exists m. do 2 (split; [done|]).
  unfold Match, select_filter, with_verified in Hf. destruct (DialConfig.Enabled (Config.Dial cfg)) eqn:Ed.
  - bsplit. simpl in *.
    match goal with Hs : negb _ && negb _ && _ = false |- _ => apply negb_true_iff, seen_lately_intro in Hs end.
    split; [|split; [|split; [done|]]].
    + intros Ha. match goal with Hx : negb (publish_alive _) || _ = true |- _ => by rewrite Ha in Hx end.
    + intros Hc. match goal with Hx : unset (ToUpper _) || _ = true |- _ => by rewrite Hc in Hx end.
    + intros _. split; [|by apply publish_min_above]. split; [done|]. split.
      * intros He. match goal with Hx : unset (verifiedEngine _) || _ = true |- _ => by rewrite He in Hx end.
      * intros Hz. match goal with Hx : IsZero (verifiedAfter _ _) || _ = true |- _ => rewrite Hz in Hx; simpl in Hx; rename Hx into Ht end.
        unfold dial_tested_ok in Ht. destruct (Node.Dial m) as [d|]; [|done]. exists d. bsplit. unfold Before in *. by bsplit.
  - bsplit. simpl in *.
    match goal with Hs : negb _ && negb _ && _ = false |- _ => apply negb_true_iff, seen_lately_intro in Hs end.
    split; [|split; [|split; [done|done]]].
    + intros Ha. match goal with Hx : negb (publish_alive _) || _ = true |- _ => by rewrite Ha in Hx end.
    + intros Hc. match goal with Hx : unset (ToUpper _) || _ = true |- _ => by rewrite Hc in Hx end.
Qed.
Lemma candidates_sound cfg clock country s n : n ∈ publish_candidates cfg clock country s →
  ∃ m, m ∈ rows (Store.nodes s) ∧ n = cloneNode m ∧ (apply_keep cfg m = true → publishable cfg clock country m).
Proof.
  unfold publish_candidates, or_else. set (hq := ListNodes (select_filter cfg clock country) s).
  assert (Hhq : n ∈ hq → ∃ m, m ∈ rows (Store.nodes s) ∧ n = cloneNode m ∧ (apply_keep cfg m = true → publishable cfg clock country m)).
  { intros (m & Hm & -> & Ha & Hc & Hr & Hd)%select_sound_in. exists m. do 2 (split; [done|]). intros Hk.
    split; [done..| |by intros E; destruct (Hd E)]. exists 0%nat. split; [set_solver|done]. }
  assert (Hfall : ∀ i limit minScore, i ∈ [0; 2; 3]%nat → (country =? "")%string && negb (DialConfig.Enabled (Config.Dial cfg)) = true →
    n ∈ ListNodes (fallback_filter cfg (clock i) limit minScore) s →
    ∃ m, m ∈ rows (Store.nodes s) ∧ n = cloneNode m ∧ (apply_keep cfg m = true → publishable cfg clock country m)).
  { intros i limit minScore Hi He (m & Hm & -> & Ha & Hr)%fallback_sound. bsplit. subst country. exists m.
    do 2 (split; [done|]). intros Hk. split; [done..| |congruence]. by exists i. }
  destruct hq as [|x hq]; [|exact Hhq]. destruct (_ && _) eqn:E; [|by intros ?%elem_of_nil].
  destruct (ListNodes _ s) eqn:El; intros Hn; [apply (Hfall 3%nat _ _ ltac:(set_solver) eq_refl Hn)|].
  rewrite <-El in Hn. apply (Hfall 2%nat _ _ ltac:(set_solver) eq_refl Hn).
Qed.
Lemma candidates_ids cfg clock country s : store_ok s → NoDup (Node.ID <$> publish_candidates cfg clock country s).
Proof.
  intros Hok. assert (∀ f, NoDup (Node.ID <$> ListNodes f s)) as Hl by (intros f; by apply ListNodes_ids).
  unfold publish_candidates, or_else. destruct (ListNodes (select_filter cfg clock country) s) eqn:E1; [|rewrite <-E1; apply Hl].
  clear E1. destruct (_ && _); [|by constructor].
  destruct (ListNodes (fallback_filter _ (clock 2%nat) _ _) s) eqn:E2; [apply Hl|rewrite <-E2; apply Hl].
Qed.
Lemma apply_keep_clone cfg m : apply_keep cfg (cloneNode m) = apply_keep cfg m.
Proof. by destruct m. Qed.
Lemma omap_somes {A} (l : list A) : omap id (Some <$> l) = l.
Proof. induction l as [|x l IH]; [done|]. simpl. by f_equal. Qed.
Lemma elem_of_Apply l cfg n : n ∈ Apply (Some <$> l) cfg → n ∈ l ∧ apply_keep cfg n = true.
Proof.
  unfold Apply, sortNodes. intros Hn%truncate_sublist. rewrite stable_sort_perm, elem_of_list_filter_bool in Hn.
  destruct Hn as [Hn Hk]. split; [|done]. by rewrite omap_somes in Hn.
Qed.
Lemma length_Apply l cfg : 0 < FilterConfig.MaxNodes (Config.Filter cfg) →
  Z.of_nat (length (Apply l cfg)) ≤ FilterConfig.MaxNodes (Config.Filter cfg).
Proof. apply length_truncate. Qed.
Lemma Apply_ids l cfg : NoDup (Node.ID <$> l) → NoDup (Node.ID <$> Apply (Some <$> l) cfg).
Proof.
  intros Hnd. unfold Apply, sortNodes. rewrite omap_somes.
  destruct (truncate_prefix (FilterConfig.MaxNodes (Config.Filter cfg))
    (stable_sort (cfg_less cfg) (List.filter (apply_keep cfg) l))) as [k ->].
  eapply sublist_NoDup; [|apply fmap_sublist, sublist_take]. rewrite stable_sort_perm.
  induction l as [|x l IH]; [constructor|]. simpl in Hnd. apply NoDup_cons in Hnd as [Hx Hnd].
  simpl. case_match; [|by apply IH]. simpl. constructor; [|by apply IH].
  intros (y & Hy & Hin)%list_elem_of_fmap. apply elem_of_list_filter_bool in Hin as [Hin _].
  apply Hx. rewrite Hy. by apply list_elem_of_fmap_2.
Qed.

(** The limits leave room for the whole store. *)
Definition roomy (cfg : config) (s : store) : Prop :=
  Forall (λ k, k ≤ 0 ∨ Count s ≤ k)
    [wrap64 (publish_limit cfg * 3); publish_limit cfg; FilterConfig.MaxNodes (Config.Filter cfg)].
Lemma truncate_all {A} k (l : list A) c : k ≤ 0 ∨ c ≤ k → Z.of_nat (length l) ≤ c → truncate k l = l.
Proof.
  intros Hk Hl. unfold truncate. destruct (0 <? k) eqn:E; [|done]. bsplit.
  rewrite (proj2 (Z.ltb_ge _ _)) by lia. done.
Qed.
Lemma listing_size f s : Z.of_nat (length (ListNodes f s)) ≤ Count s.
Proof.
  unfold ListNodes. destruct (truncate_prefix (NodeFilter.Limit f) (stable_sort list_less
    (cloneNode <$> List.filter (Match f) (range_nodes (Store.nodes s))))) as [k ->].
  rewrite length_take, length_stable_sort, length_fmap. unfold Count. rewrite size_rows.
  rewrite <-(Permutation_length (range_nodes_perm (Store.nodes s))).
  pose proof (List.filter_length_le (Match f) (range_nodes (Store.nodes s))). lia.
Qed.
Lemma listing_complete f s m : NodeFilter.Limit f ≤ 0 ∨ Count s ≤ NodeFilter.Limit f →
  m ∈ rows (Store.nodes s) → Match f m = true → cloneNode m ∈ ListNodes f s.
Proof.
  intros Hlim Hm Hf. unfold ListNodes. rewrite (truncate_all _ _ _ Hlim).
  - rewrite stable_sort_perm. apply list_elem_of_fmap_2, elem_of_list_filter_bool. by rewrite range_nodes_perm.
  - rewrite length_stable_sort, length_fmap. unfold Count. rewrite size_rows.
    rewrite <-(Permutation_length (range_nodes_perm (Store.nodes s))).
    pose proof (List.filter_length_le (Match f) (range_nodes (Store.nodes s))). lia.
Qed.
Lemma selected_stored cfg clock country s n : n ∈ SelectPublishNodesCountry cfg clock country s →
  ∃ m, m ∈ rows (Store.nodes s) ∧ n = published_as cfg (cloneNode m) ∧ Node.ID n = Node.ID m ∧
    publishable cfg clock country m.
Proof.
  unfold SelectPublishNodesCountry. intros (x & -> & Hx%truncate_sublist)%list_elem_of_fmap.
  apply elem_of_Apply in Hx as [Hx Hk]. apply candidates_sound in Hx as (m & Hm & -> & Hp). exists m.
  rewrite apply_keep_clone in Hk. by rewrite published_as_ID, ID_cloneNode; auto.
Qed.
(** C28: What is published.  Every node of a selection is a stored one under a
    name of its own country, that passes the filter of the configuration, is
    alive where that is asked for, of the country that is asked for, and was
    seen recently; with dialling enabled the configured engine has verified it
    within the configured time and its score reaches the minimum.  No node is
    offered twice, both limits hold, and when they leave room for the whole
    store nothing that qualifies is left out. *)
Theorem publish_sound cfg clock country s :
  store_ok s →
  let l := SelectPublishNodesCountry cfg clock country s in
  (∀ n, n ∈ l → ∃ m, m ∈ rows (Store.nodes s) ∧ n = published_as cfg (cloneNode m) ∧
     Node.ID n = Node.ID m ∧ publishable cfg clock country m) ∧
  NoDup (Node.ID <$> l) ∧
  (0 < publish_limit cfg → Z.of_nat (length l) ≤ publish_limit cfg) ∧
  (0 < FilterConfig.MaxNodes (Config.Filter cfg) → Z.of_nat (length l) ≤ FilterConfig.MaxNodes (Config.Filter cfg)) ∧
  (roomy cfg s → ∀ m, m ∈ rows (Store.nodes s) → Match (select_filter cfg clock country) m = true →
     apply_keep cfg m = true → published_as cfg (cloneNode m) ∈ l).
Proof.
  intros Hok. cbv zeta. unfold SelectPublishNodesCountry.
  set (applied := Apply (Some <$> publish_candidates cfg clock country s) cfg).
  split; [|split; [|split; [|split]]].
  - apply selected_stored.
  - rewrite <-list_fmap_compose, (list_fmap_ext _ Node.ID) by (intros; apply published_as_ID).
    destruct (truncate_prefix (publish_limit cfg) applied) as [k ->].
    eapply sublist_NoDup; [|apply fmap_sublist, sublist_take]. by apply Apply_ids, candidates_ids.
  - intros Hlim. rewrite length_fmap. by apply length_truncate.
  - intros Hlim. rewrite length_fmap. destruct (truncate_prefix (publish_limit cfg) applied) as [k ->].
    rewrite length_take. pose proof (length_Apply (Some <$> publish_candidates cfg clock country s) cfg Hlim). unfold applied. lia.
  - intros Hroom m Hm Hf Hk. apply list_elem_of_fmap_2. unfold roomy in Hroom.
    apply Forall_cons in Hroom as [Hlim Hroom]. apply Forall_cons in Hroom as [Hlim' Hroom]. apply Forall_cons in Hroom as [Hlim'' _].
    assert (Hin : cloneNode m ∈ ListNodes (select_filter cfg clock country) s).
    { apply listing_complete; [|done|done]. unfold select_filter, with_verified. by case_match. }
    assert (Hc : publish_candidates cfg clock country s = ListNodes (select_filter cfg clock country) s).
    { unfold publish_candidates, or_else. by destruct (ListNodes (select_filter cfg clock country) s); [apply elem_of_nil in Hin|]. }
    assert (Hlen : Z.of_nat (length (stable_sort (cfg_less cfg) (List.filter (apply_keep cfg)
      (ListNodes (select_filter cfg clock country) s)))) ≤ Count s).
    { rewrite length_stable_sort. pose proof (listing_size (select_filter cfg clock country) s).
      pose proof (List.filter_length_le (apply_keep cfg) (ListNodes (select_filter cfg clock country) s)). lia. }
    subst applied. unfold Apply, sortNodes. rewrite Hc, omap_somes.
    rewrite (truncate_all (FilterConfig.MaxNodes _) _ _ Hlim'' Hlen), (truncate_all _ _ _ Hlim' Hlen).
    rewrite stable_sort_perm. apply elem_of_list_filter_bool. by rewrite apply_keep_clone.
Qed.
End selection.

(** ** From the dial to the subscriber *)

Section dialled_nodes.
Context `{Unicode} `{Crypto} `{MapRange} `{SnapshotCodec} `{ClashCodec} `{MathLog2}.

(** What the store makes of a node of a batch *)
Lemma nodeID_set_ID n id : nodeID (n <| Node.ID := id |>) = nodeID n.
Proof. apply nodeID_ident, ident_set_ID. Qed.
Lemma upsert_node_lookup m n k : upsert_node m n !! k =
  if decide (nodeID n = k)
  then Some (let n := cloneNode (n <| Node.ID := nodeID n |>) in match m !! k with Some old => upserted old n | None => n end)
  else m !! k.
Proof.
  unfold upsert_node. set (c := cloneNode _). assert (Hc : Node.ID c = nodeID n).
  { subst c. rewrite ID_cloneNode. by destruct n. }
  rewrite Hc. destruct (decide (nodeID n = k)) as [->|Hne]; [|by destruct (m !! nodeID n); rewrite lookup_insert_ne].
  by destruct (m !! k); rewrite lookup_insert_eq.
Qed.
Lemma upserts_other l m k : k ∉ nodeID <$> l → fold_left upsert_node l m !! k = m !! k.
Proof.
  revert m. induction l as [|n l IH]; intros m Hk; [done|]. cbn [fold_left]. simpl in Hk.
  apply not_elem_of_cons in Hk as [Hne Hk]. by rewrite IH, upsert_node_lookup, decide_False.
Qed.
Lemma upserts_lookup l m i n : NoDup (nodeID <$> l) → l !! i = Some n →
  fold_left upsert_node l m !! nodeID n =
    Some (let c := cloneNode (n <| Node.ID := nodeID n |>) in match m !! nodeID n with Some old => upserted old c | None => c end).
Proof.
  revert m i. induction l as [|x l IH]; intros m i Hnd Hi; [done|]. cbn [fold_left]. simpl in Hnd.
  apply NoDup_cons in Hnd as [Hx Hnd]. destruct i as [|i].
  - injection Hi as ->. by rewrite upserts_other, upsert_node_lookup, decide_True.
  - cbn [lookup list_lookup] in Hi. rewrite (IH _ i Hnd Hi), upsert_node_lookup, decide_False; [done|].
    intros E. apply Hx. rewrite E. apply list_elem_of_fmap_2. by eapply list_elem_of_lookup_2.
Qed.
Lemma upserted_verified old n d : Node.Dial n = Some d → Node.Verified (upserted old n) = Node.Verified n.
Proof.
  intros Hd. unfold upserted, upsert_uri, upsert_verified, upsert_purity, upsert_dial. rewrite Hd.
  destruct (upsert_geo n _). destruct (Node.Purity n), (Node.Verified n) eqn:E; simpl; done.
Qed.
Lemma stored_verified (m : gmap string node) n d : Node.Dial n = Some d →
  Node.Verified (match m !! nodeID n with Some old => upserted old (cloneNode (n <| Node.ID := nodeID n |>))
                 | None => cloneNode (n <| Node.ID := nodeID n |>) end) = Node.Verified n.
Proof.
  intros Hd. assert (Hc : Node.Dial (cloneNode (n <| Node.ID := nodeID n |>)) = Some (cloneDial d) ∧
    Node.Verified (cloneNode (n <| Node.ID := nodeID n |>)) = Node.Verified n).
  { destruct n. simpl in *. by subst. }
  destruct Hc as [Hc Hv]. destruct (m !! _); [|done]. by rewrite (upserted_verified _ _ _ Hc).
Qed.
Lemma upsert_ok answers now l s : store_ok s → store_ok (UpsertNodes answers now l s).2.
Proof. apply step_ok. constructor. Qed.
Lemma round_ids cfg engines batch : NoDup (nodeID <$> batch) → NoDup (nodeID <$> dial_round cfg engines batch).
Proof.
  intros Hnd. rewrite NoDup_alt in *. intros i j x Hi Hj. rewrite !list_lookup_fmap in Hi, Hj.
  apply fmap_Some in Hi as (a & Ha & ->). apply fmap_Some in Hj as (b & Hb & Hab).
  destruct (dial_round_ident _ _ _ _ _ Ha) as (a0 & Ha0 & Ia), (dial_round_ident _ _ _ _ _ Hb) as (b0 & Hb0 & Ib).
  rewrite (nodeID_ident _ _ Ia), (nodeID_ident _ _ Ib) in Hab.
  apply (Hnd i j (nodeID a0)); rewrite list_lookup_fmap, ?Ha0, ?Hb0; simpl; congruence.
Qed.


End dialled_nodes.

(** ** The cache *)

Section refresh.
Context `{Unicode} `{Crypto} `{MapRange} `{LinkJson} `{ClashCodec} `{TzData} `{CountRange} `{MetaCodec} `{PolicyCodec}.

Lemma render_blob_policy nodes max policy now b : render_blob nodes max policy now = Ok b → Blob.Policy b = policy.
Proof.
  unfold render_blob. destruct (group_nodes ∅ ∅ nodes) as [[m g]|]; [|done]. cbn [rbind].
  destruct (RenderRaw nodes); [|done]. cbn [rbind]. destruct (RenderBase64 nodes); [|done]. cbn [rbind].
  intros (Hg & _)%render_variants_spec. by injection Hg.
Qed.
Lemma MatchesPolicy_spec b policy : MatchesPolicy (Some b) policy = true ↔ policy ≠ "" ∧ Blob.Policy b = policy.
Proof. unfold MatchesPolicy. by rewrite andb_true_iff, negb_true_iff, String.eqb_neq, String.eqb_eq. Qed.

(** A refresh that returns serves what it returns: the selection of the moment
    rendered under the policy of the configuration, or the snapshot of the
    other publisher under the same policy. *)
Lemma refresh_serves lock cfg clock saved s c b c' :
  RefreshPublishCache lock cfg clock saved s c = Ok (b, c') →
  Get c' = Some b ∧ Blob.Policy b = publishPolicy cfg ∧
  (busy_blob lock (publishPolicy cfg) = Some b ∨
   let nodes := SelectPublishNodes cfg clock s in
   Blob.Count b = Z.of_nat (length nodes) ∧ RenderRaw (Some <$> nodes) = Ok (Blob.Raw b) ∧
   RenderBase64 (Some <$> nodes) = Ok (Blob.Base64 b) ∧ Blob.Clash b = RenderClash (Some <$> nodes)).
Proof.
  unfold RefreshPublishCache. destruct (busy_blob lock (publishPolicy cfg)) as [b0|] eqn:Eb.
  - intros [= <- <-]. split; [done|]. split; [|by left]. unfold busy_blob in Eb. destruct lock as [| | |[x|]]; try done.
    destruct (MatchesPolicy (Some x) _) eqn:Em; [|done]. injection Eb as <-. by apply MatchesPolicy_spec in Em as [_ ?].
  - unfold Publish.Update. destruct (render_blob _ _ _ _) as [b1|] eqn:Er; [|done]. cbn [rbind]. intros [= <- <-].
    split; [done|]. split; [by eapply render_blob_policy|]. right. cbv zeta.
    apply render_blob_inv in Er as (m & g & ns & _ & _ & Hraw & Hb64 & Hcl & Hc & _).
    rewrite length_fmap in Hc. done.
Qed.
End refresh.
