(* ===== verification/Runtime.v ===== *)
(** * The runtime configuration of the service

    The part of [internal/service/service.go] that changes the configuration
    while the service runs, records every change, and finds it again at the
    next start.  [encoding/json] is the parameter [PatchCodec].

    ** What the runtime configuration promises

    A change survives a restart when the values of the file that it carries
    along are within the ranges of a runtime patch, and is lost whole when one
    of them is not. *)
From S2P Require Import Prelude Sql GoStr GoFloat GoTime Model Tasks Jobs Alerts NetAddr Ratelimit Config ConfigCheck.
From S2P Require Import ConfigValid Base64 Links Clash Filter NodeStore Publish DialJob Select.

(** [json.Marshal] and [json.Unmarshal] on a runtime patch *)
Class PatchCodec := {
  patch_marshal : RuntimePatch.t → result string;
  patch_unmarshal : string → option RuntimePatch.t;
  patch_law : ∀ p text, patch_marshal p = Ok text → patch_unmarshal text = Some p;
}.

(** The fields of [Service] that an update touches, and the tables behind
    [db]; without a database there are no versions. *)
Module Runtime.
Record t := mk {
  Current : config;
  Versions : option version_table;
  Log : AuditLog.t;
  Nodes : store;
  Pub : Cache.t;
}.
#[export] Instance eta : Eta t := λ s, mk (Current s) (Versions s) (Log s) (Nodes s) (Pub s).
End Runtime.
Export (hints) Runtime.

(** What an update meets: the random identifier, the clock of the two writes
    and those of the refresh, its lock, and how much of it reaches the disk *)
Module Update.
Record t := mk {
  ID : string;
  Saved : Time;
  Logged : Time;
  Clock : nat → Time;
  Lock : publish_lock;
  Written : nat;
}.
End Update.

(** [runtimePatchFromConfig] *)
Definition runtimePatchFromConfig (cfg : config) : RuntimePatch.t :=
  let p := Config.Publish cfg in
  let g := Config.Governance cfg in
  let d := Config.Dial cfg in
  RuntimePatch.mk (Some (PublishConfig.MinScore p)) (Some (PublishConfig.MaxNodes p)) (Some (PublishConfig.AliveOnly p))
    (Some (PublishConfig.CacheSec p)) (Some (PublishConfig.MaxNodeAgeHours p))
    (Some (GovernanceConfig.DisableAfterFailures g)) (Some (GovernanceConfig.CooldownHours g))
    (Some (GovernanceConfig.HQDropPercent g)) (Some (GovernanceConfig.CountrySharePercent g))
    (Some (DialConfig.AfterQuality d)) (Some (DialConfig.AfterQualityMax d)).

Section runtime.
Context `{Unicode} `{UrlParser} `{NetIP} `{PublicSuffix} `{PatchCodec}.

(** The part of [NewWithOptions] that finds the last update *)
Definition runtime_config (cfg : config) (versions : option version_table) : config :=
  match versions with
  | None => cfg
  | Some t =>
      match LatestConfigVersion t with
      | Err _ => cfg
      | Ok version =>
          match patch_unmarshal (ConfigVersion.PatchJSON version) with
          | None => cfg
          | Some patch => match ApplyRuntimePatch (Some cfg) patch with Ok updated => updated | Err _ => cfg end
          end
      end
  end.

Context `{Crypto} `{MapRange} `{LinkJson} `{ClashCodec} `{TzData} `{CountRange} `{MetaCodec} `{PolicyCodec}.

(** The part of [NewWithOptions] that opens the cache; [snapshot] is the one
    that Redis has. *)
Definition open_cache (cfg : config) (d : dir) (mtime : string → Time) (snapshot : option blob) : Cache.t :=
  let policy := publishPolicy cfg in
  let c := NewCache d mtime in
  let c := if negb (bool_decide (Get c = None)) && negb (MatchesPolicy (Get c) policy) then Clear c else c in
  if MatchesPolicy snapshot policy then Publish.Store c snapshot false 0 else c.

(** [UpdateRuntimeConfig] *)
Definition save_version (u : Update.t) (version : ConfigVersion.t) (s : Runtime.t) : result Runtime.t :=
  match Runtime.Versions s with
  | None => Ok s
  | Some t =>
      let! t := SaveConfigVersion t version (Update.Saved u) in
      Ok (s <| Runtime.Versions := Some t |>
            <| Runtime.Log := Audit (Runtime.Log s) (ConfigVersion.Actor version) "config.update"
                 (ConfigVersion.Checksum version) (Update.Logged u) |>)
  end.
Definition UpdateRuntimeConfig (u : Update.t) (actor : string) (patch : RuntimePatch.t) (s : Runtime.t)
    : result ConfigVersion.t * Runtime.t :=
  match ApplyRuntimePatch (Some (Runtime.Current s)) patch with
  | Err e => (Err e, s)
  | Ok next =>
      match patch_marshal (runtimePatchFromConfig next) with
      | Err e => (Err e, s)
      | Ok payload =>
          let version := ConfigVersion.mk (Update.ID u) actor (hex_encode (sha256_sum payload)) payload "" in
          match save_version u version s with
          | Err e => (Err e, s)
          | Ok s =>
              let s := s <| Runtime.Current := next |> in
              match RefreshPublishCache (Update.Lock u) next (Update.Clock u) (Update.Written u)
                      (Runtime.Nodes s) (Runtime.Pub s) with
              | Err e => (Err e, s)
              | Ok (_, pub) => (Ok version, s <| Runtime.Pub := pub |>)
              end
          end
      end
  end.

(** [Flush] of the service *)
Definition ServiceFlush `{SnapshotCodec} (answers : io_step → option error) (u : Update.t) (s : Runtime.t) : option error * Runtime.t :=
  let '(err, st) := Flush answers (Runtime.Nodes s) in
  let s := s <| Runtime.Nodes := st |> in
  match RefreshPublishCache (Update.Lock u) (Runtime.Current s) (Update.Clock u) (Update.Written u)
          (Runtime.Nodes s) (Runtime.Pub s) with
  | Err e => (Some e, s)
  | Ok (_, pub) => (err, s <| Runtime.Pub := pub |>)
  end.
End runtime.

(** ** Overlays *)

(** A configuration is the one of the file with its own patch over it. *)
Definition patched (cfg c : config) : Prop := overlay (runtimePatchFromConfig c) cfg = c.
Lemma patched_refl cfg : patched cfg cfg.
Proof. unfold patched. open_config cfg. reflexivity. Qed.
Lemma overlay_overlay cfg c p :
  overlay (runtimePatchFromConfig (overlay p c)) cfg = overlay p (overlay (runtimePatchFromConfig c) cfg).
Proof. open_config cfg. vm_compute. reflexivity. Qed.
Lemma patched_overlay cfg c p : patched cfg c → patched cfg (overlay p c).
Proof. unfold patched. intros Hc. by rewrite overlay_overlay, Hc. Qed.
Lemma opt_ok_default {A} (ok : A → bool) o d : opt_ok ok o = true → ok d = true → ok (default d o) = true.
Proof. by destruct o. Qed.
Lemma in_range_overlay p c : in_range p = true → in_range (runtimePatchFromConfig c) = true →
  in_range (runtimePatchFromConfig (overlay p c)) = true.
Proof.
  intros Hp Hc. unfold in_range in *. open_config c. cbn -[between f_between f_above_to f_of_Z] in *.
  rewrite !andb_true_iff in *. destruct_and!. split_and!; (by eapply opt_ok_default).
Qed.

(** ** The last version *)

#[local] Instance version_comparator : Comparator (λ _ : ConfigVersion.t, True) version_cmp.
Proof. unfold version_cmp. apply _. Qed.
(** A version that was saved later than all others is the last one. *)
Definition newer (t : version_table) (created : string) : Prop :=
  ∀ v, v ∈ rows t → String.compare (ConfigVersion.CreatedAt v) created = Lt.
Lemma filter_true {A} (l : list A) : List.filter (λ _, true) l = l.
Proof. induction l as [|x l IH]; [done|]. simpl. by f_equal. Qed.
Lemma latest_insert t v : t !! ConfigVersion.ID v = None → newer t (ConfigVersion.CreatedAt v) →
  LatestConfigVersion (<[ConfigVersion.ID v := v]> t) = Ok v.
Proof.
  intros Hid Hnew. unfold LatestConfigVersion, select_page.
  set (l := List.filter _ _). assert (Hperm : l ≡ₚ v :: rows t).
  { subst l. rewrite filter_true. unfold rows. by rewrite map_to_list_insert. }
  pose proof (stable_sort_perm (less version_cmp) l) as Hs.
  pose proof (stable_sort_sorted (λ _, True) (less version_cmp) l ltac:(by apply Forall_forall)) as Hsorted.
  destruct (stable_sort _ l) as [|x rest] eqn:E; [rewrite Hperm in Hs; by apply Permutation_nil_cons in Hs|].
  assert (Hx : x ∈ v :: rows t) by (rewrite <-Hperm, <-Hs; by left).
  assert (Hv : v ∈ x :: rest) by (rewrite Hs, Hperm; by left).
  simpl. f_equal. apply elem_of_cons in Hx as [?|Hx]; [done|]. apply elem_of_cons in Hv as [?|Hv]; [done|]. exfalso.
  inversion Hsorted as [|? ? _ Hall]; subst. rewrite Forall_forall in Hall. specialize (Hall _ Hv).
  unfold less, lt_of, version_cmp in Hall. rewrite (Hnew _ Hx) in Hall. done.
Qed.

(** ** Restarts *)

Section restart.
Context `{Unicode} `{UrlParser} `{NetIP} `{PublicSuffix} `{PatchCodec}.
Context `{Crypto} `{MapRange} `{LinkJson} `{ClashCodec} `{TzData} `{CountRange} `{MetaCodec} `{PolicyCodec}.

(** What happens while the service runs: updates, each at a later second than
    the versions there are, and anything that leaves the configuration *)
Inductive runtime_step : Runtime.t → Runtime.t → Prop :=
  | runtime_update u actor patch s :
      (∀ t, Runtime.Versions s = Some t → newer t (FormatRFC3339 (Update.Saved u))) →
      runtime_step s (UpdateRuntimeConfig u actor patch s).2
  | runtime_work log nodes pub s :
      runtime_step s (s <| Runtime.Log := log |> <| Runtime.Nodes := nodes |> <| Runtime.Pub := pub |>).

(** What the configuration and the table of versions have to do with each
    other, [t0] being the table at the start *)
Definition recorded_in (cfg : config) (t0 t : version_table) (c : config) : Prop :=
  t = t0 ∧ c = runtime_config cfg (Some t0) ∨
  ∃ v, LatestConfigVersion t = Ok v ∧ patch_marshal (runtimePatchFromConfig c) = Ok (ConfigVersion.PatchJSON v).
Definition runtime_ok (cfg : config) (t0 : version_table) (s : Runtime.t) : Prop :=
  patched cfg (Runtime.Current s) ∧
  (in_range (runtimePatchFromConfig cfg) = true → in_range (runtimePatchFromConfig (Runtime.Current s)) = true) ∧
  Validate (Runtime.Current s) = Ok tt ∧
  ∃ t, Runtime.Versions s = Some t ∧ recorded_in cfg t0 t (Runtime.Current s).

Lemma apply_valid c p : Validate c = Ok tt →
  ApplyRuntimePatch (Some c) p = (if in_range p then Ok (overlay p c) else ApplyRuntimePatch (Some c) p) ∧
  (in_range p = false → ∃ e, ApplyRuntimePatch (Some c) p = Err e).
Proof.
  intros Hv. unfold ApplyRuntimePatch. pose proof (patch_fields_spec p c) as Hp. destruct (in_range p).
  - rewrite Hp. simpl. by rewrite overlay_validate, Hv.
  - split; [done|]. intros _. destruct Hp as [msg ->]. simpl. by eexists.
Qed.
Lemma runtime_config_cases cfg versions : Validate cfg = Ok tt →
  runtime_config cfg versions = cfg ∨ ∃ p, in_range p = true ∧ runtime_config cfg versions = overlay p cfg.
Proof.
  intros Hv. unfold runtime_config. destruct versions as [t|]; [|by left].
  destruct (LatestConfigVersion t) as [v|]; [|by left]. destruct (patch_unmarshal _) as [p|]; [|by left].
  destruct (apply_valid cfg p Hv) as [Ha He]. destruct (in_range p) eqn:E; [|destruct (He eq_refl) as [e ->]; by left].
  rewrite Ha. right. by exists p.
Qed.

Lemma runtime_start cfg t0 s : Validate cfg = Ok tt →
  Runtime.Versions s = Some t0 → Runtime.Current s = runtime_config cfg (Some t0) → runtime_ok cfg t0 s.
Proof.
  intros Hv Hs Hc. unfold runtime_ok. rewrite Hc. split; [|split; [|split]].
  - destruct (runtime_config_cases cfg (Some t0) Hv) as [->|(p & _ & ->)]; [|apply patched_overlay]; apply patched_refl.
  - destruct (runtime_config_cases cfg (Some t0) Hv) as [->|(p & Hp & ->)]; [done|]. by apply in_range_overlay.
  - destruct (runtime_config_cases cfg (Some t0) Hv) as [->|(p & _ & ->)]; [done|]. by rewrite overlay_validate.
  - exists t0. split; [done|]. by left.
Qed.

Lemma save_latest u version s s' t : ConfigVersion.CreatedAt version = "" →
  Runtime.Versions s = Some t → newer t (FormatRFC3339 (Update.Saved u)) → save_version u version s = Ok s' →
  Runtime.Current s' = Runtime.Current s ∧ ∃ t' v, Runtime.Versions s' = Some t' ∧ LatestConfigVersion t' = Ok v ∧
    ConfigVersion.PatchJSON v = ConfigVersion.PatchJSON version.
Proof.
  intros Hcr Ht Hnew. unfold save_version. rewrite Ht. unfold SaveConfigVersion. rewrite Hcr.
  set (v := version <| ConfigVersion.CreatedAt := FormatRFC3339 (Update.Saved u) |>).
  cbn [String.eqb]. destruct (t !! ConfigVersion.ID v) as [|] eqn:E; [done|]. cbn [rbind]. intros [= <-].
  split; [by destruct s|]. exists (<[ConfigVersion.ID v := v]> t), v.
  split; [by destruct s|]. split; [|by destruct version]. apply latest_insert; [done|]. by destruct version.
Qed.

Lemma update_ok cfg t0 u actor patch s :
  (∀ t, Runtime.Versions s = Some t → newer t (FormatRFC3339 (Update.Saved u))) →
  runtime_ok cfg t0 s → runtime_ok cfg t0 (UpdateRuntimeConfig u actor patch s).2.
Proof.
  intros Hnew Hok. pose proof Hok as (Hp & Hr & Hv & t & Ht & Hrec). unfold UpdateRuntimeConfig.
  destruct (apply_valid (Runtime.Current s) patch Hv) as [Ha He].
  destruct (in_range patch) eqn:Er; [|by destruct (He eq_refl) as [e ->]]. rewrite Ha. clear Ha He.
  destruct (patch_marshal _) as [payload|] eqn:Em; [|done].
  destruct (save_version _ _ s) as [s1|] eqn:Es; [|done].
  edestruct save_latest as (Hc & t' & v & Ht' & Hv' & Hj); [|exact Ht|by apply Hnew|exact Es|]; [done|].
  assert (Hgoal : runtime_ok cfg t0 (s1 <| Runtime.Current := overlay patch (Runtime.Current s) |>)).
  { unfold runtime_ok. replace (Runtime.Current (s1 <| Runtime.Current := _ |>)) with (overlay patch (Runtime.Current s)) by by destruct s1.
    split; [by apply patched_overlay|]. split; [intros Hcfg; by apply in_range_overlay; auto|].
    split; [by rewrite overlay_validate|]. exists t'. split; [by destruct s1|]. right. exists v. by rewrite Hj. }
  destruct (RefreshPublishCache _ _ _ _ _ _) as [[b pub]|]; [|done]. by destruct s1.
Qed.
Lemma runtime_steps_ok cfg t0 s s' : rtc runtime_step s s' → runtime_ok cfg t0 s → runtime_ok cfg t0 s'.
Proof.
  induction 1 as [|s s1 s2 Hs _ IH]; [done|]. intros Hok. apply IH. destruct Hs; [by apply update_ok|by destruct s].
Qed.

End restart.
