(* ===== verification/ServiceExamples.v ===== *)
(** * Dialling and the service at work

    A crowd of nodes of one server is to be dialled and three go through a round
    with both engines; a source that fails and is left out of the fetches, a
    restart, a dial round that is saved and published, and updates of the
    configuration that survive a restart or do not. *)
From Stdlib Require Import SpecFloat.
From S2P Require Import Prelude Sql GoStr GoFloat GoTime Model Base64 TaskExamples Jobs Alerts Ratelimit.
From S2P Require Import NetAddr AccountExamples Config ConfigCheck ConfigValid Filter Scoring NodeStore NodeExamples.
From S2P Require Import NetUrl Links Clash Exporter LinkExamples Publish Outbound Dial DialJob DialProofs DialVerdict.
From S2P Require Import Fetch Sources Select Runtime.

#[local] Existing Instances no_tzdata no_tzdata_cst ascii_only checksums log2_grid in_order empty_snapshot.

(** An encoder that writes every document the same way *)
#[local] Instance any_document : ClashCodec := {|
  yaml_object _ := None; yaml_text _ := Some "document"; json_object _ := Some "document" |}.

(** ** The candidates *)

Definition crowd : list node :=
  (λ p, tokyo <| Node.ID := "tokyo-" +:+ Itoa p |> <| Node.Port := p |>) <$> [443; 444; 445; 446; 447].
Definition elsewhere : node := tokyo <| Node.ID := "osaka" |> <| Node.Server := "osaka.example.org" |>.
Definition dial_store : store := (ReplaceNodes no_io t0 (Some <$> crowd ++ [elsewhere]) base).2.
Lemma dial_store_ok : store_ok dial_store.
Proof.
  apply (steps_ok base dial_store); [|apply base_ok].
  apply rtc_once. exact (step_replace in_order no_io t0 (Some <$> crowd ++ [elsewhere]) base).
Qed.

(** Five are wanted; three of the one server and the other one are dialled. *)
Definition picked : list node := pickDialCandidates Default dial_store (t0 + Hour) 5 true false.
Lemma pick_spread_witness :
  length picked = 4%nat ∧ count_nodes (on_server "tokyo.example.org") picked = 3 ∧
  NoDup (Node.ID <$> picked).
Proof.
  destruct (pick_spread Default dial_store (t0 + Hour) 5 true dial_store_ok) as (Hnd & _); [lia|].
  split; [by vm_compute|]. split; [by vm_compute|exact Hnd].
Defined.

(** ** A round *)

Definition reply_of (status : Z) : Answers.t :=
  Answers.mk (t0 + Hour) 20001 "core.log" None None
    (Response (120 * Millisecond) status 262144 (300 * Millisecond) (420 * Millisecond) None) None.
Definition lost : Answers.t :=
  Answers.mk (t0 + Hour) 20001 "core.log" None None (NoResponse Second "timeout") (Some "dial tcp: refused").
Definition dialled_batch : list node := [tokyo; paris; elsewhere].
Definition dial_engines : list (string * list Answers.t) :=
  [("sing-box", [lost; reply_of 200; reply_of 204]); ("mihomo", [reply_of 200; lost; reply_of 503])].

(** Mihomo decides: the first node is verified although sing-box failed. *)
Lemma round_verdict_witness :
  (∃ n', dial_round Default dial_engines dialled_batch !! 0%nat = Some n' ∧ Node.Verified n' = true ∧
     recently_dialled "both" t0 n' = true) ∧
  (∃ n', dial_round Default dial_engines dialled_batch !! 1%nat = Some n' ∧ Node.Verified n' = false) ∧
  (∃ n', dial_round Default dial_engines dialled_batch !! 2%nat = Some n' ∧ "dial-fail" ∈ Node.Tags n').
Proof.
  assert (round_engines Default dialled_batch dial_engines) as He by (repeat constructor).
  assert (DialConfig.Engine (Config.Dial Default) ∈ ["auto"; "sing-box"; "xray"; "mihomo"; "both"]) as Hc
    by (apply (bool_decide_unpack _); by vm_compute).
  split; [|split].
  - destruct (round_verdict Default dial_engines dialled_batch 0 tokyo Hc He eq_refl)
      as (n' & e & a & Hr & Hl & Ha & _ & Hv & _ & _ & _ & Hrec). exists n'. split; [exact Hr|].
    injection Hl as <-. injection Ha as <-. split.
    + apply Hv. split; [by vm_compute|]. split; [done|]. split; [by vm_compute|]. split; [done|].
      do 5 eexists. split; [reflexivity|lia].
    + apply Hrec; by vm_compute.
  - destruct (round_verdict Default dial_engines dialled_batch 1 paris Hc He eq_refl)
      as (n' & e & a & Hr & Hl & Ha & _ & Hv & _). exists n'. split; [exact Hr|].
    injection Hl as <-. injection Ha as <-.
    apply not_true_iff_false. rewrite Hv. intros (_ & _ & _ & _ & ? & ? & ? & ? & ? & [=] & _).
  - destruct (round_verdict Default dial_engines dialled_batch 2 elsewhere Hc He eq_refl)
      as (n' & e & a & Hr & Hl & Ha & _ & _ & _ & Hf & _). exists n'. split; [exact Hr|].
    injection Hl as <-. injection Ha as <-.
    apply Hf. intros (_ & _ & _ & _ & ? & st & ? & ? & ? & Er & Hs).
    injection Er as _ Est _ _ _. lia.
Defined.

(** ** What the engines are given *)

Definition hopper : node :=
  tokyo <| Node.Protocol := ProtoHysteria2 |> <| Node.Extra := {["ports" := "20000-30000, 443,x"]} |>.

(** ** The service *)

#[local] Existing Instances no_tzdata no_tzdata_cst ascii_only checksums log2_grid in_order empty_snapshot strict_only.
#[local] Existing Instances any_document simple_url_parser org_suffix no_json sorted_range one_policy.

(** ** Sources *)

Definition main_feed : Source.t := Source.mk "main" "subscription" "https://feeds.example.org/sub" true 10 1048576 "".
Definition main_doc : Document.t := Document.of_source main_feed.
Definition failures (n : nat) : list (Document.t * option error * Time) :=
  (λ i, (main_doc, Some (ErrMsg "http 503"), t0 + Z.of_nat i * Hour)) <$> seq 0 n.

(** Five failures in a row are enough with the default configuration. *)
Lemma breaker_exact_witness :
  SourceState.FetchCount (source_log Default (failures 5) (configured_state main_feed)) = 5 ∧
  usable (Sources.mk {["main" := source_log Default (failures 5) (configured_state main_feed)]} None) (t0 + 5 * Hour) main_feed = false.
Proof.
  destruct (breaker_exact Default (failures 5) main_feed (t0 + 5 * Hour)) as (Hc & _ & _ & _ & Hu); [by vm_compute|by vm_compute| |].
  - repeat constructor; by vm_compute.
  - split; [exact Hc|]. apply Hu. exists main_doc, (ErrMsg "http 503"), (t0 + 4 * Hour). split; [done|]. split; by vm_compute.
Defined.

#[local] Instance plain_quotes : Quoting := plain_q.
(** After a failure and a switch by hand the states are loaded again. *)
Definition one_source : config := Default <| Config.Sources := [main_feed] |>.
Definition first_states : Sources.t := load_sources one_source (Some ∅).
Definition switched : Sources.t :=
  (SetSourceEnabled one_source "main" false "admin" t0
     (recordSource one_source main_doc (Some (ErrMsg "http 503")) t0 (t0 + Second) first_states) (AuditLog.mk 1 [])).1.2.

(** ** From the dial to the subscriber *)

(** The store keeps the nodes of the round; the default engine is "both". *)
#[local] Instance engine_policy : PolicyCodec := λ p, Some (Policy.DialEngine p).
Definition dialling : config :=
  Default <| Config.Dial := (Config.Dial Default) <| DialConfig.Enabled := true |> |>
    <| Config.Filter := (Config.Filter Default) <| FilterConfig.MinScore := f_zero |> |>
    <| Config.Publish := (Config.Publish Default) <| PublishConfig.MinScore := f_of_Z 1 |> |>
    <| Config.Geo := (Config.Geo Default) <| GeoConfig.RenameWithFlag := true |> |>.
Definition seen_batch : list node :=
  (λ n, n <| Node.LastSeenAt := t0 |> <| Node.Country := "JP" |> <| Node.Alive := true |>) <$> dialled_batch.
Definition round_store : store := (UpsertNodes no_io (t0 + Hour) (dial_round dialling dial_engines seen_batch) base).2.
Definition at_two (i : nat) : Time := t0 + 2 * Hour.
Lemma base_step_ok s : rtc step base s → store_ok s.
Proof. intros Hs. exact (steps_ok base s Hs base_ok). Qed.
Lemma round_store_ok : store_ok round_store.
Proof. apply base_step_ok, rtc_once. exact (step_upsert in_order no_io (t0 + Hour) _ base). Qed.

Lemma publish_sound_witness :
  (Node.Name <$> SelectPublishNodes dialling at_two round_store) = ["🇯🇵 Tokyo"] ∧
  ∀ n, n ∈ SelectPublishNodesCountry dialling at_two "" round_store → ∃ m, Node.ID n = Node.ID m ∧ Node.Verified m = true.
Proof.
  split; [by vm_compute|]. intros n Hn.
  destruct (publish_sound dialling at_two "" round_store round_store_ok) as [Hs _].
  destruct (Hs n Hn) as (m & _ & _ & Hid & Hp). exists m. split; [exact Hid|].
  destruct (pub_dialled _ _ _ _ Hp eq_refl) as ((Hv & _) & _). exact Hv.
Defined.

(** Mihomo did not reach the second node: it is not published. *)
Definition second_node : node := paris <| Node.LastSeenAt := t0 |> <| Node.Country := "JP" |> <| Node.Alive := true |>.

(** ** Updates of the configuration *)

(** Patches as binary digits *)
#[local] Instance float_eq_dec : EqDecision spec_float.
Proof. solve_decision. Defined.
Definition float_sum (x : spec_float) : (bool + bool) + (unit + bool * BinNums.positive * Z) :=
  match x with
  | S754_zero s => inl (inl s) | S754_infinity s => inl (inr s) | S754_nan => inr (inl tt)
  | S754_finite s m e => inr (inr (s, m, e))
  end.
Definition sum_float (x : (bool + bool) + (unit + bool * BinNums.positive * Z)) : spec_float :=
  match x with
  | inl (inl s) => S754_zero s | inl (inr s) => S754_infinity s | inr (inl _) => S754_nan
  | inr (inr (s, m, e)) => S754_finite s m e
  end.
#[local] Instance float_countable : Countable spec_float.
Proof. apply (inj_countable' float_sum sum_float). by intros []. Defined.
Definition patch_list (p : RuntimePatch.t) : list BinNums.positive :=
  [encode (RuntimePatch.PublishMinScore p);
   encode (RuntimePatch.PublishMaxNodes p);
   encode (RuntimePatch.PublishAliveOnly p);
   encode (RuntimePatch.PublishCacheSec p);
   encode (RuntimePatch.PublishMaxNodeAgeHours p);
   encode (RuntimePatch.GovernanceDisableFailures p);
   encode (RuntimePatch.GovernanceCooldownHours p);
   encode (RuntimePatch.GovernanceHQDropPercent p);
   encode (RuntimePatch.GovernanceCountryShare p);
   encode (RuntimePatch.DialAfterQuality p);
   encode (RuntimePatch.DialAfterQualityMax p)].
Definition list_patch (l : list BinNums.positive) : option RuntimePatch.t :=
  match l with
  | [a; b; c; d; e; f; g; h; i; j; k] =>
      a ← decode a;       b ← decode b;       c ← decode c;       d ← decode d; 
      e ← decode e;       f ← decode f;       g ← decode g;       h ← decode h; 
      i ← decode i;       j ← decode j;       k ← decode k; 
      Some (RuntimePatch.mk a b c d e f g h i j k)
  | _ => None
  end.
Lemma list_patch_list p : list_patch (patch_list p) = Some p.
Proof. unfold list_patch, patch_list. by rewrite !decode_encode; destruct p. Qed.
#[local] Instance digit_patches : PatchCodec.
Proof.
  refine {| patch_marshal p := Ok (digits (encode (patch_list p)));
            patch_unmarshal text := x ← of_digits text; l ← decode x; list_patch l |}.
  intros p text [= <-]. rewrite of_digits_digits. cbn [mbind option_bind]. rewrite decode_encode.
  cbn [mbind option_bind]. apply list_patch_list.
Defined.

Definition update (i : Z) : Runtime.Update.t :=
  Runtime.Update.mk ("v" +:+ Itoa i) (t0 + i * Hour) (t0 + i * Hour) (λ _, t0 + i * Hour) NoRedis 8.
Definition started (cfg : config) : Runtime.t :=
  Runtime.mk (runtime_config cfg (Some ∅)) (Some ∅) (AuditLog.mk 1 []) base empty_cache.
Definition stricter : RuntimePatch.t := RuntimePatch.mk (Some (f_of_Z 80)) None None None None None None None None None None.
Definition updated (cfg : config) : Runtime.t := (UpdateRuntimeConfig (update 1) "admin" stricter (started cfg)).2.

(** The site as [normalize] leaves it: 500 nodes are published. *)
Definition usual_site : config :=
  site <| Config.Publish := (Config.Publish site) <| PublishConfig.MaxNodes := 500 |> |>.
Lemma usual_validates : Validate usual_site = Ok tt.
Proof. by vm_compute. Qed.
(** A cool down of a thousand hours is a valid file, but no valid patch. *)
Definition patient_site : config :=
  usual_site <| Config.Governance := (Config.Governance site) <| GovernanceConfig.CooldownHours := 1000 |> |>.
Lemma patient_validates : Validate patient_site = Ok tt.
Proof. by vm_compute. Qed.

Lemma started_current cfg : Runtime.Current (started cfg) = runtime_config cfg (Some ∅).
Proof. reflexivity. Qed.
Lemma started_versions cfg : Runtime.Versions (started cfg) = Some ∅.
Proof. reflexivity. Qed.
Lemma updated_steps cfg : rtc runtime_step (started cfg) (updated cfg).
Proof.
  apply rtc_once, runtime_update. rewrite started_versions. intros t [= <-] v Hv.
  by apply elem_of_rows in Hv as [k Hk].
Qed.
