(* ===== verification/Runner.v ===== *)
(** * The jobs of the service

    The life of a job in [internal/service/service.go]: how it is created,
    admitted, run through its stages, completed or failed, and what the durable
    queue is told.  The stages themselves are the record [Stages.t]; a stage
    returns, with an error or without, or panics.  [clock] gives the readings
    of the clock, [post] what the alert webhook answers. *)
From S2P Require Import Prelude Sql GoStr GoFloat GoTime Model Tasks Jobs Alerts Base64 Links Clash.
From S2P Require Import Config NodeStore NodesDB Publish Sources Fetch.

(** The codec of the options of a queued job *)
Class JobOptionsCodec := {
  job_options_marshal : gmap string json → option string;
  job_options_unmarshal : string → option (gmap string json);
}.
#[export] Instance job_options `{JobOptionsCodec} : OptionsCodec := {|
  options := gmap string json; options_marshal := job_options_marshal; options_unmarshal := job_options_unmarshal |}.

(** What the jobs change of [Service]: the store of the nodes, their durable
    table, the states of the sources, the published cache, the rest of the
    database if there is one, the running jobs, and their limit *)
Module Service.
Record t := mk {
  Nodes : store;
  Durable : option node_table;
  States : Sources.t;
  Pub : Cache.t;
  Db : option History.t;
  Active : gset string;
  MaxJobs : Z;
}.
#[export] Instance eta : Eta t := λ s,
  mk (Nodes s) (Durable s) (States s) (Pub s) (Db s) (Active s) (MaxJobs s).
End Service.
Export (hints) Service.
Abbreviation state := (Job.t * Service.t)%type.

(** How a stage ends *)
Inductive ran := Done | Failed (e : error) | Panicked (v : string).
Definition stage := state → ran * state.
Module Stages.
Record t := mk {
  doFetch : float64 → float64 → stage;
  doQuality : float64 → float64 → stage;
  doAI : float64 → float64 → stage;
  doGeo : float64 → float64 → stage;
  doPurity : float64 → float64 → stage;
  doDial : float64 → float64 → stage;
  doExport : state → option string * state;
}.
End Stages.

Definition text_of (opts : gmap string json) (k : string) : string :=
  match opts !! k with Some (JStr s) => s | _ => "" end.
Definition true_of (opts : gmap string json) (k : string) : bool :=
  match opts !! k with Some (JBool b) => b | _ => false end.

(** [NewWithOptions]: the limit of the running jobs *)
Definition max_jobs (cfg : config) : Z := Z.max 1 (QueueConfig.EmbeddedWorkers (Config.Queue cfg)).

(** [newJob] *)
Definition public_options (opts : gmap string json) : gmap string json :=
  filter (λ kv, HasPrefix kv.1 "_" = false) opts.
Definition fresh_job (id typ : string) (opts : gmap string json) (now : Time) : Job.t :=
  let or_default s d := if (s =? "")%string then d else s in
  Job.mk id typ JobPending f_zero "queued" "" (Some ∅) now now None None (Some (public_options opts))
    (or_default (text_of opts "_actor") "system") (or_default (text_of opts "_tenant") "default").
Definition newJob (id newid typ : string) (opts : gmap string json) (now : Time) (s : Service.t) : state :=
  let j := fresh_job (if (id =? "")%string then newid else id) typ opts now in
  (j, s <| Service.Nodes := NodeStore.SaveJob j (Service.Nodes s) |>).

Section runner.
Context `{TzData} `{LenientParse} `{Quoting} `{JobOptionsCodec}.

(** ** Updates *)

(** [updateJob]; an error of the database is only logged. *)
Definition ended_status (status : string) : bool :=
  bool_decide (status ∈ [JobCompleted; JobFailed; JobCanceled]).
Definition eventful (status : string) (progress : float64) (msg : string) : bool :=
  negb (msg =? "")%string && ((Z.rem (f_to_int64 progress) 25 =? 0) || ended_status status).
Definition record_job (j : Job.t) (t : Time) (h : History.t) : History.t :=
  h <| History.jobs := Jobs.SaveJob (History.jobs h) j |>
    <| History.events :=
         if eventful (Job.Status j) (Job.Progress j) (Job.Message j)
         then AddJobEvent (History.events h) (Job.ID j) "info" (Job.Message j) t else History.events h |>.
Definition updateJob (status : string) (progress : float64) (msg : string) (t1 t2 : Time) (st : state) : state :=
  let j := st.1 <| Job.Status := status |> <| Job.Progress := progress |> <| Job.Message := msg |>
             <| Job.UpdatedAt := t1 |> in
  (j, st.2 <| Service.Nodes := NodeStore.SaveJob j (Service.Nodes st.2) |>
           <| Service.Db := record_job j t2 <$> Service.Db st.2 |>).

(** [raiseAlert]; [post] is the error of the webhook. *)
Definition raiseAlert (cfg : config) (post : Alert.t → option error) (kind severity message : string)
    (details : gmap string json) (t : Time) (h : History.t) : option error * History.t :=
  let '(alert, alerts) := RaiseAlert (History.alerts h) kind severity message (Some details) t in
  let h := h <| History.alerts := alerts |> in
  if (GovernanceConfig.AlertWebhookURL (Config.Governance cfg) =? "")%string then (None, h) else (post alert, h).

(** [complete] *)
Definition complete (msg : string) (clock : nat → Time) (st : state) : state :=
  let j := st.1 <| Job.EndedAt := Some (clock 0%nat) |> in
  let '(j, s) := updateJob JobCompleted (f_of_Z 100) msg (clock 1%nat) (clock 2%nat) (j, st.2) in
  (j, s <| Service.Db := (λ h, h <| History.alerts :=
         ResolveAlertIfActive (History.alerts h) "consecutive-job-failures" (clock 3%nat) |>) <$> Service.Db s |>).

(** [fail] *)
Definition alert_failures (cfg : config) (post : Alert.t → option error) (j : Job.t) (t : Time) (h : History.t)
    : History.t :=
  let threshold := GovernanceConfig.JobFailureThreshold (Config.Governance cfg) in
  let failures := RecentConsecutiveJobFailures (History.jobs h) threshold in
  if threshold <=? failures
  then (raiseAlert cfg post "consecutive-job-failures" "critical" (Itoa failures +:+ " consecutive jobs failed")
          (list_to_map [("failures", JNum (f_of_Z failures)); ("job_id", JStr (Job.ID j));
             ("job_type", JStr (Job.Type_ j)); ("error", JStr (Job.Error j))]) t h).2
  else h.
Definition fail (cfg : config) (post : Alert.t → option error) (err : error) (clock : nat → Time) (st : state) : state :=
  let j := st.1 <| Job.EndedAt := Some (clock 0%nat) |> <| Job.Error := err_text err |> in
  let status := if bool_decide (err = ErrCanceled) then JobCanceled else JobFailed in
  let '(j, s) := updateJob status (Job.Progress j) (err_text err) (clock 1%nat) (clock 2%nat) (j, st.2) in
  (j, if (status =? JobFailed)%string
      then s <| Service.Db := alert_failures cfg post j (clock 3%nat) <$> Service.Db s |> else s).

(** ** The stages of a type: [runFull] and the others *)

(** What a job needs from outside: the configuration of the moment, the
    webhook, the clock of the end and of the recovery *)
Context (cfg : config) (post : Alert.t → option error) (stages : Stages.t).

(** A run: the value of a panic, if there is one, and what is left *)
Definition run : Type := (nat → Time) → state → option string * state.
(** [if err := stage; err != nil { s.fail(j, err); return }], and the rest *)
Definition try (st : stage) (rest : run) : run := λ clock s,
  match st s with
  | (Panicked v, s) => (Some v, s)
  | (Failed e, s) => (None, fail cfg post e clock s)
  | (Done, s) => rest clock s
  end.
Definition export_and_complete (msg : string) : run := λ clock s,
  match Stages.doExport stages s with
  | (Some v, s) => (Some v, s)
  | (None, s) => (None, complete msg clock s)
  end.
Definition with_stat (k : string) (v : json) (s : state) : state :=
  (s.1 <| Job.Stats := Some (<[k := v]> (default ∅ (Job.Stats s.1))) |>, s.2).
Definition runFull : run :=
  try (Stages.doFetch stages f_zero (f_of_Z 35))
    (try (Stages.doQuality stages (f_of_Z 35) (f_of_Z 75))
       (λ clock s,
          if true_of (default ∅ (Job.Options s.1)) "skip_ai"
          then export_and_complete "full pipeline done" clock
                 (updateJob JobRunning (f_of_Z 90) "ai skipped" (clock 4%nat) (clock 5%nat) (with_stat "ai_skipped" (JBool true) s))
          else
            match Stages.doAI stages (f_of_Z 75) (f_of_Z 95) s with
            | (Panicked v, s) => (Some v, s)
            | (Failed e, s) => export_and_complete "full pipeline done" clock (with_stat "ai_error" (JStr (err_text e)) s)
            | (Done, s) => export_and_complete "full pipeline done" clock s
            end)).
Definition runFetch : run := try (Stages.doFetch stages f_zero (f_of_Z 90)) (export_and_complete "fetch done").
Definition runQuality : run := try (Stages.doQuality stages f_zero (f_of_Z 95)) (export_and_complete "quality done").
Definition runAI : run := try (Stages.doAI stages f_zero (f_of_Z 95)) (export_and_complete "ai probe done").
Definition runGeo : run := try (Stages.doGeo stages f_zero (f_of_Z 95)) (export_and_complete "geo annotate done").
Definition runPurity : run := try (Stages.doPurity stages f_zero (f_of_Z 95)) (export_and_complete "purity done").
Definition runDial : run := try (Stages.doDial stages f_zero (f_of_Z 95)) (export_and_complete "dial done").
Definition runnerFor (typ : string) : result run :=
  if (typ =? "full")%string then Ok runFull
  else if (typ =? "fetch")%string then Ok runFetch
  else if (typ =? "quality")%string then Ok runQuality
  else if (typ =? "ai")%string then Ok runAI
  else if (typ =? "geo")%string then Ok runGeo
  else if (typ =? "dial")%string then Ok runDial
  else if (typ =? "purity")%string then Ok runPurity
  else Err (ErrMsg ("unsupported job type " +:+ quote typ)).

(** ** Starting: [startNow] *)

(** Admission: the job has its identifier and its place among the running ones. *)
Definition take_place (id newid : string) (s : Service.t) : result (string * Service.t) :=
  if Service.MaxJobs s <=? Z.of_nat (size (Service.Active s)) then Err (ErrMsg "job concurrency limit reached")
  else
    let id := if (id =? "")%string then newid else id in
    Ok (id, s <| Service.Active := {[id]} ∪ Service.Active s |>).
(** The record of the job, with the creation time of an earlier one *)
Definition persist_new (clock : Time) (st : state) : state :=
  match Service.Db st.2 with
  | None => st
  | Some h =>
      let j := match Jobs.GetJob (History.jobs h) (Job.ID st.1) with
               | Ok persisted => st.1 <| Job.CreatedAt := Job.CreatedAt persisted |>
               | Err _ => st.1
               end in
      (j, st.2 <| Service.Db := Some (h <| History.jobs := Jobs.SaveJob (History.jobs h) j |>
             <| History.audit := Audit (History.audit h) (Job.Actor j) "job.start" (Job.Type_ j +:+ " " +:+ Job.ID j) clock |>) |>)
  end.
(** The body of a job, with its recovery from a panic; [late] is the clock of
    the recovery. *)
Definition run_job (fn : run) (started clock late : nat → Time) (st : state) : state :=
  let j := st.1 <| Job.StartedAt := Some (started 0%nat) |> in
  let st := updateJob JobRunning (f_of_Z 1) "starting" (started 1%nat) (started 2%nat) (j, st.2) in
  match fn clock st with
  | (Some v, st) => fail cfg post (ErrMsg ("job panic: " +:+ v)) late st
  | (None, st) => st
  end.
Definition release (id : string) (s : Service.t) : Service.t := s <| Service.Active := Service.Active s ∖ {[id]} |>.

(** What a start meets: the random identifier and the clocks *)
Record timing := { newid : string; created : Time; audited : Time;
                   started : nat → Time; ending : nat → Time; recovery : nat → Time }.
(** [startNow] up to the point where the job runs *)
Definition create_job (t : timing) (id typ : string) (opts : gmap string json) (s : Service.t) : result state :=
  let! (id, s) := take_place id (newid t) s in
  Ok (persist_new (audited t) (newJob id (newid t) typ opts (created t) s)).
(** [startNow] of a worker, that waits for the job *)
Definition startNow (t : timing) (id typ : string) (opts : gmap string json) (fn : run) (s : Service.t) : result state :=
  let! st := create_job t id typ opts s in
  let '(j, s) := run_job fn (started t) (ending t) (recovery t) st in
  Ok (j, release (Job.ID j) s).

(** [RunQueuedTask], on a task that is not nil: the job, if it ran, and the
    error for the queue *)
Definition queue_error (j : Job.t) : option error :=
  if (Job.Status j =? JobCompleted)%string then None
  else if (Job.Status j =? JobCanceled)%string then Some ErrCanceled
  else Some (ErrMsg (if (Job.Error j =? "")%string then "job finished with status " +:+ Job.Status j else Job.Error j)).
Definition RunQueuedTask (t : timing) (task : QueuedTask.t) (s : Service.t)
    : option Job.t * option error * Service.t :=
  match runnerFor (QueuedTask.Type_ task) with
  | Err e => (None, Some e, s)
  | Ok fn =>
      match startNow t (QueuedTask.ID task) (QueuedTask.Type_ task) (QueuedTask.Options task) fn s with
      | Err e => (None, Some e, s)
      | Ok (j, s) => (Some j, queue_error j, s)
      end
  end.

(** ** Submitting and cancelling *)

(** [Submit]: with the queue the task is enqueued; without, the job is created
    and runs on its own, as [run_job] says. *)
Definition submit_queued (t : timing) (clock : nat → Time) (typ : string) (opts : gmap string json) (s : Service.t)
    : result Job.t * Service.t :=
  match Service.Db s with
  | None => (Err (ErrMsg "durable queue requires database.enabled"), s)
  | Some h =>
      let priority := if true_of opts "scheduled" then 10 else 100 in
      let '(j, s) := newJob (newid t) "" typ opts (created t) s in
      let h := h <| History.jobs := Jobs.SaveJob (History.jobs h) j |> in
      let s := s <| Service.Db := Some h |> in
      let task := QueuedTask.mk (newid t) typ opts priority "" 0 (QueueConfig.MaxAttempts (Config.Queue cfg))
                    "" "" "" "" "" "" "" "" in
      match EnqueueTask (History.tasks h) task (QueueConfig.MaxPending (Config.Queue cfg)) "" (audited t) with
      | Err e => (Err e, (fail cfg post e clock (j, s)).2)
      | Ok tasks =>
          let s := s <| Service.Db := Some (h <| History.tasks := tasks |>) |> in
          let '(j, s) := updateJob JobPending f_zero "queued" (clock 4%nat) (clock 5%nat) (j, s) in (Ok j, s)
      end
  end.
Definition Submit (t : timing) (clock : nat → Time) (typ : string) (opts : gmap string json) (s : Service.t)
    : result Job.t * Service.t :=
  match runnerFor typ with
  | Err e => (Err e, s)
  | Ok _ =>
      if QueueConfig.Enabled (Config.Queue cfg) then submit_queued t clock typ opts s
      else
        match create_job t "" typ opts s with
        | Err e => (Err e, s)
        | Ok (j, s) =>
            match NodeStore.GetJob (Job.ID j) (Service.Nodes s) with
            | Some snapshot => (Ok snapshot, s)
            | None => (Err (ErrMsg ("job " +:+ Job.ID j +:+ " snapshot unavailable")), s)
            end
        end
  end.

(** [CancelJob], [CancelJobID]: whether there was a job whose context ends *)
Definition CancelJob (s : Service.t) : bool := negb (bool_decide (Service.Active s = ∅)).
Definition CancelJobID (id : string) (s : Service.t) : bool := bool_decide (id ∈ Service.Active s).
End runner.
