(* ===== verification/RunnerProofs.v ===== *)
(** * How jobs end

    Whatever its stages do, a job that was started ends: completed, failed or
    canceled, with the same record in memory and in the database, and no longer
    among the running ones; the queue is told accordingly. *)
From S2P Require Import Prelude Sql GoStr GoFloat GoTime Model Tasks Jobs Alerts Config NodeStore NodesDB Publish.
From S2P Require Import Sources Fetch Worker TaskQueue Runner.

(** ** What the stages must keep *)

(** A stage may change the progress, the message and the statistics of its
    job. *)
Definition same_job (j j' : Job.t) : Prop :=
  Job.ID j' = Job.ID j ∧ Job.Type_ j' = Job.Type_ j ∧ Job.Actor j' = Job.Actor j ∧ Job.TenantID j' = Job.TenantID j ∧
  Job.CreatedAt j' = Job.CreatedAt j ∧ Job.StartedAt j' = Job.StartedAt j ∧ Job.EndedAt j' = Job.EndedAt j ∧
  Job.Error j' = Job.Error j.
Definition same_service (s s' : Service.t) : Prop :=
  Service.Active s' = Service.Active s ∧ Service.MaxJobs s' = Service.MaxJobs s ∧
  (is_Some (Service.Db s') ↔ is_Some (Service.Db s)).
Definition keeps (st st' : state) : Prop := same_job st.1 st'.1 ∧ same_service st.2 st'.2.
Definition stage_ok (f : stage) : Prop := ∀ st, keeps st (f st).2.
Record stages_ok (stages : Stages.t) : Prop := {
  fetch_ok p q : stage_ok (Stages.doFetch stages p q);
  quality_ok p q : stage_ok (Stages.doQuality stages p q);
  ai_ok p q : stage_ok (Stages.doAI stages p q);
  geo_ok p q : stage_ok (Stages.doGeo stages p q);
  purity_ok p q : stage_ok (Stages.doPurity stages p q);
  dial_ok p q : stage_ok (Stages.doDial stages p q);
  export_ok st : keeps st (Stages.doExport stages st).2;
}.
#[export] Instance keeps_preorder : PreOrder keeps.
Proof.
  unfold keeps, same_job, same_service. split; [done|]. intros x y z Hxy Hyz. destruct_and!.
  split; [split_and!; congruence|]. split; [congruence|]. split; [congruence|]. naive_solver.
Qed.

Section runs.
Context `{TzData} `{LenientParse} `{Quoting} `{JobOptionsCodec}.
Context (cfg : config) (post : Alert.t → option error).

(** A job is recorded when memory and database agree with it. *)
Definition recorded_job (st : state) : Prop :=
  Store.jobs (Service.Nodes st.2) !! Job.ID st.1 = Some st.1 ∧
  ∀ h, Service.Db st.2 = Some h → ∃ r, History.jobs h !! Job.ID st.1 = Some r ∧
    JobRow.status r = Job.Status st.1 ∧ JobRow.error r = Job.Error st.1 ∧ JobRow.message r = Job.Message st.1 ∧
    JobRow.ended_at r = fmtTimePtr (Job.EndedAt st.1).
(** A job has ended with a status. *)
Definition ended_with (status : string) (st : state) : Prop :=
  Job.Status st.1 = status ∧ is_Some (Job.EndedAt st.1) ∧ recorded_job st.

Lemma SaveJob_lookup (t : job_table) j : ∃ r, Jobs.SaveJob t j !! Job.ID j = Some r ∧
  JobRow.status r = Job.Status j ∧ JobRow.error r = Job.Error j ∧ JobRow.message r = Job.Message j ∧
  JobRow.ended_at r = fmtTimePtr (Job.EndedAt j).
Proof. unfold Jobs.SaveJob. destruct (t !! Job.ID j); rewrite lookup_insert_eq; by eexists. Qed.
Lemma update_recorded status progress msg t1 t2 st : recorded_job (updateJob status progress msg t1 t2 st).
Proof.
  unfold recorded_job, updateJob. cbn [fst snd]. set (j := _ <| Job.UpdatedAt := t1 |>). clearbody j.
  destruct st as [j0 [nodes durable states pub db active max]]. simpl. split.
  - unfold NodeStore.SaveJob. destruct (Store.jobs nodes !! Job.ID j); simpl; by rewrite lookup_insert_eq.
  - intros h Hh. destruct db as [h0|]; [|done]. injection Hh as <-. apply SaveJob_lookup.
Qed.
Lemma update_same status progress msg t1 t2 st :
  let st' := updateJob status progress msg t1 t2 st in
  keeps st st' ∧ Job.Status st'.1 = status ∧ Job.Message st'.1 = msg.
Proof.
  destruct st as [j s]. unfold updateJob. cbv zeta. cbn [fst snd]. unfold keeps. split; [|by destruct j].
  split; [by destruct j|]. destruct s as [nodes durable states pub db active max]. unfold same_service. simpl.
  split; [done|]. split; [done|]. by rewrite fmap_is_Some.
Qed.

Lemma recorded_other st f :
  (∀ h, History.jobs (f h) = History.jobs h) → recorded_job st →
  recorded_job (st.1, st.2 <| Service.Db := f <$> Service.Db st.2 |>).
Proof.
  intros Hf [Hm Hd]. destruct st as [j [nodes durable states pub db active max]]. split; [exact Hm|]. simpl in *. intros h Hh.
  destruct db as [h0|]; [|done]. injection Hh as <-. rewrite Hf. by apply Hd.
Qed.
Lemma alert_failures_jobs j t h : History.jobs (alert_failures cfg post j t h) = History.jobs h.
Proof.
  unfold alert_failures, raiseAlert. case_match; [|done].
  destruct (RaiseAlert _ _ _ _ _ _) as [a t']. case_match; by destruct h.
Qed.

(** What [complete] and [fail] leave *)
Definition identity_kept (st st' : state) : Prop :=
  Job.ID st'.1 = Job.ID st.1 ∧ Job.Type_ st'.1 = Job.Type_ st.1 ∧ Job.CreatedAt st'.1 = Job.CreatedAt st.1 ∧
  Job.StartedAt st'.1 = Job.StartedAt st.1 ∧ same_service st.2 st'.2.
Lemma complete_ends msg clock st :
  ended_with JobCompleted (complete msg clock st) ∧ identity_kept st (complete msg clock st) ∧
  Job.Error (complete msg clock st).1 = Job.Error st.1.
Proof.
  unfold complete. set (j := st.1 <| Job.EndedAt := _ |>).
  destruct (updateJob JobCompleted (f_of_Z 100) msg (clock 1%nat) (clock 2%nat) (j, st.2)) as [j' s'] eqn:E.
  pose proof (update_recorded JobCompleted (f_of_Z 100) msg (clock 1%nat) (clock 2%nat) (j, st.2)) as Hr.
  destruct (update_same JobCompleted (f_of_Z 100) msg (clock 1%nat) (clock 2%nat) (j, st.2)) as (Hk & Hs & _).
  rewrite E in *. cbn [fst snd] in *. unfold keeps, same_job in Hk. cbn [fst snd] in Hk. destruct Hk as [Hj Hsv]. destruct_and!.
  split; [|split].
  - split; [done|]. split; [cbn [fst]; replace (Job.EndedAt j') with (Job.EndedAt j) by congruence; by eexists|].
    apply (recorded_other (j', s')); [by intros []|done].
  - unfold identity_kept. cbn [fst snd]. unfold same_service in *. destruct_and!. split_and!; try (by subst j).
    destruct s' as [? ? ? ? db' ? ?]. simpl in *. by rewrite fmap_is_Some.
  - cbn [fst]. by subst j.
Qed.
Definition failed_status (e : error) : string := if bool_decide (e = ErrCanceled) then JobCanceled else JobFailed.
Lemma fail_ends e clock st :
  ended_with (failed_status e) (fail cfg post e clock st) ∧ identity_kept st (fail cfg post e clock st) ∧
  Job.Error (fail cfg post e clock st).1 = err_text e.
Proof.
  unfold fail. fold (failed_status e). set (j := st.1 <| Job.EndedAt := _ |> <| Job.Error := _ |>).
  destruct (updateJob (failed_status e) (Job.Progress j) (err_text e) (clock 1%nat) (clock 2%nat) (j, st.2)) as [j' s'] eqn:E.
  pose proof (update_recorded (failed_status e) (Job.Progress j) (err_text e) (clock 1%nat) (clock 2%nat) (j, st.2)) as Hr.
  destruct (update_same (failed_status e) (Job.Progress j) (err_text e) (clock 1%nat) (clock 2%nat) (j, st.2)) as (Hk & Hs & _).
  rewrite E in *. cbn [fst snd] in *. unfold keeps, same_job in Hk. cbn [fst snd] in Hk. destruct Hk as [Hj Hsv]. destruct_and!.
  split; [|split].
  - split; [done|]. split; [cbn [fst]; replace (Job.EndedAt j') with (Job.EndedAt j) by congruence; by eexists|].
    case_match; [|done]. apply (recorded_other (j', s')); [apply alert_failures_jobs|done].
  - unfold identity_kept. cbn [fst snd]. unfold same_service in *. destruct_and!.
    split_and!; try (by subst j); case_match; try done; destruct s' as [? ? ? ? db' ? ?]; simpl in *; try done. by rewrite fmap_is_Some.
  - cbn [fst]. by subst j.
Qed.

(** ** What the stages decide *)

Context (stages : Stages.t) (Hstages : stages_ok stages).

(** The error a job ends with, if any: that of the first stage that fails, or
    of a panic; of the AI stage of a full job only a panic counts. *)
Definition panic_error (v : string) : error := ErrMsg ("job panic: " +:+ v).
Definition stage_verdict (f : stage) (rest : state → option error) (st : state) : option error :=
  match f st with
  | (Panicked v, _) => Some (panic_error v)
  | (Failed e, _) => Some e
  | (Done, st) => rest st
  end.
Definition export_verdict (st : state) : option error := panic_error <$> (Stages.doExport stages st).1.
Definition full_verdict (clock : nat → Time) (st : state) : option error :=
  if true_of (default ∅ (Job.Options st.1)) "skip_ai"
  then export_verdict (updateJob JobRunning (f_of_Z 90) "ai skipped" (clock 4%nat) (clock 5%nat)
                         (with_stat "ai_skipped" (JBool true) st))
  else
    match Stages.doAI stages (f_of_Z 75) (f_of_Z 95) st with
    | (Panicked v, _) => Some (panic_error v)
    | (Failed e, st) => export_verdict (with_stat "ai_error" (JStr (err_text e)) st)
    | (Done, st) => export_verdict st
    end.
Definition verdict (typ : string) (clock : nat → Time) : state → option error :=
  let stage_of f := stage_verdict (f f_zero (f_of_Z 95)) export_verdict in
  if (typ =? "full")%string then
    stage_verdict (Stages.doFetch stages f_zero (f_of_Z 35))
      (stage_verdict (Stages.doQuality stages (f_of_Z 35) (f_of_Z 75)) (full_verdict clock))
  else if (typ =? "fetch")%string then stage_verdict (Stages.doFetch stages f_zero (f_of_Z 90)) export_verdict
  else if (typ =? "quality")%string then stage_of (Stages.doQuality stages)
  else if (typ =? "ai")%string then stage_of (Stages.doAI stages)
  else if (typ =? "geo")%string then stage_of (Stages.doGeo stages)
  else if (typ =? "dial")%string then stage_of (Stages.doDial stages)
  else stage_of (Stages.doPurity stages).
Definition verdict_status (v : option error) : string :=
  match v with None => JobCompleted | Some e => failed_status e end.
Definition verdict_error (d : string) (v : option error) : string :=
  match v with None => d | Some e => err_text e end.

(** A run with its recovery ends as its verdict says. *)
Definition recovered (fn : run) (clock late : nat → Time) (st : state) : state :=
  match fn clock st with
  | (Some v, st) => fail cfg post (panic_error v) late st
  | (None, st) => st
  end.
Definition run_spec (fn : run) (v : (nat → Time) → state → option error) : Prop :=
  ∀ clock late st, let st' := recovered fn clock late st in
    ended_with (verdict_status (v clock st)) st' ∧ identity_kept st st' ∧
    Job.Error st'.1 = verdict_error (Job.Error st.1) (v clock st).

Lemma keeps_identity st1 st2 st3 : keeps st1 st2 → identity_kept st2 st3 → identity_kept st1 st3.
Proof.
  unfold keeps, same_job, identity_kept, same_service. intros ? ?. destruct_and!. split_and!; try congruence. naive_solver.
Qed.
Lemma keeps_error st1 st2 : keeps st1 st2 → Job.Error st2.1 = Job.Error st1.1.
Proof. unfold keeps, same_job. by intros ?; destruct_and!. Qed.
Lemma with_stat_keeps k v st : keeps st (with_stat k v st).
Proof. destruct st as [[] []]. by repeat split. Qed.

Lemma export_spec msg : run_spec (export_and_complete stages msg) (λ _, export_verdict).
Proof.
  intros clock late st. unfold recovered, export_and_complete, export_verdict.
  pose proof (export_ok _ Hstages st) as Hk. destruct (Stages.doExport stages st) as [[v|] st1]; cbn [fst snd fmap option_fmap option_map] in *.
  - destruct (fail_ends (panic_error v) late st1) as (He & Hi & Herr). split; [exact He|]. split; [by eapply keeps_identity|done].
  - destruct (complete_ends msg clock st1) as (He & Hi & Herr). split; [exact He|]. split; [by eapply keeps_identity|].
    etransitivity; [exact Herr|by apply keeps_error].
Qed.
Lemma after_spec fn v clock late st st1 : run_spec fn v → keeps st st1 →
  let st' := recovered fn clock late st1 in
  ended_with (verdict_status (v clock st1)) st' ∧ identity_kept st st' ∧
  Job.Error st'.1 = verdict_error (Job.Error st.1) (v clock st1).
Proof.
  intros Hs Hk. destruct (Hs clock late st1) as (He & Hi & Herr). cbv zeta. split; [exact He|].
  split; [by eapply keeps_identity|]. rewrite Herr. by rewrite (keeps_error _ _ Hk).
Qed.
Lemma try_spec f rest v : stage_ok f → run_spec rest v →
  run_spec (try cfg post f rest) (λ clock, stage_verdict f (v clock)).
Proof.
  intros Hf Hrest clock late st. unfold recovered, try, stage_verdict. pose proof (Hf st) as Hk.
  destruct (f st) as [[|e|p] st1] eqn:E; cbn [fst snd] in *.
  - by apply (after_spec rest v clock late st st1).
  - destruct (fail_ends e clock st1) as (He & Hi & Herr). split; [exact He|]. split; [by eapply keeps_identity|done].
  - destruct (fail_ends (panic_error p) late st1) as (He & Hi & Herr). split; [exact He|]. split; [by eapply keeps_identity|done].
Qed.
Lemma full_spec : run_spec (runFull cfg post stages) (verdict "full").
Proof.
  apply (try_spec _ _ (λ clock, stage_verdict _ (full_verdict clock))); [apply (fetch_ok _ Hstages)|].
  apply (try_spec _ _ full_verdict); [apply (quality_ok _ Hstages)|].
  intros clock late st. unfold recovered, full_verdict. destruct (true_of _ _).
  - apply (after_spec _ _ clock late st _ (export_spec "full pipeline done")).
    etransitivity; [apply with_stat_keeps|apply update_same].
  - pose proof (ai_ok _ Hstages (f_of_Z 75) (f_of_Z 95) st) as Hk.
    destruct (Stages.doAI stages _ _ st) as [[|e|p] st1]; cbn [fst snd] in *.
    + by apply (after_spec _ _ clock late st _ (export_spec "full pipeline done")).
    + apply (after_spec _ _ clock late st _ (export_spec "full pipeline done")).
      etransitivity; [exact Hk|apply with_stat_keeps].
    + destruct (fail_ends (panic_error p) late st1) as (He & Hi & Herr). split; [exact He|]. split; [by eapply keeps_identity|done].
Qed.
Lemma runner_spec typ fn : runnerFor cfg post stages typ = Ok fn → run_spec fn (verdict typ).
Proof.
  unfold runnerFor. 
  repeat (match goal with |- context [(typ =? ?s)%string] => destruct (String.eqb_spec typ s) as [->|_] end; [intros [= <-]|]);
    [apply full_spec|..|done];
    (apply (try_spec _ _ (λ _, export_verdict)); [|apply export_spec]).
  - apply (fetch_ok _ Hstages).
  - apply (quality_ok _ Hstages).
  - apply (ai_ok _ Hstages).
  - apply (geo_ok _ Hstages).
  - apply (dial_ok _ Hstages).
  - apply (purity_ok _ Hstages).
Qed.
End runs.

(** ** What the queue is told *)

Section queue.
Context `{TzData} `{LenientParse} `{Quoting} `{JobOptionsCodec}.

(** The row of a task whose worker reports a result in time *)
Definition reported (err : option string) (r : row) : string :=
  match err with
  | None => TaskCompleted
  | Some _ => if TaskRow.max_attempts r <=? TaskRow.attempts r then TaskDead else TaskQueued
  end.
Lemma record_result_row o t task w err now r tk :
  keyed t → t !! QueuedTask.ID task = Some r → leased_by (QueuedTask.ID task) w r = true → scanTask r = Ok tk →
  ∃ r', record_result o t task w err now !! QueuedTask.ID task = Some r' ∧ TaskRow.status r' = reported err r ∧
    TaskRow.attempts r' = TaskRow.attempts r.
Proof.
  intros Hk Hr Hl Hsc. set (id := QueuedTask.ID task) in *. unfold record_result. fold id.
  assert (Hc : count_where (leased_by id w) t = 1) by (rewrite count_leased by done; by rewrite Hr, Hl).
  assert (Hfin : ∀ status msg, finishTask t id w status msg now = Ok (<[id := finish_row status msg (fmtTime now) r]> t)).
  { intros status msg. unfold finishTask. rewrite Hc. simpl. f_equal. by apply update_where_leased. }
  pose proof (proj1 (leased_by_spec _ _ _) Hl) as (_ & Hst & Hw).
  destruct err as [msg|].
  - unfold FailTask, FailTask_read, GetTask. rewrite Hr, Hsc. cbn [rbind].
    destruct (scanTask_inv _ _ Hsc) as (_ & Hs & Ha & Hm & Hwk). rewrite Hs, Hwk, Hst, Hw. cbn [default from_option id].
    rewrite !String.eqb_refl. cbn [negb orb rbind]. unfold FailTask_write. rewrite Ha, Hm. unfold reported.
    destruct (TaskRow.max_attempts r <=? TaskRow.attempts r).
    + rewrite Hfin, lookup_insert_eq. by eexists.
    + cbn [rbind]. rewrite (update_where_leased id w _ t r) by done. rewrite lookup_insert_eq. by eexists.
  - unfold CompleteTask. rewrite Hfin, lookup_insert_eq. by eexists.
Qed.

Context (cfg : config) (post : Alert.t → option error) (stages : Stages.t).

Lemma create_job_spec t id typ opts s st : id ≠ "" → create_job t id typ opts s = Ok st →
  Job.ID st.1 = id ∧ Job.Error st.1 = "" ∧ Service.Active st.2 = {[id]} ∪ Service.Active s ∧
  Z.of_nat (size (Service.Active s)) < Service.MaxJobs s ∧ Service.MaxJobs st.2 = Service.MaxJobs s ∧
  (is_Some (Service.Db st.2) ↔ is_Some (Service.Db s)).
Proof.
  intros Hid. unfold create_job, take_place. destruct (_ <=? _) eqn:E; [done|]. bsplit. cbn [rbind].
  apply String.eqb_neq in Hid as Hb. rewrite !Hb. unfold newJob. rewrite Hb. intros [= <-].
  unfold persist_new. cbn [fst snd]. destruct s as [nodes durable states pub [h|] active max]; cbn -[fresh_job] in *; [|done].
  destruct (Jobs.GetJob _ _); split_and!; try done; split; intros _; by eexists.
Qed.

(** A queued job settles.  When the worker has run a task, its job has
    ended as the stages decided: completed without an error, canceled when
    their error is the end of the context, failed otherwise, also after a
    panic, with the error recorded; the store and the database agree, and the
    job is no longer among the running ones.  The queue is told the same in
    time: the task of a completed job is completed, every other one, that of a
    canceled job too, waits for its next attempt or, without one, is dead. *)
Theorem job_settles t task s j err s' :
  stages_ok stages → QueuedTask.ID task ≠ "" → QueuedTask.ID task ∉ Service.Active s →
  RunQueuedTask cfg post stages t task s = (Some j, err, s') →
  ∃ st, Job.ID st.1 = QueuedTask.ID task ∧ Job.Status st.1 = JobRunning ∧
    let v := verdict stages (QueuedTask.Type_ task) (ending t) st in
    ended_with (verdict_status v) (j, s') ∧ Job.ID j = QueuedTask.ID task ∧ Job.Error j = verdict_error "" v ∧
    Service.Active s' = Service.Active s ∧ (err = None ↔ v = None) ∧
    (v = Some ErrCanceled → Job.Status j = JobCanceled ∧ err = Some ErrCanceled) ∧
    (∀ h r tk o w now, Service.Db s' = Some h → keyed (History.tasks h) →
       History.tasks h !! QueuedTask.ID task = Some r → leased_by (QueuedTask.ID task) w r = true → scanTask r = Ok tk →
       ∃ r', record_result o (History.tasks h) task w (err_text <$> err) now !! QueuedTask.ID task = Some r' ∧
         TaskRow.status r' = (if decide (v = None) then TaskCompleted
                              else if TaskRow.max_attempts r <=? TaskRow.attempts r then TaskDead else TaskQueued)).
Proof.
  intros Hst Hid Hnew. unfold RunQueuedTask. destruct (runnerFor _ _ _ _) as [fn|] eqn:Er; [|done].
  unfold startNow. destruct (create_job _ _ _ _ _) as [st0|] eqn:Ec; [|done]. cbn [rbind].
  destruct (create_job_spec _ _ _ _ _ _ Hid Ec) as (Hj0 & He0 & Ha0 & _).
  destruct (run_job cfg post fn _ _ _ st0) as [j1 s1] eqn:Erun. intros [= <- <- <-].
  unfold run_job in Erun. set (st := updateJob JobRunning _ _ _ _ _) in Erun.
  destruct (update_same JobRunning (f_of_Z 1) "starting" (started t 1%nat) (started t 2%nat)
    (st0.1 <| Job.StartedAt := Some (started t 0%nat) |>, st0.2)) as (Hk & Hs & _). fold st in Hk, Hs.
  unfold keeps, same_job, same_service in Hk. cbn [fst snd] in Hk.
  assert (Hst1 : Job.ID st.1 = QueuedTask.ID task ∧ Job.Error st.1 = "" ∧ Service.Active st.2 = {[QueuedTask.ID task]} ∪ Service.Active s).
  { destruct_and!. split_and!; [etransitivity; [eassumption|]|etransitivity; [eassumption|]|congruence]; by destruct (st0.1). }
  destruct Hst1 as (Hst1 & Hst2 & Hst3). clear Hk. exists st. split; [done|]. split; [done|].
  destruct (runner_spec cfg post stages Hst _ _ Er (ending t) (recovery t) st) as (Hends & Hi & Herr).
  unfold recovered, panic_error in Hends, Hi, Herr. rewrite Erun in Hends, Hi, Herr. cbn [fst snd] in *.
  set (v := verdict stages _ _ st) in *. cbv zeta. clearbody v st. clear Er Erun Ec.
  unfold identity_kept, same_service in Hi. cbn [fst snd] in Hi. destruct Hi as (Hij & _ & _ & _ & Hact & _).
  rewrite Hij, Hst1. rewrite Hst2 in Herr.
  assert (Hq : queue_error j1 = match v with None => None | Some e =>
    if bool_decide (e = ErrCanceled) then Some ErrCanceled else queue_error j1 end ∧ (v ≠ None → queue_error j1 ≠ None)).
  { destruct Hends as (Hstat & _). cbn [fst] in Hstat. unfold queue_error. rewrite Hstat. destruct v as [e|]; [|by split].
    unfold verdict_status, failed_status. case_bool_decide; by split. }
  destruct Hq as [Hq Hq'].
  split; [destruct Hends as (? & ? & Hm & Hd); by repeat split|]. split; [done|]. split; [done|].
  split; [destruct s1; unfold release; simpl in *; rewrite Hact, Hst3; set_solver|].
  split; [split; [intros E; destruct v; [by destruct (Hq' ltac:(done))|done]|by intros ->]|].
  split; [intros ->; rewrite Hq; destruct Hends as (Hstat & _); by split|].
  intros h r tk o w now Hh Hkey Hr Hl Hsc.
  destruct (record_result_row o (History.tasks h) task w (err_text <$> queue_error j1) now r tk Hkey Hr Hl Hsc) as (r' & Hr' & Hst' & _).
  exists r'. split; [done|]. rewrite Hst'. unfold reported. destruct v as [e|].
  - destruct (queue_error j1) eqn:E; [done|]. by destruct (Hq' ltac:(done)).
  - by rewrite Hq.
Qed.

(** ** What goes wrong *)

(** [Submit] writes the job once more after its task is enqueued: whatever a
    worker has recorded meanwhile, the record says "pending" again. *)
Lemma late_announcement j s h t1 t2 : Service.Db s = Some h →
  ∃ h' r, Service.Db (updateJob JobPending f_zero "queued" t1 t2 (j, s)).2 = Some h' ∧
    History.jobs h' !! Job.ID j = Some r ∧ JobRow.status r = JobPending ∧ JobRow.ended_at r = fmtTimePtr (Job.EndedAt j) ∧
    History.tasks h' = History.tasks h.
Proof.
  intros Hh. destruct (update_recorded JobPending f_zero "queued" t1 t2 (j, s)) as [_ Hd].
  unfold updateJob in *. cbn [fst snd] in *. destruct s as [nodes durable states pub db active max]. simpl in *. subst db.
  destruct (Hd _ eq_refl) as (r & Hr & Hs & _ & _ & He). eexists _, r. split; [done|].
  destruct j. simpl in *. by destruct h.
Qed.
(** A full job whose context ends during its last stage counts as completed. *)
Lemma full_ignores_cancel clock st st' :
  true_of (default ∅ (Job.Options st.1)) "skip_ai" = false →
  Stages.doAI stages (f_of_Z 75) (f_of_Z 95) st = (Failed ErrCanceled, st') →
  export_verdict stages (with_stat "ai_error" (JStr "context canceled") st') = None →
  verdict_status (full_verdict stages clock st) = JobCompleted.
Proof. intros Hs Ha He. unfold full_verdict. rewrite Hs, Ha. simpl. by rewrite He. Qed.
End queue.
