(* ===== verification/Harvest.v ===== *)
(** * Harvesting: the stages of a job that work on the nodes

    [doFetch] and [doQuality] of [internal/service/service.go], with what they
    write to the store and to the durable table.  The reports of progress that
    the probes send on the way are left out: they change the message of the
    job only, which the end of the stage writes again.

    ** What a harvest leaves

    What was delivered and what is kept of the sources that failed, and nothing
    of a harvest that fails. *)
From S2P Require Import Prelude Sql GoStr GoFloat GoTime Model Tasks Jobs Alerts Base64 Ratelimit NetAddr.
From S2P Require Import NetUrl Links Clash Content Config Cleaner Filter Scoring NodeStore NodesDB Publish Fetch.
From S2P Require Import Sources DialJob Runner Worker TaskQueue RunnerProofs.

(** What writing the nodes meets: the answers of the file system and the
    readings of the clock *)
Module Writing.
Record t := mk { Answers : io_step → option error; Now : Time; Saved : Time; Measured : Time }.
End Writing.

Definition put_stat (k : string) (v : json) (st : state) : state := with_stat k v st.
Definition count_stat (n : Z) : json := JNum (f_of_Z n).

Section writing.
Context `{Unicode} `{Crypto} `{MapRange} `{SnapshotCodec} `{TzData} `{NodeCodec}.

(** What the store makes of the nodes it is given, in place: the database and
    the rest of the job see them with what the store has observed before. *)
Definition observed (w : Writing.t) (s : Service.t) (nodes : list node) : list node :=
  replaced (by_key (Store.nodes (Service.Nodes s))) (Writing.Now w) <$> nodes.
Definition identified (nodes : list node) : list node := (λ n, n <| Node.ID := nodeID n |>) <$> nodes.

(** [replaceNodes] *)
Definition replaceNodes (w : Writing.t) (nodes : list node) (s : Service.t) : option error * Service.t :=
  let seen := observed w s nodes in
  let '(err, st) := NodeStore.ReplaceNodes (Writing.Answers w) (Writing.Now w) (Some <$> nodes) (Service.Nodes s) in
  let s := s <| Service.Nodes := st |> in
  match err, Service.Durable s with
  | Some e, _ => (Some e, s)
  | None, None => (None, s)
  | None, Some t =>
      match NodesDB.ReplaceNodes (Writing.Saved w) (Some <$> seen) t with
      | Ok t => (None, s <| Service.Durable := Some t |>)
      | Err e => (Some (ErrMsg ("persist nodes: " +:+ err_text e)), s)
      end
  end.

(** [upsertNodes] *)
Definition record_metrics (w : Writing.t) (nodes : list node) (s : Service.t) : Service.t :=
  s <| Service.Db := (λ h, h <| History.metrics :=
      RecordNodeMetrics (Writing.Measured w) (Some <$> nodes) (History.metrics h) |>) <$> Service.Db s |>.
Definition upsertNodes (w : Writing.t) (nodes : list node) (recordMetrics : bool) (s : Service.t)
    : option error * Service.t :=
  let '(err, st) := UpsertNodes (Writing.Answers w) (Writing.Now w) nodes (Service.Nodes s) in
  let s := s <| Service.Nodes := st |> in
  match err, Service.Durable s with
  | Some e, _ => (Some e, s)
  | None, None => (None, s)
  | None, Some t =>
      match SaveNodes (Writing.Saved w) (Some <$> identified nodes) t with
      | Err e => (Some (ErrMsg ("persist nodes: " +:+ err_text e)), s)
      | Ok t =>
          let s := s <| Service.Durable := Some t |> in
          (None, if recordMetrics then record_metrics w (identified nodes) s else s)
      end
  end.
End writing.

(** ** [doFetch] *)

(** What a fetch meets: the network, the order of the documents, how many
    sources are sent, the end of the context, and the readings of the clock:
    of [EnabledSources], of the sighting, and two for every document *)
Module FetchEnv.
Record t := mk {
  Net : Source.t → Z → Attempt.t;
  Sent : nat;
  Arrive : list Document.t → list Document.t;
  Ended : option error;
  Asked : Time;
  Now : Time;
  Recorded : nat → Time * Time;
  Write : Writing.t;
  First : Time * Time;
  Last : Time * Time;
}.
End FetchEnv.

Section fetching.
Context `{Unicode} `{Crypto} `{FmtAny} `{LinkJson} `{ClashCodec}.

(** What a document gives *)
Definition parsed (d : Document.t) : list node := ParseContent (Document.Body d) (Source.Name (Document.Source d)).
Definition doc_error (d : Document.t) : option error :=
  match Document.Err d with
  | Some e => Some e
  | None => match parsed d with [] => Some (ErrMsg "no supported nodes parsed") | _ => None end
  end.
Definition doc_ok (d : Document.t) : bool := bool_decide (doc_error d = None).
Definition harvested (now : Time) (docs : list Document.t) : list node :=
  mjoin ((λ d, (λ n, n <| Node.LastSeenAt := now |>) <$> parsed d) <$> List.filter doc_ok docs).
Definition failed_sources (docs : list Document.t) : gset string :=
  list_to_set ((λ d, Source.Name (Document.Source d)) <$> List.filter (λ d, negb (doc_ok d)) docs).

Context `{TzData} `{LenientParse} `{MapRange} `{SnapshotCodec} `{NodeCodec}.

Definition record_doc (cfg : config) (clock : nat → Time * Time) (s : nat * Sources.t) (d : Document.t) : nat * Sources.t :=
  (S s.1, recordSource cfg d (doc_error d) (clock s.1).1 (clock s.1).2 s.2).
Definition record_docs (cfg : config) (clock : nat → Time * Time) (docs : list Document.t) (s : Sources.t) : Sources.t :=
  (fold_left (record_doc cfg clock) docs (0%nat, s)).2.
(** The nodes that are kept of the sources that failed *)
Definition carried (failed : gset string) (s : store) : list node :=
  if bool_decide (failed = ∅) then [] else List.filter (λ n, bool_decide (Node.Source n ∈ failed)) (AllNodes s).
(** [cleaner.Clean] ranges over a map *)
Definition cleaned (cfg : config) (nodes : list node) : list node := range_nodes (clean_loop cfg (Some <$> nodes)).

(** [base] is the configuration of the file, [cfg] the one of the moment. *)
Definition doFetch (base cfg : config) (e : FetchEnv.t) (p0 p1 : float64) : stage := λ st,
  let '(j, s) := updateJob JobRunning p0 "fetching sources" (FetchEnv.First e).1 (FetchEnv.First e).2 st in
  let sources := Sources.EnabledSources cfg (Service.States s) (FetchEnv.Asked e) in
  match sources with
  | [] => (Failed (ErrMsg "no enabled sources"), (j, s))
  | _ =>
      let docs := FetchAll (FetchEnv.Net e) (FetchEnv.Sent e) (FetchEnv.Arrive e) sources in
      match FetchEnv.Ended e with
      | Some err => (Failed err, (j, s))
      | None =>
          let s := s <| Service.States := record_docs cfg (FetchEnv.Recorded e) docs (Service.States s) |> in
          let fresh := harvested (FetchEnv.Now e) docs in
          let failed := failed_sources docs in
          match List.filter doc_ok docs with
          | [] => (Failed (ErrMsg ("all " +:+ Itoa (Z.of_nat (length sources))
                                     +:+ " sources failed; keeping last-good snapshot")), (j, s))
          | ok =>
              let old := carried failed (Service.Nodes s) in
              let all := (fresh ++ old)%list in
              let unique := cleaned base all in
              match unique with
              | [] => (Failed (ErrMsg "all fetched documents parsed empty; keeping last-good snapshot"), (j, s))
              | _ =>
                  let seen := observed (FetchEnv.Write e) s unique in
                  let '(err, s) := replaceNodes (FetchEnv.Write e) unique s in
                  match err with
                  | Some err => (Failed (ErrMsg ("persist fetched nodes: " +:+ err_text err)), (j, s))
                  | None =>
                      let s := s <| Service.States := updateSourceContributions
                                      (FilterConfig.MinScore (Config.Filter cfg)) (Some <$> seen) (Service.States s) |> in
                      let st :=
                        put_stat "unique" (count_stat (Z.of_nat (length unique)))
                          (put_stat "parsed" (count_stat (Z.of_nat (length all)))
                            (put_stat "last_good_carried" (count_stat (Z.of_nat (length old)))
                              (put_stat "sources_failed" (count_stat (Z.of_nat (size failed)))
                                (put_stat "sources_ok" (count_stat (Z.of_nat (length ok))) (j, s))))) in
                      (Done, updateJob JobRunning p1 ("fetched unique=" +:+ Itoa (Z.of_nat (length unique)))
                               (FetchEnv.Last e).1 (FetchEnv.Last e).2 st)
                  end
              end
          end
      end
  end.
End fetching.

Section harvest.
Context `{Unicode} `{Crypto} `{FmtAny} `{LinkJson} `{ClashCodec} `{TzData} `{LenientParse} `{MapRange} `{SnapshotCodec} `{NodeCodec}.

(** ** What the stages write, seen from the job *)

Lemma put_stat_keeps k v st : keeps st (put_stat k v st).
Proof. apply with_stat_keeps. Qed.
Lemma service_keeps j s s' : same_service s s' → keeps (j, s) (j, s').
Proof. intros Hs. by split. Qed.
Lemma update_keeps status progress msg t1 t2 st : keeps st (updateJob status progress msg t1 t2 st).
Proof. apply update_same. Qed.
Lemma update_nodes status progress msg t1 t2 st :
  let s' := (updateJob status progress msg t1 t2 st).2 in
  Store.nodes (Service.Nodes s') = Store.nodes (Service.Nodes st.2) ∧ Service.Durable s' = Service.Durable st.2 ∧
  Service.Pub s' = Service.Pub st.2 ∧ Service.States s' = Service.States st.2.
Proof.
  destruct st as [j [nodes durable states pub db active max]]. simpl. unfold NodeStore.SaveJob.
  split; [|done]. destruct (Store.jobs nodes !! _); by destruct nodes.
Qed.

(** The writes of the nodes *)
Definition write_failed (w : Writing.t) (s : Service.t) : Prop :=
  Store.persistent (Service.Nodes s) = true ∨ is_Some (Service.Durable s).
Lemma replaceNodes_spec w nodes s err s' : replaceNodes w nodes s = (err, s') →
  same_service s s' ∧ Service.Pub s' = Service.Pub s ∧ Service.States s' = Service.States s ∧
  Store.nodes (Service.Nodes s') = replace_nodes (by_key (Store.nodes (Service.Nodes s))) (Writing.Now w) (Some <$> nodes) ∧
  match err with
  | Some _ => Service.Durable s' = Service.Durable s ∧ write_failed w s
  | None => match Service.Durable s with
            | None => Service.Durable s' = None
            | Some t => ∃ t', Service.Durable s' = Some t' ∧
                NodesDB.ReplaceNodes (Writing.Saved w) (Some <$> observed w s nodes) t = Ok t'
            end
  end.
Proof.
  unfold replaceNodes, write_failed. destruct (NodeStore.ReplaceNodes _ _ _ _) as [e1 st] eqn:E.
  assert (Hn : Store.nodes st = replace_nodes (by_key (Store.nodes (Service.Nodes s))) (Writing.Now w) (Some <$> nodes)
    ∧ (Store.persistent (Service.Nodes s) = false → e1 = None)).
  { unfold NodeStore.ReplaceNodes in E. set (s0 := _ <| Store.lastFetch := _ |>) in E.
    destruct (persist_nodes (Writing.Answers w) s0) as [Hn _]. rewrite E in Hn. cbn [snd] in Hn. subst s0.
    destruct (Service.Nodes s) as [? ? ? ? ? ? p ?]. split; [exact Hn|].
    cbn. intros ->. cbn in E. by injection E as <- <-. }
  destruct Hn as [Hn Hp]. clear E. destruct s as [nodes0 durable states pub db active max]. cbn [Service.Durable Service.Nodes] in *.
  destruct e1 as [e|]; [|destruct durable as [t|]]; cbn.
  - intros [= <- <-]. split_and!; try done. destruct (Store.persistent nodes0); [by left|by specialize (Hp eq_refl)].
  - unfold observed. cbn. destruct (NodesDB.ReplaceNodes _ _ _) as [t'|e]; intros [= <- <-]; split_and!; try done; eauto.
  - by intros [= <- <-].
Qed.

(** ** What a fetch has to work with *)

(** The documents of a fetch *)
Definition documents (cfg : config) (e : FetchEnv.t) (s : Service.t) : list Document.t :=
  FetchAll (FetchEnv.Net e) (FetchEnv.Sent e) (FetchEnv.Arrive e)
    (EnabledSources cfg (Service.States s) (FetchEnv.Asked e)).
(** A node on offer: one that a document gave just now, or a stored one whose
    source was asked and failed, as it was *)
Definition delivered (cfg : config) (e : FetchEnv.t) (s : Service.t) (m : node) : Prop :=
  ∃ d n, d ∈ documents cfg e s ∧ doc_error d = None ∧ n ∈ parsed d ∧ m = n <| Node.LastSeenAt := FetchEnv.Now e |>.
Definition kept_from (cfg : config) (e : FetchEnv.t) (s : Service.t) (m : node) : Prop :=
  ∃ k o d, Store.nodes (Service.Nodes s) !! k = Some o ∧ d ∈ documents cfg e s ∧ doc_error d ≠ None ∧
    Node.Source o = Source.Name (Document.Source d) ∧ m = cloneNode o.
Definition on_offer (cfg : config) (e : FetchEnv.t) (s : Service.t) : list node :=
  let docs := documents cfg e s in
  (harvested (FetchEnv.Now e) docs ++ carried (failed_sources docs) (Service.Nodes s))%list.

Lemma elem_of_AllNodes s n : n ∈ AllNodes s ↔ ∃ k o, Store.nodes s !! k = Some o ∧ n = cloneNode o.
Proof.
  unfold AllNodes, ListNodes. unfold truncate. change (0 <? NodeFilter.Limit NodeFilter.zero) with false. cbn [andb].
  rewrite elem_of_stable_sort, list_elem_of_fmap. split.
  - intros (o & -> & Ho). rewrite elem_of_list_filter_bool, range_nodes_perm in Ho.
    destruct Ho as [[k Hk]%elem_of_rows _]. by exists k, o.
  - intros (k & o & Hk & ->). exists o. split; [done|]. rewrite elem_of_list_filter_bool, range_nodes_perm.
    split; [by apply elem_of_rows; exists k|]. reflexivity.
Qed.
Lemma elem_of_carried failed s n : n ∈ carried failed s ↔
  ∃ k o, Store.nodes s !! k = Some o ∧ Node.Source o ∈ failed ∧ n = cloneNode o.
Proof.
  unfold carried. case_bool_decide as Hf; [set_solver|]. rewrite elem_of_list_filter_bool, elem_of_AllNodes.
  rewrite bool_decide_eq_true. split; [intros ((k & o & Hk & ->) & Hs)|intros (k & o & Hk & Hs & ->)].
  - exists k, o. split; [done|]. split; [|done]. by destruct o.
  - split; [by exists k, o|]. by destruct o.
Qed.
Lemma elem_of_on_offer cfg e s m : m ∈ on_offer cfg e s ↔ delivered cfg e s m ∨ kept_from cfg e s m.
Proof.
  unfold on_offer, delivered, kept_from. set (docs := documents cfg e s). rewrite elem_of_app, elem_of_carried.
  unfold harvested, failed_sources, doc_ok. apply Morphisms_Prop.or_iff_morphism.
  - rewrite list_elem_of_join. split.
    + intros (l & Hm & (d & -> & Hd)%list_elem_of_fmap). apply elem_of_list_filter_bool in Hd as [Hd Ho%bool_decide_eq_true].
      apply list_elem_of_fmap in Hm as (n & -> & Hn). by exists d, n.
    + intros (d & n & Hd & Ho & Hn & ->). eexists. split; [by apply list_elem_of_fmap_2|].
      apply list_elem_of_fmap. exists d. split; [done|]. rewrite elem_of_list_filter_bool. by rewrite bool_decide_eq_true.
  - setoid_rewrite elem_of_list_to_set. setoid_rewrite list_elem_of_fmap. setoid_rewrite elem_of_list_filter_bool.
    setoid_rewrite negb_true_iff. setoid_rewrite bool_decide_eq_false. naive_solver.
Qed.

(** ** What a store keeps of what it is given *)

Lemma cleaned_Clean cfg nodes : Clean (Some <$> nodes) cfg (cleaned cfg nodes).
Proof. unfold Clean, cleaned. apply range_nodes_perm. Qed.
Lemma omap_given {A} (l : list A) : omap id (Some <$> l) = l.
Proof. induction l as [|x l IH]; [done|]. simpl. unfold id at 1. f_equal. exact IH. Qed.
Lemma elem_of_admitted cfg nodes m : m ∈ admitted cfg (Some <$> nodes) ↔
  ∃ n, n ∈ nodes ∧ m = normalize n ∧ keep cfg m = true.
Proof.
  unfold admitted. rewrite omap_given, elem_of_list_filter_bool, list_elem_of_fmap. naive_solver.
Qed.

(** What a write leaves alone: the identity, the sources, the last sighting if
    there is one *)
Definition carries (r n : node) : Prop :=
  ident r = ident n ∧ Node.Sources r = Node.Sources n ∧ Node.Source r = Node.Source n ∧
  (IsZero (Node.LastSeenAt n) = false → Node.LastSeenAt r = Node.LastSeenAt n).
#[local] Instance carries_preorder : PreOrder carries.
Proof.
  unfold carries. split; [done|]. intros x y z (-> & -> & -> & Hx) (-> & -> & -> & Hy). split_and!; try done.
  intros Hz. rewrite Hx; [by apply Hy|]. by rewrite Hy.
Qed.
Ltac carry := intros; match goal with |- carries _ ?n => destruct n end; unfold carries; cbn;
  repeat case_match; cbn in *; split_and!; intros; first [reflexivity | congruence].
Lemma merge_first_seen_carries o n : carries (merge_first_seen o n) n.
Proof. unfold merge_first_seen. carry. Qed.
Lemma merge_last_seen_carries o n : carries (merge_last_seen o n) n.
Proof. unfold merge_last_seen. carry. Qed.
Lemma merge_tested_carries o n : carries (merge_tested o n) n.
Proof. unfold merge_tested. carry. Qed.
Lemma merge_geo_carries o n : carries (merge_geo o n) n.
Proof. unfold merge_geo. carry. Qed.
Lemma merge_ai_carries o n : carries (merge_ai o n) n.
Proof. unfold merge_ai. carry. Qed.
Lemma merge_dial_carries o n : carries (merge_dial o n) n.
Proof. unfold merge_dial. carry. Qed.
Lemma merge_purity_carries o n : carries (merge_purity o n) n.
Proof. unfold merge_purity. carry. Qed.
Lemma merge_carries o n : carries (mergeObservations n o) n.
Proof.
  unfold mergeObservations.
  etransitivity; [apply merge_purity_carries|]. etransitivity; [apply merge_dial_carries|].
  etransitivity; [apply merge_ai_carries|]. etransitivity; [apply merge_geo_carries|].
  etransitivity; [apply merge_tested_carries|]. etransitivity; [apply merge_last_seen_carries|].
  apply merge_first_seen_carries.
Qed.
Lemma first_seen_carries now n : carries (first_seen_at now n) n.
Proof. unfold first_seen_at. carry. Qed.
Lemma last_seen_carries now n : carries (last_seen_at now n) n.
Proof. unfold last_seen_at. carry. Qed.
Lemma identity_carries n : carries (set_identity n) n.
Proof. unfold set_identity. carry. Qed.
Lemma clone_carries n : carries (cloneNode n) n.
Proof. unfold cloneNode. carry. Qed.
Lemma replaced_carries old now n : carries (replaced old now n) n.
Proof.
  unfold replaced. etransitivity; [apply identity_carries|]. etransitivity; [apply last_seen_carries|].
  etransitivity; [apply first_seen_carries|]. destruct (old !! _); [apply merge_carries|reflexivity].
Qed.
Lemma normalize_seen n : Node.LastSeenAt (normalize n) = Node.LastSeenAt n.
Proof. unfold normalize. destruct n. cbn. by repeat case_match. Qed.

Lemma dedup_key_ident cfg n m : ident n = ident m → dedup_key cfg n = dedup_key cfg m.
Proof.
  unfold ident, dedup_key. intros Hi. assert (Node.Server n = Node.Server m) as -> by congruence.
  case_match; apply Key_ident; unfold ident; [|done]. destruct n, m. cbn in *. congruence.
Qed.

(** The identifiers of a batch are of use when they are distinct and not
    empty: 64 bits of a digest each. *)
Definition ids_ok (nodes : list node) : Prop := NoDup (nodeID <$> nodes) ∧ "" ∉ nodeID <$> nodes.
Lemma observed_ids w s nodes : Node.ID <$> observed w s nodes = nodeID <$> nodes.
Proof.
  unfold observed. rewrite <-list_fmap_compose. apply list_fmap_ext. intros i n _.
  apply (replaced_spec (by_key (Store.nodes (Service.Nodes s))) (Writing.Now w) n).
Qed.
Lemma given_all nodes : "" ∉ Node.ID <$> nodes → given (Some <$> nodes) = nodes.
Proof.
  unfold given. induction nodes as [|n l IH]; [done|]. rewrite fmap_cons, not_elem_of_cons. intros [Hn Hl].
  rewrite fmap_cons. cbn [omap list_omap]. unfold storable_node at 1.
  destruct (String.eqb_spec (Node.ID n) ""); [congruence|]. f_equal. by apply IH.
Qed.
Lemma durable_rows now nodes t t' : NoDup (Node.ID <$> nodes) → "" ∉ Node.ID <$> nodes →
  NodesDB.ReplaceNodes now (Some <$> nodes) t = Ok t' → ∀ k, is_Some (t' !! k) ↔ k ∈ Node.ID <$> nodes.
Proof.
  intros Hnd Hne. unfold NodesDB.ReplaceNodes. fold (given (Some <$> nodes)). rewrite given_all by done.
  destruct (SaveNodes _ _ _) as [t1|] eqn:E; [|done]. intros [= <-] k.
  apply SaveNodes_spec in E as [Hin _]; rewrite given_all in * by done; [|done]. split.
  - intros [r [_ Hk]%map_lookup_filter_Some]. by apply elem_of_list_to_set in Hk.
  - intros (n & -> & Hn)%list_elem_of_fmap. destruct (Hin n Hn) as (p & _ & Hp). exists (node_row now n p).
    apply map_lookup_filter_Some. split; [done|]. cbn. apply elem_of_list_to_set. by apply list_elem_of_fmap_2.
Qed.

(** A batch, in the store *)
Lemma replaced_lookup old now nodes : NoDup (nodeID <$> nodes) →
  (∀ k r, replace_nodes old now (Some <$> nodes) !! k = Some r →
     ∃ n, n ∈ nodes ∧ nodeID n = k ∧ r = cloneNode (replaced old now n)) ∧
  (∀ n, n ∈ nodes → replace_nodes old now (Some <$> nodes) !! nodeID n = Some (cloneNode (replaced old now n))).
Proof.
  intros Hnd. assert (Hl : ∀ k, replace_nodes old now (Some <$> nodes) !! k =
    (λ n, cloneNode (replaced old now n)) <$> List.find (λ n, (nodeID n =? k)%string) nodes).
  { intros k. rewrite lookup_replace_nodes by (by rewrite omap_given). by rewrite omap_given. }
  split.
  - intros k r. rewrite Hl. destruct (List.find _ _) as [n|] eqn:E; [|done]. intros [= <-].
    apply List.find_some in E as [Hin Hk%String.eqb_eq]. exists n. by rewrite list_elem_of_In.
  - intros n Hn. rewrite Hl. destruct (List.find _ _) as [m|] eqn:E; cbn.
    + apply List.find_some in E as [Hm Hk%String.eqb_eq]. do 3 f_equal.
      apply list_elem_of_In in Hm. apply list_elem_of_lookup in Hm as [i Hi]. apply list_elem_of_lookup in Hn as [k Hk'].
      assert (i = k) as ->; [|congruence]. eapply NoDup_lookup; [exact Hnd|..]; rewrite list_lookup_fmap.
      * rewrite Hi. cbn. by rewrite Hk.
      * by rewrite Hk'.
    + apply list_elem_of_In, (List.find_none _ _ E) in Hn. by rewrite String.eqb_refl in Hn.
Qed.

(** ** The fetch *)

(** What a stage leaves of the nodes *)
Definition same_nodes (s s' : Service.t) : Prop :=
  Store.nodes (Service.Nodes s') = Store.nodes (Service.Nodes s) ∧ Service.Durable s' = Service.Durable s ∧
  Service.Pub s' = Service.Pub s.
Lemma update_same_nodes status progress msg t1 t2 st : same_nodes st.2 (updateJob status progress msg t1 t2 st).2.
Proof. by destruct (update_nodes status progress msg t1 t2 st) as (? & ? & ? & _). Qed.
#[local] Instance same_nodes_preorder : PreOrder same_nodes.
Proof. unfold same_nodes. split; [done|]. intros x y z ? ?. naive_solver congruence. Qed.

Lemma carried_nodes failed s s' : Store.nodes s = Store.nodes s' → carried failed s = carried failed s'.
Proof. intros Hn. unfold carried, AllNodes, ListNodes. by rewrite Hn. Qed.

(** Why a fetch has nothing to write *)
Definition no_harvest (base cfg : config) (e : FetchEnv.t) (s : Service.t) : Prop :=
  EnabledSources cfg (Service.States s) (FetchEnv.Asked e) = [] ∨ FetchEnv.Ended e ≠ None ∨
  (∀ d, d ∈ documents cfg e s → doc_error d ≠ None) ∨ cleaned base (on_offer cfg e s) = [].

Lemma doFetch_cases base cfg e p0 p1 st r st' : doFetch base cfg e p0 p1 st = (r, st') →
  keeps st st' ∧
  ((∃ err, r = Failed err ∧ same_nodes st.2 st'.2 ∧ no_harvest base cfg e st.2) ∨
   (∃ s1 s2 err, same_nodes st.2 s1 ∧ Store.persistent (Service.Nodes s1) = Store.persistent (Service.Nodes st.2) ∧
      replaceNodes (FetchEnv.Write e) (cleaned base (on_offer cfg e st.2)) s1 = (err, s2) ∧
      same_nodes s2 st'.2 ∧ cleaned base (on_offer cfg e st.2) ≠ [] ∧
      (∃ d, d ∈ documents cfg e st.2 ∧ doc_error d = None) ∧
      r = match err with None => Done | Some err => Failed (ErrMsg ("persist fetched nodes: " +:+ err_text err)) end)).
Proof.
  unfold doFetch. set (st1 := updateJob JobRunning p0 "fetching sources" _ _ st).
  pose proof (update_keeps JobRunning p0 "fetching sources" (FetchEnv.First e).1 (FetchEnv.First e).2 st) as Hk1.
  destruct (update_nodes JobRunning p0 "fetching sources" (FetchEnv.First e).1 (FetchEnv.First e).2 st) as (Hn1 & Hd1 & Hp1 & Hst1).
  assert (Hpers : Store.persistent (Service.Nodes st1.2) = Store.persistent (Service.Nodes st.2)).
  { subst st1. destruct st as [j [nodes ? ? ? ? ? ?]]. cbn. unfold NodeStore.SaveJob. destruct (Store.jobs nodes !! _); by destruct nodes. }
  fold st1 in Hk1, Hn1, Hd1, Hp1, Hst1. clearbody st1. destruct st1 as [j s]. cbn [snd] in *.
  unfold no_harvest, on_offer, documents. rewrite <-Hst1. set (docs := FetchAll _ _ _ _).
  assert (Hsame : same_nodes st.2 s) by done.
  destruct (EnabledSources _ _ _) as [|src srcs] eqn:Esrc.
  { intros [= <- <-]. split; [done|]. left. eexists. split_and!; [done..|]. by left. }
  subst docs. set (docs := FetchAll _ _ _ _).
  destruct (FetchEnv.Ended e) as [err|].
  { intros [= <- <-]. split; [done|]. left. eexists. split_and!; [done..|]. right. by left. }
  set (s0 := s <| Service.States := _ |>).
  assert (Hs0 : same_nodes st.2 s0 ∧ keeps st (j, s0) ∧ Service.Nodes s0 = Service.Nodes s).
  { split; [by subst s0; destruct s|]. split; [|by destruct s]. etransitivity; [exact Hk1|]. by destruct s. }
  destruct Hs0 as (Hs0 & Hk0 & Hn0). clearbody s0. rewrite Hn0, (carried_nodes _ _ _ Hn1).
  destruct (List.filter doc_ok docs) as [|d ok] eqn:Eok.
  { intros [= <- <-]. split; [done|]. left. eexists. split_and!; [done..|]. do 2 right. left. intros d Hd Ho.
    assert (d ∈ List.filter doc_ok docs) as Hin; [|rewrite Eok in Hin; by apply elem_of_nil in Hin].
    apply elem_of_list_filter_bool. split; [done|]. by apply bool_decide_eq_true. }
  set (unique := cleaned _ _). destruct unique as [|u us] eqn:Eu.
  { intros [= <- <-]. split; [done|]. left. eexists. split_and!; [done..|]. by do 3 right. }
  destruct (replaceNodes (FetchEnv.Write e) (u :: us) s0) as [err s1] eqn:Er.
  destruct (replaceNodes_spec _ _ _ _ _ Er) as (Hsv & _).
  assert (Hk2 : keeps st (j, s1)). { etransitivity; [exact Hk0|]. by apply service_keeps. }
  assert (Hd : ∃ d, d ∈ docs ∧ doc_error d = None).
  { exists d. assert (Hin : d ∈ List.filter doc_ok docs) by (rewrite Eok; by left).
    apply elem_of_list_filter_bool in Hin as [? Ho]. by apply bool_decide_eq_true in Ho. }
  assert (Hpn : Store.persistent (Service.Nodes s0) = Store.persistent (Service.Nodes st.2)) by congruence.
  destruct err as [err|]; intros [= <- <-].
  - split; [done|]. right. by exists s0, s1, (Some err).
  - split.
    + etransitivity; [|apply update_keeps]. do 5 (etransitivity; [|apply put_stat_keeps]).
      etransitivity; [exact Hk2|]. apply service_keeps. by destruct s1.
    + right. exists s0, s1, None. split_and!; try done. 
      etransitivity; [|apply update_same_nodes]. by destruct s1.
Qed.

Lemma replaceNodes_ok w nodes s :
  Store.persistent (Service.Nodes s) = false → (∀ n, is_Some (marshal_node n)) → (replaceNodes w nodes s).1 = None.
Proof.
  intros Hp Hm. unfold replaceNodes, NodeStore.ReplaceNodes, persistLocked.
  destruct s as [[n1 n2 n3 n4 n5 n6 p n8] [t|] states pub db active max]; cbn in *; subst p; cbn; [|done].
  unfold NodesDB.ReplaceNodes. pose proof (SaveNodes_ok (Writing.Saved w) (Some <$> observed w
    (Service.mk (Store.mk n1 n2 n3 n4 n5 n6 false n8) (Some t) states pub db active max) nodes) t (λ n _, Hm n)) as Hs.
  unfold observed in Hs. cbn in Hs. by destruct (SaveNodes _ _ _).
Qed.

Lemma stored_carries old now n : carries (cloneNode (replaced old now n)) n.
Proof. etransitivity; [apply clone_carries|apply replaced_carries]. Qed.
Lemma represents_same r m : represents r m → ident r = ident m ∧ Node.LastSeenAt r = Node.LastSeenAt m.
Proof. unfold represents. intros ->. by destruct m. Qed.
Lemma durable_same w nodes s t t' : ids_ok nodes →
  NodesDB.ReplaceNodes (Writing.Saved w) (Some <$> observed w s nodes) t = Ok t' →
  ∀ k, is_Some (t' !! k) ↔
    is_Some (replace_nodes (by_key (Store.nodes (Service.Nodes s))) (Writing.Now w) (Some <$> nodes) !! k).
Proof.
  intros [Hnd Hne] Hr k. rewrite (durable_rows _ (observed w s nodes) t t') by (by rewrite ?observed_ids).
  rewrite observed_ids. destruct (replaced_lookup (by_key (Store.nodes (Service.Nodes s))) (Writing.Now w) nodes Hnd) as [Hl1 Hl2].
  split.
  - intros (n & -> & Hn)%list_elem_of_fmap. rewrite Hl2 by done. by eexists.
  - intros [r Hk]. destruct (Hl1 _ _ Hk) as (n & Hn & <- & _). by apply list_elem_of_fmap_2.
Qed.


Lemma doFetch_ok base cfg e p0 p1 : stage_ok (doFetch base cfg e p0 p1).
Proof. intros st. destruct (doFetch base cfg e p0 p1 st) as [r st'] eqn:E. by apply doFetch_cases in E as [Hk _]. Qed.

(** What is not kept: the stored nodes of a source that cools down.  It is not
    asked, so it does not fail, and a fetch drops its last good nodes. *)
Lemma cooling_forgotten cfg e s m :
  (∀ l, FetchEnv.Arrive e l ≡ₚ l) → cooling (state_of (Service.States s) (Node.Source m)) (FetchEnv.Asked e) = true →
  ¬ kept_from cfg e s m.
Proof.
  intros Ha Hcool (k & o & d & _ & Hd & _ & Hsrc & ->). apply FetchAll_source in Hd; [|done].
  apply elem_of_list_filter_bool in Hd as [_ Hu]. unfold usable in Hu. rewrite <-Hsrc in Hu.
  assert (Node.Source (cloneNode o) = Node.Source o) as Ho by by destruct o. rewrite Ho in Hcool. rewrite Hcool in Hu.
  by rewrite andb_false_r in Hu.
Qed.
End harvest.
