(* ===== verification/QualityJob.v ===== *)
(** * The quality stage: [doQuality] of [internal/service/service.go]

    The choice of the nodes that are due, their measurement ([Scoring]), the
    time of their next test, the pruning, and the anomalies that are reported.
    [doGeo] and [doDial] are arguments, as a job has them.

    ** What the quality stage decides

    Which nodes are measured, what is stored of them, and when they are due
    again. *)
From S2P Require Import Prelude Sql GoStr GoFloat GoTime Model Tasks TaskQueue Worker Jobs Alerts Base64 Ratelimit NetAddr.
From S2P Require Import NetUrl Links Clash Content Config Cleaner Filter Scoring NodeStore NodesDB Publish Fetch.
From S2P Require Import Sources DialJob DialProofs Select Runner RunnerProofs Harvest.
From Stdlib Require Import SpecFloat.

(** The verb [%.1f]: the exact value, to one decimal, a tie to the even one *)
Definition round_even (num den : Z) : Z :=
  let q := num / den in let r := 2 * (num mod den) in
  if r <? den then q else if den <? r then q + 1 else q + q mod 2.
Definition fmt_tenths (q : Z) : string := Itoa (q / 10) +:+ "." +:+ Itoa (q mod 10).
Definition fmt_f1 (x : float64) : string :=
  match x with
  | S754_nan => "NaN"
  | S754_infinity s => if s then "-Inf" else "+Inf"
  | S754_zero s => if s then "-0.0" else "0.0"
  | S754_finite s m e => (if s then "-" else "") +:+
      fmt_tenths (if e <? 0 then round_even (10 * Z.pos m) (2 ^ (- e)) else 10 * Z.pos m * 2 ^ e)
  end.

(** ** Which nodes are due *)

Definition due (now : Time) (n : node) : bool := IsZero (Node.NextTestAt n) || negb (After (Node.NextTestAt n) now).
Definition due_less (a b : node) : bool :=
  if negb (Bool.eqb (IsZero (Node.TestedAt a)) (IsZero (Node.TestedAt b))) then IsZero (Node.TestedAt a)
  else if negb (Node.TestedAt a =? Node.TestedAt b) then Before (Node.TestedAt a) (Node.TestedAt b)
  else f_lt (Node.Score b) (Node.Score a).
(** A number among the options, when it is one *)
Definition max_test (cfg : config) (opts : gmap string json) : Z :=
  let m := ScheduleConfig.MaxTest (Config.Schedule cfg) in
  positive (opt_num opts "max_test") (if m <=? 0 then 1500 else m).
Definition planned (maxTest : Z) (now : Time) (nodes : list node) : list node :=
  take (Z.to_nat maxTest) (stable_sort due_less (List.filter (due now) nodes)).
Definition quality_options (cfg : config) (opts : gmap string json) : Options.t :=
  Scoring.New (Options.mk (AppConfig.Concurrency (Config.App cfg)) (TestTimeout cfg) (positive (opt_num opts "rounds") 3) true false).

(** ** What a measurement decides *)

Section marks.
Context `{MathLog2}.

(** [time.Hour << n]; a negative count panics. *)
Definition backoff (failures : Z) : option Duration :=
  let n := Z.min (wrap64 (failures - 1)) 5 in
  if n <? 0 then None else Some (wrap64 (Z.shiftl Hour n)).
Definition historic (stability : gmap string float64) (n : node) : node :=
  match Node.Quality n with
  | None => n
  | Some q => n <| Node.Quality := Some (q <| Quality.Stability7D :=
                default (Quality.SuccessRate q) (stability !! Node.ID n) |>) |>
  end.
Definition scheduled_alive (cfg : config) (stability : gmap string float64) (now : Time) (n : node) : node :=
  ApplyV2 (historic stability
    (n <| Node.QualityFailures := 0 |> <| Node.SuccessStreak := wrap64 (Node.SuccessStreak n + 1) |>
       <| Node.NextTestAt := now + 6 * Hour |>)) (Some (qualityWeights cfg)).
Definition scheduled_dead (now : Time) (n : node) : option node :=
  let failures := wrap64 (Node.QualityFailures n + 1) in
  (λ d, n <| Node.QualityFailures := failures |> <| Node.SuccessStreak := 0 |> <| Node.NextTestAt := now + d |>)
    <$> backoff failures.
Definition schedule (cfg : config) (stability : gmap string float64) (now : Time) (n : node) : option node :=
  if Node.Alive n then Some (scheduled_alive cfg stability now n) else scheduled_dead now n.
(** The loop reads the clock once per node; a panic ends it. *)
Fixpoint schedule_all (cfg : config) (stability : gmap string float64) (clock : list Time) (nodes : list node)
    : option (list node) :=
  match clock, nodes with
  | now :: clock, n :: nodes =>
      n ← schedule cfg stability now n; nodes ← schedule_all cfg stability clock nodes; Some (n :: nodes)
  | _, _ => Some []
  end.
End marks.

(** [Summary], with its text *)
Definition summary_text (nodes : list node) : string :=
  let '(alive, total, hq, avg) := Summary nodes in
  "alive=" +:+ Itoa alive +:+ "/" +:+ Itoa total +:+ " high_quality=" +:+ Itoa hq +:+ " avg_score=" +:+ fmt_f1 avg.

(** ** The anomalies: [detectQualityAnomalies] *)

Section anomalies.
Context `{TzData} `{CountRange}.

Definition more_common (best : string * Z) (kv : string * Z) : string * Z := if best.2 <? kv.2 then kv else best.
Definition dominant (m : gmap string Z) : string * Z := fold_left more_common (range_counts m) ("", 0).
Definition share (m : gmap string Z) (highQuality : Z) : float64 :=
  if 0 <? highQuality
  then f_mul (f_div (f_of_Z (dominant m).2) (f_of_Z highQuality)) (f_of_Z 100) else f_zero.
Definition drop_percent (previous : float64) (highQuality : Z) : float64 :=
  if f_lt f_zero previous
  then f_mul (f_div (f_sub previous (f_of_Z highQuality)) previous) (f_of_Z 100) else f_zero.
(** One anomaly: raised, or resolved where it was active *)
Definition report (cfg : config) (post : Alert.t → option error) (found : bool) (kind severity message : string)
    (details : list (string * json)) (t : Time) (h : History.t) : History.t :=
  if found then (raiseAlert cfg post kind severity message (list_to_map details) t h).2
  else h <| History.alerts := ResolveAlertIfActive (History.alerts h) kind t |>.
Definition previous_hq (stats : option (gmap string json)) : float64 :=
  match default ∅ stats !! "high_quality" with Some (JNum x) => x | _ => f_zero end.
Definition count_json (n : Z) : json := JNum (f_of_Z n).
Definition detect_in (cfg : config) (post : Alert.t → option error) (id : string) (tested testedAlive hq : Z)
    (byCountry : gmap string Z) (clock : nat → Time) (h : History.t) : History.t :=
  let g := Config.Governance cfg in
  let h := report cfg post ((0 <? tested) && (testedAlive =? 0)) "all-quality-probes-failed" "critical"
             "all quality probes failed" [("job_id", JStr id); ("tested", count_json tested)] (clock 0%nat) h in
  let s := share byCountry hq in
  let h := report cfg post ((0 <? hq) && f_le (GovernanceConfig.CountrySharePercent g) s) "country-dominance" "warning"
             ((dominant byCountry).1 +:+ " represents " +:+ fmt_f1 s +:+ "% of high-quality nodes")
             [("job_id", JStr id); ("country", JStr (dominant byCountry).1); ("share", JNum s);
              ("nodes", count_json (dominant byCountry).2)] (clock 1%nat) h in
  match PreviousCompletedQualityStats (History.jobs h) id with
  | Err _ => h
  | Ok stats =>
      let d := drop_percent (previous_hq stats) hq in
      report cfg post (f_le (GovernanceConfig.HQDropPercent g) d) "high-quality-drop" "critical"
        ("high-quality node count dropped " +:+ fmt_f1 d +:+ "%")
        [("job_id", JStr id); ("previous", JNum (previous_hq stats)); ("current", count_json hq);
         ("drop_percent", JNum d)] (clock 2%nat) h
  end.
Definition detectQualityAnomalies (cfg : config) (post : Alert.t → option error) (tested testedAlive hq : Z)
    (byCountry : gmap string Z) (clock : nat → Time) (st : state) : state :=
  (st.1, st.2 <| Service.Db := detect_in cfg post (Job.ID st.1) tested testedAlive hq byCountry clock <$> Service.Db st.2 |>).
End anomalies.

(** ** [doQuality] *)

(** What the stage meets: the clock, the network, the end of the context, and
    the answers of the file system *)
Module QualityEnv.
Record t := mk {
  Now : Time;
  Probe : nat → option (Time * Probe.t);
  Ended : option error;
  Asked : Time;
  Marked : nat → Time;
  Write : Writing.t;
  Pruning : Writing.t;
  Alerted : nat → Time;
  Clock : nat → Time;
}.
End QualityEnv.

Section quality.
Context `{Unicode} `{Crypto} `{MapRange} `{SnapshotCodec} `{TzData} `{LenientParse} `{NodeCodec} `{MathLog2} `{LocalCalendar} `{CountRange}.

(** The probe of the nodes, and what is written of it: how it ends, and the
    nodes *)
Definition probed (cfg : config) (e : QualityEnv.t) (opts : gmap string json) (nodes : list node) : list node :=
  Scoring.TestAll (quality_options cfg opts) (QualityEnv.Probe e <$> seq 0 (length nodes)) nodes.
Definition stabilities (e : QualityEnv.t) (s : Service.t) : gmap string float64 :=
  match Service.Db s with Some h => NodeStabilities (QualityEnv.Asked e) 7 (History.metrics h) | None => ∅ end.
Definition measure (cfg : config) (e : QualityEnv.t) (opts : gmap string json) (nodes : list node) (s : Service.t)
    : ran * list node * Service.t :=
  let nodes := probed cfg e opts nodes in
  match QualityEnv.Ended e with
  | Some err => (Failed err, nodes, s)
  | None =>
      match schedule_all cfg (stabilities e s) (QualityEnv.Marked e <$> seq 0 (length nodes)) nodes with
      | None => (Panicked "runtime error: negative shift amount", nodes, s)
      | Some nodes =>
          match upsertNodes (QualityEnv.Write e) nodes true s with
          | (Some err, s) => (Failed (ErrMsg ("persist quality results: " +:+ err_text err)), nodes, s)
          | (None, s) =>
              (Done, nodes, s <| Service.States := updateSourceContributions (FilterConfig.MinScore (Config.Filter cfg))
                 (Some <$> AllNodes (Service.Nodes s)) (Service.States s) |>)
          end
      end
  end.
(** Pruning: how many nodes are gone *)
Definition prune_options (cfg : config) : PruneOptions.t :=
  PruneOptions.mk true f_zero (FilterConfig.MaxStoreNodes (Config.Filter cfg)) true.
Definition prune (cfg : config) (w : Writing.t) (s : Service.t) : option error * Z * Service.t :=
  if negb (FilterConfig.PruneAfterQuality (Config.Filter cfg)) then (None, 0, s)
  else
    let '(n, err, st) := Prune (Writing.Answers w) (prune_options cfg) (Service.Nodes s) in
    let s := s <| Service.Nodes := st |> in
    match err, Service.Durable s with
    | Some e, _ => (Some (ErrMsg ("persist pruned nodes: " +:+ err_text e)), 0, s)
    | None, None => (None, n, s)
    | None, Some t =>
        match NodesDB.ReplaceNodes (Writing.Saved w) (Some <$> AllNodes st) t with
        | Err e => (Some (ErrMsg ("persist pruned durable nodes: " +:+ err_text e)), 0, s)
        | Ok t => (None, n, s <| Service.Durable := Some t |>)
        end
    end.

(** The number of nodes of the dial that follows *)
Definition max_dial (cfg : config) (s : store) : Z :=
  let d := Config.Dial cfg in
  let m := DialConfig.AfterQualityMax d in
  if (m <=? 0) && f_lt f_zero (DialConfig.SamplePercent d) then
    let hq := Z.of_nat (length (ListNodes (NodeFilter.zero <| NodeFilter.AliveOnly := true |>
                 <| NodeFilter.MinScore := FilterConfig.MinScore (Config.Filter cfg) |>) s)) in
    Z.max 1 (f_to_int64 (f_ceil (f_div (f_mul (f_of_Z hq) (DialConfig.SamplePercent d)) (f_of_Z 100))))
  else m.
Definition dial_options (cfg : config) (s : store) (opts : gmap string json) : gmap string json :=
  match opts !! "max_dial" with
  | Some _ => opts
  | None =>
      let m := max_dial cfg s in
      let opts := <["max_dial" := JNum (f_of_Z m)]> opts in
      if m <=? 0 then <["all_hq" := JBool true]> opts else opts
  end.
(** A stage whose failure is only a statistic *)
Definition optional (on : bool) (key : string) (f : stage) : stage := λ st,
  if on then match f st with (Failed e, st) => (Done, with_stat key (JStr (err_text e)) st) | r => r end
  else (Done, st).
Definition at_share (p0 p1 : float64) (percent : Z) : float64 := f_add p0 (f_mul (f_sub p1 p0) (f_lit percent 100)).
Definition dial_after (cfg : config) (dial : stage) : stage := λ st,
  dial (st.1 <| Job.Options := Some (dial_options cfg (Service.Nodes st.2) (default ∅ (Job.Options st.1))) |>, st.2).

(** The figures of the end *)
Definition hq_nodes (cfg : config) (nodes : list node) : list node :=
  let m := FilterConfig.MinScore (Config.Filter cfg) in
  let m := if f_le m f_zero then f_of_Z 70 else m in
  List.filter (λ n, Node.Alive n && f_le m (Node.Score n)) nodes.
Definition count_hq_country (m : gmap string Z) (n : node) : gmap string Z :=
  let cc := if unset (Node.Country n) then "XX" else Node.Country n in <[cc := default 0 (m !! cc) + 1]> m.
Definition by_country (nodes : list node) : gmap string Z := fold_left count_hq_country nodes ∅.
Definition count_alive (nodes : list node) : Z := Z.of_nat (length (List.filter Node.Alive nodes)).
Definition finish (cfg : config) (post : Alert.t → option error) (clock : nat → Time) (alerted : nat → Time)
    (p1 : float64) (nodes : list node) (pruned : Z) (st : state) : state :=
  let all := AllNodes (Service.Nodes st.2) in
  let hq := hq_nodes cfg all in
  let tested := Z.of_nat (length nodes) in
  let hq_count := Z.of_nat (length hq) in
  let st := with_stat "by_country_hq" (JObj ((λ kv, (kv.1, count_json kv.2)) <$> map_to_list (by_country hq)))
    (with_stat "stored" (count_json (Count (Service.Nodes st.2)))
      (with_stat "pruned" (count_json pruned)
        (with_stat "high_quality" (count_json hq_count)
          (with_stat "alive" (count_json (count_alive all)) (with_stat "tested" (count_json tested) st))))) in
  let st := detectQualityAnomalies cfg post tested (count_alive nodes) hq_count (by_country hq) alerted st in
  updateJob JobRunning p1 (summary_text nodes) (clock 4%nat) (clock 5%nat) st.

(** [geo] and [dial] are [doGeo] and [doDial], at their share of the
    progress. *)
Definition doQuality (cfg : config) (post : Alert.t → option error) (e : QualityEnv.t)
    (geo dial : float64 → float64 → stage) (p0 p1 : float64) : stage := λ st,
  let clock := QualityEnv.Clock e in
  match AllNodes (Service.Nodes st.2) with
  | [] => (Failed (ErrMsg "no nodes to test"), st)
  | nodes =>
      let opts := default ∅ (Job.Options st.1) in
      match planned (max_test cfg opts) (QualityEnv.Now e) nodes with
      | [] => (Done, updateJob JobRunning p1 "quality: no nodes due" (clock 0%nat) (clock 1%nat)
                       (with_stat "tested" (count_json 0) st))
      | nodes =>
          let '(j, s) := updateJob JobRunning p0 ("quality testing " +:+ Itoa (Z.of_nat (length nodes)) +:+ " nodes")
                           (clock 2%nat) (clock 3%nat) st in
          let '(r, nodes, s) := measure cfg e opts nodes s in
          match r with
          | Done =>
              match prune cfg (QualityEnv.Pruning e) s with
              | (Some err, _, s) => (Failed err, (j, s))
              | (None, n, s) =>
                  let annotate := optional (GeoConfig.Enabled (Config.Geo cfg) && GeoConfig.AnnotateAfterQuality (Config.Geo cfg))
                                    "geo_error" (geo (at_share p0 p1 85) (at_share p0 p1 92)) in
                  let redial := optional (DialConfig.Enabled (Config.Dial cfg) && DialConfig.AfterQuality (Config.Dial cfg))
                                  "dial_error" (dial_after cfg (dial (at_share p0 p1 93) p1)) in
                  match annotate (j, s) with
                  | (Done, st) =>
                      match redial st with
                      | (Done, st) => (Done, finish cfg post clock (QualityEnv.Alerted e) p1 nodes n st)
                      | r => r
                      end
                  | r => r
                  end
              end
          | r => (r, (j, s))
          end
      end
  end.
End quality.

(** ** Which nodes are measured *)

Definition due_cmp (a b : node) : comparison :=
  lexc (Z.compare (flag (IsZero (Node.TestedAt a))) (flag (IsZero (Node.TestedAt b))))
    (lexc (Z.compare (Node.TestedAt a) (Node.TestedAt b)) (f_compare (Node.Score b) (Node.Score a))).
#[local] Instance due_comparator : Comparator scored due_cmp.
Proof.
  apply lex_comparator; [apply (Z_comparator _ (λ a, flag (IsZero (Node.TestedAt a))))|].
  apply lex_comparator; [apply (Z_comparator _ Node.TestedAt)|]. by apply f_comparator_desc.
Qed.
Lemma due_less_cmp a b : scored a → scored b → due_less a b = lt_of (due_cmp a b).
Proof.
  intros Ha Hb. unfold due_less, due_cmp. rewrite <-lex_flag. destruct (negb (Bool.eqb _ _)); [done|].
  unfold Before, Z.ltb. destruct (Z.eqb_spec (Node.TestedAt a) (Node.TestedAt b)) as [->|Hne]; simpl.
  - rewrite Z.compare_refl. simpl. by apply last_score.
  - destruct (Z.compare_spec (Node.TestedAt a) (Node.TestedAt b)); simpl; done.
Qed.
#[local] Instance due_weak : StrictWeak scored due_less.
Proof. eapply strict_weak_ext; [apply comparator_weak, due_comparator|apply due_less_cmp]. Qed.

(** The plan: the front of the nodes that are due *)
Lemma planned_front maxTest now nodes : Forall scored nodes →
  best_first scored due_less (List.filter (due now) nodes) (planned maxTest now nodes) ∧
  length (planned maxTest now nodes) = Nat.min (Z.to_nat maxTest) (length (List.filter (due now) nodes)).
Proof.
  intros Hs. set (l := List.filter (due now) nodes). unfold planned. fold l.
  assert (Hl : Forall scored l).
  { rewrite Forall_forall in *. intros n [Hn _]%elem_of_list_filter_bool. by apply Hs. }
  split; [|rewrite length_take, length_stable_sort; reflexivity].
  pose proof (stable_sort_sorted scored due_less l Hl) as Hsort.
  exists (drop (Z.to_nat maxTest) (stable_sort due_less l)). rewrite take_drop. split_and!.
  - apply stable_sort_perm.
  - by apply sorted_by_take.
  - intros x y. by apply sorted_by_take_drop.
  - intros x Hx. exact (stable_sort_stable scored due_less x l Hx Hl).
Qed.
Lemma planned_sub maxTest now nodes n : n ∈ planned maxTest now nodes → n ∈ nodes ∧ due now n = true.
Proof.
  unfold planned. intros (i & Hi%list_elem_of_lookup_2 & _)%elem_of_take.
  by rewrite elem_of_stable_sort, elem_of_list_filter_bool in Hi.
Qed.

(** ** When a node is measured again *)

Section marks.
Context `{MathLog2}.

(** What the mark of a node is made of, and what the rest leaves *)
Definition marks_of (n : node) := (Node.Alive n, Node.QualityFailures n, Node.SuccessStreak n, Node.NextTestAt n, Node.TestedAt n).
Definition untouched (n : node) := (ident n, Node.ID n, Node.Dial n, Node.Verified n).
Lemma ApplyV2_marks n w : marks_of (ApplyV2 n w) = marks_of n ∧ untouched (ApplyV2 n w) = untouched n.
Proof. unfold ApplyV2, v2_write. by destruct n. Qed.
Lemma historic_marks stability n : marks_of (historic stability n) = marks_of n ∧ untouched (historic stability n) = untouched n.
Proof. unfold historic. destruct n, Quality; done. Qed.

Definition counter_ok (n : node) : Prop := 0 ≤ Node.QualityFailures n < 2 ^ 62.
Lemma backoff_spec failures : 1 ≤ failures ≤ 2 ^ 62 →
  backoff failures = Some (Hour * 2 ^ Z.min (failures - 1) 5).
Proof.
  intros Hf. unfold backoff. rewrite (wrap64_id (failures - 1)) by (unfold int64_range; lia).
  destruct (Z.ltb_spec (Z.min (failures - 1) 5) 0) as [|Hn]; [lia|]. f_equal. rewrite Z.shiftl_mul_pow2 by done.
  apply wrap64_id. unfold int64_range. assert (2 ^ Z.min (failures - 1) 5 ≤ 2 ^ 5) by (apply Z.pow_le_mono_r; lia).
  pose proof (Z.pow_nonneg 2 (Z.min (failures - 1) 5)). unfold Hour, Minute, Second. lia.
Qed.

(** The mark of a node that was measured *)
Definition marked (now : Time) (n m : node) : Prop :=
  untouched m = untouched n ∧ Node.Alive m = Node.Alive n ∧ Node.TestedAt m = Node.TestedAt n ∧
  if Node.Alive n
  then Node.QualityFailures m = 0 ∧ Node.SuccessStreak m = wrap64 (Node.SuccessStreak n + 1) ∧ Node.NextTestAt m = now + 6 * Hour
  else Node.QualityFailures m = Node.QualityFailures n + 1 ∧ Node.SuccessStreak m = 0 ∧
       Node.NextTestAt m = now + Hour * 2 ^ Z.min (Node.QualityFailures n) 5.
Lemma schedule_spec cfg stability now n : counter_ok n → ∃ m, schedule cfg stability now n = Some m ∧ marked now n m.
Proof.
  intros Hc. unfold schedule, marked. destruct (Node.Alive n) eqn:Ha.
  - eexists. split; [done|]. unfold scheduled_alive. set (x := _ <| Node.NextTestAt := _ |>).
    destruct (ApplyV2_marks (historic stability x) (Some (qualityWeights cfg))) as [Hm Hu].
    destruct (historic_marks stability x) as [Hm' Hu']. rewrite Hm' in Hm. rewrite Hu' in Hu.
    set (y := ApplyV2 _ _) in *. clearbody y. unfold marks_of in Hm. subst x. destruct n. simpl in *.
    rewrite Hu. injection Hm as -> -> -> -> ->. done.
  - unfold scheduled_dead. unfold counter_ok in Hc. rewrite (wrap64_id (Node.QualityFailures n + 1)) by (unfold int64_range; lia).
    rewrite backoff_spec by lia. replace (Node.QualityFailures n + 1 - 1) with (Node.QualityFailures n) by lia.
    eexists. split; [done|]. destruct n. simpl in *. by subst.
Qed.
Lemma schedule_all_spec cfg stability clock nodes : length clock = length nodes → Forall counter_ok nodes →
  ∃ out, schedule_all cfg stability clock nodes = Some out ∧ length out = length nodes ∧
    ∀ i n, nodes !! i = Some n → ∃ now m, clock !! i = Some now ∧ out !! i = Some m ∧ marked now n m.
Proof.
  revert nodes. induction clock as [|now clock IH]; intros [|n nodes] Hlen Hc; try done.
  { exists []. split; [done|]. split; [done|]. intros i n. by rewrite lookup_nil. }
  apply Forall_cons in Hc as [Hn Hc]. injection Hlen as Hlen.
  destruct (schedule_spec cfg stability now n Hn) as (m & Hm & Hmark).
  destruct (IH nodes Hlen Hc) as (out & Ho & Hlo & Hall). exists (m :: out). cbn [schedule_all]. rewrite Hm. cbn [mbind option_bind].
  rewrite Ho. split; [done|]. split; [simpl; by rewrite Hlo|]. intros [|i] x Hx.
  - injection Hx as ->. by exists now, m.
  - by apply Hall.
Qed.
End marks.

(** ** What the stage writes *)

Section quality.
Context `{Unicode} `{Crypto} `{MapRange} `{SnapshotCodec} `{TzData} `{LenientParse} `{NodeCodec} `{MathLog2} `{LocalCalendar}.

(** The answer of the network to a probe *)
Definition answered (a : option (Time * Probe.t)) : bool :=
  match a with Some (_, p) => negb (bool_decide (Probe.Latencies p = [])) | None => false end.
Definition probe_of (opts : Scoring.Options.t) (a : option (Time * Probe.t)) (n : node) : node :=
  match a with
  | Some (now, p) => Scoring.testOne opts now p n
  | None => n <| Node.Alive := false |> <| Node.Error := "canceled" |>
  end.
Lemma probe_of_spec opts a n : let m := probe_of opts a n in
  untouched m = untouched n ∧ Node.Alive m = answered a ∧ Node.QualityFailures m = Node.QualityFailures n ∧
  Node.SuccessStreak m = Node.SuccessStreak n ∧ Node.TestedAt m = match a with Some (now, _) => now | None => Node.TestedAt n end.
Proof.
  destruct a as [[now [lats tls edge]]|]; cbv zeta; unfold probe_of; [|by destruct n].
  unfold Scoring.testOne, answered. cbn [Probe.Latencies].
  destruct lats as [|l lats]; [by destruct n|].
  destruct (Z.eqb_spec (Z.of_nat (length (l :: lats))) 0) as [E|_]; [simpl in E; lia|]. by destruct n.
Qed.
Lemma probed_lookup cfg e opts nodes i n : nodes !! i = Some n →
  probed cfg e opts nodes !! i = Some (probe_of (quality_options cfg opts) (QualityEnv.Probe e i) n).
Proof.
  intros Hn. unfold probed, Scoring.TestAll. rewrite lookup_zip_with, list_lookup_fmap.
  rewrite (lookup_seq_lt 0 (length nodes) i) by (by eapply lookup_lt_Some). cbn. by rewrite Hn.
Qed.
Lemma length_probed cfg e opts nodes : length (probed cfg e opts nodes) = length nodes.
Proof. unfold probed, Scoring.TestAll. rewrite length_zip_with, length_fmap, length_seq. lia. Qed.

Lemma clone_marks n : marks_of (cloneNode n) = marks_of n.
Proof. by destruct n. Qed.
Lemma upserted_marks old n : marks_of (upserted old n) = marks_of n.
Proof.
  unfold upserted, upsert_uri, upsert_verified, upsert_purity, upsert_dial.
  destruct (Node.Dial n), (Node.Purity n), (Node.Verified n), n, old; done.
Qed.
Lemma stored_marks (m : gmap string node) n :
  marks_of (match m !! nodeID n with Some old => upserted old (cloneNode (n <| Node.ID := nodeID n |>))
            | None => cloneNode (n <| Node.ID := nodeID n |>) end) = marks_of n.
Proof.
  assert (Hc : marks_of (cloneNode (n <| Node.ID := nodeID n |>)) = marks_of n) by (rewrite clone_marks; by destruct n).
  destruct (m !! _); [by rewrite upserted_marks|done].
Qed.
Lemma upsertNodes_nodes w nodes b s err s' : upsertNodes w nodes b s = (err, s') →
  same_service s s' ∧ Service.Pub s' = Service.Pub s ∧ Service.States s' = Service.States s ∧
  Store.nodes (Service.Nodes s') = fold_left upsert_node nodes (Store.nodes (Service.Nodes s)).
Proof.
  unfold upsertNodes. destruct (UpsertNodes _ _ _ _) as [e1 st] eqn:E.
  assert (Hn : Store.nodes st = fold_left upsert_node nodes (Store.nodes (Service.Nodes s))).
  { unfold UpsertNodes in E. set (s0 := _ <| Store.lastQual := _ |>) in E.
    destruct (persist_nodes (Writing.Answers w) s0) as [Hn _]. rewrite E in Hn. cbn [snd] in Hn. subst s0.
    by destruct (Service.Nodes s). }
  clear E. destruct s as [nodes0 durable states pub db active max]. cbn [Service.Durable Service.Nodes] in *.
  destruct e1 as [e|]; [|destruct durable as [t|]]; cbn; [by intros [= <- <-]| |by intros [= <- <-]].
  destruct (SaveNodes _ _ _) as [t'|e]; [|by intros [= <- <-]].
  intros [= <- <-]. destruct b; [|done]. unfold record_metrics, same_service. cbn.
  rewrite fmap_is_Some. done.
Qed.

(** A stored node, in the plan *)
Lemma plan_stored maxTest now s n : store_ok s → n ∈ planned maxTest now (AllNodes s) →
  ∃ o, Store.nodes s !! Node.ID n = Some o ∧ n = cloneNode o ∧ nodeID n = Node.ID n ∧ due now o = true.
Proof.
  intros [Hs _] [(k & o & Hk & ->)%elem_of_AllNodes Hd]%planned_sub. destruct (Hs k o Hk) as [Hid Hn].
  exists o. rewrite ID_cloneNode, (nodeID_ident _ _ (ident_cloneNode o)). rewrite Hid. by split_and!.
Qed.
Lemma plan_ids maxTest now s : store_ok s → NoDup (Node.ID <$> planned maxTest now (AllNodes s)).
Proof.
  intros Hs. unfold planned. eapply sublist_NoDup; [|apply fmap_sublist, sublist_take].
  rewrite stable_sort_perm. pose proof (ListNodes_ids NodeFilter.zero s Hs) as Hnd.
  rewrite NoDup_alt in *. intros i j x Hi Hj. fold (AllNodes s) in Hnd.
  revert Hnd Hi Hj. generalize (AllNodes s). intros l Hnd. apply NoDup_alt in Hnd.
  assert (Hnd' : NoDup (Node.ID <$> List.filter (due now) l)); [|by apply NoDup_alt].
  clear i j. induction l as [|n l IH]; [done|]. simpl in *. apply NoDup_cons in Hnd as [Hn Hl].
  destruct (due now n); [|by apply IH]. simpl. apply NoDup_cons. split; [|by apply IH].
  intros (m & Hm & [Hin _]%elem_of_list_filter_bool)%list_elem_of_fmap. apply Hn. rewrite Hm. by apply list_elem_of_fmap_2.
Qed.
Lemma same_ids (l k : list node) : length l = length k →
  (∀ i n, l !! i = Some n → ∃ m, k !! i = Some m ∧ nodeID m = Node.ID n) → nodeID <$> k = Node.ID <$> l.
Proof.
  intros Hlen Hall. apply list_eq. intros i. rewrite !list_lookup_fmap. destruct (l !! i) as [n|] eqn:E.
  - destruct (Hall i n E) as (m & -> & Hm). cbn. by rewrite Hm.
  - apply lookup_ge_None in E. rewrite (proj2 (lookup_ge_None k i)) by lia. done.
Qed.

(** What the stage leaves of a planned node: the outcome of its probe, and when
    it is next due *)
Definition measured_as (e : QualityEnv.t) (i : nat) (o m : node) : Prop :=
  Node.Alive m = answered (QualityEnv.Probe e i) ∧
  if Node.Alive m
  then Node.QualityFailures m = 0 ∧ Node.SuccessStreak m = wrap64 (Node.SuccessStreak o + 1) ∧
       Node.NextTestAt m = QualityEnv.Marked e i + 6 * Hour
  else Node.QualityFailures m = Node.QualityFailures o + 1 ∧ Node.SuccessStreak m = 0 ∧
       Node.NextTestAt m = QualityEnv.Marked e i + Hour * 2 ^ Z.min (Node.QualityFailures o) 5.

Lemma measure_spec cfg e opts plan s : Forall counter_ok plan → (∀ n, n ∈ plan → nodeID n = Node.ID n) →
  NoDup (Node.ID <$> plan) → ∃ r nodes s', measure cfg e opts plan s = (r, nodes, s') ∧ (∀ v, r ≠ Panicked v) ∧
  (r = Done → QualityEnv.Ended e = None ∧
     Store.nodes (Service.Nodes s') = fold_left upsert_node nodes (Store.nodes (Service.Nodes s)) ∧
     nodeID <$> nodes = Node.ID <$> plan ∧
     ∀ i n, plan !! i = Some n → ∃ m, nodes !! i = Some m ∧ untouched m = untouched n ∧ measured_as e i n m) ∧
  (QualityEnv.Ended e ≠ None → s' = s) ∧ same_service s s'.
Proof.
  intros Hc Hid Hnd. unfold measure. destruct (QualityEnv.Ended e) as [err|] eqn:He.
  { eexists _, _, _. split; [done|]. by repeat split. }
  set (pr := probed cfg e opts plan). set (clock := _ <$> seq 0 _).
  destruct (schedule_all_spec cfg (stabilities e s) clock pr) as (out & Ho & Hlen & Hall).
  { subst clock. by rewrite length_fmap, length_seq. }
  { apply Forall_lookup. intros i m Hm. assert (Hi : (i < length plan)%nat).
    { rewrite <-(length_probed cfg e opts plan). by eapply lookup_lt_Some. }
    apply lookup_lt_is_Some in Hi as [n Hn]. unfold pr in Hm. rewrite (probed_lookup cfg e opts plan i n Hn) in Hm. injection Hm as <-.
    destruct (probe_of_spec (quality_options cfg opts) (QualityEnv.Probe e i) n) as (_ & _ & Hq & _).
    unfold counter_ok. rewrite Hq. rewrite Forall_forall in Hc. apply Hc. by eapply list_elem_of_lookup_2. }
  rewrite Ho. assert (Hout : ∀ i n, plan !! i = Some n → ∃ m, out !! i = Some m ∧ untouched m = untouched n ∧ measured_as e i n m).
  { intros i n Hn. destruct (Hall i _ (probed_lookup cfg e opts plan i n Hn)) as (now & m & Hnow & Hm & Hu & Ha & _ & Hmark).
    destruct (probe_of_spec (quality_options cfg opts) (QualityEnv.Probe e i) n) as (Hu' & Ha' & Hq & Hss & _).
    assert (now = QualityEnv.Marked e i) as ->.
    { subst clock. rewrite list_lookup_fmap, (lookup_seq_lt 0) in Hnow; [by injection Hnow|].
      unfold pr. rewrite length_probed. by eapply lookup_lt_Some. }
    exists m. split; [done|]. split; [congruence|]. unfold measured_as. rewrite Ha. split; [done|]. by rewrite Hq, Hss in Hmark. }
  assert (Hids : nodeID <$> out = Node.ID <$> plan).
  { apply same_ids; [rewrite Hlen; symmetry; apply length_probed|]. intros i n Hn. destruct (Hout i n Hn) as (m & Hm & Hu & _).
    exists m. split; [done|]. rewrite <-(Hid n) by (by eapply list_elem_of_lookup_2). apply nodeID_ident.
    unfold untouched in Hu. congruence. }
  destruct (upsertNodes (QualityEnv.Write e) out true s) as [err s1] eqn:Eu.
  destruct (upsertNodes_nodes _ _ _ _ _ _ Eu) as (Hsv & _ & _ & Hn).
  destruct err as [err|]; eexists _, _, _; (split; [done|]); (split; [done|]); [by split|].
  split; [|split; [done|by destruct s1]]. intros _. split; [done|]. split; [by destruct s1|]. by split.
Qed.

(** C34: Every node is measured in its turn.  The quality stage plans the front of
    the nodes that are due, those never measured first, then by the time of
    their last measurement and by score, as many as its limit; it never panics;
    when its context ends it writes nothing, and otherwise each planned node is
    stored with the outcome of its probe: a living one without failures and due
    again in six hours, a dead one with one failure more and due again after an
    hour, doubled for each failure before, at most 32 hours; every other node of
    the store is as it was. *)
Theorem quality_schedule cfg e opts s :
  store_ok (Service.Nodes s) → map_Forall (λ _ n, scored n ∧ counter_ok n) (Store.nodes (Service.Nodes s)) →
  let all := AllNodes (Service.Nodes s) in
  let plan := planned (max_test cfg opts) (QualityEnv.Now e) all in
  best_first scored due_less (List.filter (due (QualityEnv.Now e)) all) plan ∧
  length plan = Nat.min (Z.to_nat (max_test cfg opts)) (length (List.filter (due (QualityEnv.Now e)) all)) ∧
  ∃ r nodes s', measure cfg e opts plan s = (r, nodes, s') ∧ (∀ v, r ≠ Panicked v) ∧
    (QualityEnv.Ended e ≠ None → s' = s) ∧
    (r = Done →
       (∀ i n, plan !! i = Some n → ∃ o m, Store.nodes (Service.Nodes s) !! Node.ID n = Some o ∧ n = cloneNode o ∧
          Store.nodes (Service.Nodes s') !! Node.ID n = Some m ∧ ident m = ident o ∧ measured_as e i o m ∧
          (QualityEnv.Marked e i + Hour ≤ Node.NextTestAt m ≤ QualityEnv.Marked e i + 32 * Hour)) ∧
       (∀ k, k ∉ Node.ID <$> plan → Store.nodes (Service.Nodes s') !! k = Store.nodes (Service.Nodes s) !! k)).
Proof.
  intros Hok Hall. cbv zeta. set (plan := planned _ _ _).
  assert (Hscored : Forall scored (AllNodes (Service.Nodes s))).
  { apply Forall_forall. intros n (k & o & Hk & ->)%elem_of_AllNodes. destruct (Hall k o Hk) as [Hs _]. by destruct o. }
  destruct (planned_front (max_test cfg opts) (QualityEnv.Now e) _ Hscored) as [Hfront Hlen]. split; [done|]. split; [done|].
  assert (Hplan : ∀ n, n ∈ plan → ∃ o, Store.nodes (Service.Nodes s) !! Node.ID n = Some o ∧ n = cloneNode o ∧
    nodeID n = Node.ID n ∧ due (QualityEnv.Now e) o = true) by (intros n; by apply plan_stored).
  destruct (measure_spec cfg e opts plan s) as (r & nodes & s' & Hm & Hp & Hdone & Hend & _).
  { apply Forall_forall. intros n Hn. destruct (Hplan n Hn) as (o & Ho & -> & _). destruct (Hall _ o Ho) as [_ Hc]. by destruct o. }
  { intros n Hn. by destruct (Hplan n Hn) as (o & _ & _ & Hid & _). }
  { by apply plan_ids. }
  exists r, nodes, s'. split; [done|]. split; [done|]. split; [done|]. intros Hr.
  destruct (Hdone Hr) as (_ & Hn & Hids & Hout). rewrite Hn. split.
  - intros i n Hi. assert (Hin : n ∈ plan) by (by eapply list_elem_of_lookup_2). destruct (Hplan n Hin) as (o & Ho & Hcl & Hid & _).
    destruct (Hout i n Hi) as (m & Hm' & Hu & Hmeas). exists o.
    assert (Hnd : NoDup (nodeID <$> nodes)) by (rewrite Hids; by apply plan_ids).
    assert (Hmid : nodeID m = Node.ID n) by (rewrite <-Hid; apply nodeID_ident; unfold untouched in Hu; congruence).
    pose proof (upserts_lookup nodes (Store.nodes (Service.Nodes s)) i m Hnd Hm') as Hl.
    pose proof (stored_marks (Store.nodes (Service.Nodes s)) m) as Hmk. rewrite Hmid in Hl, Hmk.
    eexists. split; [done|]. split; [done|]. split; [exact Hl|]. cbv zeta. rewrite Ho in Hmk |- *.
    destruct (upserted_spec o (cloneNode (m <| Node.ID := Node.ID n |>))) as [-> _]. split; [done|].
    set (x := upserted _ _) in *. clearbody x. unfold marks_of in Hmk. injection Hmk as Ha Hq Hs Hnx _.
    assert (Hx : measured_as e i o x).
    { unfold measured_as in *. rewrite Ha, Hq, Hs, Hnx. subst n. by destruct o. }
    split; [done|]. destruct Hx as [_ Hx]. destruct (Hall _ o Ho) as [_ Hc]. unfold counter_ok in Hc.
    destruct (Node.Alive x); destruct Hx as (_ & _ & ->); [unfold Hour, Minute, Second; lia|].
    assert (2 ^ 0 ≤ 2 ^ Z.min (Node.QualityFailures o) 5 ≤ 2 ^ 5) by (split; apply Z.pow_le_mono_r; lia).
    unfold Hour, Minute, Second. lia.
  - intros k Hk. apply upserts_other. by rewrite Hids.
Qed.

(** ** The stage, seen from its job *)

Context `{CountRange}.
Lemma measure_keeps cfg e opts plan s : same_service s (measure cfg e opts plan s).2.
Proof.
  unfold measure. destruct (QualityEnv.Ended e); [done|]. destruct (schedule_all _ _ _ _) as [out|]; [|done].
  destruct (upsertNodes _ _ _ _) as [err s1] eqn:Eu. destruct (upsertNodes_nodes _ _ _ _ _ _ Eu) as (Hsv & _).
  destruct err; [done|]. by destruct s1.
Qed.
Lemma prune_keeps cfg w s : same_service s (prune cfg w s).2.
Proof.
  unfold prune. destruct (negb _); [done|]. destruct (Prune _ _ _) as [[n err] st].
  destruct s as [nodes durable states pub db active max]. cbn. destruct err; [done|]. destruct durable; [|done]. cbn.
  by destruct (NodesDB.ReplaceNodes _ _ _).
Qed.
Lemma optional_ok on key f : stage_ok f → stage_ok (optional on key f).
Proof.
  intros Hf st. unfold optional. destruct on; [|reflexivity]. pose proof (Hf st) as Hk.
  destruct (f st) as [[|err|v] st1]; cbn [snd] in *; [done| |done]. etransitivity; [exact Hk|apply with_stat_keeps].
Qed.
Lemma dial_after_ok cfg f : stage_ok f → stage_ok (dial_after cfg f).
Proof.
  intros Hf [j s]. unfold dial_after. etransitivity; [|apply Hf]. apply (conj (A := same_job _ _)); [by destruct j|]. by split.
Qed.
Lemma finish_keeps cfg post clock alerted p1 nodes n st : keeps st (finish cfg post clock alerted p1 nodes n st).
Proof.
  unfold finish. cbv zeta. etransitivity; [|apply update_same].
  set (x := with_stat "by_country_hq" _ _). assert (Hx : keeps st x).
  { unfold x. do 6 (etransitivity; [|apply with_stat_keeps]). reflexivity. }
  etransitivity; [exact Hx|]. clearbody x. destruct x as [j s]. unfold detectQualityAnomalies. apply service_keeps.
  unfold same_service. destruct s. cbn. by rewrite fmap_is_Some.
Qed.
Lemma doQuality_ok cfg post e geo dial p0 p1 : (∀ p q, stage_ok (geo p q)) → (∀ p q, stage_ok (dial p q)) →
  stage_ok (doQuality cfg post e geo dial p0 p1).
Proof.
  intros Hg Hd st. unfold doQuality. destruct (AllNodes _) as [|n l]; [reflexivity|].
  destruct (planned _ _ _) as [|m plan].
  { cbn [snd]. etransitivity; [apply with_stat_keeps|apply update_same]. }
  set (msg := ("quality testing " +:+ _)%string). destruct (updateJob JobRunning p0 msg _ _ st) as [j s] eqn:Eu.
  pose proof (proj1 (update_same JobRunning p0 msg (QualityEnv.Clock e 2%nat) (QualityEnv.Clock e 3%nat) st)) as Hk. rewrite Eu in Hk.
  pose proof (measure_keeps cfg e (default ∅ (Job.Options st.1)) (m :: plan) s) as Hm.
  destruct (measure _ _ _ _ _) as [[r nodes] s1]. cbn [snd] in Hm.
  assert (Hk1 : keeps st (j, s1)) by (etransitivity; [exact Hk|by apply service_keeps]).
  destruct r; [|exact Hk1|exact Hk1]. pose proof (prune_keeps cfg (QualityEnv.Pruning e) s1) as Hp.
  destruct (prune _ _ _) as [[err k] s2]. cbn [snd] in Hp.
  assert (Hk2 : keeps st (j, s2)) by (etransitivity; [exact Hk1|by apply service_keeps]).
  destruct err; [exact Hk2|].
  set (annotate := optional _ _ _). pose proof (optional_ok (GeoConfig.Enabled (Config.Geo cfg) && GeoConfig.AnnotateAfterQuality (Config.Geo cfg)) "geo_error" _
    (Hg (at_share p0 p1 85) (at_share p0 p1 92)) (j, s2)) as Ha. fold annotate in Ha.
  destruct (annotate (j, s2)) as [r st1]. cbn [snd] in Ha.
  assert (Hk3 : keeps st st1) by (etransitivity; [exact Hk2|exact Ha]). destruct r; [|exact Hk3|exact Hk3].
  set (redial := optional _ _ _). pose proof (optional_ok (DialConfig.Enabled (Config.Dial cfg) && DialConfig.AfterQuality (Config.Dial cfg)) "dial_error" _
    (dial_after_ok cfg _ (Hd (at_share p0 p1 93) p1)) st1) as Hr. fold redial in Hr.
  destruct (redial st1) as [r st2]. cbn [snd] in Hr.
  assert (Hk4 : keeps st st2) by (etransitivity; [exact Hk3|exact Hr]). destruct r; [|exact Hk4|exact Hk4].
  cbn [snd]. etransitivity; [exact Hk4|]. apply finish_keeps.
Qed.
End quality.
