(* ===== verification/DialStage.v ===== *)
(** * The dial stage: [doDial] of [internal/service/service.go]

    The plan, the programs of the engines, the rounds with what each of them
    writes, and the figures.  A round itself is [DialJob.dial_round].

    ** What a dial job leaves, whole or broken off

    Round by round: the nodes of the rounds that ended have their verdicts, all
    others are as they were. *)
From S2P Require Import Prelude Sql GoStr GoFloat GoTime Model Tasks Jobs Alerts Base64 Ratelimit NetAddr.
From S2P Require Import NetUrl Links Clash Content Config Cleaner Filter Scoring NodeStore NodesDB Purity Publish.
From S2P Require Import Outbound Fetch Sources Dial DialJob Select Runner Harvest Exporter DialProofs.
From S2P Require Import DialVerdict Worker TaskQueue RunnerProofs QualityJob.

(** [InstallHint] *)
Definition InstallHint : string :=
  "use the bundled image, or set dial.bin/dial.mihomo_bin to verified sing-box, xray, or Mihomo binaries".

(** What a round meets: the end of the context before it, what breaks it off (a
    dialer that cannot be made, or the end of the context after an engine), the
    answers to the probes of each engine, the clock, and the publisher *)
Module RoundEnv.
Record t := mk {
  Before : option error;
  Broken : option error;
  Replies : list (list Answers.t);
  Write : Writing.t;
  Counted : Time;
  Lock : publish_lock;
  Selected : nat → Time;
  Saved : nat;
  Clock : nat → Time;
}.
End RoundEnv.
Module DialEnv.
Record t := mk { Picked : Time; Repicked : Time; Round : nat → RoundEnv.t; Counted : Time; Clock : nat → Time }.
End DialEnv.

(** The running figures *)
Module Tally.
Record t := mk { Passed : Z; Missed : Z; LatSum : Z; Finished : Z; Engines : gmap string (Z * Z) }.
End Tally.

Section dial_stage.
Context `{Unicode} `{Crypto} `{MapRange} `{SnapshotCodec} `{TzData} `{LenientParse} `{NodeCodec}.
Context `{ClashCodec} `{LinkJson} `{MathLog2} `{Programs} `{CountRange} `{MetaCodec} `{PolicyCodec}.

(** The programs of the engines: the first that is missing ends the job. *)
Fixpoint resolve_engines (engines : list (string * string)) : result (list (string * string)) :=
  match engines with
  | [] => Ok []
  | (engine, bin) :: engines =>
      match AvailableFor bin engine with
      | Err e => Err (ErrMsg (err_text e +:+ "; " +:+ InstallHint))
      | Ok (bin, engine) => let! rest := resolve_engines engines in Ok ((engine, bin) :: rest)
      end
  end.

(** What the engines of a round say of its nodes *)
Definition run_until (cfg : config) (engines : list (string * list Answers.t)) (batch : list node) (k : nat) : list node :=
  (fold_left (λ s e, run_engine cfg e s) (take k engines) (batch, (λ _, []) <$> batch)).1.
Definition count_engine (cfg : config) (engines : list (string * list Answers.t)) (batch : list node)
    (m : gmap string (Z * Z)) (ke : nat * (string * list Answers.t)) : gmap string (Z * Z) :=
  let nodes := run_until cfg engines batch (S ke.1) in
  let '(ok, bad) := default (0, 0) (m !! ke.2.1) in
  <[ke.2.1 := (ok + count_nodes Dial.dial_ok nodes,
               bad + count_nodes (λ n, negb (Dial.dial_ok n) && negb (Dial.dial_skip n)) nodes)]> m.
Definition add_round (cfg : config) (engines : list (string * list Answers.t)) (batch nodes : list node) (t : Tally.t) : Tally.t :=
  let ok := List.filter Dial.dial_ok nodes in
  Tally.mk (Tally.Passed t + Z.of_nat (length ok))
    (Tally.Missed t + count_nodes (λ n, negb (Dial.dial_ok n)) nodes)
    (fold_left (λ s n, wrap64 (s + Dial.dial_latency n)) ok (Tally.LatSum t))
    (Tally.Finished t + Z.of_nat (length batch))
    (fold_left (count_engine cfg engines batch) (imap pair engines) (Tally.Engines t)).

Definition verified_total (cfg : config) (now : Time) (s : store) : Z :=
  Z.of_nat (length (ListNodes (NodeFilter.zero <| NodeFilter.VerifiedOnly := true |>
    <| NodeFilter.DialTestedAfter := verifiedAfter cfg now |> <| NodeFilter.DialEngine := verifiedEngine cfg |>
    <| NodeFilter.Limit := 20000 |>) s)).
Definition num_stat (k : string) (n : Z) (st : state) : state := with_stat k (JNum (f_of_Z n)) st.
Definition progress_at (p0 p1 : float64) (done total : Z) : float64 :=
  f_add p0 (f_div (f_mul (f_sub p1 p0) (f_of_Z done)) (f_of_Z total)).

(** The rendering of the cache at the end of a round *)
Definition republish (cfg : config) (e : RoundEnv.t) (s : Service.t) : result Service.t :=
  if negb (PublishConfig.PreRender (Config.Publish cfg)) then Ok s
  else
    let! (_, c) := RefreshPublishCache (RoundEnv.Lock e) cfg (RoundEnv.Selected e) (RoundEnv.Saved e)
                     (Service.Nodes s) (Service.Pub s) in
    Ok (s <| Service.Pub := c |>).
Definition round_message (r rounds from upto total : Z) : string :=
  "dial round " +:+ Itoa r +:+ "/" +:+ Itoa rounds +:+ " (" +:+ Itoa (from + 1) +:+ "-" +:+ Itoa upto +:+ "/" +:+ Itoa total +:+ ")".
Definition one_round (cfg : config) (engines : list (string * string)) (e : RoundEnv.t) (p0 p1 : float64)
    (r rounds total : Z) (batch : list node) (t : Tally.t) : state → ran * Tally.t * state := λ st,
  let from := Tally.Finished t in
  match RoundEnv.Before e with
  | Some err => (Failed err, t, num_stat "dial_canceled_at" from st)
  | None =>
      let upto := from + Z.of_nat (length batch) in
      let '(j, s) := updateJob JobRunning (progress_at p0 p1 from total) (round_message r rounds from upto total)
                       (RoundEnv.Clock e 0%nat) (RoundEnv.Clock e 1%nat) st in
      match RoundEnv.Broken e with
      | Some err => (Failed err, t, (j, s))
      | None =>
          let runs := zip engines.*1 (RoundEnv.Replies e) in
          let nodes := dial_round cfg runs batch in
          match upsertNodes (RoundEnv.Write e) nodes true s with
          | (Some err, s) => (Failed (ErrMsg ("persist dial results: " +:+ err_text err)), t, (j, s))
          | (None, s) =>
              let t := add_round cfg runs batch nodes t in
              let st := num_stat "verified_total" (verified_total cfg (RoundEnv.Counted e) (Service.Nodes s))
                (num_stat "dial_done" upto (num_stat "dial_fail" (Tally.Missed t) (num_stat "dial_ok" (Tally.Passed t) (j, s)))) in
              match republish cfg e st.2 with
              | Err v => (Panicked (err_text v), t, st)
              | Ok s =>
                  (Done, t, updateJob JobRunning (progress_at p0 p1 upto total)
                     ("dial round " +:+ Itoa r +:+ "/" +:+ Itoa rounds +:+ " done ok=" +:+ Itoa (Tally.Passed t) +:+ " fail="
                        +:+ Itoa (Tally.Missed t)) (RoundEnv.Clock e 2%nat) (RoundEnv.Clock e 3%nat) (st.1, s))
              end
          end
      end
  end.
Fixpoint dial_rounds (cfg : config) (engines : list (string * string)) (e : nat → RoundEnv.t) (p0 p1 : float64)
    (r : nat) (rounds total : Z) (todo : list (list node)) (t : Tally.t) (st : state) : ran * Tally.t * state :=
  match todo with
  | [] => (Done, t, st)
  | batch :: todo =>
      match one_round cfg engines (e r) p0 p1 (Z.of_nat r + 1) rounds total batch t st with
      | (Done, t, st) => dial_rounds cfg engines e p0 p1 (S r) rounds total todo t st
      | broken => broken
      end
  end.

(** [doDial] *)
Definition engine_stats (engines : list (string * string)) : gmap string (Z * Z) :=
  list_to_map ((λ e, (e.1, (0, 0))) <$> engines).
Definition stats_json (m : gmap string (Z * Z)) : json :=
  JObj ((λ kv, (kv.1, JObj [("ok", JNum (f_of_Z kv.2.1)); ("fail", JNum (f_of_Z kv.2.2))])) <$> map_to_list m).
Definition bins_json (engines : list (string * string)) : json :=
  JObj ((λ kv, (kv.1, JStr kv.2)) <$> map_to_list (fold_left (λ m e, <[e.1 := e.2]> m) engines (∅ : gmap string string))).
Definition candidates_of (cfg : config) (plan : Plan.t) (now : Time) (only : bool) (s : store) : list node :=
  pickDialCandidates cfg s now (Plan.Max plan) only (Plan.AllHQ plan).
Definition doDial (cfg : config) (e : DialEnv.t) (p0 p1 : float64) : stage := λ st,
  let clock := DialEnv.Clock e in
  if negb (DialConfig.Enabled (Config.Dial cfg)) then (Failed (ErrMsg "dial disabled in config"), st)
  else
    let st := updateJob JobRunning p0 "real protocol dial starting" (clock 0%nat) (clock 1%nat) st in
    let plan := dial_plan cfg (default ∅ (Job.Options st.1)) in
    match candidates_of cfg plan (DialEnv.Picked e) (Plan.OnlyUnverified plan) (Service.Nodes st.2) with
    | [] =>
        if Plan.OnlyUnverified plan
           && negb (bool_decide (candidates_of cfg plan (DialEnv.Repicked e) false (Service.Nodes st.2) = []))
        then (Done, updateJob JobRunning p1 "all dialable nodes already have a recent result" (clock 2%nat) (clock 3%nat)
                      (num_stat "dial_planned" 0 st))
        else (Failed (ErrMsg ("no dialable nodes for engine " +:+ DialConfig.Engine (Config.Dial cfg))), st)
    | list =>
        let total := Z.of_nat (length list) in
        let mode := if Plan.AllHQ plan then "all_hq_batched" else "limited_diversified" in
        let st := num_stat "dial_planned" total (num_stat "dial_batch_size" (Plan.Batch plan)
                    (with_stat "dial_pool_mode" (JStr mode) st)) in
        match resolve_engines (configuredDialEngines cfg) with
        | Err err => (Failed err, st)
        | Ok engines =>
            let todo := batches (Z.to_nat (Plan.Batch plan)) list in
            let rounds := Z.of_nat (length todo) in
            let st := num_stat "dial_rounds" rounds (with_stat "dial_target" (JStr (DialConfig.TestURL (Config.Dial cfg)))
                        (with_stat "dial_bins" (bins_json engines)
                          (with_stat "dial_engine" (JStr (DialConfig.Engine (Config.Dial cfg))) st))) in
            let st := updateJob JobRunning (f_add p0 (f_lit 1 2))
                        ("dial " +:+ Itoa total +:+ " HQ nodes in " +:+ Itoa rounds +:+ " rounds x" +:+ Itoa (Plan.Batch plan)
                           +:+ " via " +:+ DialConfig.Engine (Config.Dial cfg)) (clock 4%nat) (clock 5%nat) st in
            match dial_rounds cfg engines (DialEnv.Round e) p0 p1 0 rounds total todo
                    (Tally.mk 0 0 0 0 (engine_stats engines)) st with
            | (Done, t, st) =>
                let avg := if 0 <? Tally.Passed t then Tally.LatSum t ÷ Tally.Passed t else 0 in
                let st := num_stat "verified_total" (verified_total cfg (DialEnv.Counted e) (Service.Nodes st.2))
                  (with_stat "dial_by_engine" (stats_json (Tally.Engines t))
                    (num_stat "dial_avg_ms" avg (num_stat "dial_fail" (Tally.Missed t) (num_stat "dial_ok" (Tally.Passed t) st)))) in
                (Done, updateJob JobRunning p1 ("dial ok=" +:+ Itoa (Tally.Passed t) +:+ " fail=" +:+ Itoa (Tally.Missed t)
                         +:+ " rounds=" +:+ Itoa rounds +:+ " planned=" +:+ Itoa total) (clock 6%nat) (clock 7%nat) st)
            | (r, _, st) => (r, st)
            end
        end
    end.
End dial_stage.

Section dial_stage.
Context `{Unicode} `{Crypto} `{MapRange} `{SnapshotCodec} `{TzData} `{LenientParse} `{NodeCodec}.
Context `{ClashCodec} `{LinkJson} `{MathLog2} `{LocalCalendar} `{Programs} `{CountRange} `{MetaCodec} `{PolicyCodec}.

(** ** One round *)

Definition runs_of (engines : list (string * string)) (e : RoundEnv.t) : list (string * list Answers.t) :=
  zip engines.*1 (RoundEnv.Replies e).
Definition store_round (cfg : config) (engines : list (string * string)) (e : RoundEnv.t) (batch : list node)
    (m : gmap string node) : gmap string node :=
  fold_left upsert_node (dial_round cfg (runs_of engines e) batch) m.
Abbreviation stored_nodes s := (Store.nodes (Service.Nodes s)).

Lemma num_stat_keeps k v st : keeps st (num_stat k v st).
Proof. apply with_stat_keeps. Qed.
Lemma with_stat_service k v st : (with_stat k v st).2 = st.2.
Proof. by destruct st. Qed.
Lemma stored_update status progress msg t1 t2 st : stored_nodes (updateJob status progress msg t1 t2 st).2 = stored_nodes st.2.
Proof. apply update_nodes. Qed.
Lemma stored_stat k v st : stored_nodes (num_stat k v st).2 = stored_nodes st.2.
Proof. unfold num_stat. by rewrite with_stat_service. Qed.
Lemma republish_nodes cfg e s s' : republish cfg e s = Ok s' → same_service s s' ∧ Service.Nodes s' = Service.Nodes s.
Proof.
  unfold republish. destruct (negb _); [by intros [= <-]|]. destruct (RefreshPublishCache _ _ _ _ _ _) as [[b c]|]; [|done].
  cbn [rbind]. intros [= <-]. by destruct s.
Qed.
Lemma one_round_spec cfg engines e p0 p1 r rounds total batch t st res t' st' :
  one_round cfg engines e p0 p1 r rounds total batch t st = (res, t', st') →
  keeps st st' ∧
  (stored_nodes st'.2 = stored_nodes st.2 ∧ res ≠ Done ∨
   stored_nodes st'.2 = store_round cfg engines e batch (stored_nodes st.2)).
Proof.
  unfold one_round. cbv zeta. fold (runs_of engines e). destruct (RoundEnv.Before e) as [err|].
  { intros [= <- <- <-]. split; [apply num_stat_keeps|]. left. unfold num_stat. by rewrite with_stat_service. }
  set (msg := round_message _ _ _ _ _). set (st1 := updateJob JobRunning _ msg _ _ st).
  assert (Hk1 : keeps st st1) by apply update_same.
  assert (Hn1 : stored_nodes st1.2 = stored_nodes st.2) by apply update_nodes.
  clearbody st1. destruct st1 as [j s1]. cbn [snd] in Hn1. destruct (RoundEnv.Broken e) as [err|].
  { intros [= <- <- <-]. split; [done|]. by left. }
  destruct (upsertNodes _ _ _ _) as [err s2] eqn:Eu. destruct (upsertNodes_nodes _ _ _ _ _ _ Eu) as (Hsv & _ & _ & Hn2).
  assert (Hk2 : keeps st (j, s2)) by (etransitivity; [exact Hk1|by apply service_keeps]).
  assert (Hn : stored_nodes s2 = store_round cfg engines e batch (stored_nodes st.2)) by (rewrite Hn2, Hn1; reflexivity).
  destruct err as [err|]. { intros [= <- <- <-]. split; [done|]. by right. }
  set (t1 := add_round _ _ _ _ _). set (st3 := num_stat "verified_total" _ _).
  assert (Hk3 : keeps st st3).
  { etransitivity; [exact Hk2|]. unfold st3. do 4 (etransitivity; [|apply num_stat_keeps]). reflexivity. }
  assert (Hs3 : st3.2 = s2) by (unfold st3, num_stat; by rewrite !with_stat_service).
  clearbody st3 t1. destruct st3 as [j3 s3]. cbn [snd fst] in *. subst s3. destruct (republish cfg e s2) as [s4|v] eqn:Er.
  - destruct (republish_nodes _ _ _ _ Er) as [Hsv' Hn']. intros [= <- <- <-]. split.
    + etransitivity; [|apply update_same]. etransitivity; [exact Hk3|by apply service_keeps].
    + right. rewrite <-Hn, <-Hn'. apply update_nodes.
  - intros [= <- <- <-]. split; [done|]. by right.
Qed.

(** ** The rounds *)

(** What the first rounds leave in the store, from the round [r] on *)
Fixpoint store_rounds (cfg : config) (engines : list (string * string)) (e : nat → RoundEnv.t) (r : nat)
    (todo : list (list node)) (m : gmap string node) : gmap string node :=
  match todo with
  | [] => m
  | batch :: todo => store_rounds cfg engines e (S r) todo (store_round cfg engines (e r) batch m)
  end.
Lemma dial_rounds_spec cfg engines e p0 p1 rounds total todo r t st res t' st' :
  dial_rounds cfg engines e p0 p1 r rounds total todo t st = (res, t', st') →
  keeps st st' ∧ ∃ k, (res = Done → k = length todo) ∧
    stored_nodes st'.2 = store_rounds cfg engines e r (take k todo) (stored_nodes st.2).
Proof.
  revert r t st. induction todo as [|batch todo IH]; intros r t st; cbn [dial_rounds].
  { intros [= <- <- <-]. split; [reflexivity|]. by exists 0%nat. }
  destruct (one_round _ _ _ _ _ _ _ _ _ _ _) as [[res1 t1] st1] eqn:E1.
  destruct (one_round_spec _ _ _ _ _ _ _ _ _ _ _ _ _ _ E1) as [Hk1 Hn1].
  destruct res1 as [|err|v].
  - intros Hr. destruct (IH _ _ _ Hr) as [Hk (k & Hdone & Hn)]. split; [by etransitivity|].
    destruct Hn1 as [[_ ?]|Hn1]; [done|]. exists (S k). split; [intros Hd; simpl; by rewrite Hdone|]. cbn [take store_rounds].
    by rewrite Hn, Hn1.
  - intros [= <- <- <-]. split; [done|]. destruct Hn1 as [[Hn1 _]|Hn1]; [by exists 0%nat|]. by exists 1%nat.
  - intros [= <- <- <-]. split; [done|]. destruct Hn1 as [[Hn1 _]|Hn1]; [by exists 0%nat|]. by exists 1%nat.
Qed.
Lemma round_ids_of cfg runs batch i n' : dial_round cfg runs batch !! i = Some n' →
  ∃ n, batch !! i = Some n ∧ nodeID n' = nodeID n.
Proof. intros (n & Hn & Hi)%dial_round_ident. exists n. split; [done|by apply nodeID_ident]. Qed.
Lemma store_round_other cfg engines e batch m k : k ∉ nodeID <$> batch → store_round cfg engines e batch m !! k = m !! k.
Proof.
  intros Hk. apply upserts_other. intros (n' & -> & Hn)%list_elem_of_fmap. apply list_elem_of_lookup in Hn as [i Hi].
  apply round_ids_of in Hi as (n & Hn' & E). apply Hk. rewrite E. apply list_elem_of_fmap_2. by eapply list_elem_of_lookup_2.
Qed.
Lemma store_rounds_other cfg engines e r todo m k : k ∉ nodeID <$> mjoin todo → store_rounds cfg engines e r todo m !! k = m !! k.
Proof.
  revert r m. induction todo as [|batch todo IH]; intros r m Hk; [done|]. cbn [store_rounds].
  cbn [mjoin list_join] in Hk. rewrite fmap_app, not_elem_of_app in Hk. destruct Hk as [Hb Ht].
  rewrite IH by done. by apply store_round_other.
Qed.

(** The verdict of the round of a node, in the store *)
Definition settled (cfg : config) (runs : list (string * list Answers.t)) (i : nat) (n : node) (m : gmap string node) : Prop :=
  ∃ e a x, last runs = Some e ∧ e.2 !! i = Some a ∧ m !! nodeID n = Some x ∧ (Node.Verified x = true ↔ reached e.1 a n).
Lemma store_round_settles cfg engines e batch m i n :
  DialConfig.Engine (Config.Dial cfg) ∈ ["auto"; "sing-box"; "xray"; "mihomo"; "both"] →
  round_engines cfg batch (runs_of engines e) → NoDup (nodeID <$> batch) → batch !! i = Some n →
  settled cfg (runs_of engines e) i n (store_round cfg engines e batch m).
Proof.
  intros Hc Heng Hnd Hn. destruct (round_judged cfg _ batch i n Hc Heng Hn) as (n' & en & a & Hr & He & Ha & _ & Hv).
  destruct (dial_round_ident _ _ _ _ _ Hr) as (n0 & Hn0 & Hid). rewrite Hn in Hn0. injection Hn0 as <-.
  destruct Hv as (d & Hd & Hver & _ & _ & Hreach & _). exists en, a. unfold store_round. rewrite <-(nodeID_ident _ _ Hid).
  eexists. split; [done|]. split; [done|].
  split; [apply (upserts_lookup _ m i n'); [by apply round_ids|done]|].
  cbv zeta. rewrite (stored_verified m n' d Hd), Hver. exact Hreach.
Qed.
Lemma store_rounds_settle cfg engines e r todo m k batch i n :
  DialConfig.Engine (Config.Dial cfg) ∈ ["auto"; "sing-box"; "xray"; "mihomo"; "both"] →
  (∀ k batch, todo !! k = Some batch → round_engines cfg batch (runs_of engines (e (r + k)%nat))) →
  NoDup (nodeID <$> mjoin todo) → todo !! k = Some batch → batch !! i = Some n →
  settled cfg (runs_of engines (e (r + k)%nat)) i n (store_rounds cfg engines e r todo m).
Proof.
  intros Hc. revert r m k. induction todo as [|b todo IH]; intros r m k Heng Hnd Hk Hi; [done|]. cbn [store_rounds].
  cbn [mjoin list_join] in Hnd. rewrite fmap_app, NoDup_app in Hnd. destruct Hnd as (Hb & Hdis & Ht).
  destruct k as [|k].
  - injection Hk as ->. rewrite Nat.add_0_r.
    destruct (store_round_settles cfg engines (e r) batch m i n Hc) as (en & a & x & He & Ha & Hx & Hv); [|done|done|].
    { specialize (Heng 0%nat batch eq_refl). by rewrite Nat.add_0_r in Heng. }
    exists en, a, x. split; [done|]. split; [done|]. split; [|done]. rewrite store_rounds_other; [done|].
    apply Hdis. apply list_elem_of_fmap_2. by eapply list_elem_of_lookup_2.
  - cbn in Hk. rewrite <-Nat.add_succ_comm. apply IH; try done. intros k' b' Hk'. rewrite Nat.add_succ_comm. by apply (Heng (S k')).
Qed.

(** ** The plan *)

Lemma ranked_sub engine after only pool n :
  n ∈ stable_sort rank_less (List.filter (dialable engine after only) pool) → n ∈ pool.
Proof. rewrite elem_of_stable_sort, elem_of_list_filter_bool. by intros []. Qed.
Lemma ranked_ids engine after only pool : NoDup (Node.ID <$> pool) →
  NoDup (Node.ID <$> stable_sort rank_less (List.filter (dialable engine after only) pool)).
Proof.
  intros Hnd. rewrite stable_sort_perm. eapply sublist_NoDup; [exact Hnd|]. apply fmap_sublist.
  induction pool as [|n l IH]; cbn [List.filter]; [constructor|]. apply NoDup_cons in Hnd as [_ Hnd].
  destruct (dialable _ _ _ n); constructor; by apply IH.
Qed.
Lemma pool_stored cfg s limit n : store_ok s → n ∈ candidate_pool cfg s limit →
  ∃ o, Store.nodes s !! Node.ID n = Some o ∧ n = cloneNode o ∧ nodeID n = Node.ID n.
Proof.
  intros [Hs _] Hn. assert (∃ f, n ∈ ListNodes f s) as [f (o & [k Hk]%elem_of_rows & _ & ->)%listed_node].
  { unfold candidate_pool in Hn. cbv zeta in Hn. destruct (ListNodes _ s) eqn:E; [|rewrite <-E in Hn]; eexists; exact Hn. }
  destruct (Hs k o Hk) as [Hid Hno]. exists o. rewrite ID_cloneNode, (nodeID_ident _ _ (ident_cloneNode o)), Hid. done.
Qed.
Lemma picked_spec cfg s now maxDial only all : store_ok s →
  let l := pickDialCandidates cfg s now maxDial only all in
  NoDup (Node.ID <$> l) ∧
  ∀ n, n ∈ l → ∃ o, Store.nodes s !! Node.ID n = Some o ∧ n = cloneNode o ∧ nodeID n = Node.ID n.
Proof.
  intros Hs. cbv zeta. unfold pickDialCandidates. set (ranked := stable_sort _ _).
  assert (Hnd : NoDup (Node.ID <$> ranked)) by (apply ranked_ids; by apply candidate_pool_ids).
  assert (Hin : ∀ n, n ∈ ranked → ∃ o, Store.nodes s !! Node.ID n = Some o ∧ n = cloneNode o ∧ nodeID n = Node.ID n).
  { intros n Hn%ranked_sub. by eapply pool_stored. }
  destruct all; cbn [orb]; [done|]. destruct (Z.leb_spec maxDial 0) as [|Hpos]; [done|].
  destruct (diversified_spec maxDial ranked Hpos Hnd) as (Hnd' & Hsub & _). split; [done|]. intros n Hn. by apply Hin, Hsub.
Qed.

(** ** The engines *)

Lemma resolve_engines_resolved engines out :
  Forall (λ c, c.1 ∈ ["auto"; "sing-box"; "xray"; "mihomo"]) engines → resolve_engines engines = Ok out →
  Forall2 (λ c e, resolved c.1 e.1) engines out.
Proof.
  intros Hc. revert out. induction Hc as [|[engine bin] engines Hn Hc IH]; intros out; cbn [resolve_engines]; [by intros [= <-]|].
  destruct (AvailableFor bin engine) as [[b e]|] eqn:E; [|done].
  destruct (resolve_engines engines) as [rest|] eqn:Er; [|done].
  cbn [rbind]. intros [= <-]. constructor; [|by apply IH]. unfold AvailableFor in E. by apply resolveBinary_resolved in E.
Qed.
Lemma configured_names cfg : DialConfig.Engine (Config.Dial cfg) ∈ ["auto"; "sing-box"; "xray"; "mihomo"; "both"] →
  Forall (λ c, c.1 ∈ ["auto"; "sing-box"; "xray"; "mihomo"]) (configuredDialEngines cfg).
Proof.
  intros He. unfold configuredDialEngines. destruct (String.eqb_spec (DialConfig.Engine (Config.Dial cfg)) "both") as [Hb|Hne]; cbn [negb].
  - repeat constructor; set_solver.
  - constructor; [|constructor]. cbn. set_solver.
Qed.
(** Every engine of a round answers for every node of its batch. *)
Definition replies_for (e : RoundEnv.t) (engines : nat) (batch : list node) : Prop :=
  length (RoundEnv.Replies e) = engines ∧ Forall (λ l, length l = length batch) (RoundEnv.Replies e).
Lemma runs_round_engines cfg engines e batch :
  Forall2 (λ c e, resolved c.1 e.1) (configuredDialEngines cfg) engines → replies_for e (length engines) batch →
  round_engines cfg batch (runs_of engines e).
Proof.
  unfold round_engines, runs_of. intros Hr [Hlen Hall]. revert Hlen Hall. generalize (RoundEnv.Replies e).
  induction Hr as [|c en cs es Hre Hr IH]; intros [|l ls] Hlen Hall; try done.
  cbn. apply Forall_cons in Hall as [Hl Hall]. constructor; [by split|]. apply IH; [by injection Hlen|done].
Qed.

(** ** The job *)

Lemma picked_nodes cfg s s' now maxDial only all : Store.nodes s = Store.nodes s' →
  pickDialCandidates cfg s now maxDial only all = pickDialCandidates cfg s' now maxDial only all.
Proof. intros Hn. unfold pickDialCandidates, candidate_pool, ListNodes. by rewrite Hn. Qed.
Lemma update_options status progress msg t1 t2 st :
  Job.Options (updateJob status progress msg t1 t2 st).1 = Job.Options st.1.
Proof. by destruct st as [[] s]. Qed.
(** What the job goes through *)
Definition job_plan (cfg : config) (st : state) : Plan.t := dial_plan cfg (default ∅ (Job.Options st.1)).
Definition job_list (cfg : config) (e : DialEnv.t) (st : state) : list node :=
  candidates_of cfg (job_plan cfg st) (DialEnv.Picked e) (Plan.OnlyUnverified (job_plan cfg st)) (Service.Nodes st.2).
Definition job_batches (cfg : config) (e : DialEnv.t) (st : state) : list (list node) :=
  batches (Z.to_nat (Plan.Batch (job_plan cfg st))) (job_list cfg e st).
Lemma doDial_spec cfg e p0 p1 st r st' : doDial cfg e p0 p1 st = (r, st') →
  keeps st st' ∧
  (stored_nodes st'.2 = stored_nodes st.2 ∧ (r = Done → job_list cfg e st = []) ∨
   ∃ engines k, resolve_engines (configuredDialEngines cfg) = Ok engines ∧
     (r = Done → k = length (job_batches cfg e st)) ∧
     stored_nodes st'.2 = store_rounds cfg engines (DialEnv.Round e) 0 (take k (job_batches cfg e st)) (stored_nodes st.2)).
Proof.
  unfold doDial. destruct (negb _). { intros [= <- <-]. split; [reflexivity|]. by left. }
  set (st1 := updateJob JobRunning p0 "real protocol dial starting" _ _ st). cbv zeta.
  assert (Hk1 : keeps st st1) by apply update_same.
  assert (Hn1 : stored_nodes st1.2 = stored_nodes st.2) by apply update_nodes.
  assert (Hp : dial_plan cfg (default ∅ (Job.Options st1.1)) = job_plan cfg st).
  { unfold job_plan, st1. by rewrite update_options. }
  clearbody st1. rewrite Hp. unfold job_batches.
  assert (Hl : candidates_of cfg (job_plan cfg st) (DialEnv.Picked e) (Plan.OnlyUnverified (job_plan cfg st)) (Service.Nodes st1.2)
    = job_list cfg e st) by (by apply picked_nodes).
  rewrite Hl. destruct (job_list cfg e st) as [|n l].
  { destruct (_ && _); intros [= <- <-].
    - split; [|by left; rewrite stored_update, stored_stat].
      etransitivity; [|apply update_same]. etransitivity; [exact Hk1|apply num_stat_keeps].
    - split; [done|]. by left. }
  set (list := n :: l). clearbody list. clear n l Hl.
  set (st2 := num_stat "dial_planned" _ _).
  assert (Hk2 : keeps st st2).
  { etransitivity; [exact Hk1|]. unfold st2. do 3 (etransitivity; [|apply with_stat_keeps]). reflexivity. }
  assert (Hn2 : st2.2 = st1.2) by (unfold st2, num_stat; by rewrite !with_stat_service).
  clearbody st2. destruct (resolve_engines _) as [engines|err]; [|intros [= <- <-]; split; [done|left; split; [by rewrite Hn2|done]]].
  set (msg := ("dial " +:+ _)%string). set (st3 := num_stat "dial_rounds" _ _).
  assert (Hk3 : keeps st st3).
  { etransitivity; [exact Hk2|]. unfold st3. do 4 (etransitivity; [|apply with_stat_keeps]). reflexivity. }
  assert (Hn3 : st3.2 = st2.2) by (unfold st3, num_stat; by rewrite !with_stat_service).
  clearbody st3 msg. set (st4 := updateJob JobRunning _ msg _ _ st3).
  assert (Hk4 : keeps st st4) by (etransitivity; [exact Hk3|apply update_same]).
  assert (Hn4 : stored_nodes st4.2 = stored_nodes st.2).
  { transitivity (stored_nodes st3.2); [apply update_nodes|]. by rewrite Hn3, Hn2. }
  clearbody st4. destruct (dial_rounds _ _ _ _ _ _ _ _ _ _ _) as [[res t] st5] eqn:Ed.
  destruct (dial_rounds_spec _ _ _ _ _ _ _ _ _ _ _ _ _ _ Ed) as [Hk5 (k & Hdone & Hn5)]. rewrite Hn4 in Hn5.
  assert (Hk : keeps st st5) by (etransitivity; [exact Hk4|exact Hk5]).
  destruct res; [|intros [= <- <-]; split; [done|right; by exists engines, k]..].
  intros [= <- <-]. split.
  - etransitivity; [|apply update_same]. do 5 (etransitivity; [|apply with_stat_keeps]). exact Hk.
  - right. exists engines, k. split; [done|]. split; [done|]. rewrite <-Hn5.
    etransitivity; [apply update_nodes|]. unfold num_stat. by rewrite !with_stat_service.
Qed.
Lemma doDial_ok cfg e p0 p1 : stage_ok (doDial cfg e p0 p1).
Proof. intros st. destruct (doDial cfg e p0 p1 st) as [r st'] eqn:E. by apply doDial_spec in E as [Hk _]. Qed.

Lemma batch_size cfg st : (0 < Z.to_nat (Plan.Batch (job_plan cfg st)))%nat.
Proof.
  unfold job_plan, dial_plan, positive. cbn [Plan.Batch].
  destruct (Z.leb_spec (DialConfig.BatchSize (Config.Dial cfg)) 0); destruct (opt_num _ "batch_size") as [v|]; try lia;
    destruct (Z.ltb_spec 0 v); lia.
Qed.
Lemma job_batches_join cfg e st : mjoin (job_batches cfg e st) = job_list cfg e st.
Proof. apply batches_spec, batch_size. Qed.
Lemma job_batches_none cfg e st : job_list cfg e st = [] → job_batches cfg e st = [].
Proof.
  intros Hl. unfold job_batches. rewrite Hl. destruct (batches_spec _ (@nil node) (batch_size cfg st)) as [Hj Hall].
  destruct (batches _ _) as [|b l]; [done|]. apply Forall_cons in Hall as [Hb _]. cbn in Hj.
  apply app_eq_nil in Hj as [-> _]. simpl in Hb. lia.
Qed.
Lemma join_take {A} k (l : list (list A)) : ∃ rest, mjoin l = mjoin (take k l) ++ rest.
Proof. exists (mjoin (drop k l)). by rewrite <-join_app, take_drop. Qed.

(** C35: A dial job settles its rounds one by one.  Some first rounds, all of them
    when the job is done, are stored: each of their nodes is verified exactly
    when the probe of the authoritative engine of its round reached the test
    URL; every other node of the store is as it was, whether the job is done,
    its context ended, an engine was missing, or a write failed.  The rounds
    have each node of the plan once. *)
Theorem dial_job cfg e p0 p1 st r st' :
  doDial cfg e p0 p1 st = (r, st') → store_ok (Service.Nodes st.2) →
  DialConfig.Engine (Config.Dial cfg) ∈ ["auto"; "sing-box"; "xray"; "mihomo"; "both"] →
  (∀ k batch, job_batches cfg e st !! k = Some batch →
     replies_for (DialEnv.Round e k) (length (configuredDialEngines cfg)) batch) →
  mjoin (job_batches cfg e st) = job_list cfg e st ∧ NoDup (Node.ID <$> job_list cfg e st) ∧
  ∃ k engines, (r = Done → k = length (job_batches cfg e st)) ∧
    (k ≠ 0%nat → resolve_engines (configuredDialEngines cfg) = Ok engines) ∧
    (∀ id, id ∉ Node.ID <$> mjoin (take k (job_batches cfg e st)) → stored_nodes st'.2 !! id = stored_nodes st.2 !! id) ∧
    (∀ q batch i n, (q < k)%nat → job_batches cfg e st !! q = Some batch → batch !! i = Some n →
       settled cfg (runs_of engines (DialEnv.Round e q)) i n (stored_nodes st'.2)).
Proof.
  intros Hd Hok Hc Hreplies. split; [apply job_batches_join|].
  destruct (picked_spec cfg (Service.Nodes st.2) (DialEnv.Picked e) (Plan.Max (job_plan cfg st)) (Plan.OnlyUnverified (job_plan cfg st))
    (Plan.AllHQ (job_plan cfg st)) Hok) as [Hnd Hstored].
  change (pickDialCandidates _ _ _ _ _ _) with (job_list cfg e st) in Hnd, Hstored. split; [exact Hnd|].
  apply doDial_spec in Hd as [_ [[Hn Hr]|(engines & k & Heng & Hr & Hn)]].
  { exists 0%nat, []. split; [|split; [done|split; [intros; by rewrite Hn|lia]]].
    intros Hdone. by rewrite job_batches_none by auto. }
  exists k, engines. split; [done|]. split; [done|]. rewrite Hn.
  assert (Hids : ∀ l : list node, (∀ n, n ∈ l → n ∈ job_list cfg e st) → nodeID <$> l = Node.ID <$> l).
  { intros l Hl. apply list_fmap_ext. intros i n Hi%list_elem_of_lookup_2. by destruct (Hstored n (Hl n Hi)) as (o & _ & _ & Hid). }
  destruct (join_take k (job_batches cfg e st)) as [rest Hrest]. rewrite job_batches_join in Hrest.
  assert (Htake : nodeID <$> mjoin (take k (job_batches cfg e st)) = Node.ID <$> mjoin (take k (job_batches cfg e st))).
  { apply Hids. intros n Hn'. rewrite Hrest. set_solver. }
  split.
  - intros id Hid. apply store_rounds_other. by rewrite Htake.
  - intros q batch i n Hq Hb Hi. apply (store_rounds_settle cfg engines (DialEnv.Round e) 0 _ _ q batch i n Hc).
    + intros q' b' Hq'. apply lookup_take_Some in Hq' as [Hq' _]. cbn [Nat.add].
      pose proof (resolve_engines_resolved _ _ (configured_names cfg Hc) Heng) as Hres.
      apply runs_round_engines; [done|]. rewrite <-(Forall2_length _ _ _ Hres). by apply Hreplies.
    + rewrite Htake. rewrite Hrest, fmap_app in Hnd. by apply NoDup_app in Hnd as [? _].
    + by rewrite lookup_take_lt.
    + done.
Qed.
End dial_stage.
