(* ===== verification/Geo.v ===== *)
(** * Countries of the nodes: [internal/geo]

    [geo.go] and [annotate.go]: the country of a server, from the address
    database, from the name of the node or from its domain, and how it is
    written into the nodes.  The databases of github.com/oschwald/geoip2-golang
    and the resolver are parameters ([GeoData]); [range_table] is the order in
    which a [range] visits a table. *)
From S2P Require Import Prelude GoStr GoFloat GoTime Model Ratelimit NetAddr Base64 NetUrl Links Clash Config Filter NodeStore.
From S2P Require Import Publish DialJob Select.
From S2P Require Sources.

(** [Result] *)
Module GeoResult.
Record t := mk {
  CountryCode : string;
  CountryName : string;
  City : string;
  ISP : string;
  ASN : string;
  Source : string;
}.
#[export] Instance eta : Eta t := λ r, mk (CountryCode r) (CountryName r) (City r) (ISP r) (ASN r) (Source r).
Definition zero : t := mk "" "" "" "" "" "".
End GeoResult.
Export (hints) GeoResult.

(** [AnnotateOptions] *)
Module AnnotateOptions.
Record t := mk { OnlyAlive : bool; OnlyEmpty : bool; HQOnly : bool; MinScore : float64 }.
End AnnotateOptions.

(** What the country database says of an address: two codes, each with the
    names in the order of a [range]; [CountryErr] is whether there was an error. *)
Module CountryRec.
Record t := mk {
  IsoCode : string;
  Names : list (string * string);
  RegisteredCode : string;
  RegisteredNames : list (string * string);
  CountryErr : bool;
}.
End CountryRec.
Class GeoData := {
  country_db : option (Z → option CountryRec.t);
  asn_db : option (Z → option (Z * string));
  lookup_ip : string → list Z;
}.
Class TableRange := {
  range_table : list (string * string) → list (string * string);
  range_table_perm l : range_table l ≡ₚ l;
}.
(** [unicode.IsLetter] or [unicode.IsDigit], of a rune that is not ASCII *)
Class Letters := wide_letter : bytes → bool.

(** ** The tables *)

Definition isoNames : list (string * string) :=
  [("US", "United States"); ("HK", "Hong Kong"); ("TW", "Taiwan"); ("JP", "Japan"); ("KR", "South Korea");
   ("SG", "Singapore"); ("CN", "China"); ("DE", "Germany"); ("GB", "United Kingdom"); ("UK", "United Kingdom");
   ("FR", "France"); ("NL", "Netherlands"); ("CA", "Canada"); ("AU", "Australia"); ("IN", "India"); ("RU", "Russia");
   ("TR", "Turkey"); ("BR", "Brazil"); ("IT", "Italy"); ("ES", "Spain"); ("SE", "Sweden"); ("NO", "Norway");
   ("FI", "Finland"); ("PL", "Poland"); ("UA", "Ukraine"); ("VN", "Vietnam"); ("TH", "Thailand"); ("MY", "Malaysia");
   ("ID", "Indonesia"); ("PH", "Philippines"); ("MO", "Macau"); ("IE", "Ireland"); ("CH", "Switzerland");
   ("AT", "Austria"); ("BE", "Belgium"); ("CZ", "Czechia"); ("AR", "Argentina"); ("MX", "Mexico");
   ("ZA", "South Africa"); ("IL", "Israel"); ("AE", "United Arab Emirates"); ("SA", "Saudi Arabia");
   ("RO", "Romania"); ("BG", "Bulgaria"); ("HU", "Hungary"); ("PT", "Portugal"); ("DK", "Denmark");
   ("NZ", "New Zealand"); ("CL", "Chile"); ("CO", "Colombia"); ("KZ", "Kazakhstan"); ("UZ", "Uzbekistan");
   ("IR", "Iran"); ("IQ", "Iraq"); ("PK", "Pakistan"); ("BD", "Bangladesh"); ("NG", "Nigeria"); ("EG", "Egypt");
   ("KE", "Kenya"); ("LT", "Lithuania"); ("LV", "Latvia"); ("EE", "Estonia"); ("SK", "Slovakia"); ("SI", "Slovenia");
   ("HR", "Croatia"); ("RS", "Serbia"); ("GR", "Greece"); ("LU", "Luxembourg"); ("IS", "Iceland"); ("MD", "Moldova");
   ("GE", "Georgia"); ("AM", "Armenia"); ("AZ", "Azerbaijan"); ("BY", "Belarus"); ("SC", "Seychelles");
   ("PA", "Panama"); ("CR", "Costa Rica"); ("PE", "Peru"); ("UY", "Uruguay"); ("KH", "Cambodia"); ("MM", "Myanmar");
   ("NP", "Nepal"); ("LK", "Sri Lanka"); ("MN", "Mongolia"); ("CF", "Central African Republic"); ("XX", "Unknown")].
Definition cnAliases : list (string * string) :=
  [("美国", "US"); ("美國", "US"); ("香港", "HK"); ("台湾", "TW"); ("台灣", "TW"); ("日本", "JP"); ("韩国", "KR"); ("韓國", "KR");
   ("新加坡", "SG"); ("中国", "CN"); ("德國", "DE"); ("德国", "DE"); ("英国", "GB"); ("英國", "GB"); ("法国", "FR"); ("法國", "FR");
   ("荷兰", "NL"); ("荷蘭", "NL"); ("加拿大", "CA"); ("澳大利亚", "AU"); ("澳洲", "AU"); ("印度", "IN"); ("俄罗斯", "RU");
   ("俄國", "RU"); ("土耳其", "TR"); ("巴西", "BR"); ("意大利", "IT"); ("西班牙", "ES"); ("瑞典", "SE"); ("挪威", "NO"); ("芬兰", "FI");
   ("波兰", "PL"); ("烏克蘭", "UA"); ("乌克兰", "UA"); ("越南", "VN"); ("泰国", "TH"); ("馬來西亞", "MY"); ("马来西亚", "MY");
   ("印尼", "ID"); ("菲律宾", "PH"); ("澳门", "MO"); ("愛爾蘭", "IE"); ("爱尔兰", "IE"); ("瑞士", "CH"); ("阿联酋", "AE");
   ("以色列", "IL"); ("阿根廷", "AR"); ("墨西哥", "MX"); ("伊朗", "IR")].
Definition enAliases : list (string * string) :=
  [("united states", "US"); ("america", "US"); ("usa", "US"); ("hong kong", "HK"); ("hongkong", "HK");
   ("taiwan", "TW"); ("japan", "JP"); ("tokyo", "JP"); ("osaka", "JP"); ("korea", "KR"); ("seoul", "KR");
   ("singapore", "SG"); ("germany", "DE"); ("frankfurt", "DE"); ("united kingdom", "GB"); ("london", "GB");
   ("britain", "GB"); ("england", "GB"); ("france", "FR"); ("paris", "FR"); ("netherlands", "NL");
   ("amsterdam", "NL"); ("canada", "CA"); ("toronto", "CA"); ("australia", "AU"); ("sydney", "AU"); ("india", "IN");
   ("mumbai", "IN"); ("russia", "RU"); ("moscow", "RU"); ("turkey", "TR"); ("istanbul", "TR"); ("brazil", "BR");
   ("italy", "IT"); ("spain", "ES"); ("sweden", "SE"); ("norway", "NO"); ("finland", "FI"); ("poland", "PL");
   ("ukraine", "UA"); ("vietnam", "VN"); ("thailand", "TH"); ("bangkok", "TH"); ("malaysia", "MY");
   ("indonesia", "ID"); ("philippines", "PH"); ("macau", "MO"); ("macao", "MO"); ("ireland", "IE");
   ("switzerland", "CH"); ("austria", "AT"); ("belgium", "BE"); ("israel", "IL"); ("emirates", "AE");
   ("dubai", "AE"); ("los angeles", "US"); ("san jose", "US"); ("seattle", "US"); ("chicago", "US");
   ("dallas", "US"); ("new york", "US"); ("miami", "US"); ("silicon valley", "US"); ("cloudflare", "US")].
Definition cctld : list (string * string) :=
  [(".jp", "JP"); (".kr", "KR"); (".hk", "HK"); (".tw", "TW"); (".sg", "SG"); (".de", "DE"); (".fr", "FR");
   (".nl", "NL"); (".gb", "GB"); (".uk", "GB"); (".au", "AU"); (".ca", "CA"); (".in", "IN"); (".ru", "RU");
   (".br", "BR"); (".tr", "TR"); (".it", "IT"); (".es", "ES"); (".se", "SE"); (".no", "NO"); (".fi", "FI");
   (".pl", "PL"); (".ua", "UA"); (".vn", "VN"); (".th", "TH"); (".my", "MY"); (".id", "ID"); (".ph", "PH");
   (".mo", "MO"); (".ie", "IE"); (".ch", "CH"); (".at", "AT"); (".be", "BE"); (".cz", "CZ"); (".ar", "AR");
   (".mx", "MX"); (".za", "ZA"); (".il", "IL"); (".ae", "AE"); (".sa", "SA")].

Definition table_get (t : list (string * string)) (k : string) : option string :=
  snd <$> List.find (λ kv, (kv.1 =? k)%string) t.

(** A regional indicator, as the letter it stands for: the bytes
    F0 9F 87 A6 to BF *)
Definition indicator_letter (r : option bytes) : option ascii :=
  match r with
  | Some [a; b; c; d] =>
      if (byte_val a =? 240) && (byte_val b =? 159) && (byte_val c =? 135) && (166 <=? byte_val d) && (byte_val d <=? 191)
      then Some (byte_of (byte_val d - 166 + 65)) else None
  | _ => None
  end.
(** [flagEmojiToISO] *)
Definition flag_pair (a b : option bytes) : option string :=
  a ← indicator_letter a; b ← indicator_letter b;
  let code := implode [a; b] in
  (λ _, code) <$> table_get isoNames code.
Fixpoint find_flag (rs : list (option bytes)) : string :=
  match rs with
  | a :: ((b :: _) as rs) => match flag_pair a b with Some code => code | None => find_flag rs end
  | _ => ""
  end.
Definition flagEmojiToISO (s : string) : string := find_flag (runes s).

(** [containsFold], [indexFold]: ASCII letters match in either case *)
Definition fold_rune (r : option bytes) : option bytes :=
  match r with Some [c] => Some [upper_byte c] | _ => r end.
Fixpoint index_fold (sub s : list (option bytes)) : bool :=
  bool_decide (fold_rune <$> take (length sub) s = fold_rune <$> sub)
  || match s with [] => false | _ :: s => index_fold sub s end.
Definition containsFold (s sub : string) : bool :=
  (0 <? slen sub) && (slen sub <=? slen s) && index_fold (runes sub) (runes s).

(** [mergeTags] *)
Definition mergeTags (tags : list string) (add : string) : list string :=
  if (add =? "")%string || bool_decide (add ∈ tags) then tags else (tags ++ [add])%list.

Section geo.
Context `{Unicode} `{Letters} `{TableRange}.

(** [NormalizeCode], [ISOToName], [DisplayName], [containsFlagOrCode] *)
Definition NormalizeCode (code : string) : string :=
  let code := ToUpper (TrimSpace code) in if (code =? "UK")%string then "GB" else code.
Definition ISOToName (code : string) : string :=
  let code := ToUpper code in default code (table_get isoNames code).
Definition DisplayName (code : string) : string :=
  let code := ToUpper code in
  let flag := FlagEmoji code in
  let name := ISOToName code in
  if (flag =? "")%string then name else flag +:+ " " +:+ name.
Definition containsFlagOrCode (name code : string) : bool :=
  negb (code =? "")%string
  && ((negb (FlagEmoji code =? "")%string && containsFold name (FlagEmoji code)) || containsFold name code).

(** [tokenize] *)
Definition token_rune (r : option bytes) : bool :=
  match r with
  | Some [c] => alnum c
  | Some r => wide_letter r
  | None => false
  end.
Fixpoint tokens_from (acc : list (option bytes)) (rs : list (option bytes)) : list string :=
  let flush rest := match acc with [] => rest | _ => of_runes (rev acc) :: rest end in
  match rs with
  | [] => flush []
  | r :: rs => if token_rune r then tokens_from (r :: acc) rs else flush (tokens_from [] rs)
  end.
Definition tokenize (s : string) : list string := tokens_from [] (runes s).

(** [FromName]: the first table that knows a part of the name; in a table, the
    first entry that is met *)
Definition named_result (code name source : string) : GeoResult.t := GeoResult.mk code name "" "" "" source.
Definition by_name (lower : string) : option GeoResult.t :=
  (λ kv, named_result kv.1 kv.2 "name") <$> List.find (λ kv, Contains lower (ToLower kv.2)) (range_table isoNames).
Definition by_alias (text : string) (aliases : list (string * string)) : option GeoResult.t :=
  (λ kv, named_result kv.2 (ISOToName kv.2) "name") <$> List.find (λ kv, Contains text kv.1) (range_table aliases).
Definition by_token (name : string) : option GeoResult.t :=
  (λ u, named_result u (ISOToName u) "name") <$>
    List.find (λ u, (slen u =? 2) && bool_decide (is_Some (table_get isoNames u))) (ToUpper <$> tokenize name).
Definition or_else {A} (x y : option A) : option A := match x with Some _ => x | None => y end.
Definition FromName (name : string) : GeoResult.t :=
  let name := TrimSpace name in
  if (name =? "")%string then GeoResult.zero
  else
    let flag := flagEmojiToISO name in
    if negb (flag =? "")%string then let code := NormalizeCode flag in named_result code (ISOToName code) "name"
    else
      let lower := ToLower name in
      default GeoResult.zero
        (or_else (by_name lower) (or_else (by_alias name cnAliases) (or_else (by_alias lower enAliases) (by_token name)))).

(** [FromHost] *)
Definition FromHost (host : string) : GeoResult.t :=
  let h := ToLower host in
  default GeoResult.zero
    ((λ kv, named_result kv.2 (ISOToName kv.2) "host") <$> List.find (λ kv, HasSuffix h kv.1) (range_table cctld)).

(** ** The locator *)

Context `{GeoData}.

(** [pickName] *)
Definition pickName (names : list (string * string)) : string :=
  let nonempty s := negb (s =? "")%string in
  let get k := default "" (table_get names k) in
  if nonempty (get "en") then get "en"
  else if nonempty (get "zh-CN") then get "zh-CN"
  else default "" (List.find nonempty (snd <$> names)).
(** [lookupIP], [lookupASN]: an ASN of 0 is none *)
Definition lookupIP (ip : Z) : option GeoResult.t :=
  db ← country_db; rec ← db ip;
  if CountryRec.CountryErr rec || (CountryRec.IsoCode rec =? "")%string then
    if (CountryRec.RegisteredCode rec =? "")%string then None
    else Some (named_result (ToUpper (CountryRec.RegisteredCode rec)) (pickName (CountryRec.RegisteredNames rec)) "")
  else Some (named_result (ToUpper (CountryRec.IsoCode rec)) (pickName (CountryRec.Names rec)) "").
Definition lookupASN (ip : Z) : option (string * string) :=
  db ← asn_db; '(number, org) ← db ip;
  if number =? 0 then None else Some ("AS" +:+ Itoa number, org).

(** [LookupHost]: the address of a host, IPv4 before IPv6; the result without
    the cache; and with it *)
Definition host_ip (host : string) : option Z :=
  match ParseIP host with
  | Some ip => Some ip
  | None => let ips := lookup_ip host in
            match List.find mapped_v4 ips with Some ip => Some ip | None => head ips end
  end.
Definition by_address (host : string) : GeoResult.t :=
  match host_ip host with
  | None => GeoResult.zero
  | Some ip =>
      let out := match lookupIP ip with
                 | Some r => r <| GeoResult.CountryCode := NormalizeCode (GeoResult.CountryCode r) |> <| GeoResult.Source := "mmdb" |>
                 | None => GeoResult.zero end in
      match lookupASN ip with
      | Some (asn, org) => out <| GeoResult.ASN := asn |> <| GeoResult.ISP := org |>
      | None => out end
  end.
Definition known (r : GeoResult.t) : bool := negb (GeoResult.CountryCode r =? "")%string.
Definition with_name (nodeName : string) (out : GeoResult.t) : GeoResult.t :=
  let nameR := FromName nodeName in
  if negb (known nameR) then out
  else if negb (known out) then nameR <| GeoResult.Source := "name" |>
  else if (GeoResult.CountryName out =? "")%string then out <| GeoResult.CountryName := GeoResult.CountryName nameR |> else out.
Definition with_host (host : string) (out : GeoResult.t) : GeoResult.t :=
  if known out then out
  else let r := FromHost host in if known r then r <| GeoResult.Source := "host" |> else out.
Definition look_up (host nodeName : string) : GeoResult.t := with_host host (with_name nodeName (by_address host)).

Abbreviation geo_cache := (gmap string GeoResult.t).
Definition clean_host (host : string) : string := Trim (TrimSpace host) "[]".
Definition cached (host nodeName : string) (cache : geo_cache) : option GeoResult.t :=
  match cache !! ToLower host with
  | Some r =>
      if known r then
        Some (if (GeoResult.CountryName r =? "")%string && known (FromName nodeName)
              then r <| GeoResult.CountryName := GeoResult.CountryName (FromName nodeName) |> else r)
      else None
  | None => None
  end.
(** [missed]: the cache was read before another lookup of the host ended. *)
Definition LookupHost (host nodeName : string) (missed : bool) (cache : geo_cache) : GeoResult.t * geo_cache :=
  let host := clean_host host in
  match (if missed then None else cached host nodeName cache) with
  | Some r => (r, cache)
  | None =>
      let out := look_up host nodeName in
      (out, if known out then <[ToLower host := out]> cache else cache)
  end.

(** ** [AnnotateNodes] *)

(** [classifyEntry]; the [range] over the extra fields only asks whether there
    is one. *)
Definition relayed (n : node) : bool :=
  existsb (λ kv, Contains (ToLower (kv.1 +:+ "=" +:+ kv.2)) "relay") (map_to_list (Node.Extra n)).
Definition cdn_markers : list string :=
  ["cloudflare"; "akamai"; "fastly"; "cloudfront"; "cdn"; "edgekey"; "azureedge"].
Definition classifyEntry (n : node) (r : GeoResult.t) : string :=
  if relayed n then "relay"
  else
    let text := ToLower (Join [Node.Server n; Node.Host n; Node.SNI n; GeoResult.ISP r] " ") in
    if existsb (Contains text) cdn_markers then "cdn" else "direct".

Definition to_annotate (opt : AnnotateOptions.t) (n : node) : bool :=
  negb (AnnotateOptions.OnlyAlive opt && negb (Node.Alive n))
  && negb (AnnotateOptions.HQOnly opt && f_lt (Node.Score n) (AnnotateOptions.MinScore opt))
  && negb (AnnotateOptions.OnlyEmpty opt && negb (Node.Country n =? "")%string).
(** What a result does to its node *)
Definition fill (old new : string) : string := if (new =? "")%string then old else new.
Definition annotated (r : GeoResult.t) (n : node) : node :=
  if known r then
    let n := n <| Node.Country := GeoResult.CountryCode r |> <| Node.City := fill (Node.City n) (GeoResult.City r) |>
               <| Node.ISP := fill (Node.ISP n) (GeoResult.ISP r) |> <| Node.ASN := fill (Node.ASN n) (GeoResult.ASN r) |> in
    n <| Node.EntryType := classifyEntry n r |>
      <| Node.Tags := mergeTags (mergeTags (Node.Tags n) (GeoResult.CountryCode r)) (FlagEmoji (GeoResult.CountryCode r)) |>
  else n.
(** The goroutines, in the order in which they leave the cache: [missed] says
    of each whether its read came too early.  A node that is not selected is
    left alone. *)
Fixpoint annotate_loop (opt : AnnotateOptions.t) (missed : nat → bool) (i : nat) (nodes : list node) (cache : geo_cache)
    : list node * Z * geo_cache :=
  match nodes with
  | [] => ([], 0, cache)
  | n :: nodes =>
      if to_annotate opt n then
        let '(r, cache) := LookupHost (Node.Server n) (Node.Name n) (missed i) cache in
        let '(out, ok, cache) := annotate_loop opt missed (S i) nodes cache in
        (annotated r n :: out, (if known r then ok + 1 else ok), cache)
      else
        let '(out, ok, cache) := annotate_loop opt missed (S i) nodes cache in (n :: out, ok, cache)
  end.
Definition AnnotateNodes (opt : AnnotateOptions.t) (missed : nat → bool) (nodes : list node) (cache : geo_cache)
    : list node * Z * geo_cache := annotate_loop opt missed 0 nodes cache.

(** [CountByCountry] *)
Definition counted (aliveOnly hqOnly : bool) (minScore : float64) (n : node) : bool :=
  negb (aliveOnly && negb (Node.Alive n)) && negb (hqOnly && f_lt (Node.Score n) minScore).
Definition CountByCountry (nodes : list (option node)) (aliveOnly hqOnly : bool) (minScore : float64) : gmap string Z :=
  foldl (λ m n, match n with
                | Some n => if counted aliveOnly hqOnly minScore n
                            then count_country (if (Node.Country n =? "")%string then "XX" else Node.Country n) m else m
                | None => m
                end) ∅ nodes.

(** ** What the annotation promises *)

(** A cache holds known results only, and a lookup keeps it so. *)
Definition cache_ok (cache : geo_cache) : Prop := map_Forall (λ _ r, known r = true) cache.
Lemma LookupHost_cache host name missed cache : cache_ok cache → cache_ok (LookupHost host name missed cache).2.
Proof.
  intros Hc. unfold LookupHost. cbv zeta. destruct (if missed then _ else _); [done|]. cbn [snd].
  destruct (known _) eqn:E; [|done]. by apply map_Forall_insert_2.
Qed.

(** The cache answers by the host alone: a country that came from the name of
    one node is that of every other node of its host, whatever their names
    are. *)
Lemma name_cached host name cache r :
  cache !! ToLower (clean_host host) = Some r → known r = true → GeoResult.CountryName r ≠ "" →
  LookupHost host name false cache = (r, cache).
Proof.
  intros Hc Hk Hn%String.eqb_neq. unfold LookupHost, cached. cbv zeta. by rewrite Hc, Hk, Hn.
Qed.

(** Every node comes out as it was, or with the result of a lookup that knows
    its country, and only if it was to be annotated; the count is of those. *)
Lemma annotate_loop_spec opt missed nodes i cache : let '(out, ok, _) := annotate_loop opt missed i nodes cache in
  Forall2 (λ n m, m = n ∨ to_annotate opt n = true ∧ ∃ r, known r = true ∧ m = annotated r n) nodes out ∧
  0 ≤ ok ≤ Z.of_nat (length nodes).
Proof.
  revert i cache. induction nodes as [|n nodes IH]; intros i cache; cbn [annotate_loop]; [by split|].
  destruct (to_annotate opt n) eqn:Et.
  - destruct (LookupHost _ _ _ _) as [r cache1]. specialize (IH (S i) cache1).
    destruct (annotate_loop _ _ _ _ _) as [[out ok] cache2]. destruct IH as [IH Hok]. rewrite length_cons. split.
    + constructor; [|exact IH]. destruct (known r) eqn:Ek; [right; split; [done|by exists r]|left]. unfold annotated. by rewrite Ek.
    + destruct (known r); lia.
  - specialize (IH (S i) cache). destruct (annotate_loop _ _ _ _ _) as [[out ok] cache2]. destruct IH as [IH Hok].
    rewrite length_cons. split; [constructor; [by left|exact IH]|lia].
Qed.
Lemma annotated_country r n : known r = true →
  Node.Country (annotated r n) = GeoResult.CountryCode r ∧ Node.ID (annotated r n) = Node.ID n ∧
  Node.Server (annotated r n) = Node.Server n ∧ Node.Name (annotated r n) = Node.Name n ∧ Node.Score (annotated r n) = Node.Score n.
Proof. intros Hk. unfold annotated. rewrite Hk. cbv zeta. by destruct n. Qed.
(** With the option to fill gaps only, a country that is there stays, and a
    node that was annotated is not annotated again. *)
Lemma fill_gaps opt n : AnnotateOptions.OnlyEmpty opt = true → Node.Country n ≠ "" → to_annotate opt n = false.
Proof.
  intros Ho Hn. unfold to_annotate. rewrite Ho. apply String.eqb_neq in Hn. by rewrite Hn, !andb_false_r.
Qed.
End geo.

(** ** The databases *)

(** [Locator]: whether its two databases are open, and the cache.  What the
    file system and the network say to each step is an argument. *)
Module Locator.
Record t := mk { db : bool; asnDB : bool; cache : gmap string GeoResult.t }.
#[export] Instance eta : Eta t := λ l, mk (db l) (asnDB l) (cache l).
(** The two files: the error of finding the first, of opening it, whether the
    second is there, and the error of opening that *)
Record files := mk_files { stat : option error; opened : option error; asn_there : bool; asn_opened : option error }.
(** A download: the error of the request, the status, the errors of creating
    the file and of copying into it *)
Record download := mk_download { unanswered : option error; status : Z; uncreated : option error; uncopied : option error }.
(** A download into place: the errors of the directory and of the renaming *)
Record fetching := mk_fetching { mkdir : option error; loaded : download; renamed : option error }.

(** [NewWithASN], [Open], [Close], [Ready] *)
Definition NewWithASN : t := mk false false ∅.
Definition Open (f : files) (l : t) : option error * t :=
  if db l then (None, l)
  else
    match stat f, opened f with
    | Some err, _ | None, Some err => (Some err, l)
    | None, None =>
        let l := l <| db := true |> in
        if asn_there f then
          match asn_opened f with
          | Some err => (Some err, l <| db := false |>)
          | None => (None, l <| asnDB := true |>)
          end
        else (None, l)
    end.
Definition Close (l : t) : t := l <| db := false |> <| asnDB := false |>.
Definition Ready (l : t) : bool := db l.
(** [downloadFile] *)
Definition downloadFile (d : download) : option error :=
  match unanswered d with
  | Some err => Some err
  | None =>
      if negb (status d =? 200) then Some (ErrMsg ("http " +:+ Itoa (status d)))
      else match uncreated d with Some err => Some err | None => uncopied d end
  end.
(** The part [EnsureDB] and [EnsureASNDB] share *)
Definition fetched_file (what : string) (f : fetching) : option error :=
  match mkdir f with
  | Some err => Some err
  | None => match downloadFile (loaded f) with
            | Some err => Some (ErrMsg ("download " +:+ what +:+ ": " +:+ Sources.err_text err))
            | None => renamed f
            end
  end.
Definition EnsureASNDB (f : fetching) (unopened : option error) (l : t) : option error * t :=
  if asnDB l then (None, l)
  else
    match fetched_file "ASN database" f, unopened with
    | Some err, _ | None, Some err => (Some err, l)
    | None, None => (None, l <| asnDB := true |> <| cache := ∅ |>)
    end.
Definition EnsureDB (first : files) (f : fetching) (again : files) (l : t) : option error * t :=
  match Open first l with
  | (None, l) => (None, l)
  | (Some _, l) => match fetched_file "geoip" f with Some err => (Some err, l) | None => Open again l end
  end.

(** A locator is ready exactly when the call that made it so reported no
    error. *)
Lemma Open_ready f l : db (Open f l).2 = true ↔ (Open f l).1 = None.
Proof.
  unfold Open. destruct (db l) eqn:E; [done|]. destruct (stat f); [simpl; by rewrite E|]. destruct (opened f); [simpl; by rewrite E|].
  by destruct (asn_there f), (asn_opened f).
Qed.
Lemma EnsureDB_ready first f again l : db (EnsureDB first f again l).2 = true ↔ (EnsureDB first f again l).1 = None.
Proof.
  unfold EnsureDB. pose proof (Open_ready first l) as Hf. destruct (Open first l) as [[err|] l1]; [|done].
  destruct (fetched_file _ _); [simpl in *; naive_solver|apply Open_ready].
Qed.
(** What was looked up before the database was there stays in the cache, and
    the database is not asked for those hosts; [EnsureASNDB] empties it. *)
Lemma EnsureDB_keeps_cache first f again l : cache (EnsureDB first f again l).2 = cache l.
Proof.
  assert (∀ f l, cache (Open f l).2 = cache l) as Ho.
  { intros f' l'. unfold Open. destruct (db l'); [done|]. destruct (stat f'), (opened f'); try done. by destruct (asn_there f'), (asn_opened f'). }
  unfold EnsureDB. pose proof (Ho first l) as Hf. destruct (Open first l) as [[err|] l1]; [|done].
  destruct (fetched_file _ _); [done|]. by rewrite Ho.
Qed.
Lemma EnsureASNDB_empties f unopened l : asnDB l = false → (EnsureASNDB f unopened l).1 = None → cache (EnsureASNDB f unopened l).2 = ∅.
Proof. unfold EnsureASNDB. intros ->. by destruct (fetched_file _ _), unopened. Qed.
End Locator.
