(* ===== verification/AIAccess.v ===== *)
(** * Access to the AI services: [internal/aiaccess/aiaccess.go]

    Which services answer from the host and by way of a node, and what that is
    worth to the node.  What the network answers to a request ([Reply.t]) is an
    argument; a goroutine writes its own node only. *)
From Stdlib Require Import SpecFloat.
From S2P Require Import Prelude GoStr GoFloat GoRound GoTime Model Ratelimit NetAddr Base64 NetUrl Scoring QualityJob.

(** [Options]; a bound of the simultaneous probes changes no result. *)
Module AIOptions.
Record t := mk {
  Concurrency : Z;
  Timeout : Duration;
  Socks5Addr : string;
  Targets : list AITarget.t;
  HeuristicTCP : bool;
}.
#[export] Instance eta : Eta t := λ o, mk (Concurrency o) (Timeout o) (Socks5Addr o) (Targets o) (HeuristicTCP o).
End AIOptions.
Export (hints) AIOptions.

(** [New] *)
Definition New (o : AIOptions.t) : AIOptions.t :=
  let o := if AIOptions.Concurrency o <=? 0 then o <| AIOptions.Concurrency := 32 |> else o in
  let o := if AIOptions.Timeout o <=? 0 then o <| AIOptions.Timeout := 8 * Second |> else o in
  match AIOptions.Targets o with [] => o <| AIOptions.Targets := DefaultAITargets |> | _ => o end.

(** The answer to a request, or to a connection: the request cannot be made;
    after so many milliseconds an error, a status, or a connection *)
Module Reply.
Inductive t := Unmade (err : string) | Lost (ms : Z) (err : string) | Got (ms code : Z).
End Reply.

(** ** One probe *)

(** [probeHTTP]: everything below 500 counts, refusals too. *)
Definition no_answer (t : AITarget.t) (mode : string) : AIProbeResult.t :=
  AIProbeResult.mk (AITarget.Key t) (AITarget.URL t) false 0 0 "" mode.
Definition probeHTTP (a : Reply.t) (t : AITarget.t) (mode : string) : AIProbeResult.t :=
  let res := no_answer t mode in
  match a with
  | Reply.Unmade e => res <| AIProbeResult.Error := e |>
  | Reply.Lost ms e => res <| AIProbeResult.LatencyMS := ms |> <| AIProbeResult.Error := e |>
  | Reply.Got ms code =>
      let res := res <| AIProbeResult.LatencyMS := ms |> <| AIProbeResult.StatusCode := code |> in
      if (0 <? code) && (code <? 500) then res <| AIProbeResult.OK := true |>
      else res <| AIProbeResult.Error := "http " +:+ Itoa code |>
  end.

(** [probeNodeTCP]: [a] is a connection from the host to the service. *)
Definition probeNodeTCP (a : Reply.t) (n : node) (t : AITarget.t) : AIProbeResult.t :=
  let res := no_answer t "heuristic" in
  if negb (Node.Alive n) then res <| AIProbeResult.Error := "node not alive" |>
  else
    match a with
    | Reply.Unmade e | Reply.Lost _ e =>
        let ms := match a with Reply.Lost ms _ => ms | _ => 0 end in
        res <| AIProbeResult.LatencyMS := ms |>
            <| AIProbeResult.Error :=
                 if f_le (f_of_Z 70) (Node.Score n) then "runner blocked; node quality high (unverified ai)"
                 else "edge unreachable from runner: " +:+ e |>
    | Reply.Got ms _ =>
        let res := res <| AIProbeResult.LatencyMS := ms |> in
        if (0 <? LatencyMS n) && (LatencyMS n <? 1200) && f_le (f_of_Z 55) (Node.Score n)
        then res <| AIProbeResult.OK := true |> <| AIProbeResult.Error := "heuristic candidate (not via-proxy verified)" |>
        else res <| AIProbeResult.Error := "heuristic reject (latency/score)" |>
    end.

(** ** What it is worth *)

(** [appendUnique] *)
Definition appendUnique (ss : list string) (v : string) : list string :=
  if bool_decide (v ∈ ss) then ss else (ss ++ [v])%list.

(** The verb [%.0f]: the exact value to an integer, a tie to the even one *)
Definition fmt_f0 (x : float64) : string :=
  match x with
  | S754_nan => "NaN"
  | S754_infinity s => if s then "-Inf" else "+Inf"
  | S754_zero s => if s then "-0" else "0"
  | S754_finite s m e => (if s then "-" else "") +:+
      Itoa (if e <? 0 then round_even (Z.pos m) (2 ^ (- e)) else Z.pos m * 2 ^ e)
  end.

(** [boostAIScore]; the [range] counts. *)
Definition ai_results (n : node) : gmap string (option AIProbeResult.t) := default ∅ (Node.AIAccess n).
Definition result_ok (r : option AIProbeResult.t) : bool := from_option AIProbeResult.OK false r.
Definition passed (n : node) : Z := Z.of_nat (size (filter (λ kv, result_ok kv.2 = true) (ai_results n))).
Definition ai_rate (n : node) : float64 := f_div (f_of_Z (passed n)) (f_of_Z (Z.of_nat (size (ai_results n)))).
Definition boostAIScore (n : node) : node :=
  if bool_decide (ai_results n = ∅) then n
  else
    let rate := ai_rate n in
    let score := clamp (f_add (Node.Score n) (f_mul rate (f_of_Z 15))) f_zero (f_of_Z 100) in
    let n := n <| Node.Score := score |> <| Node.Grade := AssignGrade score |> in
    let n := if f_le (f_lit 3 4) rate then n <| Node.Tags := appendUnique (Node.Tags n) "ai-friendly" |> else n in
    n <| Node.Quality := (λ q,
      let q := q <| Quality.Score := score |> in
      if f_lt f_zero rate
      then q <| Quality.Notes := (Quality.Notes q ++ ["ai_pass=" +:+ fmt_f0 (f_mul rate (f_of_Z 100)) +:+ "%"])%list |>
      else q) <$> Node.Quality n |>.

(** ** All of them *)

(** [ProbeHost], [ProbeNodes].  The answers come by target; a node whose turn
    does not come before the context ends has none and stays as it is.  A
    client by way of a proxy is made or not ([client]). *)
Definition by_target (targets : list AITarget.t) (probe : nat → AITarget.t → AIProbeResult.t)
    : gmap string (option AIProbeResult.t) :=
  foldl (λ m it, <[AITarget.Key it.2 := Some (probe it.1 it.2)]> m) ∅ (zip (seq 0 (length targets)) targets).
Definition ProbeHost (o : AIOptions.t) (a : nat → Reply.t) : gmap string (option AIProbeResult.t) :=
  by_target (AIOptions.Targets o) (λ i t, probeHTTP (a i) t "direct").
Definition by_proxy (o : AIOptions.t) (client : bool) : bool := negb (AIOptions.Socks5Addr o =? "")%string && client.
Definition probe_node (o : AIOptions.t) (client : bool) (a : nat → Reply.t) (n : node) : node :=
  let probe i t := if by_proxy o client then probeHTTP (a i) t "via_proxy" else probeNodeTCP (a i) n t in
  let targets := if by_proxy o client || AIOptions.HeuristicTCP o then AIOptions.Targets o else [] in
  boostAIScore (n <| Node.AIAccess := Some (by_target targets probe) |>).
Definition worth_probing (n : node) : bool := Node.Alive n || f_le (f_of_Z 50) (Node.Score n).
Definition chosen (nodes : list node) (n : node) : bool := worth_probing n || negb (existsb worth_probing nodes).
Definition ProbeNodes (o : AIOptions.t) (client : bool) (a : nat → option (nat → Reply.t)) (nodes : list node) : list node :=
  imap (λ i n, if chosen nodes n then match a i with Some r => probe_node o client r n | None => n end else n) nodes.

(** [ParseSocksURL], [trim] *)
Fixpoint trim_left (l : bytes) : bytes :=
  match l with
  | c :: l' => if (byte_val c =? 32) || (byte_val c =? 9) then trim_left l' else l
  | [] => []
  end.
Definition trim (s : string) : string := implode (trim_left (explode s)).
Definition ParseSocksURL `{Unicode} (raw : string) : string :=
  let raw := trim raw in
  if (raw =? "")%string then ""
  else match ParseURL raw with
       | Some u => if (URL.Host u =? "")%string then raw else URL.Host u
       | None => raw
       end.

(** ** What the probes promise *)

(** The weak probe of a node is good exactly when the host reaches the service
    and the node is a quick one of some quality. *)
Lemma probeNodeTCP_ok a n t :
  AIProbeResult.OK (probeNodeTCP a n t) = true ↔
  Node.Alive n = true ∧ (∃ ms code, a = Reply.Got ms code) ∧ 0 < LatencyMS n < 1200 ∧ f_le (f_of_Z 55) (Node.Score n) = true.
Proof.
  unfold probeNodeTCP. destruct (Node.Alive n); simpl; [|naive_solver].
  destruct a as [e|ms e|ms code]; simpl; [naive_solver..|].
  destruct (_ && _ && _) eqn:E; simpl; [bsplit; naive_solver lia|].
  split; [done|]. intros (_ & _ & Hl & Hs). rewrite Hs, andb_true_r in E. exfalso. bsplit; lia.
Qed.
(** Any answer below 500 is one, a refusal too. *)
Lemma probeHTTP_ok a t mode :
  AIProbeResult.OK (probeHTTP a t mode) = true ↔ ∃ ms code, a = Reply.Got ms code ∧ 0 < code < 500.
Proof.
  destruct a as [e|ms e|ms code]; simpl; [naive_solver..|].
  destruct (Z.ltb_spec 0 code), (Z.ltb_spec code 500); simpl; split; try done; try naive_solver lia; eauto with lia.
Qed.

Lemma passed_range n : 0 ≤ passed n ≤ Z.of_nat (size (ai_results n)).
Proof.
  unfold passed. split; [lia|]. apply inj_le, map_subseteq_size, map_filter_subseteq.
Qed.
Lemma ai_rate_between n : ai_results n ≠ ∅ → Z.of_nat (size (ai_results n)) < 2 ^ 53 →
  f_between f_zero (f_of_Z 1) (ai_rate n).
Proof.
  intros Hne Hs. unfold ai_rate. apply rate_bounds; [apply passed_range|]. split; [|done].
  destruct (decide (size (ai_results n) = 0%nat)) as [E|]; [|lia]. by apply map_size_empty_inv in E.
Qed.
(** The bonus keeps the score a percentage, and the grade is read off it. *)
Lemma boost_bounded n : in_percent (Node.Score n) → Z.of_nat (size (ai_results n)) < 2 ^ 53 →
  in_percent (Node.Score (boostAIScore n)) ∧
  (ai_results n ≠ ∅ → Node.Grade (boostAIScore n) = AssignGrade (Node.Score (boostAIScore n))).
Proof.
  intros Hp Hs. unfold boostAIScore. case_bool_decide as He; [done|]. cbv zeta.
  set (score := clamp _ _ _). assert (in_percent score) as Hscore.
  { apply clamp_between; [|done]. apply f_nonneg_not_nan, f_add_nonneg; [by apply (f_between_nonneg f_zero (f_of_Z 100))|].
    pose proof (ai_rate_between n He Hs) as Hr. apply f_mul_nonneg_r; [by apply (f_between_nonneg f_zero (f_of_Z 1))|done]. }
  clearbody score. destruct (f_le (f_lit 3 4) _); destruct n; by split.
Qed.

(** A probe changes the results, the score and what is derived from it. *)
Lemma boost_keeps n : let n' := boostAIScore n in
  Node.ID n' = Node.ID n ∧ Node.Server n' = Node.Server n ∧ Node.Alive n' = Node.Alive n ∧ Node.Verified n' = Node.Verified n ∧
  Node.Dial n' = Node.Dial n ∧ Node.Country n' = Node.Country n ∧ Node.AIAccess n' = Node.AIAccess n.
Proof. unfold boostAIScore. case_bool_decide; [done|]. cbv zeta. destruct (f_le (f_lit 3 4) _); by destruct n. Qed.
Lemma lookup_ProbeNodes o client a nodes i : ProbeNodes o client a nodes !! i =
  (λ n, if chosen nodes n then match a i with Some r => probe_node o client r n | None => n end else n) <$> nodes !! i.
Proof. unfold ProbeNodes. by rewrite list_lookup_imap. Qed.

(** The bonus is added to a score that has the bonus of the run before: two
    runs that reach everything raise a node of 60 to 90. *)
Definition reached_all (score : Z) : node :=
  Node.zero <| Node.Alive := true |> <| Node.Score := f_of_Z score |>
    <| Node.AIAccess := Some {["claude" := Some (AIProbeResult.mk "claude" "" true 200 10 "" "via_proxy")]} |>.
Example boost_twice :
  Node.Score (boostAIScore (reached_all 60)) = f_of_Z 75 ∧
  Node.Score (boostAIScore (boostAIScore (reached_all 60))) = f_of_Z 90.
Proof. by vm_compute. Qed.
