(* ===== verification/Enrich.v ===== *)
(** * The stages that enrich and export: [doGeo], [doAI], [doPurity] and
    [doExport] of [internal/service/service.go], and [Export] of
    [internal/exporter/exporter.go]

    Each stage takes the nodes out of the store, lets its package work on them
    and writes them back.  What it meets outside — the databases, the answers
    of the network, the file system, the clock — is a record of arguments.  The
    reports of progress on the way are left out, as in [Harvest.v]. *)
From S2P Require Import Prelude Sql GoStr GoFloat GoTime Model Tasks Jobs Alerts Base64 Ratelimit NetAddr NetUrl Links.
From S2P Require Import Clash Content Config Cleaner Filter Scoring NodeStore NodesDB Pools Exporter Publish Outbound Fetch Sources Dial.
From S2P Require Import DialJob Select Runner RunnerProofs Harvest QualityJob Geo AIAccess.
From S2P Require Purity.

Definition counts_json (m : gmap string Z) : json := JObj ((λ kv, (kv.1, count_stat kv.2)) <$> map_to_list m).
Definition told `{TzData} (p : float64) (msg : string) (t : Time * Time) (st : state) : state :=
  updateJob JobRunning p msg t.1 t.2 st.

(** ** [doGeo] *)

(** Whether there is a locator, the cache it has, which of its reads come too
    early, and the clock *)
Module GeoEnv.
Record t := mk {
  Enabled : bool;
  Cache : gmap string GeoResult.t;
  Missed : nat → bool;
  Write : Writing.t;
  First : Time * Time;
  Last : Time * Time;
}.
End GeoEnv.

Section geo_stage.
Context `{Unicode} `{Letters} `{TableRange} `{GeoData} `{Crypto} `{MapRange} `{SnapshotCodec} `{TzData} `{LenientParse} `{NodeCodec}.

Definition geo_nodes (s : store) : list node :=
  let nodes := ListNodes (NodeFilter.zero <| NodeFilter.AliveOnly := true |> <| NodeFilter.Limit := 3000 |>) s in
  if Z.of_nat (length nodes) <? 20 then AllNodes s else nodes.
Definition geo_min (base : config) : float64 :=
  let m := FilterConfig.MinScore (Config.Filter base) in if f_le m f_zero then f_of_Z 70 else m.
Definition geo_options (opts : gmap string json) : AnnotateOptions.t :=
  AnnotateOptions.mk false (negb (true_of opts "force")) false f_zero.
Definition doGeo (base : config) (e : GeoEnv.t) (p0 p1 : float64) : stage := λ st,
  if negb (GeoEnv.Enabled e) then (Failed (ErrMsg "geo locator not enabled"), st)
  else
    let '(j, s) := told p0 "geo annotating countries" (GeoEnv.First e) st in
    let '(nodes, ok, _) := AnnotateNodes (geo_options (default ∅ (Job.Options j))) (GeoEnv.Missed e)
                             (geo_nodes (Service.Nodes s)) (GeoEnv.Cache e) in
    match upsertNodes (GeoEnv.Write e) nodes false s with
    | (Some err, s) => (Failed (ErrMsg ("persist geo results: " +:+ err_text err)), (j, s))
    | (None, s) =>
        let hq := CountByCountry (Some <$> AllNodes (Service.Nodes s)) true true (geo_min base) in
        let st := put_stat "by_country_hq" (counts_json hq)
                    (put_stat "geo_mmdb" (JBool (bool_decide (is_Some country_db))) (put_stat "geo_annotated" (count_stat ok) (j, s))) in
        (Done, told p1 ("geo ok=" +:+ Itoa ok +:+ " countries=" +:+ Itoa (Z.of_nat (size hq))) (GeoEnv.Last e) st)
    end.
End geo_stage.

(** ** [doAI] *)

(** The variable NODE_HARVEST_SOCKS5, whether a client for a proxy is made, and
    the answers to the host and to the nodes *)
Module AIEnv.
Record t := mk {
  Socks5 : string;
  Client : bool;
  Host : nat → Reply.t;
  Nodes : nat → option (nat → Reply.t);
  Save : io_step → option error;
  Write : Writing.t;
  First : Time * Time;
  Last : Time * Time;
}.
End AIEnv.

Section ai_stage.
Context `{Unicode} `{Crypto} `{MapRange} `{SnapshotCodec} `{TzData} `{LenientParse} `{NodeCodec}.

Definition socks_of (e : AIEnv.t) (opts : gmap string json) : string :=
  let socks := ParseSocksURL (text_of opts "socks5") in
  if (socks =? "")%string then AIEnv.Socks5 e else socks.
Definition ai_options (socks : string) : AIOptions.t := AIAccess.New (AIOptions.mk 24 (8 * Second) socks [] true).
Definition ai_nodes (s : store) : list node :=
  let nodes := ListNodes (NodeFilter.zero <| NodeFilter.AliveOnly := true |> <| NodeFilter.Limit := 400 |>) s in
  if Z.of_nat (length nodes) <? 50 then ListNodes (NodeFilter.zero <| NodeFilter.Limit := 200 |>) s else nodes.
Definition passed_keys (n : node) : list string :=
  (filter (λ kv, result_ok kv.2 = true) (map_to_list (ai_results n))).*1.
Definition ai_pass (nodes : list node) : gmap string Z := tally Some (nodes ≫= passed_keys).
Definition doAI (e : AIEnv.t) (p0 p1 : float64) : stage := λ st,
  let '(j, s) := told p0 "probing AI targets" (AIEnv.First e) st in
  let socks := socks_of e (default ∅ (Job.Options j)) in
  let o := ai_options socks in
  match SetHostAI (AIEnv.Save e) (Some (ProbeHost o (AIEnv.Host e))) (Service.Nodes s) with
  | (Some err, nodes) => (Failed (ErrMsg ("persist host AI results: " +:+ err_text err)), (j, s <| Service.Nodes := nodes |>))
  | (None, nodes) =>
      let s := s <| Service.Nodes := nodes |> in
      let nodes := ProbeNodes o (AIEnv.Client e) (AIEnv.Nodes e) (ai_nodes (Service.Nodes s)) in
      match upsertNodes (AIEnv.Write e) nodes false s with
      | (Some err, s) => (Failed (ErrMsg ("persist AI results: " +:+ err_text err)), (j, s))
      | (None, s) =>
          let st := put_stat "socks5" (JBool (negb (socks =? "")%string))
                      (put_stat "ai_pass" (counts_json (ai_pass nodes))
                        (put_stat "ai_nodes" (count_stat (Z.of_nat (length nodes))) (j, s))) in
          (Done, told p1 "ai probe finished" (AIEnv.Last e) st)
      end
  end.
End ai_stage.

(** ** [doPurity] *)

(** The clock of the listing, the directory of the probes, their answers *)
Module PurityEnv.
Record t := mk {
  Listed : Time;
  MkdirErr : option error;
  Answers : list (Time * option Purity.Answers.t);
  Write : Writing.t;
  First : Time * Time;
  Told : Time * Time;
  Last : Time * Time;
}.
End PurityEnv.

Section purity_stage.
Context `{Unicode} `{FmtAny} `{Crypto} `{MapRange} `{SnapshotCodec} `{TzData} `{LenientParse} `{NodeCodec} `{Programs}.
Context (object : string → option (gmap string json)).

Definition purity_nodes (cfg : config) (now : Time) (s : store) : list node :=
  ListNodes (NodeFilter.zero <| NodeFilter.VerifiedOnly := true |> <| NodeFilter.AliveOnly := true |>
    <| NodeFilter.DialTestedAfter := verifiedAfter cfg now |> <| NodeFilter.DialEngine := verifiedEngine cfg |>
    <| NodeFilter.Limit := 5000 |>) s.
(** [purity.New]: the error of making the directory, or of finding a program *)
Definition purity_new (base : config) (e : PurityEnv.t) : result (string * string) :=
  match PurityEnv.MkdirErr e with
  | Some err => Err (ErrMsg ("create purity work directory: " +:+ err_text err))
  | None => AvailableFor (DialConfig.Bin (Config.Dial base)) "sing-box"
  end.
Definition purity_stats (list : list node) (st : state) : state :=
  let '(ok, _, cf, clean, avg) := Purity.Summary list in
  put_stat "purity_by_grade" (counts_json (Purity.GradeCounts list))
    (put_stat "purity_avg_clean" (count_stat avg) (put_stat "purity_clean70" (count_stat clean)
      (put_stat "purity_cf_ok" (count_stat cf) (put_stat "purity_ok" (count_stat ok) st)))).
Definition purity_summary (list : list node) : string :=
  let '(ok, failed, cf, clean, avg) := Purity.Summary list in
  "purity ok=" +:+ Itoa ok +:+ " fail=" +:+ Itoa failed +:+ " cf_ok=" +:+ Itoa cf +:+ " cleanA+=" +:+ Itoa clean
    +:+ " avg_clean=" +:+ Itoa avg.
Definition doPurity (base cfg : config) (e : PurityEnv.t) (p0 p1 : float64) : stage := λ st,
  let '(j, s) := told p0 "purity probe starting" (PurityEnv.First e) st in
  match purity_nodes cfg (PurityEnv.Listed e) (Service.Nodes s) with
  | [] => (Failed (ErrMsg "no verified nodes to probe; run dial first"), (j, s))
  | list =>
      let maxN := positive (opt_num (default ∅ (Job.Options j)) "max_nodes") 0 in
      match purity_new base e with
      | Err err => (Failed err, (j, s))
      | Ok _ =>
          let n := Z.of_nat (length list) in
          let plan := if (0 <? maxN) && (maxN <? n) then maxN else n in
          let st := told (f_add p0 (f_of_Z 1)) ("purity probing " +:+ Itoa plan +:+ " nodes") (PurityEnv.Told e)
                      (put_stat "purity_planned" (count_stat plan) (j, s)) in
          let probed := Purity.TestAll object maxN (PurityEnv.Answers e) list in
          match upsertNodes (PurityEnv.Write e) probed true st.2 with
          | (Some err, s) => (Failed (ErrMsg ("persist purity results: " +:+ err_text err)), (st.1, s))
          | (None, s) => (Done, told p1 (purity_summary probed) (PurityEnv.Last e) (purity_stats probed (st.1, s)))
          end
      end
  end.
End purity_stage.

(** ** [Export] *)

(** [filepath.Join] of a directory and a name, on slash-separated paths *)
Fixpoint clean_elems (rooted : bool) (acc l : list string) : list string :=
  match l with
  | [] => rev acc
  | x :: l =>
      if bool_decide (x ∈ [""; "."]) then clean_elems rooted acc l
      else if (x =? "..")%string then
        match acc with
        | y :: acc' => if (y =? "..")%string then clean_elems rooted (x :: acc) l else clean_elems rooted acc' l
        | [] => clean_elems rooted (if rooted then [] else [x]) l
        end
      else clean_elems rooted (x :: acc) l
  end.
Definition file_join (dir name : string) : string :=
  let path := if (dir =? "")%string then name else if (name =? "")%string then dir else dir +:+ "/" +:+ name in
  if (path =? "")%string then ""
  else
    let rooted := HasPrefix path "/" in
    let elems := Join (clean_elems rooted [] (Split path "/")) "/" in
    if rooted then "/" +:+ elems else if (elems =? "")%string then "." else elems.

(** [outNode] of [writeJSON]; [export_json] is [json.MarshalIndent]. *)
Module OutNode.
Record t := mk {
  Protocol_ : string; Name : string; Server : string; Port : Z; LatencyMS_ : Z; Score : float64;
  Grade : string; Country : string; City : string; TLS : bool; Source : string; URI : string;
}.
End OutNode.
Class ExportJson := export_json : list OutNode.t → result string.
Definition out_node (n : node) : OutNode.t :=
  OutNode.mk (Node.Protocol n) (Node.Name n) (Node.Server n) (Node.Port n) (LatencyMS n) (Node.Score n) (Node.Grade n)
    (Node.Country n) (Node.City n) (Node.TLS n) (Node.Source n) (Node.RawURI n).

(** What the file system says: to the directory, to the file that is written
    after so many others, and to the last file of a job *)
Module ExportEnv.
Record t := mk {
  DirErr : option error;
  FileErr : nat → option error;
  LastErr : option error;
  Stamp : Time;
  Selected : nat → Time;
  Lock : publish_lock;
  Refreshed : nat → Time;
  Saved : nat;
}.
End ExportEnv.

Section export.
Context `{Unicode} `{LinkJson} `{ClashCodec} `{TzData} `{ExportJson}.

(** The files written so far, each with its text *)
Abbreviation files := (list (string * string)).
Inductive writer := WriteRaw | WriteBase64 | WriteJSON | WriteClash.
Definition written_text (nodes : list node) (w : writer) : result string :=
  match w with
  | WriteRaw => RenderRaw (Some <$> nodes)
  | WriteBase64 => RenderBase64 (Some <$> nodes)
  | WriteJSON => export_json (out_node <$> nodes)
  | WriteClash => Ok (buildClash (Some <$> nodes))
  end.
Definition put_file (e : ExportEnv.t) (nodes : list node) (path : string) (w : writer) (fs : files) : result files :=
  let! text := written_text nodes w in
  match ExportEnv.FileErr e (length fs) with Some err => Err err | None => Ok (fs ++ [(path, text)])%list end.
(** A panic is no error to be wrapped. *)
Definition wrap_error (what : string) (e : error) : error :=
  match e with ErrPanic _ => e | _ => ErrMsg (what +:+ ": " +:+ err_text e) end.

(** The formats of the configuration *)
Definition run_file (format : string) : option (string * writer) :=
  if bool_decide (format ∈ ["raw"; "uri"; "txt"]) then Some (".txt", WriteRaw)
  else if bool_decide (format ∈ ["base64"; "sub"; "subscription"]) then Some (".base64.txt", WriteBase64)
  else if bool_decide (format ∈ ["clash"; "yaml"; "yml"]) then Some (".clash.yaml", WriteClash)
  else if (format =? "json")%string then Some (".json", WriteJSON)
  else None.
Fixpoint write_runs (e : ExportEnv.t) (dir stem : string) (nodes : list node) (formats : list string) (fs : files) : result files :=
  match formats with
  | [] => Ok fs
  | format :: formats =>
      let format := ToLower (TrimSpace format) in
      match run_file format with
      | None => write_runs e dir stem nodes formats fs
      | Some (ext, w) =>
          match put_file e nodes (file_join dir (stem +:+ ext)) w fs with
          | Err err => Err (wrap_error ("export " +:+ format) err)
          | Ok fs => write_runs e dir stem nodes formats fs
          end
      end
  end.
Definition stable_files (prefix : string) : list (string * writer) :=
  [(prefix +:+ "-latest.txt", WriteRaw); (prefix +:+ "-latest.base64.txt", WriteBase64);
   (prefix +:+ "-latest.json", WriteJSON); (prefix +:+ "-latest.clash.yaml", WriteClash);
   ("sub.txt", WriteRaw); ("sub.base64", WriteBase64); ("clash.yaml", WriteClash)].
Fixpoint write_stable (e : ExportEnv.t) (dir : string) (nodes : list node) (outs : list (string * writer)) (fs : files)
    : result files :=
  match outs with
  | [] => Ok fs
  | (name, w) :: outs =>
      let path := file_join dir name in
      match put_file e nodes path w fs with
      | Err err => Err (wrap_error ("export stable " +:+ path) err)
      | Ok fs => write_stable e dir nodes outs fs
      end
  end.
(** [Export]: the paths of the run, and all files; which old ones go then,
    [cleanupOldRuns] says. *)
Definition Export (e : ExportEnv.t) (nodes : list node) (cfg : config) : result (list string * files) :=
  let x := Config.Export cfg in
  let dir := ExportConfig.Dir x in
  let prefix := ExportConfig.FilenamePrefix x in
  match ExportEnv.DirErr e with
  | Some err => Err err
  | None =>
      let! fs := write_runs e dir (prefix +:+ "-" +:+ FormatFileTS (ExportEnv.Stamp e)) nodes (ExportConfig.Formats x) [] in
      match fs with
      | [] => Ok ([], [])
      | _ => let! all := write_stable e dir nodes (stable_files prefix) fs in Ok (fs.*1, all)
      end
  end.

(** ** [doExport] *)

Context `{Crypto} `{MapRange} `{CountRange} `{MetaCodec} `{PolicyCodec} `{SnapshotCodec}.

Definition paths_json (l : list string) : json := match l with [] => JNull | _ => JArr (JStr <$> l) end.
Definition prerender (cfg : config) (e : ExportEnv.t) (st : state) : result state :=
  if negb (PublishConfig.PreRender (Config.Publish cfg)) then Ok st
  else
    let! (b, c) := RefreshPublishCache (ExportEnv.Lock e) cfg (ExportEnv.Refreshed e) (ExportEnv.Saved e)
                     (Service.Nodes st.2) (Service.Pub st.2) in
    Ok (put_stat "publish_updated_at" (JStr (Blob.UpdatedAt b)) (put_stat "publish_count" (count_stat (Blob.Count b))
         (put_stat "publish_etag" (JStr (Blob.ETag b)) (st.1, st.2 <| Service.Pub := c |>)))).
Definition ai_friendly (s : store) : list string :=
  Node.RawURI <$> List.filter (λ n, hasAnyAIOK n && negb (unset (Node.RawURI n)))
    (ListNodes (NodeFilter.zero <| NodeFilter.AliveOnly := true |> <| NodeFilter.MinScore := f_of_Z 60 |>
                  <| NodeFilter.Limit := 300 |>) s).
Definition export_ai (cfg : config) (e : ExportEnv.t) (st : state) : state :=
  match ai_friendly (Service.Nodes st.2) with
  | [] => st
  | _ => match ExportEnv.LastErr e with
         | Some err => put_stat "ai_export_error" (JStr (err_text err)) st
         | None => put_stat "ai_export" (JStr (file_join (ExportConfig.Dir (Config.Export cfg)) "nodes-ai-friendly.txt")) st
         end
  end.
Definition doExport (cfg : config) (e : ExportEnv.t) : state → option string * state := λ st,
  let hq := SelectPublishNodes cfg (ExportEnv.Selected e) (Service.Nodes st.2) in
  match Export e hq cfg with
  | Err (ErrPanic v) => (Some v, st)
  | Err err => (None, put_stat "export_error" (JStr (err_text err)) st)
  | Ok (paths, _) =>
      let st := put_stat "export_files" (paths_json paths) (put_stat "exported" (count_stat (Z.of_nat (length hq))) st) in
      match prerender cfg e st with
      | Err v => (Some (err_text v), st)
      | Ok st => (None, export_ai cfg e st)
      end
  end.
End export.
