(* ===== verification/Program.v ===== *)
(** * The program's own jobs

    The seven stages of the service put together: what a job meets is a
    [World.t], and whatever it is, the stages keep the promises that
    [RunnerProofs.v] asks of them, and what they do to the store of the nodes is
    a sequence of the store's operations. *)
From S2P Require Import Prelude Sql GoStr GoFloat GoTime Model Tasks Jobs Alerts Base64 Ratelimit NetAddr NetUrl Links.
From S2P Require Import Clash Content Config Cleaner Filter Scoring NodeStore NodesDB Pools Exporter Publish Outbound Fetch Sources Dial.
From S2P Require Import DialJob Select TaskQueue Worker Runner RunnerProofs Harvest QualityJob DialStage Geo AIAccess Enrich.
From S2P Require Purity.

(** What the stages of one job meet; the configuration can change between
    them. *)
Module World.
Record t := mk {
  Base : config;
  Fetched : config * FetchEnv.t;
  Measured : config * QualityEnv.t;
  Annotated : GeoEnv.t;
  Redialled : config * DialEnv.t;
  Asked : AIEnv.t;
  Located : GeoEnv.t;
  Probed : config * PurityEnv.t;
  Dialled : config * DialEnv.t;
  Exported : config * ExportEnv.t;
}.
End World.

Section program.
Context `{Unicode} `{Crypto} `{FmtAny} `{LinkJson} `{ClashCodec} `{TzData} `{LenientParse} `{MapRange} `{SnapshotCodec} `{NodeCodec}.
Context `{MathLog2} `{Programs} `{CountRange} `{MetaCodec} `{PolicyCodec} `{Letters} `{TableRange} `{GeoData} `{ExportJson}.
Context `{Quoting} `{JobOptionsCodec} `{LocalCalendar}.
Context (object : string → option (gmap string json)).

Definition program_stages (post : Alert.t → option error) (w : World.t) : Stages.t :=
  Stages.mk (doFetch (World.Base w) (World.Fetched w).1 (World.Fetched w).2)
    (doQuality (World.Measured w).1 post (World.Measured w).2 (doGeo (World.Base w) (World.Annotated w))
       (doDial (World.Redialled w).1 (World.Redialled w).2))
    (doAI (World.Asked w)) (doGeo (World.Base w) (World.Located w))
    (doPurity object (World.Base w) (World.Probed w).1 (World.Probed w).2)
    (doDial (World.Dialled w).1 (World.Dialled w).2) (doExport (World.Exported w).1 (World.Exported w).2).

(** ** Going on by operations of the store *)

Definition by_steps (s s' : Service.t) : Prop := rtc NodeStore.step (Service.Nodes s) (Service.Nodes s').
#[local] Instance by_steps_preorder : PreOrder by_steps.
Proof. unfold by_steps. split; [intros x; apply rtc_refl|]. intros x y z ? ?. by etransitivity. Qed.
Definition goes_on (st st' : state) : Prop := keeps st st' ∧ by_steps st.2 st'.2.
#[local] Instance goes_on_preorder : PreOrder goes_on.
Proof.
  unfold goes_on. split; [by split; reflexivity|]. intros x y z [? ?] [? ?]. split; by etransitivity.
Qed.
Lemma same_store s s' : Service.Nodes s' = Service.Nodes s → by_steps s s'.
Proof. unfold by_steps. intros ->. apply rtc_refl. Qed.
Lemma update_steps status progress msg t1 t2 st : by_steps st.2 (updateJob status progress msg t1 t2 st).2.
Proof.
  destruct st as [j [nodes durable states pub db active max]]. apply rtc_once. unfold updateJob. cbn. apply step_job.
Qed.
Lemma update_goes status progress msg t1 t2 st : goes_on st (updateJob status progress msg t1 t2 st).
Proof. split; [apply update_keeps|apply update_steps]. Qed.
Lemma told_goes p msg t st : goes_on st (told p msg t st).
Proof. apply update_goes. Qed.
Lemma stat_steps k v st : by_steps st.2 (with_stat k v st).2.
Proof. apply same_store. by rewrite with_stat_service. Qed.
Lemma stat_goes k v st : goes_on st (put_stat k v st).
Proof. split; [apply with_stat_keeps|apply stat_steps]. Qed.
Lemma service_goes j s s' : same_service s s' → by_steps s s' → goes_on (j, s) (j, s').
Proof. by split; [apply service_keeps|]. Qed.

(** The writes *)
Lemma replace_steps w nodes s : by_steps s (replaceNodes w nodes s).2.
Proof.
  unfold replaceNodes, by_steps. pose proof (step_replace _ (Writing.Answers w) (Writing.Now w) (Some <$> nodes) (Service.Nodes s)) as Hs.
  destruct (NodeStore.ReplaceNodes _ _ _ _) as [e1 st]. destruct s as [n0 durable states pub db active max]. cbn in *.
  destruct e1; [by apply rtc_once|]. destruct durable; [|by apply rtc_once]. cbn. destruct (NodesDB.ReplaceNodes _ _ _); by apply rtc_once.
Qed.
Lemma upsert_steps w nodes b s : by_steps s (upsertNodes w nodes b s).2.
Proof.
  unfold upsertNodes, by_steps. pose proof (step_upsert _ (Writing.Answers w) (Writing.Now w) nodes (Service.Nodes s)) as Hs.
  destruct (UpsertNodes _ _ _ _) as [e1 st]. destruct s as [n0 durable states pub db active max]. cbn in *.
  destruct e1; [by apply rtc_once|]. destruct durable; [|by apply rtc_once]. cbn. destruct (SaveNodes _ _ _); [|by apply rtc_once].
  destruct b; by apply rtc_once.
Qed.
Lemma upsert_goes w nodes b j s err s' : upsertNodes w nodes b s = (err, s') → goes_on (j, s) (j, s').
Proof.
  intros E. pose proof (upsert_steps w nodes b s) as Hs. rewrite E in Hs. by apply service_goes; [apply (upsertNodes_nodes _ _ _ _ _ _ E)|].
Qed.

(** Statistics and reports at the end of a goal *)
Ltac go :=
  repeat match goal with
  | |- goes_on _ (told _ _ _ _) => etransitivity; [|apply told_goes]
  | |- goes_on _ (updateJob _ _ _ _ _ _) => etransitivity; [|apply update_goes]
  | |- goes_on _ (put_stat _ _ _) => etransitivity; [|apply stat_goes]
  end; first [assumption | reflexivity].
#[local] Opaque told updateJob put_stat with_stat.

(** ** The stages that enrich *)

Definition stage_goes (f : stage) : Prop := ∀ st, goes_on st (f st).2.

Lemma doGeo_goes base e p0 p1 : stage_goes (doGeo base e p0 p1).
Proof.
  intros st. unfold doGeo. destruct (negb _); [reflexivity|].
  pose proof (told_goes p0 "geo annotating countries" (GeoEnv.First e) st) as Hk. destruct (told _ _ _ st) as [j s].
  destruct (AnnotateNodes _ _ _ _) as [[nodes ok] cache]. destruct (upsertNodes _ _ _ _) as [err s1] eqn:Eu.
  assert (goes_on st (j, s1)) as Hk1 by (etransitivity; [exact Hk|by eapply upsert_goes]).
  destruct err; cbn [snd]; go.
Qed.
Lemma host_goes answers m s j :
  goes_on (j, s) (j, s <| Service.Nodes := (SetHostAI answers m (Service.Nodes s)).2 |>).
Proof.
  apply service_goes; [by destruct s|]. unfold by_steps. destruct s as [n0 durable states pub db active max]. cbn.
  apply rtc_once, step_host_ai.
Qed.
Lemma doAI_goes e p0 p1 : stage_goes (doAI e p0 p1).
Proof.
  intros st. unfold doAI. pose proof (told_goes p0 "probing AI targets" (AIEnv.First e) st) as Hk.
  destruct (told _ _ _ st) as [j s]. cbv zeta. set (o := ai_options _). set (m := Some (ProbeHost _ _)).
  pose proof (host_goes (AIEnv.Save e) m s j) as Hh. destruct (SetHostAI _ _ _) as [err n1]. cbn [snd] in Hh.
  set (s1 := s <| Service.Nodes := n1 |>) in *. clearbody s1.
  assert (goes_on st (j, s1)) as Hk1 by (by etransitivity). destruct err; [exact Hk1|].
  destruct (upsertNodes _ _ _ s1) as [err s2] eqn:Eu.
  assert (goes_on st (j, s2)) as Hk2 by (etransitivity; [exact Hk1|by eapply upsert_goes]).
  destruct err; cbn [snd]; go.
Qed.
Lemma purity_stats_goes l st : goes_on st (purity_stats l st).
Proof. unfold purity_stats. destruct (Purity.Summary l) as [[[[ok f] cf] clean] avg]. go. Qed.
Lemma doPurity_goes base cfg e p0 p1 : stage_goes (doPurity object base cfg e p0 p1).
Proof.
  intros st. unfold doPurity. pose proof (told_goes p0 "purity probe starting" (PurityEnv.First e) st) as Hk.
  destruct (told _ _ _ st) as [j s]. destruct (purity_nodes _ _ _) as [|n l]; [exact Hk|]. cbv zeta.
  destruct (purity_new _ _); [|exact Hk]. set (msg := ("purity probing " +:+ _)%string). set (st1 := told _ msg _ _).
  assert (goes_on st st1) as Hk1 by (unfold st1; go). clearbody st1.
  destruct (upsertNodes _ _ _ _) as [err s2] eqn:Eu.
  assert (goes_on st (st1.1, s2)) as Hk2 by (etransitivity; [exact Hk1|destruct st1; by eapply upsert_goes]).
  destruct err; cbn [snd]; [exact Hk2|]. etransitivity; [|apply told_goes]. etransitivity; [exact Hk2|apply purity_stats_goes].
Qed.
Lemma prerender_goes cfg e st st' : prerender cfg e st = Ok st' → goes_on st st'.
Proof.
  unfold prerender. destruct (negb _); [by intros [= <-]|]. destruct (RefreshPublishCache _ _ _ _ _ _) as [[b c]|]; [|done].
  cbn [rbind]. intros [= <-]. do 3 (etransitivity; [|apply stat_goes]). destruct st as [j s]. apply service_goes; [by destruct s|]. apply same_store. by destruct s.
Qed.
Lemma doExport_goes cfg e st : goes_on st (doExport cfg e st).2.
Proof.
  unfold doExport. cbv zeta. destruct (Export e _ cfg) as [[paths files]|err]; [|destruct err; cbn [snd]; go].
  set (st1 := put_stat "export_files" _ _). assert (goes_on st st1) as Hk by (unfold st1; go). clearbody st1.
  destruct (prerender cfg e st1) as [st2|err] eqn:Ep; cbn [snd]; [|exact Hk].
  etransitivity; [exact Hk|]. etransitivity; [by eapply prerender_goes|].
  unfold export_ai. destruct (ai_friendly _); [reflexivity|]. destruct (ExportEnv.LastErr e); go.
Qed.

(** ** The stages of the other files *)

Lemma doFetch_steps base cfg e p0 p1 st : by_steps st.2 (doFetch base cfg e p0 p1 st).2.2.
Proof.
  unfold doFetch. pose proof (update_steps JobRunning p0 "fetching sources" (FetchEnv.First e).1 (FetchEnv.First e).2 st) as Hk.
  destruct (updateJob _ _ _ _ _ st) as [j s]. cbn [snd] in Hk. destruct (EnabledSources _ _ _) as [|src srcs]; [exact Hk|].
  cbv zeta. destruct (FetchEnv.Ended e); [exact Hk|]. set (docs := FetchAll _ _ _ _).
  set (s1 := s <| Service.States := _ |>). assert (by_steps st.2 s1) as Hk1.
  { etransitivity; [exact Hk|]. apply same_store. by destruct s. }
  clearbody s1. destruct (List.filter doc_ok docs) as [|d ok]; [exact Hk1|]. destruct (cleaned _ _) as [|u l]; [exact Hk1|].
  pose proof (replace_steps (FetchEnv.Write e) (u :: l) s1) as Hr. destruct (replaceNodes _ _ _) as [err s2]. cbn [snd] in Hr.
  assert (by_steps st.2 s2) as Hk2 by (by etransitivity). destruct err; [exact Hk2|]. cbn [snd].
  etransitivity; [|apply update_steps]. do 5 (etransitivity; [|apply stat_steps]). cbn [snd].
  etransitivity; [exact Hk2|]. apply same_store. by destruct s2.
Qed.
Lemma round_steps cfg engines e p0 p1 r rounds total batch t st :
  by_steps st.2 (one_round cfg engines e p0 p1 r rounds total batch t st).2.2.
Proof.
  unfold one_round. cbv zeta. destruct (RoundEnv.Before e); [apply stat_steps|].
  set (msg := round_message _ _ _ _ _). set (p := progress_at _ _ _ _).
  pose proof (update_steps JobRunning p msg (RoundEnv.Clock e 0%nat) (RoundEnv.Clock e 1%nat) st) as Hk.
  destruct (updateJob _ _ _ _ _ st) as [j s]. cbn [snd] in Hk. clearbody msg p.
  destruct (RoundEnv.Broken e); [exact Hk|]. set (nodes := dial_round _ _ _). clearbody nodes.
  pose proof (upsert_steps (RoundEnv.Write e) nodes true s) as Hu. destruct (upsertNodes _ _ _ _) as [err s1]. cbn [snd] in Hu.
  assert (by_steps st.2 s1) as Hk1 by (by etransitivity). destruct err; [exact Hk1|].
  set (st1 := num_stat "verified_total" _ _). assert (by_steps st.2 st1.2) as Hk2.
  { unfold st1, num_stat. do 4 (etransitivity; [|apply stat_steps]). exact Hk1. }
  clearbody st1. destruct (republish cfg e st1.2) as [s2|] eqn:Er; [|exact Hk2].
  apply republish_nodes in Er as [_ Er]. cbn [snd]. etransitivity; [|apply update_steps]. cbn [snd].
  etransitivity; [exact Hk2|by apply same_store].
Qed.
Lemma rounds_steps cfg engines e p0 p1 rounds total todo r t st :
  by_steps st.2 (dial_rounds cfg engines e p0 p1 r rounds total todo t st).2.2.
Proof.
  revert r t st. induction todo as [|batch todo IH]; intros r t st; cbn [dial_rounds]; [reflexivity|].
  pose proof (round_steps cfg engines (e r) p0 p1 (Z.of_nat r + 1) rounds total batch t st) as Hk.
  destruct (one_round _ _ _ _ _ _ _ _ _ _ _) as [[[] t1] st1]; [|exact Hk..]. etransitivity; [exact Hk|apply IH].
Qed.
Lemma doDial_steps cfg e p0 p1 st : by_steps st.2 (doDial cfg e p0 p1 st).2.2.
Proof.
  unfold doDial. destruct (negb _); [reflexivity|]. cbv zeta.
  set (st1 := updateJob JobRunning p0 _ _ _ st). assert (by_steps st.2 st1.2) as Hk by apply update_steps. clearbody st1.
  destruct (candidates_of _ _ _ _ _) as [|n l].
  { destruct (_ && _); [|exact Hk]. cbn [snd]. etransitivity; [|apply update_steps]. etransitivity; [exact Hk|apply stat_steps]. }
  set (st2 := num_stat "dial_planned" _ _). assert (by_steps st.2 st2.2) as Hk2.
  { unfold st2, num_stat. do 3 (etransitivity; [|apply stat_steps]). exact Hk. }
  clearbody st2. destruct (resolve_engines _) as [engines|]; [|exact Hk2].
  set (msg := ("dial " +:+ _)%string). set (st3 := updateJob JobRunning _ msg _ _ _). assert (by_steps st.2 st3.2) as Hk3.
  { unfold st3. etransitivity; [|apply update_steps]. unfold num_stat. do 4 (etransitivity; [|apply stat_steps]). exact Hk2. }
  clearbody st3. set (tally := Tally.mk _ _ _ _ _). set (todo := batches _ _).
  pose proof (rounds_steps cfg engines (DialEnv.Round e) p0 p1 (Z.of_nat (length todo)) (Z.of_nat (length (n :: l))) todo 0%nat tally st3) as Hr.
  destruct (dial_rounds _ _ _ _ _ _ _ _ _ _ _) as [[res t] st4]. cbn [snd] in Hr.
  assert (by_steps st.2 st4.2) as Hk4 by (by etransitivity). destruct res; [|exact Hk4..]. cbn [snd].
  etransitivity; [|apply update_steps]. unfold num_stat. do 5 (etransitivity; [|apply stat_steps]). exact Hk4.
Qed.

Lemma measure_steps cfg e opts plan s : by_steps s (measure cfg e opts plan s).2.
Proof.
  unfold measure. destruct (QualityEnv.Ended e); [reflexivity|]. destruct (schedule_all _ _ _ _) as [out|]; [|reflexivity].
  pose proof (upsert_steps (QualityEnv.Write e) out true s) as Hu. destruct (upsertNodes _ _ _ _) as [err s1]. cbn [snd] in Hu.
  destruct err; [exact Hu|]. cbn [snd]. etransitivity; [exact Hu|]. apply same_store. by destruct s1.
Qed.
Lemma prune_steps cfg w s : by_steps s (prune cfg w s).2.
Proof.
  unfold prune, by_steps. destruct (negb _); [apply rtc_refl|].
  pose proof (NodeStore.step_prune _ (Writing.Answers w) (prune_options cfg) (Service.Nodes s)) as Hs.
  destruct (Prune _ _ _) as [[n err] st]. cbn [snd] in Hs. destruct s as [nodes durable states pub db active max]. cbn in *.
  destruct err; [by apply rtc_once|]. destruct durable; [|by apply rtc_once]. cbn. destruct (NodesDB.ReplaceNodes _ _ _); by apply rtc_once.
Qed.
Lemma optional_steps on key f st : (∀ st, by_steps st.2 (f st).2.2) → by_steps st.2 (optional on key f st).2.2.
Proof.
  intros Hf. unfold optional. destruct on; [|reflexivity]. pose proof (Hf st) as Hk.
  destruct (f st) as [[] st1]; cbn [snd] in *; [exact Hk| |exact Hk]. etransitivity; [exact Hk|apply stat_steps].
Qed.
Lemma finish_steps cfg post clock alerted p1 nodes n st : by_steps st.2 (finish cfg post clock alerted p1 nodes n st).2.
Proof.
  unfold finish. cbv zeta. etransitivity; [|apply update_steps]. set (x := with_stat "by_country_hq" _ _).
  assert (by_steps st.2 x.2) as Hx by (unfold x; do 6 (etransitivity; [|apply stat_steps]); reflexivity).
  etransitivity; [exact Hx|]. clearbody x. apply same_store. unfold detectQualityAnomalies. by destruct x as [j []].
Qed.
Lemma doQuality_steps cfg post e geo dial p0 p1 st :
  (∀ p q st, by_steps st.2 (geo p q st).2.2) → (∀ p q st, by_steps st.2 (dial p q st).2.2) →
  by_steps st.2 (doQuality cfg post e geo dial p0 p1 st).2.2.
Proof.
  intros Hg Hd. unfold doQuality. destruct (AllNodes _) as [|n l]; [reflexivity|].
  destruct (planned _ _ _) as [|m plan]; [cbn [snd]; etransitivity; [apply stat_steps|apply update_steps]|].
  set (msg := ("quality testing " +:+ _)%string).
  pose proof (update_steps JobRunning p0 msg (QualityEnv.Clock e 2%nat) (QualityEnv.Clock e 3%nat) st) as Hk.
  destruct (updateJob JobRunning p0 msg _ _ st) as [j s]. cbn [snd] in Hk.
  pose proof (measure_steps cfg e (default ∅ (Job.Options st.1)) (m :: plan) s) as Hm.
  destruct (measure _ _ _ _ _) as [[r nodes] s1]. cbn [snd] in Hm.
  assert (by_steps st.2 s1) as Hk1 by (by etransitivity). destruct r; [|exact Hk1..].
  pose proof (prune_steps cfg (QualityEnv.Pruning e) s1) as Hp. destruct (prune _ _ _) as [[err k] s2]. cbn [snd] in Hp.
  assert (by_steps st.2 s2) as Hk2 by (by etransitivity). destruct err; [exact Hk2|]. cbv zeta.
  set (annotate := optional _ _ _). assert (by_steps s2 (annotate (j, s2)).2.2) as Ha by (apply (optional_steps _ _ _ (j, s2)); apply Hg).
  destruct (annotate (j, s2)) as [r st1]. cbn [snd] in Ha. assert (by_steps st.2 st1.2) as Hk3 by (by etransitivity).
  destruct r; [|exact Hk3..]. set (redial := optional _ _ _). assert (by_steps st1.2 (redial st1).2.2) as Hr.
  { apply optional_steps. intros st'. unfold dial_after. apply (Hd _ _ (_, st'.2)). }
  destruct (redial st1) as [r st2]. cbn [snd] in Hr. assert (by_steps st.2 st2.2) as Hk4 by (by etransitivity).
  destruct r; [|exact Hk4..]. cbn [snd]. etransitivity; [exact Hk4|apply finish_steps].
Qed.

(** ** All stages, and the jobs made of them *)

Lemma program_stages_ok post w : stages_ok (program_stages post w).
Proof.
  split; simpl.
  - intros p q. apply doFetch_ok.
  - intros p q. apply doQuality_ok; intros ?? st; [apply doGeo_goes|apply doDial_ok].
  - intros p q st. apply doAI_goes.
  - intros p q st. apply doGeo_goes.
  - intros p q st. apply doPurity_goes.
  - intros p q. apply doDial_ok.
  - intros st. apply doExport_goes.
Qed.

Section jobs.
Context (cfg : config) (post : Alert.t → option error) (w : World.t).
Let stages := program_stages post w.

Lemma quality_steps p q st : by_steps st.2 (Stages.doQuality stages p q st).2.2.
Proof. apply doQuality_steps; intros; [apply doGeo_goes|apply doDial_steps]. Qed.
Lemma complete_steps msg clock st : by_steps st.2 (complete msg clock st).2.
Proof.
  unfold complete. set (j := st.1 <| Job.EndedAt := _ |>). pose proof (update_steps JobCompleted (f_of_Z 100) msg (clock 1%nat) (clock 2%nat) (j, st.2)) as Hk.
  destruct (updateJob _ _ _ _ _ _) as [j' s']. etransitivity; [exact Hk|]. apply same_store. by destruct s'.
Qed.
Lemma fail_steps e clock st : by_steps st.2 (fail cfg post e clock st).2.
Proof.
  unfold fail. set (j := st.1 <| Job.EndedAt := _ |> <| Job.Error := _ |>). set (status := if bool_decide _ then _ else _).
  pose proof (update_steps status (Job.Progress j) (err_text e) (clock 1%nat) (clock 2%nat) (j, st.2)) as Hk.
  destruct (updateJob _ _ _ _ _ _) as [j' s']. etransitivity; [exact Hk|]. apply same_store. cbn [snd]. case_match; by destruct s'.
Qed.
Definition run_steps (fn : run) : Prop := ∀ clock st, by_steps st.2 (fn clock st).2.2.
Lemma export_steps msg : run_steps (export_and_complete stages msg).
Proof.
  intros clock st. unfold export_and_complete. destruct (doExport_goes (World.Exported w).1 (World.Exported w).2 st) as [_ Hk].
  change (Stages.doExport stages st) with (doExport (World.Exported w).1 (World.Exported w).2 st).
  destruct (doExport _ _ st) as [[v|] st1]; [exact Hk|]. cbn [snd] in *. etransitivity; [exact Hk|apply complete_steps].
Qed.
Lemma try_steps f rest : (∀ st, by_steps st.2 (f st).2.2) → run_steps rest → run_steps (try cfg post f rest).
Proof.
  intros Hf Hr clock st. unfold try. pose proof (Hf st) as Hk. destruct (f st) as [[] st1]; cbn [snd] in *; [|  |exact Hk].
  - etransitivity; [exact Hk|apply Hr].
  - etransitivity; [exact Hk|apply fail_steps].
Qed.
Lemma full_steps : run_steps (runFull cfg post stages).
Proof.
  unfold runFull. apply try_steps; [intros; apply doFetch_steps|]. apply try_steps; [intros; apply quality_steps|].
  intros clock st. case_match.
  - etransitivity; [|apply export_steps]. etransitivity; [|apply update_steps]. apply stat_steps.
  - destruct (doAI_goes (World.Asked w) (f_of_Z 75) (f_of_Z 95) st) as [_ Hk].
    change (Stages.doAI stages (f_of_Z 75) (f_of_Z 95) st) with (doAI (World.Asked w) (f_of_Z 75) (f_of_Z 95) st).
    destruct (doAI _ _ _ st) as [[] st1]; cbn [snd] in *; [| |exact Hk]; etransitivity; try exact Hk; [apply export_steps|].
    etransitivity; [|apply export_steps]. apply stat_steps.
Qed.
Lemma runner_steps typ fn : runnerFor cfg post stages typ = Ok fn → run_steps fn.
Proof.
  unfold runnerFor, runFetch, runQuality, runAI, runGeo, runDial, runPurity. repeat case_match; intros [= <-]; try apply full_steps;
    (apply try_steps; [intros st|apply export_steps]).
  - apply doFetch_steps.
  - apply quality_steps.
  - apply doAI_goes.
  - apply doGeo_goes.
  - apply doDial_steps.
  - apply doPurity_goes.
Qed.
Lemma create_steps t id typ opts s st : create_job t id typ opts s = Ok st → by_steps s st.2.
Proof.
  unfold create_job, take_place. destruct (_ <=? _); [done|]. cbn [rbind]. intros [= <-]. unfold persist_new, newJob.
  unfold by_steps. cbn [fst snd]. apply rtc_once.
  match goal with |- context [NodeStore.SaveJob ?j _] => pose proof (step_job j (Service.Nodes s)) as Hs end.
  destruct s as [nodes durable states pub db active max]. cbn in *. by destruct db.
Qed.
Lemma task_steps t task s : by_steps s (RunQueuedTask cfg post stages t task s).2.
Proof.
  unfold RunQueuedTask. destruct (runnerFor _ _ _ _) as [fn|] eqn:Er; [|reflexivity].
  unfold startNow. destruct (create_job _ _ _ _ _) as [st|] eqn:Ec; [|reflexivity]. cbn [rbind].
  apply create_steps in Ec. apply runner_steps in Er. unfold run_job. set (j := st.1 <| Job.StartedAt := _ |>).
  pose proof (update_steps JobRunning (f_of_Z 1) "starting" (started t 1%nat) (started t 2%nat) (j, st.2)) as Hk.
  set (st1 := updateJob _ _ _ _ _ _) in *. clearbody st1. pose proof (Er (ending t) st1) as Hf.
  destruct (fn (ending t) st1) as [[v|] st2]; cbn [snd] in *.
  - pose proof (fail_steps (ErrMsg ("job panic: " +:+ v)) (recovery t) st2) as Hl. destruct (fail _ _ _ _ _) as [j' s']. cbn [snd] in *.
    etransitivity; [exact Ec|]. etransitivity; [exact Hk|]. etransitivity; [exact Hf|]. etransitivity; [exact Hl|].
    apply same_store. by destruct s'.
  - destruct st2 as [j' s']. etransitivity; [exact Ec|]. etransitivity; [exact Hk|]. etransitivity; [exact Hf|].
    apply same_store. by destruct s'.
Qed.
End jobs.

End program.
