(* ===== verification/JobExamples.v ===== *)
(** * Jobs at work

    A fetch with one source that answers and one that fails, a quality run, a
    dial job, and a queued fetch from its task to the answer of the queue. *)
From S2P Require Import Prelude Sql GoStr GoFloat GoTime Model Tasks TaskQueue Base64 Ratelimit NetAddr.
From S2P Require Import Config Alerts Jobs Filter Scoring Cleaner NodeStore NodesDB NetUrl Links Clash Content Exporter Publish.
From S2P Require Import Outbound Dial DialJob DialVerdict Fetch Sources Select Worker.
From S2P Require Import Runner RunnerProofs Harvest QualityJob DialStage Geo AIAccess Enrich Program.
From S2P Require Purity.
From S2P Require Import TaskExamples AccountExamples NodeExamples LinkExamples ServiceExamples.

#[local] Existing Instances no_tzdata no_tzdata_cst ascii_only checksums log2_grid in_order empty_snapshot strict_only.
#[local] Existing Instances any_document no_json sorted_range one_policy engine_policy no_text plain_quotes fixed_days.

(** Every node has the same text, and no options have one. *)
#[local] Instance one_text : NodeCodec := {| marshal_node _ := Some "{}"; unmarshal_node _ := None |}.
#[local] Instance no_options : JobOptionsCodec := {| job_options_marshal _ := None; job_options_unmarshal _ := None |}.

Definition no_post : Alert.t → option error := λ _, None.
Definition at_once (i : nat) : Time := t0 + 3 * Hour.
Definition writing : Writing.t := Writing.mk no_io (t0 + 3 * Hour) (t0 + 3 * Hour) (t0 + 3 * Hour).

(** ** A fetch *)

(** "main" gives one node; "other" fails, and its stored node is kept. *)
Definition other_feed : Source.t := Source.mk "other" "subscription" "https://other.example.org/sub" true 5 1048576 "".
Definition two_sources : config := Default <| Config.Sources := [main_feed; other_feed] |>.
Definition network (src : Source.t) (attempt : Z) : Attempt.t :=
  if (Source.Name src =? "main")%string
  then Attempt.mk (Received 200 (slen sample_link) sample_link None) Second None
  else Attempt.mk (Received 404 0 "" None) Second None.
Definition fetch_env : FetchEnv.t :=
  FetchEnv.mk network 2 (λ l, l) None (t0 + 2 * Hour) (t0 + 2 * Hour) (λ _, (t0 + 2 * Hour, t0 + 2 * Hour)) writing
    (t0 + 2 * Hour, t0 + 2 * Hour) (t0 + 3 * Hour, t0 + 3 * Hour).
Definition memory : store := (NodeStore.ReplaceNodes no_io t0 [Some tokyo; Some paris] NewMemory).2.
Definition a_history : History.t := History.mk ∅ (Events.mk 1 []) (AuditLog.mk 1 []) [] ∅ ∅.
Definition service : Service.t :=
  Service.mk memory (Some ∅) (load_sources two_sources (Some ∅)) empty_cache (Some a_history) ∅ 1.
Definition a_job : Job.t := fresh_job "j1" "fetch" ∅ t0.
Definition harvest : ran * state := doFetch two_sources two_sources fetch_env f_zero (f_of_Z 90) (a_job, service).
Lemma harvest_eq : doFetch two_sources two_sources fetch_env f_zero (f_of_Z 90) (a_job, service) = (harvest.1, harvest.2).
Proof. unfold harvest. by destruct (doFetch _ _ _ _ _ _). Qed.
Example harvest_names :
  harvest.1 = Done ∧ (Node.Name <$> AllNodes (Service.Nodes harvest.2.2)) = ["Paris"; "Old name"].
Proof. by vm_compute. Qed.

Definition paris_id : string := nodeID paris.
Definition last_paris : node := default Node.zero (Store.nodes memory !! paris_id).

(** ** A quality run *)

(** One of the two nodes answers. *)
Definition probes (i : nat) : option (Time * Probe.t) :=
  Some (t0 + 3 * Hour, Probe.mk (if (i =? 0)%nat then [80 * Millisecond] else []) (true, 40) 0).
Definition quality_env : QualityEnv.t :=
  QualityEnv.mk (t0 + 3 * Hour) probes None (t0 + 3 * Hour) (λ i, t0 + 4 * Hour) writing writing at_once at_once.
Definition all_nodes : list node := AllNodes (Service.Nodes service).
Definition quality_plan : list node := planned (max_test two_sources ∅) (QualityEnv.Now quality_env) all_nodes.
Definition measurement : ran * list node * Service.t := measure two_sources quality_env ∅ quality_plan service.
Lemma memory_ok : store_ok memory.
Proof.
  split; [apply (bool_decide_unpack _); by vm_compute|]. split; simpl.
  - constructor.
  - intros id. simpl. split; [intros Hid; by apply not_elem_of_nil in Hid|by intros []].
  - by intros k j Hk.
Qed.
#[local] Instance scored_dec n : Decision (scored n).
Proof. unfold scored. apply _. Defined.
#[local] Instance counter_dec n : Decision (counter_ok n).
Proof. unfold counter_ok. apply _. Defined.
Lemma memory_counters : map_Forall (λ _ n, scored n ∧ counter_ok n) (Store.nodes memory).
Proof. apply (bool_decide_unpack _). by vm_compute. Qed.

(** Tokyo is due again in six hours, Paris after one. *)
Lemma quality_schedule_witness :
  length quality_plan = 2%nat ∧
  ∃ nodes s', measure two_sources quality_env ∅ quality_plan service = (Done, nodes, s') ∧
    ∃ m, Store.nodes (Service.Nodes s') !! nodeID paris = Some m ∧ Node.Alive m = false ∧ Node.NextTestAt m = t0 + 5 * Hour.
Proof.
  destruct (quality_schedule two_sources quality_env ∅ service memory_ok memory_counters) as (_ & Hlen & r & nodes & s' & Hm & _ & _ & Hdone).
  change (planned _ _ _) with quality_plan in *. split; [rewrite Hlen; by vm_compute|].
  assert (Hr : r = Done).
  { assert (measurement.1.1 = Done) as Hd by (vm_compute; reflexivity). unfold measurement in Hd. rewrite Hm in Hd. exact Hd. }
  subst r. exists nodes, s'. split; [exact Hm|].
  destruct (Hdone eq_refl) as [Hall _].
  assert (∃ i n, quality_plan !! i = Some n ∧ Node.ID n = nodeID paris ∧ answered (QualityEnv.Probe quality_env i) = false ∧
    Node.QualityFailures n = 0) as (i & n & Hi & Hid & Ha & Hq).
  { exists 1%nat, (default Node.zero (quality_plan !! 1%nat)). split_and!; by vm_compute. }
  destruct (Hall i n Hi) as (o & m & _ & -> & Hm' & _ & [Hal Hmark] & _). rewrite Hid in Hm'. exists m. split; [exact Hm'|].
  rewrite Hal, Ha in *. split; [done|]. destruct Hmark as (_ & _ & ->). destruct o. cbn in Hq. rewrite Hq. by vm_compute.
Defined.

(** ** A dial job *)

#[local] Instance installed : Programs := {| path_exists _ := false; look_path p := Some p |}.
Definition one_reply : RoundEnv.t :=
  RoundEnv.mk None None [[lost]; [reply_of 200]] writing (t0 + 3 * Hour) NoRedis at_once 8 at_once.
Definition dial_env : DialEnv.t := DialEnv.mk (t0 + 3 * Hour) (t0 + 3 * Hour) (λ _, one_reply) (t0 + 3 * Hour) at_once.
Definition dialled : ran * state := doDial dialling dial_env f_zero (f_of_Z 95) (a_job, service).
Lemma dialled_eq : doDial dialling dial_env f_zero (f_of_Z 95) (a_job, service) = (dialled.1, dialled.2).
Proof. unfold dialled. by destruct (doDial _ _ _ _ _). Qed.
Lemma dial_job_witness :
  dialled.1 = Done ∧ job_list dialling dial_env (a_job, service) ≠ [] ∧
  ∃ x, Store.nodes (Service.Nodes dialled.2.2) !! nodeID tokyo = Some x ∧ Node.Verified x = true.
Proof.
  destruct (dial_job dialling dial_env f_zero (f_of_Z 95) (a_job, service) dialled.1 dialled.2 dialled_eq memory_ok)
    as (_ & _ & k & engines & Hk & Heng & _ & Hall).
  { apply (bool_decide_unpack _); by vm_compute. }
  { intros [|k] batch Hb; [|exfalso; by vm_compute in Hb]. vm_compute in Hb. injection Hb as <-. split; [by vm_compute|].
    by repeat constructor. }
  assert (dialled.1 = Done) as Hd by (vm_compute; reflexivity). split; [exact Hd|]. split; [intros E; by vm_compute in E|].
  specialize (Hk Hd). assert (k = 1%nat) as -> by (rewrite Hk; by vm_compute).
  assert (resolve_engines (configuredDialEngines dialling) = Ok [("sing-box", "sing-box"); ("mihomo", "mihomo")]) as He by (vm_compute; reflexivity).
  rewrite (Heng ltac:(done)) in He. injection He as ->.
  assert (∃ batch n, job_batches dialling dial_env (a_job, service) !! 0%nat = Some batch ∧ batch !! 0%nat = Some n ∧
    nodeID n = nodeID tokyo ∧ reached "mihomo" (reply_of 200) n) as (batch & n & Hb & Hn & Hid & Hreach).
  { exists (default [] (job_batches dialling dial_env (a_job, service) !! 0%nat)).
    exists (default Node.zero (default [] (job_batches dialling dial_env (a_job, service) !! 0%nat) !! 0%nat)).
    split; [by vm_compute|]. split; [by vm_compute|]. split; [by vm_compute|].
    split; [by vm_compute|]. split; [done|]. split; [by vm_compute|]. split; [done|]. do 5 eexists. split; [reflexivity|lia]. }
  destruct (Hall 0%nat batch 0%nat n ltac:(lia) Hb Hn) as (e & a & x & Hl & Ha & Hx & Hv). rewrite Hid in Hx.
  exists x. split; [exact Hx|]. injection Hl as <-. injection Ha as <-. by apply Hv.
Defined.

(** ** From a task to the answer of the queue *)

Definition disabled (p q : float64) : stage := λ st, (Failed (ErrMsg "not enabled"), st).
Definition some_stages : Stages.t :=
  Stages.mk (doFetch two_sources two_sources fetch_env)
    (doQuality two_sources no_post quality_env disabled (doDial dialling dial_env)) disabled disabled disabled
    (doDial dialling dial_env) (λ st, (None, st)).
Lemma some_stages_ok : stages_ok some_stages.
Proof.
  assert (∀ p q, stage_ok (disabled p q)) as Hd by (intros p q st; reflexivity).
  split; try done.
  - intros p q. apply doFetch_ok.
  - intros p q. apply doQuality_ok; [done|]. intros p' q'. apply doDial_ok.
  - intros p q. apply doDial_ok.
Qed.
Definition times : timing := Build_timing "new" (t0 + Hour) (t0 + Hour) at_once at_once at_once.
Definition task_of (typ : string) : QueuedTask.t :=
  QueuedTask.mk "j1" typ (∅ : gmap string json) 100 TaskRunning 1 3 "" "" "w1" "" "" "" "" "".
Definition ran_task (typ : string) : option Job.t * option error * Service.t :=
  RunQueuedTask two_sources no_post some_stages times (task_of typ) service.
Lemma ran_task_eq typ : is_Some (ran_task typ).1.1 →
  RunQueuedTask two_sources no_post some_stages times (task_of typ) service =
    (Some (default a_job (ran_task typ).1.1), (ran_task typ).1.2, (ran_task typ).2).
Proof. unfold ran_task. destruct (RunQueuedTask _ _ _ _ _ _) as [[[j|] err] s]; [done|by intros []]. Qed.

(** ** The program's own stages *)

#[local] Instance no_letters : Letters := λ _, false.
#[local] Instance in_turn : TableRange := {| range_table l := l; range_table_perm l := Permutation_refl l |}.
#[local] Instance no_geodata : GeoData := {| country_db := None; asn_db := None; lookup_ip _ := [] |}.
#[local] Instance no_list : ExportJson := λ _, Ok "[]".

Definition no_json_object (s : string) : option (gmap string json) := None.
Definition later : Time * Time := (t0 + 3 * Hour, t0 + 3 * Hour).
Definition geo_env : GeoEnv.t := GeoEnv.mk true ∅ (λ _, false) writing later later.
Definition ai_env : AIEnv.t :=
  AIEnv.mk "" false (λ _, Reply.Got 20 200) (λ _, Some (λ _, Reply.Got 20 403)) no_io writing later later.
Definition purity_env : PurityEnv.t := PurityEnv.mk (t0 + 3 * Hour) None [] writing later later later.
Definition export_env : ExportEnv.t := ExportEnv.mk None (λ _, None) None (t0 + 3 * Hour) at_once NoRedis at_once 8.
Definition a_world : World.t :=
  World.mk two_sources (two_sources, fetch_env) (two_sources, quality_env) geo_env (dialling, dial_env) ai_env geo_env
    (two_sources, purity_env) (dialling, dial_env) (two_sources, export_env).
Definition own_stages : Stages.t := program_stages no_json_object no_post a_world.
Definition own_task (typ : string) : option Job.t * option error * Service.t :=
  RunQueuedTask two_sources no_post own_stages times (task_of typ) service.
Lemma own_task_eq typ : is_Some (own_task typ).1.1 →
  RunQueuedTask two_sources no_post own_stages times (task_of typ) service =
    (Some (default a_job (own_task typ).1.1), (own_task typ).1.2, (own_task typ).2).
Proof. unfold own_task. destruct (RunQueuedTask _ _ _ _ _ _) as [[[j|] err] s]; [done|by intros []]. Qed.



(** An AI job that reaches every service adds fifteen points. *)
Example ai_job : (own_task "ai").1.2 = None ∧
  Node.Tags <$> AllNodes (Service.Nodes (own_task "ai").2) = [["ai-friendly"]; []].
Proof. by vm_compute. Qed.
(** The name of one country has two codes: the order of a range decides. *)
Example united_kingdom : GeoResult.CountryCode (FromName "United Kingdom 01") = "GB" ∧
  GeoResult.CountryCode (@FromName _ _ {| range_table l := rev l; range_table_perm l := Permutation_sym (Permutation_rev l) |}
    "United Kingdom 01") = "UK".
Proof. by vm_compute. Qed.
