(* ===== verification/Web.v ===== *)
(** * Requests, replies and who may make them: [internal/api/server.go]

    The HTTP server as functions from a request and the state of the program
    to a reply and a state.  A handler is a computation ([http]) that reads and
    changes the state and the headers of its reply, and may end early with a
    reply, as [http.Error; return] does.  This file has the computations, the
    parts of the middleware and the tests of the roles; [clock] gives the
    readings of the clock, [sent] how much of a body the client takes. *)
From S2P Require Import Prelude Sql GoStr GoFloat GoTime Model Base64 Tasks Tokens Users Jobs Alerts Auth.
From S2P Require Import NetAddr Ratelimit Config NetUrl Links Clash NodeStore NodesDB Pools Publish Sources Fetch Runner.

(** ** Requests *)

(** [http.Request], the parts that the handlers read.  The names of the
    headers are in their canonical form, [Body] is the body if there is one,
    and [PathValue] has what the router matched. *)
Module Request.
Record t := mk {
  Method : string;
  Path : string;
  RawQuery : string;
  Host : string;
  TLS : bool;
  RemoteAddr : string;
  Header : gmap string string;
  Cookies : list (string * string);
  PathValue : gmap string string;
  Body : option string;
  RequestID : string;
}.
#[export] Instance eta : Eta t := λ r, mk (Method r) (Path r) (RawQuery r) (Host r) (TLS r) (RemoteAddr r)
  (Header r) (Cookies r) (PathValue r) (Body r) (RequestID r).
End Request.
Export (hints) Request.
Abbreviation request := Request.t.

Definition header (r : request) (k : string) : string := default "" (Request.Header r !! k).
Definition path_value (r : request) (k : string) : string := default "" (Request.PathValue r !! k).
(** [r.URL.Query().Get(k)] *)
Definition query (r : request) (k : string) : string := NetUrl.Get (ParseQuery (Request.RawQuery r)).1 k.
(** [r.Cookie(name)] *)
Definition cookie (r : request) (name : string) : option string :=
  snd <$> List.find (λ kv, (kv.1 =? name)%string) (Request.Cookies r).

(** ** Replies *)

(** What [writeJSON] is given: the maps and the structs of the program *)
Inductive value :=
  | VBool (b : bool)
  | VInt (z : Z)
  | VFloat (x : float64)
  | VStr (s : string)
  | VList (l : list value)
  | VMap (m : list (string * value))
  | VNode (n : node)
  | VJob (j : Job.t)
  | VEvent (e : JobEvent.t)
  | VToken (t : Token.t)
  | VUser (u : User.t)
  | VAlert (a : Alert.t)
  | VAudit (a : AuditRow.t)
  | VVersion (v : ConfigVersion.t)
  | VSource (st : SourceState.t)
  | VStats (d : DashboardStats.t)
  | VMetric (m : DailyMetric.t)
  | VPrincipal (p : Principal.t).
Inductive payload := Nothing | Text (s : string) | Json (v : value).

(** [http.Cookie], the fields that the program sets; all of them are sent with
    the path / and the attributes HttpOnly and SameSite=Lax. *)
Module Cookie.
Record t := mk { Name : string; Value : string; Domain : string; Secure : bool; MaxAge : Z }.
End Cookie.

Module Response.
Record t := mk { Status : Z; Header : gmap string string; Cookies : list Cookie.t; Body : payload }.
End Response.
Abbreviation response := Response.t.

(** [http.ResponseWriter] before anything is written *)
Module Writer.
Record t := mk { Header : gmap string string; Cookies : list Cookie.t }.
#[export] Instance eta : Eta t := λ w, mk (Header w) (Cookies w).
End Writer.
Export (hints) Writer.

(** ** The state *)

(** The tables of the accounts, which are there when a database is *)
Module Accounts.
Record t := mk { Tokens : token_table; Usage : usage_table; Users : user_table; Versions : version_table }.
#[export] Instance eta : Eta t := λ a, mk (Tokens a) (Usage a) (Users a) (Versions a).
End Accounts.
Export (hints) Accounts.

(** [Server]: the service and its database, the two limiters, and the counters
    of the subscriptions by format, status and token *)
Module Api.
Record t := mk {
  Cfg : config;
  Svc : Service.t;
  Acc : Accounts.t;
  SubRL : TokenBucket.t;
  LoginRL : TokenBucket.t;
  SubReqs : gmap (string * Z * string) Z;
}.
#[export] Instance eta : Eta t := λ a, mk (Cfg a) (Svc a) (Acc a) (SubRL a) (LoginRL a) (SubReqs a).
End Api.
Export (hints) Api.
Abbreviation api := Api.t.

(** [s.svc.DB()] *)
Definition DB (s : api) : option History.t := Service.Db (Api.Svc s).
Definition set_DB (h : History.t) (s : api) : api := s <| Api.Svc := (Api.Svc s) <| Service.Db := Some h |> |>.
(** The database of [auth.Manager] *)
Definition auth_db (s : api) : option AuthDB.t :=
  (λ h, AuthDB.mk (Accounts.Tokens (Api.Acc s)) (Accounts.Users (Api.Acc s)) (History.audit h)) <$> DB s.
Definition set_auth (d : AuthDB.t) (s : api) : api :=
  match DB s with
  | None => s
  | Some h =>
      set_DB (h <| History.audit := AuthDB.audit d |>)
        (s <| Api.Acc := (Api.Acc s) <| Accounts.Tokens := AuthDB.tokens d |> <| Accounts.Users := AuthDB.users d |> |>)
  end.

(** ** Computations *)

(** The state and the reply so far *)
Definition hstate : Type := api * Writer.t.
Definition http (A : Type) : Type := hstate → (response + A) * hstate.
Definition hret {A} (a : A) : http A := λ st, (inr a, st).
Definition hbind {A B} (m : http A) (f : A → http B) : http B := λ st,
  match m st with
  | (inl resp, st) => (inl resp, st)
  | (inr a, st) => f a st
  end.
Notation "'let?' x := m 'in' k" := (hbind m (fun x => k))
  (at level 10, x pattern, m at level 100, k at level 200) : go_scope.

Definition state : http api := λ st, (inr st.1, st).
Definition change (f : api → api) : http unit := λ st, (inr tt, (f st.1, st.2)).
Definition SetHeader (k v : string) : http unit := λ st,
  (inr tt, (st.1, st.2 <| Writer.Header := <[k := v]> (Writer.Header st.2) |>)).
Definition SetCookie (c : Cookie.t) : http unit := λ st,
  (inr tt, (st.1, st.2 <| Writer.Cookies := (Writer.Cookies st.2 ++ [c])%list |>)).
(** The end of a reply; [http.Error], [http.NotFound] and [writeJSON] *)
Definition reply {A} (status : Z) (body : payload) : http A := λ st,
  (inl (Response.mk status (Writer.Header st.2) (Writer.Cookies st.2) body), st).
Definition newline : string := String (byte_of 10) "".
Definition Error {A} (msg : string) (code : Z) : http A :=
  let? _ := SetHeader "Content-Type" "text/plain; charset=utf-8" in
  let? _ := SetHeader "X-Content-Type-Options" "nosniff" in
  reply code (Text (msg +:+ newline)).
Definition NotFound {A} : http A := Error "404 page not found" 404.
Definition writeJSON (v : value) : http unit :=
  let? _ := SetHeader "Content-Type" "application/json; charset=utf-8" in reply 200 (Json v).

(** What a request meets: when it enters, the clock of its handler, the random
    bytes it draws, and what reaches the client of a body *)
Record env := { entered : Time; clock : nat → Time; random : nat → string; sent : string → Z }.

(** The counters of [internal/metrics] *)
Definition safeTokenLabel (v : string) : string :=
  let v := TrimSpace v in
  if (v =? "")%string then "anonymous" else if 8 <? slen v then slice_to v 8 else v.
Definition IncSubToken (format : string) (code : Z) (tokenID : string) (s : api) : api :=
  let k := (format, code, safeTokenLabel tokenID) in
  s <| Api.SubReqs := <[k := default 0 (Api.SubReqs s !! k) + 1]> (Api.SubReqs s) |>.
Definition IncSub (format : string) (code : Z) (s : api) : api := IncSubToken format code "anonymous" s.

Section web.
Context `{TzData} `{LenientParse} `{Unicode} `{Crypto} `{Bcrypt} `{ClaimsCodec} `{NetIP}.
Context (am : Manager.t) (e : env).

(** ** Principals *)

(** [RequestPrincipal] of the manager of the server *)
Definition request_principal (now : Time) (r : request) : result Principal.t :=
  RequestPrincipal am (cookie r (Manager.CookieName am)) now.
Definition authenticated (p : result Principal.t) : option Principal.t :=
  match p with Ok p => if Principal.Authenticated p then Some p else None | Err _ => None end.

(** [requireRole], [requireSystemAdmin], [hasRole], [adminOnly] *)
Definition requireRole (r : request) (required : Role) : http Principal.t :=
  match authenticated (request_principal (clock e 0%nat) r) with
  | None => Error "authentication required" 401
  | Some p => if Allows (Principal.Role p) required then hret p else Error "forbidden" 403
  end.
Definition requireSystemAdmin (r : request) : http Principal.t :=
  let? p := requireRole r RoleAdmin in
  if (Principal.TenantID p =? "default")%string then hret p
  else Error "system administration requires the default tenant" 403.
Definition hasRole (r : request) (required : Role) : bool :=
  match authenticated (request_principal (clock e 0%nat) r) with
  | Some p => Allows (Principal.Role p) required
  | None => false
  end.
Definition adminOnly (next : request → http unit) (r : request) : http unit :=
  let? _ := requireRole r RoleAdmin in next r.

(** ** The boundary of the management interface *)

(** [requestHost] *)
Definition requestHost (raw : string) : string :=
  let raw := TrimSpace raw in
  Trim (match SplitHostPort raw with Some host => host | None => raw end) "[]".

(** [allowedClientIP] *)
Definition allowedClientIP (raw : string) (cidrs : list string) : bool :=
  match ParseAddr (TrimSpace raw) with
  | None => false
  | Some ip => trustedProxy ip cidrs
  end.

(** [middleware.ClientIP] of a request *)
Definition client_ip (r : request) (trusted : list string) : string :=
  ClientIP (Request.RemoteAddr r) (header r "X-Forwarded-For") (header r "Cf-Connecting-Ip") (header r "X-Real-Ip") trusted.

(** [managementBoundary] *)
Definition publicAPI : list string :=
  ["/api/health"; "/api/ready"; "/api/version"; "/api/terms"; "/api/public/dashboard"; "/api/public/dashboard/events";
   "/api/v1/auth/login"; "/api/v1/auth/logout"; "/api/v1/auth/me"; "/api/v1/integrations/sub-store/session-check";
   "/api/v1/integrations/sub-store/publish-check"].
Definition subscription_path (cfg : config) (path : string) : bool :=
  let prefix := TrimRight (PublishConfig.PathPrefix (Config.Publish cfg)) "/" in
  HasPrefix path "/sub" || HasPrefix path "/api/sub"
  || (negb (prefix =? "")%string && ((path =? prefix)%string || HasPrefix path (prefix +:+ "/"))).
Definition management_path (cfg : config) (path : string) : bool :=
  negb (subscription_path cfg path) && negb (bool_decide (path ∈ publicAPI))
  && (HasPrefix path "/api/" || (path =? "/metrics")%string || HasPrefix path "/debug/").
Definition foreign_host (want got : string) : bool :=
  negb (want =? "")%string && negb (EqualFold got (requestHost want)).
Definition managementBoundary (cfg : config) (next : request → http unit) (r : request) : http unit :=
  let host := requestHost (Request.Host r) in
  let path := Request.Path r in
  let auth := Config.Auth cfg in
  if subscription_path cfg path && foreign_host (AuthConfig.PublicHost auth) host then NotFound
  else if management_path cfg path then
    if foreign_host (AuthConfig.AdminHost auth) host then NotFound
    else if (0 <? Z.of_nat (length (AuthConfig.AdminCIDRs auth)))
            && negb (allowedClientIP (client_ip r (ServerConfig.TrustedProxies (Config.Server cfg))) (AuthConfig.AdminCIDRs auth))
    then Error "management network denied" 403
    else match authenticated (request_principal (entered e) r) with
         | None => Error "authentication required" 401
         | Some _ => next r
         end
  else next r.

(** ** Origins *)

(** [sameOrigin] *)
Definition sameOrigin (origin host : string) : bool :=
  match ParseURL origin with
  | Some u => negb (URL.Host u =? "")%string && EqualFold (URL.Host u) host
  | None => false
  end.

(** [cors]: the first entry that allows the origin ends the loop *)
Definition admits_origin (origin candidate : string) : bool :=
  (candidate =? "*")%string || EqualFold (TrimSpace candidate) origin.
Definition SetHeaders (kvs : list (string * string)) : http unit :=
  foldr (λ kv rest, let? _ := SetHeader kv.1 kv.2 in rest) (hret tt) kvs.
Definition cors (allowedOrigins : list string) (next : request → http unit) (r : request) : http unit :=
  let? _ := SetHeaders [("X-Content-Type-Options", "nosniff"); ("Referrer-Policy", "no-referrer");
                        ("Content-Security-Policy", "default-src 'none'; frame-ancestors 'none'")] in
  let origin := header r "Origin" in
  let listed := existsb (admits_origin origin) allowedOrigins in
  let? _ := if listed && negb (origin =? "")%string
            then SetHeaders [("Access-Control-Allow-Origin", origin); ("Vary", "Origin")] else hret tt in
  if negb (origin =? "")%string && negb (sameOrigin origin (Request.Host r) || listed)
  then Error "origin not allowed" 403
  else
    let? _ := if negb (origin =? "")%string
              then SetHeaders [("Access-Control-Allow-Methods", "GET, POST, DELETE, OPTIONS");
                               ("Access-Control-Allow-Headers", "Content-Type, Authorization, X-Sub-Token");
                               ("Access-Control-Allow-Credentials", "true")]
              else hret tt in
    if (Request.Method r =? "OPTIONS")%string then reply 204 Nothing else next r.

(** [buildHandler] below the access log and the limiter of the whole server,
    which [Ratelimit.Middleware] describes *)
Definition guarded (cfg : config) (mux : request → http unit) : request → http unit :=
  cors (ServerConfig.AllowedOrigins (Config.Server cfg)) (managementBoundary cfg mux).

(** [trustedRequestID] of the access log *)
Definition id_byte (c : ascii) : bool := alnum c || one_of "-_" c.
Definition trustedRequestID (v : string) : string :=
  let v := TrimSpace v in
  if (v =? "")%string || (64 <? slen v) then ""
  else if forallb id_byte (explode v) then v else "".
End web.
