(* ===== verification/Serve.v ===== *)
(** * Serving subscriptions: [internal/api/server.go]

    What a subscriber may ask for and gets: the token of a request, the limits
    it is held to, the nodes it may see, and the handlers that send them, from
    the published cache or selected on the spot. *)
From S2P Require Import Prelude Sql GoStr GoFloat GoTime Model Base64 Tasks Tokens Users Jobs Alerts Auth.
From S2P Require Import NetAddr Ratelimit Config Filter NodeStore NodesDB Pools NetUrl Links Clash Exporter Publish DialJob Select.
From S2P Require Import Fetch Sources Runner Web.

(** The three formats of a subscription *)
Definition content_type (f : format) : string :=
  match f with FClash => "text/yaml; charset=utf-8" | _ => "text/plain; charset=utf-8" end.

Section serve.
Context `{TzData} `{LenientParse} `{Unicode} `{Crypto} `{Bcrypt} `{ClaimsCodec} `{NetIP}.
Context `{MapRange} `{CountRange} `{LinkJson} `{ClashCodec}.
Context (am : Manager.t) (e : env).

(** ** Countries and protocols *)

(** [countryCode] *)
Definition countryCode (raw : string) : string :=
  let code := ToUpper (TrimSpace raw) in if (code =? "UK")%string then "GB" else code.
(** The country and the protocol under which [filterTokenNodes] looks a node
    up *)
Definition node_country (n : node) : string :=
  let country := countryCode (Node.Country n) in if (country =? "")%string then "XX" else country.
Definition alias (protocol : string) : string := if (protocol =? "hy2")%string then "hysteria2" else protocol.
Definition node_protocol (n : node) : string := alias (ToLower (Node.Protocol n)).
Definition token_countries (p : Principal.t) : list string := countryCode <$> Principal.AllowCountries p.
Definition token_protocols (p : Principal.t) : list string :=
  (λ s, alias (ToLower (TrimSpace s))) <$> Principal.AllowProtocols p.
Definition allows (allowed : list string) (x : string) : bool :=
  bool_decide (allowed = []) || bool_decide (x ∈ allowed).
(** [filterTokenNodes] *)
Definition restricted (p : Principal.t) : bool :=
  negb (bool_decide (Principal.AllowCountries p = [] ∧ Principal.AllowProtocols p = [])).
Definition token_node (p : Principal.t) (n : node) : bool :=
  allows (token_countries p) (node_country n) && allows (token_protocols p) (node_protocol n).
Definition filterTokenNodes (nodes : list node) (p : Principal.t) : list node :=
  if restricted p then List.filter (token_node p) nodes else nodes.

(** [principalAllowsCountry] *)
Definition principalAllowsCountry (p : Principal.t) (country : string) : bool := allows (token_countries p) country.
(** [tokenMetricID] *)
Definition tokenMetricID (p : Principal.t) : string :=
  if negb (Principal.TokenID p =? "")%string then Principal.TokenID p
  else if negb (Principal.Kind p =? "")%string then Principal.Kind p else "anonymous".

(** ** The token of a request and its limits *)

(** [extractToken] *)
Definition extractToken (cfg : config) (r : request) : string :=
  let by_query := SecurityConfig.AllowQueryToken (Config.Security cfg) in
  let t := query r "token" in
  if by_query && negb (t =? "")%string then t
  else
    let h := header r "Authorization" in
    if HasPrefix (ToLower h) "bearer " then TrimSpace (slice_from h 7)
    else if HasPrefix (ToLower h) "token " then TrimSpace (slice_from h 6)
    else
      let t := header r "X-Sub-Token" in
      if negb (t =? "")%string then t else if by_query then query r "token" else "".

Definition sub_key (cfg : config) (r : request) : string :=
  let t := extractToken cfg r in
  client_ip r (ServerConfig.TrustedProxies (Config.Server cfg)) +:+ (if 8 <? slen t then "|" +:+ slice_to t 8 else "").
(** The two limits: of the client, and of the token *)
Definition limit_client (cfg : config) (r : request) : http unit :=
  let? s := state in
  let '(ok, rl) := Allow (Api.SubRL s) (sub_key cfg r) (clock e 1%nat) in
  let? _ := change (λ s, s <| Api.SubRL := rl |>) in
  if ok then hret tt else Error "rate limit exceeded" 429.
Definition limit_token (p : Principal.t) : http unit :=
  if f_lt f_zero (Principal.MaxRPS p) then
    let burst := wrap64 (f_to_int64 (f_mul (Principal.MaxRPS p) (f_of_Z 2)) + 1) in
    let? s := state in
    let '(ok, rl) := AllowRate (Api.SubRL s) ("token|" +:+ Principal.TokenID p) (Principal.MaxRPS p) burst (clock e 4%nat) in
    let? _ := change (λ s, s <| Api.SubRL := rl |>) in
    if ok then hret tt else Error "token rate limit exceeded" 429
  else hret tt.
Definition find_token (cfg : config) (r : request) : http Principal.t :=
  let? s := state in
  match ValidateSubToken am (auth_db s) (extractToken cfg r) (clock e 2%nat) (clock e 3%nat) with
  | Err _ => Error "unauthorized" 401
  | Ok (p, db) =>
      let? _ := change (λ s, from_option (λ d, set_auth d s) s db) in hret p
  end.
Definition limit_country (p : Principal.t) (r : request) : http unit :=
  let requested := countryCode (query r "country") in
  if negb (requested =? "")%string && negb (principalAllowsCountry p requested)
  then Error "country not allowed for token" 403 else hret tt.
(** The quota of the day; the database does not fail here. *)
Definition metered (p : Principal.t) (s : api) : bool :=
  (Principal.Kind p =? "db")%string && bool_decide (is_Some (DB s)).
Definition set_usage (usage : usage_table) (s : api) : api :=
  s <| Api.Acc := (Api.Acc s) <| Accounts.Usage := usage |> |>.
Definition limit_quota (p : Principal.t) : http unit :=
  let? s := state in
  if metered p s then
    let '(remaining, allowed, usage) :=
      ConsumeTokenQuota (Accounts.Usage (Api.Acc s)) (Principal.TokenID p) (Principal.DailyQuota p) (clock e 5%nat) in
    let? _ := change (set_usage usage) in
    if allowed
    then if 0 <=? remaining then SetHeader "X-RateLimit-Remaining-Daily" (Itoa remaining) else hret tt
    else Error "daily quota exceeded" 429
  else hret tt.

(** [ensurePublish] *)
Definition ensurePublish (r : request) : http Principal.t :=
  let? s := state in
  let cfg := Api.Cfg s in
  if negb (PublishConfig.Enabled (Config.Publish cfg)) then Error "publish disabled" 404
  else
    let? _ := limit_client cfg r in
    let? p := find_token cfg r in
    let? _ := limit_token p in
    let? _ := limit_country p r in
    let? _ := limit_quota p in hret p.

(** ** The cache *)

(** [publishCacheMaxAge] *)
Definition publishCacheMaxAge (cfg : config) : Duration :=
  let maxAge := wrap64 (PublishConfig.MaxNodeAgeHours (Config.Publish cfg) * Hour) in
  let maxAge := if maxAge <=? 0 then 24 * Hour else maxAge in
  let scheduleAge := wrap64 (2 * ScheduleInterval cfg) in
  if ScheduleConfig.Enabled (Config.Schedule cfg) && (0 <? scheduleAge) && (scheduleAge <? maxAge)
  then scheduleAge else maxAge.
(** [freshPublishBlob] *)
Definition freshPublishBlob (s : api) : option blob :=
  let b := Publish.Get (Service.Pub (Api.Svc s)) in
  if Fresh b (publishCacheMaxAge (Api.Cfg s)) (clock e 6%nat) then b else None.

(** What is selected on the spot *)
Definition live_nodes (s : api) (country : string) : list node :=
  SelectPublishNodesCountry (Api.Cfg s) (λ i, clock e (10 + i)%nat) country (Service.Nodes (Api.Svc s)).
Definition render (f : format) (nodes : list node) : result string :=
  match f with
  | FRaw => RenderRaw (Some <$> nodes)
  | FBase64 => RenderBase64 (Some <$> nodes)
  | FClash => Ok (RenderClash (Some <$> nodes))
  end.
(** A panic: the connection is closed without a reply. *)
Definition crash {A} : http A := reply 0 Nothing.
Definition or_crash {A} (x : result A) : http A := match x with Ok a => hret a | Err _ => crash end.

(** ** [serveSubFormat] *)

(** The name of a format in [blob.Format] and in the counters *)
Definition format_name (f : format) : string := match f with FRaw => "raw" | FBase64 => "base64" | FClash => "clash" end.
Definition sub_filename (f : format) : string :=
  match f with FRaw => "sub.txt" | FBase64 => "sub.base64" | FClash => "clash.yaml" end.

(** The part of the cache that a token may see *)
Definition cached_for (p : Principal.t) (country : string) : bool :=
  negb (restricted p) || (negb (country =? "")%string && bool_decide (Principal.AllowProtocols p = [])).
Definition from_cache (s : api) (p : Principal.t) (f : format) (country : string) : option (string * Z * string * string) :=
  match freshPublishBlob s with
  | Some b =>
      if cached_for p country then
        match Format (Some b) (format_name f) country with
        | Some (body, count) => if (body =? "")%string then None else Some (body, count, Blob.ETag b, Blob.UpdatedAt b)
        | None => None
        end
      else None
  | None => None
  end.
(** An empty body from the cache is replaced, its ETag is not. *)
Definition stale_etag (s : api) (p : Principal.t) (f : format) (country : string) : string :=
  match freshPublishBlob s with
  | Some b => if cached_for p country
              then match Format (Some b) (format_name f) country with Some _ => Blob.ETag b | None => "" end else ""
  | None => ""
  end.
(** The body, the number of nodes, the ETag and the time of a reply *)
Definition sub_body (s : api) (p : Principal.t) (f : format) (country : string) : result (string * Z * string * string) :=
  match from_cache s p f country with
  | Some x => Ok x
  | None =>
      let nodes := filterTokenNodes (live_nodes s country) p in
      let! body := render f nodes in
      Ok (body, Z.of_nat (length nodes), stale_etag s p f country, FormatRFC3339 (clock e 7%nat))
  end.

(** [setSubHeaders] *)
Definition max_age (sec : Z) : string := "public, max-age=" +:+ Itoa sec.
Definition setSubHeaders (cfg : config) (f : format) (etag : string) : http unit :=
  let sec := PublishConfig.CacheSec (Config.Publish cfg) in
  let? _ := SetHeaders [("Content-Type", content_type f); ("Content-Disposition", "inline; filename=" +:+ sub_filename f);
                        ("X-NodeHarvest", "publish")] in
  let? _ := if negb (etag =? "")%string then SetHeader "ETag" etag else hret tt in
  let? _ := SetHeader "Cache-Control" (if 0 <? sec then max_age sec else "no-store") in
  SetHeader "Profile-Update-Interval" "6".
(** What is written is counted for the token. *)
Definition count_bytes (p : Principal.t) (body : string) (s : api) : api :=
  if metered p s
  then set_usage (AddTokenBytes (Accounts.Usage (Api.Acc s)) (Principal.TokenID p) (sent e body) (clock e 8%nat)) s else s.
Definition send_body (p : Principal.t) (format body : string) : http unit :=
  let? _ := change (λ s, IncSubToken format 200 (tokenMetricID p) (count_bytes p body s)) in
  reply 200 (Text body).

(** A computation, and what is done when it ends in a reply *)
Definition on_reply {A} (m : http A) (f : api → api) : http A := λ st,
  match m st with
  | (inl resp, st) => (inl resp, (f st.1, st.2))
  | r => r
  end.
Definition serveSubFormat (f : format) (r : request) : http unit :=
  let name := format_name f in
  let? p := on_reply (ensurePublish r) (IncSub name 401) in
  let country := countryCode (query r "country") in
  if negb (country =? "")%string && negb (principalAllowsCountry p country) then
    let? _ := change (IncSubToken name 403 (tokenMetricID p)) in Error "country not allowed for token" 403
  else
    let? s := state in
    let? (body, count, etag, updated) := or_crash (sub_body s p f country) in
    let inm := header r "If-None-Match" in
    if negb (inm =? "")%string && negb (etag =? "")%string && (inm =? etag)%string then
      let? _ := change (IncSubToken name 304 (tokenMetricID p)) in reply 304 Nothing
    else
      let? _ := setSubHeaders (Api.Cfg s) f etag in
      let? _ := if negb (updated =? "")%string then SetHeader "X-Updated-At" updated else hret tt in
      let? _ := SetHeader "X-Node-Count" (Itoa count) in
      send_body p name body.

(** [handleSubRaw], [handleSubBase64], [handleSubClash] *)
Definition handleSubRaw : request → http unit := serveSubFormat FRaw.
Definition handleSubBase64 : request → http unit := serveSubFormat FBase64.
Definition handleSubClash : request → http unit := serveSubFormat FClash.

(** ** Pools and countries *)

(** The formats of [serveSelectedSubscription], with their extensions *)
Definition selected_format (s : string) : option (format * string) :=
  let s := ToLower s in
  if (s =? "raw")%string then Some (FRaw, ".txt")
  else if (s =? "base64")%string then Some (FBase64, ".base64.txt")
  else if bool_decide (s ∈ ["clash"; "clash.yaml"]) then Some (FClash, ".clash.yaml") else None.
Definition serveSelectedSubscription (r : request) (nodes : list node) (format filename : string) (refreshSec : Z)
    (p : Principal.t) : http unit :=
  match selected_format format with
  | None =>
      let? _ := change (IncSubToken format 400 (tokenMetricID p)) in Error "unsupported format" 400
  | Some (f, extension) =>
      let? body := or_crash (render f nodes) in
      let etag := etagOf body in
      if (header r "If-None-Match" =? etag)%string then
        let? _ := change (IncSubToken format 304 (tokenMetricID p)) in reply 304 Nothing
      else
        let? _ := SetHeaders [("Content-Type", content_type f);
                              ("Content-Disposition", "inline; filename=" +:+ filename +:+ extension);
                              ("Cache-Control", max_age (Z.max refreshSec 0)); ("ETag", etag);
                              ("X-Node-Count", Itoa (Z.of_nat (length nodes)))] in
        send_body p format body
  end.

(** [handleSubPool], [handleSubCountry] *)
Definition handleSubPool (r : request) : http unit :=
  let? p := ensurePublish r in
  let? s := state in
  match Pools.Find (Some (Api.Cfg s)) (path_value r "key") with
  | None => Error "unknown pool" 404
  | Some pool =>
      let nodes := filterTokenNodes (Pools.Select (clock e 9%nat) (Some (Service.Nodes (Api.Svc s))) pool) p in
      serveSelectedSubscription r nodes (path_value r "format") ("pool-" +:+ Named.Key pool) (Named.RefreshSec pool) p
  end.
Definition handleSubCountry (r : request) : http unit :=
  let? p := ensurePublish r in
  let country := countryCode (path_value r "code") in
  if negb (slen country =? 2) then Error "invalid country code" 400
  else if negb (principalAllowsCountry p country) then Error "country not allowed for token" 403
  else
    let? s := state in
    let nodes := filterTokenNodes (live_nodes s country) p in
    serveSelectedSubscription r nodes (path_value r "format") ("country-" +:+ country)
      (PublishConfig.CacheSec (Config.Publish (Api.Cfg s))) p.

(** ** What there is: [handleSubMeta], [handleSubIndex] *)

(** The nodes of each country; the keys of a JSON object are sorted. *)
Definition count_countries (nodes : list node) : gmap string Z :=
  tally (λ n, Some (if (Node.Country n =? "")%string then "XX" else Node.Country n)) nodes.
Definition counts (m : gmap string Z) : value := VMap ((λ kv, (kv.1, VInt kv.2)) <$> map_to_list m).
Definition handleSubMeta (r : request) : http unit :=
  let? p := ensurePublish r in
  let country := query r "country" in
  let? s := state in
  let pub := Config.Publish (Api.Cfg s) in
  let limits := [("min_score", VFloat (PublishConfig.MinScore pub)); ("max_nodes", VInt (PublishConfig.MaxNodes pub))] in
  let live :=
    let nodes := filterTokenNodes (live_nodes s country) p in
    writeJSON (VMap ([("count", VInt (Z.of_nat (length nodes))); ("by_country", counts (count_countries nodes));
      ("country", VStr country); ("generated", VStr (FormatRFC3339 (clock e 7%nat))); ("cached", VBool false)] ++ limits)) in
  match freshPublishBlob s with
  | Some b =>
      if (country =? "")%string && negb (restricted p) then
        writeJSON (VMap ([("count", VInt (Blob.Count b)); ("by_country", counts (Blob.ByCountry b)); ("etag", VStr (Blob.ETag b));
          ("generated", VStr (Blob.UpdatedAt b)); ("cached", VBool true)] ++ limits))
      else live
  | None => live
  end.

(** The links of [handleSubIndex] *)
Definition base_url (cfg : config) (r : request) : string :=
  let base := PublishConfig.PublicURL (Config.Publish cfg) in
  if negb (base =? "")%string then base
  else
    let https := Request.TLS r || (header r "X-Forwarded-Proto" =? "https")%string in
    let host := header r "X-Forwarded-Host" in
    (if https then "https" else "http") +:+ "://" +:+ (if (host =? "")%string then Request.Host r else host).
Definition token_query (cfg : config) (r : request) : string :=
  let t := extractToken cfg r in
  if negb (t =? "")%string && SecurityConfig.AllowQueryToken (Config.Security cfg) then "?token=" +:+ t else "".
Definition join_query (tokenQ extra : string) : string :=
  if (extra =? "")%string then tokenQ
  else if (tokenQ =? "")%string then "?" +:+ extra else tokenQ +:+ "&" +:+ extra.
Definition country_link (base tokenQ : string) (kv : string * Z) : value :=
  let q := join_query tokenQ ("country=" +:+ kv.1) in
  VMap [("code", VStr kv.1); ("count", VInt kv.2); ("raw", VStr (base +:+ "/raw" +:+ q));
        ("base64", VStr (base +:+ "/base64" +:+ q)); ("clash", VStr (base +:+ "/clash" +:+ q))].
Definition linked (kv : string * Z) : bool := negb (kv.1 =? "XX")%string && (1 <=? kv.2).
Definition country_links (base tokenQ : string) (byCountry : gmap string Z) : list value :=
  let chosen := List.filter linked (range_counts byCountry) in
  country_link base tokenQ <$> take 20 (exchange_sort (length chosen) chosen).
Definition handleSubIndex (r : request) : http unit :=
  let? p := ensurePublish r in
  let? s := state in
  let cfg := Api.Cfg s in
  let pub := Config.Publish cfg in
  let prefix := if (PublishConfig.PathPrefix pub =? "")%string then "/sub" else PublishConfig.PathPrefix pub in
  let base := base_url cfg r +:+ prefix in
  let tokenQ := token_query cfg r in
  let cached := freshPublishBlob s in
  let live := filterTokenNodes (live_nodes s "") p in
  let '(count, byCountry, updated) :=
    match cached with
    | Some b => if restricted p then (Z.of_nat (length live), count_countries live, FormatRFC3339 (clock e 7%nat))
                else (Blob.Count b, Blob.ByCountry b, Blob.UpdatedAt b)
    | None => (Z.of_nat (length live), count_countries live, FormatRFC3339 (clock e 7%nat))
    end in
  let link name := VStr (base +:+ "/" +:+ name +:+ tokenQ) in
  writeJSON (VMap [("ok", VBool true); ("nodes", VInt count); ("min_score", VFloat (PublishConfig.MinScore pub));
    ("max_nodes", VInt (PublishConfig.MaxNodes pub)); ("alive_only", VBool (PublishConfig.AliveOnly pub));
    ("by_country", counts byCountry); ("updated_at", VStr updated); ("tz", VStr "Asia/Shanghai");
    ("links", VMap [("raw", link "raw"); ("base64", link "base64"); ("clash", link "clash")]);
    ("by_country_links", VList (country_links base tokenQ byCountry)); ("cached", VBool (bool_decide (is_Some cached)));
    ("usage", VMap [("v2rayN", link "base64"); ("clash", link "clash"); ("raw_uri", link "raw");
       ("country_example", VStr (base +:+ "/base64" +:+ join_query tokenQ "country=US"))])]).

(** ** [handleSubStorePublishCheck], [handleSubStoreSessionCheck] *)

(** [url.ParseRequestURI] *)
Definition ParseRequestURI (raw : string) : option URL.t :=
  if existsb ctl_byte (explode raw) || (raw =? "")%string then None
  else if (raw =? "*")%string then Some (URL.mk "" None "" "*" "" "")
  else
    '(scheme, rest) ← get_scheme [] (explode raw);
    let scheme := ToLower (implode scheme) in
    let '(rest, query) := split_query rest in
    let url := URL.mk scheme None "" "" (implode query) "" in
    let path rest url := p ← unescape_bytes encodePath rest; Some (url <| URL.Path := implode p |>) in
    match rest with
    | "/"%char :: "/"%char :: r =>
        if (scheme =? "")%string then path rest url
        else
          let '(authority, rest) := match cut_on "/" r with Some (a, p) => (a, "/"%char :: p) | None => (r, []) end in
          '(user, host) ← parseAuthority authority;
          path rest (url <| URL.User := user |> <| URL.Host := host |>)
    | "/"%char :: _ => path rest url
    | _ => if negb (scheme =? "")%string then Some url else None
    end.
(** The request whose token is checked *)
Definition forwarded_query (q : values) : values :=
  let nodeToken := NetUrl.Get q "nh_token" in
  let q := List.filter (λ kv, negb (bool_decide (kv.1 ∈ ["token"; "nh_token"]))) q in
  if negb (nodeToken =? "")%string then Set_ q "token" nodeToken else q.
Definition checked_request (original : URL.t) (r : request) : request :=
  r <| Request.Path := URL.Path original |>
    <| Request.RawQuery := Encode (forwarded_query (ParseQuery (URL.RawQuery original)).1) |>.
Definition shared_output (u : URL.t) : bool :=
  (URL.Scheme u =? "")%string && (HasPrefix (URL.Path u) "/share/" || HasPrefix (URL.Path u) "/download/").
Definition scoped_token (p : Principal.t) : bool :=
  restricted p || ((Principal.Kind p =? "db")%string && negb (Principal.TenantID p =? "default")%string).
Definition handleSubStorePublishCheck (r : request) : http unit :=
  let? s := state in
  if negb (SubStoreConfig.Enabled (Config.SubStore (Api.Cfg s))) then NotFound
  else if negb (bool_decide (header r "X-Forwarded-Method" ∈ ["GET"; "HEAD"])) then Error "method not allowed" 405
  else
    match ParseRequestURI (TrimSpace (header r "X-Forwarded-Uri")) with
    | None => Error "invalid forwarded URI" 400
    | Some original =>
        if negb (shared_output original) then Error "invalid forwarded URI" 400
        else
          let by_token :=
            let? p := ensurePublish (checked_request original r) in
            if scoped_token p then Error "scoped token cannot access shared Sub-Store output" 403 else reply 204 Nothing in
          match authenticated (request_principal am (clock e 0%nat) r) with
          | Some p =>
              if Allows (Principal.Role p) RoleOperator then
                if (Principal.TenantID p =? "default")%string then reply 204 Nothing
                else Error "Sub-Store is restricted to the default tenant" 403
              else by_token
          | None => by_token
          end
    end.
Definition handleSubStoreSessionCheck (r : request) : http unit :=
  let? s := state in
  if negb (SubStoreConfig.Enabled (Config.SubStore (Api.Cfg s))) then NotFound
  else
    let? p := requireRole am e r RoleOperator in
    if (Principal.TenantID p =? "default")%string then reply 204 Nothing
    else Error "Sub-Store is restricted to the default tenant" 403.
End serve.
