(* ===== verification/Admin.v ===== *)
(** * Administration: [internal/api/server.go]

    Logging in and out, and the handlers of the management interface that read
    and change tokens, users, the audit log, tasks, alerts, sources, the
    configuration and the published cache.  The decoders of the bodies are the
    parameter [BodyCodec]; a nil slice and an empty one are not told apart in
    what is written. *)
From S2P Require Import Prelude Sql GoStr GoFloat GoTime Model Base64 Tasks Tokens Users Jobs Alerts Auth.
From S2P Require Import NetAddr Ratelimit Config ConfigCheck ConfigValid Filter NodeStore NodesDB Pools NetUrl Links Clash.
From S2P Require Import Content Exporter Publish DialJob Select Fetch Sources Runtime Runner Web.

(** ** Bodies *)

Module LoginBody.
Record t := mk { Tenant : string; Username : string; Password : string }.
End LoginBody.
Module TokenBody.
Record t := mk {
  Name : string;
  Note : string;
  Countries : list string;
  Protocols : list string;
  Days : Z;
  MaxRPS : float64;
  DailyQuota : Z;
}.
#[export] Instance eta : Eta t := λ b, mk (Name b) (Note b) (Countries b) (Protocols b) (Days b) (MaxRPS b) (DailyQuota b).
End TokenBody.
Export (hints) TokenBody.
Module UserBody.
Record t := mk { Username : string; Email : string; Password : string; Role : string }.
End UserBody.

(** [decodeOne] into the structs of the handlers, with unknown fields refused,
    and into a map, which may be nil; an empty body leaves the zero value. *)
Class BodyCodec := {
  login_body : string → result LoginBody.t;
  token_body : string → result TokenBody.t;
  user_body : string → result UserBody.t;
  config_body : string → result (bool * RuntimePatch.t);
  options_body : string → result (option (gmap string json));
}.

(** [decodeJSON], [readOpts]: at most 64 KiB are read. *)
Definition body_limit : Z := 65536.
Definition decodeJSON {A} (decode : string → result A) (r : request) : http A :=
  let body := default "" (Request.Body r) in
  match (if body_limit <? slen body then Err (ErrMsg "http: request body too large") else decode body) with
  | Ok b => hret b
  | Err err => Error (err_text err) 400
  end.

(** ** Pages *)

(** [wantsPage], [requestedPageLimit], [pageWindow] *)
Definition wantsPage (r : request) : bool := (query r "page" =? "1")%string.
Definition query_int (r : request) (k : string) : Z := (Atoi (query r k)).1.
Definition requestedPageLimit (r : request) (fallback : Z) : Z :=
  let limit := query_int r "limit" in
  if limit <=? 0 then fallback else if 100 <? limit then 100 else limit.
Definition pageWindow {A} (items : list A) (limit : Z) : list A * bool :=
  if limit <? Z.of_nat (length items) then (take (Z.to_nat limit) items, true) else (items, false).

Definition page_value (key : string) (total : Z) (items : list value) (next : string) (more : bool) : value :=
  VMap [("total", VInt total); ("count", VInt (Z.of_nat (length items))); (key, VList items);
        ("next_cursor", VStr next); ("has_more", VBool more)].
(** What a listing replies without a database *)
Definition no_rows (r : request) (key : string) : http unit :=
  writeJSON (if wantsPage r then page_value key 0 [] "" false else VList []).
(** A page of rows, of which one more than the limit was asked for *)
Definition send_page {A} (key : string) (view : A → value) (id : A → string) (limit total : Z) (rows : result (list A))
    : http unit :=
  match rows with
  | Err err => Error (err_text err) 400
  | Ok rows =>
      let '(page, more) := pageWindow rows limit in
      writeJSON (page_value key total (view <$> page) (if more then from_option id "" (last page) else "") more)
  end.
Definition send_list {A} (view : A → value) (rows : result (list A)) : http unit :=
  match rows with
  | Err err => Error (err_text err) 500
  | Ok rows => writeJSON (VList (view <$> rows))
  end.

(** The JSON of a task without its options, and of the state of a source *)
Definition omit_empty (k v : string) : list (string * value) := if (v =? "")%string then [] else [(k, VStr v)].
Definition task_value `{OptionsCodec} (t : QueuedTask.t) : value :=
  VMap ([("id", VStr (QueuedTask.ID t)); ("type", VStr (QueuedTask.Type_ t)); ("priority", VInt (QueuedTask.Priority t));
         ("status", VStr (QueuedTask.Status t)); ("attempts", VInt (QueuedTask.Attempts t));
         ("max_attempts", VInt (QueuedTask.MaxAttempts t)); ("available_at", VStr (QueuedTask.AvailableAt t))]
        ++ omit_empty "lease_until" (QueuedTask.LeaseUntil t) ++ omit_empty "worker_id" (QueuedTask.WorkerID t)
        ++ omit_empty "last_error" (QueuedTask.LastError t)
        ++ [("created_at", VStr (QueuedTask.CreatedAt t)); ("updated_at", VStr (QueuedTask.UpdatedAt t))]
        ++ omit_empty "started_at" (QueuedTask.StartedAt t) ++ omit_empty "ended_at" (QueuedTask.EndedAt t)).

Section admin.
Context `{TzData} `{LenientParse} `{Unicode} `{Crypto} `{Bcrypt} `{ClaimsCodec} `{NetIP} `{UrlParser} `{PublicSuffix} `{PatchCodec}.
Context `{MapRange} `{CountRange} `{LinkJson} `{ClashCodec} `{MetaCodec} `{PolicyCodec} `{Quoting} `{FmtAny}.
Context `{BodyCodec} `{JobOptionsCodec}.
Context (am : Manager.t) (e : env).

(** ** The audit log *)

Definition with_DB (f : History.t → History.t) (s : api) : api :=
  match DB s with Some h => set_DB (f h) s | None => s end.
Definition audit (actor action detail : string) (i : nat) : http unit :=
  change (with_DB (λ h, h <| History.audit := Audit (History.audit h) actor action detail (clock e i) |>)).

(** [timex.Location()] at a local time: [time.Date] *)
Definition Date_in (local : Z) : Time :=
  let off := Location local in
  if off =? 0 then local else local - Location (local - off * Second) * Second.
(** [time.ParseInLocation("2006-01-02", s, timex.Location())] *)
Definition parse_day (s : string) : option Time :=
  match explode s with
  | [y1; y2; y3; y4; s1; m1; m2; s2; d1; d2] =>
      match parse_range [y1; y2; y3; y4] 0 9999, parse_range [m1; m2] 1 12 with
      | Some y, Some m =>
          match parse_range [d1; d2] 1 (days_in m y) with
          | Some d => if Ascii.eqb s1 "-" && Ascii.eqb s2 "-" then Some (Date_in (days_of_civil (Civil y m d) * day_ns)) else None
          | None => None
          end
      | _, _ => None
      end
  | _ => None
  end.
(** [auditBound]: [None] is an error *)
Definition auditBound (v : string) (endOfDay : bool) : option string :=
  let v := TrimSpace v in
  if (v =? "")%string then Some ""
  else if slen v =? 10 then
    (λ day, FormatRFC3339 (if endOfDay then day + (24 * Hour - Nanosecond) else day)) <$> parse_day v
  else FormatRFC3339 <$> ParseRFC3339 v.

(** [handleAdminAudit] *)
Definition audit_page (r : request) (tenant from to : string) (h : History.t) : http unit :=
  let limit := requestedPageLimit r 50 in
  send_page "entries" VAudit (λ a, Itoa (AuditRow.id a)) limit (CountAuditTenantRange (History.audit h) tenant from to)
    (ListAuditPageTenantRange (History.audit h) (limit + 1) (query r "cursor") tenant from to).
Definition handleAdminAudit (r : request) : http unit :=
  let? p := requireRole am e r RoleAdmin in
  let? s := state in
  match DB s with
  | None => no_rows r "entries"
  | Some h =>
      match auditBound (query r "from") false with
      | None => Error "invalid from date" 400
      | Some from =>
          match auditBound (query r "to") true with
          | None => Error "invalid to date" 400
          | Some to =>
              if wantsPage r then audit_page r (Principal.TenantID p) from to h
              else send_list VAudit (Ok (ListAuditTenantRange (History.audit h) (query_int r "limit") (Principal.TenantID p) from to))
          end
      end
  end.

(** ** Sessions *)

(** [requestHTTPS], [setSessionCookie] *)
Definition requestHTTPS (r : request) : bool :=
  Request.TLS r || EqualFold (header r "X-Forwarded-Proto") "https".
Definition expired_cookie (r : request) (domain : string) : Cookie.t :=
  Cookie.mk (Manager.CookieName am) "" domain (requestHTTPS r) (-1).
Definition shared_domain : bool := negb (Manager.CookieDomain am =? "")%string.
Definition setSessionCookie (r : request) (session : string) : http unit :=
  let? _ := if shared_domain then SetCookie (expired_cookie r "") else hret tt in
  SetCookie (Cookie.mk (Manager.CookieName am) session (Manager.CookieDomain am) (requestHTTPS r)
    (f_to_int64 (Seconds (Manager.SessionTTL am)))).

(** [handleLogin], [handleLogout], [handleMe] *)
Definition login_key (cfg : config) (r : request) (b : LoginBody.t) : string :=
  client_ip r (ServerConfig.TrustedProxies (Config.Server cfg)) +:+ "|" +:+ ToLower (TrimSpace (LoginBody.Tenant b))
    +:+ "|" +:+ ToLower (TrimSpace (LoginBody.Username b)).
Definition handleLogin (r : request) : http unit :=
  let? b := decodeJSON login_body r in
  let? s := state in
  let '(ok, rl) := Allow (Api.LoginRL s) (login_key (Api.Cfg s) r b) (clock e 1%nat) in
  let? _ := change (λ s, s <| Api.LoginRL := rl |>) in
  if negb ok then let? _ := SetHeader "Retry-After" "5" in Error "too many login attempts" 429
  else
    match LoginLocal am (auth_db s) (LoginBody.Tenant b) (LoginBody.Username b) (LoginBody.Password b)
            (clock e 2%nat) (clock e 3%nat) (clock e 4%nat) with
    | Err _ => Error "invalid credentials" 401
    | Ok (p, session, d) =>
        let? _ := change (set_auth d) in
        let? _ := setSessionCookie r session in
        writeJSON (VMap [("authenticated", VBool true); ("principal", VPrincipal p)])
    end.
Definition handleLogout (r : request) : http unit :=
  let? _ := SetCookie (expired_cookie r "") in
  let? _ := if shared_domain then SetCookie (expired_cookie r (Manager.CookieDomain am)) else hret tt in
  writeJSON (VMap [("authenticated", VBool false)]).
Definition handleMe (r : request) : http unit :=
  let? s := state in
  match request_principal am (clock e 0%nat) r with
  | Err _ => Error "invalid session" 401
  | Ok p =>
      writeJSON (VMap [("authenticated", VBool (Principal.Authenticated p)); ("principal", VPrincipal p);
        ("local_enabled", VBool (AuthConfig.LocalEnabled (Config.Auth (Api.Cfg s))))])
  end.

(** ** Tokens *)

(** [handleAdminListTokens] *)
Definition handleAdminListTokens (r : request) : http unit :=
  let? p := requireRole am e r RoleAdmin in
  let? s := state in
  let tokens := Accounts.Tokens (Api.Acc s) in
  let usage := Accounts.Usage (Api.Acc s) in
  match DB s with
  | None => no_rows r "tokens"
  | Some _ =>
      if wantsPage r then
        let limit := requestedPageLimit r 25 in
        send_page "tokens" VToken Token.ID limit (CountTokensTenant tokens (Principal.TenantID p))
          (ListTokensPageTenant tokens usage (limit + 1) (query r "cursor") (Principal.TenantID p) (clock e 1%nat))
      else send_list VToken (Ok (ListTokensTenant tokens usage (Principal.TenantID p) (clock e 1%nat)))
  end.

(** [handleAdminCreateToken] *)
Definition invalid_token (b : TokenBody.t) : bool :=
  (100 <? slen (TokenBody.Name b)) || (1000 <? slen (TokenBody.Note b)) || (TokenBody.Days b <? 0)
  || (3650 <? TokenBody.Days b) || f_lt (TokenBody.MaxRPS b) f_zero || f_lt (f_of_Z 1000) (TokenBody.MaxRPS b)
  || (TokenBody.DailyQuota b <? 0).
Definition handleAdminCreateToken (r : request) : http unit :=
  let? p := requireRole am e r RoleAdmin in
  let? b := decodeJSON token_body r in
  let b := if (TokenBody.Name b =? "")%string then b <| TokenBody.Name := "token" |> else b in
  if invalid_token b then Error "invalid token options" 400
  else
    let? s := state in
    match CreateToken (auth_db s) (TokenBody.Name b) (TokenBody.Note b) (Principal.TenantID p) (TokenBody.Countries b)
            (TokenBody.Protocols b) (TokenBody.Days b) (TokenBody.MaxRPS b) (TokenBody.DailyQuota b) (Actor (Some p))
            (random e 0%nat) (random e 1%nat) (random e 2%nat) (clock e 1%nat) (clock e 2%nat) (clock e 3%nat) with
    | Err err => Error (err_text err) 500
    | Ok (t, d) => let? _ := change (set_auth d) in writeJSON (VToken t)
    end.

(** [handleAdminDeleteToken], [setTokenEnabled] *)
Definition set_tokens (tokens : token_table) (s : api) : api :=
  s <| Api.Acc := (Api.Acc s) <| Accounts.Tokens := tokens |> |>.
Definition change_token (p : Principal.t) (op : token_table → result token_table) (action detail : string) (v : value)
    : http unit :=
  let? s := state in
  if bool_decide (DB s = None) then Error "db disabled" 500
  else
    match op (Accounts.Tokens (Api.Acc s)) with
    | Err err => Error (err_text err) 500
    | Ok tokens =>
        let? _ := change (set_tokens tokens) in
        let? _ := audit (Actor (Some p)) action detail 1%nat in
        writeJSON v
    end.
Definition handleAdminDeleteToken (r : request) : http unit :=
  let? p := requireRole am e r RoleAdmin in
  let id := path_value r "id" in
  change_token p (λ t, DeleteTokenTenant t id (Principal.TenantID p)) "token.delete" id (VMap [("deleted", VStr id)]).
Definition setTokenEnabled (en : bool) (r : request) : http unit :=
  let? p := requireRole am e r RoleAdmin in
  let id := path_value r "id" in
  change_token p (λ t, SetTokenEnabledTenant t id (Principal.TenantID p) en) "token.enabled"
    (id +:+ "=" +:+ fmt_bool en) (VMap [("id", VStr id); ("enabled", VBool en)]).

(** ** Users *)

(** [handleAdminListUsers] *)
Definition handleAdminListUsers (r : request) : http unit :=
  let? p := requireRole am e r RoleAdmin in
  let? s := state in
  let users := Accounts.Users (Api.Acc s) in
  match DB s with
  | None => no_rows r "users"
  | Some _ =>
      if wantsPage r then
        let limit := requestedPageLimit r 25 in
        send_page "users" VUser User.ID limit (CountUsers users (Principal.TenantID p))
          (ListUsersPage users (Principal.TenantID p) (limit + 1) (query r "cursor"))
      else send_list VUser (Ok (ListUsers users (Principal.TenantID p)))
  end.

(** [handleAdminCreateUser] *)
Definition set_users (users : user_table) (s : api) : api :=
  s <| Api.Acc := (Api.Acc s) <| Accounts.Users := users |> |>.
Definition known_role (role : Role) : bool := bool_decide (role ∈ [RoleViewer; RoleOperator; RoleAdmin]).
Definition handleAdminCreateUser (r : request) : http unit :=
  let? p := requireRole am e r RoleAdmin in
  let? s := state in
  if bool_decide (DB s = None) then Error "database disabled" 503
  else
    let? b := decodeJSON user_body r in
    let role := ToLower (TrimSpace (UserBody.Role b)) in
    if (UserBody.Username b =? "")%string || negb (known_role role) then Error "username and valid role are required" 400
    else
      match HashPassword (UserBody.Password b) (random e 0%nat) with
      | Err err => Error (err_text err) 400
      | Ok hash =>
          let id := (NewTokenPlain (random e 1%nat) (random e 2%nat)).1.2 in
          let created := FormatRFC3339 (clock e 1%nat) in
          let user := User.mk id (Principal.TenantID p) (TrimSpace (UserBody.Username b)) (TrimSpace (UserBody.Email b)) hash role
                        true "" "" in
          match InsertUser (Accounts.Users (Api.Acc s)) user (clock e 1%nat) with
          | Err err => Error (err_text err) 409
          | Ok users =>
              let? _ := change (set_users users) in
              let? _ := audit (Actor (Some p)) "user.create" (id +:+ " " +:+ User.Username user) 2%nat in
              writeJSON (VUser (User.mk id (tenantOrDefault (User.TenantID user)) (User.Username user) (User.Email user) hash role true created ""))
          end
      end.

(** [setUserEnabled] *)
Definition setUserEnabled (enabled : bool) (r : request) : http unit :=
  let? p := requireRole am e r RoleAdmin in
  let? s := state in
  if bool_decide (DB s = None) then Error "database disabled" 503
  else
    let id := path_value r "id" in
    if (id =? Principal.Subject p)%string && negb enabled then Error "cannot disable the active account" 400
    else
      match SetUserEnabled (Accounts.Users (Api.Acc s)) id (Principal.TenantID p) enabled with
      | Err err => Error (err_text err) 404
      | Ok users =>
          let? _ := change (set_users users) in
          let? _ := audit (Actor (Some p)) "user.enabled" (id +:+ "=" +:+ fmt_bool enabled) 1%nat in
          writeJSON (VMap [("id", VStr id); ("enabled", VBool enabled)])
      end.

(** ** Tasks *)

(** The tenant of each job *)
Definition job_tenants (h : History.t) : gmap string string := JobRow.tenant_id <$> History.jobs h.
(** [handleAdminTasks] *)
Definition handleAdminTasks (r : request) : http unit :=
  let? p := requireRole am e r RoleViewer in
  let? s := state in
  match DB s with
  | None => no_rows r "tasks"
  | Some h =>
      let status := query r "status" in
      let tenant := Principal.TenantID p in
      if wantsPage r then
        let limit := requestedPageLimit r 30 in
        send_page "tasks" task_value QueuedTask.ID limit (CountTasksTenant (History.tasks h) (job_tenants h) status tenant)
          (ListTasksPageTenant (History.tasks h) (job_tenants h) (limit + 1) status (query r "cursor") tenant)
      else send_list task_value (ListTasksTenant (History.tasks h) (job_tenants h) (query_int r "limit") status tenant)
  end.

(** [handleAdminCancelTask] *)
Definition handleAdminCancelTask (r : request) : http unit :=
  let? p := requireRole am e r RoleOperator in
  let id := path_value r "id" in
  let? s := state in
  let done := writeJSON (VMap [("id", VStr id); ("canceled", VBool true)]) in
  match DB s with
  | None => done
  | Some h =>
      match GetJobTenant (History.jobs h) id (Principal.TenantID p) with
      | Err _ => Error "not found" 404
      | Ok _ =>
          let? _ := audit (Actor (Some p)) "task.cancel" id 1%nat in
          match CancelTask (History.tasks h) id (clock e 2%nat) with
          | Err err => if CancelJobID id (Api.Svc s) then done else Error (err_text err) 404
          | Ok tasks => let? _ := change (with_DB (λ h, h <| History.tasks := tasks |>)) in done
          end
      end
  end.

(** [handleAdminQueue] *)
Definition handleAdminQueue (r : request) : http unit :=
  let? _ := requireRole am e r RoleViewer in
  let? s := state in
  match DB s with
  | None => writeJSON (VMap [("enabled", VBool false)])
  | Some h =>
      let queue := Config.Queue (Api.Cfg s) in
      writeJSON (VMap [("enabled", VBool (QueueConfig.Enabled queue)); ("workers", VInt (QueueConfig.EmbeddedWorkers queue));
        ("tasks", VMap ((λ kv, (kv.1, VInt kv.2)) <$> map_to_list (QueueStats (History.tasks h))))])
  end.

(** ** Alerts *)

(** System alerts are for the default tenant. *)
Definition require_default (p : Principal.t) : http unit :=
  if (Principal.TenantID p =? "default")%string then hret tt else Error "system alerts require the default tenant" 403.
(** [handleAdminAlerts] *)
Definition handleAdminAlerts (r : request) : http unit :=
  let? p := requireRole am e r RoleViewer in
  let? _ := require_default p in
  let? s := state in
  match DB s with
  | None => no_rows r "alerts"
  | Some h =>
      let activeOnly := negb (query r "active" =? "false")%string in
      if wantsPage r then
        let limit := requestedPageLimit r 30 in
        send_page "alerts" VAlert Alert.ID limit (CountAlerts (History.alerts h) activeOnly)
          (ListAlertsPage (History.alerts h) activeOnly (limit + 1) (query r "cursor"))
      else send_list VAlert (Ok (ListAlerts (History.alerts h) activeOnly (query_int r "limit")))
  end.

(** [changeAlert] *)
Definition changeAlert (acknowledge : bool) (r : request) : http unit :=
  let? p := requireRole am e r RoleOperator in
  let? _ := require_default p in
  let? s := state in
  match DB s with
  | None => Error "database disabled" 503
  | Some h =>
      let id := path_value r "id" in
      match (if acknowledge then AcknowledgeAlert (History.alerts h) id (Actor (Some p)) (clock e 1%nat)
             else ResolveAlert (History.alerts h) id (clock e 1%nat)) with
      | Err _ => Error "alert not found" 404
      | Ok alerts =>
          let? _ := change (with_DB (λ h, h <| History.alerts := alerts |>)) in
          let? _ := audit (Actor (Some p)) (if acknowledge then "alert.acknowledge" else "alert.resolve") id 2%nat in
          writeJSON (VMap [("id", VStr id); ("acknowledged", VBool acknowledge); ("resolved", VBool (negb acknowledge))])
      end
  end.

(** ** Sources, the configuration and the cache *)

(** [setSourceEnabled] *)
Definition setSourceEnabled (enabled : bool) (r : request) : http unit :=
  let? p := requireSystemAdmin am e r in
  let name := path_value r "name" in
  let? s := state in
  let log := from_option History.audit (AuditLog.mk 1 []) (DB s) in
  let '(err, states, log) :=
    Sources.SetSourceEnabled (Api.Cfg s) name enabled (Actor (Some p)) (clock e 1%nat) (Service.States (Api.Svc s)) log in
  match err with
  | Some err => Error (err_text err) 400
  | None =>
      let? _ := change (λ s, with_DB (λ h, h <| History.audit := log |>)
                               (s <| Api.Svc := (Api.Svc s) <| Service.States := states |> |>)) in
      writeJSON (VMap [("name", VStr name); ("enabled", VBool enabled)])
  end.

(** [handleAdminProbeSource], on what the network delivers of a source *)
Definition handleAdminProbeSource (net : Source.t → Z → Attempt.t) (r : request) : http unit :=
  let? p := requireRole am e r RoleOperator in
  let name := path_value r "name" in
  let? s := state in
  let '(st, err, states) := ProbeSource (Api.Cfg s) name net (clock e 1%nat) (clock e 2%nat) (Service.States (Api.Svc s)) in
  let? _ := change (λ s, s <| Api.Svc := (Api.Svc s) <| Service.States := states |> |>) in
  let? _ := audit (Actor (Some p)) "source.probe" name 3%nat in
  match err with
  | Some err =>
      let? _ := SetHeader "Content-Type" "application/json; charset=utf-8" in
      reply 502 (Json (VMap [("state", VSource st); ("error", VStr (err_text err))]))
  | None => writeJSON (VMap [("state", VSource st)])
  end.

(** [handleAdminRefreshPublish], with the lock and the disk it meets *)
Definition handleAdminRefreshPublish (lock : publish_lock) (saved : nat) (r : request) : http unit :=
  let? p := requireRole am e r RoleOperator in
  let? s := state in
  match RefreshPublishCache lock (Api.Cfg s) (λ i, clock e (10 + i)%nat) saved (Service.Nodes (Api.Svc s)) (Service.Pub (Api.Svc s)) with
  | Err _ => reply 0 Nothing
  | Ok (b, pub) =>
      let? _ := change (λ s, s <| Api.Svc := (Api.Svc s) <| Service.Pub := pub |> |>) in
      let? _ := audit (Actor (Some p)) "publish.refresh" (Blob.ETag b) 1%nat in
      writeJSON (VMap [("ok", VBool true); ("count", VInt (Blob.Count b)); ("etag", VStr (Blob.ETag b));
        ("updated_at", VStr (Blob.UpdatedAt b))])
  end.

(** [handleAdminUpdateConfig] *)
Definition runtime_of (s : api) : Runtime.t :=
  Runtime.mk (Api.Cfg s) ((λ _, Accounts.Versions (Api.Acc s)) <$> DB s) (from_option History.audit (AuditLog.mk 1 []) (DB s))
    (Service.Nodes (Api.Svc s)) (Service.Pub (Api.Svc s)).
Definition set_runtime (u : Runtime.t) (s : api) : api :=
  with_DB (λ h, h <| History.audit := Runtime.Log u |>)
    (s <| Api.Cfg := Runtime.Current u |>
       <| Api.Svc := (Api.Svc s) <| Service.Pub := Runtime.Pub u |> |>
       <| Api.Acc := (Api.Acc s) <| Accounts.Versions := default (Accounts.Versions (Api.Acc s)) (Runtime.Versions u) |> |>).
Definition config_value (cfg : config) : value :=
  let p := Config.Publish cfg in
  let g := Config.Governance cfg in
  let d := Config.Dial cfg in
  VMap [("publish_min_score", VFloat (PublishConfig.MinScore p)); ("publish_max_nodes", VInt (PublishConfig.MaxNodes p));
        ("publish_alive_only", VBool (PublishConfig.AliveOnly p)); ("publish_cache_sec", VInt (PublishConfig.CacheSec p));
        ("publish_max_node_age_hours", VInt (PublishConfig.MaxNodeAgeHours p));
        ("governance_disable_after_failures", VInt (GovernanceConfig.DisableAfterFailures g));
        ("governance_cooldown_hours", VInt (GovernanceConfig.CooldownHours g));
        ("governance_hq_drop_percent", VFloat (GovernanceConfig.HQDropPercent g));
        ("governance_country_share_percent", VFloat (GovernanceConfig.CountrySharePercent g));
        ("dial_after_quality", VBool (DialConfig.AfterQuality d)); ("dial_after_quality_max", VInt (DialConfig.AfterQualityMax d))].
Definition handleAdminUpdateConfig (u : Update.t) (r : request) : http unit :=
  let? p := requireSystemAdmin am e r in
  let? (confirm, patch) := decodeJSON config_body r in
  if negb confirm then Error "confirm=true is required" 400
  else
    let? s := state in
    let '(v, updated) := UpdateRuntimeConfig u (Actor (Some p)) patch (runtime_of s) in
    let? _ := change (set_runtime updated) in
    match v with
    | Err err => Error (err_text err) 400
    | Ok v =>
        let? s := state in
        writeJSON (VMap [("version", VVersion v); ("config", config_value (Api.Cfg s))])
    end.

(** [handleAdminConfigVersions] *)
Definition handleAdminConfigVersions (r : request) : http unit :=
  let? _ := requireSystemAdmin am e r in
  let? s := state in
  match DB s with
  | None => writeJSON (VList [])
  | Some _ => send_list VVersion (Ok (ListConfigVersions (Accounts.Versions (Api.Acc s)) (query_int r "limit")))
  end.

(** ** Jobs *)

(** [redactJobs] *)
Definition redact_job (j : Job.t) : Job.t := j <| Job.Options := None |>.
(** [handleJobs]: from the database, or from memory without one *)
Definition jobs_limit (r : request) : Z :=
  let limit := query_int r "limit" in
  if limit <=? 0 then 30 else if 100 <? limit then 100 else limit.
Definition jobs_rows (r : request) (p : Principal.t) (s : api) : result (list Job.t) :=
  let limit := jobs_limit r in
  let cursor := query r "cursor" in
  match DB s with
  | Some h => Jobs.ListJobsPageTenant (History.jobs h) (limit + 1) cursor (Principal.TenantID p)
  | None =>
      if negb (cursor =? "")%string && bool_decide (NodeStore.GetJob cursor (Service.Nodes (Api.Svc s)) = None)
      then Err (ErrMsg "invalid cursor")
      else Ok (NodeStore.ListJobsPage (limit + 1) cursor (Service.Nodes (Api.Svc s)))
  end.
Definition handleJobs (r : request) : http unit :=
  let? p := requireRole am e r RoleViewer in
  let? s := state in
  match jobs_rows r p s with
  | Err _ => Error "invalid cursor" 400
  | Ok jobs =>
      let '(page, more) := pageWindow jobs (jobs_limit r) in
      writeJSON (VMap [("jobs", VList ((λ j, VJob (redact_job j)) <$> page)); ("count", VInt (Z.of_nat (length page)));
        ("next_cursor", VStr (if more then from_option Job.ID "" (last page) else "")); ("has_more", VBool more)])
  end.

(** [handleJob], [handleJobEvents] *)
Definition handleJob (r : request) : http unit :=
  let? p := requireRole am e r RoleViewer in
  let? s := state in
  let id := path_value r "id" in
  let j := match DB s with
           | Some h => match Jobs.GetJobTenant (History.jobs h) id (Principal.TenantID p) with Ok j => Some j | Err _ => None end
           | None => NodeStore.GetJob id (Service.Nodes (Api.Svc s))
           end in
  match j with Some j => writeJSON (VJob (redact_job j)) | None => Error "not found" 404 end.
Definition handleJobEvents (r : request) : http unit :=
  let? p := requireRole am e r RoleViewer in
  let? s := state in
  match DB s with
  | None => writeJSON (VList [])
  | Some h =>
      send_list VEvent (ListJobEventsTenant (History.jobs h) (History.events h) (path_value r "id") (query_int r "after") 500 (Principal.TenantID p))
  end.

(** [startJob]: [submit] is the service's start of the job, [trace] what the
    propagator of OpenTelemetry injects. *)
Definition set_option (k v : string) (opts : gmap string json) : gmap string json := <[k := JStr v]> opts.
Definition set_nonempty (k v : string) (opts : gmap string json) : gmap string json :=
  if (v =? "")%string then opts else set_option k v opts.
Definition job_options_of (p : Principal.t) (r : request) (trace : string * string) (opts : gmap string json) : gmap string json :=
  set_nonempty "_tracestate" trace.2 (set_nonempty "_traceparent" trace.1
    (set_option "_request_id" (Request.RequestID r)
      (set_option "_tenant" (Principal.TenantID p) (set_option "_actor" (Actor (Some p)) opts)))).
Definition startJob (submit : gmap string json → Service.t → result Job.t * Service.t) (trace : string * string) (r : request)
    : http unit :=
  let? p := requireRole am e r RoleOperator in
  let? opts := decodeJSON options_body r in
  match opts with
  | None => reply 0 Nothing   (* a nil map: the first assignment panics *)
  | Some opts =>
      let? s := state in
      let '(j, svc) := submit (job_options_of p r trace opts) (Api.Svc s) in
      let? _ := change (λ s, s <| Api.Svc := svc |>) in
      match j with
      | Err err => Error (err_text err) 409
      | Ok j => writeJSON (VJob j)
      end
  end.
(** [handleStartFetch] and the others *)
Definition handleStart (post : Alert.t → option error) (stages : Stages.t) (t : timing) (typ : string) (trace : string * string)
    (r : request) : http unit :=
  let? s := state in
  startJob (Submit (Api.Cfg s) post stages t (clock e) typ) trace r.

(** [handleCancelJob] *)
Definition handleCancelJob (r : request) : http unit :=
  let? _ := requireRole am e r RoleOperator in
  let? s := state in
  writeJSON (VMap [("canceled", VBool (CancelJob (Api.Svc s)))]).
End admin.
