(* ===== verification/Views.v ===== *)
(** * Looking at nodes: [internal/api/server.go]

    The handlers that list and export nodes and the public dashboard.  Below
    the role of an administrator a node is shown without its credentials
    ([redact_node]); the dashboard has a projection of its own. *)
From S2P Require Import Prelude Sql GoStr GoFloat GoTime Model Base64 Tasks Tokens Users Jobs Alerts Auth.
From S2P Require Import NetAddr Ratelimit Config Filter NodeStore NodesDB Pools NetUrl Links Clash Exporter Publish DialJob Select.
From S2P Require Import Fetch Sources Runner Geo Web Serve Admin.

(** [strconv.ParseFloat(s, 64)]: the value, also when there is an error, and
    whether there was none *)
Class FloatParse := ParseFloat : string → float64 * bool.

(** The loop that exchanges rows until the keys go down: each position takes
    the greatest key of the rest. *)
Section exchange.
Context {A : Type} (key : A → Z).
Fixpoint pass_by (x : A) (l : list A) : A * list A :=
  match l with
  | [] => (x, [])
  | y :: l => if key x <? key y then let '(m, l) := pass_by y l in (m, x :: l)
              else let '(m, l) := pass_by x l in (m, y :: l)
  end.
Fixpoint exchange_by (fuel : nat) (l : list A) : list A :=
  match fuel, l with
  | S fuel, x :: l => let '(m, l) := pass_by x l in m :: exchange_by fuel l
  | _, _ => []
  end.
End exchange.

(** [pageSlice]: the page after the item [cursor], and the cursor of the next *)
Section pages.
Context {A : Type} (key : A → string).
Fixpoint index_of (cursor : string) (items : list A) : option nat :=
  match items with
  | [] => None
  | x :: items => if (key x =? cursor)%string then Some 0%nat else S <$> index_of cursor items
  end.
Definition page_start (cursor : string) (items : list A) : option nat :=
  if (cursor =? "")%string then Some 0%nat else S <$> index_of cursor items.
Definition pageSlice (items : list A) (cursor : string) (limit : Z) : option (list A * string) :=
  start ← page_start cursor items;
  let page := take (Z.to_nat limit) (drop start items) in
  let more := Z.of_nat start + limit <? Z.of_nat (length items) in
  Some (page, if more then from_option key "" (last page) else "").
End pages.

(** [redactNodes] *)
Definition redact_node (n : node) : node :=
  n <| Node.UUID := "" |> <| Node.Password := "" |> <| Node.RawURI := "" |> <| Node.Extra := ∅ |> <| Node.Fingerprint := "" |>.

Section views.
Context `{TzData} `{LenientParse} `{Unicode} `{Crypto} `{ClaimsCodec} `{NetIP} `{FloatParse} `{LocalCalendar}.
Context `{MapRange} `{CountRange} `{LinkJson} `{ClashCodec} `{Quoting}.
Context (am : Manager.t) (e : env).

Definition nodes_of (s : api) : store := Service.Nodes (Api.Svc s).
Definition shown_to (r : request) (n : node) : node := if hasRole am e r RoleAdmin then n else redact_node n.
Definition is_set (r : request) (k : string) : bool := bool_decide (query r k ∈ ["1"; "true"]).

(** ** Nodes *)

(** What [s.svc.VerifiedAfter], [s.svc.VerifiedEngine] ask of a dial *)
Definition dialled_lately (s : api) (f : NodeFilter.t) : NodeFilter.t :=
  f <| NodeFilter.DialTestedAfter := verifiedAfter (Api.Cfg s) (clock e 1%nat) |>
    <| NodeFilter.DialEngine := verifiedEngine (Api.Cfg s) |>.
(** [handleNodes] *)
Definition nodes_filter (r : request) (s : api) : NodeFilter.t :=
  let f := NodeFilter.zero <| NodeFilter.Protocol := query r "protocol" |> <| NodeFilter.Source := query r "source" |>
    <| NodeFilter.Grade := query r "grade" |> <| NodeFilter.Country := query r "country" |>
    <| NodeFilter.AliveOnly := is_set r "alive" |> <| NodeFilter.MinScore := (ParseFloat (query r "min_score")).1 |>
    <| NodeFilter.AIKey := query r "ai" |> <| NodeFilter.Search := query r "q" |> <| NodeFilter.HighQuality := is_set r "hq" |>
    <| NodeFilter.VerifiedOnly := is_set r "verified" |> in
  if is_set r "verified" then dialled_lately s f else f.
Definition nodes_limit (r : request) : Z :=
  let limit := query_int r "limit" in
  if limit <=? 0 then 100 else if 500 <? limit then 500 else limit.
Definition handleNodes (r : request) : http unit :=
  let? s := state in
  let nodes := ListNodes (nodes_filter r s) (nodes_of s) in
  match pageSlice Node.ID nodes (query r "cursor") (nodes_limit r) with
  | None => Error "invalid cursor" 400
  | Some (page, next) =>
      writeJSON (VMap [("total", VInt (Z.of_nat (length nodes))); ("count", VInt (Z.of_nat (length page)));
        ("nodes", VList ((λ n, VNode (shown_to r n)) <$> page)); ("next_cursor", VStr next);
        ("has_more", VBool (negb (next =? "")%string))])
  end.

(** [handleNode] *)
Definition handleNode (r : request) : http unit :=
  let? s := state in
  match GetNode (path_value r "id") (nodes_of s) with
  | None => Error "not found" 404
  | Some n => writeJSON (VNode (shown_to r n))
  end.

(** [handleNodeMetrics], [handleTrends] *)
Definition daily (r : request) (id : string) : http unit :=
  let? s := state in
  writeJSON (VList (match DB s with
                    | None => []
                    | Some h => VMetric <$> DailyNodeMetrics (clock e 1%nat) id (query_int r "days") (History.metrics h)
                    end)).
Definition handleNodeMetrics (r : request) : http unit := daily r (path_value r "id").
Definition handleTrends (r : request) : http unit := daily r "".

(** [handleStats] *)
Definition stats (s : api) : DashboardStats.t :=
  let enabled := Sources.EnabledSources (Api.Cfg s) (Service.States (Api.Svc s)) (clock e 2%nat) in
  Stats (Z.of_nat (length enabled)) (nodes_of s).
Definition handleStats (r : request) : http unit :=
  let? s := state in writeJSON (VStats (stats s)).

(** ** Countries *)

(** [countryDisplay] *)
Definition countryDisplay (code : string) : string :=
  if (code =? "")%string || (code =? "XX")%string then "🌐 Unknown" else DisplayName code.
Definition country_row (kv : string * Z) : value :=
  VMap [("code", VStr kv.1); ("name", VStr (ISOToName kv.1)); ("flag", VStr (FlagEmoji kv.1)); ("count", VInt kv.2);
        ("display", VStr (countryDisplay kv.1))].

(** [handleCountries]: countries as they are stored, but for UK *)
Definition countries_min (r : request) (s : api) : float64 :=
  let configured := FilterConfig.MinScore (Config.Filter (Api.Cfg s)) in
  let minScore := if f_le configured f_zero then f_of_Z 70 else configured in
  let v := query r "min_score" in
  let '(f, ok) := ParseFloat v in
  if negb (v =? "")%string && ok && f_lt f_zero f then f else minScore.
Definition handleCountries (r : request) : http unit :=
  let? s := state in
  let hq := bool_decide (query r "hq" ∈ ["1"; "true"; ""]) in
  let nodes := ListNodes (NodeFilter.zero <| NodeFilter.AliveOnly := negb (query r "alive" =? "0")%string |>
                 <| NodeFilter.HighQuality := hq |> <| NodeFilter.MinScore := countries_min r s |>
                 <| NodeFilter.Limit := 5000 |>) (nodes_of s) in
  let rows := range_counts (tally (λ n, Some (country_key n)) nodes) in
  writeJSON (VMap [("total_countries", VInt (Z.of_nat (length rows))); ("total_nodes", VInt (Z.of_nat (length nodes)));
    ("min_score", VFloat (countries_min r s)); ("hq", VBool hq);
    ("countries", VList (country_row <$> exchange_sort (length rows) rows))]).

(** ** The dashboard *)

(** [dashboardNodes] *)
Definition dashboard_node (n : node) : value :=
  VMap ([("id", VStr (Node.ID n)); ("protocol", VStr (Node.Protocol n)); ("name", VStr (Node.Name n)); ("source", VStr (Node.Source n))]
        ++ omit_empty "country" (Node.Country n)
        ++ (if LatencyMS n =? 0 then [] else [("latency_ms", VInt (LatencyMS n))])
        ++ [("score", VFloat (Node.Score n)); ("grade", VStr (Node.Grade n))]).
Definition top_filter : NodeFilter.t :=
  NodeFilter.zero <| NodeFilter.AliveOnly := true |> <| NodeFilter.HighQuality := true |> <| NodeFilter.Limit := 6 |>.
(** [dashboardCountries] *)
Definition code_of (n : node) : string := let code := countryCode (Node.Country n) in if (code =? "")%string then "XX" else code.
Definition dashboard_less (a b : string * Z) : bool :=
  if negb (a.2 =? b.2) then b.2 <? a.2 else String.ltb a.1 b.1.
Definition dashboardCountries (s : api) : list value :=
  let nodes := ListNodes (NodeFilter.zero <| NodeFilter.AliveOnly := true |> <| NodeFilter.HighQuality := true |>
                 <| NodeFilter.MinScore := FilterConfig.MinScore (Config.Filter (Api.Cfg s)) |> <| NodeFilter.Limit := 5000 |>)
                 (nodes_of s) in
  country_row <$> take 8 (stable_sort dashboard_less (range_counts (tally (λ n, Some (code_of n)) nodes))).
(** [dashboardSources] *)
Definition source_row (effective : list string) (states : Sources.t) (name : string) : value :=
  let st := state_of states name in
  VMap [("name", VStr name); ("effective_enabled", VBool (bool_decide (name ∈ effective)));
        ("contribution_total", VInt (SourceState.ContributionTotal st)); ("contribution_hq", VInt (SourceState.ContributionHQ st));
        ("health_score", VFloat (SourceState.HealthScore st)); ("latency_ms", VInt (SourceState.LatencyMS st))].
Definition unhealthier (states : Sources.t) (a b : string) : bool :=
  let ha := SourceState.HealthScore (state_of states a) in
  let hb := SourceState.HealthScore (state_of states b) in
  if negb (f_eq ha hb) then f_lt ha hb else String.ltb a b.
Definition dashboardSources (s : api) : list value :=
  let states := Service.States (Api.Svc s) in
  let effective := Source.Name <$> Sources.EnabledSources (Api.Cfg s) states (clock e 3%nat) in
  source_row effective states <$> take 5 (stable_sort (unhealthier states) (Source.Name <$> Config.Sources (Api.Cfg s))).
(** [publicDashboard]; [healthy] is what the database and Redis answer. *)
Definition publicDashboard (healthy : bool) (s : api) : value :=
  let b := Publish.Get (Service.Pub (Api.Svc s)) in
  VMap [("updated_at", VStr (FormatRFC3339 (clock e 1%nat))); ("stats", VStats (stats s));
        ("health", VMap [("ok", VBool healthy); ("nodes", VInt (Count (nodes_of s)));
           ("running_job", VBool (negb (bool_decide (Service.Active (Api.Svc s) = ∅))));
           ("publish_count", VInt (from_option Blob.Count 0 b));
           ("publish_fresh", VBool (Fresh b (publishCacheMaxAge (Api.Cfg s)) (clock e 4%nat)))]);
        ("trends", VList (match DB s with
                          | None => []
                          | Some h => VMetric <$> DailyNodeMetrics (clock e 5%nat) "" 30 (History.metrics h) end));
        ("top", VList (dashboard_node <$> ListNodes top_filter (nodes_of s)));
        ("countries", VList (dashboardCountries s)); ("sources", VList (dashboardSources s))].
Definition handlePublicDashboard (healthy : bool) (r : request) : http unit :=
  let? s := state in writeJSON (publicDashboard healthy s).

(** ** Purity: [handlePuritySummary] *)

Definition with_purity (n : node) : option (node * PurityResult.t) := (λ p, (n, p)) <$> Node.Purity n.

Definition purity_row (np : node * PurityResult.t) : value :=
  let '(n, p) := np in
  VMap ([("id", VStr (Node.ID n)); ("name", VStr (Node.Name n)); ("country", VStr (Node.Country n)); ("protocol", VStr (Node.Protocol n))]
        ++ omit_empty "exit_ip" (PurityResult.ExitIP p)
        ++ [("clean_score", VInt (PurityResult.CleanScore p)); ("risk_score", VInt (PurityResult.RiskScore p))]
        ++ omit_empty "grade" (PurityResult.Grade p)
        ++ [("is_proxy", VBool (PurityResult.IsProxy p)); ("is_hosting", VBool (PurityResult.IsHosting p))]
        ++ omit_empty "cf_challenge" (PurityResult.CFChallenge p)
        ++ [("cf_human_likely", VBool (PurityResult.CFHumanLikely p))] ++ omit_empty "isp" (PurityResult.ISP p)).
Definition clean_score (np : node * PurityResult.t) : Z := PurityResult.CleanScore np.2.
Definition purity_disclaimer : string :=
  "CF human check is heuristic (challenge page detection), not real Turnstile solve. Scores use ip-api proxy/hosting flags + CF signals.".
Definition purity_value (nodes : list node) : value :=
  let tested := omap with_purity nodes in
  let sum := foldl (λ a np, wrap64 (a + clean_score np)) 0 tested in
  let total := Z.of_nat (length tested) in
  VMap [("verified_total", VInt (Z.of_nat (length nodes))); ("purity_tested", VInt total);
    ("avg_clean_score", VInt (if 0 <? total then Z.quot sum total else 0));
    ("cf_human_likely", VInt (count_if (λ np, PurityResult.CFHumanLikely np.2) tested));
    ("clean_score_ge70", VInt (count_if (λ np, 70 <=? clean_score np) tested));
    ("by_grade", counts (tally (λ np, some_if (negb (PurityResult.Grade np.2 =? "")%string) (PurityResult.Grade np.2)) tested));
    ("nodes", VList (purity_row <$> exchange_by clean_score (length tested) tested)); ("disclaimer", VStr purity_disclaimer)].
Definition handlePuritySummary (r : request) : http unit :=
  let? s := state in
  writeJSON (purity_value (ListNodes (dialled_lately s
    (NodeFilter.zero <| NodeFilter.VerifiedOnly := true |> <| NodeFilter.Limit := 5000 |>)) (nodes_of s))).

(** ** Dialling: [handleDialStatus] *)

(** The programs asked for, and those found; [resolve] is [dialer.AvailableFor]. *)
Definition requested_engines (d : DialConfig.t) : list (string * string) :=
  if (DialConfig.Engine d =? "both")%string then [(DialConfig.Bin d, "sing-box"); (DialConfig.MihomoBin d, "mihomo")]
  else if (DialConfig.Engine d =? "mihomo")%string && negb (DialConfig.MihomoBin d =? "")%string
  then [(DialConfig.MihomoBin d, DialConfig.Engine d)] else [(DialConfig.Bin d, DialConfig.Engine d)].
Fixpoint resolve_all (resolve : string → string → result (string * string)) (l : list (string * string))
    (found : gmap string string) : result (gmap string string) :=
  match l with
  | [] => Ok found
  | (bin, engine) :: l => let! (bin, engine) := resolve bin engine in resolve_all resolve l (<[engine := bin]> found)
  end.
Definition handleDialStatus (resolve : string → string → result (string * string)) (hint : string) (r : request) : http unit :=
  let? s := state in
  let d := Config.Dial (Api.Cfg s) in
  let verified := ListNodes (dialled_lately s (NodeFilter.zero <| NodeFilter.VerifiedOnly := true |> <| NodeFilter.Limit := 5000 |>))
                    (nodes_of s) in
  writeJSON (VMap ([("enabled", VBool (DialConfig.Enabled d)); ("engine", VStr (DialConfig.Engine d)); ("bin", VStr (DialConfig.Bin d));
    ("mihomo_bin", VStr (DialConfig.MihomoBin d)); ("concurrency", VInt (DialConfig.Concurrency d));
    ("timeout_sec", VInt (DialConfig.TimeoutSec d)); ("test_url", VStr (DialConfig.TestURL d));
    ("download_bytes", VInt (DialConfig.DownloadBytes d)); ("sample_percent", VFloat (DialConfig.SamplePercent d));
    ("max_nodes", VInt (DialConfig.MaxNodes d)); ("batch_size", VInt (DialConfig.BatchSize d));
    ("after_quality", VBool (DialConfig.AfterQuality d)); ("after_quality_max", VInt (DialConfig.AfterQualityMax d));
    ("verified_ttl_hours", VInt (DialConfig.VerifiedTTLHours d)); ("all_hq", VBool (DialConfig.MaxNodes d <=? 0));
    ("verified_count", VInt (Z.of_nat (length verified)))]
    ++ match resolve_all resolve (requested_engines d) ∅ with
       | Ok found => [("available", VBool true); ("resolved", VMap ((λ kv, (kv.1, VStr kv.2)) <$> map_to_list found))]
       | Err err => [("available", VBool false); ("error", VStr (err_text err)); ("hint", VStr hint)]
       end)).

(** ** Exports *)

(** [exportFilter], [nodesFromExportQuery] *)
Definition exportFilter (r : request) : NodeFilter.t :=
  let limit := query_int r "limit" in
  let minScore := (ParseFloat (query r "min_score")).1 in
  NodeFilter.zero <| NodeFilter.Protocol := query r "protocol" |> <| NodeFilter.Country := query r "country" |>
    <| NodeFilter.AliveOnly := negb (query r "alive" =? "0")%string |>
    <| NodeFilter.MinScore := if f_eq minScore f_zero && is_set r "hq" then f_of_Z 70 else minScore |>
    <| NodeFilter.AIKey := query r "ai" |> <| NodeFilter.Limit := if limit <=? 0 then 500 else limit |>
    <| NodeFilter.HighQuality := (query r "hq" =? "1")%string |>.
Definition nodesFromExportQuery (r : request) (s : api) : list node :=
  match ListNodes (exportFilter r) (nodes_of s) with
  | [] => live_nodes e s ""
  | nodes => nodes
  end.
(** [ensureExport]: exports are for operators, and logged. *)
Definition ensureExport (r : request) : http unit :=
  let? p := requireRole am e r RoleOperator in
  audit e (Actor (Some p)) "export.download" (Request.Path r) 1%nat.
Definition export_name (f : format) : string :=
  match f with FRaw => "nodes.txt" | FBase64 => "nodes.base64.txt" | FClash => "nodes.clash.yaml" end.
(** [handleExportRaw], [handleExportBase64], [handleExportClash] *)
Definition handleExport (f : format) (r : request) : http unit :=
  let? _ := ensureExport r in
  let? s := state in
  let? body := or_crash (render f (nodesFromExportQuery r s)) in
  let? _ := SetHeaders [("Content-Type", content_type f); ("Content-Disposition", "attachment; filename=" +:+ export_name f)] in
  reply 200 (Text body).

(** [handlePools], [handlePoolExportRaw] *)
Definition pool_url (cfg : config) (key format : string) : value :=
  VStr (PublishConfig.PathPrefix (Config.Publish cfg) +:+ "/pool/" +:+ key +:+ "/" +:+ format).
Definition handlePools (r : request) : http unit :=
  let? s := state in
  writeJSON (VList ((λ p,
    let key := Named.Key p in
    VMap [("key", VStr key); ("title", VStr (Named.Title p)); ("description", VStr (Named.Description p));
      ("count", VInt (Z.of_nat (length (Pools.Select (clock e 1%nat) (Some (nodes_of s)) p))));
      ("refresh_sec", VInt (Named.RefreshSec p)); ("min_score", VFloat (Named.MinScore p)); ("max_nodes", VInt (Named.MaxNodes p));
      ("urls", VMap [("raw", pool_url (Api.Cfg s) key "raw"); ("base64", pool_url (Api.Cfg s) key "base64");
                     ("clash", pool_url (Api.Cfg s) key "clash")])]) <$> Configured (Some (Api.Cfg s)))).
Definition handlePoolExportRaw (r : request) : http unit :=
  let? _ := ensureExport r in
  let? s := state in
  match Pools.Find (Some (Api.Cfg s)) (path_value r "key") with
  | None => Error "unknown pool" 404
  | Some p =>
      let? body := or_crash (render FRaw (Pools.Select (clock e 2%nat) (Some (nodes_of s)) p)) in
      let? _ := SetHeader "Content-Type" (content_type FRaw) in
      reply 200 (Text body)
  end.
End views.
