(* ===== verification/Status.v ===== *)
(** * The state of the server, its sources and its settings: [internal/api/server.go]

    Health and readiness, the configuration that is shown, the listing of the
    sources with their URLs redacted, and the streams of events.  What the
    database, Redis, the file system and the build say is the record
    [Outside.t]. *)
From S2P Require Import Prelude Sql GoStr GoFloat GoTime Model Base64 Tasks Tokens Users Jobs Alerts Auth.
From S2P Require Import NetAddr Ratelimit Config Filter NodeStore NodesDB Pools NetUrl Links Clash Exporter Publish DialJob Select.
From S2P Require Import Fetch Sources Runner Geo Web Serve Admin Views.

Module Outside.
Record t := mk {
  DbPing : option string;
  HotCache : option (option string);
  Writable : option string;
  GeoReady : bool;
  Version : string;
  Info : list (string * value);
  UptimeSec : Z;
}.
End Outside.
Abbreviation outside := Outside.t.

(** [strings.ReplaceAll], of a text that is not empty *)
Fixpoint replace_bytes (old new : bytes) (skip : nat) (l : bytes) : bytes :=
  match l with
  | [] => []
  | c :: rest =>
      match skip with
      | S skip => replace_bytes old new skip rest
      | O => if bool_decide (take (length old) l = old) then new ++ replace_bytes old new (length old - 1) rest
             else c :: replace_bytes old new 0 rest
      end
  end.
(** Between the runes and at both ends, when it is empty *)
Definition replace_empty (new : bytes) (s : string) : bytes :=
  new ++ mjoin ((λ r, default rune_error r ++ new) <$> runes s).
Definition ReplaceAll (s old new : string) : string :=
  implode (if (old =? "")%string then replace_empty (explode new) s else replace_bytes (explode old) (explode new) 0 (explode s)).

(** ** URLs without their secrets *)

(** The path of a URL as it is written *)
Definition raw_path (raw : string) : bytes :=
  let '(u, _) := cut_or raw "#" in
  match get_scheme [] (explode u) with
  | Some (_, rest) =>
      match fst (split_query rest) with
      | "/"%char :: "/"%char :: r => match cut_on "/" r with Some (_, p) => "/"%char :: p | None => [] end
      | p => p
      end
  | None => []
  end.
(** [validEncoded], [URL.EscapedPath] *)
Definition path_byte (c : ascii) : bool := one_of "!$&'()*+,;=:@[]%" c || negb (shouldEscape c encodePath).
Definition EscapedPath (raw : bytes) : string :=
  match unescape_bytes encodePath raw with
  | Some p => if forallb path_byte raw || bool_decide (raw = escape_bytes encodePath p)
              then implode raw else implode (escape_bytes encodePath p)
  | None => implode raw
  end.
(** [redactSourceURL] *)
Definition redactSourceURL `{Unicode} (raw : string) : string :=
  match ParseURL raw with
  | None => ""
  | Some u =>
      if (URL.Host u =? "")%string then ""
      else (if (URL.Scheme u =? "")%string then "" else URL.Scheme u +:+ ":")
             +:+ "//" +:+ escape encodeHost (URL.Host u) +:+ EscapedPath (raw_path raw)
  end.

Section status.
Context `{TzData} `{LenientParse} `{Unicode} `{Crypto} `{ClaimsCodec} `{NetIP} `{LocalCalendar} `{MapRange} `{CountRange}.
Context (am : Manager.t) (e : env) (out : outside).

(** ** Health *)

Definition db_ok (s : api) : bool := bool_decide (DB s = None) || bool_decide (Outside.DbPing out = None).
Definition redis_ok : bool := match Outside.HotCache out with Some (Some _) => false | _ => true end.
Definition failing_sources (s : api) : Z :=
  Z.of_nat (length (List.filter (λ kv, 0 <? SourceState.ConsecutiveFailures kv.2)
    (map_to_list (Sources.States (Service.States (Api.Svc s)))))).
(** [handleHealth] *)
Definition handleHealth (r : request) : http unit :=
  let? s := state in
  let cfg := Api.Cfg s in
  let b := Publish.Get (Service.Pub (Api.Svc s)) in
  writeJSON (VMap [("ok", VBool (db_ok s && redis_ok)); ("time", VStr (FormatRFC3339 (clock e 1%nat))); ("tz", VStr "Asia/Shanghai");
    ("version", VStr (Outside.Version out)); ("uptime_sec", VInt (Outside.UptimeSec out)); ("nodes", VInt (Count (nodes_of s)));
    ("running_job", VBool (negb (bool_decide (Service.Active (Api.Svc s) = ∅)))); ("geo_mmdb", VBool (Outside.GeoReady out));
    ("database", VMap [("driver", VStr (DatabaseConfig.Driver (Config.Database cfg))); ("ok", VBool (db_ok s))]);
    ("redis", VMap [("enabled", VBool (RedisConfig.Enabled (Config.Redis cfg))); ("ok", VBool redis_ok)]);
    ("publish_count", VInt (from_option Blob.Count 0 b)); ("publish_updated_at", VStr (from_option Blob.UpdatedAt "" b));
    ("publish_fresh", VBool (Fresh b (publishCacheMaxAge cfg) (clock e 4%nat)));
    ("schedule", VBool (ScheduleConfig.Enabled (Config.Schedule cfg))); ("sources_unhealthy", VInt (failing_sources s))]).

(** [handleReady]: the reasons why not *)
Definition reasons (s : api) : list string :=
  let cfg := Api.Cfg s in
  let why prefix err := match err with Some err => [prefix +:+ ": " +:+ err] | None => [] end in
  (if DatabaseConfig.Enabled (Config.Database cfg)
   then why "database" (if bool_decide (DB s = None) then Some "unavailable" else Outside.DbPing out) else [])
  ++ (if RedisConfig.Enabled (Config.Redis cfg) then why "redis" (default (Some "unavailable") (Outside.HotCache out)) else [])
  ++ why "export" (Outside.Writable out).
Definition handleReady (r : request) : http unit :=
  let? s := state in
  let ready := bool_decide (reasons s = []) in
  let? _ := SetHeader "Content-Type" "application/json; charset=utf-8" in
  reply (if ready then 200 else 503) (Json (VMap [("ready", VBool ready); ("reasons", VList (VStr <$> reasons s));
    ("time", VStr (FormatRFC3339 (clock e 1%nat)))])).

(** [handleVersion], [handleTerms], [handleAITargets], [handleHostAI] *)
Definition handleVersion (r : request) : http unit := writeJSON (VMap (Outside.Info out)).
Definition handleTerms (r : request) : http unit :=
  let? s := state in
  writeJSON (VMap [("title", VStr "nodeharvest acceptable use");
    ("terms_url", VStr (GovernanceConfig.TermsURL (Config.Governance (Api.Cfg s))));
    ("notice", VStr "Collected endpoints are supplied by independent third parties without availability or safety guarantees.");
    ("restrictions", VList [VStr "Use only where lawful and authorized.";
       VStr "Do not use the service for abuse, intrusion, evasion, or unlawful access.";
       VStr "Operators may disable sources, credentials, or tenants that violate this policy."])]).
Definition target_value (t : AITarget.t) : value :=
  VMap [("key", VStr (AITarget.Key t)); ("name", VStr (AITarget.Name t)); ("url", VStr (AITarget.URL t)); ("host", VStr (AITarget.Host t))].
Definition handleAITargets (r : request) : http unit := writeJSON (VList (target_value <$> DefaultAITargets)).
Definition probe_value (p : AIProbeResult.t) : value :=
  VMap ([("target", VStr (AIProbeResult.Target p)); ("url", VStr (AIProbeResult.URL p)); ("ok", VBool (AIProbeResult.OK p))]
        ++ (if AIProbeResult.StatusCode p =? 0 then [] else [("status_code", VInt (AIProbeResult.StatusCode p))])
        ++ (if AIProbeResult.LatencyMS p =? 0 then [] else [("latency_ms", VInt (AIProbeResult.LatencyMS p))])
        ++ omit_empty "error" (AIProbeResult.Error p) ++ omit_empty "mode" (AIProbeResult.Mode p)).
Definition handleHostAI (r : request) : http unit :=
  let? s := state in
  match HostAI (nodes_of s) with
  | Err _ => crash
  | Ok m => writeJSON (VMap ((λ kv, (kv.1, probe_value kv.2)) <$> map_to_list m))
  end.

(** ** The settings: [handleConfig] *)

Definition strings (l : list string) : value := VList (VStr <$> l).
Definition set_flag (s : string) : value := VBool (negb (s =? "")%string).
Definition publish_settings (p : PublishConfig.t) : value :=
  VMap [("enabled", VBool (PublishConfig.Enabled p)); ("path_prefix", VStr (PublishConfig.PathPrefix p));
    ("token_set", set_flag (PublishConfig.Token p)); ("min_score", VFloat (PublishConfig.MinScore p));
    ("max_nodes", VInt (PublishConfig.MaxNodes p)); ("alive_only", VBool (PublishConfig.AliveOnly p));
    ("max_node_age_hours", VInt (PublishConfig.MaxNodeAgeHours p)); ("public_url", VStr (PublishConfig.PublicURL p));
    ("formats", strings (PublishConfig.Formats p)); ("pre_render", VBool (PublishConfig.PreRender p));
    ("cache_sec", VInt (PublishConfig.CacheSec p))].
Definition server_settings (c : ServerConfig.t) : value :=
  VMap [("read_timeout_sec", VInt (ServerConfig.ReadTimeoutSec c)); ("write_timeout_sec", VInt (ServerConfig.WriteTimeoutSec c));
    ("idle_timeout_sec", VInt (ServerConfig.IdleTimeoutSec c)); ("max_header_bytes", VInt (ServerConfig.MaxHeaderBytes c));
    ("allowed_origins", strings (ServerConfig.AllowedOrigins c)); ("trusted_proxies", strings (ServerConfig.TrustedProxies c))].
Definition sub_store_settings (c : SubStoreConfig.t) : value :=
  let backend := SubStoreConfig.PublicURL c +:+ SubStoreConfig.BackendPath c in
  VMap [("enabled", VBool (SubStoreConfig.Enabled c)); ("public_url", VStr (SubStoreConfig.PublicURL c));
    ("backend_path", VStr (SubStoreConfig.BackendPath c));
    ("frontend_url", VStr (if SubStoreConfig.Enabled c then SubStoreConfig.PublicURL c +:+ "?api=" +:+ QueryEscape backend else ""));
    ("version", VStr (SubStoreConfig.Version c))].
Definition governance_settings (g : GovernanceConfig.t) : value :=
  VMap [("disable_after_failures", VInt (GovernanceConfig.DisableAfterFailures g)); ("cooldown_hours", VInt (GovernanceConfig.CooldownHours g));
    ("hq_drop_percent", VFloat (GovernanceConfig.HQDropPercent g)); ("country_share_percent", VFloat (GovernanceConfig.CountrySharePercent g));
    ("terms_url", VStr (GovernanceConfig.TermsURL g)); ("alert_webhook_set", set_flag (GovernanceConfig.AlertWebhookURL g))].
Definition dial_settings (d : DialConfig.t) : value :=
  VMap [("enabled", VBool (DialConfig.Enabled d)); ("engine", VStr (DialConfig.Engine d)); ("after_quality", VBool (DialConfig.AfterQuality d));
    ("after_quality_max", VInt (DialConfig.AfterQualityMax d)); ("sample_percent", VFloat (DialConfig.SamplePercent d));
    ("download_bytes", VInt (DialConfig.DownloadBytes d)); ("verified_ttl_hours", VInt (DialConfig.VerifiedTTLHours d))].
Definition settings (cfg : config) (enabled : Z) : value :=
  let app := Config.App cfg in
  let f := Config.Filter cfg in
  let sch := Config.Schedule cfg in
  let geo := Config.Geo cfg in
  let q := Config.Queue cfg in
  let a := Config.Auth cfg in
  let o := Config.Observability cfg in
  VMap [("concurrency", VInt (AppConfig.Concurrency app)); ("fetch_timeout", VInt (AppConfig.FetchTimeoutSec app));
    ("test_timeout", VInt (AppConfig.TestTimeoutSec app)); ("max_latency_ms", VInt (FilterConfig.MaxLatencyMS f));
    ("max_nodes", VInt (FilterConfig.MaxNodes f)); ("min_score", VFloat (FilterConfig.MinScore f));
    ("prune_after_quality", VBool (FilterConfig.PruneAfterQuality f)); ("protocols", strings (Config.Protocols cfg));
    ("sources_enabled", VInt enabled); ("sources_total", VInt (Z.of_nat (length (Config.Sources cfg))));
    ("version", VStr (Outside.Version out));
    ("schedule", VMap [("enabled", VBool (ScheduleConfig.Enabled sch)); ("interval_min", VInt (ScheduleConfig.IntervalMin sch));
       ("job", VStr (ScheduleConfig.Job sch)); ("skip_ai", VBool (ScheduleConfig.SkipAI sch))]);
    ("publish", publish_settings (Config.Publish cfg));
    ("security", VMap [("allow_query_token", VBool (SecurityConfig.AllowQueryToken (Config.Security cfg)));
       ("sub_rps", VFloat (SecurityConfig.SubRPS (Config.Security cfg)))]);
    ("sqlite", VBool (SQLiteConfig.Enabled (Config.SQLite cfg))); ("server", server_settings (Config.Server cfg));
    ("geo", VMap [("enabled", VBool (GeoConfig.Enabled geo)); ("mmdb", VBool (Outside.GeoReady out));
       ("asn_mmdb", set_flag (GeoConfig.ASNDBPath geo))]);
    ("database", VMap [("enabled", VBool (DatabaseConfig.Enabled (Config.Database cfg)));
       ("driver", VStr (DatabaseConfig.Driver (Config.Database cfg)))]);
    ("redis", VMap [("enabled", VBool (RedisConfig.Enabled (Config.Redis cfg)))]);
    ("queue", VMap [("enabled", VBool (QueueConfig.Enabled q)); ("embedded_workers", VInt (QueueConfig.EmbeddedWorkers q));
       ("max_pending", VInt (QueueConfig.MaxPending q))]);
    ("auth", VMap [("local_enabled", VBool (AuthConfig.LocalEnabled a)); ("admin_host", VStr (AuthConfig.AdminHost a));
       ("public_host", VStr (AuthConfig.PublicHost a))]);
    ("sub_store", sub_store_settings (Config.SubStore cfg)); ("governance", governance_settings (Config.Governance cfg));
    ("dial", dial_settings (Config.Dial cfg));
    ("observability", VMap [("otel_enabled", set_flag (ObservabilityConfig.OTLPEndpoint o));
       ("service_name", VStr (ObservabilityConfig.ServiceName o)); ("sample_ratio", VFloat (ObservabilityConfig.SampleRatio o))])].
Definition handleConfig (r : request) : http unit :=
  let? s := state in
  let enabled := Sources.EnabledSources (Api.Cfg s) (Service.States (Api.Svc s)) (clock e 1%nat) in
  writeJSON (settings (Api.Cfg s) (Z.of_nat (length enabled))).

(** ** Sources: [handleSources] *)

Definition success_rate (st : SourceState.t) : float64 :=
  if 0 <? SourceState.FetchCount st then f_div (f_of_Z (SourceState.SuccessCount st)) (f_of_Z (SourceState.FetchCount st)) else f_zero.
Definition shown_error (isAdmin : bool) (url lastError : string) : string :=
  if isAdmin then lastError else ReplaceAll lastError url (redactSourceURL url).
Definition source_value (isAdmin : bool) (effective : list string) (states : Sources.t) (src : Source.t) : value :=
  let st := state_of states (Source.Name src) in
  let url := Source.URL src in
  VMap ([("name", VStr (Source.Name src)); ("type", VStr (Source.Type_ src));
    ("url", VStr (if isAdmin then url else redactSourceURL url)); ("enabled", VBool (Source.Enabled src));
    ("priority", VInt (Source.Priority src)); ("max_bytes", VInt (Source.MaxBytes src))]
    ++ omit_empty "last_attempt_at" (SourceState.LastAttemptAt st) ++ omit_empty "last_success_at" (SourceState.LastSuccessAt st)
    ++ omit_empty "last_error" (shown_error isAdmin url (SourceState.LastError st))
    ++ [("consecutive_failures", VInt (SourceState.ConsecutiveFailures st)); ("fetch_count", VInt (SourceState.FetchCount st));
        ("success_rate", VFloat (success_rate st)); ("latency_ms", VInt (SourceState.LatencyMS st)); ("bytes", VInt (SourceState.Bytes st));
        ("status_code", VInt (SourceState.StatusCode st))]
    ++ omit_empty "disabled_until" (SourceState.DisabledUntil st)
    ++ [("manually_disabled", VBool (SourceState.ManuallyDisabled st));
        ("effective_enabled", VBool (bool_decide (Source.Name src ∈ effective)));
        ("contribution_total", VInt (SourceState.ContributionTotal st)); ("contribution_hq", VInt (SourceState.ContributionHQ st));
        ("health_score", VFloat (SourceState.HealthScore st))]).
Definition source_order (sortBy : string) (states : Sources.t) (a b : Source.t) : bool :=
  let st x := state_of states (Source.Name x) in
  if (sortBy =? "health")%string then f_lt (SourceState.HealthScore (st b)) (SourceState.HealthScore (st a))
  else if (sortBy =? "contribution")%string then SourceState.ContributionHQ (st b) <? SourceState.ContributionHQ (st a)
  else if (sortBy =? "success")%string then f_lt (success_rate (st b)) (success_rate (st a))
  else Source.Priority b <? Source.Priority a.
Definition source_sorts : list string := [""; "priority"; "health"; "contribution"; "success"].
Definition handleSources (r : request) : http unit :=
  let? s := state in
  let sortBy := ToLower (TrimSpace (query r "sort")) in
  if negb (bool_decide (sortBy ∈ source_sorts)) then Error "sort must be priority, health, contribution, or success" 400
  else
    let states := Service.States (Api.Svc s) in
    let effective := Source.Name <$> Sources.EnabledSources (Api.Cfg s) states (clock e 1%nat) in
    let show := source_value (hasRole am e r RoleAdmin) effective states in
    let list := stable_sort (source_order sortBy states) (Config.Sources (Api.Cfg s)) in
    if negb (wantsPage r) then writeJSON (VList (show <$> list))
    else
      match pageSlice Source.Name list (query r "cursor") (requestedPageLimit r 25) with
      | None => Error "invalid cursor" 400
      | Some (page, next) =>
          writeJSON (page_value "sources" (Z.of_nat (length list)) (show <$> page) next (negb (next =? "")%string))
      end.

(** ** Events: [serveDashboardEvents]

    The events of one round, with their data; a round follows every three
    seconds until the client leaves, and each is written when it is due. *)
Definition round_events (management : bool) (s : api) : list (string * value) :=
  ("dashboard", publicDashboard e (db_ok s && redis_ok) s)
  :: (if management then [("refresh", VMap [("at", VStr (FormatRFC3339 (clock e 6%nat)))])] else []).
Definition serveDashboardEvents (management : bool) : http unit :=
  let? s := state in
  let? _ := SetHeaders [("Content-Type", "text/event-stream"); ("Cache-Control", "no-cache, no-transform");
                        ("Connection", "keep-alive"); ("X-Accel-Buffering", "no")] in
  reply 200 (Json (VList ((λ ev, VMap [("event", VStr ev.1); ("data", ev.2)]) <$> round_events management s))).
(** [handlePublicDashboardEvents], [handleEvents] *)
Definition handlePublicDashboardEvents (r : request) : http unit := serveDashboardEvents false.
Definition handleEvents (r : request) : http unit :=
  let? _ := requireRole am e r RoleViewer in serveDashboardEvents true.
End status.
