(* ===== verification/Scheduler.v ===== *)
(** * The scheduler: [internal/scheduler/scheduler.go]

    The goroutine that starts a job at every tick of its interval, as a state
    machine over what it meets ([sched_event]); [submit] is the service's start
    of a job of a type. *)
From S2P Require Import Prelude Sql GoStr GoFloat GoTime Model Base64 Tasks Tokens Users Jobs Alerts Auth.
From S2P Require Import NetAddr Ratelimit Config Filter NodeStore NodesDB Pools NetUrl Links Clash Publish Fetch Sources Runner Web.

(** What the goroutine is doing: waiting out the first delay, waiting for
    ticks, nothing *)
Inductive phase := Idle | Delaying | Ticking.
#[export] Instance phase_eq_dec : EqDecision phase.
Proof. solve_decision. Defined.

(** [Scheduler]; [Phase] is its goroutine, which is there while [running] *)
Module Scheduler.
Record t := mk {
  Phase : phase;
  lastRun : option Time;
  lastJobID : string;
  lastErr : string;
  nextRun : option Time;
  runCount : Z;
}.
#[export] Instance eta : Eta t := λ s, mk (Phase s) (lastRun s) (lastJobID s) (lastErr s) (nextRun s) (runCount s).
Definition New : t := mk Idle None "" "" None 0.
End Scheduler.
Export (hints) Scheduler.

(** What it meets: a start, with the random delay, which may be none; the end
    of the delay and a tick, each with what its job meets and the clock after it; a stop *)
Inductive sched_event :=
  | EvStart (now : Time) (delay : Duration)
  | EvDelayed (after_fire next : Time)
  | EvTick (at_ now : Time)
  | EvStop.

Section scheduler.
Context `{TzData} `{LenientParse}.
Context (cfg : config).
Context (submit : sched_event → string → gmap string json → Service.t → result Job.t * Service.t).

Definition interval : Duration := ScheduleInterval cfg.
Definition jitter : Duration := wrap64 (ScheduleConfig.JitterSec (Config.Schedule cfg) * Second).
Definition running (s : Scheduler.t) : bool := negb (bool_decide (Scheduler.Phase s = Idle)).

(** [fire]: the options and the type of the job, and what becomes of it *)
Definition fire_options (reason : string) : gmap string json :=
  let sch := Config.Schedule cfg in
  let opts := list_to_map [("max_test", JNum (f_of_Z (ScheduleConfig.MaxTest sch))); ("rounds", JNum (f_of_Z (ScheduleConfig.Rounds sch)));
                ("scheduled", JBool true); ("reason", JStr reason)] in
  if ScheduleConfig.SkipAI sch then <["skip_ai" := JBool true]> opts else opts.
Definition fire_type : string :=
  let job := ScheduleConfig.Job (Config.Schedule cfg) in
  if bool_decide (job ∈ ["fetch"; "quality"]) then job else "full".
Definition fire (ev : sched_event) (reason : string) (now : Time) (st : Scheduler.t * Service.t) : Scheduler.t * Service.t :=
  let '(j, svc) := submit ev fire_type (fire_options reason) st.2 in
  let s := st.1 <| Scheduler.lastRun := Some now |> <| Scheduler.runCount := Scheduler.runCount st.1 + 1 |> in
  (match j with
   | Err err => s <| Scheduler.lastErr := err_text err |> <| Scheduler.lastJobID := "" |>
   | Ok j => s <| Scheduler.lastErr := "" |> <| Scheduler.lastJobID := Job.ID j |>
   end, svc).

(** [Start], [Stop] and the turns of [loop] *)
Definition set_next (t : Time) (s : Scheduler.t) : Scheduler.t := s <| Scheduler.nextRun := Some t |>.
Definition begin_ticking (ev : sched_event) (after_fire next : Time) (st : Scheduler.t * Service.t) : Scheduler.t * Service.t :=
  let '(s, svc) := if ScheduleConfig.RunOnStart (Config.Schedule cfg) then fire ev "startup" after_fire st else st in
  (set_next (next + interval) s <| Scheduler.Phase := Ticking |>, svc).
Definition sched_step (ev : sched_event) (st : Scheduler.t * Service.t) : Scheduler.t * Service.t :=
  let '(s, svc) := st in
  match ev, Scheduler.Phase s with
  | EvStart now delay, Idle =>
      if negb (ScheduleConfig.Enabled (Config.Schedule cfg)) then st
      else ((if 0 <? jitter then set_next (now + delay) s else s) <| Scheduler.Phase := Delaying |>, svc)
  | EvDelayed after_fire next, Delaying => begin_ticking ev after_fire next st
  | EvTick at_ now, Ticking =>
      let '(s, svc) := fire ev "interval" now st in (set_next (at_ + interval) s, svc)
  | EvStop, _ => (s <| Scheduler.Phase := Idle |>, svc)
  | _, _ => st
  end.

(** [Service.Job], [Status] *)
Definition service_job (id : string) (svc : Service.t) : option Job.t :=
  match Service.Db svc with
  | Some h => match Jobs.GetJob (History.jobs h) id with Ok j => Some j | Err _ => None end
  | None => NodeStore.GetJob id (Service.Nodes svc)
  end.
Definition time_field (k : string) (t : option Time) : list (string * value) :=
  match t with Some t => [(k, VStr (FormatRFC3339 t))] | None => [] end.
Definition last_job (s : Scheduler.t) (svc : Service.t) : list (string * value) :=
  let id := Scheduler.lastJobID s in
  if (id =? "")%string then []
  else
    match service_job id svc with
    | Some j => [("last_job", VMap [("id", VStr (Job.ID j)); ("type", VStr (Job.Type_ j)); ("status", VStr (Job.Status j));
                   ("progress", VFloat (Job.Progress j)); ("message", VStr (Job.Message j))])]
    | None => []
    end.
Definition Status (s : Scheduler.t) (svc : Service.t) : value :=
  let sch := Config.Schedule cfg in
  VMap ([("enabled", VBool (ScheduleConfig.Enabled sch)); ("running", VBool (running s)); ("interval_min", VInt (ScheduleConfig.IntervalMin sch));
    ("job", VStr (ScheduleConfig.Job sch)); ("run_count", VInt (Scheduler.runCount s)); ("last_error", VStr (Scheduler.lastErr s));
    ("run_on_start", VBool (ScheduleConfig.RunOnStart sch)); ("skip_ai", VBool (ScheduleConfig.SkipAI sch));
    ("max_test", VInt (ScheduleConfig.MaxTest sch))]
    ++ time_field "last_run_at" (Scheduler.lastRun s) ++ time_field "next_run_at" (Scheduler.nextRun s)
    ++ [("tz", VStr "Asia/Shanghai")] ++ last_job s svc).
End scheduler.
