(* ===== verification/Routes.v ===== *)
(** * The routes: [internal/api/server.go]

    The table of the routes, the choice of a route for a request, and the whole
    server below its access log and its limiter.  The metrics page and the
    profiler, which other packages write, are not in the table. *)
From S2P Require Import Prelude Sql GoStr GoFloat GoTime Model Base64 Tasks Tokens Users Jobs Alerts Auth.
From S2P Require Import NetAddr Ratelimit Config ConfigCheck ConfigValid Filter NodeStore NodesDB Pools NetUrl Links Clash Content Exporter.
From S2P Require Import Publish Outbound Dial DialJob Select Fetch Sources Runtime Runner DialStage Geo Web Serve Admin Views Status Scheduler.

(** One constructor for each handler *)
Inductive endpoint :=
  | Health | Ready | AppVersion | Terms | Login | Logout | Me | SessionCheck | PublishCheck | PublicDashboard
  | PublicEvents | ManagementEvents | NodeStats | NodeList | OneNode | OneNodeMetrics | Trends | JobList | OneJob
  | OneJobEvents | StartJob (typ : string) | Cancel | DialStatus | PuritySummary | Countries | SourceList | AITargets
  | HostTargets | ExportAs (f : format) | Settings | Schedule | PoolList | PoolExport | TokenList | TokenCreate
  | TokenDelete | TokenEnable (en : bool) | AuditList | PublishRefresh | SourceEnable (en : bool) | SourceProbe
  | TaskList | TaskCancel | QueueState | UserList | UserCreate | UserEnable (en : bool) | ConfigUpdate | ConfigVersions
  | AlertList | AlertChange (acknowledge : bool) | SubIndex | SubAs (f : format) | SubMeta | SubPool | SubCountry.

(** [routes] and [mountPublish], with the patterns as they are registered *)
Definition api_routes : list (string * endpoint) := [
  ("GET /api/health", Health); ("GET /api/ready", Ready); ("GET /api/version", AppVersion); ("GET /api/terms", Terms);
  ("POST /api/v1/auth/login", Login); ("POST /api/v1/auth/logout", Logout); ("GET /api/v1/auth/me", Me);
  ("GET /api/v1/integrations/sub-store/session-check", SessionCheck);
  ("GET /api/v1/integrations/sub-store/publish-check", PublishCheck);
  ("GET /api/public/dashboard", PublicDashboard); ("GET /api/public/dashboard/events", PublicEvents);
  ("GET /api/v1/events", ManagementEvents); ("GET /api/stats", NodeStats); ("GET /api/nodes", NodeList);
  ("GET /api/nodes/{id}", OneNode); ("GET /api/nodes/{id}/metrics", OneNodeMetrics); ("GET /api/stats/trends", Trends);
  ("GET /api/jobs", JobList); ("GET /api/jobs/{id}", OneJob); ("GET /api/jobs/{id}/events", OneJobEvents);
  ("POST /api/jobs/fetch", StartJob "fetch"); ("POST /api/jobs/quality", StartJob "quality"); ("POST /api/jobs/ai", StartJob "ai");
  ("POST /api/jobs/full", StartJob "full"); ("POST /api/jobs/geo", StartJob "geo"); ("POST /api/jobs/dial", StartJob "dial");
  ("POST /api/jobs/purity", StartJob "purity"); ("POST /api/jobs/cancel", Cancel); ("GET /api/dial/status", DialStatus);
  ("GET /api/purity/summary", PuritySummary); ("GET /api/countries", Countries); ("GET /api/sources", SourceList);
  ("GET /api/ai/targets", AITargets); ("GET /api/ai/host", HostTargets); ("GET /api/export/raw", ExportAs FRaw);
  ("GET /api/export/base64", ExportAs FBase64); ("GET /api/export/clash", ExportAs FClash); ("GET /api/config", Settings);
  ("GET /api/schedule", Schedule); ("GET /api/pools", PoolList); ("GET /api/pools/{key}/export/raw", PoolExport);
  ("GET /api/admin/tokens", TokenList); ("POST /api/admin/tokens", TokenCreate); ("DELETE /api/admin/tokens/{id}", TokenDelete);
  ("POST /api/admin/tokens/{id}/enable", TokenEnable true); ("POST /api/admin/tokens/{id}/disable", TokenEnable false);
  ("GET /api/admin/audit", AuditList); ("POST /api/admin/publish/refresh", PublishRefresh);
  ("POST /api/admin/sources/{name}/enable", SourceEnable true); ("POST /api/admin/sources/{name}/disable", SourceEnable false);
  ("POST /api/admin/sources/{name}/probe", SourceProbe); ("GET /api/admin/tasks", TaskList);
  ("POST /api/admin/tasks/{id}/cancel", TaskCancel); ("GET /api/admin/queue", QueueState); ("GET /api/admin/users", UserList);
  ("POST /api/admin/users", UserCreate); ("POST /api/admin/users/{id}/enable", UserEnable true);
  ("POST /api/admin/users/{id}/disable", UserEnable false); ("PATCH /api/admin/config", ConfigUpdate);
  ("GET /api/admin/config/versions", ConfigVersions); ("GET /api/admin/alerts", AlertList);
  ("POST /api/admin/alerts/{id}/acknowledge", AlertChange true); ("POST /api/admin/alerts/{id}/resolve", AlertChange false)].
Definition mountPublish (prefix : string) : list (string * endpoint) :=
  let prefix := TrimRight prefix "/" in
  let at_ s := "GET " +:+ (if (prefix =? "")%string then "/sub" else prefix) +:+ s in
  [(at_ "", SubIndex); (at_ "/", SubIndex); (at_ "/raw", SubAs FRaw); (at_ "/base64", SubAs FBase64); (at_ "/clash", SubAs FClash);
   (at_ "/clash.yaml", SubAs FClash); (at_ "/meta", SubMeta); (at_ "/pool/{key}/{format}", SubPool);
   (at_ "/country/{code}/{format}", SubCountry)].
Definition own_prefix (cfg : config) : list (string * endpoint) :=
  let p := PublishConfig.PathPrefix (Config.Publish cfg) in
  if bool_decide (p ∈ [""; "/sub"; "/api/sub"]) then [] else mountPublish p.
Definition routes (cfg : config) : list (string * endpoint) :=
  (api_routes ++ mountPublish "/sub" ++ mountPublish "/api/sub" ++ own_prefix cfg)%list.

(** ** The choice of a route: [http.ServeMux]

    On paths without escapes.  A pattern that ends in a slash takes what no
    other pattern takes; other patterns of the table do not overlap. *)
Definition wildcard (seg : string) : option string :=
  match explode seg with
  | "{"%char :: rest => match rev rest with "}"%char :: name => Some (implode (rev name)) | _ => None end
  | _ => None
  end.
Fixpoint match_segments (pattern path : list string) (found : gmap string string) : option (gmap string string) :=
  match pattern, path with
  | [], [] => Some found
  | [""], _ :: _ => Some found
  | p :: pattern, s :: path =>
      match wildcard p with
      | Some name => if (s =? "")%string then None else match_segments pattern path (<[name := s]> found)
      | None => if (p =? s)%string then match_segments pattern path found else None
      end
  | _, _ => None
  end.
Definition subtree (pattern : string) : bool := HasSuffix pattern "/".
Definition match_path (pattern path : string) : option (gmap string string) :=
  match_segments (Split pattern "/") (Split path "/") ∅.
Definition method_ok (method got : string) : bool := (method =? got)%string || ((method =? "GET")%string && (got =? "HEAD")%string).
Definition route_of (r : request) (route : string * endpoint) : option (endpoint * gmap string string) :=
  '(method, path) ← Cut route.1 " ";
  if method_ok method (Request.Method r) then (λ vars, (route.2, vars)) <$> match_path path (Request.Path r) else None.
Definition first_route (r : request) (l : list (string * endpoint)) : option (endpoint * gmap string string) := head (omap (route_of r) l).
Definition find_route (r : request) (l : list (string * endpoint)) : option (endpoint * gmap string string) :=
  Geo.or_else (first_route r (List.filter (λ route, negb (subtree route.1)) l))
    (first_route r (List.filter (λ route, subtree route.1) l)).
(** Whether another method would be served *)
Definition known_path (r : request) (l : list (string * endpoint)) : bool :=
  existsb (λ route, match Cut route.1 " " with
                    | Some (_, path) => bool_decide (is_Some (match_path path (Request.Path r))) | None => false end) l.
(** [cleanPath]: no empty segments, no dots *)
Fixpoint clean_segments (acc l : list string) : list string :=
  match l with
  | [] => rev acc
  | s :: l => if bool_decide (s ∈ [""; "."]) then clean_segments acc l
              else if (s =? "..")%string then clean_segments (tail acc) l
              else clean_segments (s :: acc) l
  end.
Definition cleanPath (p : string) : string :=
  if (p =? "")%string then "/"
  else
    let segs := clean_segments [] (Split p "/") in
    "/" +:+ Join segs "/" +:+ (if HasSuffix p "/" && negb (bool_decide (segs = [])) then "/" else "").

(** ** The server *)

(** What the handlers meet besides the state *)
Module Context_.
Record t := mk {
  Out : outside;
  Net : Source.t → Z → Attempt.t;
  Lock : publish_lock;
  Saved : nat;
  Update_ : Update.t;
  Post : Alert.t → option error;
  Stages_ : Stages.t;
  Timing : timing;
  Trace : string * string;
  Resolve : string → string → result (string * string);
  Sched : option Scheduler.t;
}.
End Context_.

Section routes.
Context `{TzData} `{LenientParse} `{Unicode} `{Crypto} `{Bcrypt} `{ClaimsCodec} `{NetIP} `{UrlParser} `{PublicSuffix} `{PatchCodec}.
Context `{MapRange} `{CountRange} `{LinkJson} `{ClashCodec} `{MetaCodec} `{PolicyCodec} `{Quoting} `{FmtAny}.
Context `{BodyCodec} `{JobOptionsCodec} `{FloatParse} `{LocalCalendar}.
Context (am : Manager.t) (e : env) (c : Context_.t).

(** [handleSchedule] *)
Definition handleSchedule (r : request) : http unit :=
  let? s := state in
  writeJSON (match Context_.Sched c with
             | None => VMap [("enabled", VBool false)]
             | Some sch => Scheduler.Status (Api.Cfg s) sch (Api.Svc s)
             end).

Definition handle (ep : endpoint) : request → http unit :=
  match ep with
  | Health => handleHealth e (Context_.Out c)
  | Ready => handleReady e (Context_.Out c)
  | AppVersion => handleVersion (Context_.Out c)
  | Terms => handleTerms
  | Login => handleLogin am e
  | Logout => handleLogout am
  | Me => handleMe am e
  | SessionCheck => handleSubStoreSessionCheck am e
  | PublishCheck => handleSubStorePublishCheck am e
  | PublicDashboard => λ r, let? s := state in handlePublicDashboard e (db_ok (Context_.Out c) s && redis_ok (Context_.Out c)) r
  | PublicEvents => handlePublicDashboardEvents e (Context_.Out c)
  | ManagementEvents => handleEvents am e (Context_.Out c)
  | NodeStats => handleStats e
  | NodeList => handleNodes am e
  | OneNode => handleNode am e
  | OneNodeMetrics => handleNodeMetrics e
  | Trends => handleTrends e
  | JobList => handleJobs am e
  | OneJob => handleJob am e
  | OneJobEvents => handleJobEvents am e
  | StartJob typ => handleStart am e (Context_.Post c) (Context_.Stages_ c) (Context_.Timing c) typ (Context_.Trace c)
  | Cancel => handleCancelJob am e
  | DialStatus => handleDialStatus e (Context_.Resolve c) InstallHint
  | PuritySummary => handlePuritySummary e
  | Countries => handleCountries
  | SourceList => handleSources am e
  | AITargets => handleAITargets
  | HostTargets => handleHostAI
  | ExportAs f => handleExport am e f
  | Settings => handleConfig e (Context_.Out c)
  | Schedule => handleSchedule
  | PoolList => handlePools e
  | PoolExport => handlePoolExportRaw am e
  | TokenList => handleAdminListTokens am e
  | TokenCreate => handleAdminCreateToken am e
  | TokenDelete => handleAdminDeleteToken am e
  | TokenEnable en => setTokenEnabled am e en
  | AuditList => handleAdminAudit am e
  | PublishRefresh => handleAdminRefreshPublish am e (Context_.Lock c) (Context_.Saved c)
  | SourceEnable en => setSourceEnabled am e en
  | SourceProbe => handleAdminProbeSource am e (Context_.Net c)
  | TaskList => handleAdminTasks am e
  | TaskCancel => handleAdminCancelTask am e
  | QueueState => handleAdminQueue am e
  | UserList => handleAdminListUsers am e
  | UserCreate => handleAdminCreateUser am e
  | UserEnable en => setUserEnabled am e en
  | ConfigUpdate => handleAdminUpdateConfig am e (Context_.Update_ c)
  | ConfigVersions => handleAdminConfigVersions am e
  | AlertList => handleAdminAlerts am e
  | AlertChange acknowledge => changeAlert am e acknowledge
  | SubIndex => handleSubIndex am e
  | SubAs f => serveSubFormat am e f
  | SubMeta => handleSubMeta am e
  | SubPool => handleSubPool am e
  | SubCountry => handleSubCountry am e
  end.

(** The multiplexer: a path that is not clean is redirected, a path that only
    other methods know is refused. *)
Definition mux (l : list (string * endpoint)) (r : request) : http unit :=
  let clean := cleanPath (Request.Path r) in
  if negb (clean =? Request.Path r)%string then let? _ := SetHeader "Location" clean in reply 301 Nothing
  else
    match find_route r l with
    | Some (ep, vars) => handle ep (r <| Request.PathValue := vars |>)
    | None => if known_path r l then Error "Method Not Allowed" 405 else NotFound
    end.

(** [Handler], below the limiter and the access log; the routes are those of
    the configuration of the start. *)
Definition serve (cfg : config) (r : request) (s : api) : response * api :=
  match guarded am e cfg (mux (routes cfg)) r (s, Writer.mk ∅ []) with
  | (inl resp, st) => (resp, st.1)
  | (inr _, st) => (Response.mk 200 (Writer.Header st.2) (Writer.Cookies st.2) Nothing, st.1)
  end.
End routes.
