(* ===== verification/AccessProofs.v ===== *)
(** * Who may do what

    Without a session a request changes nothing but the bookkeeping of accounts
    and limits; with one, nothing of another tenant.

    ** Reasoning about handlers

    A weakest precondition for the computations of [Web.v]: [wp m st Q] says
    that [Q] holds of how [m] ends from [st] — with a reply or a value — and of
    the state it leaves.  One rule for each operation; [wp_run] applies them. *)
From S2P Require Import Prelude Sql GoStr GoFloat GoTime Model Base64 Tasks Tokens Users Jobs Alerts Auth.
From S2P Require Import NetAddr Ratelimit Config ConfigCheck ConfigValid Filter NodeStore NodesDB Pools NetUrl Links.
From S2P Require Import Clash Content Exporter Publish Outbound Dial DialJob Select Fetch Sources Runtime Runner.
From S2P Require Import DialStage Geo Web Serve Admin Views Status Scheduler Routes.

Definition wp {A} (m : http A) (st : hstate) (Q : response + A → hstate → Prop) : Prop := Q (m st).1 (m st).2.

(** How a bind goes on *)
Definition wp_next {A B} (f : A → http B) (Q : response + B → hstate → Prop) (x : response + A) (st : hstate) : Prop :=
  match x with inl resp => Q (inl resp) st | inr a => wp (f a) st Q end.

Lemma SetHeaders_run kvs st : ∃ w, SetHeaders kvs st = (inr tt, (st.1, w)).
Proof.
  revert st. induction kvs as [|kv kvs IH]; intros [s w]; [by exists w|].
  destruct (IH (s, w <| Writer.Header := <[kv.1:=kv.2]> (Writer.Header w) |>)) as [w' Hw]. by exists w'.
Qed.

Section rules.
Context {A B : Type}.
Implicit Types (Q : response + A → hstate → Prop).

Lemma wp_bind (m : http A) (f : A → http B) st (Q : response + B → hstate → Prop) :
  wp m st (wp_next f Q) → wp (hbind m f) st Q.
Proof. unfold wp, hbind, wp_next. by destruct (m st) as [[resp|a] st']. Qed.
Lemma wp_ret (a : A) st Q : Q (inr a) st → wp (hret a) st Q.
Proof. done. Qed.
Lemma wp_state st (Q : response + api → hstate → Prop) : Q (inr st.1) st → wp state st Q.
Proof. done. Qed.
Lemma wp_change f st (Q : response + unit → hstate → Prop) : Q (inr tt) (f st.1, st.2) → wp (change f) st Q.
Proof. done. Qed.
Lemma wp_SetHeader k v st (Q : response + unit → hstate → Prop) :
  (∀ w, Q (inr tt) (st.1, w)) → wp (SetHeader k v) st Q.
Proof. intros HQ. apply HQ. Qed.
Lemma wp_SetCookie c st (Q : response + unit → hstate → Prop) :
  (∀ w, Q (inr tt) (st.1, w)) → wp (SetCookie c) st Q.
Proof. intros HQ. apply HQ. Qed.
Lemma wp_SetHeaders kvs st (Q : response + unit → hstate → Prop) :
  (∀ w, Q (inr tt) (st.1, w)) → wp (SetHeaders kvs) st Q.
Proof.
  intros HQ. destruct (SetHeaders_run kvs st) as [w Hw]. unfold wp. rewrite Hw. apply HQ.
Qed.
(** A reply: its status and its body are known, its headers are not. *)
Lemma wp_reply status body st Q :
  (∀ hdr cookies, Q (inl (Response.mk status hdr cookies body)) st) → wp (reply status body) st Q.
Proof. intros HQ. apply HQ. Qed.
Lemma wp_Error msg code st Q :
  (∀ hdr cookies w, Q (inl (Response.mk code hdr cookies (Text (msg +:+ newline)))) (st.1, w)) → wp (Error msg code) st Q.
Proof. intros HQ. apply HQ. Qed.
End rules.

Lemma wp_writeJSON v st (Q : response + unit → hstate → Prop) :
  (∀ hdr cookies w, Q (inl (Response.mk 200 hdr cookies (Json v))) (st.1, w)) → wp (writeJSON v) st Q.
Proof. intros HQ. apply HQ. Qed.
Lemma wp_mono {A} (m : http A) st (Q Q' : response + A → hstate → Prop) :
  wp m st Q → (∀ x st', Q x st' → Q' x st') → wp m st Q'.
Proof. intros HQ Himp. by apply Himp. Qed.

(** A body that is refused leaves the state. *)
Lemma wp_decodeJSON {A} (decode : string → result A) r st (Q : response + A → hstate → Prop) :
  (∀ msg hdr cookies w, Q (inl (Response.mk 400 hdr cookies (Text msg))) (st.1, w)) → (∀ a, Q (inr a) st) →
  wp (decodeJSON decode r) st Q.
Proof. intros HE HA. unfold decodeJSON. destruct (if _ : bool then _ else _); [by apply wp_ret|by apply wp_Error]. Qed.

Section roles.
Context `{TzData} `{LenientParse} `{Unicode} `{Crypto} `{ClaimsCodec} `{NetIP}.
Context (am : Manager.t) (e : env).

(** The principal of a request, if it has a session *)
Definition session (r : request) : option Principal.t := authenticated (request_principal am (clock e 0%nat) r).

Lemma wp_requireRole r role st (Q : response + Principal.t → hstate → Prop) :
  (∀ code msg hdr cookies w, code ∈ [401; 403] → Q (inl (Response.mk code hdr cookies (Text msg))) (st.1, w)) →
  (∀ p, session r = Some p → Allows (Principal.Role p) role = true → Q (inr p) st) →
  wp (requireRole am e r role) st Q.
Proof.
  intros HE HA. unfold requireRole. fold (session r). destruct (session r) as [p|] eqn:Hp.
  - destruct (Allows _ _) eqn:Ha; [apply wp_ret; by apply HA|]. apply wp_Error. intros. apply HE. set_solver.
  - apply wp_Error. intros. apply HE. set_solver.
Qed.
Lemma wp_requireSystemAdmin r st (Q : response + Principal.t → hstate → Prop) :
  (∀ code msg hdr cookies w, code ∈ [401; 403] → Q (inl (Response.mk code hdr cookies (Text msg))) (st.1, w)) →
  (∀ p, session r = Some p → Allows (Principal.Role p) RoleAdmin = true → Principal.TenantID p = "default" → Q (inr p) st) →
  wp (requireSystemAdmin am e r) st Q.
Proof.
  intros HE HA. unfold requireSystemAdmin. apply wp_bind, wp_requireRole; simpl; [done|].
  intros p Hp Ha. destruct (_ =? _)%string eqn:Ht; bsplit; [apply wp_ret; by apply HA|].
  apply wp_Error. intros. apply HE. set_solver.
Qed.

(** A session carries the tenant it was issued for, which is never empty. *)
Lemma tenantTrim_nonempty s : tenantTrim s ≠ "".
Proof. unfold tenantTrim. case_if; bsplit; congruence. Qed.
Lemma session_principal r p : session r = Some p →
  Principal.Authenticated p = true ∧ Principal.TenantID p ≠ "".
Proof.
  unfold session, request_principal, RequestPrincipal, authenticated.
  destruct (cookie _ _) as [v|]; [|by intros [=]].
  destruct (negb _); [|by intros [=]].
  unfold ValidateSession. intros Hs. repeat (case_match; try done); simplify_eq/=. split; [done|apply tenantTrim_nonempty].
Qed.
End roles.

Lemma wp_audit `{TzData} e actor action detail i st (Q : response + unit → hstate → Prop) :
  Q (inr tt) (with_DB (λ h, h <| History.audit := Audit (History.audit h) actor action detail (clock e i) |>) st.1, st.2) →
  wp (audit e actor action detail i) st Q.
Proof. done. Qed.

(** What the headers do to the state is nothing, so they are forgotten. *)
Ltac wp_step :=
  lazymatch goal with
  | |- wp (hbind _ _) _ _ => apply wp_bind
  | |- wp (hret _) _ _ => apply wp_ret
  | |- wp state _ _ => apply wp_state
  | |- wp (change _) _ _ => apply wp_change
  | |- wp (SetHeader _ _) _ _ => apply wp_SetHeader; intros ?
  | |- wp (SetHeaders _) _ _ => apply wp_SetHeaders; intros ?
  | |- wp (SetCookie _) _ _ => apply wp_SetCookie; intros ?
  | |- wp (reply _ _) _ _ => apply wp_reply; intros ??
  | |- wp (Error _ _) _ _ => apply wp_Error; intros ???
  | |- wp NotFound _ _ => apply wp_Error; intros ???
  | |- wp (writeJSON _) _ _ => apply wp_writeJSON; intros ???
  | |- wp (decodeJSON _ _) _ _ => apply wp_decodeJSON; [intros ????|intros ?]
  | |- wp (requireRole _ _ _ _) _ _ => apply wp_requireRole; [intros ??????|intros ???]
  | |- wp (requireSystemAdmin _ _ _) _ _ => apply wp_requireSystemAdmin; [intros ??????|intros ????]
  | |- wp (audit _ _ _ _ _) _ _ => apply wp_audit
  | |- wp (let _ := _ in _) _ _ => cbv zeta
  | |- wp (if ?b then _ else _) _ _ => let E := fresh "E" in destruct b eqn:E
  | |- wp (match ?x with _ => _ end) _ _ => let E := fresh "E" in destruct x eqn:E
  | |- wp_next _ _ (inl _) _ => cbn [wp_next]
  | |- wp_next _ _ (inr _) _ => cbn [wp_next]
  end; cbn beta iota; cbn [fst snd].
Ltac wp_run := repeat wp_step.

Lemma update_where_fmap {A B} (g : A → B) p (f : A → A) (t : gmap string A) :
  (∀ r, g (f r) = g r) → g <$> update_where p f t = g <$> t.
Proof. intros Hf. unfold update_where. rewrite <-map_fmap_compose. apply map_fmap_ext. intros k r _. simpl. by case_if. Qed.

(** ** Without a session *)

(** Everything but what the accounts and the limits record of their use *)
Definition unused (r : TokenRow.t) : TokenRow.t := r <| TokenRow.last_used_at := None |>.
Definition not_logged_in (r : UserRow.t) : UserRow.t := r <| UserRow.last_login_at := None |>.
Definition unlogged (h : History.t) : History.t := h <| History.audit := AuditLog.mk 0 [] |>.
Definition core (s : api) :=
  (Api.Cfg s, (Api.Svc s) <| Service.Db := unlogged <$> DB s |>, unused <$> Accounts.Tokens (Api.Acc s),
   not_logged_in <$> Accounts.Users (Api.Acc s), Accounts.Versions (Api.Acc s)).

Section access.
Context `{TzData} `{LenientParse} `{Unicode} `{Crypto} `{Bcrypt} `{ClaimsCodec} `{NetIP} `{UrlParser} `{PublicSuffix} `{PatchCodec}.
Context `{MapRange} `{CountRange} `{LinkJson} `{ClashCodec} `{MetaCodec} `{PolicyCodec} `{Quoting} `{FmtAny}.
Context `{BodyCodec} `{JobOptionsCodec} `{FloatParse} `{LocalCalendar}.
Context (am : Manager.t) (e : env) (c : Context_.t).

Lemma core_set_auth d s :
  match auth_db s with
  | Some d0 => unused <$> AuthDB.tokens d = unused <$> AuthDB.tokens d0 ∧
               not_logged_in <$> AuthDB.users d = not_logged_in <$> AuthDB.users d0
  | None => True
  end → core (set_auth d s) = core s.
Proof.
  unfold set_auth, auth_db, core, DB. destruct s as [cfg svc acc rl1 rl2 m]. simpl.
  destruct svc as [n du st pb db ac mj]. simpl. destruct db as [h|]; simpl; [|done].
  intros [-> ->]. by destruct h, acc.
Qed.

(** [ValidateSubToken] only touches the token, [LoginLocal] only the user. *)
Lemma ValidateSubToken_tokens db plain c1 c2 p db' : ValidateSubToken am db plain c1 c2 = Ok (p, db') →
  match db' with
  | Some d => ∃ d0, db = Some d0 ∧ unused <$> AuthDB.tokens d = unused <$> AuthDB.tokens d0 ∧ AuthDB.users d = AuthDB.users d0
  | None => True
  end.
Proof.
  unfold ValidateSubToken. intros Hv. repeat (case_match; try done); simplify_eq/=; eauto.
  all: try (eexists; split; [done|split; [|done]]; by apply update_where_fmap).
Qed.
Lemma LoginLocal_users db tenant username password c1 c2 c3 p t d :
  LoginLocal am db tenant username password c1 c2 c3 = Ok (p, t, d) →
  ∃ d0, db = Some d0 ∧ AuthDB.tokens d = AuthDB.tokens d0 ∧ not_logged_in <$> AuthDB.users d = not_logged_in <$> AuthDB.users d0.
Proof.
  unfold LoginLocal. intros Hv. destruct db as [d0|]; [|done].
  repeat (case_match; try done). destruct (IssueSession _ _ _); simplify_eq/=.
  eexists. split; [done|]. split; [done|]. by apply update_where_fmap.
Qed.

(** A computation that leaves the core of the state as it is *)
Definition quiet {A} (m : http A) : Prop := ∀ st, wp m st (λ _ st', core st'.1 = core st.1).
Lemma wp_quiet {A} (m : http A) s0 st (Q : response + A → hstate → Prop) :
  quiet m → core st.1 = s0 → (∀ x st', core st'.1 = s0 → Q x st') → wp m st Q.
Proof. intros Hm <- HQ. apply (wp_mono _ _ _ _ (Hm st)). intros x st' Hst. by apply HQ. Qed.

Lemma quiet_bind {A B} (m : http A) (f : A → http B) : quiet m → (∀ a, quiet (f a)) → quiet (hbind m f).
Proof.
  intros Hm Hf st. apply wp_bind. apply (wp_quiet m (core st.1)); [done|done|].
  intros [resp|a] st' Hst; simpl; [done|]. by apply (wp_quiet (f a) (core st.1)).
Qed.
(** A computation whose changes can be read off its text *)
Ltac quiet := intros [? ?]; wp_run; try done.

Lemma quiet_limit_client cfg r : quiet (limit_client e cfg r).
Proof. unfold limit_client. quiet. Qed.
Lemma quiet_limit_token p : quiet (limit_token e p).
Proof. unfold limit_token. quiet. Qed.
Lemma quiet_limit_country p r : quiet (limit_country p r).
Proof. unfold limit_country. quiet. Qed.
Lemma quiet_limit_quota p : quiet (limit_quota e p).
Proof. unfold limit_quota. quiet. Qed.
Lemma quiet_find_token cfg r : quiet (find_token am e cfg r).
Proof.
  unfold find_token. intros [s w]. wp_run; [|done]. apply ValidateSubToken_tokens in E.
  destruct o as [d|]; simpl; [|done]. destruct E as (d0 & Hd & Ht & Hu).
  apply core_set_auth. rewrite Hd. split; [done|by rewrite Hu].
Qed.
Lemma quiet_state : quiet state.
Proof. by intros ?. Qed.
Lemma quiet_ret {A} (a : A) : quiet (hret a).
Proof. by intros ?. Qed.
Lemma quiet_reply {A} code body : quiet (reply (A := A) code body).
Proof. by intros ?. Qed.
Lemma quiet_Error {A} msg code : quiet (Error (A := A) msg code).
Proof. by intros ?. Qed.
Lemma quiet_writeJSON v : quiet (writeJSON v).
Proof. by intros ?. Qed.
Lemma quiet_SetHeader k v : quiet (SetHeader k v).
Proof. by intros ?. Qed.
Lemma quiet_SetHeaders kvs : quiet (SetHeaders kvs).
Proof. intros st. by apply wp_SetHeaders. Qed.
Lemma quiet_SetCookie k : quiet (SetCookie k).
Proof. by intros ?. Qed.
Lemma quiet_change f : (∀ s, core (f s) = core s) → quiet (change f).
Proof. intros Hf st. apply wp_change, Hf. Qed.
Lemma quiet_or_crash {A} (x : result A) : quiet (or_crash x).
Proof. by destruct x. Qed.
Lemma quiet_decodeJSON {A} (decode : string → result A) r : quiet (decodeJSON decode r).
Proof. intros st. by apply wp_decodeJSON. Qed.
Lemma quiet_requireRole r role : quiet (requireRole am e r role).
Proof. intros st. by apply wp_requireRole. Qed.
Lemma quiet_on_reply {A} (m : http A) f : quiet m → (∀ s, core (f s) = core s) → quiet (on_reply m f).
Proof.
  intros Hm Hf st. unfold wp, on_reply. pose proof (Hm st) as Hst. unfold wp in Hst.
  destruct (m st) as [[resp|a] st']; simpl in *; [by rewrite Hf|done].
Qed.

(** [quiet_run] walks through a computation by these rules. *)
Ltac quiet_step :=
  lazymatch goal with
  | |- quiet (hbind _ _) => apply quiet_bind; [|intros ?]
  | |- quiet (let _ := _ in _) => cbv zeta
  | |- quiet (if ?b then _ else _) => destruct b
  | |- quiet (match ?x with _ => _ end) => destruct x
  | |- quiet (change _) => apply quiet_change; intros ?; try done
  | |- _ => first [apply quiet_state|apply quiet_ret|apply quiet_reply|apply quiet_Error|apply quiet_writeJSON|apply quiet_SetHeader
                  |apply quiet_SetHeaders|apply quiet_SetCookie|apply quiet_or_crash|apply quiet_decodeJSON|apply quiet_requireRole]
  end.
Ltac quiet_run := repeat quiet_step.

Lemma quiet_ensurePublish r : quiet (ensurePublish am e r).
Proof.
  unfold ensurePublish. quiet_run.
  - apply quiet_limit_client.
  - apply quiet_find_token.
  - apply quiet_limit_token.
  - apply quiet_limit_country.
  - apply quiet_limit_quota.
Qed.
Lemma core_count_bytes p body s : core (count_bytes e p body s) = core s.
Proof. unfold count_bytes. by case_if. Qed.
Lemma quiet_send_body p format body : quiet (send_body e p format body).
Proof. unfold send_body. quiet_run. unfold IncSubToken. apply (core_count_bytes p body). Qed.
Lemma quiet_serveSelected r nodes format filename refresh p : quiet (serveSelectedSubscription e r nodes format filename refresh p).
Proof. unfold serveSelectedSubscription. quiet_run. apply quiet_send_body. Qed.
Lemma quiet_serveSubFormat f r : quiet (serveSubFormat am e f r).
Proof.
  unfold serveSubFormat. apply quiet_bind; [apply quiet_on_reply; [apply quiet_ensurePublish|done]|].
  intros p. unfold setSubHeaders. quiet_run. apply quiet_send_body.
Qed.

(** Without a session every test of a role refuses. *)
Lemma quiet_no_role {A} r role (f : Principal.t → http A) : session am e r = None → quiet (hbind (requireRole am e r role) f).
Proof. intros Hn st. apply wp_bind, wp_requireRole; [done|]. intros p Hp. congruence. Qed.
Lemma quiet_no_admin {A} r (f : Principal.t → http A) : session am e r = None → quiet (hbind (requireSystemAdmin am e r) f).
Proof. intros Hn st. apply wp_bind, wp_requireSystemAdmin; [done|]. intros p Hp. congruence. Qed.
Lemma quiet_no_export r : session am e r = None → quiet (ensureExport am e r).
Proof. apply quiet_no_role. Qed.
Lemma quiet_handleLogin r : quiet (handleLogin am e r).
Proof.
  unfold handleLogin, setSessionCookie. intros [s w]. wp_run; try done;
    repeat match goal with E : _ = (_, _) |- _ => rewrite E in * end;
    match goal with E : LoginLocal _ _ _ _ _ _ _ _ = _ |- _ => apply LoginLocal_users in E as (d0 & Hd & Ht & Hu) end;
    (etrans; [apply core_set_auth|done]); unfold auth_db, DB in *; simpl; rewrite Hd; by rewrite Ht.
Qed.

(** The handlers that change the core of the state *)
Definition changes (ep : endpoint) : bool :=
  match ep with
  | TokenCreate | TokenDelete | TokenEnable _ | UserCreate | UserEnable _ | TaskCancel | StartJob _ | AlertChange _
  | SourceEnable _ | SourceProbe | PublishRefresh | ConfigUpdate => true
  | _ => false
  end.

Lemma quiet_audit actor action detail i : quiet (audit e actor action detail i).
Proof.
  intros [s w]. apply wp_audit. unfold with_DB. simpl. destruct (DB s) as [h|] eqn:Hd; [|done].
  unfold core, set_DB, DB in *. simpl. by rewrite Hd.
Qed.
Lemma quiet_requireSystemAdmin r : quiet (requireSystemAdmin am e r).
Proof. intros st. by apply wp_requireSystemAdmin. Qed.
Ltac quiet_handler :=
  repeat first [by apply quiet_no_role|by apply quiet_no_admin|by apply quiet_ensurePublish|by apply quiet_serveSelected
               |apply quiet_requireSystemAdmin|apply quiet_audit|quiet_step].
Lemma quiet_reads ep r : changes ep = false → quiet (handle am e c ep r).
Proof.
  intros Hn. destruct ep; try done; simpl.
  all: try (apply quiet_handleLogin || apply quiet_serveSubFormat).
  all: unfold handleHealth, handleReady, handleVersion, handleTerms, handleLogout, handleMe, handleSubStoreSessionCheck,
    handleSubStorePublishCheck, handlePublicDashboard, handlePublicDashboardEvents, handleEvents, serveDashboardEvents, handleStats, handleNodes,
    handleNode, handleNodeMetrics, handleTrends, daily, handleDialStatus, handlePuritySummary, handleCountries,
    handleSources, handleAITargets, handleHostAI, handleConfig, handleSchedule, handlePools, handleSubIndex, handleSubMeta,
    handleSubPool, handleSubCountry, handleJobs, handleJob, handleJobEvents, handleCancelJob, handleExport, handlePoolExportRaw, ensureExport,
    handleAdminListTokens, handleAdminAudit, audit_page, handleAdminTasks, handleAdminQueue, handleAdminListUsers, handleAdminConfigVersions,
    handleAdminAlerts, require_default, send_page, send_list, no_rows.
  all: quiet_handler.
Qed.
Lemma quiet_handle ep r : session am e r = None → quiet (handle am e c ep r).
Proof.
  intros Hn. destruct (changes ep) eqn:Hc; [|by apply quiet_reads]. destruct ep; try done; simpl.
  all: unfold handleStart, startJob; quiet_handler.
Qed.
End access.
