(* ===== verification/RouteProofs.v ===== *)
(** * The boundary of the management interface

    Which paths the routes of the table take, that the boundary knows all of
    them, and what a request gets that does not pass. *)
From S2P Require Import Prelude Sql GoStr GoFloat GoTime Model Base64 Tasks Tokens Users Jobs Alerts Auth.
From S2P Require Import NetAddr Ratelimit Config ConfigCheck ConfigValid Filter NodeStore NodesDB Pools NetUrl Links Clash Content Exporter.
From S2P Require Import Publish Outbound Dial DialJob Select Fetch Sources Runtime Runner DialStage Geo Web Serve Admin Views Status Scheduler Routes AccessProofs.

(** ** Paths *)

Lemma append_nil s : s +:+ "" = s.
Proof. apply explode_inj. by rewrite explode_app, app_nil_r. Qed.
Lemma HasPrefix_iff s p : HasPrefix s p = true ↔ ∃ t, s = p +:+ t.
Proof.
  unfold HasPrefix. revert s; induction p as [|c p IH]; intros s.
  { split; [by exists s|]. by destruct s. }
  destruct s as [|d s]; simpl; [split; [done|]; by intros [t [=]]|].
  destruct (ascii_dec c d) as [<-|Hne]; [rewrite IH|]; (split; [|intros [t [=]]]); try done.
  - intros [t ->]. by exists t.
  - subst. by exists t.
Qed.
Lemma implode_app a b : implode (a ++ b) = implode a +:+ implode b.
Proof. apply explode_inj. by rewrite explode_app, !explode_implode. Qed.
(** What [TrimRight] takes off *)
Lemma drop_bytes_app p l : ∃ k, l = k ++ drop_bytes p l ∧ Forall (λ c, p c = true) k.
Proof.
  induction l as [|c l (k & Hk & HF)]; simpl; [by exists []|]. destruct (p c) eqn:E; [|by exists []].
  exists (c :: k). split; [by rewrite Hk at 1|by constructor].
Qed.
Lemma TrimRight_app s cut : ∃ t, s = TrimRight s cut +:+ t ∧ Forall (λ c, in_cutset cut c = true) (explode t).
Proof.
  unfold TrimRight. destruct (drop_bytes_app (in_cutset cut) (rev (explode s))) as (k & Hk & HF).
  exists (implode (rev k)). split.
  - apply explode_inj. by rewrite explode_app, !explode_implode, <-rev_app_distr, <-Hk, rev_involutive.
  - rewrite explode_implode. apply Forall_forall. intros c Hc. rewrite Forall_forall in HF. apply HF.
    apply list_elem_of_In. apply list_elem_of_In in Hc. by apply in_rev.
Qed.

(** A prefix that the check of the configuration accepts is not a prefix of
    the paths of the management. *)
Lemma reserved_trim prefix : reserved_prefix prefix = false → let p := TrimRight prefix "/" in
  p ≠ "/api" ∧ (HasPrefix p "/api/" = true → p = "/api/sub").
Proof.
  intros Hres p. destruct (TrimRight_app prefix "/") as (t & Ht & HF). fold p in Ht.
  assert (Hslash : ∀ c, in_cutset "/" c = true → c = "/"%char).
  { intros c. unfold in_cutset. cbn. rewrite orb_false_r. by intros ->%Ascii.eqb_eq. }
  assert (Hs : t = "" ∨ t = "/" ∨ ∃ t', t = "//" +:+ t').
  { destruct t as [|d [|d' t]]; [by left| |]; right; apply Forall_cons_1 in HF as [->%Hslash HF]; [by left|right].
    apply Forall_cons_1 in HF as [->%Hslash _]. by exists t. }
  unfold reserved_prefix in Hres. split.
  - intros Hp. destruct Hs as [->|[->|[t' ->]]]; rewrite Ht, Hp in Hres; cbn in Hres; done.
  - intros Hp. assert (Hpre : HasPrefix prefix "/api/" = true) by (rewrite Ht; by apply HasPrefix_app).
    rewrite Hpre, orb_true_r, andb_true_r in Hres.
    destruct (prefix =? "/api/sub")%string eqn:E; [|cbn in Hres; by rewrite ?orb_true_r in Hres]. bsplit.
    apply HasPrefix_iff in Hp as [q Hq]. rewrite Hq in *.
    destruct Hs as [->|[->|[t' ->]]]; rewrite E in Ht; injection Ht as Ht.
    + by rewrite append_nil in Ht; rewrite Ht.
    + exfalso. by destruct q as [|a1 [|a2 [|a3 [|a4 q]]]].
    + exfalso. by destruct q as [|a1 [|a2 [|a3 [|a4 q]]]].
Qed.
Lemma subscription_path_api cfg rest :
  reserved_prefix (PublishConfig.PathPrefix (Config.Publish cfg)) = false → HasPrefix rest "sub" = false →
  subscription_path cfg ("/api/" +:+ rest) = false.
Proof.
  intros [Hn Hsub]%reserved_trim Hr. unfold subscription_path. set (p := TrimRight _ "/") in *.
  assert (Hns : HasPrefix ("/api/" +:+ rest) "/api/sub" = false) by exact Hr.
  assert (∀ u, "/api/" +:+ rest = p +:+ u → p ≠ "" → u = "" ∨ HasPrefix u "/" = true → False) as Hp.
  { intros u Hu Hne Hu'. destruct (decide (HasPrefix p "/api/" = true)) as [Hp|Hp].
    - rewrite (Hsub Hp) in Hu. apply eq_true_false_abs in Hns; [done|]. apply HasPrefix_iff. by exists u.
    - apply Hp, HasPrefix_iff. clear Hsub Hp. 
      destruct p as [|c1 [|c2 [|c3 [|c4 [|c5 q]]]]]; [done|..]; simplify_eq/=; try (destruct Hu' as [->|Hu']; [done|by destruct u; simplify_eq/=]).
      by exists q. }
  rewrite Hns, !orb_false_iff, andb_false_iff, orb_false_iff. split; [split|].
  - done.
  - done.
  - destruct (p =? "")%string eqn:E; [by left|right]. bsplit. split; apply not_true_iff_false.
    + intros Hq. bsplit. apply (Hp ""); [|done|by left]. by rewrite append_nil.
    + intros [u Hu]%HasPrefix_iff. apply (Hp ("/" +:+ u)); [|done|right; by apply HasPrefix_iff; exists u].
      rewrite Hu. apply explode_inj. by rewrite !explode_app, <-app_assoc.
Qed.

(** ** The table *)

(** What a subscriber asks for, and what anyone may *)
Definition subscription (ep : endpoint) : bool :=
  match ep with SubIndex | SubAs _ | SubMeta | SubPool | SubCountry => true | _ => false end.
Definition public (ep : endpoint) : bool :=
  match ep with
  | Health | Ready | AppVersion | Terms | Login | Logout | Me | SessionCheck | PublishCheck | PublicDashboard | PublicEvents => true
  | _ => false
  end.
Definition management (ep : endpoint) : bool := negb (subscription ep) && negb (public ep).

Lemma find_route_elem r l ep vars : find_route r l = Some (ep, vars) → ∃ route, route ∈ l ∧ route_of r route = Some (ep, vars).
Proof.
  unfold find_route, Geo.or_else, first_route. intros Hf.
  assert (∃ p, head (omap (route_of r) (List.filter p l)) = Some (ep, vars)) as (p & Hp).
  { case_match eqn:E; [|by eexists]. rewrite <-E in Hf. by eexists. }
  apply head_Some_elem_of, list_elem_of_omap in Hp as (route & Hr & Ho). exists route. split; [|done].
  by apply list_elem_of_In in Hr as [Hr%list_elem_of_In _]%filter_In.
Qed.
Lemma route_of_Some r route ep vars : route_of r route = Some (ep, vars) →
  ∃ m path, Cut route.1 " " = Some (m, path) ∧ ep = route.2 ∧ match_path path (Request.Path r) = Some vars.
Proof.
  unfold route_of. destruct (Cut _ _) as [[m path]|] eqn:Ec; [|done]. simpl. case_if; [|done].
  destruct (match_path _ _) eqn:Em; [|done]. intros [= <- <-]. eauto.
Qed.
Lemma mountPublish_subscription p route : route ∈ mountPublish p → subscription route.2 = true.
Proof. unfold mountPublish. cbv zeta. rewrite !elem_of_cons, elem_of_nil. naive_solver. Qed.
Lemma management_in cfg route : route ∈ routes cfg → management route.2 = true → route ∈ api_routes.
Proof.
  unfold routes, own_prefix, management. rewrite !elem_of_app. intros Hr Hm.
  destruct Hr as [Hr|[Hr|[Hr|Hr]]]; [done|..]; exfalso.
  3: case_bool_decide; [by apply elem_of_nil in Hr|].
  all: apply mountPublish_subscription in Hr; by rewrite Hr in Hm.
Qed.

(** The patterns of the management: below /api/, apart from the subscriptions
    and from the public paths. *)
Definition apart (route : string * endpoint) : bool :=
  match Cut route.1 " " with
  | Some (_, path) =>
      match Split path "/" with
      | "" :: "api" :: String a (String b s) :: _ =>
          negb (Ascii.eqb a "s" && Ascii.eqb b "u") && bool_decide (wildcard (String a (String b s)) = None)
          && forallb (λ pub, bool_decide (match_path path pub = None)) publicAPI
      | _ => false
      end
  | None => false
  end.
Lemma api_routes_apart route : route ∈ api_routes → management route.2 = true → apart route = true.
Proof.
  assert (forallb (λ route, negb (management route.2) || apart route) api_routes = true) as Hall by by vm_compute.
  rewrite forallb_forall in Hall. intros Hr%list_elem_of_In Hm. apply Hall in Hr. by rewrite Hm in Hr.
Qed.
Lemma match_literal a p path found vars : wildcard a = None → a :: p ≠ [""] →
  match_segments (a :: p) path found = Some vars → ∃ rest, path = a :: rest ∧ match_segments p rest found = Some vars.
Proof.
  intros Hw Hne. destruct path as [|s path].
  { simpl. destruct a; [|done]. by destruct p. }
  simpl. rewrite Hw. destruct a as [|x a], p as [|y p]; try done; (destruct (_ =? s)%string eqn:E; [|done]); bsplit; subst; eauto.
Qed.
Lemma Split_api path s rest : Split path "/" = "" :: "api" :: s :: rest → ∃ t, path = "/api/" +:+ s +:+ t.
Proof.
  intros Hs. assert (explode path = join_on "/" (map explode ("" :: "api" :: s :: rest))) as Hj.
  { rewrite <-Hs. unfold Split. rewrite map_map, <-(join_split_on "/" (explode path)) at 1.
    f_equal. rewrite <-(map_id (split_on _ _)) at 1. apply map_ext. intros l. by rewrite explode_implode. }
  destruct rest as [|s2 rest].
  - exists "". apply explode_inj. by rewrite Hj, append_nil, explode_app.
  - exists (String "/" (implode (join_on "/" (map explode (s2 :: rest))))). apply explode_inj. rewrite Hj, !explode_app.
    change (explode (String ?c ?s)) with (c :: explode s). by rewrite explode_implode.
Qed.
Lemma match_apart r pattern vars s more :
  Split pattern "/" = "" :: "api" :: s :: more → wildcard s = None → s ≠ "" →
  match_path pattern (Request.Path r) = Some vars → ∃ t, Request.Path r = "/api/" +:+ s +:+ t.
Proof.
  intros Es Hw Hne Hm. unfold match_path in Hm. rewrite Es in Hm.
  apply match_literal in Hm as (s1 & E1 & Hm); [|done|done].
  apply match_literal in Hm as (s2 & -> & Hm); [|done|done].
  apply match_literal in Hm as (s3 & -> & Hm); [|done|congruence]. by eapply Split_api.
Qed.
Lemma apart_path r route m pattern vars :
  apart route = true → Cut route.1 " " = Some (m, pattern) → match_path pattern (Request.Path r) = Some vars →
  (∃ rest, Request.Path r = "/api/" +:+ rest ∧ HasPrefix rest "sub" = false) ∧ Request.Path r ∉ publicAPI.
Proof.
  unfold apart. intros Ha Hc Hm. rewrite Hc in Ha.
  destruct (Split pattern "/") as [|a0 [|a1 [|a2 more]]] eqn:Es; try (by repeat case_match).
  assert (a0 = "" ∧ a1 = "api" ∧ ∃ a b s, a2 = String a (String b s)) as (-> & -> & a & b & s & ->)
    by (repeat (case_match; try done); naive_solver).
  bsplit. split.
  - destruct (match_apart r pattern vars _ _ Es) as [t Ht]; [done..|].
    eexists. split; [exact Ht|]. apply not_true_iff_false. intros [u Hu]%HasPrefix_iff. by simplify_eq/=.
  - intros Hp. rewrite forallb_forall in *. assert (match_path pattern (Request.Path r) = None); [|congruence].
    eapply bool_decide_eq_true. match goal with F : ∀ x, In x publicAPI → _ |- _ => apply F end. by apply list_elem_of_In.
Qed.

(** Every route of the management lies within the boundary. *)
Lemma management_route r cfg ep vars :
  reserved_prefix (PublishConfig.PathPrefix (Config.Publish cfg)) = false →
  find_route r (routes cfg) = Some (ep, vars) → management ep = true → management_path cfg (Request.Path r) = true.
Proof.
  intros Hres (route & Hr & (m & path & Hc & -> & Hm)%route_of_Some)%find_route_elem Hman.
  pose proof (api_routes_apart route (management_in cfg route Hr Hman) Hman) as Ha.
  destruct (apart_path r route m path vars Ha Hc Hm) as [(rest & Hp & Hs) Hn].
  assert (HasPrefix ("/api/" +:+ rest) "/api/" = true) as Hpre by (apply HasPrefix_iff; by exists rest).
  unfold management_path. rewrite (bool_decide_eq_false_2 _ Hn), Hp, subscription_path_api by done. by rewrite Hpre.
Qed.

(** ** The whole server *)

Section served.
Context `{TzData} `{LenientParse} `{Unicode} `{Crypto} `{Bcrypt} `{ClaimsCodec} `{NetIP} `{UrlParser} `{PublicSuffix} `{PatchCodec}.
Context `{MapRange} `{CountRange} `{LinkJson} `{ClashCodec} `{MetaCodec} `{PolicyCodec} `{Quoting} `{FmtAny}.
Context `{BodyCodec} `{JobOptionsCodec} `{FloatParse} `{LocalCalendar}.
Context (am : Manager.t) (e : env) (c : Context_.t).

Lemma quiet_mux l r : session am e r = None → quiet (mux am e c l r).
Proof.
  intros Hn. unfold mux. cbv zeta. case_if; [apply quiet_bind; [apply quiet_SetHeader|intros; apply quiet_reply]|].
  destruct (find_route r l) as [[ep vars]|]; [|case_if; apply quiet_Error].
  by apply quiet_handle.
Qed.
Lemma quiet_cors allowed (next : request → http unit) r : quiet (next r) → quiet (cors allowed next r).
Proof.
  intros Hq. unfold cors. cbv zeta. apply quiet_bind; [apply quiet_SetHeaders|intros _].
  apply quiet_bind; [case_if; [apply quiet_SetHeaders|apply quiet_ret]|intros _].
  case_if; [apply quiet_Error|]. apply quiet_bind; [case_if; [apply quiet_SetHeaders|apply quiet_ret]|intros _].
  case_if; [apply quiet_reply|done].
Qed.
Lemma quiet_boundary cfg (next : request → http unit) r : quiet (next r) → quiet (managementBoundary am e cfg next r).
Proof.
  intros Hq. unfold managementBoundary. cbv zeta.
  repeat case_if; try apply quiet_Error; try done; destruct (authenticated _); (done || apply quiet_Error).
Qed.

(** A computation that neither reads nor changes the state, whose replies are
    all [ok]; with [ends], one that always replies *)
Definition blind (ok : response → Prop) (ends : bool) {A} (m : http A) : Prop := ∀ w, ∃ x w',
  (∀ s, m (s, w) = (x, (s, w'))) ∧ match x with inl resp => ok resp | inr _ => ends = false end.

Lemma blind_bind ok ends {A B} (m : http A) (f : A → http B) :
  blind ok false m → (∀ a, blind ok ends (f a)) → blind ok ends (hbind m f).
Proof.
  intros Hm Hf w. destruct (Hm w) as ([resp|a] & w1 & Hw & Hx).
  - exists (inl resp), w1. split; [|done]. intros s. unfold hbind. by rewrite Hw.
  - destruct (Hf a w1) as (y & w2 & Hw2 & Hy). exists y, w2. split; [|done]. intros s. unfold hbind. by rewrite Hw, Hw2.
Qed.
Lemma blind_ret ok {A} (a : A) : blind ok false (hret a).
Proof. intros w. by exists (inr a), w. Qed.
Lemma blind_SetHeader ok k v : blind ok false (SetHeader k v).
Proof. intros w. by exists (inr tt), (w <| Writer.Header := <[k := v]> (Writer.Header w) |>). Qed.
Lemma blind_SetHeaders ok kvs : blind ok false (SetHeaders kvs).
Proof. induction kvs as [|kv kvs IH]; [apply blind_ret|]. apply blind_bind; [apply blind_SetHeader|done]. Qed.
Lemma blind_reply ok ends {A} code body :
  (∀ hdr cookies, ok (Response.mk code hdr cookies body)) → blind ok ends (reply (A := A) code body).
Proof.
  intros Hok w. exists (inl (Response.mk code (Writer.Header w) (Writer.Cookies w) body)), w. split; [done|apply Hok].
Qed.
Lemma blind_Error ok ends {A} msg code :
  (∀ hdr cookies, ok (Response.mk code hdr cookies (Text (msg +:+ newline)))) → blind ok ends (Error (A := A) msg code).
Proof.
  intros Hok. apply blind_bind; [apply blind_SetHeader|intros _]. apply blind_bind; [apply blind_SetHeader|intros _].
  by apply blind_reply.
Qed.

(** What the boundary demands of a request of the management *)
Definition admits (cfg : config) (r : request) : bool :=
  let auth := Config.Auth cfg in
  negb (foreign_host (AuthConfig.AdminHost auth) (requestHost (Request.Host r)))
  && (bool_decide (AuthConfig.AdminCIDRs auth = [])
      || allowedClientIP (client_ip r (ServerConfig.TrustedProxies (Config.Server cfg))) (AuthConfig.AdminCIDRs auth))
  && match authenticated (request_principal am (entered e) r) with Some _ => true | None => false end.
Definition refusal (resp : response) : Prop :=
  Response.Status resp ∈ [204; 401; 403; 404] ∧ ∀ v, Response.Body resp ≠ Json v.

Lemma blind_boundary cfg next r : management_path cfg (Request.Path r) = true → admits cfg r = false →
  blind refusal true (managementBoundary am e cfg next r).
Proof.
  intros Hm Ha. unfold managementBoundary, admits in *. cbv zeta in *. rewrite Hm.
  assert (∀ msg code, code ∈ [401; 403; 404] → blind refusal true (Error (A := unit) msg code)) as HE.
  { intros msg code Hc. apply blind_Error. intros hdr cookies. split; [set_solver|by intros v]. }
  unfold NotFound. case_if; [apply HE; set_solver|].
  destruct (foreign_host (AuthConfig.AdminHost _) _); [apply HE; set_solver|].
  destruct ((0 <? _) && _) eqn:E1; [apply HE; set_solver|]. destruct (authenticated _); [|apply HE; set_solver].
  simpl in Ha. rewrite andb_true_r in Ha. apply orb_false_iff in Ha as [Ha Hc]. rewrite Hc, andb_true_r in E1.
  destruct (AuthConfig.AdminCIDRs _); [by case_bool_decide|done].
Qed.
Lemma blind_cors allowed next r : blind refusal true (next r) → blind refusal true (cors allowed next r).
Proof.
  intros Hq. unfold cors. cbv zeta. apply blind_bind; [apply blind_SetHeaders|intros _].
  apply blind_bind; [case_if; [apply blind_SetHeaders|apply blind_ret]|intros _].
  case_if; [apply blind_Error; intros; split; [set_solver|by intros v]|].
  apply blind_bind; [case_if; [apply blind_SetHeaders|apply blind_ret]|intros _].
  case_if; [apply blind_reply; intros; split; [set_solver|by intros v]|done].
Qed.

(** C36: Without a session a request changes nothing but the bookkeeping of
    accounts and limits: the last use of a token, the last login of a user, the
    audit log, the limiters and the counters.  The configuration, the nodes and
    their metrics, the jobs and their events, the tasks, the alerts, the
    published subscriptions, the states of the sources and the rows of the
    tokens and of the users are as before — whatever the method, the path, the
    headers and the body are, and whatever the configuration is. *)
Theorem unauthenticated_confined cfg r s resp s' :
  session am e r = None → serve am e c cfg r s = (resp, s') → core s' = core s.
Proof.
  intros Hn Hs. pose proof (quiet_cors (ServerConfig.AllowedOrigins (Config.Server cfg)) _ r
    (quiet_boundary cfg _ r (quiet_mux (routes cfg) r Hn)) (s, Writer.mk ∅ [])) as Hq.
  unfold serve, guarded in Hs. unfold wp in Hq. by destruct (cors _ _ _ _) as [[?|?] ?]; injection Hs as <- <-.
Qed.

(** C37: The boundary of the management interface has no gaps: under a
    configuration whose path prefix the check accepts, a request that the
    router would give to an endpoint of the management and that comes without a
    session, to another host than the one of the administration, or from an
    address outside of its networks gets a refusal that does not depend on the
    state and does not change it. *)
Theorem management_guarded cfg r ep vars :
  reserved_prefix (PublishConfig.PathPrefix (Config.Publish cfg)) = false →
  find_route r (routes cfg) = Some (ep, vars) → management ep = true → admits cfg r = false →
  ∃ resp, refusal resp ∧ ∀ s, serve am e c cfg r s = (resp, s).
Proof.
  intros Hres Hf Hm Ha. pose proof (management_route r cfg ep vars Hres Hf Hm) as Hp.
  pose proof (blind_boundary cfg (mux am e c (routes cfg)) r Hp Ha) as Hb.
  destruct (blind_cors (ServerConfig.AllowedOrigins (Config.Server cfg)) _ r Hb (Writer.mk ∅ [])) as ([resp|[]] & w & Hw & Hr).
  - exists resp. split; [done|]. intros s. unfold serve, guarded. by rewrite Hw.
  - done.
Qed.
End served.
