(* ===== verification/TenantProofs.v ===== *)
(** * Tenants

    With a session, a request changes nothing that belongs to another tenant,
    and only the default tenant changes what they share. *)
From S2P Require Import Prelude Sql GoStr GoFloat GoTime Model Base64 Tasks Tokens Users Jobs Alerts Auth.
From S2P Require Import NetAddr Ratelimit Config ConfigCheck ConfigValid Filter NodeStore NodesDB Pools NetUrl Links Clash Content Exporter.
From S2P Require Import Publish Outbound Dial DialJob Select Fetch Sources Runtime Runner DialStage Geo Web Serve Admin Views Status Scheduler Routes.
From S2P Require Import AccessProofs RouteProofs.

(** ** What belongs to a tenant *)

Definition owned_by (U : string) (h : History.t) (id : string) : Prop := JobRow.tenant_id <$> History.jobs h !! id = Some U.
#[global] Instance owned_by_dec U h id : Decision (owned_by U h id).
Proof. unfold owned_by. apply _. Defined.
Definition jobs_of (U : string) (h : History.t) :=
  (filter (λ kv, JobRow.tenant_id kv.2 = U) (History.jobs h),
   filter (λ ev, owned_by U h (JobEvent.JobID ev)) (Events.entries (History.events h)),
   filter (λ kv, owned_by U h (TaskRow.id kv.2)) (History.tasks h)).
(** The tokens and the users, but for the record of their use, and the jobs
    with their events and tasks *)
Definition rows_of (U : string) (s : api) :=
  (filter (λ kv, TokenRow.tenant_id kv.2 = U) (unused <$> Accounts.Tokens (Api.Acc s)),
   filter (λ kv, UserRow.tenant_id kv.2 = U) (not_logged_in <$> Accounts.Users (Api.Acc s)),
   jobs_of U <$> DB s).
(** What a request of tenant [T] leaves of tenant [U], and of what they share *)
Definition kept (T U : string) (s s' : api) : Prop :=
  rows_of U s' = rows_of U s ∧
  (T ≠ "default" → Api.Cfg s' = Api.Cfg s ∧ Accounts.Versions (Api.Acc s') = Accounts.Versions (Api.Acc s)).

Lemma kept_core T U s s' : core s' = core s → kept T U s s'.
Proof.
  unfold core, kept, rows_of. intros Hc. injection Hc as Hcfg Hn Hd Hst Hpub Hdb Ha Hm Ht Hu Hv.
  split; [|done]. rewrite Ht, Hu. f_equal.
  assert (∀ o : option History.t, jobs_of U <$> o = jobs_of U <$> (unlogged <$> o)) as Hl by by intros [].
  by rewrite Hl, Hdb, <-Hl.
Qed.
Lemma kept_trans T U s1 s2 s3 : kept T U s1 s2 → kept T U s2 s3 → kept T U s1 s3.
Proof. intros [H1 H2] [H3 H4]. split; [congruence|]. intros HT. destruct (H2 HT), (H4 HT). split; congruence. Qed.
Lemma kept_refl T U s : kept T U s s.
Proof. done. Qed.

(** ** Tables *)

Section tables.
Context {A B : Type} (tenant : A → string) (g : A → A).
Hypothesis g_tenant : ∀ r, tenant (g r) = tenant r.
Implicit Types t : gmap string A.

Lemma filter_insert_other t k r U : tenant r ≠ U → (∀ r', t !! k = Some r' → tenant r' ≠ U) →
  filter (λ kv, tenant kv.2 = U) (g <$> <[k:=r]> t) = filter (λ kv, tenant kv.2 = U) (g <$> t).
Proof.
  intros Hr Hk. rewrite fmap_insert, map_filter_insert_False by (simpl; by rewrite g_tenant).
  apply map_eq. intros i. destruct (decide (i = k)) as [->|Hne].
  - rewrite (proj2 (map_lookup_filter_None _ _ _)) by (left; apply lookup_delete_eq).
    symmetry. apply map_lookup_filter_None. right. intros x Hx. apply lookup_fmap_Some in Hx as (r' & <- & Hr'). simpl.
    rewrite g_tenant. by apply Hk.
  - apply option_eq. intros x. rewrite !map_lookup_filter_Some. by rewrite lookup_delete_ne by done.
Qed.
Lemma filter_update_other t p f U : (∀ r, p r = true → tenant r ≠ U) → (∀ r, tenant (f r) = tenant r) →
  filter (λ kv, tenant kv.2 = U) (g <$> update_where p f t) = filter (λ kv, tenant kv.2 = U) (g <$> t).
Proof.
  intros Hp Hf. apply map_eq. intros i. apply option_eq. intros x. rewrite !map_lookup_filter_Some, !lookup_fmap, lookup_update_where.
  destruct (t !! i) as [r|]; simpl; [|done]. destruct (p r) eqn:E; [|done].
  split; intros [[= <-] Hx]; simpl in Hx; rewrite g_tenant in Hx; rewrite ?Hf in Hx; by apply Hp in E.
Qed.
Lemma filter_delete_other t p U : (∀ r, p r = true → tenant r ≠ U) →
  filter (λ kv, tenant kv.2 = U) (g <$> delete_where p t) = filter (λ kv, tenant kv.2 = U) (g <$> t).
Proof.
  intros Hp. apply map_eq. intros i. apply option_eq. intros x. rewrite !map_lookup_filter_Some, !lookup_fmap_Some.
  split; intros [(r & <- & Hr) Hx]; (split; [|done]); exists r; (split; [done|]).
  - by apply lookup_delete_where in Hr as [? _].
  - apply lookup_delete_where. split; [done|]. apply not_true_iff_false. intros E%Hp. simpl in Hx. by rewrite g_tenant in Hx.
Qed.
End tables.

(** ** Jobs *)

Section jobs.
Context `{TzData} `{LenientParse} `{Quoting} `{JobOptionsCodec} (U : string).
Implicit Types (h : History.t) (j : Job.t).

Lemma filter_iff {A} (P Q : A → Prop) `{∀ x, Decision (P x)} `{∀ x, Decision (Q x)} (l : list A) :
  (∀ x, P x ↔ Q x) → filter P l = filter Q l.
Proof. intros HPQ. by apply list_filter_iff. Qed.
(** The rows of the jobs of a tenant say which jobs it owns. *)
Lemma owned_by_filter h id :
  owned_by U h id ↔ is_Some (filter (λ kv, JobRow.tenant_id kv.2 = U) (History.jobs h) !! id).
Proof.
  unfold owned_by, is_Some. setoid_rewrite map_lookup_filter_Some. rewrite fmap_Some. naive_solver.
Qed.
Lemma jobs_of_saved h j : ¬ owned_by U h (Job.ID j) → tenantOrDefault (Job.TenantID j) ≠ U →
  jobs_of U (h <| History.jobs := Jobs.SaveJob (History.jobs h) j |>) = jobs_of U h ∧
  ¬ owned_by U (h <| History.jobs := Jobs.SaveJob (History.jobs h) j |>) (Job.ID j).
Proof.
  intros Hn Ht. set (h' := h <| History.jobs := _ |>).
  assert (filter (λ kv, JobRow.tenant_id kv.2 = U) (History.jobs h') = filter (λ kv, JobRow.tenant_id kv.2 = U) (History.jobs h)) as Hf.
  { assert (∀ r, History.jobs h !! Job.ID j = Some r → JobRow.tenant_id r ≠ U) as Hr.
    { intros r Hr HU. apply Hn. unfold owned_by. by rewrite Hr, <-HU. }
    rewrite <-(map_fmap_id (History.jobs h)), <-(map_fmap_id (History.jobs h')). unfold h'. simpl. unfold Jobs.SaveJob.
    destruct (History.jobs h !! Job.ID j) eqn:E; (apply (filter_insert_other JobRow.tenant_id id); [done|done|]);
      intros r' Hr'; rewrite E in Hr'; by apply Hr. }
  assert (∀ id, owned_by U h' id ↔ owned_by U h id) as Ho by (intros id; by rewrite !owned_by_filter, Hf).
  split; [|by rewrite Ho]. unfold jobs_of. f_equal; [f_equal; [exact Hf|]|].
  - apply filter_iff. intros x. apply Ho.
  - apply map_filter_ext. intros i x _. apply Ho.
Qed.
Lemma jobs_of_event h id level msg t : ¬ owned_by U h id →
  jobs_of U (h <| History.events := AddJobEvent (History.events h) id level msg t |>) = jobs_of U h.
Proof.
  intros Hn. unfold jobs_of. simpl. f_equal. f_equal. rewrite filter_app, filter_cons_False by done. apply app_nil_r.
Qed.

(** What a job of another tenant leaves *)
Definition leaves (d0 : option History.t) (st : Job.t * Service.t) : Prop :=
  tenantOrDefault (Job.TenantID st.1) ≠ U ∧ jobs_of U <$> Service.Db st.2 = jobs_of U <$> d0 ∧
  ∀ h, Service.Db st.2 = Some h → ¬ owned_by U h (Job.ID st.1).

Lemma leaves_record d0 st j t h : leaves d0 st → Job.ID j = Job.ID st.1 → Job.TenantID j = Job.TenantID st.1 →
  Service.Db st.2 = Some h → jobs_of U (record_job j t h) = jobs_of U h ∧ ¬ owned_by U (record_job j t h) (Job.ID j).
Proof.
  intros (Ht & _ & Hn) Hid Hten Hdb. specialize (Hn h Hdb). rewrite <-Hid in Hn. rewrite <-Hten in Ht.
  destruct (jobs_of_saved h j Hn Ht) as [Hs Ho]. unfold record_job. destruct (eventful _ _ _); [|done].
  split; [|done]. by rewrite <-Hs, <-(jobs_of_event _ (Job.ID j) "info" (Job.Message j) t Ho).
Qed.
Lemma leaves_update d0 status progress msg t1 t2 st : leaves d0 st → leaves d0 (updateJob status progress msg t1 t2 st).
Proof.
  intros Hl. unfold updateJob. set (j := _ <| Job.UpdatedAt := t1 |>).
  pose proof Hl as (Ht & Hd & Hn). split; [done|]. simpl. destruct (Service.Db st.2) as [h|] eqn:E; simpl; [|done].
  destruct (leaves_record d0 st j t2 h Hl eq_refl eq_refl E) as [Hr Ho]. split.
  - rewrite <-Hd. simpl. by rewrite Hr.
  - by intros ? [= <-].
Qed.
Lemma leaves_fail d0 cfg post err clock st : leaves d0 st → leaves d0 (fail cfg post err clock st).
Proof.
  intros Hl. unfold fail. set (j := _ <| Job.Error := _ |>).
  assert (leaves d0 (j, st.2)) as Hj by exact Hl.
  pose proof (leaves_update d0 (if bool_decide (err = ErrCanceled) then JobCanceled else JobFailed) (Job.Progress j) (err_text err)
    (clock 1%nat) (clock 2%nat) (j, st.2) Hj) as Hu.
  destruct (updateJob _ _ _ _ _ _) as [j' s']. case_if; [|done].
  destruct Hu as (Ht & Hd & Hn). split; [done|]. simpl in *. destruct (Service.Db s') as [h|]; simpl in *; [|done].
  assert (History.jobs (alert_failures cfg post j' (clock 3%nat) h) = History.jobs h ∧
    jobs_of U (alert_failures cfg post j' (clock 3%nat) h) = jobs_of U h) as [Hjobs Hof].
  { unfold alert_failures, raiseAlert. cbv zeta. case_if; [|done]. destruct (RaiseAlert _ _ _ _ _ _) as [al als].
    case_if; by destruct h. }
  split; [by rewrite Hof|]. intros ? [= <-]. unfold owned_by. rewrite Hjobs. by apply Hn.
Qed.

(** A job that is created for another tenant, under an identifier that no job
    has *)
Lemma leaves_new id newid typ opts now s :
  (∀ h, Service.Db s = Some h → History.jobs h !! (if (id =? "")%string then newid else id) = None) →
  text_of opts "_tenant" ≠ "" → text_of opts "_tenant" ≠ U → leaves (Service.Db s) (newJob id newid typ opts now s).
Proof.
  intros Hf Ht HU. unfold newJob, leaves. simpl. apply String.eqb_neq in Ht. rewrite Ht. split; [|split; [done|]].
  - unfold tenantOrDefault. by rewrite Ht.
  - intros h Hh. unfold owned_by. by rewrite Hf.
Qed.
Lemma leaves_persist d0 t st : leaves d0 st → leaves d0 (persist_new t st).
Proof.
  intros (Ht & Hd & Hn). unfold persist_new. destruct (Service.Db st.2) as [h|] eqn:E; [|by split; [|rewrite E]].
  set (j := match Jobs.GetJob _ _ with Ok p => _ | Err _ => _ end).
  assert (Job.ID j = Job.ID st.1 ∧ Job.TenantID j = Job.TenantID st.1) as [Hid Hten] by (unfold j; by case_match).
  rewrite <-Hten in Ht. specialize (Hn h eq_refl). rewrite <-Hid in Hn.
  destruct (jobs_of_saved h j Hn Ht) as [Hs Ho]. split; [done|]. simpl. split.
  - rewrite <-Hd. simpl. f_equal. by rewrite <-Hs.
  - by intros ? [= <-].
Qed.
(** Its task *)
Lemma EnqueueTask_row t task maxPending clock t' : EnqueueTask t task maxPending "" clock = Ok t' →
  ∃ r, t' = <[QueuedTask.ID task := r]> t ∧ TaskRow.id r = QueuedTask.ID task ∧ t !! QueuedTask.ID task = None.
Proof.
  unfold EnqueueTask. cbv zeta. intros He.
  assert ((if (QueuedTask.ID task =? "")%string then "" else QueuedTask.ID task) = QueuedTask.ID task) as Hid.
  { by destruct (String.eqb_spec (QueuedTask.ID task) "") as [->|]. }
  rewrite Hid in He. destruct (QueuedTask.Type_ task =? "")%string; [done|]. destruct (options_marshal _); [|done].
  destruct (_ && _); [done|]. destruct (t !! QueuedTask.ID task) eqn:E; [done|]. injection He as <-. by eexists.
Qed.
Lemma leaves_task d0 j s h t' r id : leaves d0 (j, s) → Service.Db s = Some h →
  t' = <[id := r]> (History.tasks h) → TaskRow.id r = id → History.tasks h !! id = None → ¬ owned_by U h id →
  leaves d0 (j, s <| Service.Db := Some (h <| History.tasks := t' |>) |>).
Proof.
  intros (Ht & Hd & Hn) Hh -> Hr Hid Ho. split; [done|]. simpl in *. rewrite Hh in *. split.
  - rewrite <-Hd. simpl. f_equal. unfold jobs_of. simpl. f_equal.
    apply map_filter_insert_not'; simpl; [by rewrite Hr|]. intros y Hy. congruence.
  - intros ? [= <-]. exact (Hn h eq_refl).
Qed.
Lemma submit_queued_leaves cfg post t clock typ opts s :
  (∀ h, Service.Db s = Some h → History.jobs h !! newid t = None) →
  text_of opts "_tenant" ≠ "" → text_of opts "_tenant" ≠ U →
  jobs_of U <$> Service.Db (submit_queued cfg post t clock typ opts s).2 = jobs_of U <$> Service.Db s.
Proof.
  intros Hf Ht HU. unfold submit_queued. destruct (Service.Db s) as [h|] eqn:E; [|simpl; by rewrite E].
  assert ((if (newid t =? "")%string then "" else newid t) = newid t) as Hid.
  { by destruct (String.eqb_spec (newid t) "") as [->|]. }
  pose proof (leaves_new (newid t) "" typ opts (created t) s) as Hl. rewrite Hid in Hl. specialize (Hl ltac:(rewrite E; naive_solver) Ht HU).
  unfold newJob in Hl |- *. rewrite Hid in Hl |- *. set (j := fresh_job _ _ _ _) in *.
  destruct Hl as (Htj & _ & Hn). simpl in Hn. destruct (jobs_of_saved h j (Hn h E) Htj) as [Hs Ho].
  set (h1 := h <| History.jobs := _ |>) in *. cbv zeta.
  assert (leaves (Some h) (j, (s <| Service.Nodes := NodeStore.SaveJob j (Service.Nodes s) |>) <| Service.Db := Some h1 |>)) as Hl1.
  { split; [done|]. simpl. split; [by rewrite Hs|]. by intros ? [= <-]. }
  destruct (EnqueueTask _ _ _ _ _) as [tasks|err] eqn:Eq.
  - apply EnqueueTask_row in Eq as (r & -> & Hr & Hnone). simpl in Hr, Hnone.
    pose proof (leaves_task _ j _ h1 _ r (newid t) Hl1 eq_refl eq_refl Hr Hnone Ho) as Hl2.
    pose proof (leaves_update _ JobPending f_zero "queued" (clock 4%nat) (clock 5%nat) _ Hl2) as (_ & Hd & _).
    destruct (updateJob _ _ _ _ _ _) as [j' s'] eqn:Eu. simpl in Hd |- *. exact Hd.
  - by destruct (leaves_fail _ cfg post err clock _ Hl1) as (_ & Hd & _).
Qed.
Lemma Submit_leaves cfg post stages t clock typ opts s :
  (∀ h, Service.Db s = Some h → History.jobs h !! newid t = None) →
  text_of opts "_tenant" ≠ "" → text_of opts "_tenant" ≠ U →
  jobs_of U <$> Service.Db (Submit cfg post stages t clock typ opts s).2 = jobs_of U <$> Service.Db s.
Proof.
  intros Hf Ht HU. unfold Submit. destruct (runnerFor _ _ _ _) as [fn|]; [|done].
  destruct (QueueConfig.Enabled _); [by apply submit_queued_leaves|].
  unfold create_job, take_place. destruct (_ <=? _); [done|]. simpl.
  set (s1 := s <| Service.Active := _ |>). set (st := persist_new _ _).
  assert (leaves (Service.Db s) st) as (_ & Hd & _).
  { apply leaves_persist. change (Service.Db s) with (Service.Db s1). apply leaves_new; [|done|done].
    intros h Hh. destruct (newid t =? "")%string eqn:En; by apply Hf. }
  destruct st as [j s']. simpl in Hd |- *. by case_match.
Qed.
End jobs.

(** ** The handlers *)

Section tenants.
Context `{TzData} `{LenientParse} `{Unicode} `{Crypto} `{Bcrypt} `{ClaimsCodec} `{NetIP} `{UrlParser} `{PublicSuffix} `{PatchCodec}.
Context `{MapRange} `{CountRange} `{LinkJson} `{ClashCodec} `{MetaCodec} `{PolicyCodec} `{Quoting} `{FmtAny}.
Context `{BodyCodec} `{JobOptionsCodec} `{FloatParse} `{LocalCalendar}.
Context (am : Manager.t) (e : env) (c : Context_.t).

(** The tenant of a session is one of the names that the tables store. *)
Lemma session_tenant r p : session am e r = Some p → tenantOrDefault (tenantTrim (Principal.TenantID p)) = Principal.TenantID p.
Proof.
  unfold session, request_principal, RequestPrincipal, authenticated.
  destruct (cookie _ _) as [v|]; [|by intros [=]]. destruct (negb _); [|by intros [=]].
  unfold ValidateSession. intros Hs. repeat (case_match; try done); simplify_eq/=; by rewrite tenantTrim_idemp, tenantOrDefault_trim.
Qed.
Lemma session_own r p : session am e r = Some p → tenantOrDefault (Principal.TenantID p) = Principal.TenantID p.
Proof. intros Hs. unfold tenantOrDefault. by rewrite (proj2 (String.eqb_neq _ _)) by apply (session_principal _ _ _ _ Hs). Qed.

Lemma DB_with_DB f s : DB (with_DB f s) = f <$> DB s.
Proof. unfold with_DB. destruct (DB s) as [h|] eqn:E; [done|by rewrite E]. Qed.
Lemma kept_with_DB T U f s : (∀ h, jobs_of U (f h) = jobs_of U h) → kept T U s (with_DB f s).
Proof.
  intros Hf. split.
  - unfold rows_of. rewrite DB_with_DB, <-option_fmap_compose. unfold with_DB. destruct (DB s) as [h|]; simpl; [by rewrite Hf|done].
  - intros _. unfold with_DB. by destruct (DB s).
Qed.
(** The same, where only what the database of now holds matters *)
Lemma kept_tasks T U h tasks s : DB s = Some h → jobs_of U (h <| History.tasks := tasks |>) = jobs_of U h →
  kept T U s (with_DB (λ h, h <| History.tasks := tasks |>) s).
Proof.
  intros Hh Hj. split.
  - unfold rows_of. rewrite DB_with_DB. rewrite Hh. simpl. unfold with_DB. rewrite Hh. by rewrite <-Hj.
  - intros _. unfold with_DB. by rewrite Hh.
Qed.
Lemma kept_audit T U actor action detail t s :
  kept T U s (with_DB (λ h, h <| History.audit := Audit (History.audit h) actor action detail t |>) s).
Proof. by apply kept_with_DB. Qed.
Lemma kept_log T U log s : kept T U s (with_DB (λ h, h <| History.audit := log |>) s).
Proof. by apply kept_with_DB. Qed.
Lemma kept_alerts T U alerts s : kept T U s (with_DB (λ h, h <| History.alerts := alerts |>) s).
Proof. by apply kept_with_DB. Qed.
Lemma kept_tokens T U tokens s :
  filter (λ kv, TokenRow.tenant_id kv.2 = U) (unused <$> tokens) =
    filter (λ kv, TokenRow.tenant_id kv.2 = U) (unused <$> Accounts.Tokens (Api.Acc s)) →
  kept T U s (set_tokens tokens s).
Proof. intros Ht. split; [|done]. unfold rows_of, set_tokens. simpl. by rewrite Ht. Qed.
Lemma kept_users T U users s :
  filter (λ kv, UserRow.tenant_id kv.2 = U) (not_logged_in <$> users) =
    filter (λ kv, UserRow.tenant_id kv.2 = U) (not_logged_in <$> Accounts.Users (Api.Acc s)) →
  kept T U s (set_users users s).
Proof. intros Ht. split; [|done]. unfold rows_of, set_users. simpl. by rewrite Ht. Qed.

Section handlers.
Context (p : Principal.t) (r : request) (U : string).
Hypothesis Hp : session am e r = Some p.
Hypothesis HU : U ≠ Principal.TenantID p.
Abbreviation T := (Principal.TenantID p).
Abbreviation keeps m s := (∀ w, wp m (s, w) (λ _ st', kept T U s st'.1)).

Lemma keeps_quiet {A} (m : http A) s : quiet m → keeps m s.
Proof. intros Hm w. apply (wp_mono _ _ _ _ (Hm (s, w))). intros _ st'. apply kept_core. Qed.
Lemma not_owned_token id row : owned id T row = true → TokenRow.tenant_id row ≠ U.
Proof. unfold owned. rewrite (session_own r p Hp). intros Ho. bsplit. congruence. Qed.
Lemma not_owned_user id row : user_owned id T row = true → UserRow.tenant_id row ≠ U.
Proof. unfold user_owned. rewrite (session_own r p Hp). intros Ho. bsplit. congruence. Qed.

Lemma keeps_change_token op action detail v s :
  (∀ t, op (Accounts.Tokens (Api.Acc s)) = Ok t → kept T U s (set_tokens t s)) →
  keeps (change_token e p op action detail v) s.
Proof.
  intros Hop w. unfold change_token. wp_run; try done.
  eapply kept_trans; [by apply Hop|]. apply kept_audit.
Qed.
Lemma keeps_delete s : keeps (handleAdminDeleteToken am e r) s.
Proof.
  intros w. unfold handleAdminDeleteToken. wp_step. wp_step; [done|]. cbn [wp_next]. cbv zeta.
  assert (p0 = p) as -> by congruence. apply keeps_change_token. intros t Ht. apply kept_tokens.
  cbv beta delta [DeleteTokenTenant] in Ht. destruct (_ =? 0); [done|]. injection Ht as <-.
  apply (filter_delete_other TokenRow.tenant_id unused); [done|]. apply not_owned_token.
Qed.
Lemma keeps_enable_token en s : keeps (setTokenEnabled am e en r) s.
Proof.
  intros w. unfold setTokenEnabled. wp_step. wp_step; [done|]. cbn [wp_next]. cbv zeta.
  assert (p0 = p) as -> by congruence. apply keeps_change_token. intros t Ht. apply kept_tokens.
  cbv beta delta [SetTokenEnabledTenant] in Ht. destruct (_ =? 0); [done|]. injection Ht as <-.
  apply (filter_update_other TokenRow.tenant_id unused); [done| |done]. apply not_owned_token.
Qed.
Lemma InsertToken_other t tok t' : InsertToken t tok = Ok t' → tenantOrDefault (Token.TenantID tok) ≠ U →
  filter (λ kv, TokenRow.tenant_id kv.2 = U) (unused <$> t') = filter (λ kv, TokenRow.tenant_id kv.2 = U) (unused <$> t).
Proof.
  unfold InsertToken. cbv zeta. intros Hi HT. case_bool_decide as Hn; [done|]. destruct (negb _); [done|]. injection Hi as <-.
  apply (filter_insert_other TokenRow.tenant_id unused); [done|done|]. intros r' Hr'. by destruct Hn.
Qed.
Lemma keeps_create_token s : keeps (handleAdminCreateToken am e r) s.
Proof.
  intros w. unfold handleAdminCreateToken. wp_step. wp_step; [done|]. cbn [wp_next].
  assert (p0 = p) as -> by congruence. wp_run; try done.
  destruct (auth_db s) as [d|] eqn:Hd; [|done]. unfold CreateToken in E0.
  destruct (NewTokenPlain _ _) as [[plain id] prefix]. destruct (bcrypt_generate _ _); [|done].
  destruct (normalizeProtocols _); [|done]. cbn [rbind] in E0. cbv zeta in E0.
  destruct (InsertToken _ _) as [tokens|] eqn:Ei; [|done]. cbn [rbind] in E0. injection E0 as <- <-.
  apply InsertToken_other in Ei; [|simpl; rewrite (session_tenant r p Hp); congruence].
  unfold auth_db in Hd. destruct (DB s) as [h|] eqn:Eh; [|done]. injection Hd as <-.
  unfold set_auth. rewrite Eh. split; [|done]. unfold rows_of, set_DB, DB in *. simpl in *. rewrite Ei, Eh. done.
Qed.
Lemma keeps_enable_user en s : keeps (setUserEnabled am e en r) s.
Proof.
  intros w. unfold setUserEnabled. wp_step. wp_step; [done|]. cbn [wp_next].
  assert (p0 = p) as -> by congruence. wp_run; try done.
  eapply kept_trans; [|apply kept_audit]. apply kept_users. unfold SetUserEnabled in *.
  destruct (_ =? 0); [done|]. simplify_eq. apply (filter_update_other UserRow.tenant_id not_logged_in); [done| |done]. apply not_owned_user.
Qed.
Lemma InsertUser_other t u clock t' : InsertUser t u clock = Ok t' → tenantOrDefault (User.TenantID u) ≠ U →
  filter (λ kv, UserRow.tenant_id kv.2 = U) (not_logged_in <$> t') = filter (λ kv, UserRow.tenant_id kv.2 = U) (not_logged_in <$> t).
Proof.
  unfold InsertUser. cbv zeta. intros Hi HT. destruct (_ || _); [done|]. case_bool_decide as Hn; [done|].
  destruct (negb _); [done|]. injection Hi as <-.
  apply (filter_insert_other UserRow.tenant_id not_logged_in); [done|done|]. intros r' Hr'. by destruct Hn.
Qed.
Lemma keeps_create_user s : keeps (handleAdminCreateUser am e r) s.
Proof.
  intros w. unfold handleAdminCreateUser. wp_step. wp_step; [done|]. cbn [wp_next].
  assert (p0 = p) as -> by congruence. wp_run; try done.
  eapply kept_trans; [|apply kept_audit]. apply kept_users.
  eapply InsertUser_other; [eassumption|]. simpl. rewrite (session_own r) by done. congruence.
Qed.
Lemma cancel_other h id j clock tasks : Jobs.GetJobTenant (History.jobs h) id T = Ok j →
  CancelTask (History.tasks h) id clock = Ok tasks → jobs_of U (h <| History.tasks := tasks |>) = jobs_of U h.
Proof.
  unfold Jobs.GetJobTenant, CancelTask. intros Hj Hc. destruct (History.jobs h !! id) as [row|] eqn:Er; [|done].
  destruct (job_in T row) eqn:Ei; [|done]. destruct (count_where _ _ =? 0); [done|]. injection Hc as <-.
  assert (¬ owned_by U h id) as Ho.
  { unfold owned_by. rewrite Er. intros [= Hrow]. unfold job_in in Ei.
    rewrite (session_own r p Hp), (proj2 (String.eqb_neq T "")) in Ei by apply (session_principal _ _ _ _ Hp).
    simpl in Ei. bsplit. congruence. }
  unfold jobs_of. f_equal. apply map_eq. intros i. apply option_eq. intros x. simpl.
  rewrite !map_lookup_filter_Some, lookup_update_where. destruct (History.tasks h !! i) as [row'|] eqn:Et; simpl; [|done].
  destruct (_ && _) eqn:E; [|done]. bsplit. split; intros [[= <-] Hx]; unfold owned_by in *; simpl in *; congruence.
Qed.
Lemma keeps_cancel_task s : keeps (handleAdminCancelTask am e r) s.
Proof.
  intros w. unfold handleAdminCancelTask. wp_step. wp_step; [done|]. cbn [wp_next].
  assert (p0 = p) as -> by congruence. wp_run; try done; try apply kept_audit.
  eapply kept_trans; [apply kept_audit|]. eapply kept_tasks; [rewrite DB_with_DB, E; done|].
  change (jobs_of U (t <| History.tasks := a0 |>) = jobs_of U t). by eapply cancel_other.
Qed.
Lemma keeps_alert acknowledge s : keeps (changeAlert am e acknowledge r) s.
Proof.
  intros w. unfold changeAlert, require_default. wp_step. wp_step; [done|]. cbn [wp_next].
  wp_run; try done; (eapply kept_trans; [apply kept_alerts|apply kept_audit]).
Qed.
Lemma kept_same T' s s' : DB s' = DB s → Api.Acc s' = Api.Acc s → Api.Cfg s' = Api.Cfg s → kept T' U s s'.
Proof. intros Hd Ha Hc. unfold kept, rows_of. by rewrite Hd, Ha, Hc. Qed.
Lemma keeps_source en s : keeps (setSourceEnabled am e en r) s.
Proof.
  intros w. unfold setSourceEnabled. wp_step. wp_step; [done|]. cbn [wp_next]. wp_run; try done.
  eapply kept_trans; [|apply kept_log]. by apply kept_same.
Qed.
Lemma keeps_probe net s : keeps (handleAdminProbeSource am e net r) s.
Proof.
  intros w. unfold handleAdminProbeSource. wp_step. wp_step; [done|]. cbn [wp_next]. wp_run;
    (eapply kept_trans; [|apply kept_audit]); by apply kept_same.
Qed.
Lemma keeps_refresh lock saved s : keeps (handleAdminRefreshPublish am e lock saved r) s.
Proof.
  intros w. unfold handleAdminRefreshPublish. wp_step. wp_step; [done|]. cbn [wp_next]. wp_run; try done.
  eapply kept_trans; [|apply kept_audit]; by apply kept_same.
Qed.
Lemma keeps_config u s : keeps (handleAdminUpdateConfig am e u r) s.
Proof.
  intros w. unfold handleAdminUpdateConfig. wp_step. wp_step; [done|]. cbn [wp_next].
  assert (p0 = p) as -> by congruence.
  assert (∀ x, kept T U s (set_runtime x s)) as Hx.
  { intros x. unfold set_runtime. split; [|done]. unfold rows_of. rewrite DB_with_DB. unfold with_DB.
    change (DB (_ <| Api.Acc := _ |>)) with (DB s). destruct (DB s); done. }
  wp_run; try done; apply Hx.
Qed.
Lemma keeps_start post stages t typ trace s :
  (∀ h, DB s = Some h → History.jobs h !! newid t = None) → keeps (handleStart am e post stages t typ trace r) s.
Proof.
  intros Hf w. unfold handleStart, startJob. wp_step. wp_step. cbn [wp_next]. wp_step. wp_step; [done|]. cbn [wp_next].
  assert (p0 = p) as -> by congruence.
  assert (∀ opts, text_of (job_options_of p r trace opts) "_tenant" = T) as Ht.
  { intros opts. unfold text_of, job_options_of, set_nonempty, set_option. repeat case_match; simplify_map_eq; done. }
  assert (∀ opts, kept T U s (s <| Api.Svc := (Submit (Api.Cfg s) post stages t (clock e) typ (job_options_of p r trace opts) (Api.Svc s)).2 |>)) as Hk.
  { intros opts. split; [|done]. unfold rows_of. simpl. f_equal. unfold DB. simpl.
    apply Submit_leaves; [done| |]; rewrite Ht; [apply (session_principal _ _ _ _ Hp)|done]. }
  wp_run; try done; specialize (Hk g); rewrite E0 in Hk; exact Hk.
Qed.

(** What is left of another tenant by the handlers *)
Lemma keeps_handle ep s :
  (∀ h, DB s = Some h → History.jobs h !! newid (Context_.Timing c) = None) → keeps (handle am e c ep r) s.
Proof.
  intros Hf. destruct (changes ep) eqn:Hc; [|by apply keeps_quiet, quiet_reads]. destruct ep; try done; simpl.
  - by apply keeps_start.
  - apply keeps_create_token.
  - apply keeps_delete.
  - apply keeps_enable_token.
  - apply keeps_refresh.
  - apply keeps_source.
  - apply keeps_probe.
  - apply keeps_cancel_task.
  - apply keeps_create_user.
  - apply keeps_enable_user.
  - apply keeps_config.
  - apply keeps_alert.
Qed.
End handlers.

(** What holds of the state before a handler and after it holds of what the
    server leaves. *)
Lemma wp_serve (P : api → Prop) cfg r s resp s' :
  P s → (∀ ep vars w, find_route r (routes cfg) = Some (ep, vars) →
           wp (handle am e c ep (r <| Request.PathValue := vars |>)) (s, w) (λ _ st', P st'.1)) →
  serve am e c cfg r s = (resp, s') → P s'.
Proof.
  intros Hs Hh Hserve.
  assert (wp (guarded am e cfg (mux am e c (routes cfg)) r) (s, Writer.mk ∅ []) (λ _ st', P st'.1)) as Hw.
  { unfold guarded, cors, managementBoundary, mux. wp_run; try done; by apply Hh. }
  unfold serve in Hserve. unfold wp in Hw. by destruct (guarded _ _ _ _ _ _) as [[?|?] ?]; injection Hserve as <- <-.
Qed.

End tenants.
