(* ===== verification/SubProofs.v ===== *)
(** * What subscribers get

    A token that is restricted to countries or protocols is served the
    rendering of nodes that it may see, from the cache or on the spot. *)
From S2P Require Import Prelude Sql GoStr GoFloat GoTime Model Base64 Tasks Tokens Users Jobs Alerts Auth.
From S2P Require Import NetAddr Ratelimit Config ConfigCheck ConfigValid Filter NodeStore NodesDB Pools NetUrl Links Clash Content Exporter.
From S2P Require Import Publish Outbound Dial DialJob Select Fetch Sources Runtime Runner DialStage Geo Web Serve Admin Views Status Scheduler Routes.
From S2P Require Import AccessProofs.

(** ** The cache *)

Section cache.
Context `{TzData} `{LenientParse} `{Unicode} `{Crypto} `{LinkJson} `{ClashCodec} `{CountRange} `{MetaCodec}.

(** The variant of a country renders nodes of that country. *)
Definition variants_ok (c : Cache.t) : Prop :=
  ∀ b f k body, Get c = Some b → country_bodies b f !! k = Some body →
    ∃ ns, render f ns = Ok body ∧ Forall (λ n, country_key n = k) ns.

Lemma rendered_variants nodes max policy now b : render_blob nodes max policy now = Ok b →
  ∀ f k body, country_bodies b f !! k = Some body → ∃ ns, render f ns = Ok body ∧ Forall (λ n, country_key n = k) ns.
Proof.
  intros Hb f k body Hk. unfold render_blob in Hb. cbv zeta in Hb.
  destruct (group_nodes ∅ ∅ nodes) as [[m g]|] eqn:Eg; [|done]. cbn [rbind] in Hb.
  destruct (RenderRaw nodes) as [raw|]; [|done]. cbn [rbind] in Hb.
  destruct (RenderBase64 nodes) as [b64|]; [|done]. cbn [rbind] in Hb.
  apply render_variants_spec in Hb as (_ & Hin & Hout).
  destruct (group_nodes_spec _ _ _ _ _ Eg) as (ns & _ & _ & Hgr & _). specialize (Hgr k). rewrite lookup_empty in Hgr. simpl in Hgr.
  destruct (decide (k ∈ (variants m (if max <=? 0 then 30 else max)).*1)) as [Hv|Hv].
  - destruct (Hin k Hv) as ((raw' & b64' & Hr & Hb & Hraw & Hb64) & Hcl & _). rewrite Hgr in *.
    exists (List.filter (in_country k) ns). split.
    + destruct f; simpl in *; congruence.
    + apply Forall_forall. intros n [_ Hn]%elem_of_list_filter_bool. unfold in_country in Hn. bsplit. done.
  - destruct (Hout k Hv) as (H1' & H2' & H3' & _). simpl in *.
    destruct f; simpl in Hk; rewrite Hk in *; by rewrite lookup_empty in *.
Qed.
Lemma variants_update c nodes max policy now n b c' : Update c nodes max policy now n = Ok (b, c') → variants_ok c'.
Proof.
  unfold Update. destruct (render_blob _ _ _ _) as [b1|] eqn:Hb; [|done]. intros [= -> <-].
  intros b' f k body [= <-]. by eapply rendered_variants.
Qed.
Lemma variants_new d mtime : variants_ok (NewCache d mtime).
Proof.
  intros b f k body Hb. unfold NewCache, Get, loadFromDisk in Hb. cbn in Hb. cbv zeta in Hb.
  case_bool_decide; [done|]. injection Hb as <-. destruct f; simpl; by rewrite lookup_empty.
Qed.
Lemma variants_clear c : variants_ok (Clear c).
Proof. by intros b f k body. Qed.
End cache.

(** ** The handlers *)

Section served.
Context `{TzData} `{LenientParse} `{Unicode} `{Crypto} `{Bcrypt} `{ClaimsCodec} `{NetIP} `{UrlParser} `{PublicSuffix} `{PatchCodec}.
Context `{MapRange} `{CountRange} `{LinkJson} `{ClashCodec} `{MetaCodec} `{PolicyCodec} `{Quoting} `{FmtAny}.
Context `{BodyCodec} `{JobOptionsCodec} `{FloatParse} `{LocalCalendar}.
Context (am : Manager.t) (e : env) (c : Context_.t).

(** A node that a token may see: its protocol is allowed, and so is its country
    as the list of the token looks it up, or as the groups of the cache do *)
Definition in_scope (p : Principal.t) (n : node) : Prop :=
  allows (token_protocols p) (node_protocol n) = true ∧
  (allows (token_countries p) (node_country n) = true ∨
   allows (token_countries p) (country_key n) = true).
(** Text that a restricted token may be served *)
Definition scoped_text (p : Principal.t) (body : string) : Prop :=
  restricted p = true → ∃ f ns, render f ns = Ok body ∧ Forall (in_scope p) ns.

Lemma filtered_text f nodes p body : render f (filterTokenNodes nodes p) = Ok body → scoped_text p body.
Proof.
  intros Hb Hr. exists f, (filterTokenNodes nodes p). split; [done|]. unfold filterTokenNodes. rewrite Hr.
  apply Forall_forall. intros n [_ Hn]%elem_of_list_filter_bool. apply andb_true_iff in Hn as [Hc Hp]. split; [done|by left].
Qed.
Lemma sub_body_scoped s p f country body count etag updated :
  variants_ok (Service.Pub (Api.Svc s)) → countryCode country = country → (country = "" ∨ allows (token_countries p) country = true) →
  sub_body e s p f country = Ok (body, count, etag, updated) → scoped_text p body.
Proof.
  intros Hv Hcc Hc Hb. unfold sub_body in Hb. destruct (from_cache e s p f country) as [x|] eqn:Ef.
  - injection Hb as ->. unfold from_cache, freshPublishBlob in Ef. destruct (Fresh _ _ _); [|done].
    destruct (Publish.Get _) as [b|] eqn:Eg; [|done]. destruct (cached_for p country) eqn:Ec; [|done].
    destruct (Format _ _ _) as [[body' count']|] eqn:Efmt; [|done]. destruct (body' =? "")%string; [done|].
    injection Ef as -> -> _ _. intros Hr. unfold cached_for in Ec. rewrite Hr in Ec. simpl in Ec.
    apply andb_true_iff in Ec as [Hne Hp]. unfold Format in Efmt. simpl in Efmt.
    destruct (parse_format (format_name f)) as [f'|]; [|done]. simpl in Efmt.
    change (normalizeCC country) with (countryCode country) in Efmt. rewrite Hcc, Hne in Efmt.
    destruct (country_bodies b f' !! country) as [body2|] eqn:Hk; [|done]. injection Efmt as -> _.
    destruct (Hv b f' _ _ Eg Hk) as (ns & Hns & HF). exists f', ns. split; [done|].
    eapply Forall_impl; [exact HF|]. intros n Hn. split; [|right; rewrite Hn].
    + unfold allows, token_protocols. case_bool_decide as Ha; [|done]. by rewrite Ha.
    + destruct Hc as [->|Hc]; [by cbn in Hne|done].
  - destruct (render f _) as [body'|] eqn:Er; [|done]. cbn [rbind] in Hb. injection Hb as -> _ _ _. by eapply filtered_text.
Qed.

(** The principal of the token that a request carries *)
Definition token_of (s : api) (r : request) (p : Principal.t) : Prop :=
  ∃ d, ValidateSubToken am (auth_db s) (extractToken (Api.Cfg s) r) (clock e 2%nat) (clock e 3%nat) = Ok (p, d).
Lemma ensurePublish_token r s w : wp (ensurePublish am e r) (s, w)
  (λ x _, match x with inl resp => Response.Status resp ≠ 200 | inr p => token_of s r p end).
Proof.
  unfold ensurePublish, limit_client, find_token, limit_token, limit_country, limit_quota. wp_run; try done; by eexists.
Qed.
Lemma wp_ensurePublish r s w (Q : response + Principal.t → hstate → Prop) :
  (∀ resp st', Response.Status resp ≠ 200 → Q (inl resp) st') →
  (∀ p st', token_of s r p → core st'.1 = core s → Q (inr p) st') →
  wp (ensurePublish am e r) (s, w) Q.
Proof.
  intros HE HA. pose proof (quiet_ensurePublish am e r (s, w)) as Hq. pose proof (ensurePublish_token r s w) as Ht.
  unfold wp in *. destruct (ensurePublish am e r (s, w)) as [[resp|p] st']; simpl in *; [by apply HE|by apply HA].
Qed.

(** A reply with text is one that the token of the request may be served. *)
Definition served (s : api) (r : request) (x : response + unit) : Prop :=
  match x with
  | inl resp => ∀ body, Response.Status resp = 200 → Response.Body resp = Text body → ∃ p, token_of s r p ∧ scoped_text p body
  | inr _ => True
  end.
Lemma core_pub s s' : core s' = core s → Service.Pub (Api.Svc s') = Service.Pub (Api.Svc s).
Proof. unfold core. by intros [= _ _ _ _ ->]. Qed.
Lemma served_selected s r r' nodes format filename refresh p st :
  token_of s r p → wp (serveSelectedSubscription e r' (filterTokenNodes nodes p) format filename refresh p) st (λ x _, served s r x).
Proof.
  intros Hp. unfold serveSelectedSubscription, send_body, or_crash, crash. wp_run; try done.
  intros body _ [= <-]. exists p. split; [done|]. by eapply filtered_text.
Qed.
Lemma served_pool s r w : wp (handleSubPool am e r) (s, w) (λ x _, served s r x).
Proof.
  unfold handleSubPool. apply wp_bind, wp_ensurePublish; [by intros resp st' Hn body|].
  intros p [s' w'] Hp Hc. cbn [wp_next]. repeat (wp_step || cbn [wp_next]); try done. by apply served_selected.
Qed.
Lemma served_country s r w : wp (handleSubCountry am e r) (s, w) (λ x _, served s r x).
Proof.
  unfold handleSubCountry. apply wp_bind, wp_ensurePublish; [by intros resp st' Hn body|].
  intros p [s' w'] Hp Hc. cbn [wp_next]. repeat (wp_step || cbn [wp_next]); try done. by apply served_selected.
Qed.
Lemma served_format f s r w :
  variants_ok (Service.Pub (Api.Svc s)) → countryCode (countryCode (query r "country")) = countryCode (query r "country") →
  wp (serveSubFormat am e f r) (s, w) (λ x _, served s r x).
Proof.
  intros Hv Hcc. unfold serveSubFormat. apply wp_bind.
  assert (wp (on_reply (ensurePublish am e r) (IncSub (format_name f) 401)) (s, w)
    (λ x st', match x with inl resp => Response.Status resp ≠ 200 | inr p => token_of s r p ∧ core st'.1 = core s end)) as Ho.
  { unfold on_reply, wp. pose proof (wp_ensurePublish r s w (λ x st', match x with inl resp => Response.Status resp ≠ 200 | inr p => token_of s r p ∧ core st'.1 = core s end)) as Hw.
    specialize (Hw ltac:(done) ltac:(done)). unfold wp in Hw. by destruct (ensurePublish am e r (s, w)) as [[resp|p] st']. }
  apply (wp_mono _ _ _ _ Ho). intros [resp|p] [s' w'] Hx; cbn [wp_next]; [by intros body|]. destruct Hx as [Hp Hc].
  assert (Hpub : variants_ok (Service.Pub (Api.Svc s'))) by (rewrite (core_pub s s' Hc); done).
  cbv zeta. unfold or_crash, crash, setSubHeaders, send_body. wp_run; try done.
  all: intros body _ [= <-]; exists p; (split; [done|]).
  all: match goal with Eb : sub_body _ _ _ _ _ = Ok _ |- _ => refine (sub_body_scoped _ _ _ _ _ _ _ _ Hpub Hcc _ Eb) end.
  all: destruct (String.eqb_spec (countryCode (query r "country")) "") as [?|?]; [by left|right].
  all: match goal with Ec : _ && negb (principalAllowsCountry _ _) = false |- _ => by apply negb_false_iff in Ec end.
Qed.

(** The endpoints that serve nodes to subscribers *)
Definition serves_nodes (ep : endpoint) : bool := match ep with SubAs _ | SubPool | SubCountry => true | _ => false end.
Lemma served_handle ep s r w : serves_nodes ep = true → variants_ok (Service.Pub (Api.Svc s)) →
  countryCode (countryCode (query r "country")) = countryCode (query r "country") →
  wp (handle am e c ep r) (s, w) (λ x _, served s r x).
Proof.
  intros Hep Hv Hcc. destruct ep; try done; simpl; [by apply served_format|apply served_pool|apply served_country].
Qed.

(** C39: A restricted token gets nothing else.  When a subscription is served
    with status 200 and a text, the request carries a valid token, and if that
    token is restricted to countries or protocols the text is the rendering of
    nodes all of whose protocols and countries it allows — from the variants of
    the cache, which render nodes of their country only, or selected on the
    spot.  The country that the request asks for is in normal form after one
    normalisation, as any text of ASCII is. *)
Theorem subscription_scoped cfg r s resp s' ep vars body :
  variants_ok (Service.Pub (Api.Svc s)) → countryCode (countryCode (query r "country")) = countryCode (query r "country") →
  find_route r (routes cfg) = Some (ep, vars) → serves_nodes ep = true →
  serve am e c cfg r s = (resp, s') → Response.Status resp = 200 → Response.Body resp = Text body →
  ∃ p, token_of s r p ∧ scoped_text p body.
Proof.
  intros Hv Hcc Hf Hep Hs. pose proof (served_handle ep s (r <| Request.PathValue := vars |>)) as Hh.
  assert (wp (guarded am e cfg (mux am e c (routes cfg)) r) (s, Writer.mk ∅ []) (λ x _, served s r x)) as Hw.
  { unfold guarded, cors, managementBoundary, mux. rewrite Hf. wp_run; try done; by apply Hh. }
  unfold serve in Hs. unfold wp in Hw. destruct (guarded _ _ _ _ _ _) as [[?|?] ?]; injection Hs as <- <-; [apply Hw|done].
Qed.
End served.
