(* ===== verification/SecretProofs.v ===== *)
(** * What nodes do not show

    Below the role of an administrator the listing of the nodes and a node by
    itself depend on what [redact_node] leaves of the nodes alone. *)
From S2P Require Import Prelude Sql GoStr GoFloat GoTime Model Base64 Tasks Tokens Users Jobs Alerts Auth.
From S2P Require Import NetAddr Ratelimit Config ConfigCheck ConfigValid Filter NodeStore NodesDB Pools NetUrl Links Clash Content Exporter.
From S2P Require Import Publish Outbound Dial DialJob Select Fetch Sources Runtime Runner DialStage Geo Web Serve Admin Views Status Scheduler Routes.
From S2P Require Import AccessProofs.

(** ** Redacted nodes *)

Lemma redact_ID n : Node.ID (redact_node n) = Node.ID n.
Proof. by destruct n. Qed.
Lemma redact_clone n : redact_node (cloneNode n) = cloneNode (redact_node n).
Proof. by destruct n. Qed.
Lemma redact_less a b : list_less (redact_node a) (redact_node b) = list_less a b.
Proof. by destruct a, b. Qed.
Lemma redact_scored n : scored (redact_node n) ↔ scored n.
Proof. by destruct n. Qed.
Lemma redact_match `{Unicode} f n : Match f (redact_node n) = Match f n.
Proof. by destruct n. Qed.

(** [n2] is [n1] with other credentials *)
Definition same_but_secrets (n1 n2 : node) : Prop := ∃ uuid password uri fingerprint extra,
  n2 = n1 <| Node.UUID := uuid |> <| Node.Password := password |> <| Node.RawURI := uri |>
          <| Node.Fingerprint := fingerprint |> <| Node.Extra := extra |>.
Lemma redact_secrets n1 n2 : same_but_secrets n1 n2 → redact_node n1 = redact_node n2.
Proof. intros (? & ? & ? & ? & ? & ->). by destruct n1. Qed.
Lemma redact_all (m1 m2 : gmap string node) :
  (∀ k, option_Forall2 same_but_secrets (m1 !! k) (m2 !! k)) → redact_node <$> m1 = redact_node <$> m2.
Proof.
  intros Hm. apply map_eq. intros k. rewrite !lookup_fmap. destruct (Hm k) as [n1 n2 Hn|]; [|done].
  simpl. f_equal. by apply redact_secrets.
Qed.

(** Sorting and cutting go through a map that keeps the order. *)
Section fmap.
Context {A : Type} (less : A → A → bool) (g : A → A).
Hypothesis g_less : ∀ a b, less (g a) (g b) = less a b.
Lemma sinsert_fmap x l : sinsert less (g x) (g <$> l) = g <$> sinsert less x l.
Proof.
  induction l as [|y l IH]; [done|]. rewrite fmap_cons. cbn [sinsert]. rewrite g_less.
  destruct (less y x); rewrite !fmap_cons; by rewrite ?IH.
Qed.
Lemma stable_sort_fmap l : stable_sort less (g <$> l) = g <$> stable_sort less l.
Proof.
  induction l as [|x l IH]; [done|]. rewrite fmap_cons. unfold stable_sort in *. cbn [foldr]. by rewrite IH, sinsert_fmap.
Qed.
Lemma filter_fmap (p : A → bool) l : (∀ x, p (g x) = p x) → List.filter p (g <$> l) = g <$> List.filter p l.
Proof.
  intros Hp. induction l as [|x l IH]; [done|]. rewrite fmap_cons. cbn [List.filter]. rewrite Hp.
  destruct (p x); rewrite ?fmap_cons; by rewrite IH.
Qed.
Lemma truncate_fmap n l : truncate n (g <$> l) = g <$> truncate n l.
Proof. unfold truncate. rewrite length_fmap. case_if; [|done]. by rewrite fmap_take. Qed.
End fmap.
Lemma rows_fmap {A B} (g : A → B) (t : gmap string A) : rows (g <$> t) ≡ₚ g <$> rows t.
Proof. unfold rows. rewrite map_to_list_fmap, <-!list_fmap_compose. done. Qed.

Section listing.
Context `{Unicode} `{Crypto} `{MapRange}.

(** Two stores of nodes that differ in credentials only *)
Definition same_shown (s1 s2 : store) : Prop := redact_node <$> Store.nodes s1 = redact_node <$> Store.nodes s2.
Definition listed (m : gmap string node) (f : NodeFilter.t) : list node :=
  stable_sort list_less (cloneNode <$> List.filter (Match f) (redact_node <$> range_nodes m)).
Lemma redacted_listing f s :
  redact_node <$> ListNodes f s = truncate (NodeFilter.Limit f) (listed (Store.nodes s) f).
Proof.
  unfold ListNodes, listed. rewrite <-truncate_fmap. f_equal.
  rewrite <-(stable_sort_fmap list_less) by apply redact_less. f_equal.
  rewrite filter_fmap by apply redact_match. rewrite <-!list_fmap_compose. apply list_fmap_ext. intros i n _. apply redact_clone.
Qed.
Lemma same_listing f s1 s2 :
  same_shown s1 s2 → Sql.keyed Node.ID (Store.nodes s1) → map_Forall (λ _ n, scored n) (Store.nodes s1) →
  redact_node <$> ListNodes f s1 = redact_node <$> ListNodes f s2.
Proof.
  intros Hs Hk Hsc. rewrite !redacted_listing. f_equal. unfold listed.
  assert (Hin : ∀ x, x ∈ cloneNode <$> List.filter (Match f) (redact_node <$> range_nodes (Store.nodes s1)) →
    ∃ n, x = cloneNode (redact_node n) ∧ n ∈ rows (Store.nodes s1) ∧ scored x).
  { intros x (y & -> & [(n & -> & Hn)%list_elem_of_fmap _]%elem_of_list_filter_bool)%list_elem_of_fmap. exists n.
    rewrite range_nodes_perm in Hn. split; [done|]. split; [done|]. apply elem_of_rows in Hn as [k Hn].
    apply Hsc in Hn. by destruct n. }
  apply (stable_sort_unique scored list_less).
  - apply Forall_forall. intros x Hx. by apply Hin in Hx as (n & _ & _ & ?).
  - intros x y Hx Hy Hxy Hyx. apply Hin in Hx as (a & -> & Ha & Hsa), Hy as (b & -> & Hb & Hsb).
    assert (a = b) as ->; [|done]. apply (rows_NoDup_id (key := Node.ID) (Store.nodes s1)); [done|done|done|].
    apply list_less_total in Hxy; [|done..]. by destruct a, b.
  - apply fmap_Permutation, filter_perm. rewrite !range_nodes_perm, <-!rows_fmap. by rewrite Hs.
Qed.
End listing.

(** ** Two states *)

(** A computation that does the same from both states and changes neither *)
Definition agrees {A} (s1 s2 : api) (m : http A) : Prop := ∀ w, ∃ x w', m (s1, w) = (x, (s1, w')) ∧ m (s2, w) = (x, (s2, w')).

Section agrees.
Context (s1 s2 : api).
Lemma agrees_bind {A B} (m : http A) (f : A → http B) :
  agrees s1 s2 m → (∀ a, agrees s1 s2 (f a)) → agrees s1 s2 (hbind m f).
Proof.
  intros Hm Hf w. destruct (Hm w) as ([resp|a] & w1 & Ha & Hb).
  - exists (inl resp), w1. unfold hbind. by rewrite Ha, Hb.
  - destruct (Hf a w1) as (y & w2 & Hc & Hd). exists y, w2. unfold hbind. by rewrite Ha, Hb, Hc, Hd.
Qed.
(** Reading the state: the two continuations are compared. *)
Lemma agrees_state {A} (f : api → http A) :
  (∀ w, ∃ x w', f s1 (s1, w) = (x, (s1, w')) ∧ f s2 (s2, w) = (x, (s2, w'))) → agrees s1 s2 (let? s := state in f s).
Proof. done. Qed.
Lemma agrees_ret {A} (a : A) : agrees s1 s2 (hret a).
Proof. intros w. by exists (inr a), w. Qed.
Lemma agrees_SetHeader k v : agrees s1 s2 (SetHeader k v).
Proof. intros w. by exists (inr tt), (w <| Writer.Header := <[k := v]> (Writer.Header w) |>). Qed.
Lemma agrees_SetHeaders kvs : agrees s1 s2 (SetHeaders kvs).
Proof. induction kvs as [|kv kvs IH]; [apply agrees_ret|]. apply agrees_bind; [apply agrees_SetHeader|done]. Qed.
Lemma agrees_reply {A} code body : agrees s1 s2 (reply (A := A) code body).
Proof. intros w. by exists (inl (Response.mk code (Writer.Header w) (Writer.Cookies w) body)), w. Qed.
Lemma agrees_Error {A} msg code : agrees s1 s2 (Error (A := A) msg code).
Proof. do 2 (apply agrees_bind; [apply agrees_SetHeader|intros _]). apply agrees_reply. Qed.
Lemma agrees_writeJSON v : agrees s1 s2 (writeJSON v).
Proof. apply agrees_bind; [apply agrees_SetHeader|intros _]. apply agrees_reply. Qed.
End agrees.

Lemma pageSlice_fmap (g : node → node) (items : list node) cursor limit : (∀ n, Node.ID (g n) = Node.ID n) →
  pageSlice Node.ID (g <$> items) cursor limit = (λ pn : list node * string, (g <$> pn.1, pn.2)) <$> pageSlice Node.ID items cursor limit.
Proof.
  intros Hg. assert (∀ l, index_of Node.ID cursor (g <$> l) = index_of Node.ID cursor l) as Hi.
  { intros l. induction l as [|n l IH]; [done|]. rewrite fmap_cons. cbn [index_of]. by rewrite Hg, IH. }
  unfold pageSlice, page_start. rewrite Hi, length_fmap.
  destruct (if (cursor =? "")%string then _ else _) as [start|]; [|done]. simpl. rewrite <-fmap_drop, <-fmap_take. f_equal. f_equal.
  case_if; [|done]. rewrite fmap_last. destruct (last _); simpl; [apply Hg|done].
Qed.

Section secrets.
Context `{TzData} `{LenientParse} `{Unicode} `{Crypto} `{Bcrypt} `{ClaimsCodec} `{NetIP} `{UrlParser} `{PublicSuffix} `{PatchCodec}.
Context `{MapRange} `{CountRange} `{LinkJson} `{ClashCodec} `{MetaCodec} `{PolicyCodec} `{Quoting} `{FmtAny}.
Context `{BodyCodec} `{JobOptionsCodec} `{FloatParse} `{LocalCalendar}.
Context (am : Manager.t) (e : env) (c : Context_.t).

(** The state with other nodes *)
Definition with_nodes (m : gmap string node) (s : api) : api :=
  s <| Api.Svc := (Api.Svc s) <| Service.Nodes := (nodes_of s) <| Store.nodes := m |> |> |>.

Section two.
Context (s : api) (m : gmap string node) (r : request).
Hypothesis Hsame : redact_node <$> Store.nodes (nodes_of s) = redact_node <$> m.
Hypothesis Hkeyed : Sql.keyed Node.ID (Store.nodes (nodes_of s)).
Hypothesis Hscored : map_Forall (λ _ n, scored n) (Store.nodes (nodes_of s)).
Hypothesis Hrole : hasRole am e r RoleAdmin = false.
Let s' := with_nodes m s.

Lemma agrees_nodes : agrees s s' (handleNodes am e r).
Proof.
  unfold handleNodes. apply agrees_state. intros w.
  assert (nodes_filter e r s' = nodes_filter e r s) as -> by done.
  pose proof (same_listing (nodes_filter e r s) (nodes_of s) (nodes_of s') Hsame Hkeyed Hscored) as Hl.
  set (l1 := ListNodes _ (nodes_of s)) in *. set (l2 := ListNodes _ (nodes_of s')) in *.
  pose proof (f_equal length Hl) as Hlen. rewrite !length_fmap in Hlen.
  pose proof (f_equal (λ l, pageSlice Node.ID l (query r "cursor") (nodes_limit r)) Hl) as Hp. simpl in Hp.
  rewrite !pageSlice_fmap in Hp by apply redact_ID.
  destruct (pageSlice Node.ID l1 _ _) as [[p1 n1]|], (pageSlice Node.ID l2 _ _) as [[p2 n2]|]; simplify_eq/=; [|apply agrees_Error].
  assert (∀ p : list node, (λ n, VNode (shown_to am e r n)) <$> p = VNode <$> (redact_node <$> p)) as Hs.
  { intros p. rewrite <-list_fmap_compose. apply list_fmap_ext. intros i n _. unfold shown_to. by rewrite Hrole. }
  assert (length p1 = length p2) as Hpl by (rewrite <-(length_fmap redact_node p1), <-(length_fmap redact_node p2); congruence).
  rewrite !Hs, Hlen, Hpl. match goal with E : redact_node <$> p1 = _ |- _ => rewrite E end. apply agrees_writeJSON.
Qed.
Lemma agrees_node : agrees s s' (handleNode am e r).
Proof.
  unfold handleNode. apply agrees_state. intros w. unfold GetNode.
  pose proof (f_equal (λ t, t !! path_value r "id") Hsame) as Hl. simpl in Hl. rewrite !lookup_fmap in Hl.
  change (Store.nodes (nodes_of s')) with m. unfold shown_to. rewrite Hrole.
  destruct (Store.nodes (nodes_of s) !! _) as [n1|], (m !! _) as [n2|]; try done; [|apply agrees_Error].
  assert (redact_node n1 = redact_node n2) as Hn by exact (Some_inj _ _ Hl).
  cbn [fmap option_fmap option_map]. rewrite !redact_clone, Hn. apply agrees_writeJSON.
Qed.
End two.

End secrets.
