(* ===== verification/ApiExamples.v ===== *)
(** * Requests at work

    A small server with a session of the tenant "acme", a token that is
    restricted to two countries, a cache with variants, and two nodes. *)
From S2P Require Import Prelude Sql GoStr GoFloat GoTime Model Base64 Tasks Tokens Users Jobs Alerts Auth.
From S2P Require Import NetAddr Ratelimit Config ConfigCheck ConfigValid Filter NodeStore NodesDB Pools NetUrl Links Clash Content Exporter.
From S2P Require Import Publish Outbound Dial DialJob Select Fetch Sources Runtime Runner DialStage Geo Web Serve Admin Views Status Scheduler Routes.
From S2P Require Import AccessProofs RouteProofs TenantProofs SubProofs SecretProofs.
From S2P Require Import TaskExamples AccountExamples NodeExamples LinkExamples ServiceExamples JobExamples.

#[local] Existing Instances no_tzdata no_tzdata_cst ascii_only checksums keeping in_order empty_snapshot strict_only.
#[local] Existing Instances simple_url_parser org_suffix digit_patches no_yaml no_json sorted_range one_policy engine_policy.
#[local] Existing Instances no_text plain_quotes fixed_days no_options.

(** A codec that knows the claims of one session *)
#[local] Instance one_session : ClaimsCodec := {|
  claims_marshal _ := Some "acme";
  claims_unmarshal s :=
    if (s =? "acme")%string
    then Some (Claims.mk "nodeharvest" "u1" "alice" "a@example.org" "operator" "acme" (Unix t0) (Unix (t0 + 12 * Hour))) else None;
  header_unmarshal s := if (s =? header_text)%string then Some {["alg" := "HS256"; "typ" := "JWT"]} else None |}.
(** No body has a meaning, and no number is read. *)
#[local] Instance no_bodies : BodyCodec := {|
  login_body _ := Err (ErrMsg "EOF"); token_body _ := Err (ErrMsg "EOF"); user_body _ := Err (ErrMsg "EOF");
  config_body _ := Err (ErrMsg "EOF"); options_body _ := Ok (Some ∅) |}.
#[local] Instance no_floats : FloatParse := λ _, (f_zero, false).

Definition minute_later (i : nat) : Time := t0 + Minute.
Definition an_env : env := {| entered := t0 + Minute; clock := minute_later; random _ := "01234567"; sent := slen |}.
Definition a_timing : timing := Build_timing "j9" (t0 + Minute) (t0 + Minute) minute_later minute_later minute_later.
Definition a_context : Context_.t :=
  Context_.mk (Outside.mk None None None false "dev" [] 0) network NoRedis 8 (update 1) no_post some_stages a_timing ("", "")
    (λ _ _, Err (ErrMsg "not found")) None.

(** The token of the tenant "acme" is in the table; so is a job of "default". *)
Definition some_jobs : History.t := a_history <| History.jobs := Jobs.SaveJob ∅ a_job |>.
Definition an_api : api :=
  Api.mk two_sources (service <| Service.Db := Some some_jobs |> <| Service.Pub := full_cache |>)
    (Accounts.mk (AuthDB.tokens created.2) ∅ root0 ∅) (NewTokenBucket (f_of_Z 5) 5) (NewTokenBucket (f_of_Z 5) 5) ∅.
Definition get_request (path : string) : request :=
  Request.mk "GET" path "" "nodes.example.org" true "203.0.113.9:4711" ∅ [] ∅ None "r1".
Definition a_cookie : string := get "" (IssueSession manager (Some alice) t0).
Definition with_session (r : request) : request := r <| Request.Cookies := [("nh_session", a_cookie)] |>.
Definition post_request (path : string) : request := (get_request path) <| Request.Method := "POST" |>.

(** Anyone may ask for a job, but nothing happens. *)
Lemma unauthenticated_confined_witness :
  core (serve manager an_env a_context two_sources (post_request "/api/jobs/fetch") an_api).2 = core an_api ∧
  Response.Status (serve manager an_env a_context two_sources (post_request "/api/jobs/fetch") an_api).1 = 401.
Proof.
  split; [|by vm_compute].
  apply (unauthenticated_confined manager an_env a_context two_sources (post_request "/api/jobs/fetch") an_api
    (serve manager an_env a_context two_sources (post_request "/api/jobs/fetch") an_api).1); [by vm_compute|].
  by rewrite <-surjective_pairing.
Defined.

Lemma management_guarded_witness :
  ∃ resp, refusal resp ∧ ∀ s, serve manager an_env a_context two_sources (get_request "/api/nodes/a") s = (resp, s).
Proof.
  apply (management_guarded manager an_env a_context two_sources (get_request "/api/nodes/a") OneNode {["id" := "a"]}); by vm_compute.
Defined.

(** An operator of "acme" starts a job; the job of "default" stays. *)
Definition acme_request : request := with_session (post_request "/api/jobs/fetch").
Definition acme : Principal.t :=
  Principal.mk "session" "" "alice" [] [] f_zero 0 "operator" "acme" "u1" "a@example.org" true.

(** ** A subscription *)

(** A token for Japan, and a reader a minute after the publication *)
Definition japan :=
  get (no_token, empty_db)
    (CreateToken (Some empty_db) "tv" "" "acme" ["jp"] [] 0 f_zero 0 "root" "0123456789abcdef01234567" "abcdefgh" "salt" t0 t0 t0).
Definition a_reader : env :=
  {| entered := published_at + Minute; clock _ := published_at + Minute; random _ := ""; sent := slen |}.
Definition japan_api : api :=
  an_api <| Api.Acc := (Api.Acc an_api) <| Accounts.Tokens := AuthDB.tokens japan.2 |> |>.
Definition sub_request : request :=
  (get_request "/sub/raw") <| Request.RawQuery := "country=jp" |>
    <| Request.Header := {["X-Sub-Token" := Token.PlainToken japan.1]} |>.
Definition japan_reply := serve manager a_reader a_context two_sources sub_request japan_api.
Definition japan_text : string := match Response.Body japan_reply.1 with Text s => s | _ => "" end.
Example japan_served : Response.Status japan_reply.1 = 200 ∧ japan_text = default "" (Blob.CountryRaw published !! "JP") ∧ japan_text ≠ "".
Proof. split_and!; vm_compute; done. Qed.

Lemma subscription_scoped_witness :
  ∃ p, token_of manager a_reader japan_api sub_request p ∧ Principal.AllowCountries p = ["JP"] ∧
    ∃ f ns, render f ns = Ok japan_text ∧ Forall (in_scope p) ns.
Proof.
  destruct (subscription_scoped manager a_reader a_context two_sources sub_request japan_api japan_reply.1 japan_reply.2 (SubAs FRaw) ∅ japan_text)
    as (p & [d Hp] & Hs).
  - assert (Service.Pub (Api.Svc japan_api) = full_cache) as -> by (cbn; reflexivity).
    exact (variants_update _ _ _ _ _ _ _ _ update_published).
  - by vm_compute.
  - by vm_compute.
  - done.
  - by rewrite <-surjective_pairing.
  - by vm_compute.
  - by vm_compute.
  - assert (ValidateSubToken manager (auth_db japan_api) (extractToken (Api.Cfg japan_api) sub_request)
      (clock a_reader 2%nat) (clock a_reader 3%nat) = Ok (p, d)) as Hp' by exact Hp.
    assert (match ValidateSubToken manager (auth_db japan_api) (extractToken (Api.Cfg japan_api) sub_request)
      (clock a_reader 2%nat) (clock a_reader 3%nat) with
      | Ok (q, _) => Principal.AllowCountries q | Err _ => [] end = ["JP"]) as Hq by by vm_compute.
    rewrite Hp' in Hq. exists p. split; [by exists d|]. split; [exact Hq|]. apply Hs.
    unfold restricted. by rewrite Hq.
Defined.

(** ** Two servers that differ in a password *)

Definition other_password : gmap string node := (λ n, n <| Node.Password := "changed" |>) <$> Store.nodes memory.
