(* ===== verification/Schema.v ===== *)
(** * The database: [db/sqlite.go], its opening and its schema

    The options of a connection, the placeholders of the two dialects, and the
    migration of a database of an earlier version as the statements it runs on
    the columns of its tables. *)
From S2P Require Import Prelude GoStr.

(** ** The placeholders *)

(** [rebind]: the placeholders of PostgreSQL are numbered. *)
Fixpoint numbered (index : Z) (rs : list (option bytes)) : bytes :=
  match rs with
  | [] => []
  | r :: rs =>
      if bool_decide (r = Some ["?"%char]) then (explode ("$" +:+ Itoa index) ++ numbered (index + 1) rs)%list
      else (rune_bytes r ++ numbered index rs)%list
  end.
Definition rebind (driver query : string) : string :=
  if (driver =? "postgres")%string then implode (numbered 1 (runes query)) else query.

(** ** The connection *)

(** [DatabaseOptions], as far as a connection needs them *)
Module DatabaseOptions.
Record t := mk { Driver : string; DSN : string; MaxOpenConns : Z; MaxIdleConns : Z }.
End DatabaseOptions.
(** The driver of the store, that of [database/sql], what it opens, and the
    limits of the pool *)
Module Connection.
Record t := mk { driver : string; sqlDriver : string; dsn : string; maxOpen : Z; maxIdle : option Z }.
End Connection.
(** [OpenDatabase] up to [sql.Open]: [unmade] is the error of making the
    directory of the file private. *)
Definition connection `{Unicode} (opt : DatabaseOptions.t) (unmade : option error) : result Connection.t :=
  let driver := ToLower (TrimSpace (DatabaseOptions.Driver opt)) in
  let driver := if (driver =? "")%string then "sqlite" else driver in
  let dsn := TrimSpace (DatabaseOptions.DSN opt) in
  if (driver =? "sqlite")%string then
    match unmade with
    | Some err => Err err
    | None =>
        let path := if (dsn =? "")%string then "data/nodeharvest.db" else dsn in
        Ok (Connection.mk driver driver (path +:+ "?_pragma=busy_timeout(5000)&_pragma=journal_mode(WAL)") 1 None)
    end
  else if (driver =? "postgres")%string then
    if (dsn =? "")%string then Err (ErrMsg "postgres DSN is required")
    else Ok (Connection.mk driver "pgx" dsn
               (if DatabaseOptions.MaxOpenConns opt <=? 0 then 10 else DatabaseOptions.MaxOpenConns opt)
               (Some (Z.max 0 (DatabaseOptions.MaxIdleConns opt))))
  else Err (ErrMsg ("unsupported database driver " +:+ driver)).

(** ** The schema *)

(** A column with its declaration, and the statements of the schema; what a
    constraint of a table demands is not modelled. *)
Inductive stmt :=
  | CreateTable (table : string) (columns : list (string * string)) (constraints : list string)
  | CreateIndex (name table : string) (columns : list string)
  | AddColumn (table column declaration : string).
Module Tables.
Record t := mk { tables : gmap string (gmap string string); indexes : gset string }.
#[export] Instance eta : Eta t := λ s, mk (tables s) (indexes s).
End Tables.
Export (hints) Tables.

(** [schema] and the statements that follow it in [migrate] *)
Definition schema (driver : string) : list stmt :=
  let identity := if (driver =? "postgres")%string then "BIGSERIAL PRIMARY KEY" else "INTEGER PRIMARY KEY AUTOINCREMENT" in
  [
   CreateTable "jobs"
     [("id", "TEXT PRIMARY KEY"); ("type", "TEXT NOT NULL"); ("status", "TEXT NOT NULL"); ("progress", "REAL");
      ("message", "TEXT"); ("error", "TEXT"); ("stats_json", "TEXT"); ("options_json", "TEXT");
      ("created_at", "TEXT"); ("updated_at", "TEXT"); ("started_at", "TEXT"); ("ended_at", "TEXT");
      ("actor", "TEXT"); ("tenant_id", "TEXT NOT NULL DEFAULT 'default'")] [];
   CreateIndex "idx_jobs_created" "jobs" ["created_at"];
   CreateTable "tokens"
     [("id", "TEXT PRIMARY KEY"); ("name", "TEXT NOT NULL"); ("token_hash", "TEXT NOT NULL UNIQUE");
      ("token_prefix", "TEXT NOT NULL"); ("enabled", "INTEGER NOT NULL DEFAULT 1"); ("max_rps", "REAL DEFAULT 0");
      ("allow_countries", "TEXT"); ("expires_at", "TEXT"); ("created_at", "TEXT NOT NULL"); ("last_used_at", "TEXT");
      ("note", "TEXT"); ("tenant_id", "TEXT NOT NULL DEFAULT 'default'"); ("allow_protocols", "TEXT");
      ("daily_quota", "INTEGER NOT NULL DEFAULT 0")] [];
   CreateIndex "idx_tokens_prefix" "tokens" ["token_prefix"];
   CreateTable "audit_logs"
     [("id", identity); ("at", "TEXT NOT NULL"); ("actor", "TEXT"); ("action", "TEXT NOT NULL"); ("detail", "TEXT")] [];
   CreateTable "job_events"
     [("id", identity); ("job_id", "TEXT NOT NULL"); ("at", "TEXT NOT NULL"); ("level", "TEXT"); ("message", "TEXT")] [];
   CreateIndex "idx_job_events_job" "job_events" ["job_id"];
   CreateTable "source_states"
     [("name", "TEXT PRIMARY KEY"); ("url", "TEXT NOT NULL"); ("priority", "INTEGER NOT NULL DEFAULT 50");
      ("last_attempt_at", "TEXT"); ("last_success_at", "TEXT"); ("last_error", "TEXT");
      ("consecutive_failures", "INTEGER NOT NULL DEFAULT 0"); ("fetch_count", "INTEGER NOT NULL DEFAULT 0");
      ("success_count", "INTEGER NOT NULL DEFAULT 0"); ("latency_ms", "INTEGER NOT NULL DEFAULT 0");
      ("bytes", "INTEGER NOT NULL DEFAULT 0"); ("status_code", "INTEGER NOT NULL DEFAULT 0");
      ("attempts", "INTEGER NOT NULL DEFAULT 0"); ("disabled_until", "TEXT");
      ("manually_disabled", "INTEGER NOT NULL DEFAULT 0"); ("contribution_total", "INTEGER NOT NULL DEFAULT 0");
      ("contribution_hq", "INTEGER NOT NULL DEFAULT 0"); ("health_score", "REAL NOT NULL DEFAULT 100")] [];
   CreateTable "nodes"
     [("id", "TEXT PRIMARY KEY"); ("fingerprint", "TEXT NOT NULL"); ("protocol", "TEXT NOT NULL");
      ("server", "TEXT NOT NULL"); ("port", "INTEGER NOT NULL"); ("country", "TEXT"); ("asn", "TEXT");
      ("entry_type", "TEXT"); ("score", "REAL NOT NULL DEFAULT 0"); ("alive", "INTEGER NOT NULL DEFAULT 0");
      ("first_seen_at", "TEXT"); ("last_seen_at", "TEXT"); ("payload_json", "TEXT NOT NULL");
      ("updated_at", "TEXT NOT NULL")] [];
   CreateIndex "idx_nodes_last_seen" "nodes" ["last_seen_at"];
   CreateIndex "idx_nodes_country_score" "nodes" ["country"; "score"];
   CreateTable "node_metrics"
     [("id", identity); ("node_id", "TEXT NOT NULL"); ("measured_at", "TEXT NOT NULL");
      ("success", "INTEGER NOT NULL"); ("latency_ms", "INTEGER NOT NULL DEFAULT 0");
      ("jitter_ms", "INTEGER NOT NULL DEFAULT 0"); ("tls_ms", "INTEGER NOT NULL DEFAULT 0");
      ("http_latency_ms", "INTEGER NOT NULL DEFAULT 0"); ("throughput_bps", "INTEGER NOT NULL DEFAULT 0");
      ("score", "REAL NOT NULL DEFAULT 0")] [];
   CreateIndex "idx_node_metrics_node_at" "node_metrics" ["node_id"; "measured_at"];
   CreateTable "task_queue"
     [("id", "TEXT PRIMARY KEY"); ("type", "TEXT NOT NULL"); ("options_json", "TEXT NOT NULL");
      ("priority", "INTEGER NOT NULL DEFAULT 0"); ("status", "TEXT NOT NULL");
      ("attempts", "INTEGER NOT NULL DEFAULT 0"); ("max_attempts", "INTEGER NOT NULL DEFAULT 3");
      ("available_at", "TEXT NOT NULL"); ("lease_until", "TEXT"); ("worker_id", "TEXT"); ("last_error", "TEXT");
      ("created_at", "TEXT NOT NULL"); ("updated_at", "TEXT NOT NULL"); ("started_at", "TEXT"); ("ended_at", "TEXT")] [];
   CreateIndex "idx_task_queue_claim" "task_queue" ["status"; "available_at"; "priority"; "created_at"];
   CreateTable "alerts"
     [("id", "TEXT PRIMARY KEY"); ("kind", "TEXT NOT NULL"); ("severity", "TEXT NOT NULL");
      ("message", "TEXT NOT NULL"); ("details_json", "TEXT"); ("active", "INTEGER NOT NULL DEFAULT 1");
      ("created_at", "TEXT NOT NULL"); ("resolved_at", "TEXT"); ("acknowledged_at", "TEXT");
      ("acknowledged_by", "TEXT")] [];
   CreateIndex "idx_alerts_active" "alerts" ["active"; "created_at"];
   CreateTable "users"
     [("id", "TEXT PRIMARY KEY"); ("tenant_id", "TEXT NOT NULL"); ("username", "TEXT NOT NULL"); ("email", "TEXT");
      ("password_hash", "TEXT"); ("role", "TEXT NOT NULL"); ("enabled", "INTEGER NOT NULL DEFAULT 1");
      ("created_at", "TEXT NOT NULL"); ("last_login_at", "TEXT")] ["UNIQUE(tenant_id,username)"];
   CreateTable "token_usage"
     [("token_id", "TEXT NOT NULL"); ("day", "TEXT NOT NULL"); ("requests", "INTEGER NOT NULL DEFAULT 0");
      ("bytes", "INTEGER NOT NULL DEFAULT 0")] ["PRIMARY KEY(token_id,day)"];
   CreateTable "config_versions"
     [("id", "TEXT PRIMARY KEY"); ("actor", "TEXT NOT NULL"); ("checksum", "TEXT NOT NULL");
      ("config_yaml", "TEXT NOT NULL"); ("created_at", "TEXT NOT NULL")] []].
Definition migrations : list stmt :=
  [
   AddColumn "source_states" "disabled_until" "TEXT";
   AddColumn "source_states" "manually_disabled" "INTEGER NOT NULL DEFAULT 0";
   AddColumn "source_states" "contribution_total" "INTEGER NOT NULL DEFAULT 0";
   AddColumn "source_states" "contribution_hq" "INTEGER NOT NULL DEFAULT 0";
   AddColumn "source_states" "health_score" "REAL NOT NULL DEFAULT 100";
   AddColumn "jobs" "actor" "TEXT";
   AddColumn "jobs" "tenant_id" "TEXT NOT NULL DEFAULT 'default'";
   AddColumn "tokens" "tenant_id" "TEXT NOT NULL DEFAULT 'default'";
   AddColumn "tokens" "allow_protocols" "TEXT";
   AddColumn "tokens" "daily_quota" "INTEGER NOT NULL DEFAULT 0";
   AddColumn "alerts" "acknowledged_at" "TEXT";
   AddColumn "alerts" "acknowledged_by" "TEXT"].

(** ** The migration *)

(** The texts of the errors of a database *)
Class SqlTexts := { duplicate_column : string → string → string; missing_table : string → string; missing_column : string → string }.

Section migrate.
Context `{Unicode} `{SqlTexts}.

(** One statement: [IF NOT EXISTS] leaves what is there. *)
Definition exec_stmt (st : stmt) (s : Tables.t) : result Tables.t :=
  match st with
  | CreateTable t cols _ =>
      match Tables.tables s !! t with
      | Some _ => Ok s
      | None => Ok (s <| Tables.tables := <[t := list_to_map cols]> (Tables.tables s) |>)
      end
  | CreateIndex n t cols =>
      if bool_decide (n ∈ Tables.indexes s) then Ok s
      else match Tables.tables s !! t with
           | None => Err (ErrMsg (missing_table t))
           | Some c => if forallb (λ k, bool_decide (is_Some (c !! k))) cols
                       then Ok (s <| Tables.indexes := {[n]} ∪ Tables.indexes s |>) else Err (ErrMsg (missing_column t))
           end
  | AddColumn t k d =>
      match Tables.tables s !! t with
      | None => Err (ErrMsg (missing_table t))
      | Some c => match c !! k with
                  | Some _ => Err (ErrMsg (duplicate_column t k))
                  | None => Ok (s <| Tables.tables := <[t := <[k := d]> c]> (Tables.tables s) |>)
                  end
      end
  end.
Fixpoint exec_all (l : list stmt) (s : Tables.t) : option error * Tables.t :=
  match l with
  | [] => (None, s)
  | st :: l => match exec_stmt st s with Ok s => exec_all l s | Err e => (Some e, s) end
  end.
(** A migration that finds its column there is done. *)
Definition tolerated (e : error) : bool :=
  match e with
  | ErrMsg msg => let m := ToLower msg in Contains m "duplicate column" || Contains m "already exists"
  | _ => false
  end.
Fixpoint alter_all (l : list stmt) (s : Tables.t) : option error * Tables.t :=
  match l with
  | [] => (None, s)
  | st :: l =>
      match exec_stmt st s with
      | Ok s => alter_all l s
      | Err e => if tolerated e then alter_all l s else (Some e, s)
      end
  end.
(** [migrate]; what a failed script leaves behind is that of SQLite, which runs
    its statements one by one. *)
Definition migrate (driver : string) (s : Tables.t) : option error * Tables.t :=
  match exec_all (schema driver) s with
  | (Some e, s) => (Some e, s)
  | (None, s) => alter_all migrations s
  end.

(** ** What a migration promises *)

(** What a database reports of a column that is there is recognised. *)
Hypothesis duplicate_tolerated : ∀ t k, tolerated (ErrMsg (duplicate_column t k)) = true.

(** Nothing is lost. *)
Definition grows (s s' : Tables.t) : Prop :=
  ∀ t c, Tables.tables s !! t = Some c → ∃ c', Tables.tables s' !! t = Some c' ∧ c ⊆ c'.
#[local] Instance grows_preorder : PreOrder grows.
Proof.
  split; [intros s t c Ht; by exists c|]. intros s1 s2 s3 H12 H23 t c Ht.
  destruct (H12 _ _ Ht) as (c2 & H2 & Hs2). destruct (H23 _ _ H2) as (c3 & H3 & Hs3). exists c3. split; [done|by etrans].
Qed.
Lemma exec_grows st s s' : exec_stmt st s = Ok s' → grows s s'.
Proof.
  destruct st as [t cols cons|n t cols|t k d]; simpl.
  - destruct (Tables.tables s !! t) eqn:E; intros [= <-]; [reflexivity|]. intros t' c Ht. exists c. split; [|done]. simpl.
    rewrite lookup_insert_ne; [done|]. intros ->. congruence.
  - case_bool_decide; [intros [= <-]; reflexivity|]. destruct (Tables.tables s !! t); [|done]. destruct (forallb _ _); [|done].
    intros [= <-] t' c Ht. by exists c.
  - destruct (Tables.tables s !! t) as [c|] eqn:E; [|done]. destruct (c !! k) eqn:Ek; [done|]. intros [= <-] t' c' Ht. simpl.
    destruct (decide (t = t')) as [->|]; [|exists c'; by rewrite lookup_insert_ne].
    assert (c' = c) as -> by congruence. exists (<[k:=d]> c). rewrite lookup_insert_eq. split; [done|]. by apply insert_subseteq.
Qed.

(** The columns a schema gives a table, the tables and the indexes it makes, and
    the columns the migrations add *)
Definition made (t : string) (st : stmt) : option (list (string * string)) :=
  match st with CreateTable t' cols _ => if (t =? t')%string then Some cols else None | _ => None end.
Definition table_columns (l : list stmt) (t : string) : option (list (string * string)) := head (omap (made t) l).
Definition created (l : list stmt) : list string :=
  omap (λ st, match st with CreateTable t _ _ => Some t | _ => None end) l.
Definition indexed (l : list stmt) : list string :=
  omap (λ st, match st with CreateIndex n _ _ => Some n | _ => None end) l.
Definition is_added (added : list stmt) (t k : string) : bool :=
  existsb (λ st, match st with AddColumn t' k' _ => (t =? t')%string && (k =? k')%string | _ => false end) added.
(** A table is made once and before its indexes, and an index is on columns
    that are not added later. *)
Fixpoint all_ok (all added : list stmt) (seen : list string) (l : list stmt) : bool :=
  match l with
  | [] => true
  | CreateTable t cols _ :: l => bool_decide (table_columns all t = Some cols) && all_ok all added (t :: seen) l
  | CreateIndex _ t cols :: l =>
      bool_decide (t ∈ seen)
      && forallb (λ k, bool_decide (k ∈ (default [] (table_columns all t)).*1) && negb (is_added added t k)) cols
      && all_ok all added seen l
  | AddColumn _ _ _ :: _ => false
  end.
Lemma schema_ok driver : all_ok (schema driver) migrations [] (schema driver) = true.
Proof. unfold schema. destruct (driver =? "postgres")%string; by vm_compute. Qed.
(** Every migration is of a table of the schema. *)
Definition alters (l added : list stmt) : bool :=
  forallb (λ st, match st with AddColumn t _ _ => bool_decide (t ∈ created l) | _ => false end) added.
Lemma migrations_ok driver : alters (schema driver) migrations = true.
Proof. unfold schema. destruct (driver =? "postgres")%string; by vm_compute. Qed.

(** A database of an earlier version: a table that is there has all its columns
    but those that are added.  A complete one has them all, and the indexes. *)
Definition earlier (all added : list stmt) (s : Tables.t) : Prop :=
  ∀ t cols c k, table_columns all t = Some cols → Tables.tables s !! t = Some c → k ∈ cols.*1 →
    is_Some (c !! k) ∨ is_added added t k = true.
Definition up_to_date (all added : list stmt) (s : Tables.t) : Prop :=
  (∀ t cols, table_columns all t = Some cols → ∃ c, Tables.tables s !! t = Some c ∧ ∀ k, k ∈ cols.*1 → is_Some (c !! k)) ∧
  (∀ t k d, AddColumn t k d ∈ added → ∃ c, Tables.tables s !! t = Some c ∧ is_Some (c !! k)) ∧
  list_to_set (indexed all) ⊆ Tables.indexes s.

Lemma earlier_grows all added s s' : earlier all added s → grows s s' →
  (∀ t c', Tables.tables s !! t = None → Tables.tables s' !! t = Some c' →
     ∃ cols, table_columns all t = Some cols ∧ ∀ k, k ∈ cols.*1 → is_Some (c' !! k)) → earlier all added s'.
Proof.
  intros He Hg Hn t cols c' k Hc Ht Hk. destruct (Tables.tables s !! t) as [c|] eqn:E.
  - destruct (Hg _ _ E) as (c2 & H2 & Hs). assert (c2 = c') as -> by congruence.
    destruct (He _ _ _ _ Hc E Hk) as [[d Hd]|Ha]; [left; exists d; by eapply lookup_weaken|by right].
  - destruct (Hn _ _ E Ht) as (cols' & Hc' & Hk'). left. apply Hk'. congruence.
Qed.
Lemma list_to_map_some (cols : list (string * string)) k : k ∈ cols.*1 → is_Some ((list_to_map cols : gmap string string) !! k).
Proof.
  intros Hk. destruct ((list_to_map cols : gmap string string) !! k) eqn:E; [by eexists|]. by apply not_elem_of_list_to_map in E.
Qed.
Lemma exec_all_ok all added l seen s : all_ok all added seen l = true → earlier all added s →
  (∀ t, t ∈ seen → is_Some (Tables.tables s !! t)) →
  ∃ s', exec_all l s = (None, s') ∧ grows s s' ∧ earlier all added s' ∧
    (∀ t, t ∈ created l → is_Some (Tables.tables s' !! t)) ∧ list_to_set (indexed l) ∪ Tables.indexes s ⊆ Tables.indexes s'.
Proof.
  revert seen s. induction l as [|st l IH]; intros seen s Hok He Hseen; cbn [exec_all].
  { exists s. split_and!; [done|reflexivity|done|set_solver|set_solver]. }
  destruct st as [t cols cons|n t cols|]; cbn [all_ok] in Hok; [| |done].
  - apply andb_prop in Hok as [Hc%bool_decide_eq_true Hok].
    assert (∃ s1, exec_stmt (CreateTable t cols cons) s = Ok s1 ∧ is_Some (Tables.tables s1 !! t) ∧ earlier all added s1 ∧
      Tables.indexes s1 = Tables.indexes s) as (s1 & E1 & Ht & He1 & Hi).
    { cbn [exec_stmt]. destruct (Tables.tables s !! t) as [c|] eqn:E; [exists s; by rewrite E|].
      eexists. split; [done|]. cbn. split; [by rewrite lookup_insert_eq|]. split; [|done].
      apply (earlier_grows _ _ s); [done|apply (exec_grows (CreateTable t cols cons)); cbn [exec_stmt]; by rewrite E|].
      intros t' c' Hn. cbn. intros [[<- <-]|[_ Ht']]%lookup_insert_Some; [|congruence].
      exists cols. split; [done|]. intros k. apply list_to_map_some. }
    rewrite E1. apply exec_grows in E1. destruct (IH (t :: seen) s1) as (s' & -> & Hg & He' & Hcr & Hix); [done|done| |].
    { intros t' [->|Ht']%elem_of_cons; [done|]. destruct (Hseen _ Ht') as [c Hs]. destruct (E1 _ _ Hs) as (c' & -> & _). by eexists. }
    exists s'. split_and!; [done|by etrans|done| |set_solver].
    intros t'. cbn. intros [->|Ht']%elem_of_cons; [|by apply Hcr]. destruct Ht as [c Hs]. destruct (Hg _ _ Hs) as (c' & -> & _). by eexists.
  - apply andb_prop in Hok as [Hok Hok']. apply andb_prop in Hok as [Hin%bool_decide_eq_true Hcols].
    destruct (Hseen _ Hin) as [c Hc].
    assert (∃ s1, exec_stmt (CreateIndex n t cols) s = Ok s1 ∧ n ∈ Tables.indexes s1 ∧ Tables.indexes s ⊆ Tables.indexes s1 ∧
      Tables.tables s1 = Tables.tables s) as (s1 & E1 & Hn & Hi & Ht).
    { cbn [exec_stmt]. case_bool_decide as Hix; [by exists s|]. rewrite Hc.
      assert (forallb (λ k, bool_decide (is_Some (c !! k))) cols = true) as ->.
      { apply forallb_forall. intros k Hk. rewrite forallb_forall in Hcols. apply Hcols, andb_prop in Hk as [Hk%bool_decide_eq_true Ha].
        destruct (table_columns all t) as [cs|] eqn:Ecs; [|by apply elem_of_nil in Hk].
        apply bool_decide_eq_true. destruct (He _ _ _ _ Ecs Hc Hk) as [?|Hadd]; [done|]. by rewrite Hadd in Ha. }
      eexists. split; [done|]. cbn. split_and!; [set_solver|set_solver|done]. }
    rewrite E1. destruct (IH seen s1) as (s' & -> & Hg & He' & Hcr & Hix); [done|by unfold earlier; rewrite Ht|by rewrite Ht|].
    exists s'. split_and!; [done|by etrans; [apply (exec_grows _ _ _ E1)|]|done|done|]. cbn. set_solver.
Qed.
Lemma alter_all_ok l s : (∀ st, st ∈ l → ∃ t k d, st = AddColumn t k d ∧ is_Some (Tables.tables s !! t)) →
  ∃ s', alter_all l s = (None, s') ∧ grows s s' ∧ Tables.indexes s' = Tables.indexes s ∧
    ∀ t k d, AddColumn t k d ∈ l → ∃ c, Tables.tables s' !! t = Some c ∧ is_Some (c !! k).
Proof.
  revert s. induction l as [|st l IH]; intros s Hl; cbn [alter_all].
  { exists s. split_and!; [done|reflexivity|done|]. intros t k d Hin. by apply elem_of_nil in Hin. }
  destruct (Hl st) as (t & k & d & -> & c & Hc); [left|].
  assert (∃ s1, match exec_stmt (AddColumn t k d) s with Ok s1 => alter_all l s1
                | Err e => if tolerated e then alter_all l s else (Some e, s) end = alter_all l s1 ∧
      grows s s1 ∧ Tables.indexes s1 = Tables.indexes s ∧ ∃ c1, Tables.tables s1 !! t = Some c1 ∧ is_Some (c1 !! k)) as
    (s1 & -> & Hg1 & Hi1 & c1 & Hc1 & Hk1).
  { cbn [exec_stmt]. rewrite Hc. destruct (c !! k) eqn:Ek.
    - exists s. rewrite duplicate_tolerated. split_and!; [done|reflexivity|done|]. exists c. by rewrite Ek.
    - eexists. split; [done|]. split; [apply (exec_grows (AddColumn t k d)); cbn [exec_stmt]; by rewrite Hc, Ek|].
      cbn. split; [done|]. exists (<[k:=d]> c). by rewrite !lookup_insert_eq. }
  destruct (IH s1) as (s' & -> & Hg & Hi & Hadd).
  { intros st Hst. destruct (Hl st) as (t' & k' & d' & -> & c' & Hc'); [by right|]. exists t', k', d'. split; [done|].
    destruct (Hg1 _ _ Hc') as (c2 & -> & _). by eexists. }
  exists s'. split_and!; [done|by etrans|congruence|]. intros t' k' d' [[= -> -> ->]|Hin]%elem_of_cons; [|by eapply Hadd].
  destruct (Hg _ _ Hc1) as (c2 & H2 & Hs). exists c2. split; [done|]. destruct Hk1 as [v Hv]. exists v. by eapply lookup_weaken.
Qed.
(** On a complete database nothing changes. *)
Lemma exec_all_complete l s : (∀ t, t ∈ created l → is_Some (Tables.tables s !! t)) → list_to_set (indexed l) ⊆ Tables.indexes s →
  Forall (λ st, match st with AddColumn _ _ _ => False | _ => True end) l → exec_all l s = (None, s).
Proof.
  intros Hc Hi Hl. induction Hl as [|st l Hst _ IH]; [done|]. cbn [exec_all]. destruct st as [t cols cons|n t cols|]; [| |done]; cbn [exec_stmt].
  - destruct (Hc t) as [c Ht]; [cbn; left|]. rewrite Ht. apply IH; [|done]. intros t' Ht'. apply Hc. cbn. by right.
  - rewrite bool_decide_true by (cbn in Hi; set_solver). apply IH; [done|]. cbn in Hi. set_solver.
Qed.
Lemma alter_all_complete l s : (∀ t k d, AddColumn t k d ∈ l → ∃ c, Tables.tables s !! t = Some c ∧ is_Some (c !! k)) →
  Forall (λ st, match st with AddColumn _ _ _ => True | _ => False end) l → alter_all l s = (None, s).
Proof.
  intros Hc Hl. induction Hl as [|st l Hst _ IH]; [done|]. cbn [alter_all]. destruct st as [| |t k d]; [done..|]. cbn [exec_stmt].
  destruct (Hc t k d) as (c & -> & d' & ->); [left|]. rewrite duplicate_tolerated. apply IH. intros t' k' d'' Hin. eapply Hc. by right.
Qed.

Lemma table_columns_created l t cols : table_columns l t = Some cols → t ∈ created l.
Proof.
  unfold table_columns, created. intros Hh. assert (cols ∈ omap (made t) l) as Hin by (destruct (omap _ _); [done|by injection Hh as ->; left]).
  apply list_elem_of_omap in Hin as (st & Hst & Hm). apply list_elem_of_omap. exists st. split; [done|].
  destruct st as [t' cols' cons| |]; [|done..]. cbn in Hm. by destruct (String.eqb_spec t t') as [->|].
Qed.
Lemma is_added_iff added t k : is_added added t k = true → ∃ d, AddColumn t k d ∈ added.
Proof.
  unfold is_added. intros ([| |t' k' d] & Hin & Hm)%existsb_exists; [done..|]. apply andb_prop in Hm as [->%String.eqb_eq ->%String.eqb_eq].
  exists d. by apply list_elem_of_In.
Qed.
Lemma schema_makes driver : Forall (λ st, match st with AddColumn _ _ _ => False | _ => True end) (schema driver).
Proof. unfold schema. repeat constructor. Qed.
#[local] Opaque schema migrations.
(** An upgrade keeps everything and completes the schema.  A database of any
    earlier version, an empty one too, is migrated without an error: no table
    and no column is lost, every table has all its columns, every index is
    there, and to migrate again, at the next start, changes nothing. *)
Theorem migrate_upgrades driver s : earlier (schema driver) migrations s →
  ∃ s', migrate driver s = (None, s') ∧ grows s s' ∧ up_to_date (schema driver) migrations s' ∧ migrate driver s' = (None, s').
Proof.
  intros He. destruct (exec_all_ok _ _ _ _ _ (schema_ok driver) He) as (s1 & E1 & Hg1 & He1 & Hc1 & Hi1); [by intros t Ht%elem_of_nil|].
  destruct (alter_all_ok migrations s1) as (s2 & E2 & Hg2 & Hi2 & Ha).
  { intros st Hst. pose proof (migrations_ok driver) as Hm. unfold alters in Hm. rewrite forallb_forall in Hm.
    apply list_elem_of_In in Hst. apply Hm in Hst. destruct st as [| |t k d]; [done..|]. exists t, k, d. split; [done|].
    apply Hc1. by apply bool_decide_eq_true in Hst. }
  assert (up_to_date (schema driver) migrations s2) as Hc.
  { split_and!; [|done|rewrite Hi2; by etrans; [apply union_subseteq_l|]]. intros t cols Ht. destruct (Hc1 t) as [c Hs]; [by eapply table_columns_created|].
    destruct (Hg2 _ _ Hs) as (c2 & H2 & Hsub). exists c2. split; [done|]. intros k Hk.
    destruct (He1 _ _ _ _ Ht Hs Hk) as [[d Hd]|(d & Hd)%is_added_iff].
    - exists d. by eapply lookup_weaken.
    - destruct (Ha _ _ _ Hd) as (c3 & H3 & Hs3). by assert (c3 = c2) as <- by congruence. }
  exists s2. unfold migrate at 1. rewrite E1, E2. split_and!; [done|by etrans|done|].
  unfold migrate. rewrite exec_all_complete.
  - apply alter_all_complete; [apply Hc|]. apply Forall_forall. intros st Hst. pose proof (migrations_ok driver) as Hm.
    unfold alters in Hm. rewrite forallb_forall in Hm. apply list_elem_of_In in Hst. apply Hm in Hst. by destruct st.
  - intros t Ht. destruct (Hc1 _ Ht) as [c Hs]. destruct (Hg2 _ _ Hs) as (c' & -> & _). by eexists.
  - apply Hc.
  - apply schema_makes.
Qed.
Lemma empty_earlier driver : earlier (schema driver) migrations (Tables.mk ∅ ∅).
Proof. intros t cols c k _ Ht. cbn in Ht. by rewrite lookup_empty in Ht. Qed.
End migrate.
#[local] Transparent schema migrations.

(** A database of before the tenants is upgraded; a second migration finds the
    columns there. *)
Definition before_tenants : Tables.t :=
  Tables.mk {["jobs" := list_to_map [("id", "TEXT PRIMARY KEY"); ("type", "TEXT NOT NULL"); ("created_at", "TEXT")]]} ∅.
Definition sqlite_texts : SqlTexts := {|
  duplicate_column _ k := "duplicate column name: " +:+ k; missing_table t := "no such table: " +:+ t;
  missing_column t := "no such column in " +:+ t |}.

Example upgrade_run `{Unicode} :
  let '(err, s) := @migrate _ sqlite_texts "sqlite" before_tenants in
  err = None ∧ (Tables.tables s !! "jobs" ≫= lookup "tenant_id") = Some "TEXT NOT NULL DEFAULT 'default'" ∧
  size (Tables.tables s) = 12%nat ∧ (@migrate _ sqlite_texts "sqlite" s).1 = None.
Proof. by vm_compute. Qed.

(** ** What the placeholders promise *)

(** The parts of a statement between its placeholders, numbered from [index] *)
Fixpoint filled (index : Z) (parts : list bytes) : bytes :=
  match parts with
  | [] => []
  | p :: parts => (explode ("$" +:+ Itoa index) ++ p ++ filled (index + 1) parts)%list
  end.
Definition plain (l : bytes) : Prop := Forall (λ c, byte_val c < 128 ∧ c ≠ "?"%char) l.
Lemma numbered_plain l rs index : plain l → numbered index (((λ c, Some [c]) <$> l) ++ rs) = (l ++ numbered index rs)%list.
Proof.
  induction 1 as [|c l [_ Hc] _ IH]; [done|]. cbn [fmap list_fmap app numbered]. rewrite bool_decide_false by congruence.
  cbn [rune_bytes default]. by rewrite IH.
Qed.
Lemma is_ascii_implode l : is_ascii (implode l) = forallb (λ c, byte_val c <? 128) l.
Proof. induction l as [|c l IH]; [done|]. change (implode (c :: l)) with (String c (implode l)). cbn [is_ascii forallb]. by rewrite IH. Qed.
(** PostgreSQL gets the placeholders of a statement numbered in their order,
    and nothing else of it changes; SQLite gets it as it is. *)
Lemma rebind_exact first parts : plain first → Forall plain parts →
  rebind "postgres" (implode (first ++ (parts ≫= λ p, "?"%char :: p))) = implode (first ++ filled 1 parts) ∧
  ∀ query, rebind "sqlite" query = query.
Proof.
  intros Hf Hp. split; [|done]. unfold rebind. cbn [String.eqb]. f_equal.
  rewrite runes_ascii.
  - rewrite explode_implode, fmap_app, numbered_plain by done. f_equal. generalize 1. clear first Hf.
    induction Hp as [|p parts Hp _ IH]; intros index; [done|]. cbn [mbind list_bind filled]. cbn [app fmap list_fmap numbered].
    rewrite bool_decide_true by done. f_equal. rewrite fmap_app, numbered_plain by done. f_equal. apply IH.
  - rewrite is_ascii_implode. apply forallb_forall. intros c Hc%list_elem_of_In.
    apply elem_of_app in Hc as [Hc|Hc].
    + apply (proj1 (Forall_forall _ _) Hf) in Hc as [Hc _]. by apply Z.ltb_lt.
    + apply list_elem_of_bind in Hc as (p & Hc & Hin). apply elem_of_cons in Hc as [->|Hc]; [done|].
      apply (proj1 (Forall_forall _ _) Hp) in Hin. apply (proj1 (Forall_forall _ _) Hin) in Hc as [Hc _]. by apply Z.ltb_lt.
Qed.
