(* ===== verification/Metrics.v ===== *)
(** * The counters of the program: [internal/metrics/metrics.go]

    The registry of counters, gauges and histograms, and the page it renders.
    The text of a float ([%g]) is a parameter.  The counters are 64 bits wide
    and do not wrap in the lifetime of a program. *)
From S2P Require Import Prelude Sql GoStr GoFloat GoTime Model Base64 Tasks Tokens Users Jobs Alerts Auth.
From S2P Require Import NetAddr Ratelimit Config Filter NodeStore NodesDB Pools NetUrl Links Clash Exporter Publish DialJob Select.
From S2P Require Import Fetch Sources Runner Geo Web Serve Admin Views.

(** [%g] of a float *)
Class FmtG := fmt_g : float64 → string.

(** ** Histograms *)

Definition latencyBounds : list float64 :=
  [f_lit 5 100; f_lit 1 10; f_lit 2 10; f_lit 5 10; f_of_Z 1; f_of_Z 2; f_of_Z 5].
(** [latencyAgg]; [Buckets] is one counter for each bound, [Inf] the last. *)
Module LatencyAgg.
Record t := mk { Sum : float64; N : Z; Max : float64; Buckets : list Z; Inf : Z }.
Definition zero : t := mk f_zero 0 f_zero ((λ _, 0) <$> latencyBounds) 0.
End LatencyAgg.
Definition observe (seconds : float64) (a : LatencyAgg.t) : LatencyAgg.t :=
  LatencyAgg.mk (f_add (LatencyAgg.Sum a) seconds) (LatencyAgg.N a + 1)
    (if f_lt (LatencyAgg.Max a) seconds then seconds else LatencyAgg.Max a)
    (zip_with (λ bound k, if f_le seconds bound then k + 1 else k) latencyBounds (LatencyAgg.Buckets a))
    (LatencyAgg.Inf a + 1).

(** ** The registry *)

Module Registry.
Record t := mk {
  subReqs : gmap string Z;
  subLatency : LatencyAgg.t;
  jobRuns : gmap string Z;
  jobSeconds : gmap string LatencyAgg.t;
  sourceReqs : gmap string Z;
  sourceTime : gmap string LatencyAgg.t;
  sourceBytes : gmap string Z;
  geoResults : gmap string Z;
  nodesGauge : Z;
  aliveGauge : Z;
  hqGauge : Z;
  nodeDimensions : gmap string Z;
  alerts : gmap string Z;
  queue : gmap string Z;
  httpReqs : gmap string Z;
}.
#[export] Instance eta : Eta t := λ r, mk (subReqs r) (subLatency r) (jobRuns r) (jobSeconds r) (sourceReqs r) (sourceTime r)
  (sourceBytes r) (geoResults r) (nodesGauge r) (aliveGauge r) (hqGauge r) (nodeDimensions r) (alerts r) (queue r) (httpReqs r).
Definition New : t := mk ∅ LatencyAgg.zero ∅ ∅ ∅ ∅ ∅ ∅ 0 0 0 ∅ ∅ ∅ ∅.
End Registry.
Export (hints) Registry.
Abbreviation registry := Registry.t.

(** [keyCounter] with [Add], and an aggregate by key *)
Definition add_key (k : string) (n : Z) (m : gmap string Z) : gmap string Z := <[k := default 0 (m !! k) + n]> m.
Definition observe_key (k : string) (seconds : float64) (m : gmap string LatencyAgg.t) : gmap string LatencyAgg.t :=
  <[k := observe seconds (default LatencyAgg.zero (m !! k))]> m.
Definition keyed_by (l : list string) : string := Join l "|".

Section registry.
Context `{Unicode}.

Definition count_sub (format : string) (code : Z) (tokenID : string) (r : registry) : registry :=
  r <| Registry.subReqs := add_key (keyed_by [format; Itoa code; safeTokenLabel tokenID]) 1 (Registry.subReqs r) |>.
Definition ObserveSubLatency (seconds : float64) (r : registry) : registry :=
  r <| Registry.subLatency := observe seconds (Registry.subLatency r) |>.
Definition IncJob (jobType status : string) (r : registry) : registry :=
  r <| Registry.jobRuns := add_key (keyed_by [jobType; status]) 1 (Registry.jobRuns r) |>.
Definition ObserveJob (jobType status : string) (seconds : float64) (r : registry) : registry :=
  r <| Registry.jobSeconds := observe_key (keyed_by [jobType; status]) seconds (Registry.jobSeconds r) |>.
Definition ObserveSource (name : string) (ok : bool) (seconds : float64) (n : Z) (r : registry) : registry :=
  r <| Registry.sourceReqs := add_key (keyed_by [name; if ok then "ok" else "error"]) 1 (Registry.sourceReqs r) |>
    <| Registry.sourceBytes := add_key name n (Registry.sourceBytes r) |>
    <| Registry.sourceTime := observe_key name seconds (Registry.sourceTime r) |>.
Definition ObserveGeo (res : string) (count : Z) (r : registry) : registry :=
  r <| Registry.geoResults := add_key res (if count <=? 0 then 1 else count) (Registry.geoResults r) |>.
Definition IncHTTP (method group : string) (code : Z) (r : registry) : registry :=
  r <| Registry.httpReqs := add_key (keyed_by [method; group; Itoa code]) 1 (Registry.httpReqs r) |>.
Definition SetNodes (total alive hq : Z) (r : registry) : registry :=
  r <| Registry.nodesGauge := total |> <| Registry.aliveGauge := alive |> <| Registry.hqGauge := hq |>.
Definition dimension (n : node) : string :=
  let country := ToUpper (Node.Country n) in
  keyed_by [Node.Grade n; Node.Protocol n; if (country =? "")%string then "XX" else country;
            if Node.Alive n then "true" else "false"].
Definition SetNodeDimensions (nodes : list node) (r : registry) : registry :=
  r <| Registry.nodeDimensions := tally (λ n, Some (dimension n)) nodes |>.
Definition SetAlerts (m : gmap string Z) (r : registry) : registry := r <| Registry.alerts := m |>.
Definition SetQueue (m : gmap string Z) (r : registry) : registry := r <| Registry.queue := m |>.

(** ** The page *)

Context `{Quoting} `{FmtG}.

(** [sortedKeys], [labelSet], [strings.SplitN] at the bar *)
Definition sortedKeys {A} (m : gmap string A) : list string := stable_sort String.ltb (map_to_list m).*1.
Definition label (k v : string) : string := k +:+ "=" +:+ quote v.
Definition labels (kvs : list (string * string)) : string := "{" +:+ Join ((λ kv, label kv.1 kv.2) <$> kvs) "," +:+ "}".
Definition labelSet (m : gmap string string) : string :=
  if bool_decide (m = ∅) then "" else labels ((λ k, (k, default "" (m !! k))) <$> sortedKeys m).
Fixpoint parts (n : nat) (s : string) : list string :=
  match n with
  | S (S _ as n) => match Cut s "|" with Some (a, b) => a :: parts n b | None => [s] end
  | _ => [s]
  end.
Definition sample (name : string) (l : string) (v : string) : string := name +:+ l +:+ " " +:+ v.
(** The samples of a map: [names] are the labels of the parts of a key. *)
Definition samples (name : string) (names : list string) (m : gmap string Z) : list string :=
  (λ k, sample name (labels (zip names (parts (length names) k))) (Itoa (default 0 (m !! k)))) <$> sortedKeys m.
Definition help (name kind text : string) : list string :=
  ["# HELP " +:+ name +:+ " " +:+ text; "# TYPE " +:+ name +:+ " " +:+ kind].
(** [renderHistogram] *)
Definition renderHistogram (name : string) (m : gmap string string) (a : LatencyAgg.t) : list string :=
  let bucket le k := sample (name +:+ "_bucket") (labelSet (<["le" := le]> m)) (Itoa k) in
  (zip_with (λ bound k, bucket (fmt_g bound) k) latencyBounds (LatencyAgg.Buckets a) ++
   [bucket "+Inf" (LatencyAgg.Inf a); sample (name +:+ "_sum") (labelSet m) (fmt_g (LatencyAgg.Sum a));
    sample (name +:+ "_count") (labelSet m) (Itoa (LatencyAgg.N a)); sample (name +:+ "_max") (labelSet m) (fmt_g (LatencyAgg.Max a))])%list.
Definition histograms (name : string) (names : list string) (m : gmap string LatencyAgg.t) : list string :=
  sortedKeys m ≫= λ k, renderHistogram name (list_to_map (zip names (parts (length names) k))) (default LatencyAgg.zero (m !! k)).
(** [Render] *)
Definition page (r : registry) : list string :=
  (help "nh_nodes_total" "gauge" "Stored nodes" ++ [sample "nh_nodes_total" "" (Itoa (Registry.nodesGauge r))]
   ++ help "nh_nodes_alive" "gauge" "Alive nodes" ++ [sample "nh_nodes_alive" "" (Itoa (Registry.aliveGauge r))]
   ++ help "nh_nodes_hq" "gauge" "High quality nodes" ++ [sample "nh_nodes_hq" "" (Itoa (Registry.hqGauge r))]
   ++ help "nh_nodes_by_dimension" "gauge" "Nodes by grade, protocol, country, and liveness"
   ++ samples "nh_nodes_by_dimension" ["grade"; "protocol"; "country"; "alive"] (Registry.nodeDimensions r)
   ++ help "nh_sub_requests_total" "counter" "Subscription requests"
   ++ samples "nh_sub_requests_total" ["format"; "code"; "token_id"] (Registry.subReqs r)
   ++ renderHistogram "nh_sub_latency_seconds" ∅ (Registry.subLatency r)
   ++ help "nh_job_runs_total" "counter" "Jobs finished"
   ++ samples "nh_job_runs_total" ["type"; "status"] (Registry.jobRuns r)
   ++ histograms "nh_job_duration_seconds" ["type"; "status"] (Registry.jobSeconds r)
   ++ help "nh_source_fetch_total" "counter" "Source fetch results"
   ++ samples "nh_source_fetch_total" ["source"; "status"] (Registry.sourceReqs r)
   ++ histograms "nh_source_fetch_duration_seconds" ["source"] (Registry.sourceTime r)
   ++ samples "nh_source_fetch_bytes_total" ["source"] (Registry.sourceBytes r)
   ++ samples "nh_geo_annotate_total" ["result"] (Registry.geoResults r)
   ++ samples "nh_alerts_active" ["severity"] (Registry.alerts r)
   ++ samples "nh_queue_tasks" ["status"] (Registry.queue r)
   ++ help "nh_http_requests_total" "counter" "HTTP requests"
   ++ samples "nh_http_requests_total" ["method"; "route"; "code"] (Registry.httpReqs r))%list.
Definition Render (r : registry) : string := implode (mjoin ((λ l, explode l ++ [byte_of 10]) <$> page r))%list.

(** [handleMetrics] past its guard: the gauges as they are now, and the page *)
Definition severities (alerts : list Alert.t) : gmap string Z := tally (λ a, Some (Alert.Severity a)) alerts.
Definition refresh `{LenientParse} `{MapRange} `{CountRange} (e : env) (s : api) (r : registry) : registry :=
  let st := stats e s in
  let r := SetNodeDimensions (AllNodes (nodes_of s))
             (SetNodes (DashboardStats.TotalNodes st) (DashboardStats.AliveNodes st) (DashboardStats.HighQuality st) r) in
  match DB s with
  | None => r
  | Some h => SetQueue (QueueStats (History.tasks h)) (SetAlerts (severities (ListAlerts (History.alerts h) true 500)) r)
  end.
Definition handleMetrics `{LenientParse} `{MapRange} `{CountRange} (e : env) (s : api) (r : registry) : http unit * registry :=
  if negb (ServerConfig.EnableMetrics (Config.Server (Api.Cfg s))) then (NotFound, r)
  else
    let r := refresh e s r in
    (let? _ := SetHeader "Content-Type" "text/plain; version=0.0.4; charset=utf-8" in reply 200 (Text (Render r)), r).

(** ** What the page promises *)

(** A histogram is exact: each bucket counts the observations up to its bound,
    the last bucket and the count are all of them. *)
Definition up_to (bound : float64) (l : list float64) : Z := Z.of_nat (length (List.filter (λ x, f_le x bound) l)).
Lemma observe_exact l : let a := foldr observe LatencyAgg.zero l in
  LatencyAgg.N a = Z.of_nat (length l) ∧ LatencyAgg.Inf a = LatencyAgg.N a ∧
  LatencyAgg.Buckets a = (λ bound, up_to bound l) <$> latencyBounds.
Proof.
  cbv zeta. induction l as [|x l IH]; [by vm_compute|]. cbn [foldr]. set (a := foldr observe LatencyAgg.zero l) in *.
  destruct IH as (Hn & Hi & Hb). unfold observe. cbn [LatencyAgg.N LatencyAgg.Inf LatencyAgg.Buckets].
  rewrite length_cons. split; [lia|]. split; [lia|]. rewrite Hb. generalize latencyBounds as bs.
  induction bs as [|b bs IH]; [done|]. rewrite !fmap_cons. cbn [zip_with]. f_equal; [|exact IH].
  unfold up_to. cbn [List.filter]. destruct (f_le x b); cbn [length]; lia.
Qed.
(** The buckets never decrease: they are cumulative, as Prometheus asks. *)
Lemma up_to_mono a b l : Forall (λ x, is_nan x = false) l → f_le a b = true → up_to a l ≤ up_to b l.
Proof.
  intros Hl Hab. unfold up_to. induction Hl as [|x l Hx Hl IH]; [done|]. cbn [List.filter].
  destruct (f_le x a) eqn:Ea.
  - assert (f_le x b = true) as -> by (by eapply f_le_trans). cbn [length]. lia.
  - destruct (f_le x b); cbn [length]; lia.
Qed.

(** Counting is by key and leaves the other keys alone. *)
Lemma add_key_exact k n m k' : default 0 (add_key k n m !! k') = default 0 (m !! k') + if (k =? k')%string then n else 0.
Proof.
  unfold add_key. destruct (String.eqb_spec k k') as [->|Hk]; [by rewrite lookup_insert_eq|rewrite lookup_insert_ne by done]; lia.
Qed.

(** A key falls apart into the labels it was made of when no label but the last
    has a bar, ... *)
Definition no_bar (s : string) : Prop := "|"%char ∉ explode s.
Lemma parts_keyed l x : Forall no_bar l → parts (S (length l)) (keyed_by (l ++ [x])) = (l ++ [x])%list.
Proof.
  unfold keyed_by. induction 1 as [|a l Ha _ IH]; [done|].
  assert (Join ((a :: l) ++ [x]) "|" = a +:+ "|" +:+ Join (l ++ [x]) "|") as -> by (by destruct l).
  cbn [length app]. change (parts (S (S (length l))) ?k) with
    (match Cut k "|" with Some (a, b) => a :: parts (S (length l)) b | None => [k] end).
  unfold Cut. rewrite !explode_app. change (explode "|" ++ ?b)%list with ("|"%char :: b).
  by rewrite cut_on_app, !implode_explode, IH by done.
Qed.
Lemma sortedKeys_elem {A} (m : gmap string A) k : k ∈ sortedKeys m ↔ is_Some (m !! k).
Proof.
  unfold sortedKeys. rewrite stable_sort_perm, list_elem_of_fmap. split.
  - intros ([? a] & -> & Hk). apply elem_of_map_to_list in Hk. by exists a.
  - intros [a Ha]. exists (k, a). split; [done|]. by apply elem_of_map_to_list.
Qed.
(** ... and is then one line of the page with those labels and its value. *)
Lemma samples_exact name names m l x v : Forall no_bar l → length names = S (length l) → m !! keyed_by (l ++ [x]) = Some v →
  sample name (labels (zip names (l ++ [x]))) (Itoa v) ∈ samples name names m.
Proof.
  intros Hl Hn Hv. unfold samples. apply list_elem_of_fmap. exists (keyed_by (l ++ [x])).
  split; [|apply sortedKeys_elem; by exists v]. by rewrite Hv, Hn, parts_keyed.
Qed.
(** The name of a source may have a bar: its results are then those of another
    source, with a status that is none. *)
Example bar_in_source : samples "nh" ["source"; "status"] (Registry.sourceReqs (ObserveSource "a|b" true f_zero 0 Registry.New))
  = [sample "nh" (labels [("source", "a"); ("status", "b|ok")]) "1"].
Proof. by vm_compute. Qed.
End registry.
