(* ===== verification/Pipeline.v ===== *)
(** * The command-line pipeline: [internal/tester/tester.go],
    [internal/pipeline/pipeline.go] and [cmd/nodeharvest/main.go]

    The older way through the program: fetch, parse, clean, test, filter and
    export, without the store and without a database.  What the network and the
    file system say is an argument, as in [Harvest.v] and [Enrich.v]. *)
From S2P Require Import Prelude GoStr GoFloat GoTime Model Sql Tasks Jobs Ratelimit NetAddr NetUrl Base64 Links Clash Content Config Cleaner Filter.
From S2P Require Import NodeStore Pools Scoring NodesDB Exporter Publish DialJob Select Fetch Sources Runner Harvest Enrich.

(** ** [time.Duration] *)

(** [String]: the unit below a second, and the digits after the point without
    their last zeros *)
Fixpoint frac (n : nat) (u : Z) (printing : bool) (acc : string) : Z * bool * string :=
  match n with
  | O => (u, printing, acc)
  | S n =>
      let printing := printing || negb (u mod 10 =? 0) in
      frac n (u / 10) printing (if printing then Itoa (u mod 10) +:+ acc else acc)
  end.
Definition fmtFrac (n : nat) (u : Z) (unit_ : string) : Z * string :=
  let '(u, printing, digits) := frac n u false "" in (u, (if printing then "." +:+ digits else "") +:+ unit_).
Definition duration_text (d : Duration) : string :=
  let u := Z.abs d in
  let short n unit_ := let '(v, s) := fmtFrac n u unit_ in Itoa v +:+ s in
  let text :=
    if u =? 0 then "0s"
    else if u <? 1000 then short 0%nat "ns"
    else if u <? Millisecond then short 3%nat "µs"
    else if u <? Second then short 6%nat "ms"
    else
      let '(secs, s) := fmtFrac 9 u "s" in
      let s := Itoa (secs mod 60) +:+ s in
      let mins := secs / 60 in
      if mins =? 0 then s
      else let s := Itoa (mins mod 60) +:+ "m" +:+ s in
           if mins / 60 =? 0 then s else Itoa (mins / 60) +:+ "h" +:+ s in
  if d <? 0 then "-" +:+ text else text.
(** [Round], half away from zero *)
Definition round_duration (d m : Duration) : Duration :=
  if m <=? 0 then d
  else
    let r := Z.rem d m in
    if d <? 0 then
      if - r + - r <? m then d - r
      else let d1 := d - m - r in if - 2 ^ 63 <=? d1 then d1 else - 2 ^ 63
    else if r + r <? m then d - r
    else let d1 := d + m - r in if d1 <? 2 ^ 63 then d1 else 2 ^ 63 - 1.

(** ** [tester.go] *)

(** [Options] and [New] *)
Module TestOptions.
Record t := mk { Concurrency : Z; Timeout : Duration; PreferTLSDial : bool }.
Definition New (o : t) : t :=
  mk (if Concurrency o <=? 0 then 64 else Concurrency o) (if Timeout o <=? 0 then 6 * Second else Timeout o) (PreferTLSDial o).
End TestOptions.

(** What a node meets: the end of the context before its turn, or a
    connection, its error, that of the handshake, and the time it took *)
Module Trial.
Record answer := mk { Start : Time; Refused : option string; Handshake : option string; Since : Duration }.
Inductive t := Canceled | Tried (a : answer).
End Trial.

Definition scoreOf (lat : Duration) (tlsFail hasTLS : bool) : float64 :=
  let ms := f_of_Z (Milliseconds lat) in
  let ms := if f_le ms f_zero then f_of_Z 1 else ms in
  let base := f_mul (f_of_Z 100) (f_div (f_of_Z 1) (f_add (f_of_Z 1) (f_div ms (f_of_Z 400)))) in
  let base := if hasTLS then f_add base (f_of_Z 3) else base in
  let base := if tlsFail then f_sub base (f_of_Z 15) else base in
  let base := if f_lt base f_zero then f_zero else base in
  if f_lt (f_of_Z 100) base then f_of_Z 100 else base.

Definition testOne (o : TestOptions.t) (a : Trial.answer) (n : node) : node :=
  let lat := Trial.Since a in
  let n := n <| Node.TestedAt := Trial.Start a |> <| Node.Latency := lat |> in
  match Trial.Refused a, Trial.Handshake a with
  | Some e, _ => n <| Node.Alive := false |> <| Node.Error := e |>
  | None, Some e =>
      if TestOptions.PreferTLSDial o && Node.TLS n
      then n <| Node.Alive := true |> <| Node.Error := "tls: " +:+ e |> <| Node.Score := scoreOf lat true true |>
      else n <| Node.Alive := true |> <| Node.Error := "" |> <| Node.Score := scoreOf lat false (Node.TLS n) |>
  | None, None => n <| Node.Alive := true |> <| Node.Error := "" |> <| Node.Score := scoreOf lat false (Node.TLS n) |>
  end.
Definition node_after (o : TestOptions.t) (a : Trial.t) (n : node) : node :=
  match a with
  | Trial.Canceled => n <| Node.Alive := false |> <| Node.Error := "canceled" |>
  | Trial.Tried a => testOne o a n
  end.
(** [TestAll]: every goroutine writes its own node. *)
Definition TestAll (o : TestOptions.t) (a : nat → Trial.t) (nodes : list node) : list node := imap (λ i n, node_after o (a i) n) nodes.
(** [Summary] *)
Definition Summary (nodes : list node) : string :=
  let living := List.filter Node.Alive nodes in
  let alive := Z.of_nat (length living) in
  let sum := foldl (λ s n, wrap64 (s + Node.Latency n)) 0 living in
  let avg := if 0 <? alive then Z.quot sum alive else 0 in
  "alive=" +:+ Itoa alive +:+ "/" +:+ Itoa (Z.of_nat (length nodes)) +:+ " avg_latency=" +:+ duration_text (round_duration avg Millisecond).

(** ** What testing promises *)

(** Every score of the tester is a percentage, whatever the latency. *)
Lemma f_positive x : is_nan x = false → f_le x f_zero = false → f_nonneg x = true.
Proof. by destruct x as [[]|[]| |[] m e]. Qed.
Lemma scoreOf_percent lat tlsFail hasTLS : in_percent (scoreOf lat tlsFail hasTLS).
Proof.
  unfold scoreOf. set (ms := if f_le _ _ then _ else _).
  assert (f_nonneg ms = true) as Hms.
  { unfold ms. destruct (f_le (f_of_Z (Milliseconds lat)) f_zero) eqn:E; [done|]. apply f_positive; [apply normalize_not_nan|done]. }
  clearbody ms. set (base := f_mul _ _).
  assert (f_nonneg base = true) as Hbase.
  { apply f_mul_nonneg; [done|]. apply f_decay_nonneg; [done..|]. by apply f_div_nonneg. }
  clearbody base. set (base1 := if hasTLS then _ else _).
  assert (is_nan base1 = false) as Hb1.
  { apply f_nonneg_not_nan. unfold base1. destruct hasTLS; [by apply f_add_nonneg|done]. }
  clearbody base1. set (base2 := if tlsFail then _ else _).
  assert (is_nan base2 = false) as Hb2 by (unfold base2; destruct tlsFail; [by apply f_sub_not_nan|done]).
  clearbody base2. pose proof (clamp_between base2 f_zero (f_of_Z 100) Hb2 eq_refl) as Hc. revert Hc. unfold clamp.
  by destruct (f_lt base2 f_zero).
Qed.

(** A node is alive after its test exactly when its address was connected to. *)
Definition connected (a : Trial.t) : Prop := ∃ c, a = Trial.Tried c ∧ Trial.Refused c = None.
Lemma tried_alive o a n : Node.Alive (node_after o a n) = true ↔ connected a.
Proof.
  destruct a as [|c]; simpl; [split; [done|by intros (c & ? & _)]|].
  transitivity (Trial.Refused c = None); [|split; [by exists c|by intros (? & [= <-] & ?)]].
  unfold testOne. destruct (Trial.Refused c); [done|]. destruct (Trial.Handshake c); [destruct (_ && _)|]; done.
Qed.
Lemma tried_score o a n : connected a → in_percent (Node.Score (node_after o a n)).
Proof.
  intros (c & -> & Hr). simpl. unfold testOne. rewrite Hr.
  destruct (Trial.Handshake c); [destruct (_ && _)|]; apply scoreOf_percent.
Qed.
Lemma elem_of_TestAll o a nodes m : m ∈ TestAll o a nodes ↔ ∃ i n, nodes !! i = Some n ∧ m = node_after o (a i) n.
Proof.
  unfold TestAll. rewrite list_elem_of_lookup. setoid_rewrite list_lookup_imap. setoid_rewrite fmap_Some. naive_solver.
Qed.

(** ** [pipeline.go] *)

(** [Result] of [model/node.go] *)
Module Outcome.
Record t := mk {
  FetchedSources : Z;
  RawCount : Z;
  ParsedCount : Z;
  UniqueCount : Z;
  AliveCount : Z;
  ExportedCount : Z;
  HighQuality : Z;
  Nodes : list node;
  Duration_ : string;
}.
End Outcome.

(** What a run meets *)
Module RunEnv.
Record t := mk {
  Net : Source.t → Z → Attempt.t;
  Sent : nat;
  Arrive : list Document.t → list Document.t;
  Ended : option error;
  Trials : nat → Trial.t;
  Files : ExportEnv.t;
  Took : Duration;
}.
End RunEnv.

(** The flags of the command *)
Module Flags.
Record t := mk { Concurrency : Z; MaxLatency : Z; MaxNodes : Z; SkipTest : bool; LogLevel : string }.
End Flags.

Section pipeline.
Context `{Unicode} `{Crypto} `{FmtAny} `{LinkJson} `{ClashCodec} `{TzData} `{ExportJson} `{MapRange}.

Definition count {A} (l : list A) : Z := Z.of_nat (length l).
Definition fetched_ok (docs : list Document.t) : list Document.t := List.filter (λ d, bool_decide (Document.Err d = None)) docs.
Definition parsed_nodes (docs : list Document.t) : list node := fetched_ok docs ≫= parsed.
Definition took (e : RunEnv.t) : string := duration_text (round_duration (RunEnv.Took e) Millisecond).
(** The documents, or why there are none *)
Definition fetch_documents (cfg : config) (e : RunEnv.t) : result (list Document.t) :=
  match config_EnabledSources cfg with
  | [] => Err (ErrMsg "no enabled sources in config")
  | sources =>
      let docs := FetchAll (RunEnv.Net e) (RunEnv.Sent e) (RunEnv.Arrive e) sources in
      match RunEnv.Ended e with Some err => Err err | None => Ok docs end
  end.
Definition test_options (cfg : config) : TestOptions.t :=
  TestOptions.New (TestOptions.mk (AppConfig.Concurrency (Config.App cfg)) (TestTimeout cfg) false).
Definition Run (cfg : config) (e : RunEnv.t) : option Outcome.t * option error :=
  match fetch_documents cfg e with
  | Err err => (None, Some err)
  | Ok docs =>
      let all := parsed_nodes docs in
      match cleaned cfg all with
      | [] => (Some (Outcome.mk (count (fetched_ok docs)) (count all) (count all) 0 0 0 0 [] (took e)),
               Some (ErrMsg "no valid nodes after clean"))
      | unique =>
          let unique := TestAll (test_options cfg) (RunEnv.Trials e) unique in
          let final := Apply (Some <$> unique) cfg in
          match Export (RunEnv.Files e) final cfg with
          | Err err => (None, Some err)
          | Ok _ => (Some (Outcome.mk (count (fetched_ok docs)) (count all) (count all) (count unique)
                            (count (List.filter Node.Alive unique)) (count final) 0 final (took e)), None)
          end
      end
  end.
(** [RunFetchOnly] *)
Definition untested (cfg : config) : config :=
  cfg <| Config.Filter := (Config.Filter cfg) <| FilterConfig.MinSuccess := false |> |>.
Definition RunFetchOnly (cfg : config) (e : RunEnv.t) : option Outcome.t * option error :=
  match fetch_documents cfg e with
  | Err err => (None, Some err)
  | Ok docs =>
      let all := parsed_nodes docs in
      let unique := cleaned cfg all in
      let final := Apply (Some <$> unique) (untested cfg) in
      match Export (RunEnv.Files e) final cfg with
      | Err err => (None, Some err)
      | Ok _ => (Some (Outcome.mk (count (fetched_ok docs)) (count all) (count all) (count unique) 0 (count final) 0 final (took e)), None)
      end
  end.

(** ** [main] of [cmd/nodeharvest] *)

Definition overridden (f : Flags.t) (cfg : config) : config :=
  let cfg := if 0 <? Flags.Concurrency f
             then cfg <| Config.App := (Config.App cfg) <| AppConfig.Concurrency := Flags.Concurrency f |> |> else cfg in
  let cfg := if 0 <? Flags.MaxLatency f
             then cfg <| Config.Filter := (Config.Filter cfg) <| FilterConfig.MaxLatencyMS := Flags.MaxLatency f |> |> else cfg in
  let cfg := if 0 <? Flags.MaxNodes f
             then cfg <| Config.Filter := (Config.Filter cfg) <| FilterConfig.MaxNodes := Flags.MaxNodes f |> |> else cfg in
  if (Flags.LogLevel f =? "")%string then cfg
  else cfg <| Config.Logging := (Config.Logging cfg) <| LoggingConfig.Level := Flags.LogLevel f |> |>.
(** The lines of the summary, and the exit status *)
Definition printSummary (r : Outcome.t) : list string :=
  ([""; "========== NodeHarvest summary =========="; "sources ok : " +:+ Itoa (Outcome.FetchedSources r);
    "parsed     : " +:+ Itoa (Outcome.ParsedCount r); "unique     : " +:+ Itoa (Outcome.UniqueCount r);
    "alive      : " +:+ Itoa (Outcome.AliveCount r); "exported   : " +:+ Itoa (Outcome.ExportedCount r);
    "duration   : " +:+ Outcome.Duration_ r; "========================================="] ++
   (if 0 <? Outcome.ExportedCount r
    then ["output files are under the configured export dir (default: output/)"] else []))%list.
Definition main (loaded : result config) (f : Flags.t) (e : RunEnv.t) : list string * Z :=
  match loaded with
  | Err _ => ([], 1)
  | Ok cfg =>
      let cfg := overridden f cfg in
      let '(res, err) := if Flags.SkipTest f then RunFetchOnly cfg e else Run cfg e in
      (from_option printSummary [] res, match err with Some _ => 1 | None => 0 end)
  end.

(** ** What a run promises *)

(** The counts of a result are those of one set of nodes that only shrinks. *)
Lemma cleaned_count cfg nodes : count (cleaned cfg nodes) ≤ count nodes.
Proof.
  unfold cleaned, count. rewrite range_nodes_perm. unfold Sql.rows. rewrite length_fmap. apply inj_le.
  rewrite <-(length_fmap fst). trans (length (dedup_key cfg <$> admitted cfg (Some <$> nodes))).
  - apply submseteq_length, NoDup_submseteq; [apply NoDup_fst_map_to_list|].
    intros k ([? r] & -> & Hr)%list_elem_of_fmap. apply elem_of_map_to_list in Hr. simpl.
    pose proof (clean_loop_inv cfg (Some <$> nodes) s) as Hinv. rewrite Hr in Hinv.
    destruct Hinv as (<- & (m & Hm & Hr') & _). apply list_elem_of_fmap. exists m. split; [|done].
    by rewrite Hr', dedup_key_sources.
  - rewrite length_fmap. unfold admitted. etrans; [apply List.filter_length_le|]. rewrite length_fmap, omap_given. lia.
Qed.

Lemma Apply_count cfg nodes : count (Apply (Some <$> nodes) cfg) ≤ count (List.filter (apply_keep cfg) nodes).
Proof.
  unfold Apply, sortNodes, truncate, count. rewrite omap_given.
  case_if; rewrite ?length_take, length_stable_sort; lia.
Qed.
(** A run exports only nodes it harvested in this run, as their test left them,
    that pass the filter of the configuration: with [min_success] those it
    connected to, each with a percentage for its score.  The counts of the
    result are those of sets that only shrink: what was parsed, cleaned, alive
    and exported. *)
Theorem run_exact cfg e r : Run cfg e = (Some r, None) →
  (∀ m, m ∈ Outcome.Nodes r → ∃ docs i n, fetch_documents cfg e = Ok docs ∧ cleaned cfg (parsed_nodes docs) !! i = Some n ∧
     m = node_after (test_options cfg) (RunEnv.Trials e i) n ∧ apply_keep cfg m = true ∧
     (FilterConfig.MinSuccess (Config.Filter cfg) = true → connected (RunEnv.Trials e i) ∧ in_percent (Node.Score m))) ∧
  Outcome.ExportedCount r = count (Outcome.Nodes r) ∧
  (FilterConfig.MinSuccess (Config.Filter cfg) = true → Outcome.ExportedCount r ≤ Outcome.AliveCount r) ∧
  Outcome.ExportedCount r ≤ Outcome.UniqueCount r ∧ 0 ≤ Outcome.AliveCount r ≤ Outcome.UniqueCount r ∧
  0 < Outcome.UniqueCount r ≤ Outcome.ParsedCount r ∧ Outcome.RawCount r = Outcome.ParsedCount r.
Proof.
  unfold Run. destruct (fetch_documents cfg e) as [docs|] eqn:Ed; [|done]. cbv zeta.
  pose proof (cleaned_count cfg (parsed_nodes docs)) as Hc. destruct (cleaned cfg (parsed_nodes docs)) as [|n0 l] eqn:Eu; [done|].
  remember (TestAll _ _ (n0 :: l)) as unique eqn:E. assert (count unique = count (n0 :: l)) as Hlen.
  { rewrite E. unfold count, TestAll. by rewrite length_imap. }
  destruct (Export _ _ _); [|done]. intros [= <-]. simpl.
  assert (∀ m, apply_keep cfg m = true → FilterConfig.MinSuccess (Config.Filter cfg) = true → Node.Alive m = true) as Hk.
  { intros m Hm Hs. unfold apply_keep in Hm. rewrite Hs in Hm. by destruct (Node.Alive m). }
  pose proof (Apply_count cfg unique) as Hf. split_and!.
  - intros m [Hm Hkeep]%elem_of_Apply. rewrite E in Hm. apply elem_of_TestAll in Hm as (i & n & Hi & ->). exists docs, i, n.
    split_and!; [done|by rewrite Eu|done|done|]. intros Hs. specialize (Hk _ Hkeep Hs). apply tried_alive in Hk.
    split; [done|by apply tried_score].
  - done.
  - intros Hs. etrans; [exact Hf|]. unfold count. apply inj_le.
    assert (∀ l : list node, (length (List.filter (apply_keep cfg) l) ≤ length (List.filter Node.Alive l))%nat) as H'; [|apply H'].
    intros k. induction k as [|m k IH]; [done|]. simpl. destruct (apply_keep cfg m) eqn:Em; [rewrite (Hk m Em Hs)|destruct (Node.Alive m)]; simpl; lia.
  - etrans; [exact Hf|]. unfold count. apply inj_le, List.filter_length_le.
  - unfold count. lia.
  - unfold count. apply inj_le, List.filter_length_le.
  - rewrite Hlen. unfold count. simpl. lia.
  - by rewrite Hlen.
  - done.
Qed.
(** Without the test nothing is alive, and a node is exported untested. *)
Lemma fetch_only_exact cfg e r : RunFetchOnly cfg e = (Some r, None) →
  Outcome.AliveCount r = 0 ∧
  ∀ m, m ∈ Outcome.Nodes r → ∃ docs, fetch_documents cfg e = Ok docs ∧ m ∈ cleaned cfg (parsed_nodes docs).
Proof.
  unfold RunFetchOnly. destruct (fetch_documents cfg e) as [docs|]; [|done]. cbv zeta. destruct (Export _ _ _); [|done].
  intros [= <-]. split; [done|]. intros m [Hm _]%elem_of_Apply. by exists docs.
Qed.
End pipeline.
