(* ===== verification/WebRoot.v ===== *)
(** * The command of the server: [cmd/server/main.go]

    Which requests go to the interface and which to the files of the frontend,
    and which file answers.  What [filepath.EvalSymlinks] and [os.Stat] say of
    the file system is an argument; paths are separated by slashes. *)
From S2P Require Import Prelude GoStr GoFloat GoTime Model Base64 Ratelimit NetAddr NetUrl Config ConfigCheck ConfigValid.
From S2P Require Import Sql Tasks Jobs Alerts Links Clash Content Cleaner Filter Scoring NodeStore NodesDB Pools Exporter Publish.
From S2P Require Import Outbound Fetch Sources Dial DialJob Select Runner Harvest QualityJob Geo AIAccess Enrich.

(** ** [filepath] *)

(** The elements of a path that [filepath.Clean] keeps *)
Definition rooted (p : string) : bool := HasPrefix p "/".
Definition elements (p : string) : list string := clean_elems (rooted p) [] (Split p "/").
(** [filepath.Ext] *)
Definition Ext (p : string) : string :=
  let name := match CutLast p "/" with Some (_, name) => name | None => p end in
  match CutLast name "." with Some (_, e) => "." +:+ e | None => "" end.
(** [filepath.Rel]: without what both begin with, one step up for each element
    of the base that is left *)
Fixpoint strip (base targ : list string) : list string * list string :=
  match base, targ with
  | b :: base', t :: targ' => if (b =? t)%string then strip base' targ' else (base, targ)
  | _, _ => (base, targ)
  end.
Definition Rel (base targ : string) : option string :=
  if negb (Bool.eqb (rooted base) (rooted targ)) then None
  else
    match strip (elements base) (elements targ) with
    | ([], []) => Some "."
    | ([], t) => Some (Join t "/")
    | (b :: rest, t) =>
        if (b =? "..")%string then None
        else Some (Join (replicate (S (length rest)) ".." ++ t) "/")
    end.

(** ** The frontend *)

(** [withinDir] *)
Definition withinDir (root path : string) : bool :=
  match Rel root path with
  | Some rel => negb (rel =? "..")%string && negb (HasPrefix rel "../")
  | None => false
  end.

Section web.
Context (EvalSymlinks : string → option string) (is_dir : string → option bool).

(** [spaHandler]: the file that answers, or none; [abs] is [filepath.Abs] of
    the directory. *)
Definition web_root (abs : string) : string := default abs (EvalSymlinks abs).
Definition reserved (path : string) : bool :=
  bool_decide (path ∈ ["/api"; "/sub"; "/metrics"]) || HasPrefix path "/api/" || HasPrefix path "/sub/".
Definition regular (root p : string) : option string :=
  match EvalSymlinks p with
  | Some f => if withinDir root f && bool_decide (is_dir f = Some false) then Some f else None
  | None => None
  end.
Definition index_page (root : string) : option string :=
  match EvalSymlinks (file_join root "index.html") with
  | Some f => if withinDir root f then Some f else None
  | None => None
  end.
Definition spaHandler (abs path : string) : option string :=
  let root := web_root abs in
  if reserved path then None
  else
    let p := file_join root (TrimPrefix path "/") in
    match regular root p with
    | Some f => Some f
    | None =>
        match (if (Ext p =? "")%string then regular root (p +:+ ".html") else None) with
        | Some f => Some f
        | None => index_page root
        end
    end.
End web.

(** ** The two of them *)

(** The patterns [main] registers for the interface; everything else is the
    frontend's. *)
Definition api_patterns (cfg : config) : list string :=
  let prefix := TrimRight (PublishConfig.PathPrefix (Config.Publish cfg)) "/" in
  (["/api/"; "/api"; "/sub/"; "/sub"; "/metrics"] ++
   (if negb (prefix =? "")%string && negb (prefix =? "/sub")%string && negb (HasPrefix prefix "/sub/")
       && negb (prefix =? "/api")%string && negb (HasPrefix prefix "/api/")
    then [prefix +:+ "/"; prefix] else []) ++
   (if ServerConfig.EnablePprof (Config.Server cfg) then ["/debug/pprof/"] else []))%list.
(** A pattern that ends in a slash stands for a subtree. *)
Definition matches (pattern path : string) : bool :=
  if HasSuffix pattern "/" then HasPrefix path pattern else (path =? pattern)%string.
Definition to_api (cfg : config) (path : string) : bool := existsb (λ p, matches p path) (api_patterns cfg).

(** [setupLogger] *)
Inductive log_level := LevelDebug | LevelInfo | LevelWarn | LevelError.
Definition level_of `{Unicode} (level : string) : log_level :=
  let l := ToLower level in
  if (l =? "debug")%string then LevelDebug else if (l =? "warn")%string then LevelWarn
  else if (l =? "error")%string then LevelError else LevelInfo.

(** ** What the frontend promises *)

Lemma strip_spec base targ b t : strip base targ = (b, t) → ∃ c, base = (c ++ b)%list ∧ targ = (c ++ t)%list.
Proof.
  revert targ b t. induction base as [|x base IH]; intros targ b t; simpl; [by intros [= <- <-]; exists []|].
  destruct targ as [|y targ]; [by intros [= <- <-]; exists []|].
  destruct (String.eqb_spec x y) as [->|]; [|by intros [= <- <-]; exists []].
  intros (c & -> & ->)%IH. by exists (y :: c).
Qed.
Lemma withinDir_prefix root path : withinDir root path = true →
  rooted path = rooted root ∧ elements root `prefix_of` elements path.
Proof.
  unfold withinDir, Rel. intros Hw. destruct (Bool.eqb (rooted root) (rooted path)) eqn:Er; [|done]. apply eqb_prop in Er. cbn [negb] in Hw.
  destruct (strip _ _) as [b t] eqn:E. destruct (strip_spec _ _ _ _ E) as (c & Hb & Ht). split; [done|].
  destruct b as [|x b]; [rewrite app_nil_r in Hb; rewrite Hb, Ht; by eexists|]. exfalso.
  destruct (x =? "..")%string; [done|]. revert Hw. cbn [replicate length app].
  destruct (replicate (length b) ".." ++ t)%list as [|y l]; [done|].
  change (Join (".." :: y :: l) "/") with ("../" +:+ Join (y :: l) "/").
  rewrite HasPrefix_refl_app. by rewrite andb_false_r.
Qed.

(** The elements of a path from the root take no step up. *)
Lemma clean_rooted acc l : Forall (λ x, x ≠ "" ∧ x ≠ "." ∧ x ≠ "..") acc → Forall (λ x, x ≠ "" ∧ x ≠ "." ∧ x ≠ "..") (clean_elems true acc l).
Proof.
  revert acc. induction l as [|x l IH]; intros acc Ha; simpl; [by apply Forall_rev|].
  case_bool_decide as Hx; [by apply IH|]. destruct (String.eqb_spec x "..") as [->|Hd].
  - destruct acc as [|y acc]; [by apply IH|]. apply Forall_cons in Ha as [Hy Ha].
    destruct (String.eqb_spec y "..") as [->|]; [naive_solver|by apply IH].
  - apply IH, Forall_cons. split; [|done]. set_solver.
Qed.
Lemma elements_rooted p : rooted p = true → Forall (λ x, x ≠ "" ∧ x ≠ "." ∧ x ≠ "..") (elements p).
Proof. intros Hp. unfold elements. rewrite Hp. by apply clean_rooted. Qed.

(** The frontend serves only files of its directory.  Whatever the path of a
    request, with steps up, with links of the file system that lead elsewhere,
    or with neither, the file that answers is one the file system resolves a
    path to, and it lies below the resolved directory: its elements are those
    of the directory and more, and none of them is a step up.  A path of the
    interface is answered by no file, and [main] hands it to the interface. *)
Theorem frontend_confined EvalSymlinks is_dir cfg abs path f :
  rooted (web_root EvalSymlinks abs) = true → spaHandler EvalSymlinks is_dir abs path = Some f →
  (∃ p, EvalSymlinks p = Some f) ∧ rooted f = true ∧
  elements (web_root EvalSymlinks abs) `prefix_of` elements f ∧ Forall (λ x, x ≠ "" ∧ x ≠ "." ∧ x ≠ "..") (elements f) ∧
  reserved path = false ∧ (∀ path', reserved path' = true → to_api cfg path' = true).
Proof.
  intros Hroot Hs. assert (reserved path = false ∧ ∃ p, EvalSymlinks p = Some f ∧ withinDir (web_root EvalSymlinks abs) f = true) as
    (Hres & p & Hp & Hin).
  { assert (∀ p, regular EvalSymlinks is_dir (web_root EvalSymlinks abs) p = Some f →
      ∃ p, EvalSymlinks p = Some f ∧ withinDir (web_root EvalSymlinks abs) f = true) as Hreg.
    { intros p. unfold regular. destruct (EvalSymlinks p) as [g|] eqn:Eg; [|done].
      destruct (withinDir _ g) eqn:Ew; [|done]. destruct (bool_decide _); [|done]. intros [= <-]. by exists p. }
    revert Hs. unfold spaHandler. destruct (reserved path); [done|]. intros Hs. split; [done|]. revert Hs. cbv zeta.
    destruct (regular _ _ _ (file_join _ _)) as [g|] eqn:E1; [intros [= ->]; by eapply Hreg|].
    destruct (if (Ext _ =? "")%string then _ else None) as [g|] eqn:E2.
    - intros [= ->]. destruct (Ext _ =? "")%string; [by eapply Hreg|done].
    - unfold index_page. destruct (EvalSymlinks (file_join _ "index.html")) as [g|] eqn:Eg; [|done].
      destruct (withinDir _ g) eqn:Ew; [|done]. intros [= <-]. by eexists. }
  destruct (withinDir_prefix _ _ Hin) as [Hr Hpre]. rewrite Hroot in Hr. split_and!; try done; [by exists p|by apply elements_rooted|].
  intros path' Hp'. unfold to_api. apply existsb_exists. unfold reserved in Hp'.
  assert (∀ pat, pat ∈ ["/api/"; "/api"; "/sub/"; "/sub"; "/metrics"] → matches pat path' = true →
    ∃ x, In x (api_patterns cfg) ∧ matches x path' = true) as Hpat.
  { intros pat Hpat Hm. exists pat. split; [|done]. apply list_elem_of_In. unfold api_patterns. set_solver. }
  apply orb_prop in Hp' as [Hp'|Hp']; [apply orb_prop in Hp' as [Hp'|Hp']|].
  - apply bool_decide_eq_true in Hp'. apply (Hpat path'); [set_solver|].
    assert (HasSuffix path' "/" = false) as Hsf by (revert Hp'; rewrite !elem_of_cons, elem_of_nil; by intros [->|[->|[->|[]]]]).
    unfold matches. rewrite Hsf. apply String.eqb_refl.
  - apply (Hpat "/api/"); [set_solver|done].
  - apply (Hpat "/sub/"); [set_solver|done].
Qed.
